(* ===== verification/_CoqProject ===== *)
-Q . S2P
Prelude.v
Text.v
Model.v
Types.v
Tlv8.v
Crypto.v
Stream.v
RecordLayer.v
Http.v
Session.v
Srp.v
PairSetup.v
PairVerify.v
Store.v
StoreFs.v
Pairing.v
Tcp.v
DutPairing.v
ThreadPdu.v
Coap.v
DutServer.v
DutExchange.v
ThreadAccessory.v
ThreadLink.v
ThreadDb.v
ModelJson.v
BlePdu.v
BleAccessory.v
BleEvents.v
BleLink.v
Handle.v
Reconnect.v
Discovery.v
SetupPayload.v
BleWatch.v
Unified.v
StoreApi.v
Controller.v
ControllerRefine.v
IpStack.v
Sleepy.v
Bluest.v
ScanGate.v
Light.v
FuzzLock.v
Codegen.v
