(* ===== verification/Prelude.v ===== *)
(** * hap-rust: a verification library for the HomeKit controller

    The program (src/crates) is a HomeKit Accessory Protocol controller.  A pairing is
    made once (Pair Setup, SRP-6a over TLV8), a session is opened on each connection
    (Pair Verify, X25519 and Ed25519) and requests then travel encrypted: over IP as
    HTTP in a ChaCha20-Poly1305 record layer, over Thread as HAP PDUs in CoAP, over BLE
    as fragmented HAP PDUs on GATT characteristics.  Above the transports sit the
    accessory model, the pairing store and the controller that keeps sessions alive.

    ** Files and what they model

    - [Prelude]: bytes, fixed-width integers, [Result] with panics ([Fault]), stateful
      computations, loops with fuel, slices; the tactics and hints of the library.
    - [Text]: UTF-8, trimming, radix parsing and decimal printing of Rust's [str].
    - [Tlv8] (hap-tlv8): the writer, the reader loop and the typed map.
    - [Crypto] (hap-crypto aead, kdf, keys, setup, broadcast): the wrappers over the
      primitives, and the broadcast cipher.  The primitives are the class [Crypto],
      their documented behaviour the class [CryptoLaws].
    - [Stream]: incremental consumers of a byte stream and the interface [StableStep].
    - [RecordLayer], [Http], [Session] (hap-transport): frames, the HTTP/EVENT parser,
      the demultiplexer, the reader task and the request half of a session.
    - [Srp], [PairSetup], [PairVerify] (hap-crypto): the SRP group arithmetic and both
      controller state machines.
    - [Tcp] (hap-transport connection, session): [HapConnection] and [SecureSession] driving
      a socket, an HTTP server at its other end, and the interface between requests and
      connections.
    - [DutPairing], [DutServer] (hap-thread-dut): the reference accessory, its pairing
      handlers, resources, datagram loop and events.  [DutExchange]: the messages of Pair
      Setup and Pair Verify between the controller's machines and these handlers.  [Light]
      (hap-thread-dut light, main): the actuators, the command line and the serving loop.
    - [ThreadPdu], [Coap], [ThreadAccessory] (hap-thread): PDUs of both sides, CoAP
      exchanges and block-wise transfer, the secure operations and pairing drivers.
    - [ThreadLink]: controller and accessory end to end over a lossy network.
    - [Pairing] (hap-pairing wire, setup, verify, pairings): the pairing drivers over IP,
      reconnecting to a stored accessory, the accessory's list of pairings.
    - [Store] (hap-pairing store): the JSON file store, each operation a program of calls
      on its lock and files.  [StoreFs]: the files, the tasks, cancelled calls and crashes,
      and the atomic store it implements.
    - [Model], [Types], [ModelJson] (hap-model): UUIDs, permissions, formats and the
      attribute tree; the generated services and characteristics ([hap_types] is the
      instance of the class [Generated] the other files are written against); JSON
      values, the requests and responses of [/characteristics], [/accessories], and the
      deserialisers serde derives for them.
    - [BlePdu], [BleAccessory], [BleEvents], [BleLink] (hap-ble): PDUs, fragments and the
      encrypted session; values, the attribute tree, connecting and the operations with
      their revival of a dead session; the tasks that merge advertisements and polls; the
      accessory's side, a link that may drop at any call, and the register they implement.
    - [BleWatch] (hap-ble accessory): subscriptions and the two watches of a sleepy
      accessory.  [Bluest] (hap-ble bluest_gatt): the [Gatt] connection over the radio
      stack, its reconnects and the sweep of the database.  [ScanGate] (hap-ble scan_gate
      and the scan task of bluest_gatt): who owns the radio.
    - [ThreadDb] (hap-thread database, controller): the typed database of a Thread
      accessory, pairing and connecting.
    - [Discovery] (the discovery files of hap-transport, hap-thread and hap-ble,
      hap-controller discover_until): browsing, scanning and merging what is found.
    - [SetupPayload] (hap-controller setup_payload, payload_match): the setup URI and the
      accessory it means.
    - [Handle] (hap-controller handle): one accessory over IP, and an accessory that
      speaks the protocol: it looks the members of the JSON objects up by their names in
      the specification and prints its own ([HapPeer]).  [Reconnect] (hap-controller reconnect and the supervisor of
      handle): a session that is renewed under foreground requests.  [Unified]
      (hap-controller unified): the handle that hides the transport.
    - [StoreApi] (hap-pairing store): the trait [PairingStore] as an interface with laws,
      and [JsonFileStore] as its instance.
    - [Controller] (hap-controller controller): every operation of [HapController];
      [ControllerRefine]: their specification, the record of pairings they maintain.
      [IpStack]: store, controller, handle, pairing drivers and sessions together, against
      an accessory on the network.
    - [Sleepy] (hap-ble sleepy, hap-controller sleepy and the waits of controller): waiting
      for an accessory that sleeps, and the watch that persists what it hears.
    - [FuzzLock], [Codegen] (xtask): the gate on the lockfiles of the fuzz workspaces; the
      generator of generated.rs and the commands.

    ** Modelling conventions

    A [u8] is a [byte], wider integers are [Z] with the wrap-around written out; lengths and
    positions inside a buffer are [nat]. [+] that may overflow is [add_u], which panics or
    wraps according to the build ([Build]: overflow checks and debug assertions). A fallible
    function returns [result E A], where [Fault] is a panic or exhausted fuel; theorems
    named [*_return(s)] or [*_total] exclude both. A method with state is [stateful S E A]:
    the state survives an error. Random values are arguments. Third-party code is a
    parameter with named laws: [Crypto], [BigUintOps] (num-bigint), [CoapLite] (coap-lite),
    [Network] (the socket), [DocumentCodec] (serde_json on the store's document), [SerdeJson]
    (the text of a JSON value, written and read, and its numbers), [Base64Engine]
    (base64), [Bluest] (the bluest crate), [Toml] and [TableCodec] (the parsers of xtask's
    inputs). What a file is written against is a class too: [Gatt] and [GattWatch] (the GATT
    connection, which [Bluest.bluest_gatt] implements), [HttpConn] and [Dialer]
    (connections), [PairingStore] (the store, which [StoreApi.json_store] implements),
    [World] (the network and the radio of a controller). A client and its peer meet in a
    class that says only how a call is answered ([PairingsLink], [IpLink], the link of
    [BleLink]; [HttpLink], of which the sockets of [Tcp] are an instance, and from which
    [IpStack] makes an [IpLink]). What a program runs on is a class as well: [Socket],
    [Board] (the LED and the UDP socket of the reference light), [Host] (files and
    processes). Each class has an instance on which the laws are proved and the witnesses
    run.

    ** Fuel

    The reader loops take one more than the length of their input (each turn consumes
    at least a byte); [fetch_blocks] one more than [MAX_BLOCKS]; [setup_loop] and
    [verify_loop] one more than the number of messages the client can still send.  A
    caller chooses the fuel of [await_separate], the number of duplicate empty
    acknowledgements tolerated, and how often the reader task is scheduled while a request
    over a socket waits, enough when it exceeds twenty times the bytes of the answer
    (nineteen for a frame of one byte).  [resume] takes one more than the reconnects allowed.  A wait without a limit
    takes the scan windows or attempts that have passed and says when it has not ended.

    ** What the theorems show

    - Codecs: TLV8, HTTP, record frames and PDUs read back exactly what is written; the
      TLV8 reader equals its declarative specification; no decoder panics, with the one
      exception of an oversized HTTP chunk, which is characterised.
    - Pairing: both exchanges complete between the two sides' own code and yield the
      same keys; no run of either machine yields a pairing or keys without the peer's
      proof received in that run; errors and states on every branch.
    - Sessions: frames are sealed and opened byte for byte as the record layer says, and
      nonces never repeat; whatever the segmentation of the stream, requests, responses and
      events are delivered in order, over the bounded channels of the session as long as
      the receiver of the events keeps up.
    - Thread: an exchange returns only its own response; a POST runs the accessory once
      in every framing and despite lost datagrams of the controller; the operations refine
      an abstract light bulb; pushed events are taken in order, however pushes, the reader
      and the calls interleave; the drivers terminate.
    - BLE: every sequence of reads and writes over a link that may drop at any moment
      returns, acts as a register, and fails at most once per loss; fragments fit and
      reassemble; no change is reported twice; broadcasts are accepted exactly; a
      subscription reports the current value; over the radio stack an operation makes at
      most eight reconnects, and a sweep that is interrupted still lists what an
      uninterrupted one lists; a pause that was acknowledged keeps the scan off the air,
      but for the one opening it did not see.
    - IP: the handle is a store of typed values with subscriptions; the pairings
      operations are a table; the JSON store is linearizable, and a crash takes it back to a
      whole state it has had ([StoreFs.late_rename_corrupts] shows what a cancelled call
      that is still running can do); a request is sent as it is, once or again on a renewed
      session, and answered by one of them, and a renewed session has its subscriptions
      before it is used.  End to end: over sockets every
      request gets its own answer however TCP cuts the stream, and pairing with an accessory
      that answers there stores the record and gives a handle that works, then and after
      connecting again.
    - Controller: its operations keep the stored pairings, the snapshot of ids and the
      identity in step over any store that keeps its laws and any network; both kinds of
      handle are one store of typed values; discovery loses and invents nothing; a setup
      payload is read back and selects one accessory or none; a sleepy watch forwards every
      event and persists the last state it could save.
    - Tools: the lockfile gate passes exactly when the lockfiles are in step; the tables of
      generated.rs are what the generator makes of its table; the reference light shows its
      [On] characteristic.

    ** Not modelled

    Sockets, timers, task scheduling and channels below the interfaces named above: the
    events of a browse or a scan are a sequence, a time limit is an answer of the
    environment.  Looking up a Bluetooth device of the adapter ([connect_gatt]) is an
    operation of [World].  JSON and TOML text; logging; the parsing of xtask's command line,
    which is clap's.  A channel of Tokio is a list with the session's bounds in [Tcp] and
    without one elsewhere.  Of the pairing store, the linearizability theorem leaves out the
    runs in which a call of a cancelled task is still running when the lock is taken again.
    The mutex that orders the arming of sleepy watches, and the stream
    types handed to the caller, are left out. *)

From Stdlib Require Export ZArith Lia.
From stdpp Require Export base gmap strings numbers.
From stdpp Require Export list.
From Stdlib Require Strings.Byte Strings.String.
Export Corelib.Init.Byte.

#[global] Arguments Nat.modulo : simpl never.
#[global] Arguments Nat.div : simpl never.

(** ** Bytes and strings *)

(** A Rust [u8] is one of the 256 constructors of [byte]. *)
Abbreviation bytes := (list byte).

Declare Scope hap_scope.
Delimit Scope hap_scope with hap.

Definition byteZ (b : byte) : Z := Z.of_N (Strings.Byte.to_N b).

(** The [as u8] cast: keep the low eight bits. *)
Definition Zbyte (z : Z) : byte := default x00 (Strings.Byte.of_N (Z.to_N (z mod 256))).

(** A string literal as its UTF-8 bytes; Rust's [str] is modelled as its bytes. *)
Definition str (s : string) : bytes := String.list_byte_of_string s.

#[export] Instance byte_eq_dec : EqDecision byte := Strings.Byte.byte_eq_dec.
#[export] Program Instance byte_countable : Countable byte :=
  inj_countable Strings.Byte.to_N Strings.Byte.of_N _.
Next Obligation. intros b. apply Strings.Byte.of_to_N. Qed.

(** A number as bytes and back, for the concrete codecs of the witnesses. *)
Fixpoint pos_bytes (p : positive) : bytes :=
  match p with xH => [] | xO p => x00 :: pos_bytes p | xI p => x01 :: pos_bytes p end.
Fixpoint bytes_pos (bs : bytes) : positive :=
  match bs with [] => xH | x00 :: bs => xO (bytes_pos bs) | _ :: bs => xI (bytes_pos bs) end.

(** [uN::to_le_bytes] at a width of [n] bytes, and [uN::from_le_bytes]. *)
Fixpoint le_bytes (n : nat) (z : Z) : bytes :=
  match n with
  | O => []
  | S n' => Zbyte z :: le_bytes n' (z / 256)
  end.

Fixpoint le_Z (bs : bytes) : Z :=
  match bs with
  | [] => 0
  | b :: bs' => byteZ b + 256 * le_Z bs'
  end%Z.

(** Big-endian value of a byte string. *)
Definition be_Z (bs : bytes) : Z := le_Z (reverse bs).

(** Wrapping addition of a [w]-bit unsigned integer. *)
Definition wrapping_add (w : Z) (a b : Z) : Z := ((a + b) mod 2 ^ w)%Z.
Definition wrapping_sub (w : Z) (a b : Z) : Z := ((a - b) mod 2 ^ w)%Z.

(** Range of a [w]-bit unsigned integer. *)
Definition in_u (w : Z) (z : Z) : Prop := (0 <= z < 2 ^ w)%Z.

(** ** Outcomes of Rust computations

    [Ok] and [Err] are the two constructors of [Result].  A computation that
    panics, or a loop cut off by its fuel, is a [Fault]: the theorems named
    [*_returns] show that a function has neither on any input. *)

Inductive fault := Panicked | OutOfFuel.

Inductive result (E A : Type) :=
| Ok (a : A)
| Err (e : E)
| Fault (f : fault).
Arguments Ok {E A} a.
Arguments Err {E A} e.
Arguments Fault {E A} f.

#[export] Instance result_ret {E} : MRet (result E) := fun A a => Ok a.
#[export] Instance result_bind {E} : MBind (result E) := fun A B f m =>
  match m with Ok a => f a | Err e => Err e | Fault x => Fault x end.
#[export] Instance result_fmap {E} : FMap (result E) := fun A B f m =>
  match m with Ok a => Ok (f a) | Err e => Err e | Fault x => Fault x end.

(** [Result::map_err] (also the [From] conversion of [?]). *)
Definition map_err {E F A} (f : E -> F) (m : result E A) : result F A :=
  match m with Ok a => Ok a | Err e => Err (f e) | Fault x => Fault x end.

(** [Option::ok_or]. *)
Definition ok_or {E A} (o : option A) (e : E) : result E A :=
  match o with Some a => Ok a | None => Err e end.

(** [Result::ok]; a fault propagates, it is not caught. *)
Definition is_ok {E A} (m : result E A) : bool :=
  match m with Ok _ => true | _ => false end.

Definition returns {E A} (m : result E A) : Prop :=
  match m with Fault _ => False | _ => True end.

(** Indexing [v[i]] panics out of range, as does slicing [v[i..j]];
    [v.get(i..j)] returns [None]. *)
Definition index {E A} (l : list A) (i : nat) : result E A :=
  match l !! i with Some x => Ok x | None => Fault Panicked end.

Definition get_range {A} (l : list A) (i j : nat) : option (list A) :=
  if (i <=? j) && (j <=? length l) then Some (take (j - i) (drop i l)) else None.

Definition slice {E A} (l : list A) (i j : nat) : result E (list A) :=
  match get_range l i j with Some s => Ok s | None => Fault Panicked end.

(** [usize::checked_add] on positions of an in-memory slice.  A Rust slice holds
    at most [isize::MAX] bytes, so adding a wire length to a position of one
    never overflows: positions are unbounded [nat]s here. *)
Definition checked_add (a b : nat) : option nat := Some (a + b).

(** [+] on a [w]-bit unsigned integer: an overflow panics in a build with
    overflow checks and wraps around in one without. *)
Class Build := { overflow_checks : bool; debug_assertions : bool }.

Definition add_u `{Build} {E} (w a b : Z) : result E Z :=
  if (a + b <? 2 ^ w)%Z then Ok (a + b)%Z
  else if overflow_checks then Fault Panicked
  else Ok (wrapping_add w a b).

(** [debug_assert!]: checked only in a build with debug assertions. *)
Definition debug_assert `{Build} {E} (b : bool) : result E () :=
  if debug_assertions && negb b then Fault Panicked else Ok ().

(** A Rust slice or vector holds at most [isize::MAX] bytes. *)
Definition fits {A} (l : list A) : Prop := (Z.of_nat (length l) < 2 ^ 63)%Z.

(** [v[i..j]] with positions that may be any [usize]. *)
Definition slice_Z {E A} (l : list A) (i j : Z) : result E (list A) :=
  if ((i <=? j) && (j <=? Z.of_nat (length l)))%Z
  then Ok (take (Z.to_nat (j - i)) (drop (Z.to_nat i) l)) else Fault Panicked.

(** ** Stateful computations

    A method on [&self] or [&mut self] that can fail: the state survives an early
    return of an error, with whatever was changed before it. *)

Definition stateful (S E A : Type) : Type := S -> result E A * S.

#[export] Instance stateful_ret {S E} : MRet (stateful S E) := fun A a s => (Ok a, s).
#[export] Instance stateful_bind {S E} : MBind (stateful S E) := fun A B f m s =>
  match m s with
  | (Ok a, s') => f a s'
  | (Err e, s') => (Err e, s')
  | (Fault x, s') => (Fault x, s')
  end.

Definition lift {S E A} (m : result E A) : stateful S E A := fun s => (m, s).
Definition get_state {S E} : stateful S E S := fun s => (Ok s, s).
Definition modify {S E} (f : S -> S) : stateful S E () := fun s => (Ok (), f s).

(** An operation on a local object, beside the rest of the state. *)
Definition on_local {L W E A} (l : L) (m : stateful (L * W) E A) : stateful W E (A * L) := fun w =>
  let '(r, (l, w)) := m (l, w) in (a ← r; Ok (a, l), w).

(** The same computation with its errors converted ([?] into another error type). *)
Definition with_err {S E F A} (f : E -> F) (m : stateful S E A) : stateful S F A := fun s =>
  let '(r, s) := m s in (map_err f r, s).

(** The value of a [Result]-returning call that is matched on rather than propagated. *)
Definition attempt {S E F A} (m : stateful S E A) : stateful S F (A + E) := fun s =>
  match m s with
  | (Ok a, s') => (Ok (inl a), s')
  | (Err e, s') => (Ok (inr e), s')
  | (Fault f, s') => (Fault f, s')
  end.

(** ** Loops

    [loop fuel body s] runs [loop { .. }]: the body either continues with a new
    state or breaks with the loop's value. *)

Inductive flow (S R : Type) := Continue (s : S) | Break (r : R).
Arguments Continue {S R} s.
Arguments Break {S R} r.

Fixpoint loop {E S R} (fuel : nat) (body : S -> result E (flow S R)) (s : S) : result E R :=
  match fuel with
  | O => Fault OutOfFuel
  | S fuel' =>
      match body s with
      | Ok (Continue s') => loop fuel' body s'
      | Ok (Break r) => Ok r
      | Err e => Err e
      | Fault x => Fault x
      end
  end.

(** The loop reaches the outcome [r] without running out of fuel. *)
Inductive runs {E S R} (body : S -> result E (flow S R)) : S -> result E R -> Prop :=
| runs_break s r : body s = Ok (Break r) -> runs body s (Ok r)
| runs_err s e : body s = Err e -> runs body s (Err e)
| runs_fault s x : body s = Fault x -> runs body s (Fault x)
| runs_continue s s' r : body s = Ok (Continue s') -> runs body s' r -> runs body s r.

(** [slice::chunks(n)]. *)
Fixpoint chunks_fuel {A} (fuel n : nat) (l : list A) : list (list A) :=
  match fuel, l with
  | S fuel', _ :: _ => take n l :: chunks_fuel fuel' n (drop n l)
  | _, _ => []
  end.

Definition chunks {A} (n : nat) (l : list A) : list (list A) :=
  chunks_fuel (length l) n l.

(** [slice::starts_with]. *)
Fixpoint starts_with {A} `{EqDecision A} (p l : list A) : bool :=
  match p, l with
  | [], _ => true
  | x :: p', y :: l' => bool_decide (x = y) && starts_with p' l'
  | _ :: _, [] => false
  end.

(** * Lemmas *)

Create HintDb hap discriminated.

(** ** Bytes *)

Lemma byteZ_range b : (0 <= byteZ b < 256)%Z.
Proof. unfold byteZ. pose proof (Strings.Byte.to_N_bounded b). lia. Qed.

Lemma Byte_of_N_total (n : N) : (n < 256)%N -> exists b, Strings.Byte.of_N n = Some b.
Proof.
  intros Hn. destruct (Strings.Byte.of_N n) as [b|] eqn:E; [by exists b|].
  pose proof (Strings.Byte.to_of_N_option_map n) as H. rewrite E in H. simpl in H.
  assert ((n <=? 255)%N = true) as Hle by (apply N.leb_le; lia). by rewrite Hle in H.
Qed.

Lemma byteZ_Zbyte z : byteZ (Zbyte z) = (z mod 256)%Z.
Proof.
  unfold byteZ, Zbyte. pose proof (Z.mod_pos_bound z 256 ltac:(lia)).
  destruct (Byte_of_N_total (Z.to_N (z mod 256))) as [b Hb]; [lia|].
  rewrite Hb. simpl. apply Strings.Byte.to_of_N in Hb. rewrite Hb. lia.
Qed.

Lemma Zbyte_byteZ b : Zbyte (byteZ b) = b.
Proof.
  unfold Zbyte. rewrite Z.mod_small by apply byteZ_range.
  unfold byteZ. rewrite N2Z.id, Strings.Byte.of_to_N. done.
Qed.

#[export] Instance byteZ_inj : Inj (=) (=) byteZ.
Proof. intros a b H. rewrite <- (Zbyte_byteZ a), <- (Zbyte_byteZ b). by f_equal. Qed.

Lemma byteZ_Zbyte_small z : (0 <= z < 256)%Z -> byteZ (Zbyte z) = z.
Proof. intros H. rewrite byteZ_Zbyte. by apply Z.mod_small. Qed.

Lemma bytes_pos_bytes p : bytes_pos (pos_bytes p) = p.
Proof. induction p as [p IH|p IH|]; cbn; by rewrite ?IH. Qed.

Lemma length_le_bytes n z : length (le_bytes n z) = n.
Proof. revert z. induction n; intros; simpl; auto. Qed.

Lemma le_Z_bound bs : (0 <= le_Z bs < 256 ^ Z.of_nat (length bs))%Z.
Proof.
  induction bs as [|b bs IH]; simpl length; simpl le_Z; [lia|].
  rewrite Nat2Z.inj_succ, Z.pow_succ_r by lia. pose proof (byteZ_range b). nia.
Qed.

Lemma le_Z_le_bytes n z : le_Z (le_bytes n z) = (z mod 256 ^ Z.of_nat n)%Z.
Proof.
  revert z. induction n as [|n IH]; intros z; cbn [le_bytes le_Z].
  { by rewrite Z.mod_1_r. }
  rewrite IH, byteZ_Zbyte, Nat2Z.inj_succ, Z.pow_succ_r by lia.
  rewrite Z.rem_mul_r by lia. lia.
Qed.

Lemma le_Z_le_bytes_small n z :
  (0 <= z < 256 ^ Z.of_nat n)%Z -> le_Z (le_bytes n z) = z.
Proof. intros H. rewrite le_Z_le_bytes. by apply Z.mod_small. Qed.

Lemma le_bytes_le_Z bs : le_bytes (length bs) (le_Z bs) = bs.
Proof.
  induction bs as [|b bs IH]; simpl; [done|].
  pose proof (byteZ_range b).
  assert ((byteZ b + 256 * le_Z bs) / 256 = le_Z bs)%Z as ->.
  { rewrite Z.mul_comm, Z.div_add, Z.div_small by lia. lia. }
  rewrite IH. f_equal. apply byteZ_inj.
  rewrite byteZ_Zbyte, Z.mul_comm, Z.mod_add, Z.mod_small by lia. done.
Qed.

Lemma le_Z_inj (a b : bytes) : length a = length b -> le_Z a = le_Z b -> a = b.
Proof. intros Hl Hz. rewrite <- (le_bytes_le_Z a), <- (le_bytes_le_Z b). by rewrite Hl, Hz. Qed.

Lemma le_Z_app a b : le_Z (a ++ b) = (le_Z a + 256 ^ Z.of_nat (length a) * le_Z b)%Z.
Proof.
  induction a as [|x a IH]; cbn [app le_Z length]; [lia|].
  rewrite IH, Nat2Z.inj_succ, Z.pow_succ_r by lia. ring.
Qed.

Lemma le_Z_zeros n : le_Z (replicate n x00) = 0%Z.
Proof. induction n as [|n IH]; cbn [replicate le_Z]; [done|]. rewrite IH. done. Qed.

(** ** Outcomes *)

Section result.
Context {E A B : Type}.
Implicit Types (m : result E A) (k : A -> result E B).

Lemma bind_Ok_inv m k b : m ≫= k = Ok b -> exists a, m = Ok a /\ k a = Ok b.
Proof. destruct m; simpl; naive_solver. Qed.

Lemma bind_Err_inv m k e :
  m ≫= k = Err e -> m = Err e \/ exists a, m = Ok a /\ k a = Err e.
Proof. destruct m; simpl; naive_solver. Qed.

Lemma returns_bind m k : returns m -> (forall a, m = Ok a -> returns (k a)) -> returns (m ≫= k).
Proof. destruct m; simpl; naive_solver. Qed.

Lemma returns_ok_or (o : option A) (e : E) : returns (ok_or o e).
Proof. by destruct o. Qed.

Lemma returns_map_err {F} (f : E -> F) m : returns m -> returns (map_err f m).
Proof. by destruct m. Qed.

Lemma returns_fmap (f : A -> B) m : returns m -> returns (f <$> m).
Proof. by destruct m. Qed.
End result.

Lemma returns_mapM {E A B} (f : A -> result E B) l :
  (forall a, a ∈ l -> returns (f a)) -> returns (mapM f l).
Proof.
  induction l as [|x l IH]; intros H; [done|].
  cbn [mapM]. apply returns_bind; [apply H; set_solver|]. intros y _.
  apply returns_bind; [apply IH; set_solver|]. done.
Qed.

#[export] Hint Resolve returns_ok_or returns_map_err returns_fmap : hap.

(** Split the hypothesis [m ≫= k = Ok b] into its stages. *)
Ltac bind_inv H :=
  let a := fresh "a" in let Ha := fresh "Ha" in
  apply bind_Ok_inv in H as (a & Ha & H).

(** Expose the state passing of a stateful computation. *)
Ltac run_in H := cbv beta iota delta [mbind stateful_bind mret stateful_ret lift modify get_state] in H.
Ltac run := cbv beta iota delta [mbind stateful_bind mret stateful_ret lift modify get_state].

(** ** What a computation yields when it succeeds *)

Definition yields {S E A} (m : stateful S E A) (P : A -> Prop) : Prop := forall s a s', m s = (Ok a, s') -> P a.

Lemma yields_ret {S E A} (a : A) (P : A -> Prop) : P a -> yields (S := S) (E := E) (mret a) P.
Proof. intros HP s a' s' [= <- _]. done. Qed.

Lemma yields_lift {S E A} (m : result E A) (P : A -> Prop) : (forall a, m = Ok a -> P a) -> yields (S := S) (lift m) P.
Proof. intros HP s a s' [= Hm _]. by apply HP. Qed.

Lemma yields_bind {S E A B} (m : stateful S E A) (f : A -> stateful S E B) (Q : A -> Prop) (P : B -> Prop) :
  yields m Q -> (forall a, Q a -> yields (f a) P) -> yields (m ≫= f) P.
Proof.
  intros Hm Hf s b s' Hr. run_in Hr. destruct (m s) as [[a|e|x] s1] eqn:Em; try done.
  eapply Hf; [by eapply Hm|exact Hr].
Qed.

Lemma yields_any {S E A} (m : stateful S E A) : yields m (fun _ => True).
Proof. done. Qed.

Lemma yields_bind_any {S E A B} (m : stateful S E A) (f : A -> stateful S E B) (P : B -> Prop) :
  (forall a, yields (f a) P) -> yields (m ≫= f) P.
Proof. intros Hf. eapply yields_bind; [apply yields_any|auto]. Qed.

Lemma yields_conseq {S E A} (m : stateful S E A) (P Q : A -> Prop) : yields m P -> (forall a, P a -> Q a) -> yields m Q.
Proof. intros Hm HQ s a s' Hr. by eapply HQ, Hm. Qed.

Lemma yields_with_err {S E F A} (g : E -> F) (m : stateful S E A) P : yields m P -> yields (with_err g m) P.
Proof.
  intros Hm s a s' Hr. unfold with_err in Hr. destruct (m s) as [[a'|e|x] s1] eqn:Em; simplify_eq/=. by eapply Hm.
Qed.

Lemma yields_on_local {L W E A} (l : L) (m : stateful (L * W) E A) (P : A -> Prop) :
  yields m P -> yields (on_local l m) (fun al => P al.1).
Proof.
  intros Hm w [a l'] w' Hr. unfold on_local in Hr. destruct (m (l, w)) as [[a'|e|x] [l1 w1]] eqn:Em; simplify_eq/=.
  by eapply Hm.
Qed.

(** Discharge [returns] goals by following the binds of the computation. *)
Ltac returns_step :=
  match goal with
  | |- returns (Ok _) => exact I
  | |- returns (Err _) => exact I
  | |- returns (mret _) => exact I
  | |- returns (_ ≫= _) => apply returns_bind; [|intros ? ?]
  | |- returns (ok_or _ _) => apply returns_ok_or
  | |- returns (map_err _ _) => apply returns_map_err
  | |- returns (_ <$> _) => apply returns_fmap
  | |- returns (if ?b then _ else _) => destruct b eqn:?
  | |- returns (match ?x with _ => _ end) => destruct x eqn:?
  | |- returns (let _ := _ in _) => cbv zeta
  end.
Ltac returns_tac := repeat (returns_step; simplify_eq/=; eauto with hap).

(** ** Slices *)

Lemma get_range_Some {A} (l s : list A) i j :
  get_range l i j = Some s <-> i <= j <= length l /\ s = take (j - i) (drop i l).
Proof.
  unfold get_range.
  destruct (Nat.leb_spec i j), (Nat.leb_spec j (length l)); simpl;
    split; intros H1; simplify_eq; try done; destruct_and?; subst; try lia; split; auto.
Qed.

Lemma get_range_ok {A} (l : list A) i j :
  i <= j <= length l -> get_range l i j = Some (take (j - i) (drop i l)).
Proof. intros. by apply get_range_Some. Qed.

Lemma get_range_None {A} (l : list A) i j :
  get_range l i j = None <-> j < i \/ length l < j.
Proof.
  unfold get_range. destruct (Nat.leb_spec i j), (Nat.leb_spec j (length l)); simpl;
    split; intros; simplify_eq; try done; lia.
Qed.

Lemma slice_ok {E A} (l : list A) i j :
  i <= j <= length l -> slice (E:=E) l i j = Ok (take (j - i) (drop i l)).
Proof. intros H. unfold slice. by rewrite get_range_ok. Qed.

Lemma index_ok {E A} (l : list A) i x : l !! i = Some x -> index (E:=E) l i = Ok x.
Proof. intros H. unfold index. by rewrite H. Qed.

Lemma returns_index {E A} (l : list A) i : i < length l -> returns (index (E:=E) l i).
Proof. intros H. unfold index. apply lookup_lt_is_Some_2 in H as [x ->]. done. Qed.

Lemma returns_slice {E A} (l : list A) i j :
  i <= j <= length l -> returns (slice (E:=E) l i j).
Proof. intros H. by rewrite slice_ok. Qed.

Lemma get_range_middle {A} (pre mid post : list A) n :
  n = length pre ->
  get_range (pre ++ mid ++ post) n (n + length mid) = Some mid.
Proof.
  intros ->. apply get_range_Some. split; [rewrite !length_app; lia|].
  rewrite drop_app_length. replace (length pre + length mid - length pre) with (length mid) by lia.
  by rewrite take_app_length.
Qed.

Lemma slice_Z_ok {E A} (l : list A) i j :
  (i <= j <= Z.of_nat (length l))%Z ->
  slice_Z (E:=E) l i j = Ok (take (Z.to_nat (j - i)) (drop (Z.to_nat i) l)).
Proof. intros H. unfold slice_Z. by rewrite !(proj2 (Z.leb_le _ _)) by lia. Qed.

Lemma slice_Z_panics {E A} (l : list A) i j :
  (j < i \/ Z.of_nat (length l) < j)%Z -> slice_Z (E:=E) l i j = Fault Panicked.
Proof.
  intros Hb. unfold slice_Z.
  destruct (Z.leb_spec i j), (Z.leb_spec j (Z.of_nat (length l))); simpl; try done; lia.
Qed.

Lemma add_u_ok `{Build} {E} w a b : (a + b < 2 ^ w)%Z -> add_u (E:=E) w a b = Ok (a + b)%Z.
Proof. intros Hlt. unfold add_u. by rewrite (proj2 (Z.ltb_lt _ _)) by done. Qed.

(** Solve [fits] goals from [fits] hypotheses on longer lists. *)
Ltac fits_tac := unfold fits in *; rewrite ?length_app, ?length_drop, ?length_take in *; lia.

(** ** Loops *)

Section loop.
Context {E S R : Type} (body : S -> result E (flow S R)).

Lemma loop_unfold fuel s :
  loop (Datatypes.S fuel) body s =
    match body s with
    | Ok (Continue s') => loop fuel body s'
    | Ok (Break r) => Ok r
    | Err e => Err e
    | Fault x => Fault x
    end.
Proof. done. Qed.

(** If a measure decreases at every iteration, fuel above the measure suffices. *)
Lemma loop_runs (m : S -> nat) (P : S -> Prop) :
  (forall s s', P s -> body s = Ok (Continue s') -> m s' < m s /\ P s') ->
  forall fuel s, P s -> m s < fuel -> runs body s (loop fuel body s).
Proof.
  intros Hm fuel. induction fuel as [|fuel IH]; intros s HP Hf; [lia|].
  rewrite loop_unfold. destruct (body s) as [[s'|r]|e|x] eqn:Eb.
  - destruct (Hm _ _ HP Eb) as [? ?].
    eapply runs_continue; [exact Eb|]. apply IH; [done|lia].
  - by apply runs_break.
  - by apply runs_err.
  - by apply runs_fault.
Qed.

Lemma runs_det s r1 r2 : runs body s r1 -> runs body s r2 -> r1 = r2.
Proof.
  intros H1. revert r2. induction H1; intros r2 H2; destruct H2; try congruence.
  apply IHruns. congruence.
Qed.

Lemma loop_eq_runs (m : S -> nat) (P : S -> Prop) fuel s r :
  (forall s s', P s -> body s = Ok (Continue s') -> m s' < m s /\ P s') ->
  P s -> m s < fuel -> runs body s r -> loop fuel body s = r.
Proof. intros Hm HP Hf Hr. eapply runs_det; [|exact Hr]. by eapply loop_runs. Qed.

(** A loop whose body returns, and whose measure decreases, returns. *)
Lemma loop_returns (m : S -> nat) (P : S -> Prop) :
  (forall s, P s -> returns (body s)) ->
  (forall s s', P s -> body s = Ok (Continue s') -> m s' < m s /\ P s') ->
  forall fuel s, P s -> m s < fuel -> returns (loop fuel body s).
Proof.
  intros Hb Hm fuel. induction fuel as [|fuel IH]; intros s HP Hf; [lia|].
  rewrite loop_unfold. pose proof (Hb s HP) as Hret.
  destruct (body s) as [[s'|r]|e|x] eqn:Eb; try done.
  destruct (Hm _ _ HP Eb) as [? ?]. apply IH; [done|lia].
Qed.

(** Invariant reasoning: what holds at every iteration holds of the result. *)
Lemma loop_invariant (I : S -> Prop) (Q : R -> Prop) :
  (forall s s', I s -> body s = Ok (Continue s') -> I s') ->
  (forall s r, I s -> body s = Ok (Break r) -> Q r) ->
  forall fuel s r, I s -> loop fuel body s = Ok r -> Q r.
Proof.
  intros HI HQ fuel. induction fuel as [|fuel IH]; intros s r Hs Hl; [done|].
  rewrite loop_unfold in Hl. destruct (body s) as [[s'|r']|e|x] eqn:Eb; simplify_eq; eauto.
Qed.
End loop.

(** ** Chunks *)

Section chunks.
Context {A : Type} (n : nat) (Hn : 0 < n).
Implicit Types l : list A.

Lemma chunks_fuel_enough fuel l : length l <= fuel -> chunks_fuel fuel n l = chunks n l.
Proof.
  unfold chunks. remember (length l) as k eqn:Hk. revert fuel l Hk.
  induction k as [k IH] using lt_wf_ind. intros fuel l -> Hf.
  destruct l as [|x l]; [by destruct fuel|].
  destruct fuel as [|fuel]; simpl in Hf; [lia|].
  cbn [chunks_fuel length]. f_equal.
  assert (length (drop n (x :: l)) <= length l) by (rewrite length_drop; simpl; lia).
  rewrite (IH (length (drop n (x :: l)))); simpl; try done; try lia.
  symmetry. apply (IH (length (drop n (x :: l)))); simpl; try done; lia.
Qed.

Lemma chunks_nil : chunks n [] =@{list (list A)} [].
Proof. done. Qed.

Lemma chunks_cons l : l <> [] -> chunks n l = take n l :: chunks n (drop n l).
Proof.
  intros Hl. destruct l as [|x l]; [done|]. unfold chunks at 1. cbn [chunks_fuel length].
  f_equal. apply chunks_fuel_enough. rewrite length_drop. simpl. lia.
Qed.

Lemma chunks_short l : l <> [] -> length l <= n -> chunks n l = [l].
Proof.
  intros Hl Hle. rewrite chunks_cons by done.
  rewrite take_ge, drop_ge by lia. done.
Qed.

Lemma chunks_app_full l1 l2 :
  length l1 = n -> chunks n (l1 ++ l2) = l1 :: chunks n l2.
Proof.
  intros Hl. rewrite chunks_cons by (destruct l1; simpl in *; [lia|done]).
  by rewrite take_app_length', drop_app_length' by lia.
Qed.

(** Induction that follows the splitting. *)
Lemma chunks_ind (P : list A -> Prop) :
  P [] -> (forall l, l <> [] -> P (drop n l) -> P l) -> forall l, P l.
Proof.
  intros H0 Hs l. remember (length l) as k eqn:Hk. revert l Hk.
  induction k as [k IH] using lt_wf_ind. intros l ->.
  destruct l as [|x l]; [done|]. apply Hs; [done|].
  eapply IH; [|done]. rewrite length_drop. simpl. lia.
Qed.

Lemma chunks_concat l : mjoin (chunks n l) = l.
Proof.
  induction l as [|l Hl IH] using chunks_ind; [done|].
  rewrite chunks_cons by done. simpl. rewrite IH. apply take_drop.
Qed.

Lemma chunks_length_le l c : c ∈ chunks n l -> 0 < length c <= n.
Proof.
  induction l as [|l Hl IH] using chunks_ind; [by intros ?%not_elem_of_nil|].
  rewrite chunks_cons by done. intros [->|Hc]%elem_of_cons; [|by apply IH].
  rewrite length_take. destruct l; simpl in *; [done|lia].
Qed.
End chunks.

(** ** Triples

    [triple P m Q R]: from a state satisfying [P], [m] neither panics nor runs out of
    fuel; it ends in [Q] with a value or in [R] with an error. *)

Definition triple {S E A} (P : S -> Prop) (m : stateful S E A) (Q : A -> S -> Prop) (R : E -> S -> Prop)
    : Prop :=
  forall s, P s ->
    match m s with
    | (Ok a, s') => Q a s'
    | (Err e, s') => R e s'
    | (Fault _, _) => False
    end.

Section triple.
Context {S E A B : Type}.
Implicit Types (P : S -> Prop) (R : E -> S -> Prop).

Lemma triple_bind P (m : stateful S E A) (k : A -> stateful S E B) Q1 Q2 R :
  triple P m Q1 R -> (forall a, triple (Q1 a) (k a) Q2 R) -> triple P (m ≫= k) Q2 R.
Proof.
  intros Hm Hk s Hs. specialize (Hm s Hs). run. destruct (m s) as [[a|e|x] s'] eqn:Em; try done.
  by apply Hk.
Qed.

Lemma triple_ret P (a : A) (Q : A -> S -> Prop) R : (forall s, P s -> Q a s) -> triple P (mret a) Q R.
Proof. intros H s Hs. by apply H. Qed.

Lemma triple_lift_ok P m (a : A) (Q : A -> S -> Prop) R :
  m = Ok a -> (forall s, P s -> Q a s) -> triple P (lift m) Q R.
Proof. intros -> H s Hs. by apply H. Qed.

Lemma triple_lift_bind P m (a : A) (k : A -> stateful S E B) Q R :
  m = Ok a -> triple P (k a) Q R -> triple P (lift m ≫= k) Q R.
Proof. by intros ->. Qed.

Lemma triple_conseq P P' (m : stateful S E A) (Q Q' : A -> S -> Prop) (R R' : E -> S -> Prop) :
  triple P' m Q' R' -> (forall s, P s -> P' s) -> (forall a s, Q' a s -> Q a s) ->
  (forall e s, R' e s -> R e s) -> triple P m Q R.
Proof.
  intros Hm HP HQ HR s Hs. specialize (Hm s (HP s Hs)).
  destruct (m s) as [[a|e|x] s']; auto.
Qed.

Lemma triple_pull (X : Prop) P (m : stateful S E A) Q R :
  (X -> triple P m Q R) -> triple (fun s => X /\ P s) m Q R.
Proof. intros H s [HX HP]. by apply H. Qed.

Lemma triple_exists {X} (P : X -> S -> Prop) (m : stateful S E A) Q R :
  (forall x, triple (P x) m Q R) -> triple (fun s => exists x, P x s) m Q R.
Proof. intros H s [x Hx]. by apply (H x). Qed.
End triple.
