(* ===== verification/Text.v ===== *)
(** * Strings of the Rust standard library

    What the crates use of [core::str] and [core::num]: UTF-8 decoding (strict
    and lossy), [trim], ASCII case folding, integer parsing and printing.  A
    decoded [str] is the list of its scalar values. *)

From S2P Require Import Prelude.

Local Open Scope Z_scope.

(** ** UTF-8 *)

(** Range of the second byte of a sequence and the sequence's length, by the
    first byte; [None] for a byte that starts no sequence. *)
Definition utf8_lead (b : Z) : option (Z * Z * nat) :=
  if b <? 0x80 then Some (0, 0, 1%nat)
  else if b <? 0xC2 then None
  else if b <? 0xE0 then Some (0x80, 0xBF, 2%nat)
  else if b =? 0xE0 then Some (0xA0, 0xBF, 3%nat)
  else if b =? 0xED then Some (0x80, 0x9F, 3%nat)
  else if b <? 0xF0 then Some (0x80, 0xBF, 3%nat)
  else if b =? 0xF0 then Some (0x90, 0xBF, 4%nat)
  else if b <? 0xF4 then Some (0x80, 0xBF, 4%nat)
  else if b =? 0xF4 then Some (0x80, 0x8F, 4%nat)
  else None.

Definition byte_in (lo hi : Z) (b : byte) : bool := (lo <=? byteZ b) && (byteZ b <=? hi).
Definition is_cont (b : byte) : bool := byte_in 0x80 0xBF b.

(** One step of decoding a non-empty input: the scalar value, or [None] for a
    malformed sequence, and the number of bytes it takes.  A malformed sequence
    takes its longest well-formed prefix (at least one byte). *)
Definition utf8_step (b : byte) (rest : bytes) : option Z * nat :=
  match utf8_lead (byteZ b) with
  | None => (None, 1%nat)
  | Some (lo, hi, n) =>
      match n, rest with
      | 1%nat, _ => (Some (byteZ b), 1%nat)
      | 2%nat, b1 :: _ =>
          if byte_in lo hi b1 then (Some ((byteZ b - 0xC0) * 64 + (byteZ b1 - 0x80)), 2%nat)
          else (None, 1%nat)
      | 3%nat, b1 :: rest1 =>
          if byte_in lo hi b1 then
            match rest1 with
            | b2 :: _ =>
                if is_cont b2
                then (Some ((byteZ b - 0xE0) * 4096 + (byteZ b1 - 0x80) * 64 + (byteZ b2 - 0x80)), 3%nat)
                else (None, 2%nat)
            | [] => (None, 2%nat)
            end
          else (None, 1%nat)
      | 4%nat, b1 :: rest1 =>
          if byte_in lo hi b1 then
            match rest1 with
            | b2 :: rest2 =>
                if is_cont b2 then
                  match rest2 with
                  | b3 :: _ =>
                      if is_cont b3
                      then (Some ((byteZ b - 0xF0) * 262144 + (byteZ b1 - 0x80) * 4096 +
                                  (byteZ b2 - 0x80) * 64 + (byteZ b3 - 0x80)), 4%nat)
                      else (None, 3%nat)
                  | [] => (None, 3%nat)
                  end
                else (None, 2%nat)
            | [] => (None, 2%nat)
            end
          else (None, 1%nat)
      | _, _ => (None, 1%nat)
      end
  end.

(** Scalar values of the input, [None] at each malformed sequence. *)
Fixpoint utf8_chars (fuel : nat) (bs : bytes) : list (option Z) :=
  match fuel, bs with
  | S fuel', b :: rest =>
      let '(c, n) := utf8_step b rest in
      c :: utf8_chars fuel' (drop (n - 1) rest)
  | _, _ => []
  end.

(** [String::from_utf8_lossy]: a malformed sequence becomes U+FFFD. *)
Definition from_utf8_lossy (bs : bytes) : list Z :=
  default 0xFFFD <$> utf8_chars (length bs) bs.

(** [str::from_utf8]. *)
Definition from_utf8 (bs : bytes) : option (list Z) := mapM id (utf8_chars (length bs) bs).

(** UTF-8 encoding of a scalar value. *)
Definition utf8_encode_char (c : Z) : bytes :=
  if c <? 0x80 then [Zbyte c]
  else if c <? 0x800 then [Zbyte (0xC0 + c / 64); Zbyte (0x80 + c mod 64)]
  else if c <? 0x10000 then
    [Zbyte (0xE0 + c / 4096); Zbyte (0x80 + c / 64 mod 64); Zbyte (0x80 + c mod 64)]
  else [Zbyte (0xF0 + c / 262144); Zbyte (0x80 + c / 4096 mod 64);
        Zbyte (0x80 + c / 64 mod 64); Zbyte (0x80 + c mod 64)].

Definition utf8_encode (s : list Z) : bytes := s ≫= utf8_encode_char.

(** A string literal as its scalar values. *)
Definition chars (s : string) : list Z := byteZ <$> str s.

(** ** [trim]: Unicode [White_Space] *)

Definition is_whitespace (c : Z) : bool :=
  ((9 <=? c) && (c <=? 13)) || (c =? 32) || (c =? 0x85) || (c =? 0xA0) || (c =? 0x1680) ||
  ((0x2000 <=? c) && (c <=? 0x200A)) || (c =? 0x2028) || (c =? 0x2029) || (c =? 0x202F) ||
  (c =? 0x205F) || (c =? 0x3000).

Fixpoint trim_start (s : list Z) : list Z :=
  match s with
  | c :: s' => if is_whitespace c then trim_start s' else s
  | [] => []
  end.

Definition trim (s : list Z) : list Z := reverse (trim_start (reverse (trim_start s))).

(** ** ASCII case *)

Definition ascii_lower (c : Z) : Z := if (65 <=? c) && (c <=? 90) then c + 32 else c.
Definition ascii_upper (c : Z) : Z := if (97 <=? c) && (c <=? 122) then c - 32 else c.
Definition to_ascii_lowercase (s : list Z) : list Z := ascii_lower <$> s.
Definition to_ascii_uppercase (s : list Z) : list Z := ascii_upper <$> s.
Definition eq_ignore_ascii_case (a b : list Z) : bool :=
  bool_decide (to_ascii_lowercase a = to_ascii_lowercase b).

(** ** Integers *)

(** [char::to_digit]. *)
Definition to_digit (radix c : Z) : option Z :=
  let d := if (48 <=? c) && (c <=? 57) then c - 48
           else if (97 <=? c) && (c <=? 122) then c - 87
           else if (65 <=? c) && (c <=? 90) then c - 55 else radix in
  if d <? radix then Some d else None.

Fixpoint digits_value (radix max acc : Z) (s : list Z) : option Z :=
  match s with
  | [] => Some acc
  | c :: s' =>
      d ← to_digit radix c;
      if acc * radix + d <=? max then digits_value radix max (acc * radix + d) s' else None
  end.

(** [uN::from_str_radix] (and [str::parse] at radix 10): an optional [+], then
    at least one digit, the value not above the type's maximum [max]. *)
Definition from_str_radix (radix max : Z) (s : list Z) : option Z :=
  match s with
  | [] => None
  | [43] | [45] => None
  | 43 :: s' => digits_value radix max 0 s'
  | _ => digits_value radix max 0 s
  end.

Definition USIZE_MAX : Z := 2 ^ 64 - 1.
Definition U16_MAX : Z := 2 ^ 16 - 1.

(** [u16::try_from(n).unwrap_or(u16::MAX)], [u8::try_from(n).unwrap_or(u8::MAX)]. *)
Definition sat_u16 (n : nat) : Z := Z.min (Z.of_nat n) U16_MAX.
Definition sat_u8 (n : nat) : Z := Z.min (Z.of_nat n) 255.

(** [format!("{n}")] of an unsigned integer. *)
Fixpoint decimal_rev (fuel : nat) (n : Z) : list Z :=
  match fuel with
  | O => []
  | S fuel' => (48 + n mod 10) :: (if n <? 10 then [] else decimal_rev fuel' (n / 10))
  end.

Definition to_decimal (n : Z) : list Z := reverse (decimal_rev (S (Z.to_nat (Z.log2 n))) n).

(** Two lower- or upper-case hexadecimal digits of a byte ([{:02x}], [{:02X}]). *)
Definition hex_char (upper : bool) (d : Z) : Z :=
  if d <? 10 then 48 + d else if upper then 55 + d else 87 + d.
Definition hex2 (upper : bool) (b : byte) : list Z :=
  [hex_char upper (byteZ b / 16); hex_char upper (byteZ b mod 16)].

(** [format!("{n:x}")] of an unsigned integer. *)
Fixpoint hex_rev (fuel : nat) (n : Z) : list Z :=
  match fuel with
  | O => []
  | S fuel' => hex_char false (n mod 16) :: (if n <? 16 then [] else hex_rev fuel' (n / 16))
  end.

Definition to_hex (n : Z) : list Z := reverse (hex_rev (S (Z.to_nat (Z.log2 n))) n).

(** [slice::split] (and [str::split]). *)
Fixpoint split_on {A} `{EqDecision A} (sep : A) (l : list A) : list (list A) :=
  match l with
  | [] => [[]]
  | b :: l' =>
      if bool_decide (b = sep) then [] :: split_on sep l'
      else match split_on sep l' with
           | first :: others => (b :: first) :: others
           | [] => [[b]]
           end
  end.

(** * Lemmas *)

(** ** Splitting *)

Lemma split_on_nonempty {A} `{EqDecision A} (sep : A) l : split_on sep l <> [].
Proof. destruct l as [|b l]; [done|]. simpl. case_bool_decide; [done|]. by destruct (split_on sep l). Qed.

Lemma split_on_skip {A} `{EqDecision A} (sep : A) l rest :
  sep ∉ l -> split_on sep (l ++ rest) =
    match split_on sep rest with first :: others => (l ++ first) :: others | [] => [l] end.
Proof.
  induction l as [|b l IH]; intros Hn; simpl app; [by destruct (split_on sep rest) eqn:E; [destruct (split_on_nonempty sep rest)|]|].
  apply not_elem_of_cons in Hn as [Hb Hn]. cbn [split_on]. rewrite bool_decide_false by done.
  rewrite IH by done. by destruct (split_on sep rest).
Qed.

Lemma split_on_line {A} `{EqDecision A} (sep : A) l : sep ∉ l -> split_on sep l = [l].
Proof. intros Hn. rewrite <- (app_nil_r l) at 1. rewrite split_on_skip by done. simpl. by rewrite app_nil_r. Qed.

(** ** UTF-8 *)

Definition is_ascii (bs : bytes) : Prop := Forall (fun b => byteZ b < 128) bs.

#[export] Instance is_ascii_dec bs : Decision (is_ascii bs).
Proof. apply _. Defined.

Lemma utf8_step_ascii b rest : byteZ b < 128 -> utf8_step b rest = (Some (byteZ b), 1%nat).
Proof.
  intros H. unfold utf8_step, utf8_lead. by rewrite (proj2 (Z.ltb_lt _ _)) by done.
Qed.

Lemma utf8_step_bounds b rest : (1 <= (utf8_step b rest).2 <= S (length rest))%nat.
Proof.
  unfold utf8_step. destruct (utf8_lead _) as [[[lo hi] n]|]; [|simpl; lia].
  repeat (case_match; subst; simpl; try lia).
Qed.

Lemma utf8_chars_ascii bs fuel :
  is_ascii bs -> (length bs <= fuel)%nat -> utf8_chars fuel bs = Some ∘ byteZ <$> bs.
Proof.
  intros Ha. revert fuel. induction Ha as [|b bs Hb Ha IH]; intros fuel Hf; [by destruct fuel|].
  destruct fuel as [|fuel]; simpl in Hf; [lia|]. cbn [utf8_chars].
  rewrite utf8_step_ascii by done. simpl. f_equal. apply IH. lia.
Qed.

Lemma from_utf8_lossy_ascii bs : is_ascii bs -> from_utf8_lossy bs = byteZ <$> bs.
Proof.
  intros Ha. unfold from_utf8_lossy. rewrite utf8_chars_ascii by done.
  rewrite <- list_fmap_compose. by apply list_fmap_ext.
Qed.

Lemma from_utf8_ascii bs : is_ascii bs -> from_utf8 bs = Some (byteZ <$> bs).
Proof.
  intros Ha. unfold from_utf8. rewrite utf8_chars_ascii by done.
  clear Ha. induction bs as [|b bs IH]; [done|]. rewrite !fmap_cons. cbn [mapM]. by rewrite IH.
Qed.

Lemma utf8_encode_ascii bs : is_ascii bs -> utf8_encode (byteZ <$> bs) = bs.
Proof.
  unfold utf8_encode. induction 1 as [|b bs Hb _ IH]; [done|]. cbn [fmap list_fmap mbind list_bind].
  unfold utf8_encode_char at 1. rewrite (proj2 (Z.ltb_lt _ _)) by done.
  simpl. by rewrite Zbyte_byteZ, IH.
Qed.

(** ** Trimming *)

Definition no_space_ends (s : list Z) : Prop :=
  (forall c s', s = c :: s' -> is_whitespace c = false) /\
  (forall c s', s = s' ++ [c] -> is_whitespace c = false).

(** The boolean test, for literals. *)
Lemma no_space_ends_check s :
  forallb (fun o => negb (from_option is_whitespace false o)) [head s; last s] = true -> no_space_ends s.
Proof.
  simpl. rewrite andb_true_r, andb_true_iff, !negb_true_iff. intros [H1 H2].
  split; intros c s' ->; [done|]. by rewrite last_snoc in H2.
Qed.

Lemma trim_start_id s : (forall c s', s = c :: s' -> is_whitespace c = false) -> trim_start s = s.
Proof. destruct s as [|c s]; [done|]. intros H. simpl. by rewrite (H c s). Qed.

Lemma trim_no_space s : no_space_ends s -> trim s = s.
Proof.
  intros [H1 H2]. unfold trim. rewrite (trim_start_id s) by done.
  rewrite trim_start_id; [apply reverse_involutive|].
  intros c s' Hr. apply (f_equal reverse) in Hr. rewrite reverse_involutive, reverse_cons in Hr.
  by eapply H2.
Qed.

Lemma trim_space s : no_space_ends s -> trim (32 :: s) = s.
Proof. intros H. unfold trim. simpl trim_start at 2. by apply trim_no_space. Qed.

(** ** Integers *)

Lemma to_digit_range radix c d : to_digit radix c = Some d -> 0 <= radix -> 0 <= d < radix.
Proof.
  unfold to_digit. intros H Hr. repeat case_match; simplify_eq;
    rewrite ?andb_true_iff, ?Z.ltb_lt, ?Z.leb_le in *; lia.
Qed.

Lemma digits_value_bound radix max acc s v :
  0 <= radix -> 0 <= acc <= max -> digits_value radix max acc s = Some v -> 0 <= v <= max.
Proof.
  intros Hr. revert acc. induction s as [|c s IH]; intros acc Ha H; simpl in H; [by simplify_eq|].
  destruct (to_digit radix c) as [d|] eqn:Ed; [|done]. apply to_digit_range in Ed; [|done]. simpl in H.
  case_match eqn:Em; [|done]. apply Z.leb_le in Em. eapply IH; [|done]. nia.
Qed.

Lemma from_str_radix_bound radix max s v :
  0 <= radix -> 0 <= max -> from_str_radix radix max s = Some v -> 0 <= v <= max.
Proof.
  intros Hr Hm. unfold from_str_radix.
  repeat (case_match; try done); intros Hv; eapply digits_value_bound in Hv; try done; lia.
Qed.

Lemma digits_value_app radix max acc a b :
  digits_value radix max acc (a ++ b) =
    (acc' ← digits_value radix max acc a; digits_value radix max acc' b).
Proof.
  revert acc. induction a as [|c a IH]; intros acc; simpl; [done|].
  destruct (to_digit radix c) as [d|]; [|done]. simpl. case_match; [|done]. apply IH.
Qed.

Lemma to_digit_dec d : 0 <= d < 10 -> to_digit 10 (48 + d) = Some d.
Proof.
  intros H. unfold to_digit. rewrite !(proj2 (Z.leb_le _ _)) by lia. simpl.
  replace (48 + d - 48) with d by lia. by rewrite (proj2 (Z.ltb_lt _ _)) by lia.
Qed.

Lemma decimal_rev_value fuel max n :
  0 <= n <= max -> n < 2 ^ Z.of_nat fuel ->
  digits_value 10 max 0 (reverse (decimal_rev fuel n)) = Some n.
Proof.
  revert n. induction fuel as [|fuel IH]; intros n Hn Hf.
  { simpl in *. f_equal. lia. }
  cbn [decimal_rev]. rewrite reverse_cons, digits_value_app.
  pose proof (Z.mod_pos_bound n 10 ltac:(lia)). pose proof (Z.div_mod n 10 ltac:(lia)).
  destruct (Z.ltb_spec n 10) as [Hlt|Hge].
  - simpl reverse. cbn [digits_value mbind option_bind].
    rewrite to_digit_dec by lia. simpl. rewrite Z.mod_small by lia.
    by rewrite (proj2 (Z.leb_le _ _)) by lia.
  - rewrite IH.
    + cbn [mbind option_bind digits_value]. rewrite to_digit_dec by lia. simpl.
      replace (n / 10 * 10 + n mod 10) with n by lia.
      by rewrite (proj2 (Z.leb_le _ _)) by lia.
    + lia.
    + rewrite Nat2Z.inj_succ, Z.pow_succ_r in Hf by lia. lia.
Qed.

Lemma decimal_rev_digits fuel n : 0 <= n -> Forall (fun c => 48 <= c <= 57) (decimal_rev fuel n).
Proof.
  revert n. induction fuel as [|fuel IH]; intros n Hn; [constructor|]. cbn [decimal_rev].
  pose proof (Z.mod_pos_bound n 10 ltac:(lia)). constructor; [lia|].
  destruct (_ <? _); [constructor|]. apply IH. apply Z.div_pos; lia.
Qed.

Lemma to_decimal_digits n : 0 <= n -> Forall (fun c => 48 <= c <= 57) (to_decimal n).
Proof. intros Hn. apply Forall_reverse. by apply decimal_rev_digits. Qed.

Lemma to_decimal_nonempty n : to_decimal n <> [].
Proof. unfold to_decimal. cbn [decimal_rev]. rewrite reverse_cons. by destruct (reverse _). Qed.

Lemma from_str_radix_digit radix max c s :
  c <> 43 -> c <> 45 -> from_str_radix radix max (c :: s) = digits_value radix max 0 (c :: s).
Proof. intros. unfold from_str_radix. repeat (case_match; simplify_eq; try done). Qed.

(** Printing then parsing. *)
Lemma from_str_radix_to_decimal max n :
  0 <= n <= max -> from_str_radix 10 max (to_decimal n) = Some n.
Proof.
  intros Hn. pose proof (to_decimal_digits n ltac:(lia)) as Hd. pose proof (to_decimal_nonempty n).
  destruct (to_decimal n) as [|c s] eqn:E; [done|]. apply Forall_cons_1 in Hd as [Hc _].
  rewrite from_str_radix_digit by lia. rewrite <- E. apply decimal_rev_value; [done|].
  destruct (decide (n = 0)) as [->|]; [done|].
  rewrite Nat2Z.inj_succ, Z2Nat.id by apply Z.log2_nonneg.
  apply Z.log2_spec. lia.
Qed.

(** ** 16-bit lengths and headers *)

Definition small_body (body : bytes) : Prop := (Z.of_nat (length body) <= U16_MAX)%Z.

Lemma le_Z_u16 z : in_u 16 z -> exists b0 b1, le_bytes 2 z = [b0; b1] /\ le_Z [b0; b1] = z.
Proof.
  intros [? ?]. exists (Zbyte z), (Zbyte (z / 256)). split; [done|].
  apply (le_Z_le_bytes_small 2 z). change (256 ^ Z.of_nat 2)%Z with (2 ^ 16)%Z. lia.
Qed.

Lemma sat_u16_small (body : bytes) :
  small_body body -> in_u 16 (sat_u16 (length body)) /\ Z.to_nat (sat_u16 (length body)) = length body.
Proof. unfold small_body, sat_u16, in_u, U16_MAX. lia. Qed.

Lemma sat_u8_u8 k : in_u 8 (sat_u8 k).
Proof. unfold sat_u8, in_u. lia. Qed.

Lemma slice_app_mid {E'} (hdr body rest : bytes) n m :
  n = length hdr -> m = (n + length body)%nat ->
  slice (E:=E') (hdr ++ body ++ rest) n m = Ok body.
Proof. intros -> ->. unfold slice. by rewrite get_range_middle. Qed.

Lemma byteZ_u8 z : in_u 8 z -> byteZ (Zbyte z) = z.
Proof. intros [? ?]. apply byteZ_Zbyte_small. change (2 ^ 8)%Z with 256%Z in *. lia. Qed.

(** ** UTF-8 of any string *)

(** Unicode scalar values: what a Rust [char] holds. *)
Definition is_scalar (c : Z) : Prop := 0 <= c < 0xD800 \/ 0xE000 <= c < 0x110000.

Ltac byte_tests :=
  repeat match goal with
  | |- context [(?a <? ?b)%Z] => destruct (Z.ltb_spec a b); try lia
  | |- context [(?a =? ?b)%Z] => destruct (Z.eqb_spec a b); try lia
  | |- context [(?a <=? ?b)%Z] => destruct (Z.leb_spec a b); try lia
  end.

Lemma utf8_step_encode c rest :
  is_scalar c ->
  exists b t, utf8_encode_char c = b :: t /\ utf8_step b (t ++ rest) = (Some c, S (length t)).
Proof.
  intros Hc. unfold is_scalar in Hc. unfold utf8_encode_char.
  destruct (Z.ltb_spec c 0x80); [|destruct (Z.ltb_spec c 0x800); [|destruct (Z.ltb_spec c 0x10000)]];
    eexists _, _; (split; [reflexivity|]); cbn [app length]; unfold utf8_step.
  - rewrite byteZ_Zbyte_small by lia. unfold utf8_lead. byte_tests. done.
  - assert (2 <= c / 64 < 32) by (split; [apply Z.div_le_lower_bound|apply Z.div_lt_upper_bound]; lia).
    pose proof (Z.mod_pos_bound c 64 ltac:(lia)).
    unfold byte_in. rewrite !byteZ_Zbyte_small by lia. unfold utf8_lead. byte_tests. cbn [andb].
    do 2 f_equal. pose proof (Z.div_mod c 64). lia.
  - assert (0 <= c / 4096 < 16) by (split; [apply Z.div_le_lower_bound|apply Z.div_lt_upper_bound]; lia).
    pose proof (Z.mod_pos_bound c 64 ltac:(lia)). pose proof (Z.mod_pos_bound (c / 64) 64 ltac:(lia)).
    pose proof (Z.div_mod c 64 ltac:(lia)). pose proof (Z.div_mod (c / 64) 64 ltac:(lia)) as Hd.
    rewrite Z.div_div in Hd by lia. change (64 * 64) with 4096 in Hd.
    unfold byte_in, is_cont, byte_in. rewrite !byteZ_Zbyte_small by lia. unfold utf8_lead. byte_tests; cbn [andb];
      do 2 f_equal; lia.
  - assert (0 <= c / 262144 < 5) by (split; [apply Z.div_le_lower_bound|apply Z.div_lt_upper_bound]; lia).
    pose proof (Z.mod_pos_bound c 64 ltac:(lia)). pose proof (Z.mod_pos_bound (c / 64) 64 ltac:(lia)).
    pose proof (Z.mod_pos_bound (c / 4096) 64 ltac:(lia)).
    pose proof (Z.div_mod c 64 ltac:(lia)). pose proof (Z.div_mod (c / 64) 64 ltac:(lia)) as Hd.
    rewrite Z.div_div in Hd by lia. change (64 * 64) with 4096 in Hd.
    pose proof (Z.div_mod (c / 4096) 64 ltac:(lia)) as He.
    rewrite Z.div_div in He by lia. change (4096 * 64) with 262144 in He.
    unfold byte_in, is_cont, byte_in. rewrite !byteZ_Zbyte_small by lia. unfold utf8_lead. byte_tests; cbn [andb];
      do 2 f_equal; lia.
Qed.

Lemma utf8_step_scalar b rest c n : utf8_step b rest = (Some c, n) -> is_scalar c.
Proof.
  unfold utf8_step, utf8_lead, is_cont, byte_in, is_scalar. pose proof (byteZ_range b).
  intros Hs. repeat (case_match; simplify_eq; try done).
  all: repeat match goal with
  | H : (_ && _)%bool = true |- _ => apply andb_true_iff in H as [? ?]
  | H : (_ <=? _) = true |- _ => apply Z.leb_le in H
  | H : (_ <? _) = true |- _ => apply Z.ltb_lt in H
  | H : (_ <? _) = false |- _ => apply Z.ltb_ge in H
  | H : (_ =? _) = true |- _ => apply Z.eqb_eq in H
  | H : (_ =? _) = false |- _ => apply Z.eqb_neq in H
  end; try lia.
Qed.

Lemma utf8_chars_encode s fuel :
  Forall is_scalar s -> (length (utf8_encode s) <= fuel)%nat -> utf8_chars fuel (utf8_encode s) = Some <$> s.
Proof.
  intros Hs. revert fuel. induction Hs as [|c s Hc Hs IH]; intros fuel Hf; [by destruct fuel|].
  destruct (utf8_step_encode c (utf8_encode s) Hc) as (b & t & He & Hstep).
  change (utf8_encode (c :: s)) with (utf8_encode_char c ++ utf8_encode s) in *. rewrite He in *.
  cbn [app length] in Hf. destruct fuel as [|fuel]; [lia|]. cbn [app utf8_chars]. rewrite Hstep.
  rewrite fmap_cons. f_equal. replace (S (length t) - 1)%nat with (length t) by lia.
  rewrite drop_app_length. apply IH. rewrite length_app in Hf. lia.
Qed.

Lemma from_utf8_lossy_encode s : Forall is_scalar s -> from_utf8_lossy (utf8_encode s) = s.
Proof.
  intros Hs. unfold from_utf8_lossy. rewrite utf8_chars_encode, <- list_fmap_compose by done.
  by rewrite (list_fmap_ext _ id), list_fmap_id by done.
Qed.

Lemma from_utf8_encode s : Forall is_scalar s -> from_utf8 (utf8_encode s) = Some s.
Proof.
  intros Hs. unfold from_utf8. rewrite utf8_chars_encode by done. apply mapM_fmap_Some. done.
Qed.

Lemma from_utf8_lossy_scalar bs : Forall is_scalar (from_utf8_lossy bs).
Proof.
  unfold from_utf8_lossy. apply Forall_fmap. generalize (length bs) as fuel. intros fuel. revert bs.
  induction fuel as [|fuel IH]; intros bs; [constructor|]. destruct bs as [|b bs]; [constructor|].
  cbn [utf8_chars]. destruct (utf8_step b bs) as [[c|] n] eqn:E; constructor; try apply IH.
  - by eapply utf8_step_scalar.
  - cbn. right. lia.
Qed.

(** ** Hexadecimal *)

(** The [k] low digits of [n], the lowest first. *)
Fixpoint hex_fixed (k : nat) (n : Z) : list Z :=
  match k with O => [] | S k' => hex_char false (n mod 16) :: hex_fixed k' (n / 16) end.

Lemma hex_fixed_zero k : hex_fixed k 0 = replicate k 48.
Proof. induction k as [|k IH]; [done|]. cbn [hex_fixed replicate]. by rewrite Zdiv_0_l, IH. Qed.

Lemma hex_rev_fixed fuel k n :
  0 <= n < 16 ^ Z.of_nat (S k) -> n < 2 ^ Z.of_nat fuel ->
  exists pad, hex_fixed (S k) n = hex_rev fuel n ++ replicate pad 48.
Proof.
  revert fuel n. induction k as [|k IH]; intros fuel n Hn Hf.
  - destruct fuel as [|fuel]; [exists 1%nat; simpl in Hf; assert (n = 0) as -> by lia; done|].
    change (16 ^ Z.of_nat 1) with 16 in Hn. exists 0%nat. cbn [hex_rev hex_fixed].
    by rewrite (proj2 (Z.ltb_lt n 16)) by lia.
  - destruct fuel as [|fuel].
    { exists (S (S k)). assert (n = 0) as -> by (simpl in Hf; lia). by rewrite hex_fixed_zero. }
    cbn [hex_rev]. destruct (Z.ltb_spec n 16) as [Hs|Hs].
    + exists (S k). cbn [hex_fixed app]. rewrite (Z.div_small n 16) by lia.
      change (hex_char false (0 mod 16) :: hex_fixed k (0 / 16)) with (hex_fixed (S k) 0).
      by rewrite hex_fixed_zero.
    + destruct (IH fuel (n / 16)) as [pad Hp].
      * split; [apply Z.div_pos; lia|]. apply Z.div_lt_upper_bound; [lia|].
        rewrite <- Z.pow_succ_r, <- Nat2Z.inj_succ by lia. lia.
      * rewrite Nat2Z.inj_succ, Z.pow_succ_r in Hf by lia. apply Z.div_lt_upper_bound; lia.
      * exists pad. change (hex_fixed (S (S k)) n) with (hex_char false (n mod 16) :: hex_fixed (S k) (n / 16)).
        by rewrite Hp.
Qed.

Lemma length_hex_fixed k n : length (hex_fixed k n) = k.
Proof. revert n. induction k as [|k IH]; intros n; [done|]. cbn [hex_fixed length]. by rewrite IH. Qed.

(** Padded with zeros on the left, [to_hex] gives the fixed number of digits. *)
Lemma to_hex_padded k n :
  0 <= n < 16 ^ Z.of_nat (S k) ->
  replicate (S k - length (to_hex n)) 48 ++ to_hex n = reverse (hex_fixed (S k) n) /\
  (1 <= length (to_hex n) <= S k)%nat.
Proof.
  intros Hn. unfold to_hex. set (fuel := S (Z.to_nat (Z.log2 n))).
  assert (n < 2 ^ Z.of_nat fuel) as Hf.
  { unfold fuel. rewrite Nat2Z.inj_succ, Z2Nat.id by apply Z.log2_nonneg.
    destruct (Z.eq_dec n 0) as [->|]; [done|]. apply Z.log2_spec. lia. }
  destruct (hex_rev_fixed fuel k n Hn Hf) as [pad Hp].
  pose proof (f_equal length Hp) as Hl. rewrite length_hex_fixed, length_app, length_replicate in Hl.
  rewrite length_reverse, Hp, reverse_app, reverse_replicate. split; [f_equal; f_equal; lia|].
  unfold fuel in *. cbn [hex_rev length] in *. lia.
Qed.

Lemma hex_fixed_bytes bs : reverse (hex_fixed (2 * length bs) (le_Z bs)) = reverse bs ≫= hex2 false.
Proof.
  induction bs as [|b bs IH]; [done|]. cbn [length]. rewrite Nat.mul_succ_r, Nat.add_comm.
  cbn [Nat.add hex_fixed le_Z]. pose proof (byteZ_range b) as Hb.
  rewrite !reverse_cons, bind_app, bind_singleton.
  replace ((byteZ b + 256 * le_Z bs) / 16 / 16) with (le_Z bs) 
    by (rewrite Z.div_div, (Z.mul_comm 256), Z.div_add, Z.div_small by lia; lia).
  rewrite IH, <- app_assoc. unfold hex2. cbn [app].
  replace ((byteZ b + 256 * le_Z bs) / 16 mod 16) with (byteZ b / 16) by (Z.to_euclidean_division_equations; lia).
  by replace ((byteZ b + 256 * le_Z bs) mod 16) with (byteZ b mod 16) by (Z.to_euclidean_division_equations; lia).
Qed.
