(* ===== verification/Model.v ===== *)
(** * [hap-model/src/{uuid,perms,status,format,unit,tree,error}.rs]: the accessory model

    Type UUIDs and their short form, permission sets, status codes, value formats and
    values, and the accessory tree.  The type tables of [generated.rs] are a parameter
    ([Generated]).  A [String] is the list of its scalar values. *)

From Stdlib Require Import SpecFloat.
From S2P Require Import Prelude Text.

(** ** [error.rs] *)

Inductive ModelError :=
| Json (msg : list Z)
| UnknownFormat (f : list Z)
| MalformedUuid (s : list Z)
| ValueType (format : string) (detail : list Z)
| ValueRange (format : string) (value : list Z)
| Base64 (msg : list Z)
| CharacteristicStatus (aid iid status : Z)
| Executor (msg : list Z).

(** ** [uuid.rs] *)

Definition HAP_BASE_SUFFIX : list Z := chars "-0000-1000-8000-0026BB765291".

(** [char::is_ascii_hexdigit]. *)
Definition is_ascii_hexdigit (c : Z) : bool :=
  (((48 <=? c) && (c <=? 57)) || ((65 <=? c) && (c <=? 70)) || ((97 <=? c) && (c <=? 102)))%Z.

(** [format!("{:0>8}", s)]. *)
Definition pad_left_zero (n : nat) (s : list Z) : list Z := replicate (n - length s) 48%Z ++ s.

(** [str::strip_suffix]. *)
Definition strip_suffix {A} `{EqDecision A} (suffix s : list A) : option (list A) :=
  let n := length s - length suffix in
  if bool_decide (drop n s = suffix) then Some (take n s) else None.

(** [str::trim_start_matches(c)]. *)
Fixpoint trim_start_matches (c : Z) (s : list Z) : list Z :=
  match s with
  | d :: s' => if (d =? c)%Z then trim_start_matches c s' else s
  | [] => []
  end.

(** A UUID is its canonical string. *)
Record Uuid := MkUuid { as_full : list Z }.

#[export] Instance uuid_eq_dec : EqDecision Uuid.
Proof. solve_decision. Defined.

Definition uuid_parse (s : list Z) : result ModelError Uuid :=
  let t := trim s in
  let bytes := utf8_encode t in
  if (length bytes =? 36) && bool_decide (bytes !! 8 = Some x2d) then
    if forallb (fun c => is_ascii_hexdigit c || (c =? 45)%Z) t
    then Ok (MkUuid (to_ascii_lowercase t))
    else Err (MalformedUuid s)
  else if ((1 <=? length bytes) && (length bytes <=? 8)) && forallb is_ascii_hexdigit t then
    let padded := pad_left_zero 8 (to_ascii_lowercase t) in
    Ok (MkUuid (to_ascii_lowercase (padded ++ HAP_BASE_SUFFIX)))
  else Err (MalformedUuid s).

Definition as_short (self : Uuid) : option (list Z) :=
  let suffix := to_ascii_lowercase HAP_BASE_SUFFIX in
  head ← strip_suffix suffix (as_full self);
  let trimmed := trim_start_matches 48 head in
  let trimmed := match trimmed with [] => [48%Z] | _ => trimmed end in
  Some (to_ascii_uppercase trimmed).

(** The string [Serialize] writes. *)
Definition uuid_serialize (self : Uuid) : list Z :=
  match as_short self with Some short => short | None => as_full self end.

(** ** [perms.rs] *)

Record Perms := {
  p_read : bool; p_write : bool; p_events : bool; p_additional_authorization : bool;
  p_timed_write : bool; p_hidden : bool; p_write_response : bool
}.

Definition perms_default : Perms :=
  {| p_read := false; p_write := false; p_events := false; p_additional_authorization := false;
     p_timed_write := false; p_hidden := false; p_write_response := false |}.

#[export] Instance perms_eq_dec : EqDecision Perms.
Proof. solve_decision. Defined.

Definition codes (self : Perms) : list string :=
  (if p_read self then ["pr"] else []) ++
  (if p_write self then ["pw"] else []) ++
  (if p_events self then ["ev"] else []) ++
  (if p_additional_authorization self then ["aa"] else []) ++
  (if p_timed_write self then ["tw"] else []) ++
  (if p_hidden self then ["hd"] else []) ++
  (if p_write_response self then ["wr"] else []).

(** The [match] of [visit_seq] on one code. *)
Definition visit_code (p : Perms) (code : string) : Perms :=
  let '{| p_read := r; p_write := w; p_events := e; p_additional_authorization := a;
          p_timed_write := t; p_hidden := h; p_write_response := wr |} := p in
  if bool_decide (code = "pr") then Build_Perms true w e a t h wr
  else if bool_decide (code = "pw") then Build_Perms r true e a t h wr
  else if bool_decide (code = "ev") then Build_Perms r w true a t h wr
  else if bool_decide (code = "aa") then Build_Perms r w e true t h wr
  else if bool_decide (code = "tw") then Build_Perms r w e a true h wr
  else if bool_decide (code = "hd") then Build_Perms r w e a t true wr
  else if bool_decide (code = "wr") then Build_Perms r w e a t h true
  else p.

Definition visit_seq (seq : list string) : Perms := foldl visit_code perms_default seq.

(** ** [status.rs] *)

Inductive HapStatus :=
| Success | InsufficientPrivileges | CommunicationFailure | ResourceBusy | WriteToReadOnly
| ReadFromWriteOnly | NotificationNotSupported | OutOfResources | OperationTimedOut
| ResourceDoesNotExist | InvalidValue | InsufficientAuthorization
| UnknownStatus (code : Z).

Definition from_code (code : Z) : HapStatus :=
  match code with
  | 0 => Success
  | -70401 => InsufficientPrivileges
  | -70402 => CommunicationFailure
  | -70403 => ResourceBusy
  | -70404 => WriteToReadOnly
  | -70405 => ReadFromWriteOnly
  | -70406 => NotificationNotSupported
  | -70407 => OutOfResources
  | -70408 => OperationTimedOut
  | -70409 => ResourceDoesNotExist
  | -70410 => InvalidValue
  | -70411 => InsufficientAuthorization
  | other => UnknownStatus other
  end%Z.

Definition status_code (self : HapStatus) : Z :=
  match self with
  | Success => 0
  | InsufficientPrivileges => -70401
  | CommunicationFailure => -70402
  | ResourceBusy => -70403
  | WriteToReadOnly => -70404
  | ReadFromWriteOnly => -70405
  | NotificationNotSupported => -70406
  | OutOfResources => -70407
  | OperationTimedOut => -70408
  | ResourceDoesNotExist => -70409
  | InvalidValue => -70410
  | InsufficientAuthorization => -70411
  | UnknownStatus c => c
  end%Z.

Definition hap_status (e : ModelError) : option HapStatus :=
  match e with
  | CharacteristicStatus _ _ status => Some (from_code status)
  | _ => None
  end.

(** ** [format.rs] *)

Inductive CharFormat :=
| FBool | FUint8 | FUint16 | FUint32 | FUint64 | FInt | FFloat | FString | FTlv8 | FData.

#[export] Instance char_format_eq_dec : EqDecision CharFormat.
Proof. solve_decision. Defined.

Definition format_as_str (self : CharFormat) : string :=
  match self with
  | FBool => "bool" | FUint8 => "uint8" | FUint16 => "uint16" | FUint32 => "uint32"
  | FUint64 => "uint64" | FInt => "int" | FFloat => "float" | FString => "string"
  | FTlv8 => "tlv8" | FData => "data"
  end.

Definition uint_max (self : CharFormat) : option Z :=
  match self with
  | FUint8 => Some (2 ^ 8 - 1)
  | FUint16 => Some (2 ^ 16 - 1)
  | FUint32 => Some (2 ^ 32 - 1)
  | FUint64 => Some (2 ^ 64 - 1)
  | _ => None
  end%Z.

(** An [f64] is an IEEE 754 binary64 datum, all NaNs identified. *)
Abbreviation f64 := spec_float.

Inductive CharValue :=
| VBool (b : bool)
| VInt (n : Z)
| VUint (n : Z)
| VFloat (f : f64)
| VStr (s : list Z)
| VBytes (b : bytes).

(** ** [unit.rs] *)

Inductive HapUnit := Celsius | Percentage | ArcDegrees | Lux | Seconds | Ppm | MicrogramsPerM3.

Definition unit_as_str (self : HapUnit) : string :=
  match self with
  | Celsius => "celsius"
  | Percentage => "percentage"
  | ArcDegrees => "arcdegrees"
  | Lux => "lux"
  | Seconds => "seconds"
  | Ppm => "ppm"
  | MicrogramsPerM3 => "micrograms/m^3"
  end.

(** ** The generated type tables *)

Class Generated := {
  ServiceType : Type;
  CharacteristicType : Type;
  service_type_eq_dec :: EqDecision ServiceType;
  characteristic_type_eq_dec :: EqDecision CharacteristicType;
  service_from_uuid : Uuid -> ServiceType;
  characteristic_from_uuid : Uuid -> CharacteristicType;
  default_format : CharacteristicType -> option CharFormat
}.

(** ** [tree.rs] *)

Section tree.
Context `{Generated}.

Record Characteristic := {
  ch_iid : Z;
  ch_type : CharacteristicType;
  ch_format : CharFormat;
  ch_perms : Perms;
  ch_value : option CharValue;
  ch_unit : option (list Z);
  ch_min_value : option f64;
  ch_max_value : option f64;
  ch_min_step : option f64;
  ch_max_len : option Z
}.

Record Service := { svc_iid : Z; svc_type : ServiceType; svc_characteristics : list Characteristic }.

Record Accessory := { acc_aid : Z; acc_services : list Service }.
End tree.

(** * Lemmas *)

(** ** Names on the wire *)

Lemma visit_seq_codes p : visit_seq (codes p) = p.
Proof. by destruct p as [[] [] [] [] [] [] []]. Qed.

(** The order of the codes and unknown codes do not matter. *)
Lemma visit_code_comm p c d : visit_code (visit_code p c) d = visit_code (visit_code p d) c.
Proof. destruct p. unfold visit_code. by repeat case_bool_decide; subst. Qed.

Lemma visit_seq_perm l1 l2 : l1 ≡ₚ l2 -> visit_seq l1 = visit_seq l2.
Proof.
  unfold visit_seq. generalize perms_default as p. intros p Hp. revert p.
  induction Hp as [|x l1 l2 Hp IH|x y l|l1 l2 l3 _ IH1 _ IH2]; intros p; simpl; auto.
  - by rewrite visit_code_comm.
  - by rewrite IH1.
Qed.

Ltac zcase :=
  match goal with
  | |- context [match ?z with Z0 => _ | Zpos _ => _ | Zneg _ => _ end] => destruct z; try done
  | |- context [match ?p with xI _ => _ | xO _ => _ | xH => _ end] => destruct p; try done
  end.

Lemma status_code_from_code c : status_code (from_code c) = c.
Proof. unfold from_code. repeat zcase. Qed.

(** ** UUIDs *)

Local Open Scope Z_scope.

(** Lower-case hexadecimal digits, and those with dashes. *)
Definition hexl (c : Z) : Prop := 48 <= c <= 57 \/ 97 <= c <= 102.
Definition hexd (c : Z) : Prop := hexl c \/ c = 45.

#[local] Ltac zb :=
  repeat match goal with
  | H : context [(?a <=? ?b)%Z] |- _ => destruct (Z.leb_spec a b)
  | H : context [(?a =? ?b)%Z] |- _ => destruct (Z.eqb_spec a b)
  | |- context [(?a <=? ?b)%Z] => destruct (Z.leb_spec a b)
  | |- context [(?a =? ?b)%Z] => destruct (Z.eqb_spec a b)
  end; simpl in *; try done; try lia.

Lemma hexdigit_lower c : is_ascii_hexdigit c = true -> hexl (ascii_lower c).
Proof. unfold is_ascii_hexdigit, ascii_lower, hexl. intros H. zb. Qed.

Lemma hexdash_lower c : is_ascii_hexdigit c || (c =? 45) = true -> hexd (ascii_lower c).
Proof. unfold is_ascii_hexdigit, ascii_lower, hexd, hexl. intros H. zb. Qed.

Lemma hexl_digit c : hexl c -> is_ascii_hexdigit c = true.
Proof. unfold is_ascii_hexdigit, hexl. intros H. zb. Qed.

Lemma hexl_upper_digit c : hexl c -> is_ascii_hexdigit (ascii_upper c) = true.
Proof. unfold is_ascii_hexdigit, ascii_upper, hexl. intros H. zb. Qed.

Lemma hexl_lower_upper c : hexl c -> ascii_lower (ascii_upper c) = c.
Proof. unfold ascii_lower, ascii_upper, hexl. intros H. zb. Qed.

Lemma hexd_lower c : hexd c -> ascii_lower c = c.
Proof. unfold ascii_lower, hexd, hexl. intros H. zb. Qed.

Lemma fmap_fixed {A} (g : A -> A) l : Forall (fun x => g x = x) l -> g <$> l = l.
Proof. intros H. rewrite <- (list_fmap_id l) at 2. by apply Forall_fmap_ext_1. Qed.

Lemma lower_hexd f : Forall hexd f -> to_ascii_lowercase f = f.
Proof. intros H. apply fmap_fixed. eapply Forall_impl; [exact H|apply hexd_lower]. Qed.

Lemma utf8_encode_small s : Forall (fun c => 0 <= c < 128) s -> utf8_encode s = Zbyte <$> s.
Proof.
  induction 1 as [|c s Hc Hs IH]; [done|].
  unfold utf8_encode in *. rewrite bind_cons, IH. unfold utf8_encode_char.
  by rewrite (proj2 (Z.ltb_lt c 0x80)) by lia.
Qed.

Lemma trim_hexd s : Forall (fun c => 33 <= c < 128) s -> trim s = s.
Proof.
  intros Hs. apply trim_no_space. unfold no_space_ends.
  assert (forall c, c ∈ s -> is_whitespace c = false) as Hw.
  { rewrite Forall_forall in Hs. intros c Hc. specialize (Hs c Hc). unfold is_whitespace. zb. }
  split; intros c s' ->; apply Hw; set_solver.
Qed.

Lemma hexd_range c : hexd c -> 33 <= c < 128.
Proof. unfold hexd, hexl. lia. Qed.

(** The canonical strings: what [parse] stores. *)
Definition canonical (f : list Z) : Prop :=
  length f = 36%nat /\ f !! 8%nat = Some 45 /\ Forall hexd f.

Definition lower_suffix : list Z := to_ascii_lowercase HAP_BASE_SUFFIX.

Lemma forallb_Forall {A} (p : A -> bool) l : forallb p l = true <-> Forall (fun x => p x = true) l.
Proof. rewrite forallb_forall, Forall_forall. by setoid_rewrite list_elem_of_In. Qed.

Lemma lower_suffix_hexd : Forall hexd lower_suffix.
Proof.
  apply Forall_fmap, (Forall_impl (fun c => is_ascii_hexdigit c || (c =? 45) = true)).
  - by apply forallb_Forall.
  - apply hexdash_lower.
Qed.

Lemma lookup_Zbyte_45 t :
  Forall (fun c => 0 <= c < 128) t -> (Zbyte <$> t) !! 8%nat = Some x2d <-> t !! 8%nat = Some 45.
Proof.
  intros Ht. rewrite list_lookup_fmap. destruct (t !! 8%nat) as [c|] eqn:Hc; simpl; [|done].
  pose proof (Forall_lookup_1 _ _ _ _ Ht Hc) as Hr. simpl in Hr. split; intros He; simplify_eq; [|done].
  f_equal. rewrite <- (byteZ_Zbyte_small c) by lia. by rewrite He.
Qed.

Lemma parse_canonical s u : uuid_parse s = Ok u -> canonical (as_full u).
Proof.
  unfold uuid_parse. intros H. set (t := trim s) in *.
  destruct (_ && bool_decide _) eqn:Hf.
  - apply andb_true_iff in Hf as [Hlen H8%bool_decide_eq_true]. apply Nat.eqb_eq in Hlen.
    destruct (forallb _ t) eqn:Hall; [|done]. simplify_eq/=. apply forallb_Forall in Hall.
    assert (Forall (fun c => 0 <= c < 128) t) as Hr.
    { eapply Forall_impl; [exact Hall|]. intros c. simpl. unfold is_ascii_hexdigit. intros Hc. zb. }
    rewrite utf8_encode_small in Hlen, H8 by done. rewrite length_fmap in Hlen.
    apply lookup_Zbyte_45 in H8; [|done]. unfold canonical, to_ascii_lowercase.
    rewrite length_fmap, list_lookup_fmap, H8. split; [done|]. split; [done|].
    apply Forall_fmap. eapply Forall_impl; [exact Hall|]. apply hexdash_lower.
  - destruct ((_ && _) && forallb _ t) eqn:Hs; [|done]. simplify_eq/=.
    apply andb_true_iff in Hs as [Hlen Hall]. apply forallb_Forall in Hall.
    assert (Forall (fun c => 0 <= c < 128) t) as Hr.
    { eapply Forall_impl; [exact Hall|]. intros c. unfold is_ascii_hexdigit. intros Hc. zb. }
    rewrite utf8_encode_small, length_fmap in Hlen by done.
    apply andb_true_iff in Hlen as [_ H2%Nat.leb_le].
    assert (length (pad_left_zero 8 (to_ascii_lowercase t)) = 8%nat) as Hp.
    { unfold pad_left_zero, to_ascii_lowercase. rewrite length_app, length_replicate, length_fmap. lia. }
    unfold canonical, to_ascii_lowercase in *. rewrite fmap_app, length_app, !length_fmap, Hp.
    split; [done|]. split; [by rewrite lookup_app_r by (by rewrite length_fmap, Hp);
      rewrite length_fmap, Hp|].
    apply Forall_app. split; [|by apply lower_suffix_hexd].
    apply Forall_fmap. unfold pad_left_zero. apply Forall_app. split.
    + apply Forall_replicate. apply hexdash_lower. done.
    + apply Forall_fmap. eapply Forall_impl; [exact Hall|]. intros c Hc%hexdigit_lower. simpl.
      rewrite hexd_lower by (by left). by left.
Qed.

(** A canonical string without a short form is read back as itself. *)
Lemma parse_full f : canonical f -> uuid_parse f = Ok (MkUuid f).
Proof.
  intros (Hl & H8 & Hf). unfold uuid_parse.
  assert (Forall (fun c => 33 <= c < 128) f) as Hr by (eapply Forall_impl; [exact Hf|apply hexd_range]).
  assert (Forall (fun c => 0 <= c < 128) f) as Hr0 by (eapply Forall_impl; [exact Hr|]; intros; simpl in *; lia).
  rewrite trim_hexd, utf8_encode_small, length_fmap, Hl by done.
  rewrite bool_decide_true by (by apply lookup_Zbyte_45). simpl.
  replace (forallb _ f) with true; simpl.
  - do 2 f_equal. by apply lower_hexd.
  - symmetry. apply forallb_Forall. eapply Forall_impl; [exact Hf|].
    intros c [Hc| ->]; [by rewrite hexl_digit by done|done].
Qed.

Lemma trim_zeros_pad f :
  pad_left_zero (length f) (match trim_start_matches 48 f with [] => [48] | t => t end) = f \/ f = [].
Proof.
  destruct f as [|c0 f0]; [by right|left]. remember (c0 :: f0) as f eqn:Hne.
  assert (f = replicate (length f - length (trim_start_matches 48 f)) 48 ++ trim_start_matches 48 f) as Hs.
  { clear. induction f as [|c f IH]; [done|]. cbn [trim_start_matches].
    destruct (Z.eqb_spec c 48) as [->|]; [|by rewrite Nat.sub_diag].
    assert (length (trim_start_matches 48 f) <= length f)%nat.
    { clear. induction f; simpl; [lia|]. case_match; simpl; lia. }
    simpl length. rewrite Nat.sub_succ_l by done. cbn [replicate app]. by f_equal. }
  unfold pad_left_zero. destruct (trim_start_matches 48 f) as [|c t] eqn:Ht; [|done].
  rewrite app_nil_r in Hs. simpl in Hs. rewrite Hs at 2. rewrite Nat.sub_0_r in *.
  subst f. simpl length in *. simpl. rewrite Nat.sub_0_r.
  by rewrite <- replicate_S_end.
Qed.

(** The short form of a canonical string in the HAP base range. *)
Lemma as_short_head head :
  length head = 8%nat ->
  as_short (MkUuid (head ++ lower_suffix)) =
    Some (to_ascii_uppercase (match trim_start_matches 48 head with [] => [48] | t => t end)).
Proof.
  intros Hl. unfold as_short, strip_suffix. cbn [as_full]. fold lower_suffix.
  replace (length (head ++ lower_suffix) - length lower_suffix)%nat with (length head)
    by (rewrite length_app; lia).
  rewrite drop_app_length, take_app_length, bool_decide_true by done. simpl. by destruct (trim_start_matches 48 head).
Qed.

Lemma trim_start_matches_spec c s :
  exists pre, s = pre ++ trim_start_matches c s /\ Forall (.= c) pre.
Proof.
  induction s as [|d s (pre & Hs & Hp)]; [by exists []|]. cbn [trim_start_matches].
  destruct (Z.eqb_spec d c) as [->|]; [|by exists []].
  exists (c :: pre). split; [by rewrite <- app_comm_cons, <- Hs|by constructor].
Qed.

Lemma parse_short_head head :
  length head = 8%nat -> Forall hexd head ->
  uuid_parse (to_ascii_uppercase (match trim_start_matches 48 head with [] => [48] | t => t end)) =
    Ok (MkUuid (head ++ lower_suffix)) <-> 45 ∉ head.
Proof.
  intros Hl Hh. set (t := match trim_start_matches 48 head with [] => [48] | t => t end).
  assert (pad_left_zero 8 t = head) as Hpad.
  { destruct (trim_zeros_pad head) as [Hp| ->]; [by rewrite Hl in Hp|done]. }
  assert (1 <= length t <= 8)%nat as Hlt.
  { rewrite <- Hl, <- Hpad. unfold pad_left_zero. rewrite length_app.
    unfold t. destruct (trim_start_matches 48 head); simpl; lia. }
  assert (Forall hexd t) as Ht by (rewrite <- Hpad in Hh; by apply Forall_app in Hh as [_ ?]).
  assert (45 ∈ head <-> 45 ∈ t) as Hin.
  { rewrite <- Hpad at 1. unfold pad_left_zero. rewrite elem_of_app, elem_of_replicate. intuition lia. }
  assert (Forall (fun c => 33 <= c < 128) (to_ascii_uppercase t)) as Hr.
  { apply Forall_fmap. eapply Forall_impl; [exact Ht|]. unfold hexd, hexl, ascii_upper. intros c Hc. simpl. zb. }
  assert (Forall (fun c => 0 <= c < 128) (to_ascii_uppercase t)) as Hr0
    by (eapply Forall_impl; [exact Hr|]; intros; simpl in *; lia).
  unfold uuid_parse. rewrite trim_hexd, utf8_encode_small, length_fmap by done.
  assert (length (to_ascii_uppercase t) = length t) as -> by apply length_fmap.
  rewrite (proj2 (Nat.eqb_neq (length t) 36)) by lia. cbn [andb].
  rewrite !(proj2 (Nat.leb_le _ _)) by lia. cbn [andb]. split.
  - destruct (forallb _ _) eqn:Hb; [|done]. intros _. rewrite Hin. intros H45.
    apply forallb_Forall, Forall_fmap in Hb. rewrite Forall_forall in Hb. by specialize (Hb _ H45).
  - intros Hno. rewrite Hin in Hno.
    assert (Forall hexl t) as Htl.
    { rewrite Forall_forall in Ht |- *. intros c Hc. destruct (Ht c Hc) as [| ->]; [done|contradiction]. }
    replace (forallb _ _) with true.
    2:{ symmetry. apply forallb_Forall, Forall_fmap. eapply Forall_impl; [exact Htl|apply hexl_upper_digit]. }
    assert (to_ascii_lowercase (to_ascii_uppercase t) = t) as ->.
    { unfold to_ascii_lowercase, to_ascii_uppercase. rewrite <- list_fmap_compose.
      apply fmap_fixed. eapply Forall_impl; [exact Htl|apply hexl_lower_upper]. }
    rewrite Hpad. do 2 f_equal. unfold to_ascii_lowercase. rewrite fmap_app. f_equal. by apply lower_hexd.
Qed.

(** * Theorems *)

(** A UUID read from any string is written (in the short form when it has one) to a
    string that reads back as the same UUID, exactly unless it is in the HAP base range
    with a dash inside its first group, which [parse] accepts. *)
Theorem uuid_roundtrip s u :
  uuid_parse s = Ok u ->
  uuid_parse (uuid_serialize u) = Ok u <->
    forall head, as_full u = head ++ lower_suffix -> 45 ∉ head.
Proof.
  intros Hp. pose proof (parse_canonical _ _ Hp) as Hc. destruct u as [f]. cbn [as_full] in *.
  unfold uuid_serialize. destruct (decide (drop 8 f = lower_suffix)) as [Hd|Hd].
  - rewrite <- (take_drop 8 f), Hd. destruct Hc as (Hl & _ & Hf).
    rewrite <- (take_drop 8 f) in Hf. apply Forall_app in Hf as [Hf _].
    assert (length (take 8 f) = 8%nat) as Hl8 by (rewrite length_take; lia).
    rewrite as_short_head, parse_short_head by done. split.
    + intros Hn head He%app_inv_tail. by subst.
    + intros He. by apply He.
  - assert (as_short (MkUuid f) = None) as Hs.
    { unfold as_short, strip_suffix. cbn [as_full]. fold lower_suffix. destruct Hc as (Hl & _ & _).
      rewrite Hl. change (36 - length lower_suffix)%nat with 8%nat. by rewrite bool_decide_false. }
    rewrite Hs. cbn [as_full]. rewrite parse_full by done. split; [|done].
    intros _ head ->. destruct Hc as (Hl & _ & _). rewrite length_app in Hl.
    change (length lower_suffix) with 28%nat in Hl. destruct Hd. by rewrite drop_app_length' by lia.
Qed.

Lemma uuid_roundtrip_witness :
  let u := MkUuid (chars "00000025-0000-1000-8000-0026bb765291") in
  uuid_serialize u = chars "25" /\
  (uuid_parse (uuid_serialize u) = Ok u <-> forall head, as_full u = head ++ lower_suffix -> 45 ∉ head).
Proof. split; [by vm_compute|]. apply (uuid_roundtrip (chars " 25 ")). by vm_compute. Defined.
