(* ===== verification/Types.v ===== *)
(** * [hap-model/src/generated.rs]: the HAP type tables

    The service and characteristic types, their UUIDs, default formats, units and named
    values.  [hap_types] gives them to the modules written against the class
    [Generated]. *)

From Stdlib Require Import Sorted.
From S2P Require Import Prelude Text Model.

(** [match s { arms.., _ => default }] on string literals. *)
Fixpoint match_str {A} (s : list Z) (arms : list (string * A)) (default : A) : A :=
  match arms with
  | [] => default
  | (lit, a) :: arms' => if bool_decide (s = chars lit) then a else match_str s arms' default
  end.

(** [Uuid::from_full_unchecked]. *)
Definition from_full_unchecked (full : string) : Uuid := MkUuid (chars full).

(** ** [ServiceType] *)

Inductive HapServiceType :=
| SvcAccessoryInformation | SvcFan | SvcGarageDoorOpener | SvcLightBulb | SvcLockManagement
| SvcLockMechanism | SvcOutlet | SvcSwitch | SvcThermostat | SvcSecuritySystem
| SvcCarbonMonoxideSensor | SvcContactSensor | SvcDoor | SvcHumiditySensor | SvcLeakSensor
| SvcLightSensor | SvcMotionSensor | SvcOccupancySensor | SvcSmokeSensor
| SvcStatelessProgrammableSwitch | SvcTemperatureSensor | SvcWindow | SvcWindowCovering
| SvcAirQualitySensor | SvcBattery | SvcCarbonDioxideSensor | SvcProtocolInformation | SvcFanV2
| SvcSlat | SvcFilterMaintenance | SvcAirPurifier | SvcHeaterCooler | SvcHumidifierDehumidifier
| SvcServiceLabel | SvcIrrigationSystem | SvcValve | SvcFaucet | SvcCameraRtpStreamManagement
| SvcMicrophone | SvcSpeaker | SvcDoorbell
| SvcUnknown (u : Uuid).

(** The arms of [ServiceType::from_uuid]. *)
Definition service_type_arms : list (string * HapServiceType) := [
  ("0000003e-0000-1000-8000-0026bb765291", SvcAccessoryInformation);
  ("00000040-0000-1000-8000-0026bb765291", SvcFan);
  ("00000041-0000-1000-8000-0026bb765291", SvcGarageDoorOpener);
  ("00000043-0000-1000-8000-0026bb765291", SvcLightBulb);
  ("00000044-0000-1000-8000-0026bb765291", SvcLockManagement);
  ("00000045-0000-1000-8000-0026bb765291", SvcLockMechanism);
  ("00000047-0000-1000-8000-0026bb765291", SvcOutlet);
  ("00000049-0000-1000-8000-0026bb765291", SvcSwitch);
  ("0000004a-0000-1000-8000-0026bb765291", SvcThermostat);
  ("0000007e-0000-1000-8000-0026bb765291", SvcSecuritySystem);
  ("0000007f-0000-1000-8000-0026bb765291", SvcCarbonMonoxideSensor);
  ("00000080-0000-1000-8000-0026bb765291", SvcContactSensor);
  ("00000081-0000-1000-8000-0026bb765291", SvcDoor);
  ("00000082-0000-1000-8000-0026bb765291", SvcHumiditySensor);
  ("00000083-0000-1000-8000-0026bb765291", SvcLeakSensor);
  ("00000084-0000-1000-8000-0026bb765291", SvcLightSensor);
  ("00000085-0000-1000-8000-0026bb765291", SvcMotionSensor);
  ("00000086-0000-1000-8000-0026bb765291", SvcOccupancySensor);
  ("00000087-0000-1000-8000-0026bb765291", SvcSmokeSensor);
  ("00000089-0000-1000-8000-0026bb765291", SvcStatelessProgrammableSwitch);
  ("0000008a-0000-1000-8000-0026bb765291", SvcTemperatureSensor);
  ("0000008b-0000-1000-8000-0026bb765291", SvcWindow);
  ("0000008c-0000-1000-8000-0026bb765291", SvcWindowCovering);
  ("0000008d-0000-1000-8000-0026bb765291", SvcAirQualitySensor);
  ("00000096-0000-1000-8000-0026bb765291", SvcBattery);
  ("00000097-0000-1000-8000-0026bb765291", SvcCarbonDioxideSensor);
  ("000000a2-0000-1000-8000-0026bb765291", SvcProtocolInformation);
  ("000000b7-0000-1000-8000-0026bb765291", SvcFanV2);
  ("000000b9-0000-1000-8000-0026bb765291", SvcSlat);
  ("000000ba-0000-1000-8000-0026bb765291", SvcFilterMaintenance);
  ("000000bb-0000-1000-8000-0026bb765291", SvcAirPurifier);
  ("000000bc-0000-1000-8000-0026bb765291", SvcHeaterCooler);
  ("000000bd-0000-1000-8000-0026bb765291", SvcHumidifierDehumidifier);
  ("000000cc-0000-1000-8000-0026bb765291", SvcServiceLabel);
  ("000000cf-0000-1000-8000-0026bb765291", SvcIrrigationSystem);
  ("000000d0-0000-1000-8000-0026bb765291", SvcValve);
  ("000000d7-0000-1000-8000-0026bb765291", SvcFaucet);
  ("00000110-0000-1000-8000-0026bb765291", SvcCameraRtpStreamManagement);
  ("00000112-0000-1000-8000-0026bb765291", SvcMicrophone);
  ("00000113-0000-1000-8000-0026bb765291", SvcSpeaker);
  ("00000121-0000-1000-8000-0026bb765291", SvcDoorbell)
].

Definition service_type_from_uuid (u : Uuid) : HapServiceType := match_str (as_full u) service_type_arms (SvcUnknown u).

Definition service_type_uuid (self : HapServiceType) : Uuid :=
  match self with
  | SvcAccessoryInformation => from_full_unchecked "0000003e-0000-1000-8000-0026bb765291"
  | SvcFan => from_full_unchecked "00000040-0000-1000-8000-0026bb765291"
  | SvcGarageDoorOpener => from_full_unchecked "00000041-0000-1000-8000-0026bb765291"
  | SvcLightBulb => from_full_unchecked "00000043-0000-1000-8000-0026bb765291"
  | SvcLockManagement => from_full_unchecked "00000044-0000-1000-8000-0026bb765291"
  | SvcLockMechanism => from_full_unchecked "00000045-0000-1000-8000-0026bb765291"
  | SvcOutlet => from_full_unchecked "00000047-0000-1000-8000-0026bb765291"
  | SvcSwitch => from_full_unchecked "00000049-0000-1000-8000-0026bb765291"
  | SvcThermostat => from_full_unchecked "0000004a-0000-1000-8000-0026bb765291"
  | SvcSecuritySystem => from_full_unchecked "0000007e-0000-1000-8000-0026bb765291"
  | SvcCarbonMonoxideSensor => from_full_unchecked "0000007f-0000-1000-8000-0026bb765291"
  | SvcContactSensor => from_full_unchecked "00000080-0000-1000-8000-0026bb765291"
  | SvcDoor => from_full_unchecked "00000081-0000-1000-8000-0026bb765291"
  | SvcHumiditySensor => from_full_unchecked "00000082-0000-1000-8000-0026bb765291"
  | SvcLeakSensor => from_full_unchecked "00000083-0000-1000-8000-0026bb765291"
  | SvcLightSensor => from_full_unchecked "00000084-0000-1000-8000-0026bb765291"
  | SvcMotionSensor => from_full_unchecked "00000085-0000-1000-8000-0026bb765291"
  | SvcOccupancySensor => from_full_unchecked "00000086-0000-1000-8000-0026bb765291"
  | SvcSmokeSensor => from_full_unchecked "00000087-0000-1000-8000-0026bb765291"
  | SvcStatelessProgrammableSwitch => from_full_unchecked "00000089-0000-1000-8000-0026bb765291"
  | SvcTemperatureSensor => from_full_unchecked "0000008a-0000-1000-8000-0026bb765291"
  | SvcWindow => from_full_unchecked "0000008b-0000-1000-8000-0026bb765291"
  | SvcWindowCovering => from_full_unchecked "0000008c-0000-1000-8000-0026bb765291"
  | SvcAirQualitySensor => from_full_unchecked "0000008d-0000-1000-8000-0026bb765291"
  | SvcBattery => from_full_unchecked "00000096-0000-1000-8000-0026bb765291"
  | SvcCarbonDioxideSensor => from_full_unchecked "00000097-0000-1000-8000-0026bb765291"
  | SvcProtocolInformation => from_full_unchecked "000000a2-0000-1000-8000-0026bb765291"
  | SvcFanV2 => from_full_unchecked "000000b7-0000-1000-8000-0026bb765291"
  | SvcSlat => from_full_unchecked "000000b9-0000-1000-8000-0026bb765291"
  | SvcFilterMaintenance => from_full_unchecked "000000ba-0000-1000-8000-0026bb765291"
  | SvcAirPurifier => from_full_unchecked "000000bb-0000-1000-8000-0026bb765291"
  | SvcHeaterCooler => from_full_unchecked "000000bc-0000-1000-8000-0026bb765291"
  | SvcHumidifierDehumidifier => from_full_unchecked "000000bd-0000-1000-8000-0026bb765291"
  | SvcServiceLabel => from_full_unchecked "000000cc-0000-1000-8000-0026bb765291"
  | SvcIrrigationSystem => from_full_unchecked "000000cf-0000-1000-8000-0026bb765291"
  | SvcValve => from_full_unchecked "000000d0-0000-1000-8000-0026bb765291"
  | SvcFaucet => from_full_unchecked "000000d7-0000-1000-8000-0026bb765291"
  | SvcCameraRtpStreamManagement => from_full_unchecked "00000110-0000-1000-8000-0026bb765291"
  | SvcMicrophone => from_full_unchecked "00000112-0000-1000-8000-0026bb765291"
  | SvcSpeaker => from_full_unchecked "00000113-0000-1000-8000-0026bb765291"
  | SvcDoorbell => from_full_unchecked "00000121-0000-1000-8000-0026bb765291"
  | SvcUnknown u => u
  end.

(** A named type is known by its UUID. *)
Definition service_type_code (self : HapServiceType) : Uuid + Uuid :=
  match self with SvcUnknown u => inr u | t => inl (service_type_uuid t) end.
Definition service_type_decode (c : Uuid + Uuid) : HapServiceType :=
  match c with inr u => SvcUnknown u | inl u => service_type_from_uuid u end.

Lemma service_type_decode_code t : service_type_decode (service_type_code t) = t.
Proof. destruct t; by vm_compute. Qed.

Lemma service_type_code_inj : Inj (=) (=) service_type_code.
Proof. intros a b He. rewrite <- (service_type_decode_code a), <- (service_type_decode_code b). by rewrite He. Qed.

#[export] Instance service_type_eq_dec : EqDecision HapServiceType :=
  inj_eq_dec (Inj0 := service_type_code_inj) service_type_code.

(** ** [CharacteristicType] *)

Inductive HapCharacteristicType :=
| ChrAdministratorOnlyAccess | ChrAudioFeedback | ChrBrightness | ChrCoolingThresholdTemperature
| ChrCurrentDoorState | ChrCurrentHeatingCoolingState | ChrCurrentRelativeHumidity
| ChrCurrentTemperature | ChrHeatingThresholdTemperature | ChrHue | ChrIdentify | ChrLockControlPoint
| ChrLockManagementAutoSecurityTimeout | ChrLockLastKnownAction | ChrLockCurrentState
| ChrLockTargetState | ChrLogs | ChrManufacturer | ChrModel | ChrMotionDetected | ChrName
| ChrObstructionDetected | ChrOn | ChrOutletInUse | ChrRotationDirection | ChrRotationSpeed
| ChrSaturation | ChrSerialNumber | ChrTargetDoorState | ChrTargetHeatingCoolingState
| ChrTargetRelativeHumidity | ChrTargetTemperature | ChrTemperatureDisplayUnits | ChrVersion
| ChrPairSetup | ChrPairVerify | ChrPairingFeatures | ChrPairingPairings | ChrFirmwareRevision
| ChrHardwareRevision | ChrAirParticulateDensity | ChrAirParticulateSize
| ChrSecuritySystemCurrentState | ChrSecuritySystemTargetState | ChrBatteryLevel
| ChrCarbonMonoxideDetected | ChrContactSensorState | ChrCurrentAmbientLightLevel
| ChrCurrentHorizontalTiltAngle | ChrCurrentPosition | ChrCurrentVerticalTiltAngle | ChrHoldPosition
| ChrLeakDetected | ChrOccupancyDetected | ChrPositionState | ChrProgrammableSwitchEvent
| ChrStatusActive | ChrSmokeDetected | ChrStatusFault | ChrStatusJammed | ChrStatusLowBattery
| ChrStatusTampered | ChrTargetHorizontalTiltAngle | ChrTargetPosition | ChrTargetVerticalTiltAngle
| ChrSecuritySystemAlarmType | ChrChargingState | ChrCarbonMonoxideLevel | ChrCarbonMonoxidePeakLevel
| ChrCarbonDioxideDetected | ChrCarbonDioxideLevel | ChrCarbonDioxidePeakLevel | ChrAirQuality
| ChrAccessoryFlags | ChrLockPhysicalControls | ChrTargetAirPurifierState | ChrCurrentAirPurifierState
| ChrCurrentSlatState | ChrFilterLifeLevel | ChrFilterChangeIndication | ChrResetFilterIndication
| ChrTargetAirQuality | ChrCurrentFanState | ChrActive | ChrCurrentHeaterCoolerState
| ChrTargetHeaterCoolerState | ChrCurrentHumidifierDehumidifierState
| ChrTargetHumidifierDehumidifierState | ChrWaterLevel | ChrSwingMode | ChrTargetSlatState
| ChrTargetFanState | ChrSlatType | ChrCurrentTiltAngle | ChrTargetTiltAngle | ChrOzoneDensity
| ChrNitrogenDioxideDensity | ChrSulphurDioxideDensity | ChrPm25Density | ChrPm10Density
| ChrVocDensity | ChrRelativeHumidityDehumidifierThreshold | ChrRelativeHumidityHumidifierThreshold
| ChrServiceLabelIndex | ChrServiceLabelNamespace | ChrColorTemperature | ChrProgramMode | ChrInUse
| ChrSetDuration | ChrRemainingDuration | ChrValveType | ChrIsConfigured
| ChrSupportedVideoStreamConfiguration | ChrSupportedAudioStreamConfiguration
| ChrSupportedRtpConfiguration | ChrSelectedRtpStreamConfiguration | ChrSetupEndpoints | ChrVolume
| ChrMute | ChrNightVision | ChrOpticalZoom | ChrDigitalZoom | ChrImageRotation | ChrImageMirroring
| ChrStreamingStatus | ChrThreadNodeCapabilities | ChrThreadStatus
| ChrUnknown (u : Uuid).

(** The arms of [CharacteristicType::from_uuid]. *)
Definition characteristic_type_arms : list (string * HapCharacteristicType) := [
  ("00000001-0000-1000-8000-0026bb765291", ChrAdministratorOnlyAccess);
  ("00000005-0000-1000-8000-0026bb765291", ChrAudioFeedback);
  ("00000008-0000-1000-8000-0026bb765291", ChrBrightness);
  ("0000000d-0000-1000-8000-0026bb765291", ChrCoolingThresholdTemperature);
  ("0000000e-0000-1000-8000-0026bb765291", ChrCurrentDoorState);
  ("0000000f-0000-1000-8000-0026bb765291", ChrCurrentHeatingCoolingState);
  ("00000010-0000-1000-8000-0026bb765291", ChrCurrentRelativeHumidity);
  ("00000011-0000-1000-8000-0026bb765291", ChrCurrentTemperature);
  ("00000012-0000-1000-8000-0026bb765291", ChrHeatingThresholdTemperature);
  ("00000013-0000-1000-8000-0026bb765291", ChrHue);
  ("00000014-0000-1000-8000-0026bb765291", ChrIdentify);
  ("00000019-0000-1000-8000-0026bb765291", ChrLockControlPoint);
  ("0000001a-0000-1000-8000-0026bb765291", ChrLockManagementAutoSecurityTimeout);
  ("0000001c-0000-1000-8000-0026bb765291", ChrLockLastKnownAction);
  ("0000001d-0000-1000-8000-0026bb765291", ChrLockCurrentState);
  ("0000001e-0000-1000-8000-0026bb765291", ChrLockTargetState);
  ("0000001f-0000-1000-8000-0026bb765291", ChrLogs);
  ("00000020-0000-1000-8000-0026bb765291", ChrManufacturer);
  ("00000021-0000-1000-8000-0026bb765291", ChrModel);
  ("00000022-0000-1000-8000-0026bb765291", ChrMotionDetected);
  ("00000023-0000-1000-8000-0026bb765291", ChrName);
  ("00000024-0000-1000-8000-0026bb765291", ChrObstructionDetected);
  ("00000025-0000-1000-8000-0026bb765291", ChrOn);
  ("00000026-0000-1000-8000-0026bb765291", ChrOutletInUse);
  ("00000028-0000-1000-8000-0026bb765291", ChrRotationDirection);
  ("00000029-0000-1000-8000-0026bb765291", ChrRotationSpeed);
  ("0000002f-0000-1000-8000-0026bb765291", ChrSaturation);
  ("00000030-0000-1000-8000-0026bb765291", ChrSerialNumber);
  ("00000032-0000-1000-8000-0026bb765291", ChrTargetDoorState);
  ("00000033-0000-1000-8000-0026bb765291", ChrTargetHeatingCoolingState);
  ("00000034-0000-1000-8000-0026bb765291", ChrTargetRelativeHumidity);
  ("00000035-0000-1000-8000-0026bb765291", ChrTargetTemperature);
  ("00000036-0000-1000-8000-0026bb765291", ChrTemperatureDisplayUnits);
  ("00000037-0000-1000-8000-0026bb765291", ChrVersion);
  ("0000004c-0000-1000-8000-0026bb765291", ChrPairSetup);
  ("0000004e-0000-1000-8000-0026bb765291", ChrPairVerify);
  ("0000004f-0000-1000-8000-0026bb765291", ChrPairingFeatures);
  ("00000050-0000-1000-8000-0026bb765291", ChrPairingPairings);
  ("00000052-0000-1000-8000-0026bb765291", ChrFirmwareRevision);
  ("00000053-0000-1000-8000-0026bb765291", ChrHardwareRevision);
  ("00000064-0000-1000-8000-0026bb765291", ChrAirParticulateDensity);
  ("00000065-0000-1000-8000-0026bb765291", ChrAirParticulateSize);
  ("00000066-0000-1000-8000-0026bb765291", ChrSecuritySystemCurrentState);
  ("00000067-0000-1000-8000-0026bb765291", ChrSecuritySystemTargetState);
  ("00000068-0000-1000-8000-0026bb765291", ChrBatteryLevel);
  ("00000069-0000-1000-8000-0026bb765291", ChrCarbonMonoxideDetected);
  ("0000006a-0000-1000-8000-0026bb765291", ChrContactSensorState);
  ("0000006b-0000-1000-8000-0026bb765291", ChrCurrentAmbientLightLevel);
  ("0000006c-0000-1000-8000-0026bb765291", ChrCurrentHorizontalTiltAngle);
  ("0000006d-0000-1000-8000-0026bb765291", ChrCurrentPosition);
  ("0000006e-0000-1000-8000-0026bb765291", ChrCurrentVerticalTiltAngle);
  ("0000006f-0000-1000-8000-0026bb765291", ChrHoldPosition);
  ("00000070-0000-1000-8000-0026bb765291", ChrLeakDetected);
  ("00000071-0000-1000-8000-0026bb765291", ChrOccupancyDetected);
  ("00000072-0000-1000-8000-0026bb765291", ChrPositionState);
  ("00000073-0000-1000-8000-0026bb765291", ChrProgrammableSwitchEvent);
  ("00000075-0000-1000-8000-0026bb765291", ChrStatusActive);
  ("00000076-0000-1000-8000-0026bb765291", ChrSmokeDetected);
  ("00000077-0000-1000-8000-0026bb765291", ChrStatusFault);
  ("00000078-0000-1000-8000-0026bb765291", ChrStatusJammed);
  ("00000079-0000-1000-8000-0026bb765291", ChrStatusLowBattery);
  ("0000007a-0000-1000-8000-0026bb765291", ChrStatusTampered);
  ("0000007b-0000-1000-8000-0026bb765291", ChrTargetHorizontalTiltAngle);
  ("0000007c-0000-1000-8000-0026bb765291", ChrTargetPosition);
  ("0000007d-0000-1000-8000-0026bb765291", ChrTargetVerticalTiltAngle);
  ("0000008e-0000-1000-8000-0026bb765291", ChrSecuritySystemAlarmType);
  ("0000008f-0000-1000-8000-0026bb765291", ChrChargingState);
  ("00000090-0000-1000-8000-0026bb765291", ChrCarbonMonoxideLevel);
  ("00000091-0000-1000-8000-0026bb765291", ChrCarbonMonoxidePeakLevel);
  ("00000092-0000-1000-8000-0026bb765291", ChrCarbonDioxideDetected);
  ("00000093-0000-1000-8000-0026bb765291", ChrCarbonDioxideLevel);
  ("00000094-0000-1000-8000-0026bb765291", ChrCarbonDioxidePeakLevel);
  ("00000095-0000-1000-8000-0026bb765291", ChrAirQuality);
  ("000000a6-0000-1000-8000-0026bb765291", ChrAccessoryFlags);
  ("000000a7-0000-1000-8000-0026bb765291", ChrLockPhysicalControls);
  ("000000a8-0000-1000-8000-0026bb765291", ChrTargetAirPurifierState);
  ("000000a9-0000-1000-8000-0026bb765291", ChrCurrentAirPurifierState);
  ("000000aa-0000-1000-8000-0026bb765291", ChrCurrentSlatState);
  ("000000ab-0000-1000-8000-0026bb765291", ChrFilterLifeLevel);
  ("000000ac-0000-1000-8000-0026bb765291", ChrFilterChangeIndication);
  ("000000ad-0000-1000-8000-0026bb765291", ChrResetFilterIndication);
  ("000000ae-0000-1000-8000-0026bb765291", ChrTargetAirQuality);
  ("000000af-0000-1000-8000-0026bb765291", ChrCurrentFanState);
  ("000000b0-0000-1000-8000-0026bb765291", ChrActive);
  ("000000b1-0000-1000-8000-0026bb765291", ChrCurrentHeaterCoolerState);
  ("000000b2-0000-1000-8000-0026bb765291", ChrTargetHeaterCoolerState);
  ("000000b3-0000-1000-8000-0026bb765291", ChrCurrentHumidifierDehumidifierState);
  ("000000b4-0000-1000-8000-0026bb765291", ChrTargetHumidifierDehumidifierState);
  ("000000b5-0000-1000-8000-0026bb765291", ChrWaterLevel);
  ("000000b6-0000-1000-8000-0026bb765291", ChrSwingMode);
  ("000000be-0000-1000-8000-0026bb765291", ChrTargetSlatState);
  ("000000bf-0000-1000-8000-0026bb765291", ChrTargetFanState);
  ("000000c0-0000-1000-8000-0026bb765291", ChrSlatType);
  ("000000c1-0000-1000-8000-0026bb765291", ChrCurrentTiltAngle);
  ("000000c2-0000-1000-8000-0026bb765291", ChrTargetTiltAngle);
  ("000000c3-0000-1000-8000-0026bb765291", ChrOzoneDensity);
  ("000000c4-0000-1000-8000-0026bb765291", ChrNitrogenDioxideDensity);
  ("000000c5-0000-1000-8000-0026bb765291", ChrSulphurDioxideDensity);
  ("000000c6-0000-1000-8000-0026bb765291", ChrPm25Density);
  ("000000c7-0000-1000-8000-0026bb765291", ChrPm10Density);
  ("000000c8-0000-1000-8000-0026bb765291", ChrVocDensity);
  ("000000c9-0000-1000-8000-0026bb765291", ChrRelativeHumidityDehumidifierThreshold);
  ("000000ca-0000-1000-8000-0026bb765291", ChrRelativeHumidityHumidifierThreshold);
  ("000000cb-0000-1000-8000-0026bb765291", ChrServiceLabelIndex);
  ("000000cd-0000-1000-8000-0026bb765291", ChrServiceLabelNamespace);
  ("000000ce-0000-1000-8000-0026bb765291", ChrColorTemperature);
  ("000000d1-0000-1000-8000-0026bb765291", ChrProgramMode);
  ("000000d2-0000-1000-8000-0026bb765291", ChrInUse);
  ("000000d3-0000-1000-8000-0026bb765291", ChrSetDuration);
  ("000000d4-0000-1000-8000-0026bb765291", ChrRemainingDuration);
  ("000000d5-0000-1000-8000-0026bb765291", ChrValveType);
  ("000000d6-0000-1000-8000-0026bb765291", ChrIsConfigured);
  ("00000114-0000-1000-8000-0026bb765291", ChrSupportedVideoStreamConfiguration);
  ("00000115-0000-1000-8000-0026bb765291", ChrSupportedAudioStreamConfiguration);
  ("00000116-0000-1000-8000-0026bb765291", ChrSupportedRtpConfiguration);
  ("00000117-0000-1000-8000-0026bb765291", ChrSelectedRtpStreamConfiguration);
  ("00000118-0000-1000-8000-0026bb765291", ChrSetupEndpoints);
  ("00000119-0000-1000-8000-0026bb765291", ChrVolume);
  ("0000011a-0000-1000-8000-0026bb765291", ChrMute);
  ("0000011b-0000-1000-8000-0026bb765291", ChrNightVision);
  ("0000011c-0000-1000-8000-0026bb765291", ChrOpticalZoom);
  ("0000011d-0000-1000-8000-0026bb765291", ChrDigitalZoom);
  ("0000011e-0000-1000-8000-0026bb765291", ChrImageRotation);
  ("0000011f-0000-1000-8000-0026bb765291", ChrImageMirroring);
  ("00000120-0000-1000-8000-0026bb765291", ChrStreamingStatus);
  ("00000702-0000-1000-8000-0026bb765291", ChrThreadNodeCapabilities);
  ("00000703-0000-1000-8000-0026bb765291", ChrThreadStatus)
].

Definition characteristic_type_from_uuid (u : Uuid) : HapCharacteristicType := match_str (as_full u) characteristic_type_arms (ChrUnknown u).

Definition characteristic_type_uuid (self : HapCharacteristicType) : Uuid :=
  match self with
  | ChrAdministratorOnlyAccess => from_full_unchecked "00000001-0000-1000-8000-0026bb765291"
  | ChrAudioFeedback => from_full_unchecked "00000005-0000-1000-8000-0026bb765291"
  | ChrBrightness => from_full_unchecked "00000008-0000-1000-8000-0026bb765291"
  | ChrCoolingThresholdTemperature => from_full_unchecked "0000000d-0000-1000-8000-0026bb765291"
  | ChrCurrentDoorState => from_full_unchecked "0000000e-0000-1000-8000-0026bb765291"
  | ChrCurrentHeatingCoolingState => from_full_unchecked "0000000f-0000-1000-8000-0026bb765291"
  | ChrCurrentRelativeHumidity => from_full_unchecked "00000010-0000-1000-8000-0026bb765291"
  | ChrCurrentTemperature => from_full_unchecked "00000011-0000-1000-8000-0026bb765291"
  | ChrHeatingThresholdTemperature => from_full_unchecked "00000012-0000-1000-8000-0026bb765291"
  | ChrHue => from_full_unchecked "00000013-0000-1000-8000-0026bb765291"
  | ChrIdentify => from_full_unchecked "00000014-0000-1000-8000-0026bb765291"
  | ChrLockControlPoint => from_full_unchecked "00000019-0000-1000-8000-0026bb765291"
  | ChrLockManagementAutoSecurityTimeout => from_full_unchecked "0000001a-0000-1000-8000-0026bb765291"
  | ChrLockLastKnownAction => from_full_unchecked "0000001c-0000-1000-8000-0026bb765291"
  | ChrLockCurrentState => from_full_unchecked "0000001d-0000-1000-8000-0026bb765291"
  | ChrLockTargetState => from_full_unchecked "0000001e-0000-1000-8000-0026bb765291"
  | ChrLogs => from_full_unchecked "0000001f-0000-1000-8000-0026bb765291"
  | ChrManufacturer => from_full_unchecked "00000020-0000-1000-8000-0026bb765291"
  | ChrModel => from_full_unchecked "00000021-0000-1000-8000-0026bb765291"
  | ChrMotionDetected => from_full_unchecked "00000022-0000-1000-8000-0026bb765291"
  | ChrName => from_full_unchecked "00000023-0000-1000-8000-0026bb765291"
  | ChrObstructionDetected => from_full_unchecked "00000024-0000-1000-8000-0026bb765291"
  | ChrOn => from_full_unchecked "00000025-0000-1000-8000-0026bb765291"
  | ChrOutletInUse => from_full_unchecked "00000026-0000-1000-8000-0026bb765291"
  | ChrRotationDirection => from_full_unchecked "00000028-0000-1000-8000-0026bb765291"
  | ChrRotationSpeed => from_full_unchecked "00000029-0000-1000-8000-0026bb765291"
  | ChrSaturation => from_full_unchecked "0000002f-0000-1000-8000-0026bb765291"
  | ChrSerialNumber => from_full_unchecked "00000030-0000-1000-8000-0026bb765291"
  | ChrTargetDoorState => from_full_unchecked "00000032-0000-1000-8000-0026bb765291"
  | ChrTargetHeatingCoolingState => from_full_unchecked "00000033-0000-1000-8000-0026bb765291"
  | ChrTargetRelativeHumidity => from_full_unchecked "00000034-0000-1000-8000-0026bb765291"
  | ChrTargetTemperature => from_full_unchecked "00000035-0000-1000-8000-0026bb765291"
  | ChrTemperatureDisplayUnits => from_full_unchecked "00000036-0000-1000-8000-0026bb765291"
  | ChrVersion => from_full_unchecked "00000037-0000-1000-8000-0026bb765291"
  | ChrPairSetup => from_full_unchecked "0000004c-0000-1000-8000-0026bb765291"
  | ChrPairVerify => from_full_unchecked "0000004e-0000-1000-8000-0026bb765291"
  | ChrPairingFeatures => from_full_unchecked "0000004f-0000-1000-8000-0026bb765291"
  | ChrPairingPairings => from_full_unchecked "00000050-0000-1000-8000-0026bb765291"
  | ChrFirmwareRevision => from_full_unchecked "00000052-0000-1000-8000-0026bb765291"
  | ChrHardwareRevision => from_full_unchecked "00000053-0000-1000-8000-0026bb765291"
  | ChrAirParticulateDensity => from_full_unchecked "00000064-0000-1000-8000-0026bb765291"
  | ChrAirParticulateSize => from_full_unchecked "00000065-0000-1000-8000-0026bb765291"
  | ChrSecuritySystemCurrentState => from_full_unchecked "00000066-0000-1000-8000-0026bb765291"
  | ChrSecuritySystemTargetState => from_full_unchecked "00000067-0000-1000-8000-0026bb765291"
  | ChrBatteryLevel => from_full_unchecked "00000068-0000-1000-8000-0026bb765291"
  | ChrCarbonMonoxideDetected => from_full_unchecked "00000069-0000-1000-8000-0026bb765291"
  | ChrContactSensorState => from_full_unchecked "0000006a-0000-1000-8000-0026bb765291"
  | ChrCurrentAmbientLightLevel => from_full_unchecked "0000006b-0000-1000-8000-0026bb765291"
  | ChrCurrentHorizontalTiltAngle => from_full_unchecked "0000006c-0000-1000-8000-0026bb765291"
  | ChrCurrentPosition => from_full_unchecked "0000006d-0000-1000-8000-0026bb765291"
  | ChrCurrentVerticalTiltAngle => from_full_unchecked "0000006e-0000-1000-8000-0026bb765291"
  | ChrHoldPosition => from_full_unchecked "0000006f-0000-1000-8000-0026bb765291"
  | ChrLeakDetected => from_full_unchecked "00000070-0000-1000-8000-0026bb765291"
  | ChrOccupancyDetected => from_full_unchecked "00000071-0000-1000-8000-0026bb765291"
  | ChrPositionState => from_full_unchecked "00000072-0000-1000-8000-0026bb765291"
  | ChrProgrammableSwitchEvent => from_full_unchecked "00000073-0000-1000-8000-0026bb765291"
  | ChrStatusActive => from_full_unchecked "00000075-0000-1000-8000-0026bb765291"
  | ChrSmokeDetected => from_full_unchecked "00000076-0000-1000-8000-0026bb765291"
  | ChrStatusFault => from_full_unchecked "00000077-0000-1000-8000-0026bb765291"
  | ChrStatusJammed => from_full_unchecked "00000078-0000-1000-8000-0026bb765291"
  | ChrStatusLowBattery => from_full_unchecked "00000079-0000-1000-8000-0026bb765291"
  | ChrStatusTampered => from_full_unchecked "0000007a-0000-1000-8000-0026bb765291"
  | ChrTargetHorizontalTiltAngle => from_full_unchecked "0000007b-0000-1000-8000-0026bb765291"
  | ChrTargetPosition => from_full_unchecked "0000007c-0000-1000-8000-0026bb765291"
  | ChrTargetVerticalTiltAngle => from_full_unchecked "0000007d-0000-1000-8000-0026bb765291"
  | ChrSecuritySystemAlarmType => from_full_unchecked "0000008e-0000-1000-8000-0026bb765291"
  | ChrChargingState => from_full_unchecked "0000008f-0000-1000-8000-0026bb765291"
  | ChrCarbonMonoxideLevel => from_full_unchecked "00000090-0000-1000-8000-0026bb765291"
  | ChrCarbonMonoxidePeakLevel => from_full_unchecked "00000091-0000-1000-8000-0026bb765291"
  | ChrCarbonDioxideDetected => from_full_unchecked "00000092-0000-1000-8000-0026bb765291"
  | ChrCarbonDioxideLevel => from_full_unchecked "00000093-0000-1000-8000-0026bb765291"
  | ChrCarbonDioxidePeakLevel => from_full_unchecked "00000094-0000-1000-8000-0026bb765291"
  | ChrAirQuality => from_full_unchecked "00000095-0000-1000-8000-0026bb765291"
  | ChrAccessoryFlags => from_full_unchecked "000000a6-0000-1000-8000-0026bb765291"
  | ChrLockPhysicalControls => from_full_unchecked "000000a7-0000-1000-8000-0026bb765291"
  | ChrTargetAirPurifierState => from_full_unchecked "000000a8-0000-1000-8000-0026bb765291"
  | ChrCurrentAirPurifierState => from_full_unchecked "000000a9-0000-1000-8000-0026bb765291"
  | ChrCurrentSlatState => from_full_unchecked "000000aa-0000-1000-8000-0026bb765291"
  | ChrFilterLifeLevel => from_full_unchecked "000000ab-0000-1000-8000-0026bb765291"
  | ChrFilterChangeIndication => from_full_unchecked "000000ac-0000-1000-8000-0026bb765291"
  | ChrResetFilterIndication => from_full_unchecked "000000ad-0000-1000-8000-0026bb765291"
  | ChrTargetAirQuality => from_full_unchecked "000000ae-0000-1000-8000-0026bb765291"
  | ChrCurrentFanState => from_full_unchecked "000000af-0000-1000-8000-0026bb765291"
  | ChrActive => from_full_unchecked "000000b0-0000-1000-8000-0026bb765291"
  | ChrCurrentHeaterCoolerState => from_full_unchecked "000000b1-0000-1000-8000-0026bb765291"
  | ChrTargetHeaterCoolerState => from_full_unchecked "000000b2-0000-1000-8000-0026bb765291"
  | ChrCurrentHumidifierDehumidifierState => from_full_unchecked "000000b3-0000-1000-8000-0026bb765291"
  | ChrTargetHumidifierDehumidifierState => from_full_unchecked "000000b4-0000-1000-8000-0026bb765291"
  | ChrWaterLevel => from_full_unchecked "000000b5-0000-1000-8000-0026bb765291"
  | ChrSwingMode => from_full_unchecked "000000b6-0000-1000-8000-0026bb765291"
  | ChrTargetSlatState => from_full_unchecked "000000be-0000-1000-8000-0026bb765291"
  | ChrTargetFanState => from_full_unchecked "000000bf-0000-1000-8000-0026bb765291"
  | ChrSlatType => from_full_unchecked "000000c0-0000-1000-8000-0026bb765291"
  | ChrCurrentTiltAngle => from_full_unchecked "000000c1-0000-1000-8000-0026bb765291"
  | ChrTargetTiltAngle => from_full_unchecked "000000c2-0000-1000-8000-0026bb765291"
  | ChrOzoneDensity => from_full_unchecked "000000c3-0000-1000-8000-0026bb765291"
  | ChrNitrogenDioxideDensity => from_full_unchecked "000000c4-0000-1000-8000-0026bb765291"
  | ChrSulphurDioxideDensity => from_full_unchecked "000000c5-0000-1000-8000-0026bb765291"
  | ChrPm25Density => from_full_unchecked "000000c6-0000-1000-8000-0026bb765291"
  | ChrPm10Density => from_full_unchecked "000000c7-0000-1000-8000-0026bb765291"
  | ChrVocDensity => from_full_unchecked "000000c8-0000-1000-8000-0026bb765291"
  | ChrRelativeHumidityDehumidifierThreshold => from_full_unchecked "000000c9-0000-1000-8000-0026bb765291"
  | ChrRelativeHumidityHumidifierThreshold => from_full_unchecked "000000ca-0000-1000-8000-0026bb765291"
  | ChrServiceLabelIndex => from_full_unchecked "000000cb-0000-1000-8000-0026bb765291"
  | ChrServiceLabelNamespace => from_full_unchecked "000000cd-0000-1000-8000-0026bb765291"
  | ChrColorTemperature => from_full_unchecked "000000ce-0000-1000-8000-0026bb765291"
  | ChrProgramMode => from_full_unchecked "000000d1-0000-1000-8000-0026bb765291"
  | ChrInUse => from_full_unchecked "000000d2-0000-1000-8000-0026bb765291"
  | ChrSetDuration => from_full_unchecked "000000d3-0000-1000-8000-0026bb765291"
  | ChrRemainingDuration => from_full_unchecked "000000d4-0000-1000-8000-0026bb765291"
  | ChrValveType => from_full_unchecked "000000d5-0000-1000-8000-0026bb765291"
  | ChrIsConfigured => from_full_unchecked "000000d6-0000-1000-8000-0026bb765291"
  | ChrSupportedVideoStreamConfiguration => from_full_unchecked "00000114-0000-1000-8000-0026bb765291"
  | ChrSupportedAudioStreamConfiguration => from_full_unchecked "00000115-0000-1000-8000-0026bb765291"
  | ChrSupportedRtpConfiguration => from_full_unchecked "00000116-0000-1000-8000-0026bb765291"
  | ChrSelectedRtpStreamConfiguration => from_full_unchecked "00000117-0000-1000-8000-0026bb765291"
  | ChrSetupEndpoints => from_full_unchecked "00000118-0000-1000-8000-0026bb765291"
  | ChrVolume => from_full_unchecked "00000119-0000-1000-8000-0026bb765291"
  | ChrMute => from_full_unchecked "0000011a-0000-1000-8000-0026bb765291"
  | ChrNightVision => from_full_unchecked "0000011b-0000-1000-8000-0026bb765291"
  | ChrOpticalZoom => from_full_unchecked "0000011c-0000-1000-8000-0026bb765291"
  | ChrDigitalZoom => from_full_unchecked "0000011d-0000-1000-8000-0026bb765291"
  | ChrImageRotation => from_full_unchecked "0000011e-0000-1000-8000-0026bb765291"
  | ChrImageMirroring => from_full_unchecked "0000011f-0000-1000-8000-0026bb765291"
  | ChrStreamingStatus => from_full_unchecked "00000120-0000-1000-8000-0026bb765291"
  | ChrThreadNodeCapabilities => from_full_unchecked "00000702-0000-1000-8000-0026bb765291"
  | ChrThreadStatus => from_full_unchecked "00000703-0000-1000-8000-0026bb765291"
  | ChrUnknown u => u
  end.

(** A named type is known by its UUID. *)
Definition characteristic_type_code (self : HapCharacteristicType) : Uuid + Uuid :=
  match self with ChrUnknown u => inr u | t => inl (characteristic_type_uuid t) end.
Definition characteristic_type_decode (c : Uuid + Uuid) : HapCharacteristicType :=
  match c with inr u => ChrUnknown u | inl u => characteristic_type_from_uuid u end.

Lemma characteristic_type_decode_code t : characteristic_type_decode (characteristic_type_code t) = t.
Proof. destruct t; by vm_compute. Qed.

Lemma characteristic_type_code_inj : Inj (=) (=) characteristic_type_code.
Proof. intros a b He. rewrite <- (characteristic_type_decode_code a), <- (characteristic_type_decode_code b). by rewrite He. Qed.

#[export] Instance characteristic_type_eq_dec : EqDecision HapCharacteristicType :=
  inj_eq_dec (Inj0 := characteristic_type_code_inj) characteristic_type_code.

Definition characteristic_default_format (self : HapCharacteristicType) : option CharFormat :=
  match self with
  | ChrAdministratorOnlyAccess => Some FBool
  | ChrAudioFeedback => Some FBool
  | ChrBrightness => Some FInt
  | ChrCoolingThresholdTemperature => Some FFloat
  | ChrCurrentDoorState => Some FUint8
  | ChrCurrentHeatingCoolingState => Some FUint8
  | ChrCurrentRelativeHumidity => Some FFloat
  | ChrCurrentTemperature => Some FFloat
  | ChrHeatingThresholdTemperature => Some FFloat
  | ChrHue => Some FFloat
  | ChrIdentify => Some FBool
  | ChrLockControlPoint => Some FTlv8
  | ChrLockManagementAutoSecurityTimeout => Some FUint32
  | ChrLockLastKnownAction => Some FUint8
  | ChrLockCurrentState => Some FUint8
  | ChrLockTargetState => Some FUint8
  | ChrLogs => Some FTlv8
  | ChrManufacturer => Some FString
  | ChrModel => Some FString
  | ChrMotionDetected => Some FBool
  | ChrName => Some FString
  | ChrObstructionDetected => Some FBool
  | ChrOn => Some FBool
  | ChrOutletInUse => Some FBool
  | ChrRotationDirection => Some FInt
  | ChrRotationSpeed => Some FFloat
  | ChrSaturation => Some FFloat
  | ChrSerialNumber => Some FString
  | ChrTargetDoorState => Some FUint8
  | ChrTargetHeatingCoolingState => Some FUint8
  | ChrTargetRelativeHumidity => Some FFloat
  | ChrTargetTemperature => Some FFloat
  | ChrTemperatureDisplayUnits => Some FUint8
  | ChrVersion => Some FString
  | ChrPairSetup => Some FTlv8
  | ChrPairVerify => Some FTlv8
  | ChrPairingFeatures => Some FUint8
  | ChrPairingPairings => Some FTlv8
  | ChrFirmwareRevision => Some FString
  | ChrHardwareRevision => Some FString
  | ChrAirParticulateDensity => Some FFloat
  | ChrAirParticulateSize => Some FUint8
  | ChrSecuritySystemCurrentState => Some FUint8
  | ChrSecuritySystemTargetState => Some FUint8
  | ChrBatteryLevel => Some FUint8
  | ChrCarbonMonoxideDetected => Some FUint8
  | ChrContactSensorState => Some FUint8
  | ChrCurrentAmbientLightLevel => Some FFloat
  | ChrCurrentHorizontalTiltAngle => Some FInt
  | ChrCurrentPosition => Some FUint8
  | ChrCurrentVerticalTiltAngle => Some FInt
  | ChrHoldPosition => Some FBool
  | ChrLeakDetected => Some FUint8
  | ChrOccupancyDetected => Some FUint8
  | ChrPositionState => Some FUint8
  | ChrProgrammableSwitchEvent => Some FUint8
  | ChrStatusActive => Some FBool
  | ChrSmokeDetected => Some FUint8
  | ChrStatusFault => Some FUint8
  | ChrStatusJammed => Some FUint8
  | ChrStatusLowBattery => Some FUint8
  | ChrStatusTampered => Some FUint8
  | ChrTargetHorizontalTiltAngle => Some FInt
  | ChrTargetPosition => Some FUint8
  | ChrTargetVerticalTiltAngle => Some FInt
  | ChrSecuritySystemAlarmType => Some FUint8
  | ChrChargingState => Some FUint8
  | ChrCarbonMonoxideLevel => Some FFloat
  | ChrCarbonMonoxidePeakLevel => Some FFloat
  | ChrCarbonDioxideDetected => Some FUint8
  | ChrCarbonDioxideLevel => Some FFloat
  | ChrCarbonDioxidePeakLevel => Some FFloat
  | ChrAirQuality => Some FUint8
  | ChrAccessoryFlags => Some FUint32
  | ChrLockPhysicalControls => Some FUint8
  | ChrTargetAirPurifierState => Some FUint8
  | ChrCurrentAirPurifierState => Some FUint8
  | ChrCurrentSlatState => Some FUint8
  | ChrFilterLifeLevel => Some FFloat
  | ChrFilterChangeIndication => Some FUint8
  | ChrResetFilterIndication => Some FUint8
  | ChrTargetAirQuality => Some FUint8
  | ChrCurrentFanState => Some FUint8
  | ChrActive => Some FUint8
  | ChrCurrentHeaterCoolerState => Some FUint8
  | ChrTargetHeaterCoolerState => Some FUint8
  | ChrCurrentHumidifierDehumidifierState => Some FUint8
  | ChrTargetHumidifierDehumidifierState => Some FUint8
  | ChrWaterLevel => Some FFloat
  | ChrSwingMode => Some FUint8
  | ChrTargetSlatState => Some FUint8
  | ChrTargetFanState => Some FUint8
  | ChrSlatType => Some FUint8
  | ChrCurrentTiltAngle => Some FInt
  | ChrTargetTiltAngle => Some FInt
  | ChrOzoneDensity => Some FFloat
  | ChrNitrogenDioxideDensity => Some FFloat
  | ChrSulphurDioxideDensity => Some FFloat
  | ChrPm25Density => Some FFloat
  | ChrPm10Density => Some FFloat
  | ChrVocDensity => Some FFloat
  | ChrRelativeHumidityDehumidifierThreshold => Some FFloat
  | ChrRelativeHumidityHumidifierThreshold => Some FFloat
  | ChrServiceLabelIndex => Some FUint8
  | ChrServiceLabelNamespace => Some FUint8
  | ChrColorTemperature => Some FUint32
  | ChrProgramMode => Some FUint8
  | ChrInUse => Some FUint8
  | ChrSetDuration => Some FUint32
  | ChrRemainingDuration => Some FUint32
  | ChrValveType => Some FUint8
  | ChrIsConfigured => Some FUint8
  | ChrSupportedVideoStreamConfiguration => Some FTlv8
  | ChrSupportedAudioStreamConfiguration => Some FTlv8
  | ChrSupportedRtpConfiguration => Some FTlv8
  | ChrSelectedRtpStreamConfiguration => Some FTlv8
  | ChrSetupEndpoints => Some FTlv8
  | ChrVolume => Some FUint8
  | ChrMute => Some FBool
  | ChrNightVision => Some FBool
  | ChrOpticalZoom => Some FFloat
  | ChrDigitalZoom => Some FFloat
  | ChrImageRotation => Some FFloat
  | ChrImageMirroring => Some FBool
  | ChrStreamingStatus => Some FTlv8
  | ChrThreadNodeCapabilities => Some FUint16
  | ChrThreadStatus => Some FUint16
  | _ => None
  end.

Definition characteristic_unit (self : HapCharacteristicType) : option HapUnit :=
  match self with
  | ChrBrightness => Some Percentage
  | ChrCoolingThresholdTemperature => Some Celsius
  | ChrCurrentRelativeHumidity => Some Percentage
  | ChrCurrentTemperature => Some Celsius
  | ChrHeatingThresholdTemperature => Some Celsius
  | ChrHue => Some ArcDegrees
  | ChrLockManagementAutoSecurityTimeout => Some Seconds
  | ChrRotationSpeed => Some Percentage
  | ChrSaturation => Some Percentage
  | ChrTargetRelativeHumidity => Some Percentage
  | ChrTargetTemperature => Some Celsius
  | ChrBatteryLevel => Some Percentage
  | ChrCurrentAmbientLightLevel => Some Lux
  | ChrCurrentHorizontalTiltAngle => Some ArcDegrees
  | ChrCurrentPosition => Some Percentage
  | ChrCurrentVerticalTiltAngle => Some ArcDegrees
  | ChrTargetHorizontalTiltAngle => Some ArcDegrees
  | ChrTargetPosition => Some Percentage
  | ChrTargetVerticalTiltAngle => Some ArcDegrees
  | ChrWaterLevel => Some Percentage
  | ChrCurrentTiltAngle => Some ArcDegrees
  | ChrTargetTiltAngle => Some ArcDegrees
  | ChrRelativeHumidityDehumidifierThreshold => Some Percentage
  | ChrRelativeHumidityHumidifierThreshold => Some Percentage
  | ChrVolume => Some Percentage
  | ChrImageRotation => Some ArcDegrees
  | _ => None
  end.

Definition characteristic_valid_values (self : HapCharacteristicType) : option (list (Z * string)) :=
  match self with
  | ChrCurrentDoorState =>
      Some [
        (0, "Open"); (1, "Closed"); (2, "Opening"); (3, "Closing"); (4, "Stopped") ]
  | ChrCurrentHeatingCoolingState =>
      Some [
        (0, "Off"); (1, "Heat"); (2, "Cool") ]
  | ChrLockLastKnownAction =>
      Some [
        (0, "LastDeadbolted"); (1, "LastUnlocked"); (2, "LastLockedRemotely");
        (3, "LastUnlockedRemotely"); (4, "LastLockedManual"); (5, "LastUnlockedManual");
        (6, "AutoLock"); (7, "AutoUnlock"); (8, "Locked"); (9, "Unlocked") ]
  | ChrLockCurrentState =>
      Some [
        (0, "Unsecured"); (1, "Secured"); (2, "Jammed"); (3, "Unknown") ]
  | ChrLockTargetState =>
      Some [
        (0, "Unsecured"); (1, "Secured") ]
  | ChrRotationDirection =>
      Some [
        (0, "Clockwise"); (1, "CounterClockwise") ]
  | ChrTargetDoorState =>
      Some [
        (0, "Open"); (1, "Closed") ]
  | ChrTargetHeatingCoolingState =>
      Some [
        (0, "Off"); (1, "Heat"); (2, "Cool"); (3, "Auto") ]
  | ChrTemperatureDisplayUnits =>
      Some [
        (0, "Celsius"); (1, "Fahrenheit") ]
  | ChrSecuritySystemCurrentState =>
      Some [
        (0, "StayArm"); (1, "AwayArm"); (2, "NightArm"); (3, "Disarmed"); (4, "AlarmTriggered") ]
  | ChrSecuritySystemTargetState =>
      Some [
        (0, "StayArm"); (1, "AwayArm"); (2, "NightArm"); (3, "Disarmed") ]
  | ChrCarbonMonoxideDetected =>
      Some [
        (0, "NotDetected"); (1, "Detected") ]
  | ChrContactSensorState =>
      Some [
        (0, "ContactDetected"); (1, "ContactNotDetected") ]
  | ChrLeakDetected =>
      Some [
        (0, "LeakNotDetected"); (1, "LeakDetected") ]
  | ChrOccupancyDetected =>
      Some [
        (0, "OccupancyNotDetected"); (1, "OccupancyDetected") ]
  | ChrPositionState =>
      Some [
        (0, "Decreasing"); (1, "Increasing"); (2, "Stopped") ]
  | ChrProgrammableSwitchEvent =>
      Some [
        (0, "SinglePress"); (1, "DoublePress"); (2, "LongPress") ]
  | ChrSmokeDetected =>
      Some [
        (0, "SmokeNotDetected"); (1, "SmokeDetected") ]
  | ChrStatusFault =>
      Some [
        (0, "NoFault"); (1, "GeneralFault") ]
  | ChrStatusJammed =>
      Some [
        (0, "NotJammed"); (1, "Jammed") ]
  | ChrStatusLowBattery =>
      Some [
        (0, "Normal"); (1, "Low") ]
  | ChrStatusTampered =>
      Some [
        (0, "NotTampered"); (1, "Tampered") ]
  | ChrChargingState =>
      Some [
        (0, "NotCharging"); (1, "Charging"); (2, "NotChargeable") ]
  | ChrCarbonDioxideDetected =>
      Some [
        (0, "CarbonDioxideNotDetected"); (1, "CarbonDioxideDetected") ]
  | ChrAirQuality =>
      Some [
        (0, "Unknown"); (1, "Excellent"); (2, "Good"); (3, "Fair"); (4, "Inferior"); (5, "Poor") ]
  | ChrLockPhysicalControls =>
      Some [
        (0, "ControlLockDisabled"); (1, "ControlLockEnabled") ]
  | ChrTargetAirPurifierState =>
      Some [
        (0, "Manual"); (1, "Automatic") ]
  | ChrCurrentAirPurifierState =>
      Some [
        (0, "Inactive"); (1, "Idle"); (2, "PurgingAir") ]
  | ChrCurrentSlatState =>
      Some [
        (0, "Fixed"); (1, "Jammed"); (2, "Swinging") ]
  | ChrFilterChangeIndication =>
      Some [
        (0, "FilterOk"); (1, "ChangeFilter") ]
  | ChrTargetAirQuality =>
      Some [
        (0, "Excellent"); (1, "Good"); (2, "Fair") ]
  | ChrCurrentFanState =>
      Some [
        (0, "Inactive"); (1, "Idle"); (2, "BlowingAir") ]
  | ChrActive =>
      Some [
        (0, "Inactive"); (1, "Active") ]
  | ChrCurrentHeaterCoolerState =>
      Some [
        (0, "Inactive"); (1, "Idle"); (2, "Heating"); (3, "Cooling") ]
  | ChrTargetHeaterCoolerState =>
      Some [
        (0, "Automatic"); (1, "Heat"); (2, "Cool") ]
  | ChrCurrentHumidifierDehumidifierState =>
      Some [
        (0, "Inactive"); (1, "Idle"); (2, "Humidifying"); (3, "Dehumidifying") ]
  | ChrTargetHumidifierDehumidifierState =>
      Some [
        (0, "Humidifier"); (1, "Dehumidifier"); (2, "HumidifierOrDehumidifier") ]
  | ChrSwingMode =>
      Some [
        (0, "Disabled"); (1, "Enabled") ]
  | ChrTargetSlatState =>
      Some [
        (0, "Manual"); (1, "Auto") ]
  | ChrTargetFanState =>
      Some [
        (0, "Manual"); (1, "Auto") ]
  | ChrSlatType =>
      Some [
        (0, "Horizontal"); (1, "Vertical") ]
  | ChrServiceLabelNamespace =>
      Some [
        (0, "Dots"); (1, "ArabicNumerals") ]
  | ChrProgramMode =>
      Some [
        (0, "NoProgramScheduled"); (1, "ProgramScheduled"); (2, "ProgramScheduledManualMode") ]
  | ChrInUse =>
      Some [
        (0, "NotInUse"); (1, "InUse") ]
  | ChrValveType =>
      Some [
        (0, "GenericValve"); (1, "Irrigation"); (2, "ShowerHead"); (3, "WaterFaucet") ]
  | ChrIsConfigured =>
      Some [
        (0, "NotConfigured"); (1, "Configured") ]
  | _ => None
  end%Z.

(** The tables as the type parameter of the model. *)
#[export] Instance hap_types : Generated := {|
  ServiceType := HapServiceType;
  CharacteristicType := HapCharacteristicType;
  service_from_uuid := service_type_from_uuid;
  characteristic_from_uuid := characteristic_type_from_uuid;
  default_format := characteristic_default_format
|}.

(** * Lemmas *)

Lemma match_str_spec {A} (P : A -> Prop) s arms (default : A) :
  (forall lit a, (lit, a) ∈ arms -> s = chars lit -> P a) -> P default -> P (match_str s arms default).
Proof.
  intros Ha Hd. induction arms as [|[lit a] arms IH]; [done|]. cbn [match_str].
  case_bool_decide as Hs; [by apply (Ha lit); [left|]|]. apply IH. intros l b Hin. apply Ha. by right.
Qed.

(** Every arm names a type of that UUID. *)
Lemma service_type_arms_uuid lit t : (lit, t) ∈ service_type_arms -> service_type_uuid t = from_full_unchecked lit.
Proof.
  assert (Forall (fun a => service_type_uuid a.2 = from_full_unchecked a.1) service_type_arms) as H
    by (apply (bool_decide_unpack _); by vm_compute).
  intros Hin. by apply (proj1 (Forall_forall _ _) H (lit, t)).
Qed.

Lemma characteristic_type_arms_uuid lit t :
  (lit, t) ∈ characteristic_type_arms -> characteristic_type_uuid t = from_full_unchecked lit.
Proof.
  assert (Forall (fun a => characteristic_type_uuid a.2 = from_full_unchecked a.1) characteristic_type_arms) as H
    by (apply (bool_decide_unpack _); by vm_compute).
  intros Hin. by apply (proj1 (Forall_forall _ _) H (lit, t)).
Qed.

Lemma service_type_uuid_from u : service_type_uuid (service_type_from_uuid u) = u.
Proof.
  unfold service_type_from_uuid. apply (match_str_spec (fun t => service_type_uuid t = u)); [|done].
  intros lit t Hin Hs. rewrite (service_type_arms_uuid _ _ Hin). unfold from_full_unchecked.
  destruct u as [f]. by rewrite <- Hs.
Qed.

Lemma characteristic_type_uuid_from u : characteristic_type_uuid (characteristic_type_from_uuid u) = u.
Proof.
  unfold characteristic_type_from_uuid. apply (match_str_spec (fun t => characteristic_type_uuid t = u)); [|done].
  intros lit t Hin Hs. rewrite (characteristic_type_arms_uuid _ _ Hin). unfold from_full_unchecked.
  destruct u as [f]. by rewrite <- Hs.
Qed.

(** Named types: every type but the unknown ones. *)
Definition service_named (t : HapServiceType) : Prop := match t with SvcUnknown _ => False | _ => True end.
Definition characteristic_named (t : HapCharacteristicType) : Prop := match t with ChrUnknown _ => False | _ => True end.

(** The values a format can carry. *)
Definition format_carries (f : CharFormat) (n : Z) : Prop :=
  match uint_max f with Some max => (0 <= n <= max)%Z | None => f = FInt /\ (- 2 ^ 31 <= n < 2 ^ 31)%Z end.

(** The named values of a characteristic: in increasing order, each fit for its format. *)
Definition values_ok (t : HapCharacteristicType) : Prop :=
  match characteristic_valid_values t with
  | Some vs => Sorted Z.lt vs.*1 /\ from_option (fun f => Forall (format_carries f) vs.*1) False (characteristic_default_format t)
  | None => True
  end.

#[local] Instance format_carries_dec f n : Decision (format_carries f n).
Proof. unfold format_carries. destruct (uint_max f); apply _. Defined.

#[local] Instance Sorted_lt_dec l : Decision (Sorted Z.lt l).
Proof.
  induction l as [|x l IH]; [left; constructor|].
  destruct IH as [IH|IH]; [|right; intros Hs; apply IH; by inversion Hs].
  destruct l as [|y l]; [left; by repeat constructor|].
  destruct (decide (x < y)%Z) as [Hx|Hx]; [left; constructor; [done|by constructor]|].
  right. intros Hs. inversion Hs as [|? ? ? Hh]; subst. apply Hx. by inversion Hh.
Defined.

#[local] Instance values_ok_dec t : Decision (values_ok t).
Proof.
  unfold values_ok. destruct (characteristic_valid_values t) as [vs|]; [|apply _].
  destruct (characteristic_default_format t); cbn; apply _.
Defined.

Lemma all_values_ok t : values_ok t.
Proof. destruct t; (apply (bool_decide_unpack _); by vm_compute). Qed.

Lemma service_type_from_uuid_named t : service_named t ->
  service_type_from_uuid (service_type_uuid t) = t /\
  uuid_parse (uuid_serialize (service_type_uuid t)) = Ok (service_type_uuid t).
Proof. destruct t; intros Ht; try done; split; by vm_compute. Qed.

Lemma characteristic_type_from_uuid_named t : characteristic_named t ->
  characteristic_type_from_uuid (characteristic_type_uuid t) = t /\
  uuid_parse (uuid_serialize (characteristic_type_uuid t)) = Ok (characteristic_type_uuid t).
Proof. destruct t; intros Ht; try done; split; by vm_compute. Qed.

(** * Theorems *)

(** The type tables are consistent.  Reading a UUID as a type loses nothing; every
    named type is read back from its own UUID, and from the short form it is written
    in; and the named values of a characteristic are listed in increasing order, each
    one a value of the characteristic's default format. *)
Theorem hap_types_consistent :
  (forall u, service_type_uuid (service_from_uuid u) = u) /\
  (forall u, characteristic_type_uuid (characteristic_from_uuid u) = u) /\
  (forall t, service_named t -> service_from_uuid (service_type_uuid t) = t /\
     uuid_parse (uuid_serialize (service_type_uuid t)) = Ok (service_type_uuid t)) /\
  (forall t, characteristic_named t -> characteristic_from_uuid (characteristic_type_uuid t) = t /\
     uuid_parse (uuid_serialize (characteristic_type_uuid t)) = Ok (characteristic_type_uuid t)) /\
  (forall t, values_ok t).
Proof.
  split; [exact service_type_uuid_from|]. split; [exact characteristic_type_uuid_from|].
  split; [exact service_type_from_uuid_named|]. split; [exact characteristic_type_from_uuid_named|].
  exact all_values_ok.
Qed.
