(* ===== verification/Tlv8.v ===== *)
(** * [hap-tlv8]: the TLV8 codec

    Models [crates/hap-tlv8/src/{writer,reader,map,error}.rs]: the fragmenting
    writer ([push] and the typed helpers), the reassembling reader ([parse], the
    same position-based loop as the source) and the typed getters of [Tlv8Map].
    The theorems give the reader a declarative meaning ([decode_spec]: cut the
    stream into raw items, then merge the runs of 255-byte fragments), show that
    it never panics, and that it inverts the writer on every list of items. *)

From S2P Require Import Prelude.

(** ** Errors and constants *)

Definition SEPARATOR : byte := xff.

Inductive Tlv8Error :=
| UnexpectedEof
| IntegerTooLarge (requested actual : nat).

Abbreviation item := (byte * bytes)%type.

(** ** Writer: appends to a caller-provided buffer *)

Definition push (out : bytes) (ty : byte) (value : bytes) : bytes :=
  if bool_decide (value = []) then out ++ [ty] ++ [x00]
  else
    let '(out, last_chunk_len) :=
      foldl (fun '(out, _) chunk =>
               (out ++ [ty] ++ [Zbyte (Z.of_nat (length chunk))] ++ chunk, length chunk))
            (out, 0) (chunks 255 value) in
    if last_chunk_len =? 255 then out ++ [ty] ++ [x00] else out.

Definition push_u8 (out : bytes) (ty : byte) (v : Z) : bytes := push out ty (le_bytes 1 v).
Definition push_u16 (out : bytes) (ty : byte) (v : Z) : bytes := push out ty (le_bytes 2 v).
Definition push_u32 (out : bytes) (ty : byte) (v : Z) : bytes := push out ty (le_bytes 4 v).
Definition push_u64 (out : bytes) (ty : byte) (v : Z) : bytes := push out ty (le_bytes 8 v).
Definition push_str (out : bytes) (ty : byte) (v : bytes) : bytes := push out ty v.
Definition push_separator (out : bytes) : bytes := out ++ [SEPARATOR] ++ [x00].

(** A sequence of writer calls, one per item. *)
Definition push_items (out : bytes) (items : list item) : bytes :=
  foldl (fun out '(ty, v) => push out ty v) out items.

(** ** Reader *)

(** [items.last_mut()] followed by [extend_from_slice]. *)
Fixpoint extend_last (items : list item) (v : bytes) : list item :=
  match items with
  | [] => []
  | [(t, x)] => [(t, x ++ v)]
  | i :: items' => i :: extend_last items' v
  end.

(** Loop state: the items so far, the open run, the position. *)
Definition parse_state : Type := list item * option (byte * bool) * nat.

Definition parse_body (input : bytes) (st : parse_state)
    : result Tlv8Error (flow parse_state (list item)) :=
  let '(items, open_run, pos) := st in
  if negb (pos <? length input) then Ok (Break items)
  else
    ty ← index input pos;
    len ← ok_or (input !! (pos + 1)) UnexpectedEof;
    let len := Z.to_nat (byteZ len) in
    let start := pos + 2 in
    stop ← ok_or (checked_add start len) UnexpectedEof;
    value ← ok_or (get_range input start stop) UnexpectedEof;
    if bool_decide (ty = SEPARATOR) then
      Ok (Continue (items ++ [(ty, value)], None, stop))
    else
      let continues :=
        match open_run with
        | Some (run_ty, true) => bool_decide (run_ty = ty)
        | _ => false
        end in
      let items :=
        if continues then extend_last items value else items ++ [(ty, value)] in
      Ok (Continue (items, Some (ty, len =? 255), stop)).

Definition parse (input : bytes) : result Tlv8Error (list item) :=
  loop (S (length input)) (parse_body input) ([], None, 0).

(** ** Map: first-match lookup and typed getters *)

Record Tlv8Map := { map_items : list item }.

Definition from_items (items : list item) : Tlv8Map := {| map_items := items |}.
Definition into_items (m : Tlv8Map) : list item := map_items m.

Definition map_parse (input : bytes) : result Tlv8Error Tlv8Map :=
  items ← parse input; Ok (from_items items).

Definition get (m : Tlv8Map) (ty : byte) : option bytes :=
  snd <$> List.find (fun '(t, _) => bool_decide (t = ty)) (map_items m).

Definition get_uint (m : Tlv8Map) (ty : byte) (width : nat) : result Tlv8Error (option Z) :=
  match get m ty with
  | None => Ok None
  | Some bs =>
      if width <? length bs then Err (IntegerTooLarge width (length bs))
      else if length bs <=? 8 then
        Ok (Some (le_Z (bs ++ replicate (8 - length bs) x00)))
      else Fault Panicked
  end.

Definition get_u8 (m : Tlv8Map) (ty : byte) : result Tlv8Error (option Z) :=
  v ← get_uint m ty 1; Ok (option_map (fun v => v mod 2 ^ 8)%Z v).
Definition get_u16 (m : Tlv8Map) (ty : byte) : result Tlv8Error (option Z) :=
  v ← get_uint m ty 2; Ok (option_map (fun v => v mod 2 ^ 16)%Z v).
Definition get_u32 (m : Tlv8Map) (ty : byte) : result Tlv8Error (option Z) :=
  v ← get_uint m ty 4; Ok (option_map (fun v => v mod 2 ^ 32)%Z v).
Definition get_u64 (m : Tlv8Map) (ty : byte) : result Tlv8Error (option Z) :=
  get_uint m ty 8.

(** ** Specification of the format

    A stream is a concatenation of raw items [ty, len, value]; a logical item is
    a maximal run of same-type raw items each of which, but the last, is full. *)

Definition raw_bytes (i : item) : bytes :=
  [i.1] ++ [Zbyte (Z.of_nat (length i.2))] ++ i.2.

Definition flatten (raw : list item) : bytes := mjoin (raw_bytes <$> raw).

Definition raw_ok (i : item) : Prop := length i.2 <= 255.

(** Cut the stream into raw items, [None] if the last one is truncated. *)
Fixpoint raw_items_fuel (fuel : nat) (input : bytes) : option (list item) :=
  match fuel, input with
  | _, [] => Some []
  | S fuel', ty :: len :: rest =>
      let n := Z.to_nat (byteZ len) in
      if n <=? length rest
      then cons (ty, take n rest) <$> raw_items_fuel fuel' (drop n rest)
      else None
  | _, _ => None
  end.

Definition raw_items (input : bytes) : option (list item) :=
  raw_items_fuel (length input) input.

(** Merge each run of full fragments with its successor. *)
Fixpoint merge (raw : list item) : list item :=
  match raw with
  | [] => []
  | (ty, v) :: raw' =>
      if bool_decide (ty <> SEPARATOR) && (length v =? 255) then
        match merge raw' with
        | (ty', v') :: rest =>
            if bool_decide (ty' = ty) then (ty, v ++ v') :: rest
            else (ty, v) :: (ty', v') :: rest
        | [] => [(ty, v)]
        end
      else (ty, v) :: merge raw'
  end.

Definition decode_spec (input : bytes) : result Tlv8Error (list item) :=
  match raw_items input with
  | Some raw => Ok (merge raw)
  | None => Err UnexpectedEof
  end.

(** The writer's fragmentation of one value. *)
Definition fragments (ty : byte) (value : bytes) : list item :=
  if bool_decide (value = []) then [(ty, [])]
  else (pair ty <$> chunks 255 value) ++
       (if length value mod 255 =? 0 then [(ty, [])] else []).

(** Items the writer can represent: a separator is never fragmented. *)
Definition item_ok (i : item) : Prop := i.1 = SEPARATOR -> length i.2 < 255.

(** * Lemmas *)

(** ** The writer emits the fragments of each value *)

Lemma flatten_app a b : flatten (a ++ b) = flatten a ++ flatten b.
Proof. unfold flatten. by rewrite fmap_app, join_app. Qed.

Lemma flatten_cons i raw : flatten (i :: raw) = raw_bytes i ++ flatten raw.
Proof. done. Qed.

Lemma push_chunks_foldl ty out n0 cs :
  foldl (fun '(out, _) chunk =>
           (out ++ [ty] ++ [Zbyte (Z.of_nat (length chunk))] ++ chunk, length chunk))
        (out, n0) cs
  = (out ++ flatten (pair ty <$> cs), default n0 (length <$> last cs)).
Proof.
  revert out n0. induction cs as [|c cs IH]; intros out n0.
  { simpl. by rewrite app_nil_r. }
  cbn [foldl fmap list_fmap]. rewrite IH, flatten_cons. unfold raw_bytes at 1. simpl fst; simpl snd.
  rewrite <- !app_assoc, last_cons. by destruct (last cs).
Qed.

Lemma last_chunk_len (v : bytes) :
  v <> [] -> exists c, last (chunks 255 v) = Some c /\
    (length c = 255 <-> length v mod 255 = 0).
Proof.
  induction v as [|v Hv IH] using (chunks_ind 255 ltac:(lia)); [done|]. intros _.
  rewrite chunks_cons by (done || lia).
  destruct (decide (length v <= 255)) as [Hle|Hgt].
  - rewrite take_ge, drop_ge by lia. simpl. eexists. split; [done|].
    assert (length v <> 0) by (destruct v; simpl; [done|lia]).
    destruct (decide (length v = 255)) as [->|]; [done|].
    rewrite Nat.mod_small by lia. lia.
  - assert (drop 255 v <> []) as Hd.
    { intros H%(f_equal length). rewrite length_drop in H. simpl in H. lia. }
    destruct (IH Hd) as (c & Hc & Hm). exists c. split.
    + destruct (chunks 255 (drop 255 v)); [done|]. exact Hc.
    + rewrite Hm, length_drop. replace (length v) with (length v - 255 + 1 * 255) at 2 by lia.
      by rewrite Nat.Div0.mod_add.
Qed.

Lemma push_fragments out ty v : push out ty v = out ++ flatten (fragments ty v).
Proof.
  unfold push, fragments. case_bool_decide as Hv; [done|].
  rewrite push_chunks_foldl. destruct (last_chunk_len v Hv) as (c & -> & Hc). simpl.
  rewrite flatten_app.
  destruct (Nat.eqb_spec (length c) 255), (Nat.eqb_spec (length v mod 255) 0); try tauto.
  - by rewrite <- app_assoc.
  - simpl. by rewrite !app_nil_r.
Qed.

Lemma push_items_flatten out items :
  push_items out items = out ++ flatten (mjoin ((fun i => fragments i.1 i.2) <$> items)).
Proof.
  unfold push_items. revert out. induction items as [|[ty v] items IH]; intros out.
  { simpl. by rewrite app_nil_r. }
  cbn [foldl]. rewrite IH, push_fragments. simpl. by rewrite flatten_app, app_assoc.
Qed.

Lemma fragments_raw_ok ty v : Forall raw_ok (fragments ty v).
Proof.
  unfold fragments, raw_ok. case_bool_decide; [repeat constructor; simpl; lia|].
  apply Forall_app. split.
  - apply Forall_fmap, Forall_forall. intros c Hc%chunks_length_le; simpl; lia.
  - destruct (_ =? 0); repeat constructor; simpl; lia.
Qed.

Lemma fragments_app_full ty a b :
  length a = 255 -> fragments ty (a ++ b) = (ty, a) :: fragments ty b.
Proof.
  intros Ha. unfold fragments. rewrite bool_decide_false by (by destruct a).
  rewrite chunks_app_full by lia. rewrite length_app, Ha.
  replace (255 + length b) with (length b + 1 * 255) by lia. rewrite Nat.Div0.mod_add.
  case_bool_decide as Hb; [subst; done|]. done.
Qed.

Lemma fragments_short ty v : length v < 255 -> fragments ty v = [(ty, v)].
Proof.
  intros Hv. unfold fragments. case_bool_decide as Hb; [by subst|].
  rewrite chunks_short by (done || lia). simpl.
  rewrite Nat.mod_small by lia. destruct (Nat.eqb_spec (length v) 0) as [E|]; [|done].
  by apply nil_length_inv in E.
Qed.

(** ** Merging undoes fragmentation *)

Lemma merge_head raw ty v raw' : raw = (ty, v) :: raw' -> exists w rest, merge raw = (ty, w) :: rest.
Proof.
  intros ->. cbn [merge]. destruct (_ && _); [|by eauto].
  destruct (merge _) as [|[? ?] ?]; [by eauto|]. case_bool_decide; eauto.
Qed.

Lemma merge_short_cons ty v raw :
  ty = SEPARATOR \/ length v <> 255 -> merge ((ty, v) :: raw) = (ty, v) :: merge raw.
Proof.
  intros H. cbn [merge]. destruct (_ && _) eqn:E; [|done].
  apply andb_true_iff in E as [E1%bool_decide_eq_true E2%Nat.eqb_eq]. tauto.
Qed.

Lemma merge_full_cons ty v v' raw w rest :
  ty <> SEPARATOR -> length v = 255 -> merge ((ty, v') :: raw) = (ty, w) :: rest ->
  merge ((ty, v) :: (ty, v') :: raw) = (ty, v ++ w) :: rest.
Proof.
  intros Ht Hv Hm. remember ((ty, v') :: raw) as r eqn:Hr. cbn [merge].
  rewrite bool_decide_true, Hv by done. simpl. rewrite Hm. subst r.
  by rewrite bool_decide_true.
Qed.

Lemma merge_fragments ty v raw :
  item_ok (ty, v) -> merge (fragments ty v ++ raw) = (ty, v) :: merge raw.
Proof.
  intros Hok. unfold item_ok in Hok. simpl in Hok.
  destruct (decide (ty = SEPARATOR)) as [Hs|Hs].
  { rewrite fragments_short by auto. simpl app. apply merge_short_cons. auto. }
  clear Hok. remember (length v) as k eqn:Hk. revert v Hk.
  induction k as [k IH] using lt_wf_ind. intros v ->.
  destruct (decide (length v < 255)) as [Hlt|Hge].
  { rewrite fragments_short by done. simpl app. apply merge_short_cons. lia. }
  rewrite <- (take_drop 255 v) at 1.
  assert (length (take 255 v) = 255) as Ht by (rewrite length_take; lia).
  rewrite fragments_app_full by done.
  specialize (IH (length (drop 255 v)) ltac:(rewrite length_drop; lia) _ eq_refl).
  destruct (fragments ty (drop 255 v)) as [|[ty' f] fs] eqn:Ef.
  { exfalso. unfold fragments in Ef. case_bool_decide; [done|].
    rewrite chunks_cons in Ef by (done || lia). done. }
  assert (ty' = ty) as ->.
  { unfold fragments in Ef. case_bool_decide; [by simplify_eq|].
    rewrite chunks_cons in Ef by (done || lia). by simplify_eq/=. }
  simpl app in *. rewrite (merge_full_cons _ _ _ _ _ _ Hs Ht IH). by rewrite take_drop.
Qed.

Lemma merge_fragment_list items :
  Forall item_ok items -> merge (mjoin ((fun i => fragments i.1 i.2) <$> items)) = items.
Proof.
  induction 1 as [|[ty v] items Hi _ IH]; [done|]. simpl.
  rewrite merge_fragments by done. f_equal. exact IH.
Qed.

(** ** Raw items of a stream *)

Lemma raw_items_fuel_enough f1 f2 input :
  length input <= f1 -> length input <= f2 -> raw_items_fuel f1 input = raw_items_fuel f2 input.
Proof.
  revert f2 input. induction f1 as [|f1 IH]; intros f2 input H1 H2.
  { destruct input; simpl in *; [by destruct f2|lia]. }
  destruct input as [|ty [|len rest]]; destruct f2 as [|f2]; simpl in *; try done; try lia.
  destruct (_ <=? _); [|done]. f_equal. apply IH; rewrite length_drop; lia.
Qed.

Lemma raw_items_nil : raw_items [] = Some [].
Proof. done. Qed.

Lemma raw_items_cons ty len rest :
  raw_items (ty :: len :: rest) =
    let n := Z.to_nat (byteZ len) in
    if n <=? length rest then cons (ty, take n rest) <$> raw_items (drop n rest) else None.
Proof.
  unfold raw_items at 1. change (length (ty :: len :: rest)) with (S (S (length rest))).
  remember (S (length rest)) as k eqn:Hk. cbn [raw_items_fuel]. cbv zeta.
  destruct (_ <=? _); [|done]. f_equal. apply raw_items_fuel_enough; rewrite length_drop; lia.
Qed.

Lemma raw_items_flatten raw rest :
  Forall raw_ok raw -> raw_items (flatten raw ++ rest) = app raw <$> raw_items rest.
Proof.
  induction 1 as [|[ty v] raw Hv _ IH]; [simpl; by destruct (raw_items rest)|].
  unfold raw_ok in Hv. simpl in Hv.
  rewrite flatten_cons. unfold raw_bytes. simpl fst; simpl snd. simpl app.
  rewrite raw_items_cons. rewrite byteZ_Zbyte_small by lia. rewrite Nat2Z.id. cbv zeta.
  rewrite <- !app_assoc, length_app.
  rewrite (proj2 (Nat.leb_le _ _)) by lia.
  rewrite take_app_length, drop_app_length, IH. by destruct (raw_items rest).
Qed.

Lemma raw_items_sound input raw :
  raw_items input = Some raw -> input = flatten raw /\ Forall raw_ok raw.
Proof.
  remember (length input) as k eqn:Hk. revert input raw Hk.
  induction k as [k IH] using lt_wf_ind. intros input raw -> Hr.
  destruct input as [|ty [|len rest]]; [injection Hr as <-; by split| done |].
  rewrite raw_items_cons in Hr. cbv zeta in Hr.
  destruct (Nat.leb_spec (Z.to_nat (byteZ len)) (length rest)) as [Hle|]; [|done].
  apply fmap_Some in Hr as (raw' & Hr & ->).
  destruct (IH (length (drop (Z.to_nat (byteZ len)) rest)) ltac:(simpl; rewrite length_drop; lia)
              _ _ eq_refl Hr) as [Heq Hok].
  pose proof (byteZ_range len). split.
  - rewrite flatten_cons, <- Heq. unfold raw_bytes. simpl.
    rewrite length_take, Nat.min_l by lia. rewrite Z2Nat.id by lia.
    by rewrite Zbyte_byteZ, take_drop.
  - constructor; [|done]. unfold raw_ok. simpl. rewrite length_take. lia.
Qed.

(** ** The reader computes the specification *)

(** What the accumulator [(items, open_run)] still lets the next raw items do. *)
Definition resume (items : list item) (open_run : option (byte * bool)) (raw : list item)
    : list item :=
  match raw, open_run with
  | (ty, _) :: _, Some (run_ty, true) =>
      if bool_decide (run_ty = ty)
      then match merge raw with
           | (_, w) :: rest => extend_last items w ++ rest
           | [] => items
           end
      else items ++ merge raw
  | _, _ => items ++ merge raw
  end.

(** The open run describes the last item, and a separator never opens one. *)
Definition run_ok (items : list item) (open_run : option (byte * bool)) : Prop :=
  forall ty, open_run = Some (ty, true) ->
    ty <> SEPARATOR /\ exists items' w, items = items' ++ [(ty, w)].

Lemma extend_last_snoc items ty x v :
  extend_last (items ++ [(ty, x)]) v = items ++ [(ty, x ++ v)].
Proof.
  induction items as [|[t y] items IH]; [done|]. simpl.
  destruct items; simpl in *; [done|]. by rewrite IH.
Qed.

Lemma parse_body_end input items run :
  parse_body input (items, run, length input) = Ok (Break items).
Proof. unfold parse_body. by rewrite Nat.ltb_irrefl. Qed.

Definition next_state (st : list item * option (byte * bool)) (ty : byte) (v : bytes)
    : list item * option (byte * bool) :=
  let '(items, run) := st in
  if bool_decide (ty = SEPARATOR) then (items ++ [(ty, v)], None)
  else ((if match run with Some (rt, true) => bool_decide (rt = ty) | _ => false end
         then extend_last items v else items ++ [(ty, v)]), Some (ty, length v =? 255)).

Lemma parse_body_item pre ty v rest items run :
  length v <= 255 ->
  parse_body (pre ++ raw_bytes (ty, v) ++ rest) (items, run, length pre) =
    Ok (Continue (next_state (items, run) ty v, length pre + length (raw_bytes (ty, v)))).
Proof.
  intros Hv. unfold parse_body, raw_bytes. simpl fst; simpl snd.
  rewrite (proj2 (Nat.ltb_lt _ _)) by (rewrite !length_app; simpl; lia). simpl negb.
  cbv iota.
  rewrite (index_ok _ _ ty) by (by rewrite lookup_app_r, Nat.sub_diag by lia).
  simpl mbind. cbn [mbind result_bind].
  rewrite (lookup_app_r pre), (Nat.add_comm (length pre) 1), Nat.add_sub by lia. simpl lookup.
  cbn [ok_or mbind result_bind].
  rewrite byteZ_Zbyte_small, Nat2Z.id by lia. cbn [checked_add ok_or mbind result_bind].
  replace (pre ++ ty :: Zbyte (Z.of_nat (length v)) :: v ++ rest)
    with ((pre ++ [ty; Zbyte (Z.of_nat (length v))]) ++ v ++ rest)
    by (by rewrite <- !app_assoc).
  rewrite get_range_middle by (rewrite length_app; simpl; lia).
  cbn [ok_or mbind result_bind]. unfold next_state.
  rewrite !length_app. simpl length.
  replace (length pre + 2 + length v) with (length pre + (1 + (1 + length v))) by lia.
  by case_bool_decide.
Qed.

Lemma next_state_resume items run ty v raw :
  run_ok items run ->
  resume items run ((ty, v) :: raw) =
    resume (next_state (items, run) ty v).1 (next_state (items, run) ty v).2 raw.
Proof.
  intros Hrun. unfold next_state.
  destruct (decide (ty = SEPARATOR)) as [->|Hs].
  { rewrite bool_decide_true by done. simpl fst; simpl snd.
    assert (resume items run ((SEPARATOR, v) :: raw) = items ++ merge ((SEPARATOR, v) :: raw)) as ->.
    { unfold resume. destruct run as [[rt []]|]; try done. case_bool_decide; [|done].
      subst. by destruct (Hrun _ eq_refl) as [? _]. }
    rewrite merge_short_cons by auto. unfold resume. destruct raw as [|[? ?] ?];
      by rewrite <- app_assoc. }
  rewrite bool_decide_false by done. simpl fst; simpl snd.
  set (cont := match run with Some (rt, true) => bool_decide (rt = ty) | _ => false end).
  assert (resume items run ((ty, v) :: raw) =
    match merge ((ty, v) :: raw) with
    | (_, w) :: rest => if cont then extend_last items w ++ rest else items ++ (ty, w) :: rest
    | [] => items
    end) as ->.
  { destruct (merge_head _ ty v raw eq_refl) as (w & rest & Hm). unfold resume. rewrite Hm.
    unfold cont. destruct run as [[rt []]|]; try done. }
  assert (exists items' x, cont = true -> items = items' ++ [(ty, x)]) as (items' & x & Hc).
  { unfold cont. destruct run as [[rt []]|]; try (by exists [], []).
    case_bool_decide; [subst|by exists [], []].
    destruct (Hrun _ eq_refl) as (_ & i' & w & ->). by exists i', w. }
  destruct (Nat.eqb_spec (length v) 255) as [Hv|Hv].
  - destruct raw as [|[ty' v'] raw].
    { cbn [merge]. rewrite bool_decide_true, Hv by done. simpl.
      destruct cont; by rewrite !app_nil_r. }
    destruct (merge_head _ ty' v' raw eq_refl) as (w & rest & Hm).
    unfold resume. rewrite Hm.
    destruct (decide (ty = ty')) as [<-|Hne].
    + rewrite (merge_full_cons _ _ _ _ _ _ Hs Hv Hm), bool_decide_true by done.
      destruct cont.
      * rewrite (Hc eq_refl), !extend_last_snoc, <- !app_assoc. done.
      * rewrite extend_last_snoc, <- !app_assoc. done.
    + rewrite (bool_decide_false (ty = ty')) by done.
      remember ((ty', v') :: raw) as r eqn:Hr. cbn [merge].
      rewrite bool_decide_true, Hv by done. simpl. rewrite Hm. subst r.
      rewrite bool_decide_false by done. destruct cont; by rewrite <- ?app_assoc.
  - rewrite merge_short_cons by auto.
    unfold resume. destruct raw as [|[ty' v'] raw]; destruct cont; by rewrite <- ?app_assoc.
Qed.

Lemma next_state_run_ok items run ty v :
  run_ok items run -> run_ok (next_state (items, run) ty v).1 (next_state (items, run) ty v).2.
Proof.
  intros Hrun t. unfold next_state. case_bool_decide as Hs; [done|]. simpl. intros [= <- _].
  split; [done|]. destruct run as [[rt []]|]; try (by eauto).
  case_bool_decide; [subst|by eauto].
  destruct (Hrun _ eq_refl) as (_ & i' & w & ->). rewrite extend_last_snoc. eauto.
Qed.

(** The parse loop, started in the middle of a well-formed stream. *)
Lemma parse_runs_flatten pre raw items run :
  Forall raw_ok raw -> run_ok items run ->
  runs (parse_body (pre ++ flatten raw)) (items, run, length pre)
       (Ok (resume items run raw)).
Proof.
  intros Hok. revert pre items run. induction Hok as [|[ty v] raw Hv Hraw IH]; intros pre items run Hrun.
  { simpl flatten. rewrite app_nil_r. apply runs_break. rewrite parse_body_end. simpl.
    unfold resume. simpl. by rewrite app_nil_r. }
  rewrite flatten_cons. eapply runs_continue; [by apply parse_body_item|].
  rewrite next_state_resume by done.
  specialize (IH (pre ++ raw_bytes (ty, v)) (next_state (items, run) ty v).1
                 (next_state (items, run) ty v).2 (next_state_run_ok _ _ _ _ Hrun)).
  rewrite length_app, <- app_assoc in IH. by destruct (next_state (items, run) ty v).
Qed.

(** Every iteration moves the position forward, and stays inside the input. *)
Lemma parse_body_progress input st st' :
  parse_body input st = Ok (Continue st') ->
  st.2 < st'.2 <= length input.
Proof.
  destruct st as [[items run] pos]. unfold parse_body. destruct (negb _); [done|].
  intros H. bind_inv H. bind_inv H. bind_inv H. bind_inv H.
  unfold checked_add in Ha1. simplify_eq/=.
  destruct (get_range _ _ _) as [v|] eqn:Eg; simplify_eq/=.
  apply get_range_Some in Eg as [Eg _].
  case_bool_decide; simplify_eq/=; lia.
Qed.

Lemma parse_measure input st st' :
  st.2 <= length input -> parse_body input st = Ok (Continue st') ->
  length input - st'.2 < length input - st.2 /\ st'.2 <= length input.
Proof. intros Hs H. apply parse_body_progress in H. lia. Qed.

Lemma parse_returns_gen input fuel st :
  st.2 <= length input -> length input - st.2 < fuel -> returns (loop fuel (parse_body input) st).
Proof.
  intros Hs Hf. eapply (loop_returns _ (fun st => length input - st.2) (fun st => st.2 <= length input));
    [| |done|done].
  - intros [[items run] pos] Hp. simpl in Hp. unfold parse_body.
    destruct (Nat.ltb_spec pos (length input)); simpl; [|done].
    apply returns_bind; [by apply returns_index|]. intros ty _. returns_tac.
  - intros s s' Hp H. by apply parse_measure.
Qed.

(** A truncated stream is an error, whatever precedes the truncation. *)
Lemma parse_runs_truncated pre raw rest items run :
  Forall raw_ok raw -> raw_items rest = None ->
  (forall ty len rest', rest = ty :: len :: rest' -> length rest' < Z.to_nat (byteZ len)) ->
  runs (parse_body (pre ++ flatten raw ++ rest)) (items, run, length pre) (Err UnexpectedEof).
Proof.
  intros Hok Hnone Hshort. revert pre items run.
  induction Hok as [|[ty v] raw Hv Hraw IH]; intros pre items run.
  - simpl flatten. rewrite app_nil_l. apply runs_err. unfold parse_body.
    assert (length rest <> 0) by (destruct rest; simpl; [done|lia]).
    rewrite (proj2 (Nat.ltb_lt _ _)) by (rewrite length_app; lia). simpl.
    destruct rest as [|ty rest]; [done|].
    rewrite (index_ok _ _ ty) by (by rewrite lookup_app_r, Nat.sub_diag by lia). simpl.
    rewrite lookup_app_r, (Nat.add_comm _ 1), Nat.add_sub by lia. simpl.
    destruct rest as [|len rest]; [done|]. simpl.
    specialize (Hshort _ _ _ eq_refl).
    destruct (get_range _ _ _) eqn:Eg; [|done]. exfalso.
    apply get_range_Some in Eg as [Eg _]. rewrite length_app in Eg. simpl in Eg. lia.
  - rewrite flatten_cons, <- app_assoc. eapply runs_continue; [by apply parse_body_item|].
    specialize (IH (pre ++ raw_bytes (ty, v)) (next_state (items, run) ty v).1
                   (next_state (items, run) ty v).2).
    rewrite length_app, <- app_assoc in IH. by destruct (next_state (items, run) ty v).
Qed.

(** A stream that does not cut into raw items ends in a truncated one. *)
Lemma raw_items_None input :
  raw_items input = None ->
  exists raw rest, input = flatten raw ++ rest /\ Forall raw_ok raw /\ raw_items rest = None /\
    (forall ty len rest', rest = ty :: len :: rest' -> length rest' < Z.to_nat (byteZ len)).
Proof.
  remember (length input) as k eqn:Hk. revert input Hk.
  induction k as [k IH] using lt_wf_ind. intros input -> Hn.
  destruct input as [|ty [|len rest]]; [done| |].
  { exists [], [ty]. repeat split; try done. }
  pose proof Hn as Hn'. rewrite raw_items_cons in Hn. cbv zeta in Hn.
  destruct (Nat.leb_spec (Z.to_nat (byteZ len)) (length rest)) as [Hle|Hlt].
  - apply fmap_None in Hn.
    destruct (IH (length (drop (Z.to_nat (byteZ len)) rest)) ltac:(simpl; rewrite length_drop; lia)
                _ eq_refl Hn) as (raw & r & Heq & Hok & Hr & Hs).
    pose proof (byteZ_range len).
    exists ((ty, take (Z.to_nat (byteZ len)) rest) :: raw), r. repeat split; try done.
    + rewrite flatten_cons, <- app_assoc, <- Heq. unfold raw_bytes. simpl.
      rewrite length_take, Nat.min_l, Z2Nat.id by lia. by rewrite Zbyte_byteZ, take_drop.
    + constructor; [|done]. unfold raw_ok. simpl. rewrite length_take. lia.
  - exists [], (ty :: len :: rest). repeat split; try done.
    intros ? ? ? [= <- <- <-]. done.
Qed.

Lemma resume_start raw : resume [] None raw = merge raw.
Proof. by destruct raw as [|[? ?] ?]. Qed.

Lemma parse_decode_spec input : parse input = decode_spec input.
Proof.
  unfold parse, decode_spec.
  eapply (loop_eq_runs _ (fun st => length input - st.2) (fun st => st.2 <= length input));
    [intros; by apply parse_measure|simpl; lia|simpl; lia|].
  destruct (raw_items input) as [raw|] eqn:Er.
  - apply raw_items_sound in Er as [-> Hok].
    rewrite <- (resume_start raw).
    exact (parse_runs_flatten [] raw [] None Hok ltac:(by intros ? ?)).
  - apply raw_items_None in Er as (raw & rest & -> & Hok & Hr & Hs).
    exact (parse_runs_truncated [] raw rest [] None Hok Hr Hs).
Qed.

(** Reading back what a sequence of [push] calls wrote. *)
Lemma parse_push_items items :
  Forall item_ok items -> parse (push_items [] items) = Ok items.
Proof.
  intros Hok. rewrite parse_decode_spec, push_items_flatten. simpl app. unfold decode_spec.
  assert (Forall raw_ok (mjoin ((fun i => fragments i.1 i.2) <$> items))) as Hraw.
  { clear. induction items as [|[ty v] items IH]; [constructor|]. simpl.
    apply Forall_app. split; [apply fragments_raw_ok|done]. }
  pose proof (raw_items_flatten _ [] Hraw) as H. rewrite app_nil_r in H. rewrite H.
  simpl. rewrite app_nil_r. by rewrite merge_fragment_list.
Qed.

Lemma returns_parse input : returns (parse input).
Proof. rewrite parse_decode_spec. unfold decode_spec. by destruct (raw_items input). Qed.

Lemma returns_map_parse input : returns (map_parse input).
Proof. unfold map_parse. apply returns_bind; [apply returns_parse|done]. Qed.

Lemma map_parse_push_items items :
  Forall item_ok items -> map_parse (push_items [] items) = Ok (from_items items).
Proof. intros H. unfold map_parse. by rewrite parse_push_items. Qed.

#[export] Hint Resolve returns_parse returns_map_parse : hap.

(** A non-separator item is always representable. *)
Lemma item_ok_ty ty v : ty <> SEPARATOR -> item_ok (ty, v).
Proof. by intros ? ?. Qed.

Lemma item_ok_short ty v : length v < 255 -> item_ok (ty, v).
Proof. by intros ? ?. Qed.

#[export] Hint Resolve item_ok_ty item_ok_short : hap.

(** [Forall item_ok] of a literal list of items. *)
Ltac items_ok :=
  repeat first [ apply List.Forall_nil
               | apply List.Forall_cons;
                 [first [apply item_ok_ty; done | apply item_ok_short; simpl; lia]|] ].

Lemma get_uint_spec m ty width bs :
  width <= 8 -> get m ty = Some bs ->
  get_uint m ty width =
    if width <? length bs then Err (IntegerTooLarge width (length bs)) else Ok (Some (le_Z bs)).
Proof.
  intros Hw Hg. unfold get_uint. rewrite Hg. destruct (Nat.ltb_spec width (length bs)); [done|].
  rewrite (proj2 (Nat.leb_le _ _)) by lia. by rewrite le_Z_app, le_Z_zeros, Z.mul_0_r, Z.add_0_r.
Qed.

Lemma returns_get_uint m ty width : width <= 8 -> returns (get_uint m ty width).
Proof.
  intros Hw. unfold get_uint. destruct (get m ty) as [bs|]; [|done].
  destruct (Nat.ltb_spec width (length bs)); [done|]. by rewrite (proj2 (Nat.leb_le _ _)) by lia.
Qed.

Lemma returns_get_u8 m ty : returns (get_u8 m ty).
Proof. unfold get_u8. apply returns_bind; [apply returns_get_uint; lia|done]. Qed.

#[export] Hint Resolve returns_get_u8 : hap.

Lemma push_items_push pre post ty v :
  push_items (push (push_items [] pre) ty v) post = push_items [] (pre ++ (ty, v) :: post).
Proof. unfold push_items. by rewrite foldl_app. Qed.

Lemma get_first pre post ty v :
  ty ∉ pre.*1 -> get (from_items (pre ++ (ty, v) :: post)) ty = Some v.
Proof.
  intros Hn. unfold get, from_items. simpl. induction pre as [|[t w] pre IH]; simpl in *.
  { by rewrite bool_decide_true. }
  rewrite not_elem_of_cons in Hn. rewrite bool_decide_false by naive_solver. naive_solver.
Qed.

Lemma get_uint_pushed pre post ty v n width :
  ty ∉ pre.*1 -> n <= width <= 8 -> (0 <= v < 256 ^ Z.of_nat n)%Z ->
  get_uint (from_items (pre ++ (ty, le_bytes n v) :: post)) ty width = Ok (Some v).
Proof.
  intros Hn Hw Hv. erewrite get_uint_spec by (lia || by apply get_first).
  rewrite length_le_bytes, (proj2 (Nat.ltb_ge _ _)) by lia. by rewrite le_Z_le_bytes_small.
Qed.

(** Encoded lengths: the two-byte headers at most triple a value. *)
Lemma chunks_count (v : bytes) : length (chunks 255 v) <= length v.
Proof.
  induction v as [|v Hv IH] using (chunks_ind 255 ltac:(lia)); [done|].
  rewrite chunks_cons by (done || lia). simpl. rewrite length_drop in IH.
  destruct v; [done|]. simpl in *. lia.
Qed.

Lemma length_flatten raw : length (flatten raw) = length (mjoin raw.*2) + 2 * length raw.
Proof.
  induction raw as [|[t v] raw IH]; [done|]. rewrite flatten_cons, length_app, IH.
  change (mjoin ((t, v) :: raw).*2) with (v ++ mjoin raw.*2).
  unfold raw_bytes. rewrite !length_app. cbn [length fst snd]. lia.
Qed.

Lemma length_push_le out ty v : length (push out ty v) <= length out + 3 * length v + 2.
Proof.
  rewrite push_fragments, length_app, length_flatten. unfold fragments.
  case_bool_decide; [subst; simpl; lia|].
  rewrite fmap_app, join_app, !length_app, length_fmap, <- list_fmap_compose.
  rewrite (list_fmap_ext _ id) by done. rewrite list_fmap_id, chunks_concat by lia.
  pose proof (chunks_count v). destruct (_ =? 0); simpl; lia.
Qed.

(** The exact overhead: two bytes for each started run of 255. *)
Lemma chunks_count_255 (v : bytes) :
  255 * length (chunks 255 v) <= length v + 254 /\
  (length v mod 255 = 0 -> 255 * length (chunks 255 v) = length v).
Proof.
  induction v as [|v Hv IH] using (chunks_ind 255 ltac:(lia)); [split; [simpl; lia|done]|].
  rewrite chunks_cons by (done || lia). cbn [length].
  assert (0 < length v) as Hpos by (destruct v; simpl; [done|lia]).
  destruct (decide (length v < 255)) as [Hs|Hs].
  - rewrite drop_ge, chunks_nil by lia. simpl. split; [lia|]. intros Hm.
    rewrite Nat.mod_small in Hm by done. lia.
  - rewrite length_drop in IH. split; [lia|]. intros Hm.
    destruct IH as [_ IH]. rewrite <- (Nat.Div0.mod_add (length v - 255) 1) in IH.
    replace (length v - 255 + 1 * 255) with (length v) in IH by lia. lia.
Qed.

Lemma length_push_255 out ty v :
  255 * length (push out ty v) <= 255 * length out + 257 * length v + 510.
Proof.
  rewrite push_fragments, length_app, length_flatten. unfold fragments.
  case_bool_decide; [subst; simpl; lia|].
  rewrite fmap_app, join_app, !length_app, length_fmap, <- list_fmap_compose.
  rewrite (list_fmap_ext _ id) by done. rewrite list_fmap_id, chunks_concat by lia.
  destruct (chunks_count_255 v) as [Hc Hm].
  destruct (Nat.eqb_spec (length v mod 255) 0) as [He|He]; simpl; [specialize (Hm He)|]; lia.
Qed.

(** Messages of one, two and three items. *)
Lemma parse_items1 t1 v1 : t1 <> SEPARATOR ->
  map_parse (push [] t1 v1) = Ok (from_items [(t1, v1)]).
Proof. intros. apply (map_parse_push_items [(t1, v1)]). items_ok. Qed.

Lemma parse_items2 t1 v1 t2 v2 : t1 <> SEPARATOR -> t2 <> SEPARATOR ->
  map_parse (push (push [] t1 v1) t2 v2) = Ok (from_items [(t1, v1); (t2, v2)]).
Proof. intros. apply (map_parse_push_items [(t1, v1); (t2, v2)]). items_ok. Qed.

Lemma parse_items3 t1 v1 t2 v2 t3 v3 : t1 <> SEPARATOR -> t2 <> SEPARATOR -> t3 <> SEPARATOR ->
  map_parse (push (push (push [] t1 v1) t2 v2) t3 v3) = Ok (from_items [(t1, v1); (t2, v2); (t3, v3)]).
Proof. intros. apply (map_parse_push_items [(t1, v1); (t2, v2); (t3, v3)]). items_ok. Qed.

(** * Properties *)



(** C30: The reader's position-based loop computes the declarative decoding on
    every input: the raw items of the stream with each run of full fragments
    merged into its successor, and [UnexpectedEof] exactly when the stream does
    not cut into raw items.  In particular it terminates and never panics. *)
Theorem tlv8_parse_spec input : parse input = decode_spec input.
Proof. apply parse_decode_spec. Qed.

(** The typed getters invert the typed writers at every width, whatever
    other items surround the integer. *)
Theorem tlv8_integers pre post ty v :
  Forall item_ok (pre ++ post) -> ty ∉ pre.*1 -> ty <> SEPARATOR ->
  let written push_n := map_parse (push_items (push_n (push_items [] pre) ty v) post) in
  (in_u 8 v -> (m ← written push_u8; get_u8 m ty) = Ok (Some v)) /\
  (in_u 16 v -> (m ← written push_u16; get_u16 m ty) = Ok (Some v)) /\
  (in_u 32 v -> (m ← written push_u32; get_u32 m ty) = Ok (Some v)) /\
  (in_u 64 v -> (m ← written push_u64; get_u64 m ty) = Ok (Some v)).
Proof.
  intros [Hpre Hpost]%Forall_app Hn Hs written. unfold in_u.
  assert (forall n, map_parse (push_items (push (push_items [] pre) ty (le_bytes n v)) post) =
                    Ok (from_items (pre ++ (ty, le_bytes n v) :: post))) as Hp.
  { intros n. rewrite push_items_push. apply map_parse_push_items.
    apply Forall_app. split; [done|]. constructor; auto with hap. }
  subst written. cbv beta.
  unfold push_u8, push_u16, push_u32, push_u64, get_u8, get_u16, get_u32, get_u64.
  repeat split; intros Hv; rewrite Hp; cbn [mbind result_bind];
    rewrite get_uint_pushed by (done || lia); cbn [mbind result_bind option_map];
    by rewrite ?Z.mod_small.
Qed.

Lemma tlv8_integers_witness :
  (m ← map_parse (push_items (push_u16 (push_items [] [(x01, [x05])]) x06 4660) [(x06, [])]);
   get_u16 m x06) = Ok (Some 4660%Z).
Proof.
  apply (tlv8_integers [(x01, [x05])] [(x06, [])] x06 4660).
  - items_ok.
  - by apply (bool_decide_unpack _).
  - done.
  - by split.
Defined.
