(* ===== verification/Crypto.v ===== *)
(** * [hap-crypto]: the cryptographic interface and its thin wrappers

    The primitives come from third-party crates ([chacha20poly1305], [hkdf],
    [sha2], [ed25519-dalek], [x25519-dalek], [poly1305]).  They are the operations
    of the class [Crypto]; what the code relies on are the fields of
    [CryptoLaws].  On top of them this file models the crate's own code:
    [aead.rs], [kdf.rs], [keys.rs], [setup.rs], [tlv_types.rs] and
    [broadcast.rs] (the truncated-tag broadcast cipher).  [toy_crypto] is a
    concrete instance, used by the witnesses. *)

From S2P Require Import Prelude Tlv8.

(** ** The primitives *)

Class Crypto := {
  aead_seal (key nonce aad msg : bytes) : option bytes;
  aead_open (key nonce aad ct : bytes) : option bytes;
  hkdf_expand (ikm salt info : bytes) (n : nat) : option bytes;
  sha512 (msg : bytes) : bytes;
  chacha_keystream (key nonce : bytes) (pos : nat) : byte;
  poly1305_padded (key data : bytes) : bytes;
  ed_public (seed : bytes) : bytes;
  ed_sign (seed msg : bytes) : bytes;
  ed_valid_key (pk : bytes) : bool;
  ed_verify_strict (pk msg sig : bytes) : bool;
  x_public (secret : bytes) : bytes;
  x_dh (secret public : bytes) : bytes;
}.

(** Documented behaviour of the primitives. *)
Class CryptoLaws (C : Crypto) := {
  aead_open_seal k n a m c : aead_seal k n a m = Some c -> aead_open k n a c = Some m;
  aead_seal_open k n a m c : aead_open k n a c = Some m -> aead_seal k n a m = Some c;
  aead_seal_total k n a m : (Z.of_nat (length m) < 2 ^ 32)%Z -> is_Some (aead_seal k n a m);
  aead_seal_length k n a m c : aead_seal k n a m = Some c -> length c = length m + 16;
  hkdf_total ikm salt info n : n <= 255 * 64 ->
    exists out, hkdf_expand ikm salt info n = Some out /\ length out = n;
  sha512_length m : length (sha512 m) = 64;
  poly1305_length k m : length (poly1305_padded k m) = 16;
  ed_public_length s : length (ed_public s) = 32;
  ed_sign_length s m : length (ed_sign s m) = 64;
  ed_public_valid s : ed_valid_key (ed_public s) = true;
  ed_verify_sign s m : ed_verify_strict (ed_public s) m (ed_sign s m) = true;
  x_public_length s : length (x_public s) = 32;
  x_dh_length s p : length (x_dh s p) = 32;
  x_dh_comm a b : x_dh a (x_public b) = x_dh b (x_public a);
}.

(** ** Errors ([error.rs]) *)

Inductive CryptoError :=
| SrpBadParameters (why : string)
| SrpProofMismatch
| Encoding (why : string)
| Tlv (e : Tlv8Error)
| Kdf (why : string)
| Aead
| Signature.

(** ** TLV types and values ([tlv_types.rs]) *)

Definition METHOD : byte := x00.
Definition IDENTIFIER : byte := x01.
Definition SALT : byte := x02.
Definition PUBLIC_KEY : byte := x03.
Definition PROOF : byte := x04.
Definition ENCRYPTED_DATA : byte := x05.
Definition STATE : byte := x06.
Definition ERROR : byte := x07.
Definition SIGNATURE : byte := x0a.
Definition METHOD_PAIR_SETUP : Z := 0.
Definition STATE_M1 : Z := 1.
Definition STATE_M2 : Z := 2.
Definition STATE_M3 : Z := 3.
Definition STATE_M4 : Z := 4.
Definition STATE_M5 : Z := 5.
Definition STATE_M6 : Z := 6.

(** [copy_from_slice] into [dst[at..at + src.len()]]. *)
Definition copy_at (dst : bytes) (at_ : nat) (src : bytes) : bytes :=
  take at_ dst ++ src ++ drop (at_ + length src) dst.

(** Byte-wise exclusive or. *)
Definition byte_xor (a b : byte) : byte := Zbyte (Z.lxor (byteZ a) (byteZ b)).

Section wrappers.
Context `{C : Crypto}.

(** ** [aead.rs] *)

Definition hap_nonce (label : bytes) : bytes :=
  let n := length label `min` 8 in
  copy_at (replicate 12 x00) 4 (take n label).

Definition encrypt (key nonce aad plaintext : bytes) : result CryptoError bytes :=
  ok_or (aead_seal key nonce aad plaintext) Aead.

Definition decrypt (key nonce aad ciphertext_and_tag : bytes) : result CryptoError bytes :=
  ok_or (aead_open key nonce aad ciphertext_and_tag) Aead.

Definition chacha20poly1305_seal := encrypt.
Definition chacha20poly1305_open := decrypt.

(** ** [kdf.rs]: the output buffer's length is the requested length *)

Definition hkdf_sha512 (ikm salt info : bytes) (n : nat) : result CryptoError bytes :=
  ok_or (hkdf_expand ikm salt info n) (Kdf "requested output length exceeds 255 * HashLen").

(** ** [keys.rs] *)

Record ControllerKeypair := { kp_id : bytes; kp_signing : bytes }.

Definition from_seed (id seed : bytes) : ControllerKeypair := {| kp_id := id; kp_signing := seed |}.
Definition ltpk (k : ControllerKeypair) : bytes := ed_public (kp_signing k).
Definition seed (k : ControllerKeypair) : bytes := kp_signing k.
Definition sign (k : ControllerKeypair) (msg : bytes) : bytes := ed_sign (kp_signing k) msg.

Definition verify_ed25519 (pk msg sig : bytes) : result CryptoError () :=
  if negb (ed_valid_key pk) then Err Signature
  else if ed_verify_strict pk msg sig then Ok () else Err Signature.

(** ** [setup.rs] *)

Definition setup_hash (setup_id device_id : bytes) : bytes :=
  take 4 (sha512 (setup_id ++ device_id)).

(** ** [broadcast.rs] *)

Record BroadcastKey := { bk : bytes }.

Definition BROADCAST_INFO : bytes := str "Broadcast-Encryption-Key".

Definition broadcast_derive (ikm salt : bytes) : result CryptoError BroadcastKey :=
  out ← hkdf_sha512 ikm salt BROADCAST_INFO 32; Ok {| bk := out |}.

(** A ChaCha20 cipher object: key, nonce and keystream position. *)
Record cipher := { ci_key : bytes; ci_nonce : bytes; ci_pos : nat }.

Definition apply_keystream (c : cipher) (buf : bytes) : bytes * cipher :=
  (zip_with byte_xor buf (chacha_keystream (ci_key c) (ci_nonce c) <$> seq (ci_pos c) (length buf)),
   {| ci_key := ci_key c; ci_nonce := ci_nonce c; ci_pos := ci_pos c + length buf |}).

Definition poly1305_key (c : cipher) : bytes * cipher :=
  let '(block, c) := apply_keystream c (replicate 64 x00) in
  (take 32 block, c).

(** [while d.len() % 16 != 0 { d.push(0) }]: at most 15 turns. *)
Fixpoint pad16 (fuel : nat) (d : bytes) : bytes :=
  match fuel with
  | O => d
  | S fuel' => if length d mod 16 =? 0 then d else pad16 fuel' (d ++ [x00])
  end.

Definition mac_data (aad ciphertext : bytes) : bytes :=
  let d := pad16 16 aad in
  let d := pad16 16 (d ++ ciphertext) in
  d ++ le_bytes 8 (Z.of_nat (length aad)) ++ le_bytes 8 (Z.of_nat (length ciphertext)).

Definition broadcast_cipher (self : BroadcastKey) (gsn : Z) : cipher :=
  {| ci_key := bk self; ci_nonce := copy_at (replicate 12 x00) 4 (le_bytes 8 gsn); ci_pos := 0 |}.

Definition broadcast_seal (self : BroadcastKey) (gsn : Z) (plaintext advertising_id : bytes) : bytes :=
  let cipher := broadcast_cipher self gsn in
  let '(poly_key, cipher) := poly1305_key cipher in
  let '(ciphertext, cipher) := apply_keystream cipher plaintext in
  let full_tag := poly1305_padded poly_key (mac_data advertising_id ciphertext) in
  ciphertext ++ take 4 full_tag.

Definition broadcast_open (self : BroadcastKey) (gsn : Z) (combined_text advertising_id : bytes)
    : result CryptoError bytes :=
  if length combined_text <? 4 then Err Aead
  else
    let ciphertext := take (length combined_text - 4) combined_text in
    let tag4 := drop (length combined_text - 4) combined_text in
    let cipher := broadcast_cipher self gsn in
    let '(poly_key, cipher) := poly1305_key cipher in
    let full_tag := poly1305_padded poly_key (mac_data advertising_id ciphertext) in
    if negb (bool_decide (take 4 full_tag = tag4)) then Err Aead
    else let '(plaintext, _) := apply_keystream cipher ciphertext in Ok plaintext.

End wrappers.

(** ** A concrete instance

    Not secure: checksums stand for the primitives, so that every law holds and
    concrete runs can be evaluated. *)

Definition toy_sum (m : bytes) : Z :=
  foldl (fun acc b => (acc * 31 + byteZ b) mod 65521)%Z 7%Z m.

Definition toy_digest (n : nat) (m : bytes) : bytes :=
  replicate (n - 1) x00 ++ [Zbyte (1 + toy_sum m mod 3)].

Definition toy_tag (k n a m : bytes) : bytes := le_bytes 16 (toy_sum (k ++ n ++ a ++ m)).

#[export] Instance toy_crypto : Crypto := {|
  aead_seal k n a m :=
    if (Z.of_nat (length m) <? 2 ^ 32)%Z then Some (m ++ toy_tag k n a m) else None;
  aead_open k n a c :=
    let m := take (length c - 16) c in
    if (16 <=? length c) && bool_decide (drop (length c - 16) c = toy_tag k n a m) &&
       (Z.of_nat (length m) <? 2 ^ 32)%Z
    then Some m else None;
  hkdf_expand ikm salt info n :=
    if n <=? 255 * 64 then Some (le_bytes n (toy_sum (ikm ++ salt ++ info))) else None;
  sha512 m := toy_digest 64 m;
  chacha_keystream k n pos := Zbyte (toy_sum (k ++ n) + Z.of_nat pos);
  poly1305_padded k m := toy_tag k [] [] m;
  ed_public s := le_bytes 32 (le_Z s);
  ed_sign s m := le_bytes 64 (toy_sum (le_bytes 32 (le_Z s) ++ m));
  ed_valid_key pk := length pk =? 32;
  ed_verify_strict pk m sig :=
    bool_decide (sig = le_bytes 64 (toy_sum (pk ++ m)));
  x_public s := le_bytes 32 (9 * le_Z s);
  x_dh s p := le_bytes 32 (le_Z s * le_Z p);
|}.

(** * Lemmas *)

(** ** The instance satisfies the laws *)

Lemma le_bytes_mod n z : le_bytes n (z mod 256 ^ Z.of_nat n) = le_bytes n z.
Proof.
  apply le_Z_inj; [by rewrite !length_le_bytes|].
  rewrite !le_Z_le_bytes. by rewrite Z.mod_mod by lia.
Qed.

Lemma length_toy_tag k n a m : length (toy_tag k n a m) = 16.
Proof. apply length_le_bytes. Qed.

#[export] Instance toy_crypto_laws : CryptoLaws toy_crypto.
Proof.
  split; cbn [toy_crypto aead_seal aead_open hkdf_expand sha512 poly1305_padded ed_public ed_sign
              ed_valid_key ed_verify_strict x_public x_dh].
  - intros k n a m c H. destruct (Z.ltb_spec (Z.of_nat (length m)) (2 ^ 32)); [|done].
    injection H as <-. rewrite length_app, length_toy_tag, Nat.add_sub.
    rewrite take_app_length, drop_app_length.
    rewrite bool_decide_true by done. rewrite (proj2 (Nat.leb_le _ _)) by lia. simpl.
    by rewrite (proj2 (Z.ltb_lt _ _)) by done.
  - intros k n a m c H. destruct (_ && _) eqn:E; [|done]. injection H as <-.
    apply andb_true_iff in E as [[E1 E2%bool_decide_eq_true]%andb_true_iff E3].
    rewrite E3, <- E2. by rewrite take_drop.
  - intros k n a m H. by rewrite (proj2 (Z.ltb_lt _ _)) by done.
  - intros k n a m c H. destruct (_ <? _)%Z; [|done]. injection H as <-.
    by rewrite length_app, length_toy_tag.
  - intros ikm salt info n H. rewrite (proj2 (Nat.leb_le _ _)) by done.
    eexists. split; [done|]. apply length_le_bytes.
  - intros m. unfold toy_digest. rewrite length_app, length_replicate. done.
  - intros. apply length_toy_tag.
  - intros. apply length_le_bytes.
  - intros. apply length_le_bytes.
  - intros. by rewrite length_le_bytes.
  - intros. by apply bool_decide_eq_true.
  - intros. apply length_le_bytes.
  - intros. apply length_le_bytes.
  - intros a b. apply le_Z_inj; [by rewrite !length_le_bytes|]. rewrite !le_Z_le_bytes.
    rewrite !Z.mul_mod_idemp_r by lia. f_equal. ring.
Qed.

(** ** Keystream *)

Lemma byte_xor_involutive a b : byte_xor (byte_xor a b) b = a.
Proof.
  apply byteZ_inj. unfold byte_xor. rewrite !byteZ_Zbyte.
  rewrite <- (Z.mod_small (byteZ a) 256) at 2 by apply byteZ_range.
  apply Z.bits_inj'. intros n Hn. change 256%Z with (2 ^ 8)%Z.
  destruct (Z.ltb_spec n 8).
  - rewrite !Z.mod_pow2_bits_low, Z.lxor_spec, Z.mod_pow2_bits_low, Z.lxor_spec by lia.
    by destruct (Z.testbit (byteZ a) n), (Z.testbit (byteZ b) n).
  - by rewrite !Z.mod_pow2_bits_high by lia.
Qed.

Lemma length_apply_keystream `{Crypto} c buf : length (apply_keystream c buf).1 = length buf.
Proof.
  unfold apply_keystream. simpl. rewrite length_zip_with, length_fmap, length_seq. lia.
Qed.

(** Applying the keystream twice from one position restores the buffer. *)
Lemma apply_keystream_involutive `{Crypto} c buf :
  (apply_keystream c (apply_keystream c buf).1).1 = buf.
Proof.
  unfold apply_keystream at 1. cbn [fst]. rewrite length_apply_keystream.
  unfold apply_keystream. cbn [fst]. generalize (ci_pos c). induction buf as [|b buf IH]; intros p; [done|].
  simpl. rewrite byte_xor_involutive. f_equal. apply IH.
Qed.

(** ** Nonces *)

Lemma length_copy_at dst i src :
  i + length src <= length dst -> length (copy_at dst i src) = length dst.
Proof.
  intros H. unfold copy_at. rewrite !length_app, length_take, length_drop. lia.
Qed.

Lemma length_hap_nonce label : length (hap_nonce label) = 12.
Proof.
  unfold hap_nonce. apply length_copy_at. rewrite length_take, length_replicate. lia.
Qed.

(** ** MAC input *)

Lemma pad16_spec fuel d :
  16 - length d mod 16 <= fuel \/ length d mod 16 = 0 ->
  length (pad16 fuel d) mod 16 = 0 /\ exists k, k < 16 /\ pad16 fuel d = d ++ replicate k x00.
Proof.
  revert d. induction fuel as [|fuel IH]; intros d Hf; cbn [pad16].
  { destruct Hf as [Hf|Hf]; [pose proof (Nat.mod_upper_bound (length d) 16); lia|].
    split; [done|]. exists 0. split; [lia|]. by rewrite app_nil_r. }
  destruct (Nat.eqb_spec (length d mod 16) 0) as [E|E].
  { split; [done|]. exists 0. split; [lia|]. by rewrite app_nil_r. }
  destruct (IH (d ++ [x00])) as (H1 & k & Hk & H2).
  { rewrite length_app. simpl.
    pose proof (Nat.div_mod (length d) 16). pose proof (Nat.div_mod (length d + 1) 16).
    pose proof (Nat.mod_upper_bound (length d) 16). pose proof (Nat.mod_upper_bound (length d + 1) 16).
    lia. }
  split; [done|]. rewrite H2. exists (S k). split.
  - rewrite H2, !length_app, length_replicate in H1. simpl in H1.
    pose proof (Nat.div_mod (length d) 16). pose proof (Nat.div_mod (length d + 1 + k) 16).
    destruct (decide (k = 15)); [|lia]. subst. exfalso. apply E.
    replace (length d + 1 + 15) with (length d + 1 * 16) in H1 by lia.
    by rewrite Nat.Div0.mod_add in H1.
  - by rewrite <- app_assoc.
Qed.

Lemma pad16_length_only (a b : bytes) k j :
  length a = length b -> k < 16 -> j < 16 ->
  length (a ++ replicate k x00) mod 16 = 0 -> length (b ++ replicate j x00) mod 16 = 0 -> k = j.
Proof.
  intros Hl Hk Hj. rewrite !length_app, !length_replicate, <- Hl. intros H1 H2.
  apply Nat.Div0.mod_divides in H1 as [x Hx], H2 as [y Hy]. lia.
Qed.

Lemma mac_data_inj_lemma a1 c1 a2 c2 :
  (Z.of_nat (length a1) < 2 ^ 64)%Z -> (Z.of_nat (length a2) < 2 ^ 64)%Z ->
  (Z.of_nat (length c1) < 2 ^ 64)%Z -> (Z.of_nat (length c2) < 2 ^ 64)%Z ->
  mac_data a1 c1 = mac_data a2 c2 -> a1 = a2 /\ c1 = c2.
Proof.
  intros Ha1 Ha2 Hc1 Hc2. unfold mac_data. intros Heq.
  apply app_inj_2 in Heq as [HP HL]; [|by rewrite !length_app, !length_le_bytes].
  apply app_inj_1 in HL as [La Lc]; [|by rewrite !length_le_bytes].
  apply (f_equal le_Z) in La, Lc. rewrite !le_Z_le_bytes_small in La, Lc by lia.
  assert (length a1 = length a2) as Ha by lia. assert (length c1 = length c2) as Hc by lia.
  destruct (pad16_spec 16 a1 ltac:(lia)) as (E1 & k1 & Hk1 & P1), (pad16_spec 16 a2 ltac:(lia)) as (E2 & k2 & Hk2 & P2).
  rewrite P1 in E1. rewrite P2 in E2.
  pose proof (pad16_length_only _ _ _ _ Ha Hk1 Hk2 E1 E2) as ->.
  rewrite P1, P2 in HP.
  destruct (pad16_spec 16 ((a1 ++ replicate k2 x00) ++ c1) ltac:(lia)) as (F1 & j1 & Hj1 & Q1).
  destruct (pad16_spec 16 ((a2 ++ replicate k2 x00) ++ c2) ltac:(lia)) as (F2 & j2 & Hj2 & Q2).
  rewrite Q1, Q2, <- !app_assoc in HP.
  apply app_inj_1 in HP as [-> HP]; [|done]. apply app_inv_head in HP.
  by apply app_inj_1 in HP as [-> _].
Qed.

Lemma length_broadcast_seal `{CryptoLaws} self gsn p id :
  length (broadcast_seal self gsn p id) = length p + 4.
Proof.
  unfold broadcast_seal. destruct (poly1305_key _) as [pk c].
  pose proof (length_apply_keystream c p) as Hl. destruct (apply_keystream c p) as [ct c'].
  simpl in Hl. rewrite length_app, length_take, poly1305_length, Hl. lia.
Qed.

(** What is sealed opens again, sixteen bytes longer. *)
Lemma seal_open `{CryptoLaws} key n pt :
  (Z.of_nat (length pt) < 2 ^ 32)%Z ->
  exists ct, chacha20poly1305_seal key n [] pt = Ok ct /\ chacha20poly1305_open key n [] ct = Ok pt /\
             length ct = length pt + 16.
Proof.
  intros Hl. destruct (aead_seal_total key n [] pt Hl) as [ct Hct]. exists ct.
  unfold chacha20poly1305_seal, chacha20poly1305_open, encrypt, decrypt.
  rewrite Hct, (aead_open_seal _ _ _ _ _ Hct). split; [done|]. split; [done|]. by eapply aead_seal_length.
Qed.

(** [open] accepts exactly what [seal] produces. *)
Lemma broadcast_open_sealed `{CryptoLaws} self gsn c id p :
  broadcast_open self gsn c id = Ok p <-> c = broadcast_seal self gsn p id.
Proof.
  split.
  - unfold broadcast_open, broadcast_seal. destruct (Nat.ltb_spec (length c) 4); [done|].
    destruct (poly1305_key _) as [pk ci].
    case_bool_decide as Ht; [|done]. simpl negb. cbv iota.
    set (ct := take (length c - 4) c) in *.
    pose proof (apply_keystream_involutive ci ct) as Hinv.
    destruct (apply_keystream ci ct) as [pt ci'] eqn:E1. intros [= <-].
    cbn [fst] in Hinv. destruct (apply_keystream ci pt) as [ct2 ci2] eqn:E2. simpl in Hinv.
    rewrite Hinv, Ht. symmetry. apply take_drop.
  - intros ->. unfold broadcast_open. rewrite length_broadcast_seal.
    rewrite (proj2 (Nat.ltb_ge _ _)) by lia. rewrite Nat.add_sub.
    unfold broadcast_seal. destruct (poly1305_key _) as [pk ci].
    pose proof (length_apply_keystream ci p) as Hl. pose proof (apply_keystream_involutive ci p) as Hinv.
    destruct (apply_keystream ci p) as [ct ci']. cbn [fst] in Hl, Hinv.
    rewrite take_app_length', drop_app_length' by done.
    rewrite bool_decide_true by done. cbn [negb].
    destruct (apply_keystream ci ct) as [p' ci2]. cbn [fst] in Hinv. by rewrite Hinv.
Qed.

(** * Properties *)

(** The broadcast cipher: [open] accepts exactly the messages [seal]
    produces under the same key, state number and advertising identifier, and
    returns the plaintext that was sealed. *)
Theorem broadcast_open_iff_seal `{CryptoLaws} self gsn c id p :
  broadcast_open self gsn c id = Ok p <-> c = broadcast_seal self gsn p id.
Proof. apply broadcast_open_sealed. Qed.

Lemma broadcast_open_iff_seal_witness :
  broadcast_open {| bk := replicate 32 x07 |} 77
    (broadcast_seal {| bk := replicate 32 x07 |} 77 [x01; x02; x03] (replicate 6 xaa)) (replicate 6 xaa)
  = Ok [x01; x02; x03].
Proof. by apply (broadcast_open_iff_seal (H := toy_crypto_laws)). Defined.

(** The MAC input of the broadcast cipher is unambiguous: distinct pairs of
    associated data and ciphertext never authenticate as the same bytes, so a tag
    computed for one pair says nothing about another. *)
Lemma mac_data_injective a1 c1 a2 c2 :
  (Z.of_nat (length a1) < 2 ^ 64)%Z -> (Z.of_nat (length a2) < 2 ^ 64)%Z ->
  (Z.of_nat (length c1) < 2 ^ 64)%Z -> (Z.of_nat (length c2) < 2 ^ 64)%Z ->
  mac_data a1 c1 = mac_data a2 c2 -> a1 = a2 /\ c1 = c2.
Proof. apply mac_data_inj_lemma. Qed.
