(* ===== verification/Stream.v ===== *)
(** * Incremental consumers of a byte stream

    The record layer and the HTTP demultiplexer both repeat one step on a
    buffer that TCP fills in pieces of its own choosing: either more bytes are
    needed, or a unit is taken off the front, or the stream is malformed.
    [StableStep] is what such a step promises; the theorems show that for a
    stable step the units extracted do not depend on how the stream is cut into
    reads. *)

From S2P Require Import Prelude.

(** ** The step and its repetition *)

Section consume.
Context {S O E : Type}.

(** [Ok None]: more bytes are needed; [Ok (Some (o, k, s'))]: the unit [o] takes
    [k] bytes. *)
Definition step_fn : Type := S -> bytes -> result E (option (O * nat * S)).

Fixpoint consume_fuel (fuel : nat) (p : step_fn) (s : S) (buf : bytes)
    : result E (list O * S * bytes) :=
  match fuel with
  | 0 => Fault OutOfFuel
  | Datatypes.S fuel' =>
      match p s buf with
      | Ok None => Ok ([], s, buf)
      | Ok (Some (o, k, s')) =>
          match consume_fuel fuel' p s' (drop k buf) with
          | Ok (os, s'', rest) => Ok (o :: os, s'', rest)
          | Err e => Err e
          | Fault f => Fault f
          end
      | Err e => Err e
      | Fault f => Fault f
      end
  end.

Definition consume (p : step_fn) (s : S) (buf : bytes) : result E (list O * S * bytes) :=
  consume_fuel (Datatypes.S (length buf)) p s buf.

(** Feed a sequence of reads, keeping the unconsumed tail between reads. *)
Fixpoint feed (p : step_fn) (s : S) (buf : bytes) (reads : list bytes)
    : result E (list O * S * bytes) :=
  match reads with
  | [] => Ok ([], s, buf)
  | r :: reads' =>
      match consume p s (buf ++ r) with
      | Ok (os, s', rest) =>
          match feed p s' rest reads' with
          | Ok (os', s'', rest') => Ok (os ++ os', s'', rest')
          | Err e => Err e
          | Fault f => Fault f
          end
      | Err e => Err e
      | Fault f => Fault f
      end
  end.
End consume.

(** What a step promises on buffers that fit in memory: a unit takes at least one
    byte and no more than there are, and neither a unit nor an error is revised
    by bytes that arrive later. *)
Class StableStep {S O E} (p : @step_fn S O E) : Prop := {
  step_bounds s buf o k s' :
    fits buf -> p s buf = Ok (Some (o, k, s')) -> 0 < k <= length buf;
  step_unit_stable s buf more o k s' :
    fits (buf ++ more) -> p s buf = Ok (Some (o, k, s')) -> p s (buf ++ more) = Ok (Some (o, k, s'));
  step_err_stable s buf more e :
    fits (buf ++ more) -> p s buf = Err e -> p s (buf ++ more) = Err e;
  step_fault_stable s buf more f :
    fits (buf ++ more) -> p s buf = Fault f -> p s (buf ++ more) = Fault f;
}.

(** * Lemmas *)

Section stable.
Context {S O E : Type} (p : @step_fn S O E) `{!StableStep p}.

Lemma consume_fuel_enough f1 f2 s buf :
  fits buf -> length buf < f1 -> length buf < f2 ->
  consume_fuel f1 p s buf = consume_fuel f2 p s buf.
Proof using All.
  revert f2 s buf. induction f1 as [|f1 IH]; intros f2 s buf Hfit H1 H2; [lia|].
  destruct f2 as [|f2]; [lia|]. cbn [consume_fuel].
  destruct (p s buf) as [[[[o k] s']|]|e|f] eqn:Ep; try done.
  apply step_bounds in Ep; [|done]. by rewrite (IH f2) by (fits_tac || (rewrite length_drop; lia)).
Qed.

Lemma consume_unfold s buf :
  fits buf ->
  consume p s buf =
    match p s buf with
    | Ok None => Ok ([], s, buf)
    | Ok (Some (o, k, s')) =>
        match consume p s' (drop k buf) with
        | Ok (os, s'', rest) => Ok (o :: os, s'', rest)
        | Err e => Err e
        | Fault f => Fault f
        end
    | Err e => Err e
    | Fault f => Fault f
    end.
Proof using All.
  intros Hfit. unfold consume at 1. cbn [consume_fuel].
  destruct (p s buf) as [[[[o k] s']|]|e|f] eqn:Ep; try done.
  apply step_bounds in Ep; [|done]. unfold consume.
  by rewrite (consume_fuel_enough (length buf) (Datatypes.S (length (drop k buf))))
    by (fits_tac || (rewrite length_drop; lia)).
Qed.

(** Induction on the buffer, one unit at a time. *)
Lemma consume_ind (P : S -> bytes -> Prop) :
  (forall s buf, fits buf ->
     (forall o k s', p s buf = Ok (Some (o, k, s')) -> P s' (drop k buf)) -> P s buf) ->
  forall s buf, fits buf -> P s buf.
Proof using All.
  intros HP s buf. remember (length buf) as n eqn:Hn. revert s buf Hn.
  induction n as [n IH] using lt_wf_ind. intros s buf -> Hfit. apply HP; [done|].
  intros o k s' Ep%step_bounds; [|done].
  eapply IH; [|done|fits_tac]. rewrite length_drop. lia.
Qed.

(** The consumer never runs out of fuel. *)
Lemma consume_returns s buf :
  fits buf -> (forall s buf, fits buf -> returns (p s buf)) -> returns (consume p s buf).
Proof using All.
  intros Hfit Hp. revert s buf Hfit. apply consume_ind. intros s buf Hfit IH.
  rewrite consume_unfold by done.
  pose proof (Hp s buf Hfit) as Hr. destruct (p s buf) as [[[[o k] s']|]|e|f] eqn:Ep; try done.
  specialize (IH o k s' eq_refl). by destruct (consume p s' (drop k buf)) as [[[? ?] ?]|?|?].
Qed.

(** The tail a consumer leaves behind is a suffix that yields no further unit. *)
Lemma consume_rest s buf os s' rest :
  fits buf -> consume p s buf = Ok (os, s', rest) ->
  p s' rest = Ok None /\ exists taken, buf = taken ++ rest.
Proof using All.
  intros Hfit. revert os. revert s buf Hfit. refine (consume_ind _ _).
  intros s buf Hfit IH os H. rewrite consume_unfold in H by done.
  destruct (p s buf) as [[[[o k] s1]|]|e|f] eqn:Ep; simplify_eq.
  - destruct (consume p s1 (drop k buf)) as [[[os' s2] r2]|?|?] eqn:Ec; simplify_eq.
    destruct (IH o k s1 eq_refl _ Ec) as [Hn (t & Ht)].
    split; [done|]. exists (take k buf ++ t). by rewrite <- app_assoc, <- Ht, take_drop.
  - split; [done|]. by exists [].
Qed.

(** Consuming what has arrived, then the leftover with the rest of the stream, is
    consuming the whole stream. *)
Lemma consume_app s a b os s' rest :
  fits (a ++ b) -> consume p s a = Ok (os, s', rest) ->
  consume p s (a ++ b) =
    match consume p s' (rest ++ b) with
    | Ok (os', s'', rest') => Ok (os ++ os', s'', rest')
    | Err e => Err e
    | Fault f => Fault f
    end.
Proof using All.
  intros Hfit. assert (fits a) as Ha by fits_tac. revert os Hfit. revert s a Ha.
  refine (consume_ind _ _).
  intros s a Ha IH os Hfit H. rewrite consume_unfold in H by done.
  destruct (p s a) as [[[[o k] s1]|]|e|f] eqn:Ep; simplify_eq.
  - pose proof (step_bounds _ _ _ _ _ Ha Ep) as Hk.
    destruct (consume p s1 (drop k a)) as [[[os1 s2] r2]|?|?] eqn:Ec; simplify_eq.
    rewrite consume_unfold by done. rewrite (step_unit_stable _ _ b _ _ _ Hfit Ep).
    rewrite drop_app_le by lia. rewrite (IH o k s1 eq_refl _ ltac:(fits_tac) Ec).
    by destruct (consume p s' (rest ++ b)) as [[[? ?] ?]|?|?].
  - by destruct (consume p s' (rest ++ b)) as [[[? ?] ?]|?|?].
Qed.

Lemma consume_err_app s a b e :
  fits (a ++ b) -> consume p s a = Err e -> consume p s (a ++ b) = Err e.
Proof using All.
  intros Hfit. assert (fits a) as Ha by fits_tac. revert Hfit. revert s a Ha.
  refine (consume_ind _ _). intros s a Ha IH Hfit H.
  rewrite consume_unfold in H by done.
  rewrite consume_unfold by done. destruct (p s a) as [[[[o k] s1]|]|e'|f] eqn:Ep; simplify_eq.
  - pose proof (step_bounds _ _ _ _ _ Ha Ep) as Hk.
    destruct (consume p s1 (drop k a)) as [[[os1 s2] r2]|?|?] eqn:Ec; simplify_eq.
    rewrite (step_unit_stable _ _ b _ _ _ Hfit Ep), drop_app_le by lia.
    by rewrite (IH o k s1 eq_refl ltac:(fits_tac) Ec).
  - by rewrite (step_err_stable _ _ b _ Hfit Ep).
Qed.

Lemma consume_fault_app s a b f :
  fits (a ++ b) -> consume p s a = Fault f -> consume p s (a ++ b) = Fault f.
Proof using All.
  intros Hfit. assert (fits a) as Ha by fits_tac. revert Hfit. revert s a Ha.
  refine (consume_ind _ _). intros s a Ha IH Hfit H.
  rewrite consume_unfold in H by done.
  rewrite consume_unfold by done. destruct (p s a) as [[[[o k] s1]|]|e'|f'] eqn:Ep; simplify_eq.
  - pose proof (step_bounds _ _ _ _ _ Ha Ep) as Hk.
    destruct (consume p s1 (drop k a)) as [[[os1 s2] r2]|?|?] eqn:Ec; simplify_eq.
    rewrite (step_unit_stable _ _ b _ _ _ Hfit Ep), drop_app_le by lia.
    by rewrite (IH o k s1 eq_refl ltac:(fits_tac) Ec).
  - by rewrite (step_fault_stable _ _ b _ Hfit Ep).
Qed.

(** A stream consumed to its end, at any cut. *)
Lemma consume_split s a b os s' rest :
  fits (a ++ b) -> consume p s (a ++ b) = Ok (os, s', rest) ->
  exists os1 s1 r1 os2, consume p s a = Ok (os1, s1, r1) /\ consume p s1 (r1 ++ b) = Ok (os2, s', rest) /\
    os = os1 ++ os2 /\ p s1 r1 = Ok None /\ fits (r1 ++ b).
Proof using All.
  intros Hfit H. destruct (consume p s a) as [[[os1 s1] r1]|e|f] eqn:Ec.
  - rewrite (consume_app _ _ _ _ _ _ Hfit Ec) in H.
    destruct (consume p s1 (r1 ++ b)) as [[[os2 s2] r2]|?|?] eqn:E2; simplify_eq.
    apply consume_rest in Ec as [Hn [t Ht]]; [|fits_tac].
    exists os1, s1, r1, os2. do 4 (split; [done|]). rewrite Ht in Hfit. fits_tac.
  - by rewrite (consume_err_app _ _ _ _ Hfit Ec) in H.
  - by rewrite (consume_fault_app _ _ _ _ Hfit Ec) in H.
Qed.

Lemma consume_none s buf : fits buf -> p s buf = Ok None -> consume p s buf = Ok ([], s, buf).
Proof using All. intros Hfit Hn. by rewrite consume_unfold, Hn. Qed.

Lemma consume_no_units s buf s' rest : fits buf -> consume p s buf = Ok ([], s', rest) -> rest = buf /\ s' = s.
Proof using All.
  intros Hfit H. rewrite consume_unfold in H by done.
  destruct (p s buf) as [[[[o k] s1]|]|?|?]; simplify_eq; [|done].
  by destruct (consume p s1 _) as [[[? ?] ?]|?|?].
Qed.

(** Segmentation independence: the units and the tail after any sequence of reads
    are those of the concatenated stream. *)
Lemma feed_consume s buf reads os s' rest :
  fits (buf ++ mjoin reads) ->
  p s buf = Ok None -> feed p s buf reads = Ok (os, s', rest) ->
  consume p s (buf ++ mjoin reads) = Ok (os, s', rest).
Proof using All.
  revert s buf os. induction reads as [|r reads IH]; intros s buf os Hfit Hn H; simpl in H.
  { simplify_eq. simpl. simpl in Hfit. rewrite app_nil_r, consume_unfold by fits_tac. by rewrite Hn. }
  simpl in Hfit |- *. rewrite app_assoc in Hfit |- *.
  destruct (consume p s (buf ++ r)) as [[[os1 s1] r1]|?|?] eqn:Ec; simplify_eq.
  destruct (feed p s1 r1 reads) as [[[os2 s2] r2]|?|?] eqn:Ef; simplify_eq.
  rewrite (consume_app _ _ _ _ _ _ Hfit Ec).
  apply consume_rest in Ec as [Hn1 [t Ht]]; [|fits_tac].
  rewrite (IH s1 r1 os2); [done| |done|done].
  rewrite Ht in Hfit. fits_tac.
Qed.

Lemma consume_feed s buf reads os s' rest :
  fits (buf ++ mjoin reads) ->
  p s buf = Ok None -> consume p s (buf ++ mjoin reads) = Ok (os, s', rest) ->
  feed p s buf reads = Ok (os, s', rest).
Proof using All.
  intros Hfit Hn H. revert s buf os Hfit Hn H.
  induction reads as [|r reads IH]; intros s buf os Hfit Hn H.
  { simpl in H. rewrite app_nil_r, consume_unfold, Hn in H by fits_tac. by simplify_eq. }
  simpl in *. rewrite app_assoc in H, Hfit.
  destruct (consume p s (buf ++ r)) as [[[os1 s1] r1]|e|f] eqn:Ec.
  - rewrite (consume_app _ _ _ _ _ _ Hfit Ec) in H.
    destruct (consume p s1 (r1 ++ mjoin reads)) as [[[os2 s2] r2]|?|?] eqn:E2; simplify_eq.
    apply consume_rest in Ec as [Hn1 [t Ht]]; [|fits_tac].
    rewrite (IH s1 r1 os2); [done| |done|done]. rewrite Ht in Hfit. fits_tac.
  - by rewrite (consume_err_app _ _ _ _ Hfit Ec) in H.
  - by rewrite (consume_fault_app _ _ _ _ Hfit Ec) in H.
Qed.
End stable.
