(* ===== verification/RecordLayer.v ===== *)
(** * [hap-transport/src/record.rs]: the secure record layer

    Frames of at most 1024 plaintext bytes: a two-byte little-endian length (also
    the associated data), the ciphertext, the tag.  The counter is explicit
    state: each operation returns its result and the counter afterwards. *)

From S2P Require Import Prelude Tlv8 Crypto Stream.

(** ** Errors ([error.rs]); an [std::io::Error] is its raw code *)

Inductive TransportError :=
| Io (code : Z)
| Mdns (msg : list Z)
| DiscoveryTxt (key : list Z)
| MalformedHttp (msg : list Z)
| UnsupportedEncoding (value : list Z)
| InvalidFrameLength (n : nat)
| Decrypt
| ConnectionClosed
| SessionClosed
| NoResponse.

(** ** Frames *)

Definition MAX_BLOCK : nat := 1024.
Definition TAG_LEN : nat := 16.
Definition LEN_PREFIX : nat := 2.

(** [NonceCounter] is its [u64]. *)
Definition NonceCounter : Type := Z.
Definition counter_new : NonceCounter := 0%Z.

Definition nonce (c : NonceCounter) : bytes := copy_at (replicate 12 x00) 4 (le_bytes 8 c).
Definition advance (c : NonceCounter) : NonceCounter := wrapping_add 64 c 1.

Definition frame_len (declared : nat) : nat := LEN_PREFIX + declared + TAG_LEN.

Section record.
Context `{C : Crypto}.

Definition encrypt_frame (key : bytes) (counter : NonceCounter) (block : bytes)
    : result TransportError bytes * NonceCounter :=
  if MAX_BLOCK <? length block then (Err (InvalidFrameLength (length block)), counter)
  else if (2 ^ 16 <=? Z.of_nat (length block))%Z then (Err (InvalidFrameLength (length block)), counter)
  else
    let aad := le_bytes 2 (Z.of_nat (length block)) in
    match chacha20poly1305_seal key (nonce counter) aad block with
    | Ok ciphertext_and_tag => (Ok (aad ++ ciphertext_and_tag), advance counter)
    | Err _ => (Err (InvalidFrameLength (length block)), counter)
    | Fault f => (Fault f, counter)
    end.

Definition decrypt_frame (key : bytes) (counter : NonceCounter) (buf : bytes)
    : result TransportError (option bytes) * NonceCounter :=
  if length buf <? LEN_PREFIX then (Ok None, counter)
  else
    match index (E:=TransportError) buf 0, index (E:=TransportError) buf 1 with
    | Ok b0, Ok b1 =>
        let declared := Z.to_nat (le_Z [b0; b1]) in
        if MAX_BLOCK <? declared then (Err (InvalidFrameLength declared), counter)
        else
          let total := LEN_PREFIX + declared + TAG_LEN in
          if length buf <? total then (Ok None, counter)
          else
            match slice (E:=TransportError) buf 0 LEN_PREFIX,
                  slice (E:=TransportError) buf LEN_PREFIX total with
            | Ok aad, Ok ciphertext_and_tag =>
                match chacha20poly1305_open key (nonce counter) aad ciphertext_and_tag with
                | Ok plaintext => (Ok (Some plaintext), advance counter)
                | Err _ => (Err Decrypt, counter)
                | Fault f => (Fault f, counter)
                end
            | _, _ => (Fault Panicked, counter)
            end
    | _, _ => (Fault Panicked, counter)
    end.

(** The frames of a sequence of blocks, the counter threaded through. *)
Fixpoint encrypt_blocks (key : bytes) (counter : NonceCounter) (blocks : list bytes)
    : result TransportError bytes * NonceCounter :=
  match blocks with
  | [] => (Ok [], counter)
  | block :: blocks' =>
      match encrypt_frame key counter block with
      | (Ok frame, counter) =>
          match encrypt_blocks key counter blocks' with
          | (Ok frames, counter) => (Ok (frame ++ frames), counter)
          | r => r
          end
      | r => r
      end
  end.

(** ** Specification *)

(** The frame of a block under a counter value. *)
Definition frame_of (key : bytes) (counter : NonceCounter) (block frame : bytes) : Prop :=
  exists ct, length block <= MAX_BLOCK /\
    aead_seal key (nonce counter) (le_bytes 2 (Z.of_nat (length block))) block = Some ct /\
    frame = le_bytes 2 (Z.of_nat (length block)) ++ ct.

(** [decrypt_frame] and the caller's removal of the frame, as one step of a
    stream consumer. *)
Definition frame_step (key : bytes) : step_fn (S := NonceCounter) (O := bytes) (E := TransportError) :=
  fun counter buf =>
    match decrypt_frame key counter buf with
    | (Ok (Some block), counter) => Ok (Some (block, frame_len (length block), counter))
    | (Ok None, _) => Ok None
    | (Err e, _) => Err e
    | (Fault f, _) => Fault f
    end.

End record.

(** * Lemmas *)

Lemma length_nonce c : length (nonce c) = 12.
Proof. apply length_copy_at. by rewrite length_le_bytes. Qed.

Lemma nonce_inj_lemma a b : in_u 64 a -> in_u 64 b -> nonce a = nonce b -> a = b.
Proof.
  unfold in_u, nonce, copy_at. intros Ha Hb H. rewrite !length_le_bytes in H.
  apply app_inv_head in H. apply app_inj_1 in H as [H _]; [|by rewrite !length_le_bytes].
  apply (f_equal le_Z) in H. by rewrite !le_Z_le_bytes_small in H.
Qed.

Section record_lemmas.
Context `{HL : CryptoLaws}.
Implicit Types (key buf block : bytes) (c : NonceCounter).

Lemma aead_open_length key n a ct m : aead_open key n a ct = Some m -> length ct = length m + 16.
Proof using HL. intros H%aead_seal_open. by apply aead_seal_length in H. Qed.

Lemma frame_of_length key c block frame :
  frame_of key c block frame -> length frame = frame_len (length block).
Proof using HL.
  intros (ct & _ & Hs & ->). apply aead_seal_length in Hs.
  rewrite length_app, length_le_bytes, Hs. unfold frame_len, LEN_PREFIX, TAG_LEN. lia.
Qed.

(** Every block within the limit has a frame, and the counter advances. *)
Lemma encrypt_frame_spec key c block :
  length block <= MAX_BLOCK ->
  exists frame, encrypt_frame key c block = (Ok frame, advance c) /\ frame_of key c block frame.
Proof using HL.
  intros Hl. unfold MAX_BLOCK in Hl. unfold encrypt_frame.
  rewrite (proj2 (Nat.ltb_ge _ _)) by (unfold MAX_BLOCK; lia).
  rewrite (proj2 (Z.leb_gt _ _)) by lia.
  destruct (aead_seal_total key (nonce c) (le_bytes 2 (Z.of_nat (length block))) block ltac:(lia)) as [ct Hct].
  unfold chacha20poly1305_seal, encrypt. rewrite Hct. simpl. eexists. split; [done|].
  by exists ct.
Qed.

(** What [decrypt_frame] accepts is a frame of the plaintext it returns. *)
Lemma decrypt_frame_sound key c buf block c' :
  decrypt_frame key c buf = (Ok (Some block), c') ->
  c' = advance c /\ exists frame rest, buf = frame ++ rest /\ frame_of key c block frame.
Proof using HL.
  unfold decrypt_frame. destruct (Nat.ltb_spec (length buf) LEN_PREFIX) as [|H2]; [done|].
  unfold LEN_PREFIX in H2.
  destruct buf as [|b0 [|b1 buf]]; simpl in H2; try lia. unfold index. simpl lookup. cbv iota.
  cbn beta iota.
  set (declared := Z.to_nat (le_Z [b0; b1])).
  destruct (Nat.ltb_spec MAX_BLOCK declared) as [|Hd]; [done|].
  destruct (Nat.ltb_spec (length (b0 :: b1 :: buf)) (LEN_PREFIX + declared + TAG_LEN)) as [|Ht]; [done|].
  unfold LEN_PREFIX, TAG_LEN in *. simpl length in Ht.
  rewrite !slice_ok by (simpl; lia). simpl take. simpl drop. rewrite ?take_0, ?drop_0.
  replace (declared + 16 - 0) with (declared + 16) by lia.
  unfold chacha20poly1305_open, decrypt. destruct (aead_open _ _ _ _) as [m|] eqn:Eo; [|done].
  intros [= -> <-]. split; [done|].
  pose proof (aead_open_length _ _ _ _ _ Eo) as Hl. rewrite length_take in Hl.
  apply aead_seal_open in Eo. 
  assert (length block = declared) as Hb by lia.
  assert (le_bytes 2 (Z.of_nat (length block)) = [b0; b1]) as Hlen.
  { rewrite Hb. unfold declared. pose proof (le_Z_bound [b0; b1]). rewrite Z2Nat.id by lia.
    exact (le_bytes_le_Z [b0; b1]). }
  eexists ([b0; b1] ++ take (declared + 16) buf), (drop (declared + 16) buf).
  split; [simpl; by rewrite take_drop|].
  exists (take (declared + 16) buf). rewrite Hlen. split; [lia|]. done.
Qed.

(** A frame at the front of the buffer is decrypted, whatever follows it. *)
Lemma decrypt_frame_complete key c block frame rest :
  frame_of key c block frame ->
  decrypt_frame key c (frame ++ rest) = (Ok (Some block), advance c).
Proof using HL.
  intros (ct & Hl & Hs & ->). pose proof (aead_seal_length _ _ _ _ _ Hs) as Hlen.
  apply aead_open_seal in Hs. unfold MAX_BLOCK in Hl.
  unfold decrypt_frame. rewrite !length_app, length_le_bytes, Hlen.
  unfold LEN_PREFIX, TAG_LEN. rewrite (proj2 (Nat.ltb_ge _ _)) by lia.
  set (n := Z.of_nat (length block)) in *.
  assert (le_Z (le_bytes 2 n) = n) as Hn by (apply le_Z_le_bytes_small; simpl; lia).
  destruct (le_bytes 2 n) as [|b0 [|b1 [|]]] eqn:Eb; try done.
  simpl app. unfold index. simpl lookup. cbv iota. cbn beta iota.
  rewrite Hn. unfold n. rewrite Nat2Z.id.
  rewrite (proj2 (Nat.ltb_ge _ _)) by (unfold MAX_BLOCK; lia).
  rewrite (proj2 (Nat.ltb_ge _ _)) by lia.
  rewrite !slice_ok by (simpl; rewrite length_app; lia). simpl take. simpl drop. rewrite ?take_0, ?drop_0.
  replace (length block + 16 - 0) with (length ct) by lia.
  rewrite take_app_length. unfold chacha20poly1305_open, decrypt. by rewrite Hs.
Qed.

(** The outcome on a buffer depends on the declared length only; a failure is
    not revised by later bytes. *)
Lemma decrypt_frame_err_stable key c buf more e c' :
  decrypt_frame key c buf = (Err e, c') -> decrypt_frame key c (buf ++ more) = (Err e, c').
Proof.
  unfold decrypt_frame. destruct (Nat.ltb_spec (length buf) LEN_PREFIX) as [|H2]; [done|].
  unfold LEN_PREFIX in H2.
  destruct buf as [|b0 [|b1 buf]]; simpl in H2; try lia.
  rewrite (proj2 (Nat.ltb_ge _ _)) by (unfold LEN_PREFIX; simpl; lia).
  unfold index. simpl lookup. cbv iota. cbn beta iota.
  destruct (Nat.ltb_spec MAX_BLOCK (Z.to_nat (le_Z [b0; b1]))) as [|Hd]; [done|].
  set (total := LEN_PREFIX + Z.to_nat (le_Z [b0; b1]) + TAG_LEN).
  destruct (Nat.ltb_spec (length (b0 :: b1 :: buf)) total) as [|Ht]; [done|].
  rewrite (proj2 (Nat.ltb_ge _ _)) by (rewrite length_app; lia).
  rewrite !slice_ok by (unfold total, LEN_PREFIX, TAG_LEN in *; rewrite ?length_app; simpl in *; lia).
  replace (take (total - LEN_PREFIX) (drop LEN_PREFIX ((b0 :: b1 :: buf) ++ more)))
    with (take (total - LEN_PREFIX) (drop LEN_PREFIX (b0 :: b1 :: buf))); [done|].
  unfold LEN_PREFIX, TAG_LEN in *. simpl length in Ht. simpl app. rewrite !skipn_cons, !drop_0.
  rewrite take_app_le by lia. done.
Qed.

Lemma decrypt_frame_returns key c buf : returns (decrypt_frame key c buf).1.
Proof.
  unfold decrypt_frame. destruct (Nat.ltb_spec (length buf) LEN_PREFIX) as [|H2]; [done|].
  unfold LEN_PREFIX in H2. destruct buf as [|b0 [|b1 buf]]; simpl in H2; try lia.
  unfold index. simpl lookup. cbv iota. cbn beta iota.
  destruct (Nat.ltb_spec MAX_BLOCK (Z.to_nat (le_Z [b0; b1]))) as [|Hd]; [done|].
  set (total := LEN_PREFIX + Z.to_nat (le_Z [b0; b1]) + TAG_LEN).
  destruct (Nat.ltb_spec (length (b0 :: b1 :: buf)) total) as [|Ht]; [done|].
  rewrite !slice_ok by (unfold total, LEN_PREFIX, TAG_LEN in *; simpl in *; lia).
  unfold chacha20poly1305_open, decrypt. by destruct (aead_open _ _ _ _).
Qed.

#[export] Instance frame_step_stable key : StableStep (frame_step key).
Proof using HL.
  split; unfold frame_step; intros c buf.
  - intros o k c' _ H. destruct (decrypt_frame key c buf) as [[[b|]|?|?] c1] eqn:Ed; simplify_eq.
    apply decrypt_frame_sound in Ed as (_ & frame & rest & -> & Hf).
    apply frame_of_length in Hf. rewrite length_app, Hf. unfold frame_len, LEN_PREFIX. lia.
  - intros more o k c' _ H. destruct (decrypt_frame key c buf) as [[[b|]|?|?] c1] eqn:Ed; simplify_eq.
    apply decrypt_frame_sound in Ed as (-> & frame & rest & -> & Hf).
    rewrite <- app_assoc. by rewrite (decrypt_frame_complete _ _ _ _ _ Hf).
  - intros more e _ H. destruct (decrypt_frame key c buf) as [[[b|]|?|?] c1] eqn:Ed; simplify_eq.
    by rewrite (decrypt_frame_err_stable _ _ _ _ _ _ Ed).
  - intros more f _ H. pose proof (decrypt_frame_returns key c buf) as Hr.
    by destruct (decrypt_frame key c buf) as [[[b|]|?|?] c1].
Qed.

Lemma frame_step_returns key c buf : returns (frame_step key c buf).
Proof.
  unfold frame_step. pose proof (decrypt_frame_returns key c buf) as H.
  by destruct (decrypt_frame key c buf) as [[[b|]|?|?] c1].
Qed.

(** Consuming the frames of a list of blocks recovers the blocks. *)
Lemma encrypt_blocks_consume key c blocks :
  Forall (fun b => length b <= MAX_BLOCK) blocks ->
  exists wire c', encrypt_blocks key c blocks = (Ok wire, c') /\
    (forall rest, fits (wire ++ rest) -> consume (frame_step key) c (wire ++ rest) =
       match consume (frame_step key) c' rest with
       | Ok (os, c'', r) => Ok (blocks ++ os, c'', r)
       | Err e => Err e
       | Fault f => Fault f
       end).
Proof using HL.
  intros Hb. revert c. induction Hb as [|b blocks Hb _ IH]; intros c.
  { exists [], c. split; [done|]. intros rest _. simpl. by destruct (consume _ _ _) as [[[? ?] ?]|?|?]. }
  destruct (encrypt_frame_spec key c b Hb) as (frame & Ef & Hf).
  destruct (IH (advance c)) as (wire & c' & Ew & Hc).
  exists (frame ++ wire), c'. split; [cbn [encrypt_blocks]; by rewrite Ef, Ew|].
  intros rest Hfit. rewrite <- app_assoc in Hfit |- *. rewrite consume_unfold by (done || apply _).
  unfold frame_step at 1. rewrite (decrypt_frame_complete _ _ _ _ _ Hf).
  rewrite <- (frame_of_length _ _ _ _ Hf), drop_app_length, Hc by fits_tac.
  by destruct (consume _ _ _) as [[[? ?] ?]|?|?].
Qed.
End record_lemmas.

#[export] Hint Resolve frame_step_returns : hap.

(** The counter before the [n]-th frame of a direction. *)
Definition counter_at (n : nat) : NonceCounter := Nat.iter n advance counter_new.

Lemma counter_at_value n : counter_at n = (Z.of_nat n mod 2 ^ 64)%Z.
Proof.
  induction n as [|n IH]; [done|].
  change (counter_at (S n)) with (advance (counter_at n)). rewrite IH.
  unfold advance, wrapping_add. rewrite Zplus_mod_idemp_l. f_equal. lia.
Qed.

(** * Properties *)

(** ** The record format, stated apart from the code *)

(** A block of at most 1024 bytes, sealed under a counter: the nonce is four zero bytes and
    the counter, least significant byte first; the length prefix is the associated data. *)
Definition record_sealed `{Crypto} (key : bytes) (counter : Z) (block ct : bytes) : Prop :=
  length block <= 1024 /\
  aead_seal key (replicate 4 x00 ++ le_bytes 8 counter) (le_bytes 2 (Z.of_nat (length block))) block = Some ct.

(** The buffer declares [n] bytes. *)
Definition declares_length (buf : bytes) (n : nat) : Prop := 2 <= length buf /\ Z.of_nat n = le_Z (take 2 buf).

Lemma nonce_le c : nonce c = replicate 4 x00 ++ le_bytes 8 c.
Proof. unfold nonce, copy_at. rewrite length_le_bytes. cbn [replicate take Nat.add drop]. by rewrite app_nil_r. Qed.

Lemma record_sealed_frame `{Crypto} key c block frame :
  frame_of key c block frame <->
  exists ct, record_sealed key c block ct /\ frame = le_bytes 2 (Z.of_nat (length block)) ++ ct.
Proof.
  unfold frame_of, record_sealed. rewrite nonce_le. split; [intros (ct & ? & ? & ->)|intros (ct & [? ?] & ->)]; by exists ct.
Qed.

(** What [decrypt_frame] does not accept. *)
Lemma decrypt_frame_refusals `{CryptoLaws} key c buf :
  match decrypt_frame key c buf with
  | (Ok (Some _), _) => True
  | (Ok None, c') => c' = c /\ (length buf < 2 \/ exists n, declares_length buf n /\ n <= 1024 /\ length buf < 2 + n + 16)
  | (Err (InvalidFrameLength n), c') => c' = c /\ declares_length buf n /\ 1024 < n
  | (Err Decrypt, c') => c' = c /\ exists n, declares_length buf n /\ n <= 1024 /\ 2 + n + 16 <= length buf
  | _ => False
  end.
Proof.
  unfold decrypt_frame. destruct (Nat.ltb_spec (length buf) LEN_PREFIX) as [|H2]; [by split; [|left]|].
  unfold LEN_PREFIX in H2. destruct buf as [|b0 [|b1 buf]]; simpl in H2; try lia.
  unfold index. simpl lookup. cbv iota. cbn beta iota.
  set (declared := Z.to_nat (le_Z [b0; b1])).
  assert (declares_length (b0 :: b1 :: buf) declared) as Hd.
  { split; [simpl; lia|]. unfold declared. pose proof (le_Z_bound [b0; b1]). by rewrite Z2Nat.id by lia. }
  destruct (Nat.ltb_spec MAX_BLOCK declared) as [|Hm]; [done|]. unfold MAX_BLOCK in Hm.
  destruct (Nat.ltb_spec (length (b0 :: b1 :: buf)) (LEN_PREFIX + declared + TAG_LEN)) as [Ht|Ht].
  { split; [done|]. right. by exists declared. }
  unfold LEN_PREFIX, TAG_LEN in *. rewrite !slice_ok by (simpl in *; lia).
  unfold chacha20poly1305_open, decrypt. destruct (aead_open _ _ _ _); [done|]. split; [done|]. by exists declared.
Qed.

(** C32: The record layer, byte for byte.  A block of at most 1024 bytes is sent as its length in
    two bytes, least significant first, and the block sealed under the key, with a nonce of
    four zero bytes and the counter and the length prefix as associated data, and the counter
    moves on by one; a longer block is refused.  A buffer is opened, and the counter moved on
    by one, exactly when it begins with such a record under this key and counter, whatever
    follows it, and then the block of that record is returned; otherwise the counter stays,
    and the outcome is: wait for more where the record declared is incomplete, a length error
    where more than 1024 bytes are declared, and else a decryption error.  Two counters
    never share a nonce. *)
Theorem record_layer_exact `{CryptoLaws} key c :
  let next := ((c + 1) mod 2 ^ 64)%Z in
  (forall block, 1024 < length block -> encrypt_frame key c block = (Err (InvalidFrameLength (length block)), c)) /\
  (forall block, length block <= 1024 -> exists ct, record_sealed key c block ct /\
     encrypt_frame key c block = (Ok (le_bytes 2 (Z.of_nat (length block)) ++ ct), next)) /\
  (forall buf block c', decrypt_frame key c buf = (Ok (Some block), c') <->
     c' = next /\ exists ct rest, record_sealed key c block ct /\
       buf = le_bytes 2 (Z.of_nat (length block)) ++ ct ++ rest) /\
  (forall buf, match decrypt_frame key c buf with
     | (Ok (Some _), _) => True
     | (Ok None, c') => c' = c /\ (length buf < 2 \/ exists n, declares_length buf n /\ n <= 1024 /\ length buf < 2 + n + 16)
     | (Err (InvalidFrameLength n), c') => c' = c /\ declares_length buf n /\ 1024 < n
     | (Err Decrypt, c') => c' = c /\ exists n, declares_length buf n /\ n <= 1024 /\ 2 + n + 16 <= length buf
     | _ => False
     end) /\
  (forall a b, in_u 64 a -> in_u 64 b -> nonce a = nonce b -> a = b).
Proof.
  intros next. split; [|split; [|split; [|split]]].
  - intros block Hl. unfold encrypt_frame. by rewrite (proj2 (Nat.ltb_lt _ _)) by (unfold MAX_BLOCK; lia).
  - intros block Hl. destruct (encrypt_frame_spec key c block Hl) as (frame & -> & (ct & Hs & ->)%record_sealed_frame).
    by exists ct.
  - intros buf block c'. split.
    + intros (-> & frame & rest & -> & (ct & Hs & ->)%record_sealed_frame)%decrypt_frame_sound. split; [done|].
      exists ct, rest. by rewrite <- app_assoc.
    + intros (-> & ct & rest & Hs & ->). rewrite app_assoc. apply decrypt_frame_complete, record_sealed_frame. by exists ct.
  - intros buf. apply decrypt_frame_refusals.
  - apply nonce_inj_lemma.
Qed.

(** The record of "hi" under counter 5 is opened with a byte of the next one behind it. *)
Lemma record_layer_exact_witness :
  exists ct, record_sealed (H := toy_crypto) (replicate 32 x01) 5 [x68; x69] ct /\
    decrypt_frame (C := toy_crypto) (replicate 32 x01) 5%Z ([x02; x00] ++ ct ++ [x07]) = (Ok (Some [x68; x69]), 6%Z).
Proof.
  destruct (record_layer_exact (H := toy_crypto_laws) (replicate 32 x01) 5%Z) as (_ & He & Hd & _).
  destruct (He [x68; x69]) as (ct & Hs & _); [by apply (bool_decide_unpack _)|]. exists ct. split; [exact Hs|].
  apply Hd. split; [reflexivity|]. by exists ct, [x07].
Defined.

(** Authenticity of the record layer: [decrypt_frame] yields a block exactly
    when the buffer starts with the frame [encrypt_frame] produces for that block
    under the same key and counter; both sides then advance to the same counter. *)
Theorem decrypt_frame_iff `{CryptoLaws} key c buf block c' :
  decrypt_frame key c buf = (Ok (Some block), c') <->
  exists frame rest, buf = frame ++ rest /\ encrypt_frame key c block = (Ok frame, c').
Proof.
  split.
  - intros Hd. apply decrypt_frame_sound in Hd as (-> & frame & rest & -> & Hf).
    exists frame, rest. split; [done|]. destruct Hf as (ct & Hl & Hs & ->).
    destruct (encrypt_frame_spec key c block Hl) as (frame' & -> & (ct' & _ & Hs' & ->)). congruence.
  - intros (frame & rest & -> & He). destruct (decide (length block <= MAX_BLOCK)) as [Hl|Hl].
    + destruct (encrypt_frame_spec key c block Hl) as (frame' & He' & Hf).
      rewrite He in He'. simplify_eq. by apply decrypt_frame_complete.
    + unfold encrypt_frame in He. by rewrite (proj2 (Nat.ltb_lt _ _)) in He by lia.
Qed.

Lemma decrypt_frame_iff_witness :
  exists c', decrypt_frame (replicate 32 x01) 5%Z
    (default [] (match (encrypt_frame (replicate 32 x01) 5%Z [x68; x69]).1 with Ok f => Some f | _ => None end))
  = (Ok (Some [x68; x69]), c').
Proof.
  exists 6%Z. apply (decrypt_frame_iff (H := toy_crypto_laws)). eexists _, []. rewrite app_nil_r. by vm_compute.
Defined.

(** No nonce is used twice under one session key: the first [2^64] frames of a
    direction carry pairwise distinct nonces. *)
Theorem record_nonces_distinct i j :
  (Z.of_nat i < 2 ^ 64)%Z -> (Z.of_nat j < 2 ^ 64)%Z ->
  nonce (counter_at i) = nonce (counter_at j) -> i = j.
Proof.
  intros Hi Hj Hn. apply nonce_inj_lemma in Hn; unfold in_u; rewrite ?counter_at_value.
  - rewrite !counter_at_value, !Z.mod_small in Hn by lia. lia.
  - apply Z.mod_pos_bound. lia.
  - apply Z.mod_pos_bound. lia.
Qed.

Lemma record_nonces_distinct_witness : 300 = 300.
Proof. by apply record_nonces_distinct. Defined.
