(* ===== verification/Http.v ===== *)
(** * [hap-transport/src/http.rs]: HTTP/1.1-shaped messages

    The request encoder and the incremental message parser, with its header
    loop and the chunked-body decoder.  Sizes that come off the wire are
    machine integers ([Z] with the [usize] bound); positions in the buffer are
    [nat]s. *)

From S2P Require Import Prelude Text Tlv8 Crypto Stream RecordLayer.

(** ** Data *)

Record HapResponse := { status : Z; content_type : list Z; body : bytes }.

Inductive ParseOutcome :=
| Complete (response : HapResponse) (consumed : nat)
| Incomplete.

Definition EVENT_PREFIX : bytes := str "EVENT/1.0".
Definition HTTP_PREFIX : bytes := str "HTTP/1.1".
Definition CRLF : bytes := [x0d; x0a].
Definition CRLF2 : bytes := [x0d; x0a; x0d; x0a].

(** ** Encoder; the [&str] arguments are their bytes *)

Definition encode_request (method path ctype body : bytes) : bytes :=
  let head := method ++ str " " ++ path ++ str " HTTP/1.1" ++ CRLF ++
              str "Content-Type: " ++ ctype ++ CRLF ++
              str "Content-Length: " ++ utf8_encode (to_decimal (Z.of_nat (length body))) ++
              CRLF ++ CRLF in
  head ++ body.

(** ** Scanning *)

Fixpoint find_subslice (haystack needle : bytes) : option nat :=
  if starts_with needle haystack then Some 0
  else match haystack with
       | [] => None
       | _ :: haystack' => S <$> find_subslice haystack' needle
       end.

(** Drop one trailing carriage return. *)
Definition strip_cr (l : bytes) : bytes :=
  match last l with
  | Some b => if bool_decide (b = x0d) then take (length l - 1) l else l
  | None => l
  end.

Definition split_crlf (block : bytes) : list bytes := strip_cr <$> split_on x0a block.

(** [iter().position(|&b| b == x)]. *)
Fixpoint position (x : byte) (l : bytes) : option nat :=
  match l with
  | [] => None
  | b :: l' => if bool_decide (b = x) then Some 0 else S <$> position x l'
  end.

Definition malformed {A} (why : string) : result TransportError A := Err (MalformedHttp (chars why)).

Definition parse_status_code (start_line : bytes) : result TransportError Z :=
  match split_on x20 start_line with
  | _ :: code :: _ =>
      match (s ← from_utf8 code; from_str_radix 10 U16_MAX s) with
      | Some n => Ok n
      | None => malformed "non-numeric status code"
      end
  | _ => malformed "missing status code"
  end.

(** ** Headers *)

Record headers := {
  h_content_type : list Z;
  h_content_length : option Z;
  h_chunked : bool;
}.

Definition no_headers : headers :=
  {| h_content_type := []; h_content_length := None; h_chunked := false |}.

(** The body of the [for line in lines] loop. *)
Definition parse_header (h : headers) (line : bytes) : result TransportError headers :=
  match position x3a line with
  | None => malformed "header without colon"
  | Some colon =>
      let name := to_ascii_lowercase (trim (from_utf8_lossy (take colon line))) in
      let value := trim (from_utf8_lossy (drop (colon + 1) line)) in
      if bool_decide (name = chars "content-type") then
        Ok {| h_content_type := value; h_content_length := h_content_length h; h_chunked := h_chunked h |}
      else if bool_decide (name = chars "content-length") then
        match from_str_radix 10 USIZE_MAX value with
        | Some n => Ok {| h_content_type := h_content_type h; h_content_length := Some n;
                          h_chunked := h_chunked h |}
        | None => malformed "bad Content-Length"
        end
      else if bool_decide (name = chars "transfer-encoding") then
        if eq_ignore_ascii_case value (chars "chunked")
        then Ok {| h_content_type := h_content_type h; h_content_length := h_content_length h;
                   h_chunked := true |}
        else Err (UnsupportedEncoding value)
      else Ok h
  end.

Fixpoint parse_headers (h : headers) (lines : list bytes) : result TransportError headers :=
  match lines with
  | [] => Ok h
  | line :: lines' => h ← parse_header h line; parse_headers h lines'
  end.

Section parser.
Context `{Build}.

(** ** Chunked bodies *)

Definition chunk_state : Type := bytes * bytes * nat.   (* rest, body, consumed *)

Definition decode_chunked_body (st : chunk_state)
    : result TransportError (flow chunk_state (option (bytes * nat))) :=
  let '(rest, body, consumed) := st in
  match find_subslice rest CRLF with
  | None => Ok (Break None)
  | Some nl =>
      match from_utf8 (take nl rest) with
      | None => malformed "bad chunk size"
      | Some s =>
          match from_str_radix 16 USIZE_MAX (trim s) with
          | None => malformed "bad chunk size"
          | Some size =>
              let after_size := nl + 2 in
              if (size =? 0)%Z then
                let stop := after_size + 2 in
                if length rest <? stop then Ok (Break None)
                else Ok (Break (Some (body, consumed + stop)))
              else
                t ← add_u 64 (Z.of_nat after_size) size;
                chunk_end ← add_u 64 t 2;
                if (Z.of_nat (length rest) <? chunk_end)%Z then Ok (Break None)
                else
                  data_end ← add_u 64 (Z.of_nat after_size) size;
                  data ← slice_Z rest (Z.of_nat after_size) data_end;
                  rest' ← slice_Z rest chunk_end (Z.of_nat (length rest));
                  Ok (Continue (rest', body ++ data, consumed + Z.to_nat chunk_end))
          end
      end
  end.

Definition decode_chunked (rest : bytes) : result TransportError (option (bytes * nat)) :=
  loop (S (length rest)) decode_chunked_body (rest, [], 0).

(** ** Messages *)

Definition parse_message (buf expected_prefix : bytes) : result TransportError ParseOutcome :=
  match find_subslice buf CRLF2 with
  | None => Ok Incomplete
  | Some headers_end =>
      let header_block := take headers_end buf in
      let body_start := headers_end + 4 in
      match split_crlf header_block with
      | [] => malformed "empty start line"
      | start_line :: lines =>
          if negb (starts_with expected_prefix start_line) then
            Err (MalformedHttp (chars "unexpected start line: " ++ from_utf8_lossy start_line))
          else
            status ← parse_status_code start_line;
            h ← parse_headers no_headers lines;
            rest ← slice buf body_start (length buf);
            if h_chunked h then
              r ← decode_chunked rest;
              match r with
              | Some (body, len) =>
                  Ok (Complete {| status := status; content_type := h_content_type h; body := body |}
                               (body_start + len))
              | None => Ok Incomplete
              end
            else
              let len := default 0%Z (h_content_length h) in
              if (Z.of_nat (length rest) <? len)%Z then Ok Incomplete
              else
                body ← slice_Z rest 0 len;
                Ok (Complete {| status := status; content_type := h_content_type h; body := body |}
                             (body_start + Z.to_nat len))
      end
  end.

Definition parse_response (buf : bytes) : result TransportError ParseOutcome :=
  parse_message buf HTTP_PREFIX.

End parser.

(** * Lemmas *)

(** ** Scanning *)

Lemma starts_with_app_l (p l m : bytes) : length p <= length l -> starts_with p (l ++ m) = starts_with p l.
Proof.
  revert l. induction p as [|x p IH]; intros [|y l] H; simpl in *; try done; [lia|].
  rewrite IH by lia. done.
Qed.

Lemma starts_with_length (p l : bytes) : starts_with p l = true -> length p <= length l.
Proof.
  revert l. induction p as [|x p IH]; intros [|y l] H; simpl in *; try done; [lia|].
  apply andb_true_iff in H as [_ H%IH]. lia.
Qed.

Lemma starts_with_self (p m : bytes) : starts_with p (p ++ m) = true.
Proof. induction p as [|x p IH]; [done|]. simpl. by rewrite bool_decide_true. Qed.

Lemma find_subslice_bound h n i : find_subslice h n = Some i -> i + length n <= length h.
Proof.
  revert i. induction h as [|x h IH]; intros i; cbn [find_subslice].
  - case_match eqn:E; [|done]. intros [= <-]. by apply starts_with_length in E.
  - case_match eqn:E; [intros [= <-]; by apply starts_with_length in E|].
    intros (j & Hj & ->)%fmap_Some. apply IH in Hj. simpl. lia.
Qed.

(** The first occurrence does not move when bytes are appended. *)
Lemma find_subslice_app h n m i :
  find_subslice h n = Some i -> find_subslice (h ++ m) n = Some i.
Proof.
  revert i. induction h as [|x h IH]; intros i.
  - cbn [find_subslice]. case_match eqn:E; [|done]. intros [= <-].
    apply starts_with_length in E. destruct n; simpl in *; [|lia]. by destruct m.
  - intros H. pose proof (find_subslice_bound _ _ _ H) as Hb. simpl in H. simpl app. cbn [find_subslice].
    change (x :: h ++ m) with ((x :: h) ++ m). rewrite starts_with_app_l by (simpl in *; lia).
    case_match eqn:E; [done|]. apply fmap_Some in H as (j & Hj & ->). by rewrite (IH j).
Qed.

(** The size line at the front of [rest] declares a chunk whose end exceeds [usize]. *)
Definition chunk_overflow (rest : bytes) : Prop :=
  exists nl s size, find_subslice rest CRLF = Some nl /\ from_utf8 (take nl rest) = Some s /\
    from_str_radix 16 USIZE_MAX (trim s) = Some size /\ (2 ^ 64 <= Z.of_nat nl + 2 + size + 2)%Z.

Section chunked.
Context `{Build}.

(** A turn of the chunk loop takes a chunk off the front, exactly, or stops. *)
Lemma decode_chunked_body_continue rest b c st' :
  fits rest -> decode_chunked_body (rest, b, c) = Ok (Continue st') ->
  exists k data, 0 < k <= length rest /\ st' = (drop k rest, b ++ data, c + k) /\
    forall more, fits (rest ++ more) ->
      decode_chunked_body (rest ++ more, b, c) = Ok (Continue (drop k rest ++ more, b ++ data, c + k)).
Proof.
  intros Hfit. unfold decode_chunked_body.
  destruct (find_subslice rest CRLF) as [nl|] eqn:Ef; [|done].
  pose proof (find_subslice_bound _ _ _ Ef) as Hnl. simpl in Hnl.
  destruct (from_utf8 (take nl rest)) as [s|] eqn:Eu; [|done].
  destruct (from_str_radix 16 USIZE_MAX (trim s)) as [size|] eqn:Es; [|done].
  apply from_str_radix_bound in Es as Hsize; [|done|done]. unfold USIZE_MAX in Hsize.
  destruct (Z.eqb_spec size 0) as [->|Hsz]; [by destruct (_ <? _)|].
  intros Hc. bind_inv Hc. bind_inv Hc. destruct (Z.ltb_spec (Z.of_nat (length rest)) a0); [done|].
  bind_inv Hc. bind_inv Hc. bind_inv Hc.
  unfold fits in *. unfold add_u, wrapping_add, slice_Z in Ha, Ha0, Ha1, Ha2, Ha3.
  assert (Z.of_nat (nl + 2) + size < 2 ^ 64 /\ a = Z.of_nat (nl + 2) + size /\ a1 = a /\
          a0 = a + 2 /\ a <= Z.of_nat (length rest) - 2)%Z as (Ht & -> & -> & -> & Hle).
  { destruct (_ && _) eqn:E2 in Ha2; [|done]. apply andb_true_iff in E2 as [E2 E2'].
    rewrite Z.leb_le in E2, E2'.
    destruct (Z.ltb_spec (Z.of_nat (nl + 2) + size) (2 ^ 64)).
    - injection Ha as <-. injection Ha1 as <-.
      destruct (Z.ltb_spec (Z.of_nat (nl + 2) + size + 2) (2 ^ 64)); [injection Ha0 as <-; lia|lia].
    - destruct overflow_checks; [done|]. injection Ha1 as <-.
      assert ((Z.of_nat (nl + 2) + size) mod 2 ^ 64 = Z.of_nat (nl + 2) + size - 2 ^ 64)%Z as Hm.
      { symmetry. apply (Z.mod_unique _ _ 1); lia. }
      rewrite Hm in *. lia. }
  set (k := Z.to_nat (Z.of_nat (nl + 2) + size + 2)).
  exists k, a2. split; [unfold k; lia|].
  rewrite !(proj2 (Z.leb_le _ _)) in Ha2 by lia. simpl in Ha2. injection Ha2 as <-.
  rewrite !(proj2 (Z.leb_le _ _)) in Ha3 by lia. simpl in Ha3. injection Ha3 as <-.
  assert (forall l : bytes, length rest <= length l ->
     take (Z.to_nat (Z.of_nat (length l) - (Z.of_nat (nl + 2) + size + 2)))
          (drop (Z.to_nat (Z.of_nat (nl + 2) + size + 2)) l) = drop k l) as Hd.
  { intros l Hl. apply take_ge. rewrite length_drop. unfold k. lia. }
  split; [simplify_eq; by rewrite Hd by lia|].
  intros more Hm. rewrite length_app in Hm.
  rewrite (find_subslice_app _ _ _ _ Ef), take_app_le by lia. rewrite Eu, Es.
  rewrite (proj2 (Z.eqb_neq _ _)) by done.
  rewrite !add_u_ok by lia. cbn [mbind result_bind].
  rewrite add_u_ok by lia. cbn [mbind result_bind].
  rewrite (proj2 (Z.ltb_ge _ _)) by (rewrite length_app; lia).
  rewrite !slice_Z_ok by (rewrite length_app; lia). cbn [mbind result_bind].
  rewrite Hd by (rewrite length_app; lia).
  rewrite drop_app_le by (unfold k; lia).
  rewrite (drop_app_le rest more (Z.to_nat (Z.of_nat (nl + 2)))) by lia.
  rewrite take_app_le by (rewrite length_drop; lia). done.
Qed.

Lemma decode_chunked_body_break rest b c r :
  decode_chunked_body (rest, b, c) = Ok (Break (Some r)) ->
  c < r.2 <= c + length rest /\
  forall more, decode_chunked_body (rest ++ more, b, c) = Ok (Break (Some r)).
Proof.
  unfold decode_chunked_body.
  destruct (find_subslice rest CRLF) as [nl|] eqn:Ef; [|done].
  pose proof (find_subslice_bound _ _ _ Ef) as Hnl. simpl in Hnl.
  destruct (from_utf8 (take nl rest)) as [s|] eqn:Eu; [|done].
  destruct (from_str_radix 16 USIZE_MAX (trim s)) as [size|] eqn:Es; [|done].
  destruct (Z.eqb_spec size 0) as [->|Hsz].
  - destruct (Nat.ltb_spec (length rest) (nl + 2 + 2)); [done|]. intros [= <-]. simpl.
    split; [lia|]. intros more.
    rewrite (find_subslice_app _ _ _ _ Ef), take_app_le by lia. rewrite Eu, Es. simpl.
    by rewrite (proj2 (Nat.ltb_ge _ _)) by (rewrite length_app; lia).
  - intros Hc. bind_inv Hc. bind_inv Hc. destruct (_ <? _)%Z; [done|].
    bind_inv Hc. bind_inv Hc. bind_inv Hc. done.
Qed.

Lemma decode_chunked_body_err rest b c e more :
  decode_chunked_body (rest, b, c) = Err e -> decode_chunked_body (rest ++ more, b, c) = Err e.
Proof.
  unfold decode_chunked_body.
  destruct (find_subslice rest CRLF) as [nl|] eqn:Ef; [|done].
  pose proof (find_subslice_bound _ _ _ Ef) as Hnl. simpl in Hnl.
  rewrite (find_subslice_app _ _ _ _ Ef), take_app_le by lia.
  destruct (from_utf8 (take nl rest)) as [s|] eqn:Eu; [|done].
  destruct (from_str_radix 16 USIZE_MAX (trim s)) as [size|] eqn:Es; [|done].
  destruct (size =? 0)%Z; [by destruct (_ <? _)|].
  unfold add_u, slice_Z. intros Hc. exfalso.
  repeat (case_match; simplify_eq/=; try done).
Qed.

(** The only way a turn panics: the chunk's end overflows [usize]. *)
Lemma decode_chunked_body_fault rest b c f :
  fits rest -> decode_chunked_body (rest, b, c) = Fault f ->
  f = Panicked /\ chunk_overflow rest /\
  forall more, fits (rest ++ more) -> decode_chunked_body (rest ++ more, b, c) = Fault f.
Proof.
  intros Hfit. unfold decode_chunked_body, chunk_overflow.
  destruct (find_subslice rest CRLF) as [nl|] eqn:Ef; [|done].
  pose proof (find_subslice_bound _ _ _ Ef) as Hnl. simpl in Hnl.
  destruct (from_utf8 (take nl rest)) as [s|] eqn:Eu; [|done].
  destruct (from_str_radix 16 USIZE_MAX (trim s)) as [size|] eqn:Es; [|done].
  apply from_str_radix_bound in Es as Hsize; [|done|done]. unfold USIZE_MAX in Hsize.
  destruct (Z.eqb_spec size 0) as [->|Hsz]; [by destruct (_ <? _)|].
  intros Hc. destruct (decide (2 ^ 64 <= Z.of_nat nl + 2 + size + 2)%Z) as [Hov|Hno].
  2:{ rewrite !add_u_ok in Hc by lia. cbn [mbind result_bind] in Hc.
      rewrite add_u_ok in Hc by lia. cbn [mbind result_bind] in Hc.
      destruct (Z.ltb_spec (Z.of_nat (length rest)) (Z.of_nat (nl + 2) + size + 2)); [done|].
      by rewrite !slice_Z_ok in Hc by lia. }
  assert (f = Panicked) as ->.
  { unfold add_u, slice_Z in Hc. destruct overflow_checks; repeat (case_match; simplify_eq/=; try done). }
  split; [done|]. split; [by exists nl, s, size|]. intros more Hm.
  rewrite (find_subslice_app _ _ _ _ Ef), take_app_le, Eu, Es by lia.
  rewrite (proj2 (Z.eqb_neq _ _) Hsz).
  unfold fits in *. unfold add_u, wrapping_add in *.
  destruct (Z.ltb_spec (Z.of_nat (nl + 2) + size) (2 ^ 64)) as [H1|H1]; cbn [mbind result_bind] in *.
  - destruct (Z.ltb_spec (Z.of_nat (nl + 2) + size + 2) (2 ^ 64)) as [H2|H2]; [lia|].
    destruct overflow_checks; [done|]. cbn [mbind result_bind] in *.
    destruct (Z.ltb_spec (Z.of_nat (length rest)) ((Z.of_nat (nl + 2) + size + 2) mod 2 ^ 64)); [done|].
    rewrite (proj2 (Z.ltb_ge _ _)) by (rewrite length_app; lia).
    by rewrite (slice_Z_panics _ (Z.of_nat (nl + 2))) by lia.
  - destruct overflow_checks; [done|]. cbn [mbind result_bind] in *.
    assert ((Z.of_nat (nl + 2) + size) mod 2 ^ 64 = Z.of_nat (nl + 2) + size - 2 ^ 64)%Z as Hmod.
    { symmetry. apply (Z.mod_unique _ _ 1); lia. }
    rewrite Hmod in *.
    destruct (Z.ltb_spec (Z.of_nat (nl + 2) + size - 2 ^ 64 + 2) (2 ^ 64)); [|lia].
    cbn [mbind result_bind] in *.
    destruct (Z.ltb_spec (Z.of_nat (length rest)) (Z.of_nat (nl + 2) + size - 2 ^ 64 + 2)); [done|].
    rewrite (proj2 (Z.ltb_ge _ _)) by (rewrite length_app; lia).
    by rewrite (slice_Z_panics _ (Z.of_nat (nl + 2))) by lia.
Qed.

Lemma decode_chunked_measure st st' :
  fits st.1.1 -> decode_chunked_body st = Ok (Continue st') ->
  length st'.1.1 < length st.1.1 /\ fits st'.1.1.
Proof.
  destruct st as [[rest b] c]. intros Hfit Hc.
  apply decode_chunked_body_continue in Hc as (k & data & Hk & -> & _); [|done]. simpl in *.
  rewrite length_drop. split; [lia|fits_tac].
Qed.

Lemma decode_chunked_runs rest :
  fits rest -> runs decode_chunked_body (rest, [], 0) (decode_chunked rest).
Proof.
  intros Hfit. unfold decode_chunked.
  apply (loop_runs _ (fun st => length st.1.1) (fun st => fits st.1.1));
    [apply decode_chunked_measure|done|simpl; lia].
Qed.

Lemma decode_chunked_eq rest r :
  fits rest -> runs decode_chunked_body (rest, [], 0) r -> decode_chunked rest = r.
Proof. intros Hfit Hr. eapply runs_det; [by apply decode_chunked_runs|done]. Qed.

(** A decided chunked body (complete, or malformed) is not revised. *)
Lemma runs_chunked_app st r :
  runs decode_chunked_body st r -> fits st.1.1 ->
  match r with
  | Ok (Some (b, n)) => st.2 <= n <= st.2 + length st.1.1
  | _ => True
  end /\
  (match r with Ok None => False | _ => True end ->
   forall more, fits (st.1.1 ++ more) -> runs decode_chunked_body (st.1.1 ++ more, st.1.2, st.2) r).
Proof.
  induction 1 as [[[rest b] c] r Hb|[[rest b] c] e He|[[rest b] c] x Hx|[[rest b] c] st' r Hc Hr IH];
    simpl; intros Hfit.
  - destruct r as [[b' n]|]; [|done]. apply decode_chunked_body_break in Hb as [Hn Hmore].
    simpl in Hn. split; [lia|]. intros _ more _. by apply runs_break.
  - split; [done|]. intros _ more _. apply runs_err. by apply decode_chunked_body_err.
  - split; [done|]. intros _ more Hm. apply runs_fault.
    by apply decode_chunked_body_fault in Hx as (_ & _ & Hx); [apply Hx|].
  - apply decode_chunked_body_continue in Hc as (k & data & Hk & -> & Hmore); [|done]. simpl in IH.
    destruct IH as [IH1 IH2]; [fits_tac|]. split.
    + destruct r as [[[b' n]|]|?|?]; try done. rewrite length_drop in IH1. lia.
    + intros Hd more Hf. eapply runs_continue; [by apply Hmore|]. apply IH2; [done|fits_tac].
Qed.

Lemma decode_chunked_stable rest more r :
  fits (rest ++ more) -> decode_chunked rest = r ->
  match r with Ok None => False | _ => True end ->
  decode_chunked (rest ++ more) = r.
Proof.
  intros Hfit Hr Hd. apply decode_chunked_eq; [done|].
  pose proof (decode_chunked_runs rest ltac:(fits_tac)) as Hruns. rewrite Hr in Hruns.
  by apply (runs_chunked_app _ _ Hruns); [simpl; fits_tac|..].
Qed.

Lemma decode_chunked_length rest b n :
  fits rest -> decode_chunked rest = Ok (Some (b, n)) -> n <= length rest.
Proof.
  intros Hfit Hr. pose proof (decode_chunked_runs rest Hfit) as Hruns. rewrite Hr in Hruns.
  apply runs_chunked_app in Hruns as [Hn _]; simpl in *; [lia|done].
Qed.

(** A panic means that some chunk of the body overflows. *)
Lemma decode_chunked_fault rest f :
  fits rest -> decode_chunked rest = Fault f ->
  f = Panicked /\ exists pre suf, rest = pre ++ suf /\ chunk_overflow suf.
Proof.
  intros Hfit Hr. pose proof (decode_chunked_runs rest Hfit) as Hruns. rewrite Hr in Hruns.
  clear Hr. change rest with ((rest, @nil byte, 0).1.1) in Hfit |- *.
  remember (Fault f) as r eqn:Er. revert Hfit Er.
  induction Hruns as [| |[[r b] c] x Hx|[[r b] c] st' r' Hc Hr IH]; try done; intros Hfit Er; simpl in *.
  - injection Er as ->. apply decode_chunked_body_fault in Hx as (-> & Ho & _); [|done].
    split; [done|]. by exists [], r.
  - apply decode_chunked_body_continue in Hc as (k & data & Hk & -> & _); [|done]. simpl in IH.
    destruct IH as (-> & pre & suf & Heq & Ho); [fits_tac|done|].
    split; [done|]. exists (take k r ++ pre), suf. by rewrite <- app_assoc, <- Heq, take_drop.
Qed.
End chunked.

(** ** Messages *)

Lemma returns_parse_status_code l : returns (parse_status_code l).
Proof. unfold parse_status_code, malformed. repeat (case_match; try done). Qed.

Lemma returns_parse_headers h lines : returns (parse_headers h lines).
Proof.
  revert h. induction lines as [|l lines IH]; intros h; [done|]. simpl.
  apply returns_bind; [|intros; apply IH].
  unfold parse_header, malformed. repeat (case_match; try done).
Qed.

Section messages.
Context `{Build}.

(** The part of the parser that runs once the headers are complete: it reads the
    header block and the bytes after it. *)
Definition parse_after (header_block rest expected_prefix : bytes) (body_start : nat)
    : result TransportError ParseOutcome :=
  match split_crlf header_block with
  | [] => malformed "empty start line"
  | start_line :: lines =>
      if negb (starts_with expected_prefix start_line) then
        Err (MalformedHttp (chars "unexpected start line: " ++ from_utf8_lossy start_line))
      else
        status ← parse_status_code start_line;
        h ← parse_headers no_headers lines;
        if h_chunked h then
          r ← decode_chunked rest;
          match r with
          | Some (body, len) =>
              Ok (Complete {| status := status; content_type := h_content_type h; body := body |}
                           (body_start + len))
          | None => Ok Incomplete
          end
        else
          let len := default 0%Z (h_content_length h) in
          if (Z.of_nat (length rest) <? len)%Z then Ok Incomplete
          else Ok (Complete {| status := status; content_type := h_content_type h;
                               body := take (Z.to_nat len) rest |} (body_start + Z.to_nat len))
  end.

Lemma parse_header_length h line h' :
  (forall n, h_content_length h = Some n -> 0 <= n)%Z -> parse_header h line = Ok h' ->
  (forall n, h_content_length h' = Some n -> 0 <= n)%Z.
Proof.
  intros Hn Hp n Hl. unfold parse_header, malformed in Hp.
  destruct (position _ _); [|done]. cbv zeta in Hp.
  case_bool_decide; [simplify_eq/=; by apply Hn|].
  case_bool_decide; [|case_bool_decide; [case_match; simplify_eq/=; by apply Hn|simplify_eq; by apply Hn]].
  destruct (from_str_radix _ _ _) as [m|] eqn:E; simplify_eq/=.
  apply from_str_radix_bound in E; unfold USIZE_MAX in *; lia.
Qed.

Lemma parse_headers_length lines h h' :
  (forall n, h_content_length h = Some n -> 0 <= n)%Z -> parse_headers h lines = Ok h' ->
  (forall n, h_content_length h' = Some n -> 0 <= n)%Z.
Proof.
  revert h. induction lines as [|l lines IH]; intros h Hn Hp; simpl in Hp; [by simplify_eq|].
  bind_inv Hp. eapply IH; [|done]. by eapply parse_header_length.
Qed.

Lemma headers_len_nonneg lines h :
  parse_headers no_headers lines = Ok h -> (0 <= default 0 (h_content_length h))%Z.
Proof.
  intros Hp. pose proof (parse_headers_length lines no_headers h ltac:(done) Hp) as Hn.
  destruct (h_content_length h) as [n|]; simpl; [by apply Hn|done].
Qed.

Lemma parse_message_after buf prefix :
  parse_message buf prefix =
    match find_subslice buf CRLF2 with
    | None => Ok Incomplete
    | Some i => parse_after (take i buf) (drop (i + 4) buf) prefix (i + 4)
    end.
Proof.
  unfold parse_message. destruct (find_subslice buf CRLF2) as [i|] eqn:Ef; [|done].
  apply find_subslice_bound in Ef. simpl in Ef. unfold parse_after.
  destruct (split_crlf _); [done|]. destruct (negb _); [done|].
  destruct (parse_status_code _); [|done..]. cbn [mbind result_bind].
  destruct (parse_headers _ _) as [h| |] eqn:Eh; [|done..]. cbn [mbind result_bind].
  apply headers_len_nonneg in Eh. rewrite slice_ok by lia. cbn [mbind result_bind].
  rewrite (take_ge (drop (i + 4) buf)) by (rewrite length_drop; lia).
  destruct (h_chunked h); [done|]. destruct (Z.ltb_spec (Z.of_nat (length (drop (i + 4) buf)))
    (default 0%Z (h_content_length h))); [done|].
  rewrite slice_Z_ok by lia. cbn [mbind result_bind]. by rewrite Z.sub_0_r, drop_0.
Qed.

Lemma parse_after_stable hb rest more prefix n r :
  fits (rest ++ more) -> parse_after hb rest prefix n = r -> r <> Ok Incomplete ->
  parse_after hb (rest ++ more) prefix n = r.
Proof.
  intros Hfit <- Hd. unfold parse_after in *.
  destruct (split_crlf _); [done|]. destruct (negb _); [done|].
  destruct (parse_status_code _); [|done..]. cbn [mbind result_bind] in *.
  destruct (parse_headers _ _) as [h| |] eqn:Eh; [|done..]. cbn [mbind result_bind] in *.
  apply headers_len_nonneg in Eh. destruct (h_chunked h).
  - destruct (decode_chunked rest) as [[[b k]|]|e|f] eqn:Ed; cbn [mbind result_bind] in Hd |- *;
      [|done|..]; by rewrite (decode_chunked_stable _ _ _ Hfit Ed).
  - destruct (Z.ltb_spec (Z.of_nat (length rest)) (default 0%Z (h_content_length h))); [done|].
    rewrite (proj2 (Z.ltb_ge _ _)) by (rewrite length_app; lia).
    by rewrite take_app_le by lia.
Qed.

Lemma parse_message_stable buf more prefix r :
  fits (buf ++ more) -> parse_message buf prefix = r -> r <> Ok Incomplete ->
  parse_message (buf ++ more) prefix = r.
Proof.
  intros Hfit <- Hd. rewrite parse_message_after in Hd |- *. rewrite parse_message_after.
  destruct (find_subslice buf CRLF2) as [i|] eqn:Ef; [|done].
  rewrite (find_subslice_app _ _ _ _ Ef). apply find_subslice_bound in Ef. simpl in Ef.
  rewrite take_app_le, drop_app_le by lia. apply parse_after_stable; [fits_tac|done|done].
Qed.

Lemma parse_message_bounds buf prefix r k :
  fits buf -> parse_message buf prefix = Ok (Complete r k) -> 4 <= k <= length buf.
Proof.
  intros Hfit. rewrite parse_message_after.
  destruct (find_subslice buf CRLF2) as [i|] eqn:Ef; [|done].
  apply find_subslice_bound in Ef. simpl in Ef. unfold parse_after, malformed.
  destruct (split_crlf _); [done|]. destruct (negb _); [done|].
  destruct (parse_status_code _); [|done..]. cbn [mbind result_bind] in *.
  destruct (parse_headers _ _) as [h| |] eqn:Eh; [|done..]. cbn [mbind result_bind] in *.
  apply headers_len_nonneg in Eh. destruct (h_chunked h).
  - destruct (decode_chunked _) as [[[b m]|]|e|f] eqn:Ed; cbn [mbind result_bind]; try done.
    apply decode_chunked_length in Ed; [|fits_tac]. rewrite length_drop in Ed. intros; simplify_eq. lia.
  - destruct (Z.ltb_spec (Z.of_nat (length (drop (i + 4) buf))) (default 0%Z (h_content_length h))); [done|].
    rewrite length_drop in *. intros; simplify_eq. lia.
Qed.

Lemma parse_message_fault buf prefix f :
  fits buf -> parse_message buf prefix = Fault f ->
  f = Panicked /\ exists pre suf, buf = pre ++ suf /\ chunk_overflow suf.
Proof.
  intros Hfit. rewrite parse_message_after.
  destruct (find_subslice buf CRLF2) as [i|] eqn:Ef; [|done].
  unfold parse_after, malformed.
  destruct (split_crlf _) as [|sl lines]; [done|]. destruct (negb _); [done|].
  pose proof (returns_parse_status_code sl). destruct (parse_status_code _); [|done..].
  pose proof (returns_parse_headers no_headers lines). cbn [mbind result_bind] in *.
  destruct (parse_headers _ _) as [h| |] eqn:Eh; [|done..]. cbn [mbind result_bind] in *.
  destruct (h_chunked h); [|by destruct (_ <? _)%Z].
  destruct (decode_chunked _) as [[[b m]|]|e|f'] eqn:Ed; cbn [mbind result_bind]; try done.
  intros [= ->]. apply decode_chunked_fault in Ed as (-> & pre & suf & Heq & Ho); [|fits_tac].
  split; [done|]. exists (take (i + 4) buf ++ pre), suf. by rewrite <- app_assoc, <- Heq, take_drop.
Qed.
End messages.

(** ** Canonical messages *)

(** The header block of a message: lines that hold no CR or LF, joined by CRLF. *)
Definition line_ok (l : bytes) : Prop := l <> [] /\ (x0d ∉ l) /\ (x0a ∉ l).

Fixpoint join_lines (l : bytes) (lines : list bytes) : bytes :=
  match lines with
  | [] => l
  | l' :: lines' => l ++ CRLF ++ join_lines l' lines'
  end.

(** A message with a start line, the two entity headers, and a body. *)
Definition render_message (prefix code reason ctype body : bytes) : bytes :=
  join_lines (prefix ++ x20 :: code ++ x20 :: reason)
    [str "Content-Type: " ++ ctype;
     str "Content-Length: " ++ utf8_encode (to_decimal (Z.of_nat (length body)))]
  ++ CRLF ++ CRLF ++ body.

Lemma find_subslice_skip b h n : starts_with n (b :: h) = false ->
  find_subslice (b :: h) n = S <$> find_subslice h n.
Proof. intros H. cbn [find_subslice]. by rewrite H. Qed.

Lemma find_crlfcrlf_line l rest :
  x0d ∉ l -> find_subslice (l ++ rest) CRLF2 = (Nat.add (length l) <$> find_subslice rest CRLF2).
Proof.
  induction l as [|b l IH]; intros Hn; simpl app; [by destruct (find_subslice rest _)|].
  apply not_elem_of_cons in Hn as [Hb Hn].
  rewrite find_subslice_skip by (simpl; by rewrite bool_decide_false).
  rewrite IH by done. by destruct (find_subslice rest _).
Qed.

Lemma find_crlfcrlf_lines l lines rest :
  line_ok l -> Forall line_ok lines ->
  find_subslice (join_lines l lines ++ CRLF ++ CRLF ++ rest) CRLF2 =
    Some (length (join_lines l lines)).
Proof.
  intros Hl Hlines. revert l Hl. induction Hlines as [|l' lines Hl' _ IH]; intros l (Hne & Hcr & Hlf).
  { simpl join_lines. rewrite find_crlfcrlf_line by done. simpl. f_equal. lia. }
  cbn [join_lines]. rewrite <- app_assoc, find_crlfcrlf_line by done.
  change ((CRLF ++ join_lines l' lines) ++ CRLF ++ CRLF ++ rest)
    with (x0d :: x0a :: (join_lines l' lines ++ CRLF ++ CRLF ++ rest)).
  rewrite find_subslice_skip.
  2:{ destruct Hl' as (Hne' & Hcr' & _). destruct l' as [|b l']; [done|].
      apply not_elem_of_cons in Hcr' as [Hb _].
      assert (exists t, join_lines (b :: l') lines = b :: t) as [t ->].
      { destruct lines; simpl; eauto. }
      simpl. by rewrite (bool_decide_false (x0d = b)). }
  rewrite find_subslice_skip by done.
  rewrite (IH _ Hl').
  simpl. f_equal. rewrite length_app. simpl. lia.
Qed.

Lemma strip_cr_line l : x0d ∉ l -> strip_cr l = l.
Proof.
  intros Hn. unfold strip_cr. destruct (last l) as [b|] eqn:El; [|done].
  rewrite bool_decide_false; [done|]. intros ->. apply Hn.
  apply last_Some in El as [l' ->]. set_solver.
Qed.

Lemma strip_cr_snoc l : strip_cr (l ++ [x0d]) = l.
Proof.
  unfold strip_cr. rewrite last_snoc, bool_decide_true by done.
  rewrite length_app, Nat.add_sub. apply take_app_length.
Qed.

Lemma split_crlf_lines l lines :
  line_ok l -> Forall line_ok lines -> split_crlf (join_lines l lines) = l :: lines.
Proof.
  unfold split_crlf. intros Hl Hlines. revert l Hl.
  induction Hlines as [|l' lines Hl' _ IH]; intros l (Hne & Hcr & Hlf); cbn [join_lines].
  { rewrite split_on_line by done. cbn [fmap list_fmap]. by rewrite strip_cr_line. }
  replace (l ++ CRLF ++ join_lines l' lines) with ((l ++ [x0d]) ++ [x0a] ++ join_lines l' lines)
    by (by rewrite <- app_assoc).
  rewrite split_on_skip by (rewrite elem_of_app, list_elem_of_singleton; by intros [|]). change ([x0a] ++ join_lines l' lines) with (x0a :: join_lines l' lines).
  cbn [split_on]. rewrite bool_decide_true, app_nil_r by done.
  rewrite fmap_cons, strip_cr_snoc. by rewrite (IH l').
Qed.

(** The digits of a printed number, as bytes. *)
Lemma utf8_encode_decimal n : (0 <= n)%Z ->
  (byteZ <$> utf8_encode (to_decimal n)) = to_decimal n /\
  Forall (fun b => (48 <= byteZ b <= 57)%Z) (utf8_encode (to_decimal n)).
Proof.
  intros Hn. pose proof (to_decimal_digits n Hn) as Hd. unfold utf8_encode.
  induction Hd as [|c s Hc _ [IH1 IH2]]; [by split|].
  assert (utf8_encode_char c = [Zbyte c]) as Hch.
  { unfold utf8_encode_char. by rewrite (proj2 (Z.ltb_lt _ _)) by lia. }
  assert (byteZ (Zbyte c) = c) as Hb by (apply byteZ_Zbyte_small; lia).
  rewrite bind_cons, Hch. simpl app. rewrite fmap_cons, IH1, Hb.
  split; [done|]. constructor; [by rewrite Hb|done].
Qed.

(** Text of a header value: printable ASCII without spaces at its ends. *)
Definition token_ok (l : bytes) : Prop :=
  is_ascii l /\ (x0d ∉ l) /\ (x0a ∉ l) /\ no_space_ends (byteZ <$> l).

Lemma position_skip x l rest : x ∉ l -> position x (l ++ x :: rest) = Some (length l).
Proof.
  induction l as [|b l IH]; intros Hn; simpl.
  { by rewrite bool_decide_true. }
  apply not_elem_of_cons in Hn as [Hb Hn]. rewrite bool_decide_false by done. by rewrite IH.
Qed.

(** A [name: value] line splits into its name and its value. *)
Lemma header_fields (name v : bytes) :
  x3a ∉ name -> is_ascii v -> no_space_ends (byteZ <$> v) ->
  let line := name ++ x3a :: x20 :: v in
  position x3a line = Some (length name) /\ take (length name) line = name /\
  trim (from_utf8_lossy (drop (length name + 1) line)) = byteZ <$> v.
Proof.
  intros Hn Ha Hv line. split; [by apply position_skip|]. split; [apply take_app_length|].
  unfold line. rewrite drop_app_ge by lia. replace (length name + 1 - length name) with 1 by lia.
  simpl drop. rewrite ?drop_0, from_utf8_lossy_ascii by (by constructor).
  rewrite fmap_cons. by apply trim_space.
Qed.

Lemma decimal_no_space n : (0 <= n)%Z -> no_space_ends (to_decimal n).
Proof.
  intros Hn. pose proof (to_decimal_digits n Hn) as Hd. rewrite Forall_forall in Hd.
  assert (forall c, c ∈ to_decimal n -> is_whitespace c = false) as Hw.
  { intros c Hc%Hd. destruct (is_whitespace c) eqn:E; [|done]. unfold is_whitespace in E.
    rewrite !orb_true_iff, !andb_true_iff, !Z.leb_le, !Z.eqb_eq in E. lia. }
  split; intros c s' E; apply Hw; rewrite E; set_solver.
Qed.

Lemma parse_header_content_type h v :
  token_ok v ->
  parse_header h (str "Content-Type: " ++ v) =
    Ok {| h_content_type := byteZ <$> v; h_content_length := h_content_length h; h_chunked := h_chunked h |}.
Proof.
  intros (Ha & _ & _ & Hv).
  destruct (header_fields (str "Content-Type") v ltac:(by apply (bool_decide_unpack _)) Ha Hv)
    as (H1 & H2 & H3).
  change (str "Content-Type: " ++ v) with (str "Content-Type" ++ x3a :: x20 :: v).
  unfold parse_header. rewrite H1, H2, H3. done.
Qed.

Lemma parse_header_content_length h n :
  (0 <= n <= USIZE_MAX)%Z ->
  parse_header h (str "Content-Length: " ++ utf8_encode (to_decimal n)) =
    Ok {| h_content_type := h_content_type h; h_content_length := Some n; h_chunked := h_chunked h |}.
Proof.
  intros Hn. destruct (utf8_encode_decimal n ltac:(lia)) as [Hd Hr].
  set (v := utf8_encode (to_decimal n)) in *.
  assert (is_ascii v) as Ha by (eapply Forall_impl; [exact Hr|]; simpl; lia).
  assert (no_space_ends (byteZ <$> v)) as Hv by (rewrite Hd; apply decimal_no_space; lia).
  destruct (header_fields (str "Content-Length") v ltac:(by apply (bool_decide_unpack _)) Ha Hv)
    as (H1 & H2 & H3).
  change (str "Content-Length: " ++ v) with (str "Content-Length" ++ x3a :: x20 :: v).
  unfold parse_header. rewrite H1, H2, H3, Hd, from_str_radix_to_decimal by done. done.
Qed.

Lemma parse_status_code_line prefix code reason :
  x20 ∉ prefix -> (0 <= code <= U16_MAX)%Z ->
  parse_status_code (prefix ++ x20 :: utf8_encode (to_decimal code) ++ x20 :: reason) = Ok code.
Proof.
  intros Hp Hc. destruct (utf8_encode_decimal code ltac:(lia)) as [Hd Hr].
  set (v := utf8_encode (to_decimal code)) in *.
  assert (x20 ∉ v) as Hv.
  { intros Hin. rewrite Forall_forall in Hr. apply Hr in Hin. change (byteZ x20) with 32%Z in Hin. lia. }
  assert (is_ascii v) as Ha by (eapply Forall_impl; [exact Hr|]; simpl; lia).
  unfold parse_status_code. rewrite split_on_skip by done. cbn [split_on].
  rewrite bool_decide_true by done. rewrite split_on_skip by done. cbn [split_on].
  rewrite bool_decide_true, app_nil_r by done. rewrite from_utf8_ascii by done. cbn [mbind option_bind].
  by rewrite Hd, from_str_radix_to_decimal.
Qed.

Lemma no_crlf_decimal n b :
  (0 <= n)%Z -> (byteZ b < 48)%Z -> b ∉ utf8_encode (to_decimal n).
Proof.
  intros Hn Hb Hin. destruct (utf8_encode_decimal n Hn) as [_ Hr].
  rewrite Forall_forall in Hr. apply Hr in Hin. lia.
Qed.

(** The message a peer sends, under either start-line prefix. *)
Definition message_ok (prefix reason ctype body : bytes) (code : Z) : Prop :=
  (prefix = HTTP_PREFIX \/ prefix = EVENT_PREFIX) /\ (0 <= code <= U16_MAX)%Z /\
  (x0d ∉ reason) /\ (x0a ∉ reason) /\ token_ok ctype /\ fits body.

Lemma message_ok_check prefix reason ctype body code :
  bool_decide ((prefix = HTTP_PREFIX \/ prefix = EVENT_PREFIX) /\ (0 <= code)%Z /\ (code <= U16_MAX)%Z /\
    (x0d ∉ reason) /\ (x0a ∉ reason) /\ is_ascii ctype /\ (x0d ∉ ctype) /\ (x0a ∉ ctype)) = true ->
  forallb (fun o => negb (from_option is_whitespace false o))
    [head (byteZ <$> ctype); last (byteZ <$> ctype)] = true ->
  (Z.of_nat (length body) <? 2 ^ 63)%Z = true -> message_ok prefix reason ctype body code.
Proof.
  intros H%bool_decide_eq_true Hs%no_space_ends_check Hf%Z.ltb_lt.
  unfold message_ok, token_ok, fits. naive_solver.
Qed.

Definition rendered (prefix reason ctype body : bytes) (code : Z) : bytes :=
  render_message prefix (utf8_encode (to_decimal code)) reason ctype body.

Lemma rendered_lines_ok prefix reason ctype body code :
  message_ok prefix reason ctype body code ->
  line_ok (prefix ++ x20 :: utf8_encode (to_decimal code) ++ x20 :: reason) /\
  Forall line_ok [str "Content-Type: " ++ ctype;
                  str "Content-Length: " ++ utf8_encode (to_decimal (Z.of_nat (length body)))].
Proof.
  intros (Hp & Hc & Hr1 & Hr2 & (_ & Ht1 & Ht2 & _) & _).
  assert (forall b n, byteZ b = 13%Z \/ byteZ b = 10%Z -> (0 <= n)%Z -> b ∉ utf8_encode (to_decimal n)) as Hd.
  { intros b n Hb Hn. apply no_crlf_decimal; lia. }
  assert ((x0d ∉ prefix) /\ (x0a ∉ prefix) /\ prefix <> []) as (Hp1 & Hp2 & Hp3).
  { destruct Hp as [-> | ->]; (split; [by apply (bool_decide_unpack _)|]);
      (split; [by apply (bool_decide_unpack _)|done]). }
  pose proof (Hd x0d code (or_introl eq_refl) ltac:(lia)). pose proof (Hd x0a code (or_intror eq_refl) ltac:(lia)).
  pose proof (Hd x0d (Z.of_nat (length body)) (or_introl eq_refl) ltac:(lia)).
  pose proof (Hd x0a (Z.of_nat (length body)) (or_intror eq_refl) ltac:(lia)).
  unfold line_ok. rewrite !Forall_cons.
  repeat split; try done; try (by destruct prefix);
    rewrite ?elem_of_app, ?elem_of_cons, ?elem_of_app, ?elem_of_cons; intros Hin; destruct_or?; try done;
    revert Hin; by apply (bool_decide_unpack (_ ∉ _)).
Qed.

Lemma parse_rendered `{Build} prefix reason ctype body code rest :
  message_ok prefix reason ctype body code ->
  parse_message (rendered prefix reason ctype body code ++ rest) prefix =
    Ok (Complete {| status := code; content_type := byteZ <$> ctype; body := body |}
                 (length (rendered prefix reason ctype body code))).
Proof.
  intros Hm. destruct (rendered_lines_ok _ _ _ _ _ Hm) as [Hl Hls].
  destruct Hm as (Hp & Hc & _ & _ & Ht & Hfit).
  unfold rendered, render_message. set (h := join_lines _ _). rewrite parse_message_after.
  rewrite <- !app_assoc. unfold h at 1. rewrite find_crlfcrlf_lines by done. fold h.
  rewrite take_app_length, drop_app_ge by lia. replace (length h + 4 - length h) with 4 by lia.
  change (drop 4 (CRLF ++ CRLF ++ body ++ rest)) with (body ++ rest).
  unfold parse_after, h. rewrite split_crlf_lines by done. fold h.
  rewrite starts_with_self. cbn [negb].
  rewrite parse_status_code_line; [|destruct Hp as [-> | ->]; by apply (bool_decide_unpack _)|done].
  cbn [mbind result_bind parse_headers]. rewrite parse_header_content_type by done.
  cbn [mbind result_bind]. rewrite parse_header_content_length by (unfold fits, USIZE_MAX in *; lia).
  cbn [mbind result_bind h_chunked h_content_length h_content_type no_headers from_option id].
  rewrite (proj2 (Z.ltb_ge _ _)) by (rewrite length_app; lia).
  rewrite Nat2Z.id, take_app_length. do 2 f_equal. rewrite !length_app. simpl. lia.
Qed.

(** * Properties *)

(** Incremental parsing is sound: once [parse_message] has decided (a complete
    message, a malformed one, or a panic), no bytes that arrive later change the
    decision, and a complete message consumes at least its header terminator and
    never more than the buffer holds. *)
Theorem http_parse_decided `{Build} buf more prefix :
  fits (buf ++ more) -> parse_message buf prefix <> Ok Incomplete ->
  parse_message (buf ++ more) prefix = parse_message buf prefix /\
  (forall r k, parse_message buf prefix = Ok (Complete r k) -> 4 <= k <= length buf).
Proof.
  intros Hfit Hd. split; [by apply parse_message_stable|].
  intros r k. apply parse_message_bounds. fits_tac.
Qed.

Lemma http_parse_decided_witness :
  let b := {| overflow_checks := true; debug_assertions := true |} in
  parse_message ((str "HTTP/1.1 204 No Content" ++ CRLF2) ++ str "HTTP") HTTP_PREFIX =
  parse_message (str "HTTP/1.1 204 No Content" ++ CRLF2) HTTP_PREFIX.
Proof. intros b. apply http_parse_decided; [done|by vm_compute]. Defined.

(** A response or event rendered in the canonical form (start line,
    [Content-Type], [Content-Length], body) is parsed back field by field, and
    consumes exactly its own bytes whatever follows on the stream. *)
Theorem http_message_roundtrip `{Build} prefix reason ctype body code rest :
  message_ok prefix reason ctype body code ->
  parse_message (rendered prefix reason ctype body code ++ rest) prefix =
    Ok (Complete {| status := code; content_type := byteZ <$> ctype; body := body |}
                 (length (rendered prefix reason ctype body code))).
Proof. apply parse_rendered. Qed.

Lemma http_message_roundtrip_witness :
  let b := {| overflow_checks := false; debug_assertions := false |} in
  parse_message (rendered EVENT_PREFIX (str "OK") (str "application/hap+json") (str "{}") 200 ++ str "HTTP/1.1")
    EVENT_PREFIX =
  Ok (Complete {| status := 200; content_type := byteZ <$> str "application/hap+json"; body := str "{}" |} 77).
Proof.
  intros b. apply (http_message_roundtrip EVENT_PREFIX (str "OK") (str "application/hap+json") (str "{}") 200).
  by apply message_ok_check.
Defined.

(** C31: The parser panics on no input except one kind: a chunked body with a chunk
    whose declared end does not fit in a [usize]. *)
Theorem http_panics_only_on_chunk_overflow `{Build} buf prefix f :
  fits buf -> parse_message buf prefix = Fault f ->
  f = Panicked /\ exists pre suf, buf = pre ++ suf /\ chunk_overflow suf.
Proof. apply parse_message_fault. Qed.

Definition overflowing_response : bytes :=
  str "HTTP/1.1 200 OK" ++ CRLF ++ str "Transfer-Encoding: chunked" ++ CRLF2 ++
  str "ffffffffffffffff" ++ CRLF ++ str "x".

Lemma http_panics_only_on_chunk_overflow_witness :
  exists pre suf, overflowing_response = pre ++ suf /\ chunk_overflow suf.
Proof.
  apply (http_panics_only_on_chunk_overflow (H := {| overflow_checks := true; debug_assertions := true |})
           overflowing_response HTTP_PREFIX Panicked); by vm_compute.
Defined.

(** Such a response does make the parser panic, with and without overflow
    checks: the sum of the chunk's start, its size and 2 is not checked. *)
Theorem http_chunk_overflow_panics (b : Build) :
  parse_response overflowing_response = Fault Panicked.
Proof. by destruct b as [[]]. Qed.
