(* ===== verification/Session.v ===== *)
(** * [hap-transport/src/{session,connection}.rs]: the secure session

    The writer cuts a request into blocks and frames them; the reader task
    decrypts frames, demultiplexes the plaintext into responses and events and
    sends them on two channels.  The socket is the list of reads it returns, the
    channels are the sequence of sends.  The theorems show that what the reader
    delivers does not depend on how TCP cuts the stream, and that it inverts the
    writer of the peer. *)

From S2P Require Import Prelude Text Tlv8 Crypto Stream RecordLayer Http.

(** ** Demultiplexing *)

Inductive Demuxed :=
| Response (r : HapResponse)
| Event (ev_body : bytes).

Definition demux_state : Type := list Demuxed * nat.

Section session.
Context `{C : Crypto} `{B : Build}.

Definition demux_body (buf : bytes) (st : demux_state)
    : result TransportError (flow demux_state demux_state) :=
  let '(out, offset) := st in
  rest ← slice buf offset (length buf);
  if bool_decide (rest = []) then Ok (Break (out, offset))
  else
    let is_event := starts_with EVENT_PREFIX rest in
    let is_http := starts_with HTTP_PREFIX rest in
    if negb is_event && negb is_http then
      if length rest <? length EVENT_PREFIX `max` length HTTP_PREFIX
      then Ok (Break (out, offset))
      else malformed "unrecognised start line in secure stream"
    else
      let prefix := if is_event then EVENT_PREFIX else HTTP_PREFIX in
      r ← parse_message rest prefix;
      match r with
      | Incomplete => Ok (Break (out, offset))
      | Complete response consumed =>
          let m := if is_event then Event (body response) else Response response in
          Ok (Continue (out ++ [m], offset + consumed))
      end.

Definition demux_messages (buf : bytes) : result TransportError (list Demuxed * nat) :=
  loop (S (length buf)) (demux_body buf) ([], 0).

(** ** The reader task *)

Record reader := { cipher_buf : bytes; plain_buf : bytes; counter : NonceCounter }.

Definition reader_init : reader :=
  {| cipher_buf := []; plain_buf := []; counter := counter_new |}.

(** [Vec::drain(..n)] panics past the end. *)
Definition drain_front {E} (buf : bytes) (n : nat) : result E bytes :=
  if n <=? length buf then Ok (drop n buf) else Fault Panicked.

(** The inner loop: decrypt every complete frame. *)
Definition drain_body (read_key : bytes) (st : reader) : result TransportError (flow reader reader) :=
  match decrypt_frame read_key (counter st) (cipher_buf st) with
  | (Ok (Some block), c) =>
      buf ← drain_front (cipher_buf st) (frame_len (length block));
      Ok (Continue {| cipher_buf := buf; plain_buf := plain_buf st ++ block; counter := c |})
  | (Ok None, c) =>
      Ok (Break {| cipher_buf := cipher_buf st; plain_buf := plain_buf st; counter := c |})
  | (Err e, _) => Err e
  | (Fault f, _) => Fault f
  end.

Definition drain_frames (read_key : bytes) (st : reader) : result TransportError reader :=
  loop (S (length (cipher_buf st))) (drain_body read_key) st.

Inductive Sent :=
| SentResponse (r : result TransportError HapResponse)
| SentEvent (ev_body : bytes).

(** The [for msg in messages] loop; [false] when the response receiver is gone
    and the task returns. *)
Fixpoint route (resp_open : bool) (messages : list Demuxed) : list Sent * bool :=
  match messages with
  | [] => ([], true)
  | Response r :: ms =>
      if resp_open then let '(s, b) := route resp_open ms in (SentResponse (Ok r) :: s, b)
      else ([], false)
  | Event ev :: ms => let '(s, b) := route resp_open ms in (SentEvent ev :: s, b)
  end.

(** One turn of the outer loop up to the read; [None] when the task returns. *)
Definition reader_pass (read_key : bytes) (resp_open : bool) (st : reader)
    : result TransportError (list Sent * option reader) :=
  match drain_frames read_key st with
  | Err e => Ok ([SentResponse (Err e)], None)
  | Fault f => Fault f
  | Ok st =>
      match demux_messages (plain_buf st) with
      | Err e => Ok ([SentResponse (Err e)], None)
      | Fault f => Fault f
      | Ok (messages, consumed) =>
          plain ← (if 0 <? consumed then drain_front (plain_buf st) consumed else Ok (plain_buf st));
          let '(sent, alive) := route resp_open messages in
          Ok (sent, if alive then Some {| cipher_buf := cipher_buf st; plain_buf := plain;
                                          counter := counter st |} else None)
      end
  end.

Inductive Read :=
| ReadOk (chunk : bytes)
| ReadErr (code : Z).

(** The task on a sequence of socket reads; an empty read is end of file.  The
    final state is [Some] when the task waits for a further read. *)
Fixpoint reader_task (read_key : bytes) (resp_open : bool) (st : reader) (reads : list Read)
    : result TransportError (list Sent * option reader) :=
  r ← reader_pass read_key resp_open st;
  match r, reads with
  | (sent, None), _ => Ok (sent, None)
  | (sent, Some st), [] => Ok (sent, Some st)
  | (sent, Some st), ReadErr code :: _ => Ok (sent ++ [SentResponse (Err (Io code))], None)
  | (sent, Some st), ReadOk chunk :: reads' =>
      if bool_decide (chunk = []) then Ok (sent ++ [SentResponse (Err ConnectionClosed)], None)
      else
        r ← reader_task read_key resp_open
              {| cipher_buf := cipher_buf st ++ chunk; plain_buf := plain_buf st;
                 counter := counter st |} reads';
        let '(sent', fin) := r in Ok (sent ++ sent', fin)
  end.

(** ** The writer half of [request] *)

Record WriterState := { w_counter : NonceCounter; write_key : bytes }.

(** The block loop: one [write_all] per frame; the result is the bytes written. *)
Definition write_request (w : WriterState) (method path ctype body : bytes)
    : result TransportError bytes * WriterState :=
  let plaintext := encode_request method path ctype body in
  let '(r, c) := encrypt_blocks (write_key w) (w_counter w) (chunks MAX_BLOCK plaintext) in
  (r, {| w_counter := c; write_key := write_key w |}).

(** [request]: write, then take the next message off the response channel. *)
Definition request (w : WriterState) (responses : list (result TransportError HapResponse))
    (method path ctype body : bytes)
    : result TransportError HapResponse * bytes * WriterState * list (result TransportError HapResponse) :=
  match write_request w method path ctype body with
  | (Ok wire, w) =>
      match responses with
      | r :: responses' => (r, wire, w, responses')
      | [] => (Err NoResponse, wire, w, [])
      end
  | (Err e, w) => (Err e, [], w, responses)
  | (Fault f, w) => (Fault f, [], w, responses)
  end.

(** [events] hands out the receiver once. *)
Definition events {A} (slot : option A) (closed : A) : A * option A :=
  (default closed slot, None).

(** ** The plaintext connection ([connection.rs]) *)

(** [request] on the pre-session connection: parse after every read. *)
Fixpoint connection_request (buf : bytes) (reads : list Read)
    : result TransportError (option HapResponse) :=
  r ← parse_response buf;
  match r, reads with
  | Complete response _, _ => Ok (Some response)
  | Incomplete, [] => Ok None
  | Incomplete, ReadErr code :: _ => Err (Io code)
  | Incomplete, ReadOk chunk :: reads' =>
      if bool_decide (chunk = []) then Err ConnectionClosed
      else connection_request (buf ++ chunk) reads'
  end.

(** ** Specification *)

(** One demultiplexing step on the plaintext stream. *)
Definition demux_step : step_fn (S := ()) (O := Demuxed) (E := TransportError) := fun _ rest =>
  if bool_decide (rest = []) then Ok None
  else
    let is_event := starts_with EVENT_PREFIX rest in
    let is_http := starts_with HTTP_PREFIX rest in
    if negb is_event && negb is_http then
      if length rest <? 9 then Ok None else malformed "unrecognised start line in secure stream"
    else
      r ← parse_message rest (if is_event then EVENT_PREFIX else HTTP_PREFIX);
      match r with
      | Incomplete => Ok None
      | Complete response consumed =>
          Ok (Some (if is_event then Event (body response) else Response response, consumed, ()))
      end.

End session.

Definition sent_of (m : Demuxed) : Sent :=
  match m with Response r => SentResponse (Ok r) | Event ev => SentEvent ev end.

(** * Lemmas *)

#[local] Arguments starts_with : simpl never.

Section demux.
Context `{B : Build}.

Lemma starts_with_stable (p l m : bytes) : starts_with p l = true -> starts_with p (l ++ m) = true.
Proof. intros H. rewrite starts_with_app_l; [done|]. by apply starts_with_length. Qed.

(** A buffer that is at least as long as the prefixes has its kind decided. *)
Lemma prefix_decided (l m : bytes) :
  starts_with EVENT_PREFIX l = true \/ starts_with HTTP_PREFIX l = true \/ 9 <= length l ->
  starts_with EVENT_PREFIX (l ++ m) = starts_with EVENT_PREFIX l /\
  (starts_with EVENT_PREFIX l = false ->
   starts_with HTTP_PREFIX (l ++ m) = starts_with HTTP_PREFIX l).
Proof.
  intros [He|[Hh|Hl]].
  - rewrite (starts_with_stable _ _ m He), He. done.
  - split; [|by rewrite (starts_with_stable _ _ m Hh), Hh].
    destruct l as [|b l]; [done|]. cbn in Hh. apply andb_true_iff in Hh as [Hb%bool_decide_eq_true _].
    subst b. done.
  - split; [|intros _]; apply starts_with_app_l; simpl; lia.
Qed.

#[export] Instance demux_step_stable : StableStep demux_step.
Proof.
  assert (forall buf more r, fits (buf ++ more) -> demux_step () buf = r -> r <> Ok None ->
            demux_step () (buf ++ more) = r) as Hst.
  { intros buf more r Hfit <- Hd. unfold demux_step in *.
    case_bool_decide as Hb; [done|]. rewrite bool_decide_false by (by destruct buf).
    assert (starts_with EVENT_PREFIX buf = true \/ starts_with HTTP_PREFIX buf = true \/ 9 <= length buf) as Hk.
    { destruct (starts_with EVENT_PREFIX buf); [by left|].
      destruct (starts_with HTTP_PREFIX buf); [by right; left|]. simpl in Hd.
      destruct (Nat.ltb_spec (length buf) 9); [done|]. by right; right. }
    destruct (prefix_decided buf more Hk) as [-> Hh].
    destruct (starts_with EVENT_PREFIX buf); simpl in *.
    2: rewrite Hh by done; destruct (starts_with HTTP_PREFIX buf); simpl in *.
    3: { destruct (Nat.ltb_spec (length buf) 9); [done|].
         by rewrite (proj2 (Nat.ltb_ge _ _)) by (rewrite length_app; lia). }
    all: destruct (parse_message buf _) as [[r k|]|e|f] eqn:Ep; simpl in *; try done;
      by rewrite (parse_message_stable _ _ _ _ Hfit Ep). }
  split.
  - intros [] buf o k [] Hfit. unfold demux_step. case_bool_decide; [done|].
    destruct (_ && _); [by destruct (_ <? _)|].
    destruct (parse_message buf _) as [[r n|]|?|?] eqn:Ep; simpl; try done.
    intros. simplify_eq. apply parse_message_bounds in Ep; [lia|done].
  - intros [] buf more o k [] Hfit H. by apply Hst.
  - intros [] buf more e Hfit H. by apply Hst.
  - intros [] buf more f Hfit H. by apply Hst.
Qed.

(** The offset loop of [demux_messages] is the consumer of [demux_step]. *)
Lemma demux_body_step pre rest out :
  demux_body (pre ++ rest) (out, length pre) =
    match demux_step () rest with
    | Ok None => Ok (Break (out, length pre))
    | Ok (Some (m, k, _)) => Ok (Continue (out ++ [m], length pre + k))
    | Err e => Err e
    | Fault f => Fault f
    end.
Proof.
  unfold demux_body, demux_step. rewrite slice_ok by (rewrite length_app; lia).
  cbn [mbind result_bind]. rewrite drop_app_length, take_ge by (rewrite length_app; lia).
  case_bool_decide; [done|]. destruct (_ && _).
  { change (length EVENT_PREFIX `max` length HTTP_PREFIX) with 9. by destruct (_ <? _). }
  by destruct (parse_message rest _) as [[r k|]|?|?].
Qed.

Lemma demux_runs pre rest out :
  fits rest ->
  runs (demux_body (pre ++ rest)) (out, length pre)
    match consume demux_step () rest with
    | Ok (ms, _, r) => Ok (out ++ ms, length pre + (length rest - length r))
    | Err e => Err e
    | Fault f => Fault f
    end.
Proof.
  intros Hfit. remember (length rest) as n eqn:Hn. revert pre rest out Hn Hfit.
  induction n as [n IH] using lt_wf_ind. intros pre rest out -> Hfit.
  rewrite consume_unfold by (done || apply _).
  pose proof (demux_body_step pre rest out) as Hb.
  destruct (demux_step () rest) as [[[[m k] []]|]|e|f] eqn:Es.
  - pose proof (step_bounds _ _ _ _ _ Hfit Es) as Hk.
    eapply runs_continue; [exact Hb|].
    specialize (IH (length (drop k rest)) ltac:(rewrite length_drop; lia) (pre ++ take k rest)
                  (drop k rest) (out ++ [m]) eq_refl ltac:(fits_tac)).
    rewrite <- app_assoc, take_drop, length_app, length_take, Nat.min_l in IH by lia.
    destruct (consume demux_step () (drop k rest)) as [[[ms u] r]|?|?] eqn:Ec; try done.
    rewrite <- app_assoc in IH. simpl in IH.
    apply consume_rest in Ec as [_ [t Ht]]; [|apply _|fits_tac].
    apply (f_equal length) in Ht. rewrite length_drop, length_app in Ht. rewrite length_drop in IH.
    replace (length pre + (length rest - length r))
      with (length pre + k + (length rest - k - length r)) by lia. done.
  - replace (length pre + (length rest - length rest)) with (length pre) by lia.
    rewrite app_nil_r. by apply runs_break.
  - by apply runs_err.
  - by apply runs_fault.
Qed.

Lemma demux_measure buf st st' :
  fits buf -> st.2 <= length buf -> demux_body buf st = Ok (Continue st') ->
  length buf - st'.2 < length buf - st.2 /\ st'.2 <= length buf.
Proof.
  destruct st as [out off]. cbn [snd]. intros Hfit Hoff H.
  pose proof (demux_body_step (take off buf) (drop off buf) out) as Hb.
  rewrite take_drop, length_take, Nat.min_l in Hb by lia. rewrite Hb in H.
  destruct (demux_step () (drop off buf)) as [[[[m k] []]|]|e|f] eqn:Es; simplify_eq/=.
  apply step_bounds in Es; [|fits_tac]. rewrite length_drop in Es. lia.
Qed.

Lemma demux_messages_consume buf :
  fits buf ->
  demux_messages buf =
    match consume demux_step () buf with
    | Ok (ms, _, r) => Ok (ms, length buf - length r)
    | Err e => Err e
    | Fault f => Fault f
    end.
Proof.
  intros Hfit. unfold demux_messages.
  eapply (loop_eq_runs _ (fun st => length buf - st.2) (fun st => st.2 <= length buf));
    [intros; by apply demux_measure|simpl; lia|simpl; lia|].
  exact (demux_runs [] buf [] Hfit).
Qed.
End demux.

Section reader.
Context `{HL : CryptoLaws} `{B : Build}.

Lemma decrypt_frame_none_counter key c buf c' :
  decrypt_frame key c buf = (Ok None, c') -> c' = c.
Proof.
  unfold decrypt_frame. intros Hd.
  repeat (case_match; simplify_eq; try done).
Qed.

Lemma drain_body_step key st :
  drain_body key st =
    match frame_step key (counter st) (cipher_buf st) with
    | Ok None => Ok (Break st)
    | Ok (Some (block, k, c)) =>
        Ok (Continue {| cipher_buf := drop k (cipher_buf st); plain_buf := plain_buf st ++ block; counter := c |})
    | Err e => Err e
    | Fault f => Fault f
    end.
Proof using HL.
  unfold drain_body, frame_step.
  destruct (decrypt_frame _ _ _) as [[[block|]|?|?] c] eqn:Ed; try done.
  - apply decrypt_frame_sound in Ed as (_ & frame & rest & -> & Hf).
    apply frame_of_length in Hf. unfold drain_front.
    by rewrite (proj2 (Nat.leb_le _ _)) by (rewrite length_app, Hf; lia).
  - apply decrypt_frame_none_counter in Ed as ->. by destruct st.
Qed.

(** Frames shrink: the blocks recovered are no longer than the bytes consumed. *)
Lemma frames_length key c buf os c' rest :
  fits buf -> consume (frame_step key) c buf = Ok (os, c', rest) ->
  length (mjoin os) + length rest <= length buf.
Proof using HL.
  intros Hfit. revert os. revert c buf Hfit. refine (consume_ind (frame_step key) _ _).
  intros c buf Hfit IH os H. rewrite consume_unfold in H by (done || apply _).
  destruct (frame_step key c buf) as [[[[o k] s1]|]|?|?] eqn:Es; simplify_eq; [|simpl; lia].
  destruct (consume _ s1 (drop k buf)) as [[[os1 s2] r2]|?|?] eqn:Ec; simplify_eq.
  specialize (IH o k s1 eq_refl _ Ec). rewrite length_drop in IH. simpl. rewrite length_app.
  pose proof (step_bounds _ _ _ _ _ Hfit Es).
  unfold frame_step in Es. destruct (decrypt_frame _ _ _) as [[[b|]|?|?] ?]; simplify_eq.
  unfold frame_len in *. lia.
Qed.

Lemma drain_frames_consume key st :
  fits (cipher_buf st) ->
  drain_frames key st =
    match consume (frame_step key) (counter st) (cipher_buf st) with
    | Ok (os, c, rest) =>
        Ok {| cipher_buf := rest; plain_buf := plain_buf st ++ mjoin os; counter := c |}
    | Err e => Err e
    | Fault f => Fault f
    end.
Proof using HL.
  intros Hfit. unfold drain_frames.
  assert (forall n st, fits (cipher_buf st) -> length (cipher_buf st) < n ->
    loop n (drain_body key) st =
      match consume (frame_step key) (counter st) (cipher_buf st) with
      | Ok (os, c, rest) =>
          Ok {| cipher_buf := rest; plain_buf := plain_buf st ++ mjoin os; counter := c |}
      | Err e => Err e
      | Fault f => Fault f
      end) as Hgen; [|apply Hgen; [done|lia]].
  clear st Hfit. induction n as [|n IH]; intros st Hfit Hlt; [lia|].
  rewrite loop_unfold, drain_body_step, consume_unfold by (done || apply _).
  destruct (frame_step key (counter st) (cipher_buf st)) as [[[[b k] c]|]|?|?] eqn:Es; try done.
  - apply step_bounds in Es; [|done].
    rewrite IH; simpl; [|fits_tac|rewrite length_drop; lia].
    destruct (consume _ c _) as [[[os c'] r]|?|?]; [|done..]. by rewrite <- app_assoc.
  - destruct st. simpl. by rewrite app_nil_r.
Qed.

Lemma route_open ms : route true ms = (sent_of <$> ms, true).
Proof. induction ms as [|[] ms IH]; simpl; [done|..]; by rewrite IH. Qed.

(** One pass of the reader, in terms of the two consumers. *)
Lemma reader_pass_spec key st os c rest ms r :
  fits (cipher_buf st) -> fits (plain_buf st ++ mjoin os) ->
  consume (frame_step key) (counter st) (cipher_buf st) = Ok (os, c, rest) ->
  consume demux_step () (plain_buf st ++ mjoin os) = Ok (ms, (), r) ->
  reader_pass key true st =
    Ok (sent_of <$> ms, Some {| cipher_buf := rest; plain_buf := r; counter := c |}).
Proof using HL.
  intros Hf1 Hf2 Hc Hd. unfold reader_pass. rewrite drain_frames_consume, Hc by done. cbn [plain_buf].
  rewrite demux_messages_consume, Hd by done.
  apply consume_rest in Hd as [_ [t Ht]]; [|apply _|done]. rewrite Ht.
  rewrite length_app, Nat.add_sub, route_open. unfold drain_front.
  destruct (Nat.ltb_spec 0 (length t)) as [H0|H0]; simpl.
  - rewrite (proj2 (Nat.leb_le _ _)) by (rewrite length_app; lia). simpl. by rewrite drop_app_length.
  - by destruct t; [|simpl in H0; lia].
Qed.

(** The reader over any segmentation of a stream that decrypts and demultiplexes
    sends exactly the messages of the stream. *)
Lemma reader_task_spec key st reads os c rest ms r :
  Forall (fun bs => bs <> []) reads ->
  fits (cipher_buf st ++ mjoin reads) -> fits (plain_buf st ++ mjoin os) ->
  consume (frame_step key) (counter st) (cipher_buf st ++ mjoin reads) = Ok (os, c, rest) ->
  consume demux_step () (plain_buf st ++ mjoin os) = Ok (ms, (), r) ->
  reader_task key true st (ReadOk <$> reads) =
    Ok (sent_of <$> ms, Some {| cipher_buf := rest; plain_buf := r; counter := c |}).
Proof using HL.
  intros Hne. revert st os ms. induction Hne as [|bs reads Hbs _ IH]; intros st os ms Hf1 Hf2 Hc Hd.
  { simpl in *. rewrite app_nil_r in *. by rewrite (reader_pass_spec _ _ _ _ _ _ _ Hf1 Hf2 Hc Hd). }
  simpl in Hf1, Hc. cbn [fmap list_fmap reader_task].
  destruct (consume (frame_step key) (counter st) (cipher_buf st)) as [[[os1 c1] r1]|e|f] eqn:E1.
  2:{ by rewrite (consume_err_app _ _ _ _ _ Hf1 E1) in Hc. }
  2:{ by rewrite (consume_fault_app _ _ _ _ _ Hf1 E1) in Hc. }
  rewrite (consume_app _ _ _ _ _ _ _ Hf1 E1) in Hc.
  destruct (consume (frame_step key) c1 (r1 ++ bs ++ mjoin reads)) as [[[os2 c2] r2]|?|?] eqn:E2; simplify_eq.
  rewrite join_app, app_assoc in Hd, Hf2.
  destruct (consume demux_step () (plain_buf st ++ mjoin os1)) as [[[ms1 []] pr1]|e|f] eqn:D1.
  2:{ by rewrite (consume_err_app _ _ _ _ _ Hf2 D1) in Hd. }
  2:{ by rewrite (consume_fault_app _ _ _ _ _ Hf2 D1) in Hd. }
  rewrite (consume_app _ _ _ _ _ _ _ Hf2 D1) in Hd.
  destruct (consume demux_step () (pr1 ++ mjoin os2)) as [[[ms2 []] pr2]|?|?] eqn:D2; simplify_eq.
  rewrite (reader_pass_spec key st os1 c1 r1 ms1 pr1 ltac:(fits_tac) ltac:(fits_tac) E1 D1).
  cbn [mbind result_bind]. rewrite bool_decide_false by done. cbn [cipher_buf plain_buf counter].
  apply consume_rest in E1 as [_ [t1 Ht1]]; [|apply _|fits_tac].
  apply consume_rest in D1 as [_ [t2 Ht2]]; [|apply _|fits_tac].
  rewrite Ht1 in Hf1. rewrite Ht2 in Hf2.
  rewrite (IH {| cipher_buf := r1 ++ bs; plain_buf := pr1; counter := c1 |} os2 ms2);
    cbn [cipher_buf plain_buf counter mbind result_bind].
  - by rewrite fmap_app.
  - fits_tac.
  - fits_tac.
  - by rewrite <- app_assoc.
  - done.
Qed.
End reader.

(** ** Streams of rendered messages *)

Record message := { m_prefix : bytes; m_reason : bytes; m_ctype : bytes; m_body : bytes; m_code : Z }.

Definition well_formed (m : message) : Prop :=
  message_ok (m_prefix m) (m_reason m) (m_ctype m) (m_body m) (m_code m).

Definition wire_form (m : message) : bytes :=
  rendered (m_prefix m) (m_reason m) (m_ctype m) (m_body m) (m_code m).

(** What the session makes of a message: an event keeps its body only. *)
Definition delivered (m : message) : Sent :=
  if bool_decide (m_prefix m = EVENT_PREFIX) then SentEvent (m_body m)
  else SentResponse (Ok {| status := m_code m; content_type := byteZ <$> m_ctype m; body := m_body m |}).

Section rendered.
Context `{B : Build}.

Lemma demux_step_rendered m rest :
  well_formed m ->
  exists d, sent_of d = delivered m /\
    demux_step () (wire_form m ++ rest) = Ok (Some (d, length (wire_form m), ())).
Proof.
  intros Hm. pose proof (parse_rendered _ _ _ _ _ rest Hm) as Hp.
  unfold demux_step, delivered. destruct Hm as ([Hh|Hh] & _).
  - rewrite (bool_decide_false (m_prefix m = EVENT_PREFIX)) by (by rewrite Hh).
    exists (Response {| status := m_code m; content_type := byteZ <$> m_ctype m; body := m_body m |}).
    split; [done|]. unfold wire_form. rewrite Hh in *.
    rewrite bool_decide_false by done.
    assert (starts_with EVENT_PREFIX (rendered HTTP_PREFIX (m_reason m) (m_ctype m) (m_body m) (m_code m) ++ rest)
            = false) as -> by done.
    assert (starts_with HTTP_PREFIX (rendered HTTP_PREFIX (m_reason m) (m_ctype m) (m_body m) (m_code m) ++ rest)
            = true) as -> by done.
    cbn [negb andb]. by rewrite Hp.
  - rewrite (bool_decide_true (m_prefix m = EVENT_PREFIX)) by done.
    exists (Event (m_body m)). split; [done|]. unfold wire_form. rewrite Hh in *.
    rewrite bool_decide_false by done.
    assert (starts_with EVENT_PREFIX (rendered EVENT_PREFIX (m_reason m) (m_ctype m) (m_body m) (m_code m) ++ rest)
            = true) as -> by done.
    cbn [negb andb]. by rewrite Hp.
Qed.

Lemma consume_rendered ms :
  Forall well_formed ms -> fits (mjoin (wire_form <$> ms)) ->
  exists ds, sent_of <$> ds = delivered <$> ms /\
    consume demux_step () (mjoin (wire_form <$> ms)) = Ok (ds, (), []).
Proof.
  intros Hms. induction Hms as [|m ms Hm _ IH]; intros Hfit.
  { exists []. split; [done|]. by rewrite consume_unfold by (done || apply _). }
  change (mjoin (wire_form <$> m :: ms)) with (wire_form m ++ mjoin (wire_form <$> ms)) in Hfit |- *.
  destruct IH as (ds & Hds & Hc); [fits_tac|].
  destruct (demux_step_rendered m (mjoin (wire_form <$> ms)) Hm) as (d & Hd & Hs).
  exists (d :: ds). split; [rewrite !fmap_cons; by rewrite Hd, Hds|].
  rewrite consume_unfold by (done || apply _). rewrite Hs, drop_app_length. by rewrite Hc.
Qed.
End rendered.

(** * Properties *)

(** C5: Delivery over the secure session.  If the accessory sends any sequence of
    responses and events, cut into any blocks of at most 1024 bytes and encrypted
    under the session's read key, then however TCP splits the bytes into reads the
    reader task hands over exactly those responses and events, in order, and is
    left with empty buffers and the accessory's counter. *)
Theorem session_delivers `{CryptoLaws} `{Build} key ms blocks wire c' reads :
  Forall well_formed ms ->
  mjoin blocks = mjoin (wire_form <$> ms) -> Forall (fun b => length b <= MAX_BLOCK) blocks ->
  encrypt_blocks key counter_new blocks = (Ok wire, c') ->
  mjoin reads = wire -> Forall (fun bs => bs <> []) reads -> fits wire ->
  reader_task key true reader_init (ReadOk <$> reads) =
    Ok (delivered <$> ms, Some {| cipher_buf := []; plain_buf := []; counter := c' |}).
Proof.
  intros Hms Hbl Hsz Henc <- Hne Hfit.
  destruct (encrypt_blocks_consume key counter_new blocks Hsz) as (w & c1 & Hw & Hcons).
  rewrite Henc in Hw. injection Hw as <- <-.
  specialize (Hcons [] ltac:(by rewrite app_nil_r)). rewrite app_nil_r in Hcons.
  rewrite (consume_unfold (frame_step key) c' []) in Hcons by (done || apply _).
  change (frame_step key c' []) with (Ok (E:=TransportError) (@None (bytes * nat * NonceCounter))) in Hcons.
  cbn iota in Hcons. rewrite app_nil_r in Hcons.
  pose proof (frames_length _ _ _ _ _ _ Hfit Hcons) as Hlen. rewrite Hbl in Hlen. cbn [length] in Hlen.
  assert (fits (mjoin (wire_form <$> ms))) as Hfit' by (unfold fits in *; lia).
  destruct (consume_rendered ms Hms Hfit') as (ds & Hds & Hd).
  rewrite <- Hds.
  eapply (reader_task_spec key reader_init reads blocks c' []); [done|done| |exact Hcons|].
  - cbn [reader_init plain_buf app]. by rewrite Hbl.
  - cbn [reader_init plain_buf app]. rewrite Hbl. exact Hd.
Qed.

Definition sample_messages : list message :=
  [{| m_prefix := EVENT_PREFIX; m_reason := str "OK"; m_ctype := str "t"; m_body := [x01]; m_code := 200 |};
   {| m_prefix := HTTP_PREFIX; m_reason := str "No Content"; m_ctype := str "t"; m_body := []; m_code := 204 |}].

Definition sample_wire : bytes :=
  match (encrypt_blocks (replicate 32 x02) counter_new (chunks 40 (mjoin (wire_form <$> sample_messages)))).1 with
  | Ok w => w | _ => []
  end.

Lemma sample_messages_ok : Forall well_formed sample_messages.
Proof.
  apply List.Forall_cons; [by apply message_ok_check|].
  apply List.Forall_cons; [by apply message_ok_check|]. constructor.
Qed.

Lemma session_delivers_witness :
  let b := {| overflow_checks := true; debug_assertions := true |} in
  reader_task (replicate 32 x02) true reader_init (ReadOk <$> chunks 7 sample_wire) =
    Ok (delivered <$> sample_messages, Some {| cipher_buf := []; plain_buf := []; counter := 3%Z |}).
Proof.
  intros b. apply (session_delivers (H := toy_crypto_laws) (replicate 32 x02) sample_messages
    (chunks 40 (mjoin (wire_form <$> sample_messages))) sample_wire).
  - apply sample_messages_ok.
  - by vm_compute.
  - apply (bool_decide_unpack _). by vm_compute.
  - by vm_compute.
  - by vm_compute.
  - apply (bool_decide_unpack _). by vm_compute.
  - by vm_compute.
Defined.

(** The writer half of the session: a request of any size, cut into 1024-byte
    blocks and framed, is recovered exactly by a peer that decrypts with the
    session's write key, in whatever pieces the bytes arrive; the peer's counter
    ends where the writer's does. *)
Theorem session_request_recovered `{CryptoLaws} w method path ctype body wire w' reads :
  write_request w method path ctype body = (Ok wire, w') ->
  mjoin reads = wire -> fits wire ->
  exists blocks, feed (frame_step (write_key w)) (w_counter w) [] reads = Ok (blocks, w_counter w', []) /\
    mjoin blocks = encode_request method path ctype body.
Proof.
  intros Hw <- Hfit. unfold write_request in Hw.
  set (p := encode_request method path ctype body) in *.
  assert (Forall (fun b => length b <= MAX_BLOCK) (chunks MAX_BLOCK p)) as Hsz.
  { apply Forall_forall. intros b Hb. apply chunks_length_le in Hb; [lia|unfold MAX_BLOCK; lia]. }
  destruct (encrypt_blocks_consume (write_key w) (w_counter w) _ Hsz) as (wire & c' & He & Hc).
  rewrite He in Hw. injection Hw as -> <-.
  exists (chunks MAX_BLOCK p). split; [|apply chunks_concat; unfold MAX_BLOCK; lia].
  apply consume_feed; [apply _|done|done|]. rewrite app_nil_l.
  specialize (Hc [] ltac:(by rewrite app_nil_r)). rewrite app_nil_r in Hc. rewrite Hc.
  rewrite consume_unfold by (done || apply _).
  change (frame_step (write_key w) c' []) with (Ok (E:=TransportError) (@None (bytes * nat * NonceCounter))).
  cbn iota. by rewrite app_nil_r.
Qed.

Definition sample_request : bytes :=
  match (write_request {| w_counter := 3%Z; write_key := replicate 32 x09 |} (str "GET") (str "/accessories")
           (str "t") (replicate 40 x41)).1 with Ok w => w | _ => [] end.

Lemma session_request_recovered_witness :
  exists blocks,
    feed (frame_step (replicate 32 x09)) 3%Z [] [take 5 sample_request; drop 5 sample_request] =
      Ok (blocks, 4%Z, []) /\
    mjoin blocks = encode_request (str "GET") (str "/accessories") (str "t") (replicate 40 x41).
Proof.
  apply (session_request_recovered (H := toy_crypto_laws)
    {| w_counter := 3%Z; write_key := replicate 32 x09 |} (str "GET") (str "/accessories") (str "t")
    (replicate 40 x41) sample_request {| w_counter := 4%Z; write_key := replicate 32 x09 |});
    by vm_compute.
Defined.

(** Demultiplexing a prefix of the stream and then the leftover with the rest
    of the stream gives the same messages as demultiplexing the whole stream. *)
Theorem demux_incremental `{Build} a b ms n :
  fits (a ++ b) -> demux_messages a = Ok (ms, n) ->
  demux_messages (a ++ b) =
    match demux_messages (drop n a ++ b) with
    | Ok (ms', n') => Ok (ms ++ ms', n + n')
    | Err e => Err e
    | Fault f => Fault f
    end.
Proof.
  intros Hfit. rewrite (demux_messages_consume a), (demux_messages_consume (a ++ b)) by fits_tac.
  destruct (consume demux_step () a) as [[[os []] r]|?|?] eqn:Ec; intros; simplify_eq.
  rewrite (consume_app _ _ _ _ _ _ _ Hfit Ec).
  apply consume_rest in Ec as [_ [t ->]]; [|apply _|fits_tac].
  replace (length (t ++ r) - length r) with (length t) by (rewrite length_app; lia).
  rewrite drop_app_length. rewrite (demux_messages_consume (r ++ b)) by (rewrite <- app_assoc in Hfit; fits_tac).
  destruct (consume demux_step () (r ++ b)) as [[[os2 []] r2]|?|?] eqn:Ec2; try done.
  apply consume_rest in Ec2 as [_ [t2 Ht2]]; [|apply _|rewrite <- app_assoc in Hfit; fits_tac].
  apply (f_equal length) in Ht2. rewrite !length_app in *. do 2 f_equal. lia.
Qed.

Lemma demux_incremental_witness :
  let b := {| overflow_checks := true; debug_assertions := true |} in
  let s := mjoin (wire_form <$> sample_messages) in
  demux_messages (take 70 s ++ drop 70 s) =
    match demux_messages (drop 57 (take 70 s) ++ drop 70 s) with
    | Ok (ms', n') => Ok ([Event [x01]] ++ ms', 57 + n')
    | Err e => Err e
    | Fault f => Fault f
    end.
Proof. intros b s. apply demux_incremental; by vm_compute. Defined.
