(* ===== verification/Srp.v ===== *)
(** * [hap-crypto/src/srp.rs]: SRP-6a over the HAP group

    The client and the server of the password-authenticated key exchange, as
    the source writes them, over [num_bigint]'s [BigUint].  A [BigUint] is a
    non-negative [Z] with [+], [*], [%] the arithmetic operations; [modpow] and
    the conversions are the operations of the class [BigUintOps], with their
    documented meaning in [BigUintLaws].  The agreement theorems show that the two
    sides derive the same session key and accept each other's proofs. *)

From Stdlib Require Import Zpow_facts.
From S2P Require Import Prelude Tlv8 Crypto.

Local Open Scope Z_scope.

(** ** [num_bigint] *)

Class BigUintOps := {
  modpow (base exp modulus : Z) : Z;
  from_bytes_be (bs : bytes) : Z;
  to_bytes_be (z : Z) : bytes;
  bits (z : Z) : Z;
}.

Class BigUintLaws (B : BigUintOps) := {
  modpow_spec b e m : 0 <= b -> 0 <= e -> 0 < m -> modpow b e m = (b ^ e) mod m;
  from_bytes_be_spec bs : from_bytes_be bs = be_Z bs;
  to_bytes_be_value z : 0 <= z -> be_Z (to_bytes_be z) = z;
  to_bytes_be_short z w : 0 <= z < 256 ^ Z.of_nat w -> (1 <= w)%nat -> (length (to_bytes_be z) <= w)%nat;
  bits_spec z : 0 < z -> bits z = Z.log2 z + 1;
}.

(** ** The group *)

Definition HAP_N_3072 : bytes :=
  [xff; xff; xff; xff; xff; xff; xff; xff; xc9; x0f; xda; xa2; x21; x68; xc2; x34;
   xc4; xc6; x62; x8b; x80; xdc; x1c; xd1; x29; x02; x4e; x08; x8a; x67; xcc; x74;
   x02; x0b; xbe; xa6; x3b; x13; x9b; x22; x51; x4a; x08; x79; x8e; x34; x04; xdd;
   xef; x95; x19; xb3; xcd; x3a; x43; x1b; x30; x2b; x0a; x6d; xf2; x5f; x14; x37;
   x4f; xe1; x35; x6d; x6d; x51; xc2; x45; xe4; x85; xb5; x76; x62; x5e; x7e; xc6;
   xf4; x4c; x42; xe9; xa6; x37; xed; x6b; x0b; xff; x5c; xb6; xf4; x06; xb7; xed;
   xee; x38; x6b; xfb; x5a; x89; x9f; xa5; xae; x9f; x24; x11; x7c; x4b; x1f; xe6;
   x49; x28; x66; x51; xec; xe4; x5b; x3d; xc2; x00; x7c; xb8; xa1; x63; xbf; x05;
   x98; xda; x48; x36; x1c; x55; xd3; x9a; x69; x16; x3f; xa8; xfd; x24; xcf; x5f;
   x83; x65; x5d; x23; xdc; xa3; xad; x96; x1c; x62; xf3; x56; x20; x85; x52; xbb;
   x9e; xd5; x29; x07; x70; x96; x96; x6d; x67; x0c; x35; x4e; x4a; xbc; x98; x04;
   xf1; x74; x6c; x08; xca; x18; x21; x7c; x32; x90; x5e; x46; x2e; x36; xce; x3b;
   xe3; x9e; x77; x2c; x18; x0e; x86; x03; x9b; x27; x83; xa2; xec; x07; xa2; x8f;
   xb5; xc5; x5d; xf0; x6f; x4c; x52; xc9; xde; x2b; xcb; xf6; x95; x58; x17; x18;
   x39; x95; x49; x7c; xea; x95; x6a; xe5; x15; xd2; x26; x18; x98; xfa; x05; x10;
   x15; x72; x8e; x5a; x8a; xaa; xc4; x2d; xad; x33; x17; x0d; x04; x50; x7a; x33;
   xa8; x55; x21; xab; xdf; x1c; xba; x64; xec; xfb; x85; x04; x58; xdb; xef; x0a;
   x8a; xea; x71; x57; x5d; x06; x0c; x7d; xb3; x97; x0f; x85; xa6; xe1; xe4; xc7;
   xab; xf5; xae; x8c; xdb; x09; x33; xd7; x1e; x8c; x94; xe0; x4a; x25; x61; x9d;
   xce; xe3; xd2; x26; x1a; xd2; xee; x6b; xf1; x2f; xfa; x06; xd9; x8a; x08; x64;
   xd8; x76; x02; x73; x3e; xc8; x6a; x64; x52; x1f; x2b; x18; x17; x7b; x20; x0c;
   xbb; xe1; x17; x57; x7a; x61; x5d; x6c; x77; x09; x88; xc0; xba; xd9; x46; xe2;
   x08; xe2; x4f; xa0; x74; xe5; xab; x31; x43; xdb; x5b; xfc; xe0; xfd; x10; x8e;
   x4b; x82; xd1; x20; xa9; x3a; xd2; xca; xff; xff; xff; xff; xff; xff; xff; xff].

Record SrpGroup := { modulus : Z; generator : Z; n_len : nat }.

Section srp.
Context `{C : Crypto} `{B : BigUintOps}.

Definition group_new (n_be g_be : bytes) : result CryptoError SrpGroup :=
  let n := from_bytes_be n_be in
  if n =? 0 then Err (SrpBadParameters "group modulus N is zero")
  else Ok {| modulus := n; generator := from_bytes_be g_be; n_len := Z.to_nat ((bits n + 7) / 8) |}.

Definition hap_group : result CryptoError SrpGroup := group_new HAP_N_3072 [x05].

Definition pad_be (value : Z) (width : nat) : bytes :=
  let raw := to_bytes_be value in
  if (width <=? length raw)%nat then raw else replicate (width - length raw) x00 ++ raw.

Definition pad (group : SrpGroup) (value : Z) : bytes := pad_be value (n_len group).

(** ** Shared computations; a [Digest] fed by [update] hashes the concatenation *)

Definition compute_k (group : SrpGroup) : Z :=
  from_bytes_be (sha512 (to_bytes_be (modulus group) ++ pad group (generator group))).

Definition compute_x (salt username password : bytes) : Z :=
  let inner := sha512 (username ++ str ":" ++ password) in
  from_bytes_be (sha512 (salt ++ inner)).

Definition compute_v (group : SrpGroup) (x : Z) : Z := modpow (generator group) x (modulus group).

Definition compute_u (group : SrpGroup) (a_pub b_pub : Z) : Z :=
  from_bytes_be (sha512 (pad group a_pub ++ pad group b_pub)).

Definition compute_b (group : SrpGroup) (k v b_priv : Z) : Z :=
  let n := modulus group in
  let gb := modpow (generator group) b_priv n in
  ((k * v) mod n + gb) mod n.

Definition proof_m1 (group : SrpGroup) (username salt : bytes) (a_pub b_pub : Z) (session_key : bytes)
    : bytes :=
  let h_n := sha512 (to_bytes_be (modulus group)) in
  let h_g := sha512 (to_bytes_be (generator group)) in
  let h_xor := zip_with byte_xor h_n h_g in
  let h_i := sha512 username in
  sha512 (h_xor ++ h_i ++ salt ++ pad group a_pub ++ pad group b_pub ++ session_key).

Definition proof_m2 (group : SrpGroup) (a_pub : Z) (m1 session_key : bytes) : bytes :=
  sha512 (pad group a_pub ++ m1 ++ session_key).

Definition ct_eq (a b : bytes) : bool :=
  if negb (length a =? length b)%nat then false else bool_decide (a = b).

(** ** Server *)

Record SrpServer := {
  sv_group : SrpGroup; sv_username : bytes; sv_salt : bytes;
  sv_v : Z; sv_b : Z; sv_b_pub : Z;
}.

Definition with_salt_and_private (group : SrpGroup) (username password salt : bytes) (b : Z) : SrpServer :=
  let x := compute_x salt username password in
  let v := compute_v group x in
  let k := compute_k group in
  let b_pub := compute_b group k v b in
  {| sv_group := group; sv_username := username; sv_salt := salt; sv_v := v; sv_b := b; sv_b_pub := b_pub |}.

(** [SrpServer::new] draws the salt and [b] from the operating system: the random
    bytes are arguments. *)
Definition srp_server_new (salt b : bytes) (group : SrpGroup) (username password : bytes) : SrpServer :=
  with_salt_and_private group username password salt (from_bytes_be b).

Definition sv_b_pub_bytes (s : SrpServer) : bytes := pad (sv_group s) (sv_b_pub s).

Definition sv_session_key (s : SrpServer) (a_pub : Z) : result CryptoError bytes :=
  let n := modulus (sv_group s) in
  if a_pub mod n =? 0 then Err (SrpBadParameters "client public A is zero mod N")
  else
    let u := compute_u (sv_group s) a_pub (sv_b_pub s) in
    if u =? 0 then Err SrpProofMismatch
    else
      let vu := modpow (sv_v s) u n in
      let base := (a_pub * vu) mod n in
      let premaster := modpow base (sv_b s) n in
      Ok (sha512 (pad (sv_group s) premaster)).

Definition sv_verify_m1_prove_m2 (s : SrpServer) (a_pub : Z) (session_key received_m1 : bytes)
    : result CryptoError bytes :=
  let expected_m1 := proof_m1 (sv_group s) (sv_username s) (sv_salt s) a_pub (sv_b_pub s) session_key in
  if negb (ct_eq expected_m1 received_m1) then Err SrpProofMismatch
  else Ok (proof_m2 (sv_group s) a_pub received_m1 session_key).

(** ** Client *)

Record SrpClient := { cl_group : SrpGroup; cl_username : bytes; cl_a : Z; cl_a_pub : Z }.

Definition with_private (group : SrpGroup) (username : bytes) (a : Z) : result CryptoError SrpClient :=
  let a_pub := modpow (generator group) a (modulus group) in
  if a_pub mod modulus group =? 0 then Err (SrpBadParameters "client public A is zero mod N")
  else Ok {| cl_group := group; cl_username := username; cl_a := a; cl_a_pub := a_pub |}.

(** [SrpClient::new]: the random bytes are an argument. *)
Definition srp_client_new (random : bytes) (group : SrpGroup) (username : bytes)
    : result CryptoError SrpClient :=
  with_private group username (from_bytes_be random).

Definition a_pub_bytes (c : SrpClient) : bytes := pad (cl_group c) (cl_a_pub c).

Definition premaster (c : SrpClient) (salt password : bytes) (b_pub : Z) : result CryptoError Z :=
  let n := modulus (cl_group c) in
  if b_pub mod n =? 0 then Err (SrpBadParameters "server public B is zero mod N")
  else
    let k := compute_k (cl_group c) in
    let x := compute_x salt (cl_username c) password in
    let u := compute_u (cl_group c) (cl_a_pub c) b_pub in
    if u =? 0 then Err SrpProofMismatch
    else
      let gx := modpow (generator (cl_group c)) x n in
      let kgx := (k * gx) mod n in
      (* [BigUint] subtraction panics below zero *)
      if b_pub + n <? kgx then Fault Panicked
      else
        let base := (b_pub + n - kgx) mod n in
        let exp := cl_a c + u * x in
        Ok (modpow base exp n).

Definition cl_session_key (c : SrpClient) (premaster : Z) : bytes := sha512 (pad (cl_group c) premaster).

Definition cl_proof_m1 (c : SrpClient) (salt : bytes) (b_pub : Z) (session_key : bytes) : bytes :=
  proof_m1 (cl_group c) (cl_username c) salt (cl_a_pub c) b_pub session_key.

Definition expected_m2 (c : SrpClient) (m1 session_key : bytes) : bytes :=
  proof_m2 (cl_group c) (cl_a_pub c) m1 session_key.

Definition verify_m2 (c : SrpClient) (m1 session_key received : bytes) : result CryptoError () :=
  if ct_eq (expected_m2 c m1 session_key) received then Ok () else Err SrpProofMismatch.

End srp.

(** ** The arithmetic instance *)

(** Square and multiply. *)
Fixpoint pos_modpow (b m : Z) (e : positive) : Z :=
  match e with
  | xH => b mod m
  | xO e' => let h := pos_modpow b m e' in (h * h) mod m
  | xI e' => let h := pos_modpow b m e' in (h * h * b) mod m
  end.

Definition Z_modpow (b e m : Z) : Z :=
  match e with Zpos p => pos_modpow b m p | _ => 1 mod m end.

Definition Z_bytes (z : Z) : nat := Z.to_nat (Z.log2 z / 8) + 1.

#[export] Instance std_biguint : BigUintOps := {|
  modpow := Z_modpow;
  from_bytes_be := be_Z;
  to_bytes_be z := reverse (le_bytes (Z_bytes z) z);
  bits z := if z =? 0 then 0 else Z.log2 z + 1;
|}.

(** * Lemmas *)

(** ** The instance satisfies the laws *)

Lemma pos_modpow_spec b m e : 0 < m -> pos_modpow b m e = (b ^ Zpos e) mod m.
Proof.
  intros Hm. induction e as [e IH|e IH|]; cbn [pos_modpow]; cbv zeta; rewrite ?IH.
  - rewrite Pos2Z.inj_xI. replace (2 * Z.pos e + 1) with (Z.pos e + Z.pos e + 1) by lia.
    rewrite !Z.pow_add_r, Z.pow_1_r by lia.
    rewrite <- Z.mul_mod_idemp_l, <- Z.mul_mod by lia. by rewrite Z.mul_mod_idemp_l by lia.
  - rewrite Pos2Z.inj_xO. replace (2 * Z.pos e) with (Z.pos e + Z.pos e) by lia.
    rewrite Z.pow_add_r by lia. by rewrite <- Z.mul_mod by lia.
  - by rewrite Z.pow_1_r.
Qed.

Lemma Z_bytes_spec z : 0 <= z -> z < 256 ^ Z.of_nat (Z_bytes z).
Proof.
  intros Hz. destruct (decide (z = 0)) as [->|]; [done|].
  unfold Z_bytes. pose proof (Z.log2_nonneg z). pose proof (Z.log2_spec z ltac:(lia)) as [_ Hlt].
  rewrite Nat2Z.inj_add, Z2Nat.id by (apply Z.div_pos; lia).
  change 256 with (2 ^ 8). rewrite <- Z.pow_mul_r by (pose proof (Z.div_pos (Z.log2 z) 8); lia).
  eapply Z.lt_le_trans; [exact Hlt|]. apply Z.pow_le_mono_r; [lia|].
  pose proof (Z.mod_pos_bound (Z.log2 z) 8). pose proof (Z.div_mod (Z.log2 z) 8). lia.
Qed.

#[export] Instance std_biguint_laws : BigUintLaws std_biguint.
Proof.
  split; cbn [std_biguint modpow from_bytes_be to_bytes_be bits].
  - intros b e m Hb He Hm. destruct e as [|e|e]; [done|by apply pos_modpow_spec|lia].
  - done.
  - intros z Hz. unfold be_Z. rewrite reverse_involutive. apply le_Z_le_bytes_small.
    split; [done|by apply Z_bytes_spec].
  - intros z w Hz Hw. rewrite length_reverse, length_le_bytes. unfold Z_bytes.
    destruct (decide (z = 0)) as [->|]; [simpl; lia|].
    assert (Z.log2 z < 8 * Z.of_nat w).
    { apply Z.log2_lt_pow2; [lia|]. rewrite Z.pow_mul_r by lia. apply Hz. }
    pose proof (Z.div_lt_upper_bound (Z.log2 z) 8 (Z.of_nat w) ltac:(lia) ltac:(lia)).
    pose proof (Z.log2_nonneg z). pose proof (Z.div_pos (Z.log2 z) 8). lia.
  - intros z Hz. by rewrite (proj2 (Z.eqb_neq _ _)) by lia.
Qed.

(** ** Padding *)

Lemma be_Z_zeros n bs : be_Z (replicate n x00 ++ bs) = be_Z bs.
Proof. unfold be_Z. rewrite reverse_app, reverse_replicate, le_Z_app, le_Z_zeros. lia. Qed.

Lemma be_Z_bound bs : 0 <= be_Z bs.
Proof. unfold be_Z. apply le_Z_bound. Qed.

Section agreement.
Context `{C : Crypto} `{HB : BigUintLaws}.

Lemma from_pad_be v w : 0 <= v -> from_bytes_be (pad_be v w) = v.
Proof using HB.
  intros Hv. rewrite from_bytes_be_spec. unfold pad_be.
  destruct (_ <=? _)%nat; rewrite ?be_Z_zeros; by apply to_bytes_be_value.
Qed.

Lemma length_pad_be v w : 0 <= v < 256 ^ Z.of_nat w -> (1 <= w)%nat -> length (pad_be v w) = w.
Proof using HB.
  intros Hv Hw. unfold pad_be. pose proof (to_bytes_be_short v w Hv Hw).
  destruct (Nat.leb_spec w (length (to_bytes_be v))); [lia|].
  rewrite length_app, length_replicate. lia.
Qed.

Lemma from_pad group v : 0 <= v -> from_bytes_be (pad group v) = v.
Proof using HB. apply from_pad_be. Qed.

Lemma from_bytes_be_nonneg bs : 0 <= from_bytes_be bs.
Proof using HB. rewrite from_bytes_be_spec. apply be_Z_bound. Qed.

Lemma modpow_range b e m : 0 <= b -> 0 <= e -> 0 < m -> 0 <= modpow b e m < m.
Proof using HB. intros. rewrite modpow_spec by done. by apply Z.mod_pos_bound. Qed.

Lemma ct_eq_refl a : ct_eq a a = true.
Proof. unfold ct_eq. by rewrite Nat.eqb_refl, bool_decide_true. Qed.

Lemma ct_eq_true a b : ct_eq a b = true -> a = b.
Proof. unfold ct_eq. destruct (negb _); [done|]. by intros ?%bool_decide_eq_true. Qed.

(** The exponent identity behind SRP-6a. *)
Lemma srp_identity N g a b x u k :
  0 < N -> 0 <= g -> 0 <= a -> 0 <= b -> 0 <= x -> 0 <= u -> 0 <= k ->
  let v := (g ^ x) mod N in
  let Bp := ((k * v) mod N + (g ^ b) mod N) mod N in
  let base := (Bp + N - (k * v) mod N) mod N in
  (base ^ (a + u * x)) mod N = ((((g ^ a) mod N * ((v ^ u) mod N)) mod N) ^ b) mod N.
Proof.
  intros HN Hg Ha Hb Hx Hu Hk v Bp base.
  assert (base = (g ^ b) mod N) as ->.
  { unfold base, Bp. set (kv := (k * v) mod N). set (gb := (g ^ b) mod N).
    replace ((kv + gb) mod N + N - kv) with (((kv + gb) mod N - kv) + 1 * N) by lia.
    rewrite Z.mod_add by lia. rewrite Zminus_mod_idemp_l.
    replace (kv + gb - kv) with gb by lia. apply Z.mod_small. by apply Z.mod_pos_bound. }
  rewrite <- (Zpower_mod (g ^ b)), <- Z.pow_mul_r by nia.
  rewrite <- (Z.mul_mod (g ^ a) (v ^ u)) by lia.
  rewrite <- Zpower_mod by done. rewrite (Zpower_mod (g ^ a * v ^ u)) by done.
  rewrite Z.mul_mod by lia. unfold v. rewrite <- (Zpower_mod (g ^ x) u) by done.
  rewrite <- Z.mul_mod by lia. rewrite <- Zpower_mod by done.
  rewrite <- (Z.pow_mul_r g x u), <- Z.pow_add_r, <- Z.pow_mul_r by nia.
  f_equal. f_equal. lia.
Qed.

(** What both sides of an exchange agree on. *)
Lemma srp_agreement group username password salt a b c :
  0 < modulus group -> 0 <= generator group -> 0 <= a -> 0 <= b ->
  with_private group username a = Ok c ->
  let s := with_salt_and_private group username password salt b in
  sv_b_pub s mod modulus group <> 0 ->
  compute_u group (cl_a_pub c) (sv_b_pub s) <> 0 ->
  exists S, premaster c salt password (sv_b_pub s) = Ok S /\ 0 <= S < modulus group /\
    sv_session_key s (cl_a_pub c) = Ok (cl_session_key c S).
Proof using HB.
  intros HN Hg Ha Hb Hc s HB0 Hu. unfold with_private in Hc.
  destruct (Z.eqb_spec (modpow (generator group) a (modulus group) mod modulus group) 0); [done|].
  injection Hc as <-. cbn [cl_a_pub cl_group cl_username cl_a] in *.
  set (x := compute_x salt username password). assert (0 <= x) as Hx by apply from_bytes_be_nonneg.
  set (u := compute_u _ _ _) in *. assert (0 <= u) as Hu0 by apply from_bytes_be_nonneg.
  set (k := compute_k group). assert (0 <= k) as Hk by apply from_bytes_be_nonneg.
  unfold premaster, sv_session_key. cbn [cl_a_pub cl_group cl_username cl_a sv_group].
  rewrite !(proj2 (Z.eqb_neq _ 0)) by done. fold x k. cbv zeta.
  change (compute_u group (modpow (generator group) a (modulus group)) (sv_b_pub s)) with u.
  change (compute_u (sv_group s) (modpow (generator group) a (modulus group)) (sv_b_pub s)) with u.
  change (modulus (sv_group s)) with (modulus group). change (sv_group s) with group.
  clearbody u.
  assert (0 <= sv_b_pub s) as HBn by (apply Z.mod_pos_bound; lia).
  pose proof (Z.mod_pos_bound (k * modpow (generator group) x (modulus group)) (modulus group) HN).
  rewrite (proj2 (Z.ltb_ge _ _)) by lia.
  eexists. split; [done|].
  assert (0 <= (sv_b_pub s + modulus group - (k * modpow (generator group) x (modulus group)) mod modulus group)
               mod modulus group) by (apply Z.mod_pos_bound; lia).
  split; [apply modpow_range; nia|]. f_equal. unfold cl_session_key. cbn [cl_group].
  f_equal. f_equal. subst s. cbn [with_salt_and_private sv_v sv_b sv_b_pub]. fold x k.
  unfold compute_b, compute_v. rewrite !modpow_spec; try done; try nia;
    try (by apply modpow_range); try (apply Z.mod_pos_bound; lia).
  symmetry. by apply srp_identity.
Qed.
End agreement.

(** The HAP group. *)
Lemma hap_group_ok `{BigUintLaws} :
  exists g, hap_group = Ok g /\ modulus g = be_Z HAP_N_3072 /\ generator g = 5 /\ n_len g = 384%nat.
Proof.
  unfold hap_group, group_new. rewrite !from_bytes_be_spec.
  rewrite (proj2 (Z.eqb_neq _ _)) by (by vm_compute). eexists. split; [done|].
  cbn [modulus generator n_len]. split; [done|]. split; [done|].
  rewrite bits_spec by (by vm_compute). by vm_compute.
Qed.

Lemma with_private_group `{Crypto} `{BigUintOps} group username a c :
  with_private group username a = Ok c ->
  cl_group c = group /\ cl_username c = username /\ cl_a c = a /\
  cl_a_pub c = modpow (generator group) a (modulus group).
Proof. unfold with_private. destruct (_ =? 0); [done|]. by intros [= <-]. Qed.

(** * Properties *)

(** SRP-6a mutual authentication.  A client and a server that share the
    username, the password and the salt, and exchange their padded public values,
    derive the same session key; the server accepts the client's proof, and the
    client accepts the proof the server answers with.  (The two side conditions
    are the parameter checks both sides make.) *)
Theorem srp_mutual_authentication `{Crypto} `{BigUintLaws} group username password salt a b c :
  0 < modulus group -> 0 <= generator group -> 0 <= a -> 0 <= b ->
  with_private group username a = Ok c ->
  let s := with_salt_and_private group username password salt b in
  sv_b_pub s mod modulus group <> 0 ->
  compute_u group (cl_a_pub c) (sv_b_pub s) <> 0 ->
  let b_wire := from_bytes_be (sv_b_pub_bytes s) in
  let a_wire := from_bytes_be (a_pub_bytes c) in
  exists S K m1 m2,
    premaster c salt password b_wire = Ok S /\ cl_session_key c S = K /\
    sv_session_key s a_wire = Ok K /\
    cl_proof_m1 c salt b_wire K = m1 /\
    sv_verify_m1_prove_m2 s a_wire K m1 = Ok m2 /\
    verify_m2 c m1 K m2 = Ok ().
Proof.
  intros HN Hg Ha Hb Hc s HB0 Hu b_wire a_wire.
  destruct (srp_agreement group username password salt a b c HN Hg Ha Hb Hc HB0 Hu) as (S & HS & _ & HK).
  destruct (with_private_group _ _ _ _ Hc) as (Hcg & Hcu & Hca & Hcp).
  assert (b_wire = sv_b_pub s) as -> by (apply from_pad; apply Z.mod_pos_bound; lia).
  assert (a_wire = cl_a_pub c) as ->.
  { apply from_pad. rewrite Hcp. by apply modpow_range. }
  exists S, (cl_session_key c S), (cl_proof_m1 c salt (sv_b_pub s) (cl_session_key c S)).
  eexists. do 4 (split; [done|]).
  unfold sv_verify_m1_prove_m2, cl_proof_m1. rewrite Hcg, Hcu.
  subst s. cbn [with_salt_and_private sv_group sv_username sv_salt].
  rewrite ct_eq_refl. split; [done|].
  unfold verify_m2, expected_m2. rewrite Hcg. by rewrite ct_eq_refl.
Qed.

(** A client over a small group, for the witnesses. *)
Definition toy_client : SrpClient :=
  {| cl_group := {| modulus := 1019; generator := 5; n_len := 2 |};
     cl_username := str "Pair-Setup"; cl_a := 7; cl_a_pub := 681 |}.

Lemma srp_mutual_authentication_witness :
  exists S K m1 m2,
    premaster toy_client [x01] (str "123-45-678")
      (from_bytes_be (sv_b_pub_bytes (with_salt_and_private (cl_group toy_client) (str "Pair-Setup")
        (str "123-45-678") [x01] 3))) = Ok S /\ cl_session_key toy_client S = K /\
    sv_session_key (with_salt_and_private (cl_group toy_client) (str "Pair-Setup")
      (str "123-45-678") [x01] 3) (from_bytes_be (a_pub_bytes toy_client)) = Ok K /\
    cl_proof_m1 toy_client [x01] (from_bytes_be (sv_b_pub_bytes (with_salt_and_private (cl_group toy_client)
      (str "Pair-Setup") (str "123-45-678") [x01] 3))) K = m1 /\
    sv_verify_m1_prove_m2 (with_salt_and_private (cl_group toy_client) (str "Pair-Setup")
      (str "123-45-678") [x01] 3) (from_bytes_be (a_pub_bytes toy_client)) K m1 = Ok m2 /\
    verify_m2 toy_client m1 K m2 = Ok ().
Proof.
  apply (srp_mutual_authentication (H0 := std_biguint_laws) (cl_group toy_client) (str "Pair-Setup")
           (str "123-45-678") [x01] 7 3 toy_client); by vm_compute.
Defined.
