(* ===== verification/PairSetup.v ===== *)
(** * [hap-crypto/src/pair_setup.rs]: the controller side of Pair Setup

    The state machine M1 .. M6 with its SRP client, and the SRP server the
    reference accessory uses.  [handle] returns its result and the machine after
    it, on every path.  A [String] is its UTF-8 bytes; randomness is an argument. *)

From S2P Require Import Prelude Text Tlv8 Crypto Srp.

(** ** Constants *)

Definition PAIR_SETUP_USERNAME : bytes := str "Pair-Setup".
Definition ENCRYPT_SALT : bytes := str "Pair-Setup-Encrypt-Salt".
Definition ENCRYPT_INFO : bytes := str "Pair-Setup-Encrypt-Info".
Definition CONTROLLER_SIGN_SALT : bytes := str "Pair-Setup-Controller-Sign-Salt".
Definition CONTROLLER_SIGN_INFO : bytes := str "Pair-Setup-Controller-Sign-Info".
Definition ACCESSORY_SIGN_SALT : bytes := str "Pair-Setup-Accessory-Sign-Salt".
Definition ACCESSORY_SIGN_INFO : bytes := str "Pair-Setup-Accessory-Sign-Info".
Definition NONCE_M5 : bytes := str "PS-Msg05".
Definition NONCE_M6 : bytes := str "PS-Msg06".

(** ** Data *)

Record AccessoryPairing := { pairing_id : bytes; ap_ltpk : bytes }.

Inductive PairSetupStep :=
| Send (msg : bytes)
| Done (pairing : AccessoryPairing).

Inductive SetupState :=
| Initial
| AwaitingM2
| AwaitingM4 (session_key m1 : bytes)
| AwaitingM6 (session_key : bytes)
| SetupDone.

Record PairSetupClient := {
  password : bytes;
  controller : ControllerKeypair;
  srp : SrpClient;
  ps_state : SetupState;
}.

Definition set_state (self : PairSetupClient) (s : SetupState) : PairSetupClient :=
  {| password := password self; controller := controller self; srp := srp self; ps_state := s |}.

(** [try_into] a fixed-size array. *)
Definition try_array {E} (n : nat) (bs : bytes) (e : E) : result E bytes :=
  if length bs =? n then Ok bs else Err e.

(** ** Helpers *)

Definition normalize_setup_code (code : bytes) : bytes :=
  let digits := filter (fun b => 48 <= byteZ b <= 57)%Z code in
  if length digits =? 8 then
    take 3 digits ++ str "-" ++ take 2 (drop 3 digits) ++ str "-" ++ take 3 (drop 5 digits)
  else code.

Definition ps_check_error (map : Tlv8Map) : result CryptoError () :=
  match get map ERROR with
  | None | Some [] => Ok ()
  | Some [x02] => Err SrpProofMismatch
  | Some _ => Err (Encoding "accessory returned a pairing error")
  end.

Definition ps_expect_state (map : Tlv8Map) (expected : Z) : result CryptoError () :=
  s ← map_err Tlv (get_u8 map STATE);
  match s with
  | None => Ok ()
  | Some s => if (s =? expected)%Z then Ok () else Err (Encoding "unexpected Pair Setup state")
  end.

Section pair_setup.
Context `{C : Crypto} `{B : BigUintOps}.

(** ** Construction *)

Definition new_with_private (setup_code : bytes) (controller : ControllerKeypair) (a : bytes)
    : result CryptoError PairSetupClient :=
  group ← hap_group;
  srp ← with_private group PAIR_SETUP_USERNAME (from_bytes_be a);
  Ok {| password := normalize_setup_code setup_code; controller := controller; srp := srp;
        ps_state := Initial |}.

(** [new]: the 32 random bytes are an argument. *)
Definition pair_setup_new (random setup_code : bytes) (controller : ControllerKeypair)
    : result CryptoError PairSetupClient :=
  group ← hap_group;
  srp ← srp_client_new random group PAIR_SETUP_USERNAME;
  Ok {| password := normalize_setup_code setup_code; controller := controller; srp := srp;
        ps_state := Initial |}.

(** ** Messages *)

Definition start (self : PairSetupClient) : bytes * PairSetupClient :=
  let out := push_u8 [] STATE STATE_M1 in
  let out := push_u8 out METHOD METHOD_PAIR_SETUP in
  (out, set_state self AwaitingM2).

(** Each handler returns the step and the state it leaves; an error leaves the
    state that [handle] keeps. *)
Definition ps_handle_m2 (self : PairSetupClient) (map : Tlv8Map)
    : result CryptoError (PairSetupStep * SetupState) :=
  _ ← ps_expect_state map STATE_M2;
  salt ← ok_or (get map SALT) (Encoding "M2 missing salt");
  b_bytes ← ok_or (get map PUBLIC_KEY) (Encoding "M2 missing accessory public key B");
  let b_pub := from_bytes_be b_bytes in
  premaster ← premaster (srp self) salt (password self) b_pub;
  let session_key := cl_session_key (srp self) premaster in
  let m1 := cl_proof_m1 (srp self) salt b_pub session_key in
  let out := push_u8 [] STATE STATE_M3 in
  let out := push out PUBLIC_KEY (a_pub_bytes (srp self)) in
  let out := push out PROOF m1 in
  Ok (Send out, AwaitingM4 session_key m1).

Definition ps_handle_m4 (self : PairSetupClient) (map : Tlv8Map)
    : result CryptoError (PairSetupStep * SetupState) :=
  _ ← ps_expect_state map STATE_M4;
  match ps_state self with
  | AwaitingM4 session_key m1 =>
      proof ← ok_or (get map PROOF) (Encoding "M4 missing accessory proof M2");
      _ ← verify_m2 (srp self) m1 session_key proof;
      enc_key ← hkdf_sha512 session_key ENCRYPT_SALT ENCRYPT_INFO 32;
      ios_device_x ← hkdf_sha512 session_key CONTROLLER_SIGN_SALT CONTROLLER_SIGN_INFO 32;
      let id := kp_id (controller self) in
      let ltpk := ltpk (controller self) in
      let signed := ios_device_x ++ id ++ ltpk in
      let signature := sign (controller self) signed in
      let sub := push [] IDENTIFIER id in
      let sub := push sub PUBLIC_KEY ltpk in
      let sub := push sub SIGNATURE signature in
      sealed ← encrypt enc_key (hap_nonce NONCE_M5) [] sub;
      let out := push_u8 [] STATE STATE_M5 in
      let out := push out ENCRYPTED_DATA sealed in
      Ok (Send out, AwaitingM6 session_key)
  | _ => Err (Encoding "Pair Setup state corrupted")
  end.

(** The part of [handle_m6] after the machine has moved to [Done]. *)
Definition ps_finish_m6 (session_key : bytes) (map : Tlv8Map) : result CryptoError PairSetupStep :=
  encrypted ← ok_or (get map ENCRYPTED_DATA) (Encoding "M6 missing encrypted data");
  enc_key ← hkdf_sha512 session_key ENCRYPT_SALT ENCRYPT_INFO 32;
  plaintext ← decrypt enc_key (hap_nonce NONCE_M6) [] encrypted;
  sub ← map_err Tlv (map_parse plaintext);
  id_bytes ← ok_or (get sub IDENTIFIER) (Encoding "M6 sub-TLV missing identifier");
  ltpk_bytes ← ok_or (get sub PUBLIC_KEY) (Encoding "M6 sub-TLV missing public key");
  signature ← ok_or (get sub SIGNATURE) (Encoding "M6 sub-TLV missing signature");
  ltpk ← try_array 32 ltpk_bytes (Encoding "accessory LTPK is not 32 bytes");
  signature ← try_array 64 signature (Encoding "accessory signature is not 64 bytes");
  _ ← ok_or (from_utf8 id_bytes) (Encoding "accessory pairing id is not valid UTF-8");
  accessory_x ← hkdf_sha512 session_key ACCESSORY_SIGN_SALT ACCESSORY_SIGN_INFO 32;
  let signed := accessory_x ++ id_bytes ++ ltpk in
  _ ← verify_ed25519 ltpk signed signature;
  Ok (Done {| pairing_id := id_bytes; ap_ltpk := ltpk |}).

Definition ps_handle_m6 (self : PairSetupClient) (map : Tlv8Map)
    : result CryptoError PairSetupStep * SetupState :=
  match ps_expect_state map STATE_M6 with
  | Ok _ =>
      match ps_state self with
      | AwaitingM6 session_key => (ps_finish_m6 session_key map, SetupDone)
      | s => (Err (Encoding "Pair Setup state corrupted"), s)
      end
  | Err e => (Err e, ps_state self)
  | Fault f => (Fault f, ps_state self)
  end.

(** An early return keeps the machine as it is. *)
Definition keep (self : PairSetupClient) (r : result CryptoError (PairSetupStep * SetupState))
    : result CryptoError PairSetupStep * PairSetupClient :=
  match r with
  | Ok (step, s) => (Ok step, set_state self s)
  | Err e => (Err e, self)
  | Fault f => (Fault f, self)
  end.

Definition handle (self : PairSetupClient) (response : bytes)
    : result CryptoError PairSetupStep * PairSetupClient :=
  match (map ← map_err Tlv (map_parse response); _ ← ps_check_error map; Ok map) with
  | Err e => (Err e, self)
  | Fault f => (Fault f, self)
  | Ok map =>
      match ps_state self with
      | Initial => (Err (Encoding "Pair Setup not started"), self)
      | AwaitingM2 => keep self (ps_handle_m2 self map)
      | AwaitingM4 _ _ => keep self (ps_handle_m4 self map)
      | AwaitingM6 _ => let '(r, s) := ps_handle_m6 self map in (r, set_state self s)
      | SetupDone => (Err (Encoding "Pair Setup already finished"), self)
      end
  end.

(** ** The accessory's SRP server ([HapPairSetupSrpServer]) *)

Definition hap_srp_server_new (salt b setup_code : bytes) : result CryptoError (SrpServer * bytes) :=
  let password := normalize_setup_code setup_code in
  group ← hap_group;
  let inner := srp_server_new salt b group PAIR_SETUP_USERNAME password in
  Ok (inner, sv_salt inner).

Definition hap_b_pub_bytes (s : SrpServer) : bytes := sv_b_pub_bytes s.

Definition hap_session_key (s : SrpServer) (a_pub_bytes : bytes) : result CryptoError bytes :=
  sv_session_key s (from_bytes_be a_pub_bytes).

Definition hap_verify_m1_prove_m2 (s : SrpServer) (a_pub_bytes m1 : bytes) : result CryptoError bytes :=
  let a_pub := from_bytes_be a_pub_bytes in
  session_key ← sv_session_key s a_pub;
  sv_verify_m1_prove_m2 s a_pub session_key m1.

End pair_setup.

(** ** Runs of the machine *)

Section runs_of_the_machine.
Context `{C : Crypto} `{B : BigUintOps}.

(** What its owner does with the machine: (re)start it, or feed it a response. *)
Inductive PsEvent := Restart | Receive (response : bytes).

Definition ps_next (c : PairSetupClient) (e : PsEvent) : PairSetupClient :=
  match e with Restart => (start c).2 | Receive response => (handle c response).2 end.
Definition ps_run (c0 : PairSetupClient) (evs : list PsEvent) : PairSetupClient := foldl ps_next c0 evs.

(** The session key [K] and proof [m1] come from an SRP run with this password. *)
Definition srp_derived (c : PairSetupClient) (K m1 : bytes) : Prop :=
  exists salt b_pub S, premaster (srp c) salt (password c) b_pub = Ok S /\
    K = cl_session_key (srp c) S /\ m1 = cl_proof_m1 (srp c) salt b_pub K.

(** In the run, the machine awaited the proof for [K], and a response had it: [H(A, M1, K)]. *)
Definition proof_received (c0 : PairSetupClient) (evs : list PsEvent) (K : bytes) : Prop :=
  exists before response after map m1,
    evs = before ++ Receive response :: after /\ ps_state (ps_run c0 before) = AwaitingM4 K m1 /\ srp_derived c0 K m1 /\
    map_parse response = Ok map /\
    get map PROOF = Some (proof_m2 (cl_group (srp c0)) (cl_a_pub (srp c0)) m1 K).

(** What each state of the machine has established. *)
Definition ps_inv (c0 : PairSetupClient) (evs : list PsEvent) : Prop :=
  match ps_state (ps_run c0 evs) with
  | AwaitingM4 K m1 => srp_derived c0 K m1
  | AwaitingM6 K => proof_received c0 evs K
  | _ => True
  end.
End runs_of_the_machine.

(** * Lemmas *)

Lemma returns_try_array {E} n bs (e : E) : returns (try_array n bs e).
Proof. unfold try_array. by destruct (_ =? _). Qed.

Lemma returns_ps_check_error m : returns (ps_check_error m).
Proof. unfold ps_check_error. repeat (case_match; try done). Qed.

Lemma returns_ps_expect_state m s : returns (ps_expect_state m s).
Proof.
  unfold ps_expect_state. apply returns_bind; [apply returns_map_err, returns_get_u8|].
  intros [x|] _; [|done]. by destruct (_ =? _)%Z.
Qed.

Lemma returns_hkdf `{Crypto} ikm salt info n : returns (hkdf_sha512 ikm salt info n).
Proof. apply returns_ok_or. Qed.

Lemma returns_verify_ed25519 `{Crypto} pk m s : returns (verify_ed25519 pk m s).
Proof. unfold verify_ed25519. repeat (case_match; try done). Qed.

Lemma returns_encrypt `{Crypto} k n a m : returns (encrypt k n a m).
Proof. apply returns_ok_or. Qed.

Lemma returns_decrypt `{Crypto} k n a m : returns (decrypt k n a m).
Proof. apply returns_ok_or. Qed.

Lemma returns_verify_m2 `{Crypto} `{BigUintOps} c m k r : returns (verify_m2 c m k r).
Proof. unfold verify_m2. by destruct (ct_eq _ _). Qed.

#[export] Hint Resolve returns_try_array returns_ps_check_error returns_ps_expect_state returns_hkdf
  returns_verify_ed25519 returns_encrypt returns_decrypt returns_verify_m2 : hap.

(** The SRP subtraction does not underflow when the group's modulus is positive. *)
Lemma returns_premaster `{Crypto} `{BigUintLaws} c salt pw b :
  (0 < modulus (cl_group c))%Z -> (0 <= b)%Z -> returns (premaster c salt pw b).
Proof.
  intros HN Hb. unfold premaster. destruct (_ =? 0)%Z; [done|]. cbv zeta. destruct (_ =? 0)%Z; [done|].
  rewrite (proj2 (Z.ltb_ge _ _)); [done|].
  match goal with |- (?x mod ?n <= _)%Z => pose proof (Z.mod_pos_bound x n HN) end. lia.
Qed.

Lemma set_state_fields c s :
  srp (set_state c s) = srp c /\ password (set_state c s) = password c /\
  controller (set_state c s) = controller c /\ ps_state (set_state c s) = s.
Proof. done. Qed.

Section machine.
Context `{C : Crypto} `{HB : BigUintLaws}.

Lemma handle_returns_lemma c response :
  (0 < modulus (cl_group (srp c)))%Z -> returns (handle c response).1.
Proof using HB.
  intros HN. unfold handle.
  assert (returns (map ← map_err Tlv (map_parse response); _ ← ps_check_error map; Ok map)) as Hr
    by returns_tac.
  destruct (m ← _; _) as [m|e|f]; [|done|done]. destruct (ps_state c) eqn:Es; try done.
  - assert (returns (ps_handle_m2 c m)) as H2.
    { unfold ps_handle_m2. returns_tac. apply returns_premaster; [done|]. apply from_bytes_be_nonneg. }
    by destruct (ps_handle_m2 c m) as [[]| |].
  - assert (returns (ps_handle_m4 c m)) as H4 by (unfold ps_handle_m4; returns_tac).
    by destruct (ps_handle_m4 c m) as [[]| |].
  - unfold ps_handle_m6. pose proof (returns_ps_expect_state m STATE_M6) as Hx.
    destruct (ps_expect_state m STATE_M6); try done. rewrite Es. simpl.
    unfold ps_finish_m6. returns_tac.
Qed.

(** Every step keeps the machine's fixed data and its invariant. *)
Lemma ps_next_fixed c e : srp (ps_next c e) = srp c /\ password (ps_next c e) = password c.
Proof.
  destruct e as [|response]; [done|]. cbn [ps_next]. unfold handle, keep.
  destruct (m ← _; _) as [m|e|f]; [|done..]. destruct (ps_state c); try done.
  - by destruct (ps_handle_m2 c m) as [[]| |].
  - by destruct (ps_handle_m4 c m) as [[]| |].
  - by destruct (ps_handle_m6 c m).
Qed.

Lemma ps_run_fixed c0 evs : srp (ps_run c0 evs) = srp c0 /\ password (ps_run c0 evs) = password c0.
Proof.
  induction evs as [|e evs IH] using rev_ind; [done|]. unfold ps_run in *. rewrite foldl_app. cbn [foldl].
  destruct (ps_next_fixed (foldl ps_next c0 evs) e) as [-> ->]. exact IH.
Qed.

Lemma ps_handle_m2_inv c m step s :
  ps_handle_m2 c m = Ok (step, s) -> exists K m1, s = AwaitingM4 K m1 /\ srp_derived c K m1.
Proof.
  intros H. unfold ps_handle_m2 in H. bind_inv H. bind_inv H. bind_inv H. bind_inv H.
  simplify_eq. eexists _, _. split; [done|]. by exists a0, (from_bytes_be a1), a2.
Qed.

Lemma ps_handle_m4_inv c m step s K m1 :
  ps_state c = AwaitingM4 K m1 -> ps_handle_m4 c m = Ok (step, s) ->
  s = AwaitingM6 K /\ get m PROOF = Some (proof_m2 (cl_group (srp c)) (cl_a_pub (srp c)) m1 K).
Proof.
  intros Es H. unfold ps_handle_m4 in H. bind_inv H. rewrite Es in H.
  bind_inv H. bind_inv H. bind_inv H. bind_inv H. bind_inv H. simplify_eq. split; [done|].
  unfold ok_or in Ha0. destruct (get m PROOF) as [proof|]; [|done]. injection Ha0 as ->.
  unfold verify_m2 in Ha1. destruct (ct_eq _ _) eqn:Ep; [|done]. by rewrite <- (ct_eq_true _ _ Ep).
Qed.

Lemma ps_inv_keep c0 evs e : ps_inv c0 evs -> ps_state (ps_run c0 (evs ++ [e])) = ps_state (ps_run c0 evs) -> ps_inv c0 (evs ++ [e]).
Proof.
  unfold ps_inv. intros Hi ->. destruct (ps_state _); try done.
  destruct Hi as (before & response & after & map & m1 & -> & ?). exists before, response, (after ++ [e]), map, m1.
  by rewrite <- app_assoc.
Qed.

Lemma ps_run_inv c0 evs : ps_state c0 = Initial -> ps_inv c0 evs.
Proof.
  intros Hi. induction evs as [|e evs IH] using rev_ind; [unfold ps_inv; cbn; by rewrite Hi|].
  pose proof (ps_run_fixed c0 evs) as [Hs Hp].
  assert (ps_run c0 (evs ++ [e]) = ps_next (ps_run c0 evs) e) as Hrun by (unfold ps_run; by rewrite foldl_app).
  set (c := ps_run c0 evs) in *. destruct e as [|response]; [unfold ps_inv; by rewrite Hrun|].
  assert (ps_state (ps_next c (Receive response)) = ps_state c -> ps_inv c0 (evs ++ [Receive response])) as Hkeep
    by (intros Hk; apply ps_inv_keep; [done|by rewrite Hrun]).
  cbn [ps_next] in *. unfold handle in *.
  destruct (map_parse response) as [m|e|f] eqn:Em; cbn [map_err mbind result_bind] in *; [|by apply Hkeep..].
  destruct (ps_check_error m) as [[]|e|f]; cbn [mbind result_bind] in *; [|by apply Hkeep..].
  destruct (ps_state c) as [| |K m1|K|] eqn:Es; try (by apply Hkeep).
  - destruct (ps_handle_m2 c m) as [[step s]| |] eqn:E2; try (by apply Hkeep).
    apply ps_handle_m2_inv in E2 as (K & m1 & -> & Hd). unfold ps_inv. rewrite Hrun. cbn.
    unfold srp_derived in *. by rewrite <- Hs, <- Hp.
  - destruct (ps_handle_m4 c m) as [[step s]| |] eqn:E4; try (by apply Hkeep).
    destruct (ps_handle_m4_inv _ _ _ _ _ _ Es E4) as (-> & Hm2). unfold ps_inv. rewrite Hrun. cbn.
    unfold ps_inv in IH. fold c in IH. rewrite Es in IH. rewrite Hs in Hm2.
    exists evs, response, [], m, m1. by split_and!.
  - unfold ps_handle_m6 in *. destruct (ps_expect_state m STATE_M6) as [[]|e|f]; try (by apply Hkeep).
    rewrite Es in *. unfold ps_inv. by rewrite Hrun.
Qed.

(** A completed exchange authenticates the accessory's key. *)
Lemma ps_finish_m6_sound K m p :
  ps_finish_m6 K m = Ok (Done p) ->
  exists x sig, hkdf_expand K ACCESSORY_SIGN_SALT ACCESSORY_SIGN_INFO 32 = Some x /\
    ed_verify_strict (ap_ltpk p) (x ++ pairing_id p ++ ap_ltpk p) sig = true /\
    is_Some (from_utf8 (pairing_id p)) /\ length (ap_ltpk p) = 32 /\ length sig = 64.
Proof.
  intros H. unfold ps_finish_m6 in H. do 12 bind_inv H. injection H as <-. cbn [pairing_id ap_ltpk].
  unfold hkdf_sha512, ok_or in Ha9. destruct (hkdf_expand _ _ _ _) as [x|] eqn:Ex in Ha9; [|done].
  injection Ha9 as <-. exists x, a7.
  unfold try_array in Ha6, Ha7. destruct (Nat.eqb_spec (length a4) 32); [|done].
  destruct (Nat.eqb_spec (length a5) 64); [|done]. simplify_eq.
  unfold verify_ed25519 in Ha10. destruct (negb _); [done|].
  destruct (ed_verify_strict _ _ _) eqn:Ev in Ha10; [|done].
  unfold ok_or in Ha8. destruct (from_utf8 a3) eqn:Eu; [|done].
  repeat split; try done.
Qed.
End machine.

(** A concrete exchange for the witnesses: a peer that knows the setup code. *)
Definition sample_client : PairSetupClient :=
  {| password := str "123-45-678"; controller := from_seed (str "ctl") [x05]; srp := toy_client;
     ps_state := Initial |}.

Definition sample_server : SrpServer :=
  with_salt_and_private (cl_group (srp sample_client)) PAIR_SETUP_USERNAME (str "123-45-678") [x01] 3.

Definition sample_m2 : bytes :=
  push_items [] [(STATE, [x02]); (SALT, [x01]); (PUBLIC_KEY, hap_b_pub_bytes sample_server)].

Definition after_m2 : PairSetupClient := (handle (start sample_client).2 sample_m2).2.

Definition state_key (s : SetupState) : bytes := match s with AwaitingM4 K _ => K | _ => [] end.
Definition state_proof (s : SetupState) : bytes := match s with AwaitingM4 _ m => m | _ => [] end.
Definition sample_key : bytes := state_key (ps_state after_m2).
Definition sample_m1 : bytes := state_proof (ps_state after_m2).

Definition sample_m4 : bytes :=
  push_items [] [(STATE, [x04]);
                 (PROOF, proof_m2 (sv_group sample_server) (cl_a_pub (srp sample_client)) sample_m1 sample_key)].

Definition after_m4 : PairSetupClient := (handle after_m2 sample_m4).2.

Definition sample_m6 : bytes :=
  let x := default [] (hkdf_expand sample_key ACCESSORY_SIGN_SALT ACCESSORY_SIGN_INFO 32) in
  let enc := default [] (hkdf_expand sample_key ENCRYPT_SALT ENCRYPT_INFO 32) in
  let pk := ed_public [x09] in
  let sub := push_items [] [(IDENTIFIER, str "AA:BB"); (PUBLIC_KEY, pk);
                            (SIGNATURE, ed_sign [x09] (x ++ str "AA:BB" ++ pk))] in
  push_items [] [(STATE, [x06]); (ENCRYPTED_DATA, default [] (aead_seal enc (hap_nonce NONCE_M6) [] sub))].

(** * Properties *)

(** C11: Pair Setup authenticates the accessory.  In every run of the machine, whatever
    responses it is fed and however often it is restarted, it yields a pairing only if, in
    that run, while it awaited the proof for a session key derived from this client's
    password, a response carried the SRP server proof for that very key - which takes
    knowledge of the setup code - and only if the pairing's long-term key signed the pairing
    identifier under material derived from the same session key. *)
Theorem pair_setup_done_authentic `{Crypto} `{BigUintLaws} c0 evs response p c' :
  ps_state c0 = Initial -> handle (ps_run c0 evs) response = (Ok (Done p), c') ->
  exists K x sig,
    proof_received c0 evs K /\
    hkdf_expand K ACCESSORY_SIGN_SALT ACCESSORY_SIGN_INFO 32 = Some x /\
    ed_verify_strict (ap_ltpk p) (x ++ pairing_id p ++ ap_ltpk p) sig = true /\
    is_Some (from_utf8 (pairing_id p)) /\ length (ap_ltpk p) = 32 /\ ps_state c' = SetupDone.
Proof.
  intros Hi Hh. pose proof (ps_run_inv c0 evs Hi) as Hinv. unfold ps_inv in Hinv. set (c := ps_run c0 evs) in *.
  unfold handle in Hh. destruct (m ← _; _) as [m|e|f]; [|done..]. destruct (ps_state c) as [| |K m1|K|] eqn:Es; try done.
  - destruct (ps_handle_m2 c m) as [[step s]| |] eqn:E; simplify_eq/=. unfold ps_handle_m2 in E.
    do 4 bind_inv E. simplify_eq.
  - destruct (ps_handle_m4 c m) as [[step s]| |] eqn:E; simplify_eq/=. unfold ps_handle_m4 in E.
    bind_inv E. rewrite Es in E. do 5 bind_inv E. simplify_eq.
  - unfold ps_handle_m6 in Hh. destruct (ps_expect_state _ _); [|done..]. rewrite Es in Hh.
    injection Hh as Hf <-. apply ps_finish_m6_sound in Hf as (x & sig & Hx & Hv & Hu & Hl & _). by exists K, x, sig.
Qed.

Lemma pair_setup_done_authentic_witness :
  exists K x sig,
    proof_received sample_client [Restart; Receive sample_m2; Receive sample_m4] K /\
    hkdf_expand K ACCESSORY_SIGN_SALT ACCESSORY_SIGN_INFO 32 = Some x /\
    ed_verify_strict (ed_public [x09]) (x ++ str "AA:BB" ++ ed_public [x09]) sig = true /\
    is_Some (from_utf8 (str "AA:BB")) /\ length (ed_public [x09]) = 32 /\
    ps_state (handle after_m4 sample_m6).2 = SetupDone.
Proof.
  apply (pair_setup_done_authentic (H0 := std_biguint_laws) sample_client [Restart; Receive sample_m2; Receive sample_m4] sample_m6
    {| pairing_id := str "AA:BB"; ap_ltpk := ed_public [x09] |}); by vm_compute.
Defined.

(** Pair Setup never panics: whatever bytes arrive in whatever state, [handle]
    returns a step or an error. *)
Theorem pair_setup_handle_returns `{Crypto} `{BigUintLaws} c response :
  (0 < modulus (cl_group (srp c)))%Z -> returns (handle c response).1.
Proof. apply handle_returns_lemma. Qed.

Lemma pair_setup_handle_returns_witness : returns (handle after_m2 [x06; x01]).1.
Proof. by apply (pair_setup_handle_returns (H0 := std_biguint_laws)); vm_compute. Defined.

(** What an error does to the machine: a rejected M2 or M4 leaves it exactly as
    it was, still accepting that message; only a rejected M6 ends the exchange. *)
Theorem pair_setup_error_state `{Crypto} `{BigUintOps} c response e c' :
  handle c response = (Err e, c') ->
  c' = c \/ ((exists K, ps_state c = AwaitingM6 K) /\ c' = set_state c SetupDone).
Proof.
  unfold handle. destruct (m ← _; _) as [m|?|?]; intros Hh; [|simplify_eq; by left..].
  destruct (ps_state c) as [| |K m1|K|] eqn:Es; simplify_eq; try by left.
  - destruct (ps_handle_m2 c m) as [[]| |]; simplify_eq/=. by left.
  - destruct (ps_handle_m4 c m) as [[]| |]; simplify_eq/=. by left.
  - unfold ps_handle_m6 in Hh. rewrite Es in Hh. destruct (ps_expect_state _ _); simplify_eq.
    + right. split; [by eexists|done].
    + left. destruct c. simpl in *. by subst.
Qed.

Lemma pair_setup_error_state_witness :
  let c' := (handle after_m4 [x06; x01; x06]).2 in
  c' = after_m4 \/ ((exists K, ps_state after_m4 = AwaitingM6 K) /\ c' = set_state after_m4 SetupDone).
Proof.
  apply (pair_setup_error_state after_m4 [x06; x01; x06] (Encoding "M6 missing encrypted data")).
  by vm_compute.
Defined.
