(* ===== verification/PairVerify.v ===== *)
(** * [hap-crypto/src/{pair_verify,x25519}.rs]: the controller side of Pair Verify

    The M1 .. M4 state machine that authenticates a stored accessory pairing and
    derives the session keys.  The ephemeral secret is an argument of the
    constructor. *)

From S2P Require Import Prelude Text Tlv8 Crypto Srp PairSetup.

(** ** Constants *)

Definition PV_ENCRYPT_SALT : bytes := str "Pair-Verify-Encrypt-Salt".
Definition PV_ENCRYPT_INFO : bytes := str "Pair-Verify-Encrypt-Info".
Definition CONTROL_SALT : bytes := str "Control-Salt".
Definition CONTROL_READ_INFO : bytes := str "Control-Read-Encryption-Key".
Definition CONTROL_WRITE_INFO : bytes := str "Control-Write-Encryption-Key".
Definition EVENT_SALT : bytes := str "Event-Salt".
Definition EVENT_READ_INFO : bytes := str "Event-Read-Encryption-Key".
Definition NONCE_M2 : bytes := str "PV-Msg02".
Definition NONCE_M3 : bytes := str "PV-Msg03".

(** ** Data *)

Record SessionKeys := { sk_read_key : bytes; sk_write_key : bytes }.

Inductive PairVerifyStep :=
| PvSend (msg : bytes)
| PvDone (keys : SessionKeys).

Inductive VerifyState := Init | AwaitM2 | AwaitM4 | VerifyDone.

(** [EphemeralKeypair]: the secret scalar and its public key. *)
Record EphemeralKeypair := { eph_secret : bytes; eph_public : bytes }.

Record PairVerifyClient := {
  controller_id : bytes;
  signing : bytes;
  accessory : AccessoryPairing;
  ephemeral : EphemeralKeypair;
  shared_secret : option bytes;
  pv_state : VerifyState;
}.

Definition pv_set (self : PairVerifyClient) (shared : option bytes) (s : VerifyState) : PairVerifyClient :=
  {| controller_id := controller_id self; signing := signing self; accessory := accessory self;
     ephemeral := ephemeral self; shared_secret := shared; pv_state := s |}.

(** ** Helpers *)

Definition pv_check_error (map : Tlv8Map) : result CryptoError () :=
  match get map ERROR with
  | None | Some [] => Ok ()
  | Some _ => Err (Encoding "accessory returned a Pair Verify error")
  end.

Definition pv_expect_state (map : Tlv8Map) (expected : Z) : result CryptoError () :=
  s ← map_err Tlv (get_u8 map STATE);
  match s with
  | None => Ok ()
  | Some s => if (s =? expected)%Z then Ok () else Err (Encoding "unexpected Pair Verify state")
  end.

Section pair_verify.
Context `{C : Crypto}.

Definition eph_from_secret (scalar : bytes) : EphemeralKeypair :=
  {| eph_secret := scalar; eph_public := x_public scalar |}.

Definition diffie_hellman (k : EphemeralKeypair) (peer_public : bytes) : bytes :=
  x_dh (eph_secret k) peer_public.

Definition build (controller : ControllerKeypair) (accessory : AccessoryPairing)
    (ephemeral : EphemeralKeypair) : PairVerifyClient :=
  {| controller_id := kp_id controller; signing := kp_signing controller; accessory := accessory;
     ephemeral := ephemeral; shared_secret := None; pv_state := Init |}.

Definition new_with_ephemeral (controller : ControllerKeypair) (accessory : AccessoryPairing)
    (ephemeral_secret : bytes) : PairVerifyClient :=
  build controller accessory (eph_from_secret ephemeral_secret).

Definition derive_key (shared salt info : bytes) : result CryptoError bytes :=
  hkdf_sha512 shared salt info 32.

Definition pv_start (self : PairVerifyClient) : bytes * PairVerifyClient :=
  let out := push_u8 [] STATE STATE_M1 in
  let out := push out PUBLIC_KEY (eph_public (ephemeral self)) in
  (out, pv_set self (shared_secret self) AwaitM2).

Definition build_m3 (self : PairVerifyClient) (pv_key controller_eph_pub accessory_eph_pub : bytes)
    : result CryptoError bytes :=
  let id := controller_id self in
  let signed := controller_eph_pub ++ id ++ accessory_eph_pub in
  let signature := ed_sign (signing self) signed in
  let sub := push [] IDENTIFIER id in
  let sub := push sub SIGNATURE signature in
  sealed ← encrypt pv_key (hap_nonce NONCE_M3) [] sub;
  let out := push_u8 [] STATE STATE_M3 in
  Ok (push out ENCRYPTED_DATA sealed).

(** The handlers return the step and the fields they set; an error sets none. *)
Definition pv_handle_m2 (self : PairVerifyClient) (response : bytes)
    : result CryptoError (PairVerifyStep * option bytes * VerifyState) :=
  map ← map_err Tlv (map_parse response);
  _ ← pv_check_error map;
  _ ← pv_expect_state map STATE_M2;
  accessory_eph_pub ← ok_or (get map PUBLIC_KEY) (Encoding "M2 missing accessory ephemeral key");
  accessory_eph_pub ← try_array 32 accessory_eph_pub (Encoding "M2 accessory ephemeral key not 32 bytes");
  encrypted ← ok_or (get map ENCRYPTED_DATA) (Encoding "M2 missing encrypted data");
  let controller_eph_pub := eph_public (ephemeral self) in
  let shared := diffie_hellman (ephemeral self) accessory_eph_pub in
  pv_key ← derive_key shared PV_ENCRYPT_SALT PV_ENCRYPT_INFO;
  plaintext ← decrypt pv_key (hap_nonce NONCE_M2) [] encrypted;
  sub ← map_err Tlv (map_parse plaintext);
  identifier ← ok_or (get sub IDENTIFIER) (Encoding "M2 sub-TLV missing identifier");
  signature ← ok_or (get sub SIGNATURE) (Encoding "M2 sub-TLV missing signature");
  signature ← try_array 64 signature (Encoding "M2 signature not 64 bytes");
  if negb (bool_decide (identifier = pairing_id (accessory self)))
  then Err (Encoding "M2 accessory identifier does not match stored pairing")
  else
    let signed := accessory_eph_pub ++ identifier ++ controller_eph_pub in
    _ ← verify_ed25519 (ap_ltpk (accessory self)) signed signature;
    m3 ← build_m3 self pv_key controller_eph_pub accessory_eph_pub;
    Ok (PvSend m3, Some shared, AwaitM4).

Definition pv_handle_m4 (self : PairVerifyClient) (response : bytes)
    : result CryptoError (PairVerifyStep * option bytes * VerifyState) :=
  map ← map_err Tlv (map_parse response);
  _ ← pv_check_error map;
  _ ← pv_expect_state map STATE_M4;
  shared ← ok_or (shared_secret self) (Encoding "Pair Verify shared secret missing");
  read_key ← derive_key shared CONTROL_SALT CONTROL_READ_INFO;
  write_key ← derive_key shared CONTROL_SALT CONTROL_WRITE_INFO;
  Ok (PvDone {| sk_read_key := read_key; sk_write_key := write_key |}, Some shared, VerifyDone).

Definition pv_keep (self : PairVerifyClient)
    (r : result CryptoError (PairVerifyStep * option bytes * VerifyState))
    : result CryptoError PairVerifyStep * PairVerifyClient :=
  match r with
  | Ok (step, shared, s) => (Ok step, pv_set self shared s)
  | Err e => (Err e, self)
  | Fault f => (Fault f, self)
  end.

Definition pv_handle (self : PairVerifyClient) (response : bytes)
    : result CryptoError PairVerifyStep * PairVerifyClient :=
  match pv_state self with
  | Init => (Err (Encoding "Pair Verify handle called before start"), self)
  | AwaitM2 => pv_keep self (pv_handle_m2 self response)
  | AwaitM4 => pv_keep self (pv_handle_m4 self response)
  | VerifyDone => (Err (Encoding "Pair Verify handle called after completion"), self)
  end.

(** ** Derived keys *)

Definition broadcast_key (self : PairVerifyClient) (controller_ltpk : bytes) : result CryptoError BroadcastKey :=
  shared ← ok_or (shared_secret self) (Encoding "Pair Verify shared secret missing");
  broadcast_derive shared controller_ltpk.

Definition event_key (self : PairVerifyClient) : result CryptoError bytes :=
  shared ← ok_or (shared_secret self) (Encoding "Pair Verify shared secret missing");
  derive_key shared EVENT_SALT EVENT_READ_INFO.

(** ** The machine as a transition system *)

Inductive pv_step : PairVerifyClient -> PairVerifyClient -> Prop :=
| pv_step_start c : pv_step c (pv_start c).2
| pv_step_handle c response : pv_step c (pv_handle c response).2.

(** The stored accessory signed this exchange: its ephemeral key, its identifier
    and our ephemeral key, and the secret is the one shared with that key. *)
Definition accessory_signed (c : PairVerifyClient) (shared : bytes) : Prop :=
  exists acc_eph sig,
    shared = diffie_hellman (ephemeral c) acc_eph /\
    ed_verify_strict (ap_ltpk (accessory c))
      (acc_eph ++ pairing_id (accessory c) ++ eph_public (ephemeral c)) sig = true.

Definition pv_inv (c : PairVerifyClient) : Prop :=
  match shared_secret c with Some s => accessory_signed c s | None => True end.

End pair_verify.

(** * Lemmas *)

Lemma returns_pv_check_error m : returns (pv_check_error m).
Proof. unfold pv_check_error. repeat (case_match; try done). Qed.

Lemma returns_pv_expect_state m s : returns (pv_expect_state m s).
Proof.
  unfold pv_expect_state. apply returns_bind; [apply returns_map_err, returns_get_u8|].
  intros [x|] _; [|done]. by destruct (_ =? _)%Z.
Qed.

Lemma returns_derive_key `{Crypto} s salt info : returns (derive_key s salt info).
Proof. apply returns_hkdf. Qed.

Lemma returns_build_m3 `{Crypto} c k a b : returns (build_m3 c k a b).
Proof. unfold build_m3. returns_tac. Qed.

#[export] Hint Resolve returns_pv_check_error returns_pv_expect_state returns_derive_key returns_build_m3 : hap.

Lemma returns_pv_handle `{Crypto} c response : returns (pv_handle c response).1.
Proof.
  unfold pv_handle. destruct (pv_state c); try done.
  - assert (returns (pv_handle_m2 c response)) as H2 by (unfold pv_handle_m2; returns_tac).
    by destruct (pv_handle_m2 c response) as [[[]]| |].
  - assert (returns (pv_handle_m4 c response)) as H4 by (unfold pv_handle_m4; returns_tac).
    by destruct (pv_handle_m4 c response) as [[[]]| |].
Qed.

Section machine.
Context `{C : Crypto}.

Lemma pv_step_fixed c c' : pv_step c c' -> accessory c' = accessory c /\ ephemeral c' = ephemeral c.
Proof.
  intros [c0|c0 response]; [done|]. unfold pv_handle. destruct (pv_state c0); try done.
  - by destruct (pv_handle_m2 c0 response) as [[[]]| |].
  - by destruct (pv_handle_m4 c0 response) as [[[]]| |].
Qed.

Lemma verify_ed25519_ok pk m s u : verify_ed25519 pk m s = Ok u -> ed_verify_strict pk m s = true.
Proof. unfold verify_ed25519. destruct (negb _); [done|]. by destruct (ed_verify_strict pk m s). Qed.

Lemma pv_handle_m2_inv c response step shared s :
  pv_handle_m2 c response = Ok (step, shared, s) ->
  exists x, shared = Some x /\ s = AwaitM4 /\ accessory_signed c x /\ exists m3, step = PvSend m3.
Proof.
  intros H. unfold pv_handle_m2 in H. do 12 bind_inv H.
  case_bool_decide as Hid; [|done]. simpl in H. bind_inv H. bind_inv H. simplify_eq.
  eexists. split; [done|]. split; [done|]. split; [|by eexists]. exists a3, a10. split; [done|].
  by eapply verify_ed25519_ok.
Qed.

Lemma pv_handle_m4_inv c response step shared s :
  pv_handle_m4 c response = Ok (step, shared, s) ->
  exists x r w, shared_secret c = Some x /\ shared = Some x /\ s = VerifyDone /\
    step = PvDone {| sk_read_key := r; sk_write_key := w |} /\
    hkdf_expand x CONTROL_SALT CONTROL_READ_INFO 32 = Some r /\
    hkdf_expand x CONTROL_SALT CONTROL_WRITE_INFO 32 = Some w.
Proof.
  intros H. unfold pv_handle_m4 in H. do 6 bind_inv H. simplify_eq.
  destruct (shared_secret c); simplify_eq/=. unfold derive_key, hkdf_sha512, ok_or in *.
  repeat case_match; simplify_eq. eexists _, _, _. done.
Qed.

Lemma pv_step_inv c c' : pv_step c c' -> pv_inv c -> pv_inv c'.
Proof.
  intros [c0|c0 response] Hinv; [done|]. unfold pv_handle. destruct (pv_state c0); try done.
  - destruct (pv_handle_m2 c0 response) as [[[step sh] s]| |] eqn:E; try done.
    by apply pv_handle_m2_inv in E as (x & -> & -> & Hs & _).
  - destruct (pv_handle_m4 c0 response) as [[[step sh] s]| |] eqn:E; try done.
    apply pv_handle_m4_inv in E as (x & r & w & Hx & -> & -> & _).
    unfold pv_inv in *. by rewrite Hx in Hinv.
Qed.

Lemma pv_reachable_inv c0 c : rtc pv_step c0 c -> pv_inv c0 ->
  pv_inv c /\ accessory c = accessory c0 /\ ephemeral c = ephemeral c0.
Proof.
  induction 1 as [c|c c1 c2 H1 _ IH]; intros Hi; [done|].
  destruct (pv_step_fixed _ _ H1) as [Hs Hp].
  destruct IH as (H2 & Hs2 & Hp2); [by eapply pv_step_inv|]. split; [done|]. split; congruence.
Qed.
End machine.

(** A concrete exchange for the witnesses. *)
Definition sample_pairing : AccessoryPairing := {| pairing_id := str "AA:BB"; ap_ltpk := ed_public [x09] |}.
Definition sample_pv : PairVerifyClient :=
  (pv_start (new_with_ephemeral (from_seed (str "ctl") [x05]) sample_pairing [x03])).2.
Definition sample_pv_m2 : bytes :=
  let acc := eph_from_secret [x07] in
  let key := default [] (hkdf_expand (x_dh [x07] (x_public [x03])) PV_ENCRYPT_SALT PV_ENCRYPT_INFO 32) in
  let sub := push_items [] [(IDENTIFIER, str "AA:BB");
    (SIGNATURE, ed_sign [x09] (eph_public acc ++ str "AA:BB" ++ x_public [x03]))] in
  push_items [] [(STATE, [x02]); (PUBLIC_KEY, eph_public acc);
                 (ENCRYPTED_DATA, default [] (aead_seal key (hap_nonce NONCE_M2) [] sub))].
Definition sample_pv_m3 : PairVerifyClient := (pv_handle sample_pv sample_pv_m2).2.

(** * Properties *)

(** C15: Pair Verify authenticates the accessory.  In every run of the machine,
    session keys are produced only when the stored accessory's long-term key signed
    this exchange (its ephemeral key, its stored identifier and our ephemeral key),
    and they are the two directional keys derived from the secret shared with
    exactly that ephemeral key. *)
Theorem pair_verify_done_authentic `{Crypto} c0 c response keys c' :
  shared_secret c0 = None -> rtc pv_step c0 c -> pv_handle c response = (Ok (PvDone keys), c') ->
  exists shared, accessory_signed c0 shared /\
    hkdf_expand shared CONTROL_SALT CONTROL_READ_INFO 32 = Some (sk_read_key keys) /\
    hkdf_expand shared CONTROL_SALT CONTROL_WRITE_INFO 32 = Some (sk_write_key keys) /\
    shared_secret c' = Some shared /\ pv_state c' = VerifyDone.
Proof.
  intros Hi Hr Hh. destruct (pv_reachable_inv c0 c Hr) as (Hinv & Ha & He).
  { unfold pv_inv. by rewrite Hi. }
  unfold pv_handle in Hh. destruct (pv_state c); try done.
  - destruct (pv_handle_m2 c response) as [[[step sh] s]| |] eqn:E; simplify_eq/=.
    by apply pv_handle_m2_inv in E as (x & -> & -> & Hs & m3 & ?).
  - destruct (pv_handle_m4 c response) as [[[step sh] s]| |] eqn:E; simplify_eq/=.
    apply pv_handle_m4_inv in E as (x & r & w & Hx & -> & -> & Hk & Hr' & Hw). injection Hk as ->.
    exists x. unfold pv_inv in Hinv. rewrite Hx in Hinv. unfold accessory_signed in *.
    by rewrite Ha, He in Hinv.
Qed.

Lemma pair_verify_done_authentic_witness :
  exists shared, accessory_signed (new_with_ephemeral (from_seed (str "ctl") [x05]) sample_pairing [x03]) shared /\
    hkdf_expand shared CONTROL_SALT CONTROL_READ_INFO 32 =
      Some (default [] (hkdf_expand (x_dh [x07] (x_public [x03])) CONTROL_SALT CONTROL_READ_INFO 32)) /\
    hkdf_expand shared CONTROL_SALT CONTROL_WRITE_INFO 32 =
      Some (default [] (hkdf_expand (x_dh [x07] (x_public [x03])) CONTROL_SALT CONTROL_WRITE_INFO 32)) /\
    shared_secret (pv_handle sample_pv_m3 (push_u8 [] STATE STATE_M4)).2 = Some shared /\
    pv_state (pv_handle sample_pv_m3 (push_u8 [] STATE STATE_M4)).2 = VerifyDone.
Proof.
  eapply (pair_verify_done_authentic _ sample_pv_m3 (push_u8 [] STATE STATE_M4)
    {| sk_read_key := default [] (hkdf_expand (x_dh [x07] (x_public [x03])) CONTROL_SALT CONTROL_READ_INFO 32);
       sk_write_key := default [] (hkdf_expand (x_dh [x07] (x_public [x03])) CONTROL_SALT CONTROL_WRITE_INFO 32) |}).
  - done.
  - unfold sample_pv_m3, sample_pv. eapply rtc_l; [apply pv_step_start|].
    eapply rtc_l; [apply pv_step_handle|]. apply rtc_refl.
  - by vm_compute.
Defined.

(** Pair Verify never panics, and an error leaves the machine unchanged. *)
Theorem pair_verify_total `{Crypto} c response :
  returns (pv_handle c response).1 /\
  (forall e c', pv_handle c response = (Err e, c') -> c' = c).
Proof.
  split; [apply returns_pv_handle|]. intros e c'. unfold pv_handle, pv_keep.
  destruct (pv_state c); try (by intros; simplify_eq).
  - destruct (pv_handle_m2 c response) as [[[]]| |]; intros; by simplify_eq.
  - destruct (pv_handle_m4 c response) as [[[]]| |]; intros; by simplify_eq.
Qed.
