(* ===== verification/Store.v ===== *)
(** * [hap-pairing/src/{error,store}.rs]: the pairing store's records and operations

    A [JsonFileStore] keeps the controller identity and the paired accessories in one
    JSON document.  Every mutation takes a lock, reads the document, changes it and
    replaces the file by writing a temporary file and renaming it.  serde_json is the
    class [DocumentCodec]; the operations are programs over the calls they make, so that
    their interleavings can be stated ([StoreFs]). *)

From S2P Require Import Prelude Text Tlv8 Crypto RecordLayer PairSetup.

(** ** [error.rs] *)

Inductive PairingError :=
| PairTlv8 (e : Tlv8Error)
| PairCrypto (e : CryptoError)
| PairTransport (e : TransportError)
| StoreError (msg : string)
| AccessoryRejected (code : Z)
| PairMalformed (why : string)
| UnknownAccessory (id : bytes)
| WrongTransport.

(** ** What is stored *)

(** [std::net::SocketAddr]. *)
Inductive SocketAddr :=
| SocketV4 (octets : bytes) (port : Z)
| SocketV6 (octets : bytes) (port flowinfo scope_id : Z).

Record StoredBroadcast := { sb_key : BroadcastKey; sb_gsn : Z }.

Inductive StoredTransport :=
| StoredIp (addr : SocketAddr)
| StoredBle (device_id : bytes) (broadcast : option StoredBroadcast).

Record StoredAccessory := { sa_pairing : AccessoryPairing; sa_transport : StoredTransport }.

Definition sa_id (a : StoredAccessory) : bytes := pairing_id (sa_pairing a).

(** ** The document *)

Record ControllerRecord := { cr_id : bytes; signing_key_hex : bytes }.
Record BroadcastRecord := { key_hex : bytes; br_gsn : Z }.

Inductive TransportRecord :=
| RecIp (addr : SocketAddr)
| RecBle (device_id : bytes) (broadcast : option BroadcastRecord).

Record AccessoryRecord := {
  ar_id : bytes; ltpk_hex : bytes; ar_transport : option TransportRecord; ar_addr : option SocketAddr
}.

Record Document := {
  version : option Z; doc_controller : option ControllerRecord; doc_accessories : list AccessoryRecord
}.

Definition document_default : Document :=
  {| version := None; doc_controller := None; doc_accessories := [] |}.

(** [serde_json::from_slice] and [to_vec_pretty] at [Document]. *)
Class DocumentCodec := {
  from_slice : bytes -> result string Document;
  to_vec_pretty : Document -> result string bytes
}.

(** ** Hex and device ids *)

Definition encode_hex (bs : bytes) : bytes := Zbyte <$> (bs ≫= hex2 false).

Definition hex_digit (c : byte) : result PairingError Z :=
  let c := byteZ c in
  if (48 <=? c)%Z && (c <=? 57)%Z then Ok (c - 48)%Z
  else if (97 <=? c)%Z && (c <=? 102)%Z then Ok (c - 97 + 10)%Z
  else if (65 <=? c)%Z && (c <=? 70)%Z then Ok (c - 65 + 10)%Z
  else Err (PairMalformed "non-hex digit in key").

(** [chunks_exact(2)] with the loop body. *)
Fixpoint decode_pairs (bs : bytes) : result PairingError bytes :=
  match bs with
  | c0 :: c1 :: bs' =>
      hi ← hex_digit c0;
      lo ← hex_digit c1;
      out ← decode_pairs bs';
      Ok (Zbyte (Z.lor (Z.shiftl hi 4) lo) :: out)
  | _ => Ok []
  end.

Definition decode_key_32 (s : bytes) : result PairingError bytes :=
  if negb (length s =? 64) then Err (PairMalformed "expected 64 hex chars (32 bytes)")
  else decode_pairs s.

Fixpoint join (sep : byte) (parts : list bytes) : bytes :=
  match parts with
  | [] => []
  | [p] => p
  | p :: parts' => p ++ sep :: join sep parts'
  end.

Definition format_device_id (id : bytes) : bytes := join x3a ((fun b => Zbyte <$> hex2 false b) <$> id).

(** One slot filled from the next part. *)
Definition parse_id_part (p : bytes) : option byte :=
  if negb (length p =? 2) then None else Zbyte <$> from_str_radix 16 255 (byteZ <$> p).

Definition parse_device_id (s : bytes) : option bytes :=
  let parts := split_on x3a s in
  out ← mapM parse_id_part (take 6 parts);
  if length out =? 6 then (if length parts =? 6 then Some out else None) else None.

(** ** Conversions *)

Definition controller_to_record (k : ControllerKeypair) : ControllerRecord :=
  {| cr_id := kp_id k; signing_key_hex := encode_hex (seed k) |}.

Definition controller_from_record (r : ControllerRecord) : result PairingError ControllerKeypair :=
  s ← decode_key_32 (signing_key_hex r);
  Ok (from_seed (cr_id r) s).

Definition broadcast_to_record (b : StoredBroadcast) : BroadcastRecord :=
  {| key_hex := encode_hex (bk (sb_key b)); br_gsn := sb_gsn b |}.

Definition broadcast_from_record (b : BroadcastRecord) : result PairingError StoredBroadcast :=
  key ← decode_key_32 (key_hex b);
  Ok {| sb_key := {| bk := key |}; sb_gsn := br_gsn b |}.

Definition accessory_to_record (a : StoredAccessory) : AccessoryRecord :=
  let transport := match sa_transport a with
                   | StoredIp addr => RecIp addr
                   | StoredBle device_id broadcast =>
                       RecBle (format_device_id device_id) (broadcast_to_record <$> broadcast)
                   end in
  {| ar_id := pairing_id (sa_pairing a); ltpk_hex := encode_hex (ap_ltpk (sa_pairing a));
     ar_transport := Some transport; ar_addr := None |}.

Definition accessory_from_record (r : AccessoryRecord) : result PairingError StoredAccessory :=
  ltpk ← decode_key_32 (ltpk_hex r);
  transport ← (match ar_transport r, ar_addr r with
    | Some (RecIp addr), _ | None, Some addr => Ok (StoredIp addr)
    | Some (RecBle device_id broadcast), _ =>
        device_id ← ok_or (parse_device_id device_id) (PairMalformed "malformed BLE device id");
        broadcast ← (match broadcast with
                     | Some b => Some <$> broadcast_from_record b
                     | None => Ok None
                     end);
        Ok (StoredBle device_id broadcast)
    | None, None => Err (PairMalformed "record has no transport")
    end);
  Ok {| sa_pairing := {| pairing_id := ar_id r; ap_ltpk := ltpk |}; sa_transport := transport |}.

(** ** Operations as programs

    The calls an operation makes on the lock and the two files.  A read answers the
    file's bytes, the other calls answer the empty string. *)

Inductive IoError := NotFound | OtherIo (msg : string).

Inductive Call :=
| LockCall
| UnlockCall
| ReadCall
| CreateCall
| WriteCall (data : bytes)
| SyncCall
| RenameCall.

Inductive prog (A : Type) :=
| Finish (r : result PairingError A)
| Do (c : Call) (k : bytes + IoError -> prog A).
Arguments Finish {A} r.
Arguments Do {A} c k.

#[export] Instance prog_ret : MRet prog := fun A a => Finish (Ok a).
#[export] Instance prog_bind : MBind prog := fun A B f =>
  fix go m := match m with
              | Finish (Ok a) => f a
              | Finish (Err e) => Finish (Err e)
              | Finish (Fault x) => Finish (Fault x)
              | Do c k => Do c (fun ans => go (k ans))
              end.

Definition io_message (e : IoError) : string :=
  match e with NotFound => "not found" | OtherIo msg => msg end.

(** [call.await.map_err(|e| PairingError::Store(e.to_string()))?] *)
Definition io (c : Call) : prog bytes :=
  Do c (fun ans => match ans with inl data => mret data
                             | inr e => Finish (Err (StoreError (io_message e))) end).

(** [let _guard = self.write_lock.lock().await]: the guard is dropped on every exit. *)
Fixpoint unlocking {A} (m : prog A) : prog A :=
  match m with
  | Finish r => Do UnlockCall (fun _ => Finish r)
  | Do c k => Do c (fun ans => unlocking (k ans))
  end.
Definition with_lock {A} (m : prog A) : prog A := Do LockCall (fun _ => unlocking m).

Section store.
Context `{DocumentCodec}.

(** What [read_doc] makes of the answer of [tokio::fs::read]. *)
Definition read_answer (ans : bytes + IoError) : prog Document :=
  match ans with
  | inl data =>
      doc ← Finish (map_err StoreError (from_slice data));
      match version doc with
      | None | Some 1%Z | Some 2%Z => mret doc
      | Some _ => Finish (Err (PairMalformed "unsupported store version"))
      end
  | inr NotFound => mret document_default
  | inr e => Finish (Err (StoreError (io_message e)))
  end.

Definition read_doc : prog Document := Do ReadCall read_answer.

Definition write_doc (doc : Document) : prog () :=
  let doc := {| version := Some 2%Z; doc_controller := doc_controller doc;
                doc_accessories := doc_accessories doc |} in
  data ← Finish (map_err StoreError (to_vec_pretty doc));
  _ ← io CreateCall;
  _ ← io (WriteCall data);
  _ ← io SyncCall;
  _ ← io RenameCall;
  mret ().

Definition load_controller : prog (option ControllerKeypair) :=
  doc ← read_doc;
  match doc_controller doc with
  | Some r => k ← Finish (controller_from_record r); mret (Some k)
  | None => mret None
  end.

Definition save_controller (k : ControllerKeypair) : prog () :=
  with_lock (
    doc ← read_doc;
    write_doc {| version := version doc; doc_controller := Some (controller_to_record k);
                 doc_accessories := doc_accessories doc |}).

Definition load_pairings : prog (list StoredAccessory) :=
  doc ← read_doc;
  Finish (mapM accessory_from_record (doc_accessories doc)).

(** Replace the first record [p] selects; [None] if there is none. *)
Fixpoint update_first {A} (p : A -> bool) (f : A -> A) (l : list A) : option (list A) :=
  match l with
  | [] => None
  | x :: l' => if p x then Some (f x :: l') else (x ::.) <$> update_first p f l'
  end.

Definition save_pairing (a : StoredAccessory) : prog () :=
  with_lock (
    doc ← read_doc;
    let record := accessory_to_record a in
    write_doc {| version := version doc; doc_controller := doc_controller doc;
                 doc_accessories :=
                   match update_first (fun r => bool_decide (ar_id r = ar_id record)) (fun _ => record)
                           (doc_accessories doc) with
                   | Some accessories => accessories
                   | None => doc_accessories doc ++ [record]
                   end |}).

Definition delete_pairing (id : bytes) : prog () :=
  with_lock (
    doc ← read_doc;
    write_doc {| version := version doc; doc_controller := doc_controller doc;
                 doc_accessories := filter (fun r => ar_id r <> id) (doc_accessories doc) |}).

(** The record with its broadcast replaced; [None] unless it is a BLE record. *)
Definition with_broadcast (broadcast : StoredBroadcast) (rec : AccessoryRecord) : option AccessoryRecord :=
  match ar_transport rec with
  | Some (RecBle device_id _) =>
      Some {| ar_id := ar_id rec; ltpk_hex := ltpk_hex rec;
              ar_transport := Some (RecBle device_id (Some (broadcast_to_record broadcast)));
              ar_addr := ar_addr rec |}
  | _ => None
  end.

Definition save_broadcast_state (id : bytes) (broadcast : StoredBroadcast) : prog () :=
  with_lock (
    doc ← read_doc;
    match List.find (fun r => bool_decide (ar_id r = id)) (doc_accessories doc) ≫= with_broadcast broadcast with
    | Some rec =>
        write_doc {| version := version doc; doc_controller := doc_controller doc;
                     doc_accessories := default (doc_accessories doc)
                       (update_first (fun r => bool_decide (ar_id r = id)) (fun _ => rec) (doc_accessories doc)) |}
    | None => mret ()
    end).

(** The trait's default [save_broadcast_state], over any store. *)
Definition default_save_broadcast_state (load : prog (list StoredAccessory))
    (save : StoredAccessory -> prog ()) (id : bytes) (broadcast : StoredBroadcast) : prog () :=
  pairings ← load;
  match List.find (fun a => bool_decide (sa_id a = id)) pairings with
  | Some acc =>
      match sa_transport acc with
      | StoredBle device_id _ =>
          save {| sa_pairing := sa_pairing acc; sa_transport := StoredBle device_id (Some broadcast) |}
      | StoredIp _ => mret ()
      end
  | None => mret ()
  end.
End store.

(** * Lemmas *)

(** ** Hex *)

Lemma hex_char_digit d : (0 <= d < 16)%Z -> hex_digit (Zbyte (hex_char false d)) = Ok d.
Proof.
  intros Hd.
  assert (Hall : forallb (fun n => let d := Z.of_nat n in
                    match hex_digit (Zbyte (hex_char false d)) with Ok v => (v =? d)%Z | _ => false end) (seq 0 16) = true)
    by by vm_compute.
  rewrite forallb_forall in Hall. assert (Hin : In (Z.to_nat d) (seq 0 16)) by (apply in_seq; lia).
  specialize (Hall _ Hin). rewrite Z2Nat.id in Hall by lia. cbv zeta in Hall. destruct (hex_digit _) as [v| |]; [|done|done]. apply Z.eqb_eq in Hall. by subst.
Qed.

Lemma nibbles b : Zbyte (Z.lor (Z.shiftl (byteZ b / 16) 4) (byteZ b mod 16)) = b.
Proof. destruct b; by vm_compute. Qed.

Lemma hex2_digits b :
  hex_digit (Zbyte (hex_char false (byteZ b / 16))) = Ok (byteZ b / 16)%Z /\
  hex_digit (Zbyte (hex_char false (byteZ b mod 16))) = Ok (byteZ b mod 16)%Z.
Proof.
  pose proof (byteZ_range b). split; apply hex_char_digit.
  - split; [apply Z.div_pos; lia|]. apply Z.div_lt_upper_bound; lia.
  - apply Z.mod_pos_bound. lia.
Qed.

Lemma decode_encode_hex bs : decode_pairs (encode_hex bs) = Ok bs.
Proof.
  unfold encode_hex. induction bs as [|b bs IH]; [done|].
  cbn [mbind list_bind]. rewrite fmap_app. cbn [hex2 fmap list_fmap app decode_pairs].
  destruct (hex2_digits b) as [-> ->]. cbn [mbind result_bind]. rewrite IH. cbn [mbind result_bind].
  by rewrite nibbles.
Qed.

Lemma length_encode_hex bs : length (encode_hex bs) = 2 * length bs.
Proof.
  unfold encode_hex. rewrite length_fmap. induction bs as [|b bs IH]; [done|].
  cbn [mbind list_bind]. rewrite length_app, IH. simpl. lia.
Qed.

Lemma decode_key_encode key : length key = 32 -> decode_key_32 (encode_hex key) = Ok key.
Proof. intros Hl. unfold decode_key_32. by rewrite length_encode_hex, Hl, decode_encode_hex. Qed.

(** ** Device ids *)

Lemma parse_id_part_hex b : parse_id_part (Zbyte <$> hex2 false b) = Some b.
Proof. destruct b; by vm_compute. Qed.

Lemma hex2_no_colon b : x3a ∉ Zbyte <$> hex2 false b.
Proof. apply (bool_decide_unpack _). destruct b; by vm_compute. Qed.

Lemma split_format_device_id id : id <> [] ->
  split_on x3a (format_device_id id) = (fun b => Zbyte <$> hex2 false b) <$> id.
Proof.
  unfold format_device_id. induction id as [|b id IH]; [done|]. intros _.
  destruct id as [|b' id]; [by apply split_on_line, hex2_no_colon|].
  cbn [fmap list_fmap join] in *. rewrite split_on_skip by apply hex2_no_colon.
  cbn [split_on]. rewrite bool_decide_true by done. rewrite IH by done. by rewrite app_nil_r.
Qed.

Lemma parse_format_device_id id : length id = 6 -> parse_device_id (format_device_id id) = Some id.
Proof.
  intros Hl. unfold parse_device_id. rewrite split_format_device_id by by intros ->.
  rewrite take_ge by (rewrite length_fmap; lia). rewrite length_fmap, Hl.
  assert (mapM parse_id_part ((fun b => Zbyte <$> hex2 false b) <$> id) = Some id) as ->.
  { clear Hl. induction id as [|b id IH]; [done|]. cbn [fmap list_fmap mapM].
    rewrite parse_id_part_hex. cbn [mbind option_bind]. by rewrite IH. }
  cbn [mbind option_bind]. by rewrite Hl.
Qed.

(** ** Records *)

Definition transport_wf (t : StoredTransport) : Prop :=
  match t with
  | StoredIp _ => True
  | StoredBle device_id broadcast =>
      length device_id = 6 /\ match broadcast with Some b => length (bk (sb_key b)) = 32 | None => True end
  end.
Definition accessory_wf (a : StoredAccessory) : Prop :=
  length (ap_ltpk (sa_pairing a)) = 32 /\ transport_wf (sa_transport a).

Lemma broadcast_record_roundtrip b :
  length (bk (sb_key b)) = 32 -> broadcast_from_record (broadcast_to_record b) = Ok b.
Proof.
  intros Hl. destruct b as [[key] gsn]. unfold broadcast_from_record. simpl in *.
  by rewrite decode_key_encode.
Qed.

Lemma accessory_record_roundtrip a : accessory_wf a -> accessory_from_record (accessory_to_record a) = Ok a.
Proof.
  destruct a as [[id key] t]. intros [Hk Ht]. unfold accessory_from_record, accessory_to_record.
  cbn [sa_pairing sa_transport pairing_id ap_ltpk ltpk_hex ar_transport ar_addr ar_id] in *.
  rewrite decode_key_encode by done. cbn [mbind result_bind].
  destruct t as [addr|device_id [b|]]; cbn in *; [done| |].
  - destruct Ht as [Hd Hb]. rewrite parse_format_device_id by done. cbn.
    by rewrite broadcast_record_roundtrip by done.
  - destruct Ht as [Hd _]. by rewrite parse_format_device_id by done.
Qed.

Lemma controller_record_roundtrip k :
  length (seed k) = 32 -> controller_from_record (controller_to_record k) = Ok k.
Proof.
  intros Hl. destruct k as [id s]. unfold controller_from_record, controller_to_record.
  cbn [signing_key_hex]. by rewrite decode_key_encode.
Qed.

(** Replacing the broadcast of a stored BLE record. *)
Lemma with_broadcast_from rec a device_id old b :
  accessory_from_record rec = Ok a -> sa_transport a = StoredBle device_id old ->
  length (bk (sb_key b)) = 32 ->
  exists rec', with_broadcast b rec = Some rec' /\ ar_id rec' = ar_id rec /\
    accessory_from_record rec' = Ok {| sa_pairing := sa_pairing a; sa_transport := StoredBle device_id (Some b) |}.
Proof.
  destruct rec as [id lh tr addr]. unfold accessory_from_record, with_broadcast. cbn.
  intros (key & Hk & Ha)%bind_Ok_inv Ht Hb. destruct tr as [[addr'|dev bo]|]; cbn in *.
  - by simplify_eq/=.
  - destruct (parse_device_id dev) as [d|] eqn:Hdev; cbn in *; [|done].
    apply bind_Ok_inv in Ha as (t & Hbo & [= <-]). apply bind_Ok_inv in Hbo as (bo' & _ & [= <-]).
    cbn in Ht. injection Ht as -> ->. eexists. split; [done|]. split; [done|].
    cbn. rewrite Hk. cbn. rewrite Hdev. cbn. by rewrite broadcast_record_roundtrip by done.
  - destruct addr; by simplify_eq/=.
Qed.

Lemma with_broadcast_ip b rec a addr :
  accessory_from_record rec = Ok a -> sa_transport a = StoredIp addr -> with_broadcast b rec = None.
Proof.
  destruct rec as [id lh tr ad]. unfold accessory_from_record, with_broadcast. cbn.
  intros (key & Hk & Ha)%bind_Ok_inv Ht. destruct tr as [[addr'|dev bo]|]; cbn in *; [done| |done].
  apply bind_Ok_inv in Ha as (t & Hbo & [= <-]). cbn in Ht. subst t.
  destruct (parse_device_id dev) as [d|]; cbn in *; [|done]. by apply bind_Ok_inv in Hbo as (bo' & _ & ?).
Qed.

Lemma accessory_from_record_id rec a : accessory_from_record rec = Ok a -> sa_id a = ar_id rec.
Proof.
  unfold accessory_from_record. intros (key & _ & Ha)%bind_Ok_inv.
  by apply bind_Ok_inv in Ha as (t & _ & [= <-]).
Qed.
