(* ===== verification/StoreFs.v ===== *)
(** * [hap-pairing/src/store.rs]: concurrent tasks, failing I/O and crashes

    The operations of [Store] run as concurrent tasks on one file: any call may fail, a
    task may be cancelled in a call, and the machine may crash, losing whatever was not
    synced.  The abstract store [AtomicState] performs each operation in one indivisible
    step between its invocation and its response.  The theorem: what tasks can observe of
    [JsonFileStore] they can observe of the abstract store, and the file always holds its
    contents.

    A rename is atomic and keeps the data synced before it, but the directory is never
    synced: a crash may bring back any contents the file had since the last one.  A call of
    a cancelled task stays with the blocking pool and runs to its end later, with the lock
    given back ([fs_orphans]); the theorem is about the runs in which it has ended before
    the lock is next taken ([orderly]), and [late_rename_corrupts] shows a run in which it
    has not. *)

From S2P Require Import Prelude Text Tlv8 Crypto RecordLayer PairSetup Store.

(** ** The file system *)

(** The store's file, with whether its data is durable and the contents it had before,
    which the directory may still name on the disk; the temporary file, with whether its
    data is durable. *)
Record Disk := {
  dk_file : option bytes; dk_durable : bool; dk_older : list (option bytes); dk_tmp : option bytes; dk_synced : bool
}.

Definition set_tmp (tmp : option bytes) (synced : bool) (d : Disk) : Disk :=
  {| dk_file := dk_file d; dk_durable := dk_durable d; dk_older := dk_older d; dk_tmp := tmp; dk_synced := synced |}.
Definition renamed (t : bytes) (d : Disk) : Disk :=
  {| dk_file := Some t; dk_durable := dk_synced d && dk_durable d; dk_older := dk_file d :: dk_older d; dk_tmp := None;
     dk_synced := false |}.

Inductive io_step : Call -> Disk -> bytes + IoError -> Disk -> Prop :=
| read_found d data : dk_file d = Some data -> io_step ReadCall d (inl data) d
| read_missing d : dk_file d = None -> io_step ReadCall d (inr NotFound) d
| read_fails d msg : io_step ReadCall d (inr (OtherIo msg)) d
| create_done d : io_step CreateCall d (inl []) (set_tmp (Some []) false d)
| write_done data t d :
    dk_tmp d = Some t -> io_step (WriteCall data) d (inl []) (set_tmp (Some (t ++ data)) false d)
| sync_done d : io_step SyncCall d (inl []) (set_tmp (dk_tmp d) true d)
| rename_done t d :
    dk_tmp d = Some t -> io_step RenameCall d (inl []) (renamed t d)
| write_side_fails c d e tmp :
    c ∉ [LockCall; UnlockCall; ReadCall] -> io_step c d (inr e) (set_tmp tmp false d).

(** After a crash: the directory names the file's last contents, or earlier ones; data
    that was synced is kept, the rest is arbitrary. *)
Definition crash (d d' : Disk) : Prop :=
  (dk_durable d = true -> dk_file d' ∈ dk_file d :: dk_older d) /\ dk_durable d' = true /\ dk_older d' = [].

(** ** Tasks *)

Inductive StoreOp :=
| OpLoadController
| OpSaveController (k : ControllerKeypair)
| OpLoadPairings
| OpSavePairing (a : StoredAccessory)
| OpDeletePairing (id : bytes)
| OpSaveBroadcast (id : bytes) (b : StoredBroadcast).

Inductive StoreVal :=
| ValUnit
| ValController (k : option ControllerKeypair)
| ValPairings (ps : list StoredAccessory).

(** What a task's environment sees. *)
Inductive Label :=
| Invoke (i : nat) (o : StoreOp)
| Respond (i : nat) (r : result PairingError StoreVal)
| Cancel (i : nat)
| Crash.

(** Executions with their visible labels. *)
Inductive trace {S} (step : S -> option Label -> S -> Prop) : S -> list Label -> S -> Prop :=
| trace_nil s : trace step s [] s
| trace_silent s s' s'' ls : step s None s' -> trace step s' ls s'' -> trace step s ls s''
| trace_visible s s' s'' l ls : step s (Some l) s' -> trace step s' ls s'' -> trace step s (l :: ls) s''.

Section tasks.
Context `{DocumentCodec}.

Definition op_prog (o : StoreOp) : prog StoreVal :=
  match o with
  | OpLoadController => k ← load_controller; mret (ValController k)
  | OpSaveController k => _ ← save_controller k; mret ValUnit
  | OpLoadPairings => ps ← load_pairings; mret (ValPairings ps)
  | OpSavePairing a => _ ← save_pairing a; mret ValUnit
  | OpDeletePairing id => _ ← delete_pairing id; mret ValUnit
  | OpSaveBroadcast id b => _ ← save_broadcast_state id b; mret ValUnit
  end.

(** [fs_orphans]: the calls of cancelled tasks that are still with the blocking pool. *)
Record FsState := {
  fs_disk : Disk; fs_lock : option nat; fs_tasks : gmap nat (prog StoreVal); fs_orphans : list Call
}.

(** The call a task is suspended in, if it may still change a file. *)
Definition in_flight (p : prog StoreVal) : list Call :=
  match p with
  | Do (LockCall | UnlockCall | ReadCall) _ | Finish _ => []
  | Do c _ => [c]
  end.

Inductive fs_step : FsState -> option Label -> FsState -> Prop :=
| fs_invoke os d lk ts i o :
    ts !! i = None ->
    fs_step {| fs_disk := d; fs_lock := lk; fs_tasks := ts; fs_orphans := os |} (Some (Invoke i o))
      {| fs_disk := d; fs_lock := lk; fs_tasks := <[i := op_prog o]> ts; fs_orphans := os |}
| fs_acquire os d ts i k :
    ts !! i = Some (Do LockCall k) ->
    fs_step {| fs_disk := d; fs_lock := None; fs_tasks := ts; fs_orphans := os |} None
      {| fs_disk := d; fs_lock := Some i; fs_tasks := <[i := k (inl [])]> ts; fs_orphans := os |}
| fs_release os d lk ts i k :
    ts !! i = Some (Do UnlockCall k) ->
    fs_step {| fs_disk := d; fs_lock := lk; fs_tasks := ts; fs_orphans := os |} None
      {| fs_disk := d; fs_lock := None; fs_tasks := <[i := k (inl [])]> ts; fs_orphans := os |}
| fs_io os d d' lk ts i c k ans :
    ts !! i = Some (Do c k) -> io_step c d ans d' ->
    fs_step {| fs_disk := d; fs_lock := lk; fs_tasks := ts; fs_orphans := os |} None
      {| fs_disk := d'; fs_lock := lk; fs_tasks := <[i := k ans]> ts; fs_orphans := os |}
| fs_respond os d lk ts i r :
    ts !! i = Some (Finish r) ->
    fs_step {| fs_disk := d; fs_lock := lk; fs_tasks := ts; fs_orphans := os |} (Some (Respond i r))
      {| fs_disk := d; fs_lock := lk; fs_tasks := delete i ts; fs_orphans := os |}
| fs_cancel os d lk ts i p :
    ts !! i = Some p ->
    fs_step {| fs_disk := d; fs_lock := lk; fs_tasks := ts; fs_orphans := os |} (Some (Cancel i))
      {| fs_disk := d; fs_lock := if bool_decide (lk = Some i) then None else lk; fs_tasks := delete i ts;
         fs_orphans := os ++ in_flight p |}
| fs_orphan os1 os2 d d' lk ts c ans :
    io_step c d ans d' ->
    fs_step {| fs_disk := d; fs_lock := lk; fs_tasks := ts; fs_orphans := os1 ++ c :: os2 |} None
      {| fs_disk := d'; fs_lock := lk; fs_tasks := ts; fs_orphans := os1 ++ os2 |}
| fs_crash os d d' lk ts :
    crash d d' ->
    fs_step {| fs_disk := d; fs_lock := lk; fs_tasks := ts; fs_orphans := os |} (Some Crash)
      {| fs_disk := d'; fs_lock := None; fs_tasks := ∅; fs_orphans := [] |}.

(** A step at which no call of a cancelled task is left over when the lock is taken. *)
Definition orderly (st : FsState) (l : option Label) (st' : FsState) : Prop :=
  fs_step st l st' /\ (fs_lock st = None -> fs_lock st' <> None -> fs_orphans st = []).
End tasks.

(** ** The abstract store *)

Record AStore := { as_controller : option ControllerKeypair; as_pairings : gmap bytes StoredAccessory }.

Definition by_id (ps : list StoredAccessory) : gmap bytes StoredAccessory :=
  list_to_map ((fun a => (sa_id a, a)) <$> ps).

Definition set_broadcast (b : StoredBroadcast) (a : StoredAccessory) : StoredAccessory :=
  match sa_transport a with
  | StoredBle device_id _ =>
      {| sa_pairing := sa_pairing a; sa_transport := StoredBle device_id (Some b) |}
  | StoredIp _ => a
  end.

Definition with_pairings (f : gmap bytes StoredAccessory -> gmap bytes StoredAccessory) (s : AStore) : AStore :=
  {| as_controller := as_controller s; as_pairings := f (as_pairings s) |}.

(** The mutation an operation stands for. *)
Definition spec_mutation (o : StoreOp) : option (AStore -> AStore) :=
  match o with
  | OpSaveController k => Some (fun s => {| as_controller := Some k; as_pairings := as_pairings s |})
  | OpSavePairing a => Some (with_pairings <[sa_id a := a]>)
  | OpDeletePairing id => Some (with_pairings (delete id))
  | OpSaveBroadcast id b => Some (with_pairings (alter (set_broadcast b) id))
  | OpLoadController | OpLoadPairings => None
  end.

Inductive store_spec : StoreOp -> AStore -> StoreVal -> AStore -> Prop :=
| spec_load_controller s : store_spec OpLoadController s (ValController (as_controller s)) s
| spec_load_pairings s ps :
    NoDup (sa_id <$> ps) -> by_id ps = as_pairings s -> store_spec OpLoadPairings s (ValPairings ps) s
| spec_mutate o f s : spec_mutation o = Some f -> store_spec o s ValUnit (f s).

(** The store and its states since the last crash; the pending operations, with their value
    once they have taken effect; the cancelled operations that had not. *)
Record AtomicState := {
  at_store : AStore; at_past : list AStore; at_pending : gmap nat (StoreOp * option StoreVal); at_detached : list StoreOp
}.

Inductive at_step : AtomicState -> option Label -> AtomicState -> Prop :=
| at_invoke s past pend det i o :
    pend !! i = None ->
    at_step {| at_store := s; at_past := past; at_pending := pend; at_detached := det |} (Some (Invoke i o))
      {| at_store := s; at_past := past; at_pending := <[i := (o, None)]> pend; at_detached := det |}
| at_effect s s' past pend det i o v :
    pend !! i = Some (o, None) -> store_spec o s v s' ->
    at_step {| at_store := s; at_past := past; at_pending := pend; at_detached := det |} None
      {| at_store := s'; at_past := s :: past; at_pending := <[i := (o, Some v)]> pend; at_detached := det |}
| at_return s past pend det i o v :
    pend !! i = Some (o, Some v) ->
    at_step {| at_store := s; at_past := past; at_pending := pend; at_detached := det |} (Some (Respond i (Ok v)))
      {| at_store := s; at_past := past; at_pending := delete i pend; at_detached := det |}
| at_error s past pend det i o e :
    pend !! i = Some (o, None) ->
    at_step {| at_store := s; at_past := past; at_pending := pend; at_detached := det |} (Some (Respond i (Err e)))
      {| at_store := s; at_past := past; at_pending := delete i pend; at_detached := det |}
| at_cancel s past pend det i o c :
    pend !! i = Some (o, c) ->
    at_step {| at_store := s; at_past := past; at_pending := pend; at_detached := det |} (Some (Cancel i))
      {| at_store := s; at_past := past; at_pending := delete i pend;
         at_detached := match c with None => o :: det | Some _ => det end |}
| at_late s s' past pend det1 o det2 v :
    store_spec o s v s' ->
    at_step {| at_store := s; at_past := past; at_pending := pend; at_detached := det1 ++ o :: det2 |} None
      {| at_store := s'; at_past := s :: past; at_pending := pend; at_detached := det1 ++ det2 |}
| at_crash s s' past pend det :
    s' ∈ s :: past ->
    at_step {| at_store := s; at_past := past; at_pending := pend; at_detached := det |} (Some Crash)
      {| at_store := s'; at_past := []; at_pending := ∅; at_detached := [] |}.

(** ** Documents that hold a store *)

Definition str_ok (s : bytes) : Prop := from_utf8 s <> None.
Definition addr_ok (a : SocketAddr) : Prop :=
  match a with
  | SocketV4 octets port => length octets = 4 /\ in_u 16 port
  | SocketV6 octets port flowinfo scope_id =>
      length octets = 16 /\ in_u 16 port /\ flowinfo = 0%Z /\ in_u 32 scope_id
  end.
Definition broadcast_record_ok (b : BroadcastRecord) : Prop := str_ok (key_hex b) /\ in_u 16 (br_gsn b).
Definition transport_record_ok (t : TransportRecord) : Prop :=
  match t with
  | RecIp addr => addr_ok addr
  | RecBle device_id broadcast => str_ok device_id /\ from_option broadcast_record_ok True broadcast
  end.
Definition record_ok (r : AccessoryRecord) : Prop :=
  str_ok (ar_id r) /\ str_ok (ltpk_hex r) /\ from_option transport_record_ok True (ar_transport r) /\
  from_option addr_ok True (ar_addr r).
Definition controller_record_ok (r : ControllerRecord) : Prop := str_ok (cr_id r) /\ str_ok (signing_key_hex r).

(** Documents whose fields are in range, and whose addresses serde keeps (it writes an
    address as text, without the flow information of IPv6). *)
Definition doc_wf (doc : Document) : Prop :=
  from_option (in_u 32) True (version doc) /\ from_option controller_record_ok True (doc_controller doc) /\
  Forall record_ok (doc_accessories doc).

(** What is relied on of serde_json: a document it writes reads back. *)
Class DocumentCodecLaws `{DocumentCodec} := {
  from_to_slice doc : doc_wf doc -> exists data, to_vec_pretty doc = Ok data /\ from_slice data = Ok doc
}.

Definition doc_holds (doc : Document) (s : AStore) : Prop :=
  doc_wf doc /\ version doc ∈ [None; Some 1%Z; Some 2%Z] /\
  option_Forall2 (fun r k => controller_from_record r = Ok k) (doc_controller doc) (as_controller s) /\
  exists ps, Forall2 (fun r a => accessory_from_record r = Ok a) (doc_accessories doc) ps /\
    NoDup (sa_id <$> ps) /\ by_id ps = as_pairings s.

Definition file_holds `{DocumentCodec} (f : option bytes) (s : AStore) : Prop :=
  exists doc, match f with None => doc = document_default | Some data => from_slice data = Ok doc end /\
    doc_holds doc s.

(** The operations' arguments are in range. *)
Definition stored_broadcast_ok (b : StoredBroadcast) : Prop := length (bk (sb_key b)) = 32 /\ in_u 16 (sb_gsn b).
Definition stored_ok (a : StoredAccessory) : Prop :=
  accessory_wf a /\ str_ok (sa_id a) /\
  match sa_transport a with
  | StoredIp addr => addr_ok addr
  | StoredBle _ broadcast => from_option stored_broadcast_ok True broadcast
  end.
Definition op_wf (o : StoreOp) : Prop :=
  match o with
  | OpSaveController k => str_ok (kp_id k) /\ length (seed k) = 32
  | OpSavePairing a => stored_ok a
  | OpSaveBroadcast _ b => stored_broadcast_ok b
  | _ => True
  end.
Definition label_wf (l : Label) : Prop := match l with Invoke _ o => op_wf o | _ => True end.

(** * Lemmas *)

(** ** Lists keyed by id *)

Lemma update_first_split {A} (p : A -> bool) (f : A -> A) l :
  match update_first p f l with
  | Some l' => exists l1 x l2, l = l1 ++ x :: l2 /\ l' = l1 ++ f x :: l2 /\ p x = true /\ List.find p l = Some x
  | None => Forall (fun x => p x = false) l /\ List.find p l = None
  end.
Proof.
  induction l as [|x l IH]; [done|]. cbn [update_first List.find]. destruct (p x) eqn:Hp.
  - by exists [], x, l.
  - destruct (update_first p f l) as [l'|]; cbn.
    + destruct IH as (l1 & y & l2 & -> & -> & Hy & Hf). by exists (x :: l1), y, l2.
    + destruct IH as [IH ?]. split; [by constructor|done].
Qed.

Lemma by_id_middle ps1 a ps2 :
  NoDup (sa_id <$> ps1 ++ a :: ps2) -> by_id (ps1 ++ a :: ps2) = <[sa_id a := a]> (by_id (ps1 ++ ps2)).
Proof.
  intros Hn. unfold by_id. change (<[sa_id a := a]> (list_to_map ?l)) with (list_to_map ((sa_id a, a) :: l) : gmap _ _).
  apply list_to_map_proper.
  - rewrite <- list_fmap_compose. exact Hn.
  - rewrite !fmap_app, fmap_cons. symmetry. apply Permutation_middle.
Qed.

Lemma by_id_lookup ps i a : NoDup (sa_id <$> ps) -> by_id ps !! i = Some a <-> a ∈ ps /\ sa_id a = i.
Proof.
  intros Hn. unfold by_id. rewrite <- elem_of_list_to_map by by rewrite <- list_fmap_compose.
  rewrite list_elem_of_fmap. split; [|intros [Ha <-]; by exists a]. by intros (b & [= -> ->] & Hb).
Qed.

Lemma NoDup_middle_elim ps1 a a' ps2 :
  sa_id a = sa_id a' -> NoDup (sa_id <$> ps1 ++ a :: ps2) -> NoDup (sa_id <$> ps1 ++ a' :: ps2).
Proof. intros Ha. by rewrite !fmap_app, !fmap_cons, Ha. Qed.

Lemma by_id_update ps1 a a' ps2 :
  sa_id a = sa_id a' -> NoDup (sa_id <$> ps1 ++ a :: ps2) ->
  by_id (ps1 ++ a' :: ps2) = <[sa_id a' := a']> (by_id (ps1 ++ a :: ps2)).
Proof.
  intros Ha Hn. rewrite (by_id_middle ps1 a' ps2), (by_id_middle ps1 a ps2), Ha, insert_insert_eq; [done|done|].
  by eapply NoDup_middle_elim.
Qed.

Lemma by_id_filter id ps :
  NoDup (sa_id <$> ps) -> by_id (filter (fun a => sa_id a <> id) ps) = delete id (by_id ps).
Proof.
  intros Hn.
  assert (NoDup (sa_id <$> filter (fun a => sa_id a <> id) ps)) as Hn'.
  { eapply sublist_NoDup; [exact Hn|]. apply fmap_sublist, sublist_filter. }
  apply map_eq. intros i. apply option_eq. intros a. rewrite by_id_lookup by done.
  rewrite lookup_delete_Some, by_id_lookup by done. rewrite list_elem_of_filter. clear. firstorder congruence.
Qed.

(** ** Documents *)

Lemma str_ok_ascii s : is_ascii s -> str_ok s.
Proof. intros Hs. unfold str_ok. by rewrite from_utf8_ascii. Qed.

Lemma hex2_ascii b : is_ascii (Zbyte <$> hex2 false b).
Proof. apply (bool_decide_unpack _). destruct b; by vm_compute. Qed.

Lemma encode_hex_ok bs : str_ok (encode_hex bs).
Proof.
  apply str_ok_ascii. unfold encode_hex. induction bs as [|b bs IH]; [constructor|].
  cbn [mbind list_bind]. rewrite fmap_app. apply Forall_app. split; [apply hex2_ascii|done].
Qed.

Lemma join_ascii sep parts : is_ascii [sep] -> Forall is_ascii parts -> is_ascii (join sep parts).
Proof.
  intros Hs. induction 1 as [|p parts Hp Hps IH]; [constructor|]. destruct parts as [|q parts]; [done|].
  cbn [join]. apply Forall_app. split; [done|]. apply (Forall_app_2 _ [sep]); done.
Qed.

Lemma format_device_id_ok id : str_ok (format_device_id id).
Proof.
  apply str_ok_ascii, join_ascii; [by apply (bool_decide_unpack _)|]. apply Forall_fmap, Forall_forall.
  intros b _. apply hex2_ascii.
Qed.

Lemma broadcast_to_record_ok b : stored_broadcast_ok b -> broadcast_record_ok (broadcast_to_record b).
Proof. intros [_ Hg]. split; [apply encode_hex_ok|done]. Qed.

Lemma accessory_to_record_ok a : stored_ok a -> record_ok (accessory_to_record a).
Proof.
  intros (_ & Hi & Ht). destruct a as [[id key] t]. split; [done|]. split; [apply encode_hex_ok|]. split; [|done].
  destruct t as [addr|dev [b|]]; cbn in *; [done| |]; (split; [apply format_device_id_ok|]); [|done].
  by apply broadcast_to_record_ok.
Qed.

Lemma document_default_holds : doc_holds document_default {| as_controller := None; as_pairings := ∅ |}.
Proof.
  split; [repeat split; constructor|]. split; [constructor|]. split; [constructor|].
  exists []. repeat split; constructor.
Qed.

(** Changing only the accessories, or only the controller, of a document. *)
Lemma doc_holds_accessories doc s accessories ps :
  doc_holds doc s -> Forall record_ok accessories ->
  Forall2 (fun r a => accessory_from_record r = Ok a) accessories ps -> NoDup (sa_id <$> ps) ->
  doc_holds {| version := Some 2%Z; doc_controller := doc_controller doc; doc_accessories := accessories |}
    {| as_controller := as_controller s; as_pairings := by_id ps |}.
Proof.
  intros ((_ & Hc & _) & _ & Hk & _) Hok Hps Hn. split; [by repeat split|].
  split; [by apply (bool_decide_unpack _)|]. split; [done|]. by exists ps.
Qed.

(** ** What each mutation does to the document *)

Definition body_spec `{DocumentCodec} (o : StoreOp) (s : AStore) (m : prog ()) : Prop :=
  exists s', store_spec o s ValUnit s' /\
    ((exists doc', m = write_doc doc' /\
        doc_holds {| version := Some 2%Z; doc_controller := doc_controller doc';
                     doc_accessories := doc_accessories doc' |} s') \/
     (m = mret () /\ s' = s)).

Definition op_body `{DocumentCodec} (o : StoreOp) : option (Document -> prog ()) :=
  match o with
  | OpSaveController k => Some (fun doc =>
      write_doc {| version := version doc; doc_controller := Some (controller_to_record k);
                   doc_accessories := doc_accessories doc |})
  | OpSavePairing a => Some (fun doc =>
      let record := accessory_to_record a in
      write_doc {| version := version doc; doc_controller := doc_controller doc;
                   doc_accessories :=
                     match update_first (fun r => bool_decide (ar_id r = ar_id record)) (fun _ => record)
                             (doc_accessories doc) with
                     | Some accessories => accessories
                     | None => doc_accessories doc ++ [record]
                     end |})
  | OpDeletePairing id => Some (fun doc =>
      write_doc {| version := version doc; doc_controller := doc_controller doc;
                   doc_accessories := filter (fun r => ar_id r <> id) (doc_accessories doc) |})
  | OpSaveBroadcast id b => Some (fun doc =>
      match List.find (fun r => bool_decide (ar_id r = id)) (doc_accessories doc) ≫= with_broadcast b with
      | Some rec =>
          write_doc {| version := version doc; doc_controller := doc_controller doc;
                       doc_accessories := default (doc_accessories doc)
                         (update_first (fun r => bool_decide (ar_id r = id)) (fun _ => rec) (doc_accessories doc)) |}
      | None => mret ()
      end)
  | OpLoadController | OpLoadPairings => None
  end.

Lemma op_prog_body `{DocumentCodec} o body :
  op_body o = Some body -> op_prog o = (_ ← with_lock (read_doc ≫= body); mret ValUnit).
Proof. by destruct o; intros [= <-]. Qed.

Lemma save_pairing_body `{DocumentCodec} a doc s body :
  op_body (OpSavePairing a) = Some body -> stored_ok a -> doc_holds doc s ->
  body_spec (OpSavePairing a) s (body doc).
Proof.
  intros [= <-] Ha Hd. eexists. split; [by apply spec_mutate|]. left. eexists. split; [done|].
  cbn [doc_controller doc_accessories]. pose proof Hd as ((_ & _ & Hok) & _ & _ & ps & Hps & Hn & Hm).
  pose proof (accessory_record_roundtrip a (proj1 Ha)) as Hr.
  match goal with |- context [update_first ?p ?f ?l] => pose proof (update_first_split p f l) as Hu end.
  unfold with_pairings. rewrite <- Hm.
  destruct (update_first _ _ _) as [rs|].
  - destruct Hu as (rs1 & r & rs2 & Hrs & -> & Hp & _). apply bool_decide_eq_true in Hp. rewrite Hrs in Hps, Hok.
    apply Forall2_app_inv_l in Hps as (ps1 & ps' & Hps1 & Hps2 & ->).
    apply Forall2_cons_inv_l in Hps2 as (a0 & ps2 & Hr0 & Hps2 & ->).
    assert (sa_id a0 = sa_id a) as Hid by (rewrite (accessory_from_record_id _ _ Hr0), Hp; done).
    rewrite <- (by_id_update ps1 a0) by done. apply (doc_holds_accessories doc); [done| | |].
    + apply Forall_app in Hok as [Hok1 Hok2]. apply Forall_cons in Hok2 as [_ Hok2].
      apply Forall_app. split; [done|]. constructor; [by apply accessory_to_record_ok|done].
    + by apply Forall2_app; [|constructor].
    + by eapply NoDup_middle_elim.
  - destruct Hu as [Hnone _].
    assert (sa_id a ∉ sa_id <$> ps) as Hnew.
    { intros (a0 & Hid & Hin)%list_elem_of_fmap.
      apply list_elem_of_lookup in Hin as [j Hj]. destruct (Forall2_lookup_r _ _ _ _ _ Hps Hj) as (r & Hr0 & Hfr).
      eapply Forall_lookup in Hnone; [|exact Hr0]. apply bool_decide_eq_false in Hnone. destruct Hnone.
      rewrite <- (accessory_from_record_id _ _ Hfr), <- Hid. done. }
    assert (NoDup (sa_id <$> ps ++ [a])) as Hn'.
    { rewrite fmap_app. apply NoDup_app. split; [done|]. split; [|by apply NoDup_singleton].
      intros x Hx ->%list_elem_of_singleton. done. }
    assert (<[sa_id a := a]> (by_id ps) = by_id (ps ++ [a])) as ->.
    { rewrite by_id_middle by done. by rewrite app_nil_r. }
    apply (doc_holds_accessories doc); [done| | |done].
    + apply Forall_app. split; [done|]. constructor; [by apply accessory_to_record_ok|constructor].
    + apply Forall2_app; [done|]. by repeat constructor.
Qed.

Lemma delete_pairing_body `{DocumentCodec} id doc s body :
  op_body (OpDeletePairing id) = Some body -> doc_holds doc s -> body_spec (OpDeletePairing id) s (body doc).
Proof.
  intros [= <-] Hd. eexists. split; [by apply spec_mutate|]. left. eexists. split; [done|].
  cbn [doc_controller doc_accessories]. pose proof Hd as ((_ & _ & Hok) & _ & _ & ps & Hps & Hn & Hm).
  unfold with_pairings. rewrite <- Hm, <- by_id_filter by done. apply (doc_holds_accessories doc); [done| | |].
  - apply Forall_forall. intros r [_ Hr]%list_elem_of_filter. by eapply Forall_forall in Hok.
  - apply Forall2_filter; [|done]. intros r a Hr. by rewrite (accessory_from_record_id _ _ Hr).
  - eapply sublist_NoDup; [exact Hn|]. apply fmap_sublist, sublist_filter.
Qed.

Lemma save_controller_body `{DocumentCodec} k doc s body :
  op_body (OpSaveController k) = Some body -> op_wf (OpSaveController k) -> doc_holds doc s ->
  body_spec (OpSaveController k) s (body doc).
Proof.
  intros [= <-] [Hi Hk] ((_ & _ & Hok) & _ & _ & Hps). eexists. split; [by apply spec_mutate|]. left. eexists.
  split; [done|]. split.
  - split; [done|]. split; [split; [done|apply encode_hex_ok]|done].
  - split; [by apply (bool_decide_unpack _)|]. split; [|done]. constructor. by apply controller_record_roundtrip.
Qed.

Lemma save_broadcast_body `{DocumentCodec} id b doc s body :
  op_body (OpSaveBroadcast id b) = Some body -> stored_broadcast_ok b -> doc_holds doc s ->
  body_spec (OpSaveBroadcast id b) s (body doc).
Proof.
  intros [= <-] Hb Hd. pose proof Hd as ((_ & _ & Hok) & _ & _ & ps & Hps & Hn & Hm).
  eexists. split; [by apply spec_mutate|]. unfold with_pairings. cbn beta.
  set (p := fun r => bool_decide (ar_id r = id)).
  destruct (List.find p (doc_accessories doc)) as [r|] eqn:Hf; cbn [mbind option_bind].
  - pose proof (update_first_split p (fun _ => default r (with_broadcast b r)) (doc_accessories doc)) as Hu.
    remember (default r (with_broadcast b r)) as rnew eqn:Hrn.
    destruct (update_first p (fun _ => rnew) (doc_accessories doc)) as [rs|] eqn:Hrs';
      [|by destruct Hu as [_ Hu]; rewrite Hf in Hu].
    destruct Hu as (rs1 & r' & rs2 & Hrs & -> & Hp & Hf'). rewrite Hf in Hf'. injection Hf' as <-.
    apply bool_decide_eq_true in Hp. rewrite Hrs in Hps, Hok.
    apply Forall2_app_inv_l in Hps as (ps1 & ps' & Hps1 & Hps2 & ->).
    apply Forall2_cons_inv_l in Hps2 as (a & ps2 & Hr & Hps2 & ->).
    assert (sa_id a = id) as Hid by (by rewrite (accessory_from_record_id _ _ Hr)).
    assert (as_pairings s !! id = Some a) as Hs.
    { rewrite <- Hm. apply by_id_lookup; [done|]. split; [|done]. apply elem_of_app. right. by left. }
    destruct (sa_transport a) as [addr|dev old] eqn:Ht.
    + rewrite (with_broadcast_ip b _ _ _ Hr Ht). right. split; [done|].
      rewrite (alter_id _ _ _) by (intros a' Ha'; rewrite Hs in Ha'; injection Ha' as <-;
        unfold set_broadcast; by rewrite Ht). by destruct s.
    + destruct (with_broadcast_from _ _ _ _ b Hr Ht (proj1 Hb)) as (r' & Hr' & Hid' & Hfr).
      rewrite Hr' in Hrn. cbn in Hrn. subst rnew. rewrite Hr'. left. eexists. split; [done|].
      cbn [doc_controller doc_accessories]. rewrite Hrs'. cbn [default from_option Datatypes.id].
      set (a' := {| sa_pairing := sa_pairing a; sa_transport := StoredBle dev (Some b) |}) in *.
      assert (alter (set_broadcast b) id (as_pairings s) = by_id (ps1 ++ a' :: ps2)) as ->.
      { rewrite (by_id_update ps1 a a') by done. rewrite Hm. change (sa_id a') with (sa_id a). rewrite Hid.
        apply map_eq. intros j. destruct (decide (j = id)) as [->|Hj].
        - rewrite lookup_alter_eq, lookup_insert_eq, Hs. cbn. unfold set_broadcast. by rewrite Ht.
        - by rewrite lookup_alter_ne, lookup_insert_ne by done. }
      apply (doc_holds_accessories doc); [done| | |eapply NoDup_middle_elim; [|exact Hn]; done].
      * apply Forall_app in Hok as [Hok1 Hok2]. apply Forall_cons in Hok2 as [Hokr Hok2].
        apply Forall_app. split; [done|]. constructor; [|done].
        unfold with_broadcast in Hr'. destruct Hokr as (? & ? & Htr & ?).
        destruct (ar_transport r) as [[addr|dv ob]|]; simplify_eq/=.
        repeat split; try done; [by destruct Htr|apply encode_hex_ok|..]; by destruct Hb as [_ []].
      * by apply Forall2_app; [|constructor].
  - right. split; [done|]. rewrite (alter_id _ _ _); [by destruct s|]. intros a Ha. exfalso.
    rewrite <- Hm in Ha. apply by_id_lookup in Ha as [Hin Hid]; [|done].
    apply list_elem_of_lookup in Hin as [j Hj]. destruct (Forall2_lookup_r _ _ _ _ _ Hps Hj) as (r & Hr0 & Hfr).
    assert (p r = false) as Hne by (apply (List.find_none p _ Hf r), list_elem_of_In, list_elem_of_lookup; by exists j).
    apply bool_decide_eq_false in Hne. apply Hne. by rewrite <- (accessory_from_record_id _ _ Hfr).
Qed.

Lemma op_body_spec `{DocumentCodec} o body doc s :
  op_body o = Some body -> op_wf o -> doc_holds doc s -> body_spec o s (body doc).
Proof.
  destruct o; intros Hb Ho Hd; try done.
  - by eapply save_controller_body.
  - by eapply save_pairing_body.
  - by eapply delete_pairing_body.
  - by eapply save_broadcast_body.
Qed.

(** ** The simulation *)

Section simulation.
Context `{DocumentCodecLaws}.

(** The rest of a mutation from each of its calls on. *)
Definition rest_rename : prog () := _ ← io RenameCall; mret ().
Definition rest_sync : prog () := _ ← io SyncCall; rest_rename.
Definition rest_write (data : bytes) : prog () := _ ← io (WriteCall data); rest_sync.
Definition rest_create (data : bytes) : prog () := _ ← io CreateCall; rest_write data.
Definition locked (m : prog ()) : prog StoreVal := _ ← unlocking m; mret ValUnit.

(** What the new contents will mean to the store. *)
Definition becomes (o : StoreOp) (s : AStore) (data : bytes) : Prop :=
  exists s', store_spec o s ValUnit s' /\ file_holds (Some data) s'.

(** Where a task can be, given the disk, the store and whether it holds the lock; the
    last argument is the abstract operation's value, if it has taken effect. *)
Inductive task_at (d : Disk) (s : AStore) : bool -> prog StoreVal -> StoreOp -> option StoreVal -> Prop :=
| at_start o : op_wf o -> task_at d s false (op_prog o) o None
| at_read o body : op_body o = Some body -> op_wf o -> task_at d s true (locked (read_doc ≫= body)) o None
| at_create o data : becomes o s data -> task_at d s true (locked (rest_create data)) o None
| at_write o data :
    becomes o s data -> dk_tmp d = Some [] -> task_at d s true (locked (rest_write data)) o None
| at_sync o data : becomes o s data -> dk_tmp d = Some data -> task_at d s true (locked rest_sync) o None
| at_rename o data :
    becomes o s data -> dk_tmp d = Some data -> dk_synced d = true -> task_at d s true (locked rest_rename) o None
| at_unlock o : task_at d s true (locked (mret ())) o (Some ValUnit)
| at_unlock_failed o e : task_at d s true (locked (Finish (Err e))) o None
| at_done o v : task_at d s false (Finish (Ok v)) o (Some v)
| at_failed o e : task_at d s false (Finish (Err e)) o None.

Lemma task_at_outside d s d' s' p o c : task_at d s false p o c -> task_at d' s' false p o c.
Proof. inversion 1; subst; by constructor. Qed.

Lemma write_doc_create doc s :
  doc_holds {| version := Some 2%Z; doc_controller := doc_controller doc; doc_accessories := doc_accessories doc |} s ->
  exists data, write_doc doc = rest_create data /\ file_holds (Some data) s.
Proof.
  intros Hd. destruct (from_to_slice _ (proj1 Hd)) as (data & Hto & Hfrom).
  exists data. split; [|by eexists]. unfold write_doc. by rewrite Hto.
Qed.

(** Reading the file gives a document that holds the store. *)
Lemma read_doc_step d s ans d' :
  io_step ReadCall d ans d' -> file_holds (dk_file d) s ->
  d' = d /\ ((exists doc, read_answer ans = mret doc /\ doc_holds doc s) \/
             exists e, read_answer ans = Finish (Err e)).
Proof.
  intros Hio (doc & Hf & Hd).
  assert (forall dc, doc_holds dc s ->
    match version dc with None | Some 1%Z | Some 2%Z => mret dc | Some _ => Finish (Err (PairMalformed "unsupported store version")) end
      = (mret dc : prog Document)) as Hv.
  { intros dc (_ & Hv & _). destruct (version dc) as [v|]; [|done].
    rewrite !elem_of_cons in Hv. destruct Hv as [[=]|[[= ->]|[[= ->]|Hv]]]; [done|done|]. by apply not_elem_of_nil in Hv. }
  inversion Hio as [? ? Hfile|? Hfile|? msg| | | | |? ? ? ? Hin]; subst.
  - rewrite Hfile in Hf. split; [done|left]. exists doc. split; [|done]. cbn [read_answer]. rewrite Hf. cbn. by rewrite Hv.
  - rewrite Hfile in Hf. subst doc. split; [done|left]. by eexists.
  - split; [done|right]. by eexists.
  - exfalso. apply Hin. right; right; left.
Qed.

(** One I/O call of a task: at most one effect of its operation, and only under the lock. *)
Definition task_moves (d d' : Disk) (s : AStore) (held : bool) (p' : prog StoreVal) (o : StoreOp)
    (c : option StoreVal) : Prop :=
  exists s' c', task_at d' s' held p' o c' /\ file_holds (dk_file d') s' /\ dk_durable d' = true /\
    ((s' = s /\ c' = c) \/ (c = None /\ exists v, c' = Some v /\ store_spec o s v s')) /\
    (dk_older d' = dk_older d \/ c' <> c /\ dk_older d' = dk_file d :: dk_older d) /\ (held = false -> d' = d /\ s' = s).

Lemma moves_same d d' s held p' o c :
  task_at d' s held p' o c -> file_holds (dk_file d') s -> dk_durable d' = true ->
  dk_older d' = dk_older d -> (held = false -> d' = d) ->
  task_moves d d' s held p' o c.
Proof. intros Ht Hf Hd Ho Hh. exists s, c. do 3 (split; [done|]). split; [by left|]. split; [by left|]. intros ?. by split; [apply Hh|]. Qed.

(** A load takes effect when it reads. *)
Lemma load_moves d s o v :
  dk_durable d = true -> file_holds (dk_file d) s -> store_spec o s v s ->
  task_moves d d s false (Finish (Ok v)) o None.
Proof.
  intros Hdur Hf Hv. exists s, (Some v). split; [constructor|]. do 2 (split; [done|]).
  split; [right; split; [done|]; by exists v|]. split; [by left|done].
Qed.

Lemma load_controller_value doc s :
  doc_holds doc s ->
  (match doc_controller doc with
   | Some r => k ← Finish (controller_from_record r); mret (Some k)
   | None => mret None
   end : prog _) = mret (as_controller s).
Proof. intros (_ & _ & Hk & _). destruct Hk as [r k Hr|]; [|done]. cbn. by rewrite Hr. Qed.

Lemma load_pairings_value doc s :
  doc_holds doc s ->
  exists ps, mapM accessory_from_record (doc_accessories doc) = Ok ps /\
    NoDup (sa_id <$> ps) /\ by_id ps = as_pairings s.
Proof.
  intros (_ & _ & _ & ps & Hps & Hn & Hm). exists ps. split; [|done]. clear Hn Hm.
  induction Hps as [|r a rs ps Hr _ IH]; [done|]. cbn. rewrite Hr. cbn. by rewrite IH.
Qed.

Lemma io_step_not_lock d ans d' : ~ io_step LockCall d ans d' /\ ~ io_step UnlockCall d ans d'.
Proof.
  split; inversion 1 as [| | | | | | |? ? ? ? Hin]; subst; apply Hin; [left|right; left].
Qed.

(** A call on the temporary file either answers and does its work, or fails. *)
Lemma tmp_call c d ans d' :
  io_step c d ans d' -> c ∉ [LockCall; UnlockCall; ReadCall; RenameCall] ->
  dk_file d' = dk_file d /\ dk_durable d' = dk_durable d /\ dk_older d' = dk_older d.
Proof.
  inversion 1; subst; try done; intros Hc; exfalso; apply Hc.
  all: (do 2 right; left) || (do 3 right; left).
Qed.

Lemma start_moves d s o ans d' call k :
  op_wf o -> op_prog o = Do call k -> io_step call d ans d' ->
  dk_durable d = true -> file_holds (dk_file d) s ->
  task_moves d d' s false (k ans) o None.
Proof.
  intros Ho Hp Hio Hdur Hf. destruct o; cbn in Hp; injection Hp as <- <-;
    try by destruct (io_step_not_lock d ans d').
  all: destruct (read_doc_step _ _ _ _ Hio Hf) as [-> [(doc & -> & Hd)|[e ->]]];
    try by apply moves_same; [constructor|..].
  - cbn. pose proof (load_controller_value _ _ Hd) as Hv. cbn in Hv. rewrite Hv.
    apply load_moves; [done|done|constructor].
  - destruct (load_pairings_value _ _ Hd) as (ps & Hps & Hn & Hm). cbn. rewrite Hps.
    apply load_moves; [done|done|by constructor].
Qed.

Lemma locked_moves d s p o c call k ans d' :
  task_at d s true p o c -> p = Do call k -> io_step call d ans d' ->
  dk_durable d = true -> file_holds (dk_file d) s ->
  task_moves d d' s true (k ans) o c.
Proof.
  intros Ht Hp Hio Hdur Hf. remember true as held eqn:Hheld.
  destruct Ht as [|o body Hb Ho|o data Hbec|o data Hbec Htmp|o data Hbec Htmp
    |o data Hbec Htmp Hsync|o|o e| |]; try done; cbn in Hp; injection Hp as <- <-;
    try by destruct (io_step_not_lock d ans d').
  - destruct (read_doc_step _ _ _ _ Hio Hf) as [-> [(doc & -> & Hd)|[e ->]]].
    + destruct (op_body_spec o body doc s Hb Ho Hd) as (s' & Hs' & [(doc' & Hw & Hd')|[Hw ->]]).
      * destruct (write_doc_create doc' s' Hd') as (data & Hc & Hdata).
        change (task_moves d d s true (locked (body doc)) o None). rewrite Hw, Hc.
        apply moves_same; [|done..]. apply at_create. by exists s'.
      * change (task_moves d d s true (locked (body doc)) o None). rewrite Hw.
        exists s, (Some ValUnit). split; [constructor|]. do 2 (split; [done|]).
        split; [right; split; [done|]; by exists ValUnit|]. split; [by left|done].
    + by apply moves_same; [apply at_unlock_failed|..].
  - inversion Hio; subst; (apply moves_same; [|done..]); [|apply at_unlock_failed].
    by apply at_write.
  - inversion Hio; subst; (apply moves_same; [|done..]); [|apply at_unlock_failed].
    apply (at_sync _ _ _ data); [done|]. cbn. by simplify_eq.
  - inversion Hio; subst; (apply moves_same; [|done..]); [|apply at_unlock_failed].
    by apply (at_rename _ _ _ data).
  - inversion Hio as [| | | | | |t ? Ht|]; subst; [|by apply moves_same; [apply at_unlock_failed|..]].
    rewrite Htmp in Ht. injection Ht as <-. destruct Hbec as (s' & Hs' & Hfile).
    exists s', (Some ValUnit). split; [constructor|]. split; [done|]. split; [cbn; by rewrite Hsync, Hdur|].
    split; [right; split; [done|]; by exists ValUnit|]. split; [by right|done].
Qed.

(** What a cancelled task left in flight: a call on the temporary file, or a rename that
    performs its operation. *)
Definition orphans_at (d : Disk) (s : AStore) (lk : option nat) (os : list Call) (det : list StoreOp) : Prop :=
  match os with
  | [] => True
  | [c] =>
      lk = None /\ (c ∉ [LockCall; UnlockCall; ReadCall]) /\
      (c = RenameCall -> exists o data, o ∈ det /\ becomes o s data /\ dk_tmp d = Some data /\ dk_synced d = true)
  | _ => False
  end.

(** The whole state is simulated when every task is where its operation says. *)
Record related (st : FsState) (a : AtomicState) : Prop := {
  rel_file : file_holds (dk_file (fs_disk st)) (at_store a);
  rel_durable : dk_durable (fs_disk st) = true;
  rel_older : Forall (fun f => Exists (file_holds f) (at_past a)) (dk_older (fs_disk st));
  rel_tasks i : option_Forall2
    (fun p oc => task_at (fs_disk st) (at_store a) (bool_decide (fs_lock st = Some i)) p oc.1 oc.2)
    (fs_tasks st !! i) (at_pending a !! i);
  rel_lock i : fs_lock st = Some i -> is_Some (fs_tasks st !! i);
  rel_orphans : orphans_at (fs_disk st) (at_store a) (fs_lock st) (fs_orphans st) (at_detached a)
}.

Lemma related_task st a i p :
  related st a -> fs_tasks st !! i = Some p ->
  exists o c, at_pending a !! i = Some (o, c) /\
    task_at (fs_disk st) (at_store a) (bool_decide (fs_lock st = Some i)) p o c.
Proof.
  intros Hr Hp. pose proof (rel_tasks _ _ Hr i) as Hi. rewrite Hp in Hi.
  inversion Hi as [? [o c] Ht|]; subst. eauto.
Qed.

(** The other tasks when one, or none, holds the lock. *)
Lemma others_related d s d' s' lk lk' (ts : gmap nat (prog StoreVal))
    (pend : gmap nat (StoreOp * option StoreVal)) i oc oc' :
  (forall j, option_Forall2 (fun p oc => task_at d s (bool_decide (lk = Some j)) p oc.1 oc.2) (ts !! j) (pend !! j)) ->
  (forall j, j <> i -> lk' = Some j <-> lk = Some j) ->
  (forall j, j <> i -> lk = Some j -> d' = d /\ s' = s) ->
  option_Forall2 (fun p oc => task_at d' s' (bool_decide (lk' = Some i)) p oc.1 oc.2) oc oc' ->
  forall j, option_Forall2 (fun p oc => task_at d' s' (bool_decide (lk' = Some j)) p oc.1 oc.2)
    (partial_alter (fun _ => oc) i ts !! j) (partial_alter (fun _ => oc') i pend !! j).
Proof.
  intros Hall Hlk Hsame Hi j. destruct (decide (j = i)) as [->|Hj].
  { by rewrite !lookup_partial_alter_eq. }
  rewrite !lookup_partial_alter_ne by done. rewrite (bool_decide_ext _ _ (Hlk j Hj)).
  destruct (Hall j) as [p oc0 Ht|]; constructor. case_bool_decide as Hl.
  - by destruct (Hsame j Hj Hl) as [-> ->].
  - by eapply task_at_outside.
Qed.

Lemma older_weaken (past past' : list AStore) olds :
  past ⊆ past' -> Forall (fun f => Exists (file_holds f) past) olds -> Forall (fun f => Exists (file_holds f) past') olds.
Proof.
  intros Hs Hall. eapply Forall_impl; [exact Hall|]. intros f (s & Hin & Hf)%Exists_exists. apply Exists_exists. exists s. split; [by apply Hs|done].
Qed.

(** A task that holds the lock left no orphan. *)
Lemma held_no_orphans d s i os det : orphans_at d s (Some i) os det -> os = [].
Proof. destruct os as [|c [|? ?]]; [done|by intros []|done]. Qed.

(** Each step of the system is none or more steps of the abstract store. *)
Definition matched (a : AtomicState) (l : option Label) (st' : FsState) : Prop :=
  exists a', trace at_step a (option_list l) a' /\ related st' a'.

Lemma matched_invoke d lk ts os a i o :
  related {| fs_disk := d; fs_lock := lk; fs_tasks := ts; fs_orphans := os |} a -> ts !! i = None -> op_wf o ->
  matched a (Some (Invoke i o)) {| fs_disk := d; fs_lock := lk; fs_tasks := <[i := op_prog o]> ts; fs_orphans := os |}.
Proof.
  intros [Hf Hd Hol Ht Hl Hor] Hi Ho. destruct a as [s past pend det]. cbn in *.
  assert (lk <> Some i) as Hlk by (intros Hlk; apply Hl in Hlk; rewrite Hi in Hlk; by destruct Hlk).
  exists {| at_store := s; at_past := past; at_pending := <[i := (o, None)]> pend; at_detached := det |}. split.
  { eapply trace_visible; [|constructor]. constructor. specialize (Ht i). rewrite Hi in Ht. by inversion Ht. }
  split; cbn; [done..| | |done].
  - eapply others_related; [exact Ht|done|done|]. constructor.
    rewrite bool_decide_false by done. by constructor.
  - intros j Hj%Hl. rewrite lookup_insert_is_Some. destruct (decide (i = j)); [by left|by right].
Qed.

Lemma matched_acquire d ts a i k :
  related {| fs_disk := d; fs_lock := None; fs_tasks := ts; fs_orphans := [] |} a -> ts !! i = Some (Do LockCall k) ->
  matched a None {| fs_disk := d; fs_lock := Some i; fs_tasks := <[i := k (inl [])]> ts; fs_orphans := [] |}.
Proof.
  intros Hr Hi. destruct (related_task _ _ _ _ Hr Hi) as (o & c & Hp & Ht). destruct a as [s past pend det].
  destruct Hr as [Hf Hd Hol Hts Hl _]. cbn in *.
  exists {| at_store := s; at_past := past; at_pending := pend; at_detached := det |}. split; [constructor|].
  split; cbn; [done..| | |done].
  - rewrite <- (insert_id pend i (o, c)) by done. eapply others_related; [exact Hts| |done|].
    { intros j Hj. split; [|done]. by intros [= ->]. }
    constructor. rewrite bool_decide_true by done. cbn.
    remember (Do LockCall k) as p eqn:Hk. destruct Ht; try done.
    destruct (op_body o) as [body|] eqn:Hb; [|by destruct o].
    rewrite (op_prog_body _ _ Hb) in Hk. injection Hk as <-. by apply at_read.
  - intros j [= <-]. rewrite lookup_insert_eq. by eexists.
Qed.

Lemma matched_release d lk ts os a i k :
  related {| fs_disk := d; fs_lock := lk; fs_tasks := ts; fs_orphans := os |} a -> ts !! i = Some (Do UnlockCall k) ->
  matched a None {| fs_disk := d; fs_lock := None; fs_tasks := <[i := k (inl [])]> ts; fs_orphans := os |}.
Proof.
  intros Hr Hi. destruct (related_task _ _ _ _ Hr Hi) as (o & c & Hp & Ht). destruct a as [s past pend det].
  destruct Hr as [Hf Hd Hol Hts Hl Hor]. cbn in *.
  remember (Do UnlockCall k) as p eqn:Hk. remember (bool_decide (lk = Some i)) as held eqn:Hheld.
  assert (lk = Some i /\ task_at d s false (k (inl [])) o c) as [-> Ht'].
  { destruct Ht; try done.
    - by destruct o; cbn in Hk.
    - symmetry in Hheld. apply bool_decide_eq_true in Hheld. cbn in Hk. injection Hk as <-.
      split; [done|constructor].
    - symmetry in Hheld. apply bool_decide_eq_true in Hheld. cbn in Hk. injection Hk as <-.
      split; [done|constructor]. }
  apply held_no_orphans in Hor as ->.
  exists {| at_store := s; at_past := past; at_pending := pend; at_detached := det |}. split; [constructor|].
  split; cbn; [done..| |done|done].
  rewrite <- (insert_id pend i (o, c)) by done. eapply others_related; [exact Hts| |done|].
  { intros j Hj. split; [done|]. by intros [= ->]. }
  by constructor.
Qed.

Lemma task_moves_io d s held p o c call k ans d' :
  task_at d s held p o c -> p = Do call k -> io_step call d ans d' ->
  dk_durable d = true -> file_holds (dk_file d) s ->
  task_moves d d' s held (k ans) o c.
Proof.
  intros Ht Hp Hio Hdur Hf. destruct held; [by eapply locked_moves|].
  inversion Ht; subst; try done. by eapply start_moves.
Qed.

(** Outside the lock nothing is changed. *)
Lemma matched_io d d' lk ts os a i c k ans :
  related {| fs_disk := d; fs_lock := lk; fs_tasks := ts; fs_orphans := os |} a ->
  ts !! i = Some (Do c k) -> io_step c d ans d' ->
  matched a None {| fs_disk := d'; fs_lock := lk; fs_tasks := <[i := k ans]> ts; fs_orphans := os |}.
Proof.
  intros Hr Hi Hio. destruct (related_task _ _ _ _ Hr Hi) as (o & v & Hp & Ht). destruct a as [s past pend det].
  destruct Hr as [Hf Hd Hol Hts Hl Hor]. cbn in *.
  destruct (task_moves_io _ _ _ _ _ _ _ _ _ _ Ht eq_refl Hio Hd Hf) as (s' & v' & Ht' & Hf' & Hd' & Hv & Hold & Hout).
  assert (forall j, j <> i -> lk = Some j -> d' = d /\ s' = s) as Hsame.
  { intros j Hj ->. apply Hout. rewrite bool_decide_false by congruence. done. }
  assert (exists past', past ⊆ past' /\ (v' <> v -> past' = s :: past) /\
    trace at_step {| at_store := s; at_past := past; at_pending := pend; at_detached := det |} []
      {| at_store := s'; at_past := past'; at_pending := <[i := (o, v')]> pend; at_detached := det |}) as (past' & Hsub & Heff & Htr).
  { destruct Hv as [[-> ->]|(-> & w & -> & Hw)].
    - exists past. split; [done|]. split; [done|]. rewrite insert_id by done. constructor.
    - exists (s :: past). split; [by apply list_subseteq_cons|]. split; [done|]. eapply trace_silent; [by apply at_effect|constructor]. }
  eexists. split; [exact Htr|]. split; cbn; [done..| | | |].
  - destruct Hold as [->|[Hne ->]]; [by eapply older_weaken|]. rewrite (Heff Hne). apply Forall_cons.
    split; [by apply Exists_cons_hd|]. eapply older_weaken; [|exact Hol]. by apply list_subseteq_cons.
  - eapply others_related; [exact Hts|done|exact Hsame|]. by constructor.
  - intros j Hj%Hl. rewrite lookup_insert_is_Some. destruct (decide (i = j)); [by left|by right].
  - destruct (decide (lk = Some i)) as [->|Hne]; [by apply held_no_orphans in Hor as ->|].
    rewrite bool_decide_false in Hout by done. by destruct (Hout eq_refl) as [-> ->].
Qed.

(** A task leaves, giving back the lock if it holds it. *)
Lemma related_leave d lk ts os os' s past pend det det' i :
  related {| fs_disk := d; fs_lock := lk; fs_tasks := ts; fs_orphans := os |}
    {| at_store := s; at_past := past; at_pending := pend; at_detached := det |} ->
  orphans_at d s (if bool_decide (lk = Some i) then None else lk) os' det' ->
  related {| fs_disk := d; fs_lock := if bool_decide (lk = Some i) then None else lk; fs_tasks := delete i ts; fs_orphans := os' |}
    {| at_store := s; at_past := past; at_pending := delete i pend; at_detached := det' |}.
Proof.
  intros [Hf Hd Hol Hts Hl _] Hor. cbn in *. split; cbn; [done..| | |done].
  - eapply others_related; [exact Hts| |done|constructor].
    intros j Hj. case_bool_decide as Hi; [|done]. split; [done|]. congruence.
  - intros j. case_bool_decide as Hi; [done|]. intros Hj. rewrite lookup_delete_ne by congruence. by apply Hl.
Qed.

Lemma matched_respond d lk ts os a i r :
  related {| fs_disk := d; fs_lock := lk; fs_tasks := ts; fs_orphans := os |} a -> ts !! i = Some (Finish r) ->
  matched a (Some (Respond i r)) {| fs_disk := d; fs_lock := lk; fs_tasks := delete i ts; fs_orphans := os |}.
Proof.
  intros Hr Hi. destruct (related_task _ _ _ _ Hr Hi) as (o & c & Hp & Ht). destruct a as [s past pend det]. cbn in *.
  pose proof (rel_orphans _ _ Hr) as Hor. cbn in Hor.
  pose proof (fun Ho => related_leave _ _ _ _ os _ _ _ _ det i Hr Ho) as Hr'.
  remember (bool_decide (lk = Some i)) as held. remember (Finish r) as p eqn:Hk.
  destruct Ht; try done; [by destruct o| |].
  all: injection Hk as <-; exists {| at_store := s; at_past := past; at_pending := delete i pend; at_detached := det |};
    split; [|by apply Hr']; eapply trace_visible; [|constructor]; by econstructor.
Qed.

(** What a cancelled task leaves in flight. *)
Lemma orphans_cancel d s lk i os det p o c :
  orphans_at d s lk os det -> task_at d s (bool_decide (lk = Some i)) p o c ->
  orphans_at d s (if bool_decide (lk = Some i) then None else lk) (os ++ in_flight p)
    (match c with None => o :: det | Some _ => det end).
Proof.
  intros Hor Ht. case_bool_decide as Hlk.
  - subst lk. apply held_no_orphans in Hor as ->. cbn [app]. inversion Ht; subst; cbn; try done; try (split; [done|]; split; [set_solver|done]).
    split; [done|]. split; [set_solver|]. intros _. exists o, data. split; [by left|done].
  - assert (in_flight p = []) as ->.
    { inversion Ht; subst; try done. by destruct o. }
    rewrite app_nil_r. destruct os as [|x [|? ?]]; [done| |done]. destruct Hor as (Hl & Hx & Hren). split; [done|]. split; [done|].
    intros Hr. destruct (Hren Hr) as (o' & data & Ho' & ?). exists o', data. split; [|done]. destruct c; [done|by right].
Qed.

Lemma matched_cancel d lk ts os a i p :
  related {| fs_disk := d; fs_lock := lk; fs_tasks := ts; fs_orphans := os |} a -> ts !! i = Some p ->
  matched a (Some (Cancel i)) {| fs_disk := d; fs_lock := if bool_decide (lk = Some i) then None else lk;
    fs_tasks := delete i ts; fs_orphans := os ++ in_flight p |}.
Proof.
  intros Hr Hi. destruct (related_task _ _ _ _ Hr Hi) as (o & c & Hp & Ht). destruct a as [s past pend det]. cbn in *.
  eexists. split; [eapply trace_visible; [by apply (at_cancel _ _ _ det _ o c)|constructor]|].
  eapply related_leave; [exact Hr|]. eapply orphans_cancel; [exact (rel_orphans _ _ Hr)|exact Ht].
Qed.

(** A call left over by a cancelled task ends: the operation takes effect, or nothing does. *)
Lemma matched_orphan d d' lk ts os1 os2 a c ans :
  related {| fs_disk := d; fs_lock := lk; fs_tasks := ts; fs_orphans := os1 ++ c :: os2 |} a -> io_step c d ans d' ->
  matched a None {| fs_disk := d'; fs_lock := lk; fs_tasks := ts; fs_orphans := os1 ++ os2 |}.
Proof.
  intros [Hf Hd Hol Hts Hl Hor] Hio. destruct a as [s past pend det]. cbn in *.
  assert (os1 = [] /\ os2 = []) as [-> ->] by (by destruct os1 as [|? [|? ?]], os2; cbn in Hor).
  cbn in *. destruct Hor as (-> & Hc & Hren).
  assert (forall d2 s2 i, option_Forall2 (fun p oc => task_at d2 s2 (bool_decide (None = Some i)) p oc.1 oc.2) (ts !! i) (pend !! i)) as Hts'.
  { intros d2 s2 i. destruct (Hts i) as [p oc Ht|]; constructor. by eapply task_at_outside. }
  assert (c = RenameCall \/ c <> RenameCall) as [->|Hne] by (destruct c; by (left + right)).
  - destruct (Hren eq_refl) as (o & data & Hin & (s' & Hs' & Hfile) & Htmp & Hsync).
    inversion Hio as [| | | | | |t ? Ht|]; subst.
    + rewrite Htmp in Ht. injection Ht as <-. apply list_elem_of_split in Hin as (det1 & det2 & ->).
      exists {| at_store := s'; at_past := s :: past; at_pending := pend; at_detached := det1 ++ det2 |}. split.
      { eapply trace_silent; [by eapply at_late|constructor]. }
      split; cbn; [done|by rewrite Hsync, Hd| |apply Hts'|done|done].
      apply Forall_cons. split; [by apply Exists_cons_hd|]. eapply older_weaken; [|exact Hol]. by apply list_subseteq_cons.
    + exists {| at_store := s; at_past := past; at_pending := pend; at_detached := det |}. split; [constructor|].
      split; cbn; [done..|apply Hts'|done|done].
  - destruct (tmp_call _ _ _ _ Hio) as (Hf' & Hd' & Ho').
    { clear -Hc Hne. set_solver. }
    exists {| at_store := s; at_past := past; at_pending := pend; at_detached := det |}. split; [constructor|].
    split; cbn; rewrite ?Hf', ?Hd', ?Ho'; [done..|apply Hts'|done|done].
Qed.

Lemma matched_crash d d' lk ts os a :
  related {| fs_disk := d; fs_lock := lk; fs_tasks := ts; fs_orphans := os |} a -> crash d d' ->
  matched a (Some Crash) {| fs_disk := d'; fs_lock := None; fs_tasks := ∅; fs_orphans := [] |}.
Proof.
  intros [Hf Hd Hol _ _ _] (Hc & Hd' & Ho'). destruct a as [s past pend det]. cbn in *.
  assert (exists s', s' ∈ s :: past /\ file_holds (dk_file d') s') as (s' & Hin & Hs').
  { destruct (proj1 (elem_of_cons _ _ _) (Hc Hd)) as [->|Hin]; [exists s; split; [by left|done]|].
    rewrite Forall_forall in Hol. destruct (proj1 (Exists_exists _ _) (Hol _ Hin)) as (s' & Hs & Hfs). exists s'. split; [by right|done]. }
  exists {| at_store := s'; at_past := []; at_pending := ∅; at_detached := [] |}. split.
  { eapply trace_visible; [|constructor]. by constructor. }
  split; cbn; [done|done|by rewrite Ho'| |done|done]. intros i. rewrite !lookup_empty. constructor.
Qed.

Lemma fs_step_matched st l st' a :
  orderly st l st' -> from_option label_wf True l -> related st a -> matched a l st'.
Proof.
  intros [Hs Ho] Hw Hr. destruct Hs; eauto using matched_invoke, matched_release, matched_io,
    matched_respond, matched_cancel, matched_orphan, matched_crash.
  cbn in Ho. rewrite (Ho eq_refl ltac:(done)) in *. by eapply matched_acquire.
Qed.

Lemma trace_app {S} (step : S -> option Label -> S -> Prop) s s' s'' ls ls' :
  trace step s ls s' -> trace step s' ls' s'' -> trace step s (ls ++ ls') s''.
Proof. induction 1; intros; [done|by eapply trace_silent; eauto|eapply trace_visible; eauto]. Qed.

Lemma fs_trace_matched st ls st' :
  trace orderly st ls st' -> Forall label_wf ls -> forall a, related st a ->
  exists a', trace at_step a ls a' /\ related st' a'.
Proof.
  induction 1 as [st|st st1 st2 ls Hs _ IH|st st1 st2 l ls Hs _ IH]; intros Hw a Hr.
  - exists a. split; [constructor|done].
  - destruct (fs_step_matched _ _ _ _ Hs I Hr) as (a1 & Ht & Hr1). destruct (IH Hw _ Hr1) as (a2 & Ht2 & Hr2).
    exists a2. split; [by apply (trace_app _ _ _ _ [] _ Ht)|done].
  - apply Forall_cons in Hw as [Hl Hw]. destruct (fs_step_matched _ _ _ _ Hs Hl Hr) as (a1 & Ht & Hr1).
    destruct (IH Hw _ Hr1) as (a2 & Ht2 & Hr2). exists a2. split; [by apply (trace_app _ _ _ _ [l] _ Ht)|done].
Qed.

(** A store without tasks is simulated by one that went through the older contents. *)
Lemma related_quiet d s past :
  file_holds (dk_file d) s -> dk_durable d = true -> Forall (fun f => Exists (file_holds f) past) (dk_older d) ->
  related {| fs_disk := d; fs_lock := None; fs_tasks := ∅; fs_orphans := [] |}
    {| at_store := s; at_past := past; at_pending := ∅; at_detached := [] |}.
Proof. intros Hf Hd Ho. split; cbn; try done. intros i. rewrite !lookup_empty. constructor. Qed.
End simulation.

(** * Theorems *)

(** The store as a program finds it: no tasks, and a durable file. *)
Definition fs_init (d : Disk) : FsState := {| fs_disk := d; fs_lock := None; fs_tasks := ∅; fs_orphans := [] |}.
Definition at_init (s : AStore) (past : list AStore) : AtomicState :=
  {| at_store := s; at_past := past; at_pending := ∅; at_detached := [] |}.

(** C7: The JSON store is linearizable, and a crash takes it back to one of its states.
    Whatever operations run at the same time and whichever of their calls fail, however tasks
    are cancelled (their last call ends on the blocking pool, before the lock is next taken)
    and the machine crashes, the invocations, responses, cancellations and crashes observed
    are those of a store that performs each operation in one indivisible step between its
    invocation and its response, a cancelled one at most once and perhaps later; a crash
    leaves a state the store has had since the last one - an operation that has returned may
    be lost, but never a part of one; an operation that reports an error had no effect; no
    operation panics; and the file always holds exactly that store. *)
Theorem store_linearizable `{DocumentCodecLaws} d s ls st :
  file_holds (dk_file d) s -> dk_durable d = true -> dk_older d = [] -> Forall label_wf ls ->
  trace orderly (fs_init d) ls st ->
  exists a, trace at_step (at_init s []) ls a /\ file_holds (dk_file (fs_disk st)) (at_store a).
Proof.
  intros Hf Hd Ho Hw Ht. destruct (fs_trace_matched _ _ _ Ht Hw (at_init s [])) as (a & Ha & Hr).
  - apply related_quiet; [done|done|by rewrite Ho].
  - exists a. split; [done|]. exact (rel_file _ _ Hr).
Qed.

(** ** A codec, and a controller saved while pairings are loaded *)

Definition addr_code (a : SocketAddr) : (bytes * Z) + (bytes * Z * Z * Z) :=
  match a with SocketV4 o p => inl (o, p) | SocketV6 o p f s => inr (o, p, f, s) end.
Definition addr_decode (c : (bytes * Z) + (bytes * Z * Z * Z)) : SocketAddr :=
  match c with inl (o, p) => SocketV4 o p | inr (o, p, f, s) => SocketV6 o p f s end.
#[local] Instance socket_addr_eq : EqDecision SocketAddr := ltac:(solve_decision).
#[local] Instance socket_addr_countable : Countable SocketAddr :=
  inj_countable' addr_code addr_decode ltac:(by intros []).
#[local] Instance broadcast_record_eq : EqDecision BroadcastRecord := ltac:(solve_decision).
#[local] Instance broadcast_record_countable : Countable BroadcastRecord :=
  inj_countable' (fun b => (key_hex b, br_gsn b)) (fun c => {| key_hex := c.1; br_gsn := c.2 |}) ltac:(by intros []).
#[local] Instance transport_record_eq : EqDecision TransportRecord := ltac:(solve_decision).
#[local] Instance transport_record_countable : Countable TransportRecord :=
  inj_countable' (fun t => match t with RecIp a => inl a | RecBle d b => inr (d, b) end)
    (fun c => match c with inl a => RecIp a | inr (d, b) => RecBle d b end) ltac:(by intros []).
#[local] Instance accessory_record_eq : EqDecision AccessoryRecord := ltac:(solve_decision).
#[local] Instance accessory_record_countable : Countable AccessoryRecord :=
  inj_countable' (fun r => (ar_id r, ltpk_hex r, ar_transport r, ar_addr r))
    (fun '(i, l, t, a) => {| ar_id := i; ltpk_hex := l; ar_transport := t; ar_addr := a |}) ltac:(by intros []).
#[local] Instance controller_record_eq : EqDecision ControllerRecord := ltac:(solve_decision).
#[local] Instance controller_record_countable : Countable ControllerRecord :=
  inj_countable' (fun r => (cr_id r, signing_key_hex r)) (fun c => {| cr_id := c.1; signing_key_hex := c.2 |})
    ltac:(by intros []).
#[local] Instance document_eq : EqDecision Document := ltac:(solve_decision).
#[local] Instance document_countable : Countable Document :=
  inj_countable' (fun d => (version d, doc_controller d, doc_accessories d))
    (fun '(v, c, a) => {| version := v; doc_controller := c; doc_accessories := a |}) ltac:(by intros []).

Definition demo_codec : DocumentCodec :=
  {| from_slice bs := match decode (bytes_pos bs) with Some d => Ok d | None => Err "syntax" end;
     to_vec_pretty d := Ok (pos_bytes (encode d)) |}.

Lemma demo_codec_laws : DocumentCodecLaws (H := demo_codec).
Proof.
  constructor. intros doc _. eexists. split; [done|]. cbn.
  by rewrite bytes_pos_bytes, decode_encode.
Qed.

Definition demo_keypair : ControllerKeypair := {| kp_id := [x61]; kp_signing := replicate 32 x07 |}.
Definition demo_disk : Disk := {| dk_file := None; dk_durable := true; dk_older := []; dk_tmp := None; dk_synced := false |}.

(** A save is cancelled in its rename, which ends before the next task reads; then the
    machine crashes, and the directory still names the missing file. *)
Definition demo_labels : list Label :=
  [Invoke 0 (OpSaveController demo_keypair); Invoke 1 OpLoadPairings; Respond 1 (Ok (ValPairings [])); Cancel 0;
   Invoke 2 OpLoadController; Respond 2 (Ok (ValController (Some demo_keypair))); Crash].

(** One step of a task that is there. *)
Ltac fs_silent n tac := eapply trace_silent; [split; [eapply (fs_io _ _ _ _ _ n); [reflexivity|tac]|by intros]|].

Lemma demo_trace : exists st, trace (orderly (H := demo_codec)) (fs_init demo_disk) demo_labels st.
Proof.
  eexists. eapply trace_visible; [split; [by apply fs_invoke|by intros]|].
  eapply trace_silent; [split; [apply fs_acquire, lookup_insert_eq|by intros]|].
  eapply trace_visible; [split; [by apply fs_invoke|by intros]|].
  fs_silent 1 ltac:(by apply read_missing).
  fs_silent 0 ltac:(by apply read_missing).
  eapply trace_visible; [split; [eapply (fs_respond _ _ _ _ 1); reflexivity|by intros]|].
  fs_silent 0 ltac:(apply create_done).
  fs_silent 0 ltac:(by eapply write_done).
  fs_silent 0 ltac:(by eapply sync_done).
  eapply trace_visible; [split; [eapply (fs_cancel _ _ _ _ 0); reflexivity|by intros]|].
  eapply trace_visible; [split; [by apply fs_invoke|by intros]|].
  eapply trace_silent; [split; [eapply (fs_orphan [] []); by eapply rename_done|by intros]|].
  fs_silent 2 ltac:(by apply read_found).
  eapply trace_visible; [split; [eapply (fs_respond _ _ _ _ 2)|by intros]|].
  { by vm_compute. }
  eapply trace_visible; [split; [eapply (fs_crash _ _ demo_disk)|by intros]|constructor].
  split; [|done]. intros _. right. by left.
Qed.

Lemma store_linearizable_witness :
  exists st a, trace (at_step) (at_init {| as_controller := None; as_pairings := ∅ |} []) demo_labels a /\
    file_holds (H := demo_codec) (dk_file (fs_disk st)) (at_store a).
Proof.
  destruct demo_trace as [st Ht]. exists st.
  refine (store_linearizable (H := demo_codec) (H0 := demo_codec_laws) demo_disk _ demo_labels st _ _ _ _ Ht).
  - exists document_default. split; [done|apply document_default_holds].
  - done.
  - done.
  - repeat apply List.Forall_cons; try apply List.Forall_nil; try exact I.
    split; [by apply (bool_decide_unpack _)|reflexivity].
Defined.

(** Without [orderly]: the rename of a cancelled save moves the temporary file that the
    next save has just created, and the store's file is empty. *)
Lemma late_rename_corrupts : exists ls st,
  trace (fs_step (H := demo_codec)) (fs_init demo_disk) ls st /\ forall s, ~ file_holds (H := demo_codec) (dk_file (fs_disk st)) s.
Proof.
  exists [Invoke 0 (OpSaveController demo_keypair); Cancel 0; Invoke 1 (OpSaveController demo_keypair)]. eexists. split.
  - eapply trace_visible; [by apply fs_invoke|].
    eapply trace_silent; [apply fs_acquire, lookup_insert_eq|].
    eapply trace_silent; [eapply (fs_io _ _ _ _ _ 0); [reflexivity|by apply read_missing]|].
    eapply trace_silent; [eapply (fs_io _ _ _ _ _ 0); [reflexivity|apply create_done]|].
    eapply trace_silent; [eapply (fs_io _ _ _ _ _ 0); [reflexivity|by eapply write_done]|].
    eapply trace_silent; [eapply (fs_io _ _ _ _ _ 0); [reflexivity|by eapply sync_done]|].
    eapply trace_visible; [eapply (fs_cancel _ _ _ _ 0); reflexivity|].
    eapply trace_visible; [by apply fs_invoke|].
    eapply trace_silent; [eapply (fs_acquire _ _ _ 1); reflexivity|].
    eapply trace_silent; [eapply (fs_io _ _ _ _ _ 1); [reflexivity|by apply read_missing]|].
    eapply trace_silent; [eapply (fs_io _ _ _ _ _ 1); [reflexivity|apply create_done]|].
    eapply trace_silent; [eapply (fs_orphan [] []); by eapply rename_done|constructor].
  - intros s (doc & Hdoc & _). by vm_compute in Hdoc.
Qed.
