(* ===== verification/Pairing.v ===== *)
(** * [hap-pairing/src/{wire,setup,verify,pairings}.rs]: pairing over IP

    The Pair Setup and Pair Verify drivers over the seam [PairingConn], reconnecting to
    a stored accessory, and the management of the accessory's list of pairings. *)

From S2P Require Import Prelude Text Tlv8 Crypto RecordLayer Http Srp PairSetup PairVerify Store.

(** ** [wire.rs]: the traits [PairingConn] and [PairingSession] *)

Definition PAIRING_TLV8 : bytes := str "application/pairing+tlv8".

Class PairingConn (T : Type) := {
  post_tlv8 : bytes -> bytes -> stateful T PairingError bytes
}.

(** [HapConnection::request] and [SecureSession::request]: method, path, content type, body. *)
Class HttpConn (S : Type) := {
  http_request : bytes -> bytes -> bytes -> bytes -> stateful S TransportError HapResponse
}.

(** [post_tlv8] of either: the body of the response, whatever its status. *)
Definition post_over_http {S : Type} `{HttpConn S} (path tlv : bytes) : stateful S PairingError bytes :=
  resp ← with_err PairTransport (http_request (str "POST") path PAIRING_TLV8 tlv);
  mret (body resp).
Definition http_pairing_conn {S : Type} `{HttpConn S} : PairingConn S := {| post_tlv8 := post_over_http |}.

(** ** [setup.rs], [verify.rs] *)

Definition PAIR_SETUP : bytes := str "/pair-setup".
Definition PAIR_VERIFY : bytes := str "/pair-verify".
Definition K_TLV_TYPE_ERROR : byte := x07.

Definition check_tlv_error (body : bytes) : result PairingError () :=
  map ← map_err PairTlv8 (map_parse body);
  match v ← get map K_TLV_TYPE_ERROR; head v with
  | Some code => Err (AccessoryRejected (byteZ code))
  | None => Ok ()
  end.

Section drivers.
Context `{C : Crypto} `{B : BigUintOps} `{PairingConn T}.
Local Abbreviation M := (stateful T PairingError).

(** The [loop] of [run_pair_setup]; the client sends at most three messages. *)
Fixpoint ip_setup_loop (fuel : nat) (client : PairSetupClient) (request : bytes) : M AccessoryPairing :=
  match fuel with
  | O => lift (Fault OutOfFuel)
  | S fuel' =>
      response ← post_tlv8 PAIR_SETUP request;
      _ ← lift (check_tlv_error response);
      let '(step, client) := handle client response in
      step ← lift (map_err PairCrypto step);
      match step with
      | Send next => ip_setup_loop fuel' client next
      | Done pairing => mret pairing
      end
  end.

(** [a] is the SRP private value [PairSetupClient::new] draws. *)
Definition run_pair_setup (a setup_code : bytes) (controller : ControllerKeypair) : M AccessoryPairing :=
  client ← lift (map_err PairCrypto (new_with_private setup_code controller a));
  let '(request, client) := start client in
  ip_setup_loop 4 client request.

Fixpoint ip_verify_loop (fuel : nat) (client : PairVerifyClient) (request : bytes) : M SessionKeys :=
  match fuel with
  | O => lift (Fault OutOfFuel)
  | S fuel' =>
      response ← post_tlv8 PAIR_VERIFY request;
      _ ← lift (check_tlv_error response);
      let '(step, client) := pv_handle client response in
      step ← lift (map_err PairCrypto step);
      match step with
      | PvSend next => ip_verify_loop fuel' client next
      | PvDone keys => mret keys
      end
  end.

Definition drive_pair_verify (client : PairVerifyClient) : M SessionKeys :=
  let '(request, client) := pv_start client in
  ip_verify_loop 3 client request.

(** [secret] is the X25519 secret [PairVerifyClient::new] draws. *)
Definition run_pair_verify (secret : bytes) (pairing : AccessoryPairing) (controller : ControllerKeypair)
    : M SessionKeys :=
  drive_pair_verify (new_with_ephemeral controller pairing secret).
End drivers.

(** What [connect] needs of the network: dialling and mDNS discovery, whose results are
    an id and an address.  A connection [T] is a local object of the network [W]. *)
Class Dialer (W T : Type) := {
  dial : SocketAddr -> stateful W TransportError T;
  discover : stateful W TransportError (list (bytes * SocketAddr))
}.

Section connect.
Context `{C : Crypto} `{B : BigUintOps} {W T : Type} `{!PairingConn (T * W)} `{!Dialer W T}.
Local Abbreviation M := (stateful W PairingError).

(** [connect_over]: the keys and the connection they upgrade. *)
Definition connect_over (secret : bytes) (conn : T) (pairing : AccessoryPairing) (controller : ControllerKeypair)
    : M (SessionKeys * T) :=
  on_local conn (run_pair_verify secret pairing controller).

Definition ip_connect (secret : bytes) (accessory : StoredAccessory) (controller : ControllerKeypair)
    : M (SessionKeys * T) :=
  match sa_transport accessory with
  | StoredBle _ _ => lift (Err WrongTransport)
  | StoredIp addr =>
      first ← attempt (dial addr);
      conn ← (match first with
              | inl c => mret c
              | inr _ =>
                  found ← with_err PairTransport discover;
                  dev ← lift (ok_or (List.find (fun d => bool_decide (d.1 = sa_id accessory)) found)
                                    (UnknownAccessory (sa_id accessory)));
                  with_err PairTransport (dial dev.2)
              end);
      connect_over secret conn (sa_pairing accessory) controller
  end.

(** [pair]: Pair Setup, then Pair Verify over the same connection. *)
Definition ip_pair (a secret : bytes) (conn : T) (setup_code : bytes) (controller : ControllerKeypair)
    : M (AccessoryPairing * (SessionKeys * T)) :=
  pc ← on_local conn (run_pair_setup a setup_code controller);
  let '(pairing, conn) := pc in
  session ← connect_over secret conn pairing controller;
  mret (pairing, session).
End connect.

(** ** [pairings.rs] *)

Definition PAIRINGS : bytes := str "/pairings".
Definition TLV_PERMISSIONS : byte := x0b.
Definition METHOD_ADD : Z := 3.
Definition METHOD_REMOVE_PAIRING : Z := 4.
Definition METHOD_LIST : Z := 5.
Definition PERM_ADMIN : Z := 1.
Definition PERM_USER : Z := 0.

Record PairingInfo := { pi_id : bytes; pi_ltpk : bytes; pi_admin : bool }.

(** The leading checks of a reply: no error item, state M2. *)
Definition check_reply (items : list item) : result PairingError () :=
  match List.find (fun '(ty, _) => bool_decide (ty = ERROR)) items with
  | Some (_, err) =>
      code ← ok_or (head err) (PairMalformed "empty error tlv");
      Err (AccessoryRejected (byteZ code))
  | None =>
      let state := i ← List.find (fun '(ty, _) => bool_decide (ty = STATE)) items; head (snd i) in
      if bool_decide (state = Some (Zbyte STATE_M2)) then Ok ()
      else Err (PairMalformed "expected pairings reply state M2")
  end.

Definition expect_m2_ok (body : bytes) : result PairingError () :=
  items ← map_err PairTlv8 (parse body);
  check_reply items.

(** The triplet being gathered. *)
Record Partial := { pt_id : option bytes; pt_ltpk : option bytes; pt_admin : option bool }.
Definition no_partial : Partial := {| pt_id := None; pt_ltpk := None; pt_admin := None |}.

Definition flush_pairing (out : list PairingInfo) (p : Partial) : result PairingError (list PairingInfo) :=
  match pt_id p, pt_ltpk p, pt_admin p with
  | Some id, Some ltpk, Some admin => Ok (out ++ [{| pi_id := id; pi_ltpk := ltpk; pi_admin := admin |}])
  | None, None, None => Ok out
  | _, _, _ => Err (PairMalformed "incomplete pairing entry")
  end.

(** The body of the loop over the items. *)
Definition list_item (st : list PairingInfo * Partial) (i : item)
    : result PairingError (list PairingInfo * Partial) :=
  let '(out, p) := st in
  let '(ty, value) := i in
  if bool_decide (ty = SEPARATOR) then out ← flush_pairing out p; Ok (out, no_partial)
  else if bool_decide (ty = IDENTIFIER) then
    match from_utf8 value with
    | Some _ => Ok (out, {| pt_id := Some value; pt_ltpk := pt_ltpk p; pt_admin := pt_admin p |})
    | None => Err (PairMalformed "pairing identifier is not utf-8")
    end
  else if bool_decide (ty = PUBLIC_KEY) then
    if length value =? 32 then Ok (out, {| pt_id := pt_id p; pt_ltpk := Some value; pt_admin := pt_admin p |})
    else Err (PairMalformed "pairing public key is not 32 bytes")
  else if bool_decide (ty = TLV_PERMISSIONS) then
    let admin := negb (Z.land (byteZ (default x00 (head value))) PERM_ADMIN =? 0)%Z in
    Ok (out, {| pt_id := pt_id p; pt_ltpk := pt_ltpk p; pt_admin := Some admin |})
  else Ok (out, p).

Fixpoint list_items (st : list PairingInfo * Partial) (items : list item)
    : result PairingError (list PairingInfo * Partial) :=
  match items with
  | [] => Ok st
  | i :: items' => st ← list_item st i; list_items st items'
  end.

Definition parse_list_reply (body : bytes) : result PairingError (list PairingInfo) :=
  items ← map_err PairTlv8 (parse body);
  _ ← check_reply items;
  st ← list_items ([], no_partial) items;
  flush_pairing st.1 st.2.

Section admin.
Context `{PairingConn T}.
Local Abbreviation M := (stateful T PairingError).

Definition encode_add (id ltpk : bytes) (admin : bool) : bytes :=
  let w := push_u8 [] STATE STATE_M1 in
  let w := push_u8 w METHOD METHOD_ADD in
  let w := push w IDENTIFIER id in
  let w := push w PUBLIC_KEY ltpk in
  push_u8 w TLV_PERMISSIONS (if admin then PERM_ADMIN else PERM_USER).

Definition encode_remove (id : bytes) : bytes :=
  let w := push_u8 [] STATE STATE_M1 in
  let w := push_u8 w METHOD METHOD_REMOVE_PAIRING in
  push w IDENTIFIER id.

Definition encode_list : bytes :=
  let w := push_u8 [] STATE STATE_M1 in
  push_u8 w METHOD METHOD_LIST.

Definition pairings_add (id ltpk : bytes) (admin : bool) : M () :=
  reply ← post_tlv8 PAIRINGS (encode_add id ltpk admin);
  lift (expect_m2_ok reply).

Definition pairings_remove (id : bytes) : M () :=
  reply ← post_tlv8 PAIRINGS (encode_remove id);
  lift (expect_m2_ok reply).

Definition pairings_list : M (list PairingInfo) :=
  reply ← post_tlv8 PAIRINGS encode_list;
  lift (parse_list_reply reply).
End admin.

(** ** The accessory's side of [/pairings]

    The HAP specification's table of pairings: additions and removals answer state M2, a
    listing answers one group per pairing, groups split by an empty separator item. *)

Definition Table : Type := gmap bytes (bytes * bool).

Definition info_items (i : PairingInfo) : list item :=
  [(IDENTIFIER, pi_id i); (PUBLIC_KEY, pi_ltpk i); (TLV_PERMISSIONS, [if pi_admin i then x01 else x00])].

Fixpoint groups (l : list PairingInfo) : list item :=
  match l with
  | [] => []
  | [i] => info_items i
  | i :: l' => info_items i ++ (SEPARATOR, []) :: groups l'
  end.

Definition m2_reply (items : list item) : bytes := push_items [] ((STATE, [x02]) :: items).

Definition listing (t : Table) : list PairingInfo :=
  (fun '(id, (k, a)) => {| pi_id := id; pi_ltpk := k; pi_admin := a |}) <$> map_to_list t.

Definition serve_pairings (body : bytes) (t : Table) : bytes * Table :=
  match parse body with
  | Ok [(x06, [x01]); (x00, [x03]); (x01, id); (x03, ltpk); (x0b, [perm])] =>
      (m2_reply [], <[id := (ltpk, bool_decide (perm = x01))]> t)
  | Ok [(x06, [x01]); (x00, [x04]); (x01, id)] => (m2_reply [], delete id t)
  | Ok [(x06, [x01]); (x00, [x05])] => (m2_reply (groups (listing t)), t)
  | _ => (push_items [] [(STATE, [x02]); (ERROR, [x01])], t)
  end.

(** A session whose peer is such an accessory. *)
Class PairingsLink (T : Type) `{PairingConn T} := {
  table : T -> Table;
  post_served body t : exists t', post_tlv8 PAIRINGS body t = (Ok (serve_pairings body (table t)).1, t') /\
                         table t' = (serve_pairings body (table t)).2
}.

Inductive AdminOp := AdminAdd (id ltpk : bytes) (admin : bool) | AdminRemove (id : bytes) | AdminList.

Definition run_admin `{PairingConn T} (op : AdminOp) : stateful T PairingError (option (list PairingInfo)) :=
  match op with
  | AdminAdd id ltpk admin => _ ← pairings_add id ltpk admin; mret None
  | AdminRemove id => _ ← pairings_remove id; mret None
  | AdminList => l ← pairings_list; mret (Some l)
  end.

Fixpoint run_admins `{PairingConn T} (ops : list AdminOp)
    : stateful T PairingError (list (option (list PairingInfo))) :=
  match ops with
  | [] => mret []
  | op :: ops' => r ← run_admin op; rs ← run_admins ops'; mret (r :: rs)
  end.

(** What the operations mean; a listing is complete and free of duplicates. *)
Inductive admin_spec : AdminOp -> Table -> option (list PairingInfo) -> Table -> Prop :=
| spec_add id ltpk admin t : admin_spec (AdminAdd id ltpk admin) t None (<[id := (ltpk, admin)]> t)
| spec_remove id t : admin_spec (AdminRemove id) t None (delete id t)
| spec_list t l :
    NoDup (pi_id <$> l) ->
    (forall id k a, t !! id = Some (k, a) <-> {| pi_id := id; pi_ltpk := k; pi_admin := a |} ∈ l) ->
    admin_spec AdminList t (Some l) t.

Inductive admin_specs : list AdminOp -> Table -> list (option (list PairingInfo)) -> Table -> Prop :=
| specs_nil t : admin_specs [] t [] t
| specs_cons op ops t r t' rs t'' :
    admin_spec op t r t' -> admin_specs ops t' rs t'' -> admin_specs (op :: ops) t (r :: rs) t''.

Definition info_ok (id ltpk : bytes) : Prop := from_utf8 id <> None /\ length ltpk = 32.
Definition table_ok (t : Table) : Prop := map_Forall (fun id e => info_ok id e.1) t.
Definition admin_ok (op : AdminOp) : Prop :=
  match op with AdminAdd id ltpk _ => info_ok id ltpk | _ => True end.

(** * Lemmas *)

(** ** The drivers return *)

Lemma returns_check_tlv_error body : returns (check_tlv_error body).
Proof.
  unfold check_tlv_error. apply returns_bind; [by apply returns_map_err, returns_map_parse|].
  intros m _. by case_match.
Qed.

(** ** Replies *)

Lemma parse_m2_reply items : Forall item_ok items -> parse (m2_reply items) = Ok ((STATE, [x02]) :: items).
Proof. intros H. apply parse_push_items. constructor; [by apply item_ok_ty|done]. Qed.

Lemma info_items_ok i : Forall item_ok (info_items i).
Proof. items_ok. Qed.

Lemma groups_ok l : Forall item_ok (groups l).
Proof.
  induction l as [|i l IH]; [constructor|]. destruct l as [|j l]; [apply info_items_ok|].
  cbn [groups]. apply Forall_app. split; [apply info_items_ok|]. constructor; [by apply item_ok_short; simpl; lia|done].
Qed.

Lemma check_reply_m2 items : (forall v, (ERROR, v) ∉ items) -> check_reply ((STATE, [x02]) :: items) = Ok ().
Proof.
  intros Hn. unfold check_reply. cbn [List.find]. change (bool_decide (STATE = ERROR)) with false. cbv iota.
  destruct (List.find _ items) as [[ty v]|] eqn:Hf.
  - exfalso. apply List.find_some in Hf as [Hin Hty]. apply bool_decide_eq_true in Hty. subst ty.
    by apply (Hn v), list_elem_of_In.
  - by change (bool_decide (STATE = STATE)) with true.
Qed.

Lemma groups_no_error l v : (ERROR, v) ∉ groups l.
Proof.
  induction l as [|i l IH]; [apply not_elem_of_nil|].
  assert ((ERROR, v) ∉ info_items i) as Hi by (unfold info_items; rewrite !not_elem_of_cons; repeat split; try done; apply not_elem_of_nil).
  destruct l as [|j l]; [done|]. cbn [groups]. rewrite not_elem_of_app, not_elem_of_cons. by repeat split.
Qed.

Lemma list_items_app st items1 items2 :
  list_items st (items1 ++ items2) = (st' ← list_items st items1; list_items st' items2).
Proof.
  revert st. induction items1 as [|i items1 IH]; intros st; [done|]. cbn [app list_items].
  destruct (list_item st i); cbn; [apply IH|done|done].
Qed.

Definition partial_of (i : PairingInfo) : Partial :=
  {| pt_id := Some (pi_id i); pt_ltpk := Some (pi_ltpk i); pt_admin := Some (pi_admin i) |}.

Lemma list_items_info out i :
  info_ok (pi_id i) (pi_ltpk i) -> list_items (out, no_partial) (info_items i) = Ok (out, partial_of i).
Proof.
  intros [Hu Hl]. unfold info_items. cbn [list_items].
  change (list_item (out, no_partial) (IDENTIFIER, pi_id i)) with
    (match from_utf8 (pi_id i) with
     | Some _ => Ok (E := PairingError) (out, {| pt_id := Some (pi_id i); pt_ltpk := None; pt_admin := None |})
     | None => Err (PairMalformed "pairing identifier is not utf-8")
     end).
  destruct (from_utf8 (pi_id i)); [|done]. cbn [mbind result_bind].
  change (list_item ?st (PUBLIC_KEY, ?v)) with
    (if length v =? 32 then Ok (E := PairingError)
       (out, {| pt_id := Some (pi_id i); pt_ltpk := Some (pi_ltpk i); pt_admin := None |})
     else Err (PairMalformed "pairing public key is not 32 bytes")).
  rewrite Hl. cbn. unfold partial_of. by destruct (pi_admin i).
Qed.

Lemma list_items_groups out l :
  Forall (fun i => info_ok (pi_id i) (pi_ltpk i)) l ->
  exists out' p, list_items (out, no_partial) (groups l) = Ok (out', p) /\ flush_pairing out' p = Ok (out ++ l).
Proof.
  intros Hl. revert out. induction Hl as [|i l Hi Hl IH]; intros out.
  { eexists _, _. split; [done|]. by rewrite app_nil_r. }
  destruct l as [|j l].
  { eexists _, _. split; [by apply list_items_info|]. by destruct i. }
  cbn [groups]. rewrite list_items_app, list_items_info by done. cbn [mbind result_bind list_items list_item].
  change (bool_decide (SEPARATOR = SEPARATOR)) with true. cbv iota. destruct i as [id k a].
  cbn [flush_pairing partial_of pt_id pt_ltpk pt_admin pi_id pi_ltpk pi_admin mbind result_bind].
  destruct (IH (out ++ [{| pi_id := id; pi_ltpk := k; pi_admin := a |}])) as (out' & p & Hg & Hf).
  exists out', p. split; [exact Hg|]. by rewrite Hf, <- app_assoc.
Qed.

Lemma parse_list_reply_groups l :
  Forall (fun i => info_ok (pi_id i) (pi_ltpk i)) l -> parse_list_reply (m2_reply (groups l)) = Ok l.
Proof.
  intros Hl. unfold parse_list_reply. rewrite parse_m2_reply by apply groups_ok. cbn [map_err mbind result_bind].
  rewrite check_reply_m2 by (intros v; apply groups_no_error). cbn [mbind result_bind].
  change (list_items ([], no_partial) ((STATE, [x02]) :: groups l)) with (list_items ([], no_partial) (groups l)).
  destruct (list_items_groups [] l Hl) as (out & p & -> & Hf). exact Hf.
Qed.

Lemma expect_m2_reply : expect_m2_ok (m2_reply []) = Ok ().
Proof. by vm_compute. Qed.

(** ** Requests *)

Lemma admin_requests id ltpk (admin : bool) :
  parse (encode_add id ltpk admin) =
    Ok [(STATE, [x01]); (METHOD, [x03]); (IDENTIFIER, id); (PUBLIC_KEY, ltpk); (TLV_PERMISSIONS, [if admin then x01 else x00])] /\
  parse (encode_remove id) = Ok [(STATE, [x01]); (METHOD, [x04]); (IDENTIFIER, id)] /\
  parse encode_list = Ok [(STATE, [x01]); (METHOD, [x05])].
Proof.
  split; [|split; [|by vm_compute]].
  - assert (encode_add id ltpk admin = push_items [] [(STATE, [x01]); (METHOD, [x03]); (IDENTIFIER, id);
      (PUBLIC_KEY, ltpk); (TLV_PERMISSIONS, [if admin then x01 else x00])]) as -> by by destruct admin.
    apply parse_push_items. items_ok.
  - change (encode_remove id) with (push_items [] [(STATE, [x01]); (METHOD, [x04]); (IDENTIFIER, id)]).
    apply parse_push_items. items_ok.
Qed.

Lemma serve_requests id ltpk (admin : bool) t :
  serve_pairings (encode_add id ltpk admin) t = (m2_reply [], <[id := (ltpk, admin)]> t) /\
  serve_pairings (encode_remove id) t = (m2_reply [], delete id t) /\
  serve_pairings encode_list t = (m2_reply (groups (listing t)), t).
Proof.
  destruct (admin_requests id ltpk admin) as (Ha & Hr & Hl). unfold serve_pairings. rewrite Ha, Hr, Hl.
  by destruct admin.
Qed.

Lemma listing_elem t id k a : {| pi_id := id; pi_ltpk := k; pi_admin := a |} ∈ listing t <-> t !! id = Some (k, a).
Proof.
  unfold listing. rewrite list_elem_of_fmap. split.
  - intros ([i [k' a']] & [= -> -> ->] & Hin). by apply elem_of_map_to_list.
  - intros Ht. exists (id, (k, a)). split; [done|]. by apply elem_of_map_to_list.
Qed.

Lemma listing_spec t : table_ok t -> admin_spec AdminList t (Some (listing t)) t /\
  Forall (fun i => info_ok (pi_id i) (pi_ltpk i)) (listing t).
Proof.
  intros Ht. split.
  - constructor; [|intros; symmetry; apply listing_elem].
    unfold listing. rewrite <- list_fmap_compose.
    rewrite (list_fmap_ext (pi_id ∘ _) fst (map_to_list t)) by (by intros ? [? []] ?).
    apply NoDup_fst_map_to_list.
  - apply Forall_forall. intros [id k a] Hin%listing_elem. by apply (Ht id (k, a)).
Qed.

Lemma table_ok_step op t r t' : admin_ok op -> table_ok t -> admin_spec op t r t' -> table_ok t'.
Proof.
  intros Ho Ht. inversion 1; subst; [|by apply map_Forall_delete|done]. by apply map_Forall_insert_2.
Qed.

Section admin_lemmas.
Context `{PairingsLink T}.

Lemma run_admin_ok op t :
  admin_ok op -> table_ok (table t) ->
  exists r t', run_admin op t = (Ok r, t') /\ admin_spec op (table t) r (table t').
Proof.
  intros Ho Ht. destruct op as [id k a|id|]; unfold run_admin, pairings_add, pairings_remove, pairings_list.
  - destruct (post_served (encode_add id k a) t) as (t' & Hp & Htab).
    rewrite (proj1 (serve_requests id k a _)) in *. exists None, t'. run. rewrite Hp. cbn [fst snd] in *.
    rewrite expect_m2_reply, Htab. split; [done|apply spec_add].
  - destruct (post_served (encode_remove id) t) as (t' & Hp & Htab).
    rewrite (proj1 (proj2 (serve_requests id [] false _))) in *. exists None, t'. run. rewrite Hp. cbn [fst snd] in *.
    rewrite expect_m2_reply, Htab. split; [done|apply spec_remove].
  - destruct (post_served encode_list t) as (t' & Hp & Htab).
    rewrite (proj2 (proj2 (serve_requests [] [] false _))) in *. destruct (listing_spec _ Ht) as [Hs Hl].
    exists (Some (listing (table t))), t'. run. rewrite Hp. cbn [fst snd] in *.
    rewrite parse_list_reply_groups, Htab by done. done.
Qed.

Lemma run_admins_ok ops t :
  Forall admin_ok ops -> table_ok (table t) ->
  exists rs t', run_admins ops t = (Ok rs, t') /\ admin_specs ops (table t) rs (table t').
Proof.
  intros Ho. revert t. induction Ho as [|op ops Hop Ho IH]; intros t Ht.
  { exists [], t. split; [done|constructor]. }
  destruct (run_admin_ok op t Hop Ht) as (r & t1 & Hr & Hs). pose proof (table_ok_step _ _ _ _ Hop Ht Hs) as Ht1.
  destruct (IH t1 Ht1) as (rs & t2 & Hrs & Hss). exists (r :: rs), t2. split; [|by econstructor].
  cbn [run_admins]. run. rewrite Hr. cbn. by rewrite Hrs.
Qed.
End admin_lemmas.

(** * Theorems *)

(** C27: Managing pairings.  Against an accessory that keeps the table of pairings, any
    sequence of additions, removals and listings succeeds and does to the table what it
    says; a listing is the whole table, each pairing once, with its key and permission. *)
Theorem pairings_admin_refines `{PairingsLink T} ops t :
  Forall admin_ok ops -> table_ok (table t) ->
  exists rs t', run_admins ops t = (Ok rs, t') /\ admin_specs ops (table t) rs (table t').
Proof. apply run_admins_ok. Qed.

(** The accessory itself as the session. *)
#[local] Instance table_conn : PairingConn Table :=
  {| post_tlv8 path body t := let '(r, t') := serve_pairings body t in (Ok r, t') |}.

#[local] Instance table_link : PairingsLink Table.
Proof.
  refine {| table := fun t => t |}. intros body t. cbn. destruct (serve_pairings body t) as [r t'] eqn:E. by exists t'.
Defined.

Definition demo_key : bytes := replicate 32 x07.
Definition demo_admin_ops : list AdminOp :=
  [AdminAdd (str "a") demo_key true; AdminAdd (str "b") demo_key false; AdminRemove (str "a"); AdminList].

Example demo_admin_run :
  (run_admins demo_admin_ops (∅ : Table)).1 =
    Ok [None; None; None; Some [{| pi_id := str "b"; pi_ltpk := demo_key; pi_admin := false |}]].
Proof. by vm_compute. Qed.

Lemma pairings_admin_refines_witness :
  exists rs t', run_admins demo_admin_ops (∅ : Table) = (Ok rs, t') /\ admin_specs demo_admin_ops ∅ rs t'.
Proof.
  apply (pairings_admin_refines (T := Table) (H := table_conn) (H0 := table_link) demo_admin_ops (∅ : Table)).
  - repeat apply List.Forall_cons; try apply List.Forall_nil; try exact I; split; try done;
      by apply (bool_decide_unpack _).
  - by apply (bool_decide_unpack _).
Defined.
