(* ===== verification/Tcp.v ===== *)
(** * The IP transport over a socket

    [HapConnection] and [SecureSession] (hap-transport connection, session) driving a
    socket, as the [HttpConn] instances the pairing drivers and the controller are written
    against, and an accessory at the other end of the socket: an HTTP server whose bytes
    TCP delivers in pieces of any size.  The theorems show that a request returns what the
    server answered, in the clear and over the session. *)

From S2P Require Import Prelude Text Tlv8 Crypto Stream RecordLayer Http PairVerify Session Pairing.

(** ** The socket *)

(** [write_all] and [flush]; one [read], which is empty at the end of the stream. *)
Class Socket (K : Type) := {
  sock_write : bytes -> stateful K TransportError ();
  sock_read : stateful K TransportError bytes
}.

(** [SecureSession] with its reader task and the two bounded channels between them and the
    application.  [ss_pending] is what the task still has to send before it reads again:
    it is suspended on the first item while that item's channel is full.  The receiver of
    the events may have been dropped ([None]); [ss_clock] and [ss_taken] are the
    application's end of that channel: how often it has been scheduled, and what it took. *)
Record SecureSession := {
  ss_writer : WriterState; ss_read_key : bytes; ss_reader : option reader; ss_pending : list Sent;
  ss_responses : list (result TransportError HapResponse); ss_events : option (list bytes);
  ss_clock : nat; ss_taken : list bytes
}.

(** [mpsc::channel(8)], [mpsc::channel(32)]. *)
Definition RESPONSE_CAPACITY : nat := 8.
Definition EVENT_CAPACITY : nat := 32.

Definition session_new (keys : SessionKeys) : SecureSession :=
  {| ss_writer := {| w_counter := counter_new; write_key := sk_write_key keys |};
     ss_read_key := sk_read_key keys; ss_reader := Some reader_init; ss_pending := []; ss_responses := [];
     ss_events := Some []; ss_clock := 0; ss_taken := [] |}.

Definition set_counter (c : NonceCounter) (s : SecureSession) : SecureSession :=
  {| ss_writer := {| w_counter := c; write_key := write_key (ss_writer s) |}; ss_read_key := ss_read_key s;
     ss_reader := ss_reader s; ss_pending := ss_pending s; ss_responses := ss_responses s; ss_events := ss_events s;
     ss_clock := ss_clock s; ss_taken := ss_taken s |}.
Definition set_task (task : option reader) (pending : list Sent) (s : SecureSession) : SecureSession :=
  {| ss_writer := ss_writer s; ss_read_key := ss_read_key s; ss_reader := task; ss_pending := pending;
     ss_responses := ss_responses s; ss_events := ss_events s; ss_clock := ss_clock s; ss_taken := ss_taken s |}.
Definition set_channels (rs : list (result TransportError HapResponse)) (evs : option (list bytes)) (s : SecureSession)
    : SecureSession :=
  {| ss_writer := ss_writer s; ss_read_key := ss_read_key s; ss_reader := ss_reader s; ss_pending := ss_pending s;
     ss_responses := rs; ss_events := evs; ss_clock := ss_clock s; ss_taken := ss_taken s |}.

(** The channel of a message has room, or nobody is at its other end. *)
Definition has_room (m : Sent) (s : SecureSession) : bool :=
  match m with
  | SentResponse _ => length (ss_responses s) <? RESPONSE_CAPACITY
  | SentEvent _ => match ss_events s with Some evs => length evs <? EVENT_CAPACITY | None => true end
  end.

(** One [send]; a send to a dropped receiver fails at once, and is ignored. *)
Definition push_sent (m : Sent) (s : SecureSession) : SecureSession :=
  match m with
  | SentResponse r => set_channels (ss_responses s ++ [r]) (ss_events s) s
  | SentEvent ev => set_channels (ss_responses s) ((.++ [ev]) <$> ss_events s) s
  end.

(** The task sends what it has, in order, up to the first message whose channel is full. *)
Fixpoint deliver (sent : list Sent) (s : SecureSession) : SecureSession :=
  match sent with
  | [] => set_task (ss_reader s) [] s
  | m :: sent' => if has_room m s then deliver sent' (push_sent m s) else set_task (ss_reader s) sent s
  end.

(** The application is scheduled, and takes up to [n] of the queued events. *)
Definition take_events (n : nat) (s : SecureSession) : SecureSession :=
  let evs := default [] (ss_events s) in
  {| ss_writer := ss_writer s; ss_read_key := ss_read_key s; ss_reader := ss_reader s; ss_pending := ss_pending s;
     ss_responses := ss_responses s; ss_events := drop n <$> ss_events s; ss_clock := S (ss_clock s);
     ss_taken := ss_taken s ++ take n evs |}.

Section transport.
Context `{C : Crypto} `{B : Build} {K : Type} `{!Socket K} (max_reads : nat) (takes : nat -> nat).

(** ** [connection.rs] *)

(** The read loop of [HapConnection::request]. *)
Fixpoint read_response (fuel : nat) (buf : bytes) : stateful K TransportError HapResponse :=
  match fuel with
  | O => lift (Fault OutOfFuel)
  | S fuel' =>
      r ← lift (parse_response buf);
      match r with
      | Complete response _ => mret response
      | Incomplete =>
          chunk ← sock_read;
          if bool_decide (chunk = []) then lift (Err ConnectionClosed) else read_response fuel' (buf ++ chunk)
      end
  end.

Definition plain_request (method path ctype body : bytes) : stateful K TransportError HapResponse :=
  _ ← sock_write (encode_request method path ctype body);
  read_response max_reads [].

(** ** [session.rs] *)

Local Abbreviation M := (stateful (SecureSession * K) TransportError).

Definition on_socket {A} (m : stateful K TransportError A) : M A := fun '(s, k) =>
  let '(r, k) := m k in (r, (s, k)).

(** [encrypt_frame(&key, &mut w.counter, block)]. *)
Definition next_frame (block : bytes) : M bytes := fun '(s, k) =>
  let '(r, c) := encrypt_frame (write_key (ss_writer s)) (w_counter (ss_writer s)) block in (r, (set_counter c s, k)).

(** The block loop of [request]. *)
Fixpoint send_blocks (blocks : list bytes) : M () :=
  match blocks with
  | [] => mret ()
  | block :: blocks' => frame ← next_frame block; _ ← on_socket (sock_write frame); send_blocks blocks'
  end.

(** The reader task reads, decrypts and demultiplexes, and starts to send. *)
Definition reader_wakes (st : reader) : M () := fun '(s, k) =>
  match sock_read k with
  | (Ok chunk, k) =>
      if bool_decide (chunk = []) then (Ok (), (deliver [SentResponse (Err ConnectionClosed)] (set_task None [] s), k))
      else
        match reader_pass (ss_read_key s) true
                {| cipher_buf := cipher_buf st ++ chunk; plain_buf := plain_buf st; counter := counter st |} with
        | Ok (sent, task) => (Ok (), (deliver sent (set_task task [] s), k))
        | Err e => (Err e, (s, k))
        | Fault f => (Fault f, (s, k))
        end
  | (Err e, k) => (Ok (), (deliver [SentResponse (Err e)] (set_task None [] s), k))
  | (Fault f, k) => (Fault f, (s, k))
  end.

(** The reader task is scheduled: it goes on sending, or reads. *)
Definition reader_runs : M () := fun '(s, k) =>
  match ss_pending s, ss_reader s with
  | [], Some st => reader_wakes st (s, k)
  | pending, task => (Ok (), (deliver pending (set_task task [] s), k))
  end.

(** [rx.recv().await]: the application's receiver of the events and the reader task run
    until a response is there, or the task has sent everything and ended. *)
Fixpoint next_response (fuel : nat) : M HapResponse := fun '(s, k) =>
  match ss_responses s with
  | r :: rs => (r, (set_channels rs (ss_events s) s, k))
  | [] =>
      match ss_pending s, ss_reader s, fuel with
      | [], None, _ => (Err NoResponse, (s, k))
      | _, _, O => (Fault OutOfFuel, (s, k))
      | _, _, S fuel' => (_ ← reader_runs; next_response fuel') (take_events (takes (ss_clock s)) s, k)
      end
  end.

Definition session_request (method path ctype body : bytes) : M HapResponse :=
  _ ← send_blocks (chunks MAX_BLOCK (encode_request method path ctype body));
  next_response max_reads.
End transport.

(** A connection: its socket, and its session once a secure request has been made on it. *)
Record TcpConn (K : Type) := { tc_sock : K; tc_session : option SecureSession }.
Arguments tc_sock {K} _.
Arguments tc_session {K} _.

Section instances.
Context `{C : Crypto} `{B : Build} {K W : Type} `{!Socket (K * W)} (max_reads : nat) (takes : nat -> nat).

(** [HapConnection::request]. *)
Definition tcp_plain : HttpConn (TcpConn K * W) := {|
  http_request method path ctype body '(t, w) :=
    let '(r, (k, w)) := plain_request max_reads method path ctype body (tc_sock t, w) in
    (r, ({| tc_sock := k; tc_session := tc_session t |}, w))
|}.

(** [SecureSession::request], on the session [upgrade] makes of the connection. *)
Definition tcp_secure : HttpConn ((SessionKeys * TcpConn K) * W) := {|
  http_request method path ctype body '((keys, t), w) :=
    let session := default (session_new keys) (tc_session t) in
    let '(r, (session, (k, w))) := session_request max_reads takes method path ctype body (session, (tc_sock t, w)) in
    (r, ((keys, {| tc_sock := k; tc_session := Some session |}), w))
|}.
End instances.

(** ** The peer: an HTTP server *)

Record Reply := { rp_status : Z; rp_ctype : bytes; rp_body : bytes }.

(** What a server does with a request in the clear, which may agree session keys, and with
    one over the session, before whose answer it may push events.  The keys are the
    controller's: it reads with the first and writes with the second. *)
Class HttpServer (A : Type) := {
  srv_plain : bytes -> bytes -> bytes -> A -> Reply * option SessionKeys * A;
  srv_secure : bytes -> bytes -> bytes -> A -> list bytes * Reply * A
}.

Definition reply_response (r : Reply) : HapResponse :=
  {| status := rp_status r; content_type := byteZ <$> rp_ctype r; body := rp_body r |}.
Definition reply_message (r : Reply) : message :=
  {| m_prefix := HTTP_PREFIX; m_reason := str "OK"; m_ctype := rp_ctype r; m_body := rp_body r; m_code := rp_status r |}.
Definition event_message (ev : bytes) : message :=
  {| m_prefix := EVENT_PREFIX; m_reason := str "OK"; m_ctype := str "application/hap+json"; m_body := ev; m_code := 200 |}.

(** The stream a server writes for an answer. *)
Definition answer_bytes (evs : list bytes) (r : Reply) : bytes :=
  mjoin (wire_form <$> ((event_message <$> evs) ++ [reply_message r])).

(** Reading a request: its method, path and body, and the bytes after it. *)
Definition parse_request (buf : bytes) : option (bytes * bytes * bytes * bytes) :=
  n ← find_subslice buf CRLF2;
  match split_crlf (take n buf) with
  | [start; _; len] =>
      match split_on x20 start with
      | [method; path; _] =>
          len ← from_str_radix 10 USIZE_MAX (byteZ <$> drop 16 len);
          let rest := drop (n + 4) buf in
          if (Z.of_nat (length rest) <? len)%Z then None
          else Some (method, path, take (Z.to_nat len) rest, drop (Z.to_nat len) rest)
      | _ => None
      end
  | _ => None
  end.

(** The server's end of a connection: bytes received, the part of a request decrypted so
    far, bytes not yet delivered, and the keys with the receive and send counters. *)
Record ServerConn := {
  sc_in : bytes; sc_plain : bytes; sc_out : bytes; sc_keys : option (SessionKeys * (NonceCounter * NonceCounter))
}.
Definition accepted : ServerConn := {| sc_in := []; sc_plain := []; sc_out := []; sc_keys := None |}.

(** The network: the server, and the sizes of the pieces TCP delivers. *)
Record Net (A : Type) := { nt_server : A; nt_cuts : list nat }.
Arguments nt_server {A} _.
Arguments nt_cuts {A} _.

Section server.
Context `{C : Crypto} {A : Type} `{!HttpServer A} (frame_size : nat).

Definition receive_plain (buf : bytes) (conn : ServerConn) (a : A) : ServerConn * A :=
  match parse_request buf with
  | None => ({| sc_in := buf; sc_plain := []; sc_out := sc_out conn; sc_keys := None |}, a)
  | Some (method, path, body, rest) =>
      let '(reply, keys, a) := srv_plain method path body a in
      ({| sc_in := rest; sc_plain := []; sc_out := sc_out conn ++ wire_form (reply_message reply);
          sc_keys := (fun k => (k, (counter_new, counter_new))) <$> keys |}, a)
  end.

(** A frame that does not decrypt, or an answer that cannot be sealed, is dropped. *)
Definition receive_secure (keys : SessionKeys) (rc sc : NonceCounter) (buf : bytes) (conn : ServerConn) (a : A)
    : ServerConn * A :=
  match consume (frame_step (sk_write_key keys)) rc buf with
  | Ok (blocks, rc, rest) =>
      let plain := sc_plain conn ++ mjoin blocks in
      match parse_request plain with
      | None => ({| sc_in := rest; sc_plain := plain; sc_out := sc_out conn; sc_keys := Some (keys, (rc, sc)) |}, a)
      | Some (method, path, body, plain) =>
          let '(evs, reply, a) := srv_secure method path body a in
          match encrypt_blocks (sk_read_key keys) sc (chunks frame_size (answer_bytes evs reply)) with
          | (Ok wire, sc) =>
              ({| sc_in := rest; sc_plain := plain; sc_out := sc_out conn ++ wire; sc_keys := Some (keys, (rc, sc)) |}, a)
          | _ => (conn, a)
          end
      end
  | _ => (conn, a)
  end.

Definition server_receives (bs : bytes) (conn : ServerConn) (a : A) : ServerConn * A :=
  match sc_keys conn with
  | None => receive_plain (sc_in conn ++ bs) conn a
  | Some (keys, (rc, sc)) => receive_secure keys rc sc (sc_in conn ++ bs) conn a
  end.

(** A read of a connection on which nothing is left to deliver times out. *)
Definition server_delivers (conn : ServerConn) (cuts : list nat) : result TransportError bytes * (ServerConn * list nat) :=
  match sc_out conn with
  | [] => (Err (Io 110), (conn, cuts))
  | out =>
      let n := S (default 0 (head cuts)) in
      (Ok (take n out), ({| sc_in := sc_in conn; sc_plain := sc_plain conn; sc_out := drop n out; sc_keys := sc_keys conn |},
                         tail cuts))
  end.

#[export] Instance server_socket : Socket (ServerConn * Net A) := {
  sock_write bs '(conn, net) :=
    let '(conn, a) := server_receives bs conn (nt_server net) in
    (Ok (), (conn, {| nt_server := a; nt_cuts := nt_cuts net |}));
  sock_read '(conn, net) :=
    let '(r, (conn, cuts)) := server_delivers conn (nt_cuts net) in
    (r, (conn, {| nt_server := nt_server net; nt_cuts := cuts |}))
}.
End server.

(** ** The interface between the requests and a connection

    [hl_plain] and [hl_secured] are connections at rest, before and after the session keys
    are agreed; [hl_carries] are the requests and answers of a size they carry. *)
Class HttpLink (W T A : Type) `{!HttpServer A} {P : HttpConn (T * W)} {S : HttpConn ((SessionKeys * T) * W)} := {
  hl_server : W -> A;
  hl_plain : T -> W -> Prop;
  hl_secured : SessionKeys -> T -> W -> Prop;
  hl_carries : bytes -> bytes -> bytes -> bytes -> list bytes -> Reply -> Prop;
  plain_served method path ctype body t w reply keys a :
    hl_plain t w -> srv_plain method path body (hl_server w) = (reply, keys, a) ->
    hl_carries method path ctype body [] reply ->
    exists t' w', http_request method path ctype body (t, w) = (Ok (reply_response reply), (t', w')) /\
      hl_server w' = a /\ match keys with None => hl_plain t' w' | Some k => hl_secured k t' w' end;
  secure_served method path ctype body keys t w evs reply a :
    hl_secured keys t w -> srv_secure method path body (hl_server w) = (evs, reply, a) ->
    hl_carries method path ctype body evs reply ->
    exists t' w', http_request method path ctype body ((keys, t), w) = (Ok (reply_response reply), ((keys, t'), w')) /\
      hl_server w' = a /\ hl_secured keys t' w'
}.

(** What the sockets carry: well-formed messages, whose frames and bytes are within the
    number of reads. *)
Definition word_ok (w : bytes) : Prop := w <> [] /\ Forall (fun b => b <> x20 /\ b <> x0d /\ b <> x0a) w.
Definition request_ok (method path ctype body : bytes) : Prop :=
  word_ok method /\ word_ok path /\ (x0d ∉ ctype) /\ (x0a ∉ ctype) /\
  (Z.of_nat (length (encode_request method path ctype body)) < 2 ^ 62)%Z.
Definition answer_ok (max_reads : nat) (evs : list bytes) (r : Reply) : Prop :=
  well_formed (reply_message r) /\ Forall (fun ev => well_formed (event_message ev)) evs /\
  (20 * Z.of_nat (length (answer_bytes evs r)) < Z.min (Z.of_nat max_reads) (2 ^ 63))%Z.

(** * Lemmas *)

(** ** The request as the server reads it *)

Lemma parse_request_app buf more method path body rest :
  parse_request buf = Some (method, path, body, rest) ->
  parse_request (buf ++ more) = Some (method, path, body, rest ++ more).
Proof.
  unfold parse_request. intros (n & Hn & Hp)%bind_Some. rewrite (find_subslice_app _ _ _ _ Hn).
  pose proof (find_subslice_bound _ _ _ Hn) as Hb. change (length CRLF2) with 4 in Hb. cbn [mbind option_bind].
  rewrite take_app_le by lia.
  destruct (split_crlf _) as [|start [|ct [|len [|? ?]]]]; try done.
  destruct (split_on x20 start) as [|m [|p [|v [|? ?]]]]; try done.
  apply bind_Some in Hp as (l & Hl & Hp). rewrite Hl. cbn [mbind option_bind].
  rewrite drop_app_le by lia. destruct (Z.ltb_spec (Z.of_nat (length (drop (n + 4) buf))) l) as [Hlt|Hge]; [done|].
  simplify_eq. rewrite (proj2 (Z.ltb_ge _ _)) by (rewrite length_app; lia).
  apply from_str_radix_bound in Hl; [|unfold USIZE_MAX; lia..].
  rewrite take_app_le, drop_app_le by lia. done.
Qed.

Lemma word_line_ok method path :
  word_ok method -> word_ok path -> line_ok (method ++ x20 :: path ++ str " HTTP/1.1") /\
  split_on x20 (method ++ x20 :: path ++ str " HTTP/1.1") = [method; path; str "HTTP/1.1"].
Proof.
  intros [Hm Fm] [Hp Fp].
  assert (forall w b, Forall (fun b => b <> x20 /\ b <> x0d /\ b <> x0a) w -> b ∈ [x20; x0d; x0a] -> b ∉ w) as Hno.
  { intros w b Hw Hb Hin. rewrite Forall_forall in Hw. specialize (Hw b Hin). set_solver. }
  split.
  - split; [by destruct method|]. change (str " HTTP/1.1") with (x20 :: str "HTTP/1.1").
    pose proof (Hno method x0d Fm) as N1. pose proof (Hno method x0a Fm) as N2.
    pose proof (Hno path x0d Fp) as N3. pose proof (Hno path x0a Fp) as N4.
    assert ((x0d ∉ str "HTTP/1.1") /\ (x0a ∉ str "HTTP/1.1")) by (split; by apply (bool_decide_unpack _)).
    rewrite !elem_of_app, !elem_of_cons, !elem_of_app, !elem_of_cons. split; set_solver.
  - rewrite split_on_skip by (apply Hno; [done|set_solver]). cbn [split_on]. rewrite bool_decide_true, app_nil_r by done.
    f_equal. change (str " HTTP/1.1") with (x20 :: str "HTTP/1.1").
    rewrite split_on_skip by (apply Hno; [done|set_solver]). cbn [split_on]. by rewrite bool_decide_true, app_nil_r.
Qed.

Lemma parse_request_encode method path ctype body rest :
  request_ok method path ctype body ->
  parse_request (encode_request method path ctype body ++ rest) = Some (method, path, body, rest).
Proof.
  intros (Hm & Hp & Hc1 & Hc2 & Hl). destruct (word_line_ok method path Hm Hp) as [Hline Hsplit].
  set (len := utf8_encode (to_decimal (Z.of_nat (length body)))).
  assert (encode_request method path ctype body ++ rest =
    join_lines (method ++ x20 :: path ++ str " HTTP/1.1") [str "Content-Type: " ++ ctype; str "Content-Length: " ++ len]
      ++ CRLF ++ CRLF ++ body ++ rest) as ->.
  { unfold encode_request, join_lines. change (str " " ++ path ++ ?x) with (x20 :: path ++ x). fold len.
    rewrite <- !app_assoc. f_equal. rewrite <- !app_comm_cons, <- !app_assoc. by rewrite <- ?app_comm_cons, <- ?app_assoc. }
  assert (forall b, b = x0d \/ b = x0a -> b ∉ len) as Hd.
  { intros b Hb. apply no_crlf_decimal; [lia|]. by destruct Hb as [-> | ->]. }
  assert (Forall line_ok [str "Content-Type: " ++ ctype; str "Content-Length: " ++ len]) as Hls.
  { pose proof (Hd x0d (or_introl eq_refl)). pose proof (Hd x0a (or_intror eq_refl)).
    repeat constructor; try done; rewrite elem_of_app; intros [Hin|Hin]; try done;
      revert Hin; by apply (bool_decide_unpack (_ ∉ _)). }
  unfold parse_request. rewrite find_crlfcrlf_lines by done. cbn [mbind option_bind].
  rewrite take_app_length, split_crlf_lines, Hsplit by done.
  destruct (utf8_encode_decimal (Z.of_nat (length body)) ltac:(lia)) as [Hdec _]. fold len in Hdec.
  change (drop 16 (str "Content-Length: " ++ len)) with len. rewrite Hdec.
  assert (Z.of_nat (length body) < 2 ^ 62)%Z as Hb.
  { unfold encode_request in Hl. rewrite !length_app in Hl. lia. }
  rewrite from_str_radix_to_decimal by (unfold USIZE_MAX; lia). cbn [mbind option_bind].
  set (h := join_lines _ _). rewrite drop_app_ge by lia. replace (length h + 4 - length h) with 4 by lia.
  change (drop 4 (CRLF ++ CRLF ++ body ++ rest)) with (body ++ rest).
  rewrite (proj2 (Z.ltb_ge _ _)) by (rewrite length_app; lia).
  by rewrite Nat2Z.id, take_app_length, drop_app_length.
Qed.

(** Less than the whole request is not read as one. *)
Lemma parse_request_prefix method path ctype body pre suf :
  request_ok method path ctype body -> encode_request method path ctype body = pre ++ suf -> suf <> [] ->
  parse_request pre = None.
Proof.
  intros Hr He Hs. destruct (parse_request pre) as [[[[m p] b] rest]|] eqn:Hp; [|done].
  apply (parse_request_app _ suf) in Hp. rewrite <- He in Hp.
  pose proof (parse_request_encode _ _ _ _ [] Hr) as Hf. rewrite app_nil_r in Hf. rewrite Hf in Hp. simplify_eq.
  match goal with H : [] = _ ++ _ |- _ => symmetry in H; apply app_nil in H as [_ ->] end. done.
Qed.

(** ** Responses in pieces *)

Lemma answer_bytes_nil r : answer_bytes [] r = wire_form (reply_message r).
Proof. unfold answer_bytes. cbn. by rewrite app_nil_r. Qed.

Lemma parse_response_pieces `{Build} r pre suf :
  well_formed (reply_message r) -> fits (wire_form (reply_message r)) -> wire_form (reply_message r) = pre ++ suf ->
  parse_response pre = Ok (if bool_decide (suf = []) then Complete (reply_response r) (length pre) else Incomplete).
Proof.
  intros Hw Hf He. pose proof (parse_rendered _ _ _ _ _ [] Hw) as Hp. rewrite app_nil_r in Hp.
  change (rendered _ _ _ _ _) with (wire_form (reply_message r)) in Hp. change (m_prefix (reply_message r)) with HTTP_PREFIX in Hp.
  rewrite He in Hp, Hf. unfold parse_response. case_bool_decide as Hs.
  { subst suf. by rewrite app_nil_r in Hp. }
  destruct (parse_message pre HTTP_PREFIX) as [[resp n|]|e|f] eqn:Ep; [|done|..];
    pose proof (parse_message_stable pre suf HTTP_PREFIX _ Hf Ep ltac:(done)) as Hst; rewrite Hp in Hst; simplify_eq.
  apply parse_message_bounds in Ep; [|fits_tac]. rewrite length_app in Ep. destruct suf; [done|]. simpl in Ep. lia.
Qed.

Section serving.
Context `{C : Crypto} {CL : CryptoLaws C} `{B : Build} {A : Type} `{!HttpServer A}.
Context (frame_size max_reads : nat) (takes : nat -> nat).
#[local] Instance serving_socket : Socket (ServerConn * Net A) := server_socket frame_size.
Implicit Types (conn : ServerConn) (net : Net A).

Definition with_out (out : bytes) (conn : ServerConn) : ServerConn :=
  {| sc_in := sc_in conn; sc_plain := sc_plain conn; sc_out := out; sc_keys := sc_keys conn |}.

(** A read takes a piece off the front of what is to be delivered. *)
Lemma read_piece conn net : sc_out conn <> [] ->
  exists piece rest net', piece <> [] /\ sc_out conn = piece ++ rest /\ nt_server net' = nt_server net /\
    sock_read (conn, net) = (Ok piece, (with_out rest conn, net')).
Proof.
  intros Ho. cbn [sock_read serving_socket server_socket]. unfold server_delivers.
  destruct (sc_out conn) as [|b out] eqn:He; [done|]. set (n := S _).
  exists (take n (b :: out)), (drop n (b :: out)), {| nt_server := nt_server net; nt_cuts := tail (nt_cuts net) |}.
  split; [done|]. split; [by rewrite take_drop|]. done.
Qed.

Lemma read_response_served r fuel buf conn net :
  well_formed (reply_message r) -> fits (wire_form (reply_message r)) ->
  buf ++ sc_out conn = wire_form (reply_message r) -> length (sc_out conn) < fuel ->
  exists net', read_response fuel buf (conn, net) = (Ok (reply_response r), (with_out [] conn, net')) /\
    nt_server net' = nt_server net.
Proof.
  intros Hw Hf. revert buf conn net. induction fuel as [|fuel IH]; intros buf conn net He Hl; [lia|].
  cbn [read_response]. run. rewrite (parse_response_pieces r buf (sc_out conn)) by done. case_bool_decide as Ho.
  { exists net. split; [|done]. unfold with_out. rewrite <- Ho at 1. by destruct conn. }
  destruct (read_piece conn net Ho) as (piece & rest & net1 & Hp & Hsplit & Hn1 & Hr). rewrite Hr.
  rewrite bool_decide_false by done. rewrite Hsplit in He, Hl. rewrite length_app in Hl.
  assert (0 < length piece) by (destruct piece; [done|simpl; lia]).
  destruct (IH (buf ++ piece) (with_out rest conn) net1) as (net2 & Hr2 & Hn2);
    [cbn; by rewrite <- app_assoc|cbn; lia|].
  exists net2. split; [exact Hr2|congruence].
Qed.

(** ** A request in the clear *)

Lemma plain_answered method path ctype body net reply keys a :
  srv_plain method path body (nt_server net) = (reply, keys, a) ->
  request_ok method path ctype body -> answer_ok max_reads [] reply ->
  exists net', plain_request max_reads method path ctype body (accepted, net) =
      (Ok (reply_response reply),
       ({| sc_in := []; sc_plain := []; sc_out := []; sc_keys := (fun k => (k, (counter_new, counter_new))) <$> keys |}, net')) /\
    nt_server net' = a.
Proof.
  intros Hs Hr (Hw & _ & Hl). rewrite answer_bytes_nil in Hl. unfold plain_request. run.
  cbn [sock_write serving_socket server_socket]. unfold server_receives. cbn [sc_keys accepted sc_in app].
  unfold receive_plain. pose proof (parse_request_encode _ _ _ _ [] Hr) as Hp. rewrite app_nil_r in Hp. rewrite Hp, Hs.
  destruct (read_response_served reply max_reads []
    {| sc_in := []; sc_plain := []; sc_out := wire_form (reply_message reply);
       sc_keys := (fun k => (k, (counter_new, counter_new))) <$> keys |} {| nt_server := a; nt_cuts := nt_cuts net |})
    as (net' & Hrr & Hn); [exact Hw|unfold fits; lia|done|cbn [sc_out]; lia|].
  exists net'. by split.
Qed.

(** ** A request over the session *)

(** The application's end of the event channel: the clock, what it took, what is queued. *)
Record Queue := { q_clock : nat; q_taken : list bytes; q_events : list bytes }.
Definition q_all (q : Queue) : list bytes := q_taken q ++ q_events q.
Definition queue_new : Queue := {| q_clock := 0; q_taken := []; q_events := [] |}.

Definition session_with (w : WriterState) (key : bytes) (st : reader) (pending : list Sent)
    (rs : list (result TransportError HapResponse)) (q : Queue) : SecureSession :=
  {| ss_writer := w; ss_read_key := key; ss_reader := Some st; ss_pending := pending; ss_responses := rs;
     ss_events := Some (q_events q); ss_clock := q_clock q; ss_taken := q_taken q |}.

(** The session and the server's end of its connection between requests. *)
Definition session_at (keys : SessionKeys) (rc sc : NonceCounter) (q : Queue) : SecureSession :=
  session_with {| w_counter := rc; write_key := sk_write_key keys |} (sk_read_key keys)
    {| cipher_buf := []; plain_buf := []; counter := sc |} [] [] q.
Definition server_at (keys : SessionKeys) (rc sc : NonceCounter) (plain out : bytes) : ServerConn :=
  {| sc_in := []; sc_plain := plain; sc_out := out; sc_keys := Some (keys, (rc, sc)) |}.

Lemma consume_frame key c block : length block <= MAX_BLOCK ->
  exists frame, encrypt_frame key c block = (Ok frame, advance c) /\
    consume (frame_step key) c frame = Ok ([block], advance c, []).
Proof using CL.
  intros Hl. destruct (encrypt_frame_spec key c block Hl) as (frame & He & Hf). exists frame. split; [done|].
  destruct (encrypt_blocks_consume key c [block]) as (wire & c' & Hw & Hc); [by constructor|].
  cbn [encrypt_blocks] in Hw. rewrite He in Hw. injection Hw as <- <-. rewrite app_nil_r in Hc.
  assert (fits frame) as Hfit.
  { apply frame_of_length in Hf. unfold frame_len, LEN_PREFIX, TAG_LEN, MAX_BLOCK in *. unfold fits. lia. }
  specialize (Hc [] ltac:(by rewrite app_nil_r)). rewrite app_nil_r in Hc. rewrite Hc.
  by rewrite (consume_none _ (advance c) []) by done.
Qed.

Lemma send_blocks_received keys sc evs reply a wire sc' method path ctype body (events : Queue) cuts blocks pre rc (a0 : A) :
  request_ok method path ctype body -> srv_secure method path body a0 = (evs, reply, a) ->
  encrypt_blocks (sk_read_key keys) sc (chunks frame_size (answer_bytes evs reply)) = (Ok wire, sc') ->
  blocks <> [] -> Forall (fun b => 0 < length b <= MAX_BLOCK) blocks ->
  encode_request method path ctype body = pre ++ mjoin blocks ->
  exists rc', send_blocks blocks (session_at keys rc sc events, (server_at keys rc sc pre [], {| nt_server := a0; nt_cuts := cuts |})) =
    (Ok (), (session_at keys rc' sc events, (server_at keys rc' sc' [] wire, {| nt_server := a; nt_cuts := cuts |}))).
Proof using CL.
  intros Hr Hs Hw. revert pre rc. induction blocks as [|b blocks IH]; intros pre rc Hne Hb He; [done|].
  apply Forall_cons in Hb as [Hb Hbs]. cbn [send_blocks]. unfold next_frame, on_socket. run.
  cbn [ss_writer session_at session_with w_counter write_key].
  destruct (consume_frame (sk_write_key keys) rc b ltac:(lia)) as (frame & Hf & Hcf). rewrite Hf.
  cbn [sock_write serving_socket server_socket]. unfold server_receives. cbn [sc_keys server_at sc_in app nt_server nt_cuts].
  unfold receive_secure. rewrite Hcf. cbn [sc_plain server_at mjoin list_join sc_out]. rewrite app_nil_r.
  cbn [mjoin list_join] in He. rewrite app_assoc in He.
  destruct (decide (blocks = [])) as [->|Hn].
  - rewrite app_nil_r in He. rewrite <- He.
    pose proof (parse_request_encode _ _ _ _ [] Hr) as Hp. rewrite app_nil_r in Hp. rewrite Hp, Hs, Hw.
    by exists (advance rc).
  - assert (mjoin blocks <> []) as Hj.
    { destruct blocks as [|b' blocks]; [done|]. apply Forall_cons in Hbs as [Hb' _]. destruct b'; [simpl in Hb'; lia|done]. }
    rewrite (parse_request_prefix _ _ _ _ _ _ Hr He Hj).
    destruct (IH (pre ++ b) (advance rc) Hn Hbs He) as (rc' & Hrun). by exists rc'.
Qed.

Lemma sent_events (evs : list bytes) : sent_of <$> (Event <$> evs) = SentEvent <$> evs.
Proof. induction evs as [|ev evs IH]; [done|]. cbn. by f_equal. Qed.

(** The application takes at least one event whenever it is scheduled, or [n] events fit. *)
Definition keeps_up (n : nat) : Prop := (forall i, 0 < takes i) \/ n <= EVENT_CAPACITY.

(** Sending events and perhaps the response: all of it, or all up to an event for which
    there is no room. *)
Lemma deliver_script w key st p tail q :
  tail = [] \/ (exists r, tail = [SentResponse r]) ->
  exists p1 p2, p = p1 ++ p2 /\
    deliver ((SentEvent <$> p) ++ tail) (session_with w key st [] [] q) =
      session_with w key st (if p2 is [] then [] else (SentEvent <$> p2) ++ tail)
        (if p2 is [] then omap (fun m => match m with SentResponse r => Some r | _ => None end) tail else [])
        {| q_clock := q_clock q; q_taken := q_taken q; q_events := q_events q ++ p1 |} /\
    (p2 <> [] -> EVENT_CAPACITY <= length (q_events q) + length p1) /\
    (length (q_events q) <= EVENT_CAPACITY -> length (q_events q ++ p1) <= EVENT_CAPACITY).
Proof using.
  intros Ht. revert q. induction p as [|ev p IH]; intros q.
  - exists [], []. split; [done|]. rewrite app_nil_r. split; [|done]. destruct q. by destruct Ht as [->|[r ->]].
  - cbn [fmap list_fmap app deliver has_room session_with ss_events].
    destruct (Nat.ltb_spec (length (q_events q)) EVENT_CAPACITY) as [Hlt|Hge].
    + destruct (IH {| q_clock := q_clock q; q_taken := q_taken q; q_events := q_events q ++ [ev] |}) as (p1 & p2 & -> & Hd & Hf & Hl).
      exists (ev :: p1), p2. split; [done|]. cbn [q_events q_clock q_taken] in *. rewrite <- app_assoc in Hd, Hl. split; [exact Hd|].
      rewrite length_app in Hf, Hl. cbn [length app] in *. split; [intros Hn; specialize (Hf Hn); lia|intros _; apply Hl; lia].
    + exists [], (ev :: p). split; [done|]. rewrite app_nil_r. split; [|cbn; split; [lia|done]]. destruct q. reflexivity.
Qed.

(** The stream is finished when every message has been read from it. *)
Lemma stream_finished key st out os c' :
  consume (frame_step key) (counter st) (cipher_buf st ++ out) = Ok (os, c', []) ->
  consume demux_step () (plain_buf st ++ mjoin os) = Ok ([], (), []) ->
  Forall (fun b => b <> []) os -> fits (cipher_buf st ++ out) -> fits (plain_buf st ++ mjoin os) ->
  st = {| cipher_buf := []; plain_buf := []; counter := c' |} /\ out = [].
Proof using CL.
  intros Hc Hd Hne Hf1 Hf2. apply consume_no_units in Hd as [Hpr _]; [|apply _|done].
  symmetry in Hpr. apply app_nil in Hpr as [Hp Hos].
  assert (os = []) as -> by (destruct os as [|o os]; [done|]; apply Forall_cons in Hne as [Ho2 _]; by destruct o).
  apply consume_no_units in Hc as [Hr1 Hc]; [|apply _|done]. symmetry in Hr1. apply app_nil in Hr1 as [Hr ->].
  by destruct st; cbn in *; subst.
Qed.

(** What the reader still owes a request: events, and its response. *)
Definition script (evs : list bytes) (resp : HapResponse) : list Sent :=
  (SentEvent <$> evs) ++ [SentResponse (Ok resp)].

Lemma script_split batch ms evs resp :
  batch ++ (sent_of <$> ms) = script evs resp ->
  (ms = [] /\ batch = script evs resp) \/
  (exists p e2, evs = p ++ e2 /\ batch = (SentEvent <$> p) /\ (sent_of <$> ms) = script e2 resp).
Proof using.
  unfold script. revert evs. induction batch as [|m batch IH]; intros evs He; [right; by exists [], evs|].
  destruct evs as [|ev evs]; cbn in He; injection He as -> He.
  - apply app_nil in He as [-> Hm]. left. by destruct ms.
  - destruct (IH evs He) as [[-> ->]|(p & e2 & -> & -> & Hm)]; [by left|right]. by exists (ev :: p), e2.
Qed.

(** A batch of the script is sent: the response is there, or the script goes on, after
    the task has filled the event channel if it still has something to send. *)
Lemma deliver_batch w key st batch ms evs resp q :
  batch ++ (sent_of <$> ms) = script evs resp -> length (q_events q) <= EVENT_CAPACITY ->
  exists pnd rs q' p1 evs', deliver batch (session_with w key st [] [] q) = session_with w key st pnd rs q' /\
    evs = p1 ++ evs' /\ q' = {| q_clock := q_clock q; q_taken := q_taken q; q_events := q_events q ++ p1 |} /\
    length (q_events q') <= EVENT_CAPACITY /\
    ((rs = [Ok resp] /\ pnd = [] /\ ms = [] /\ evs' = []) \/
     (rs = [] /\ pnd ++ (sent_of <$> ms) = script evs' resp /\
      (pnd <> [] -> evs' <> [] /\ length (q_events q') = EVENT_CAPACITY) /\ (batch <> [] -> pnd = [] -> p1 <> []))).
Proof using.
  intros Hs Hq.
  assert (exists p tail e2, batch = (SentEvent <$> p) ++ tail /\ evs = p ++ e2 /\
    ((tail = [] /\ (sent_of <$> ms) = script e2 resp) \/ (tail = [SentResponse (Ok resp)] /\ ms = [] /\ e2 = [])))
    as (p & tail & e2 & -> & -> & Ht).
  { destruct (script_split _ _ _ _ Hs) as [[-> ->]|(p & e2 & -> & -> & Hm)].
    - exists evs, [SentResponse (Ok resp)], []. rewrite app_nil_r. split; [done|]. split; [done|]. by right.
    - exists p, [], e2. rewrite app_nil_r. split; [done|]. split; [done|]. by left. }
  destruct (deliver_script w key st p tail q) as (p1 & p2 & -> & Hd & Hf & Hl).
  { destruct Ht as [[-> _]|[-> _]]; [by left|right; by eexists]. }
  specialize (Hl Hq).
  rewrite Hd. eexists _, _, _, p1, (p2 ++ e2). split; [reflexivity|]. rewrite <- app_assoc. split; [done|].
  split; [done|]. split; [done|]. destruct p2 as [|ev p2].
  - destruct Ht as [[-> Hm]|(-> & -> & ->)]; [right|left; done]. split; [done|]. split; [done|]. split; [done|].
    intros Hb _ ->. by cbn in Hb.
  - right. split; [done|]. cbn [q_events]. split.
    { rewrite <- app_assoc. destruct Ht as [[-> Hm]|(-> & -> & ->)].
      - cbn [app]. rewrite Hm. unfold script. cbn. by rewrite fmap_app, <- app_assoc.
      - by rewrite !app_nil_r. }
    split; [|done]. intros _. split; [done|]. specialize (Hf ltac:(done)). rewrite length_app in *. lia.
Qed.

(** One turn of the reader task in a request: it reads a piece of the stream, or goes on
    sending. *)
Lemma reader_turn resp w key st pnd ms os c' evs q conn net :
  pnd ++ (sent_of <$> ms) = script evs resp ->
  consume (frame_step key) (counter st) (cipher_buf st ++ sc_out conn) = Ok (os, c', []) ->
  consume demux_step () (plain_buf st ++ mjoin os) = Ok (ms, (), []) ->
  frame_step key (counter st) (cipher_buf st) = Ok None -> demux_step () (plain_buf st) = Ok None ->
  Forall (fun b => b <> []) os -> fits (cipher_buf st ++ sc_out conn) -> fits (plain_buf st ++ mjoin os) ->
  exists batch ms2 os2 st' rest net',
    batch ++ (sent_of <$> ms2) = script evs resp /\
    reader_runs (session_with w key st pnd [] q, (conn, net)) =
      (Ok (), (deliver batch (session_with w key st' [] [] q), (with_out rest conn, net'))) /\
    nt_server net' = nt_server net /\
    consume (frame_step key) (counter st') (cipher_buf st' ++ rest) = Ok (os2, c', []) /\
    consume demux_step () (plain_buf st' ++ mjoin os2) = Ok (ms2, (), []) /\
    frame_step key (counter st') (cipher_buf st') = Ok None /\ demux_step () (plain_buf st') = Ok None /\
    Forall (fun b => b <> []) os2 /\ fits (cipher_buf st' ++ rest) /\ fits (plain_buf st' ++ mjoin os2) /\
    ((batch = pnd /\ batch <> [] /\ rest = sc_out conn) \/ length rest < length (sc_out conn)).
Proof using CL.
  intros Hs Hc Hd Hfn Hdn Hne Hf1 Hf2. destruct pnd as [|m pnd].
  2:{ exists (m :: pnd), ms, os, st, (sc_out conn), net. split; [done|]. split; [unfold with_out; by destruct conn|].
      do 8 (split; [done|]). left. by split_and!. }
  assert (sc_out conn <> []) as Ho.
  { intros Ho. rewrite Ho, app_nil_r in Hc, Hf1. rewrite consume_none in Hc by (done || apply _). simplify_eq.
    cbn [mjoin list_join] in Hd, Hf2. rewrite app_nil_r in Hd, Hf2. rewrite consume_none in Hd by (done || apply _).
    simplify_eq. by destruct evs. }
  destruct (read_piece conn net Ho) as (piece & rest & net1 & Hp & Hsplit & Hn1 & Hr).
  rewrite Hsplit, app_assoc in Hc, Hf1.
  destruct (consume_split _ _ _ _ _ _ _ Hf1 Hc) as (os1 & c1 & r1 & os2 & Hc1 & Hc2 & -> & Hn2 & Hf1').
  rewrite join_app, app_assoc in Hd, Hf2.
  destruct (consume_split _ _ _ _ _ _ _ Hf2 Hd) as (ms1 & [] & pr1 & ms2 & Hd1 & Hd2 & -> & Hdn2 & Hf2').
  exists (sent_of <$> ms1), ms2, os2, {| cipher_buf := r1; plain_buf := pr1; counter := c1 |}, rest, net1.
  apply Forall_app in Hne as [_ Hne]. rewrite fmap_app in Hs.
  split; [done|]. split.
  { unfold reader_runs, reader_wakes. cbn [session_with ss_pending ss_reader ss_read_key]. rewrite Hr, bool_decide_false by done.
    by rewrite (reader_pass_spec key _ os1 c1 r1 ms1 pr1) by (done || (cbn [cipher_buf plain_buf]; fits_tac)). }
  split_and!; try done. right. rewrite Hsplit, length_app. destruct piece; [done|simpl; lia].
Qed.

(** The application's turn. *)
Definition taken (q : Queue) : Queue :=
  {| q_clock := S (q_clock q); q_taken := q_taken q ++ take (takes (q_clock q)) (q_events q);
     q_events := drop (takes (q_clock q)) (q_events q) |}.
Lemma taken_all q : q_all (taken q) = q_all q.
Proof using. unfold q_all, taken. cbn. by rewrite <- app_assoc, take_drop. Qed.

Lemma next_response_received resp fuel evs ms os c' pnd st w key q conn net :
  pnd ++ (sent_of <$> ms) = script evs resp ->
  consume (frame_step key) (counter st) (cipher_buf st ++ sc_out conn) = Ok (os, c', []) ->
  consume demux_step () (plain_buf st ++ mjoin os) = Ok (ms, (), []) ->
  frame_step key (counter st) (cipher_buf st) = Ok None -> demux_step () (plain_buf st) = Ok None ->
  Forall (fun b => b <> []) os -> fits (cipher_buf st ++ sc_out conn) -> fits (plain_buf st ++ mjoin os) ->
  length (q_events q) <= EVENT_CAPACITY -> keeps_up (length (q_events q) + length evs) ->
  length (sc_out conn) + length evs < fuel ->
  exists net' q', next_response takes fuel (session_with w key st pnd [] q, (conn, net)) =
      (Ok resp, (session_with w key {| cipher_buf := []; plain_buf := []; counter := c' |} [] [] q', (with_out [] conn, net'))) /\
    nt_server net' = nt_server net /\ q_all q' = q_all q ++ evs /\
    length (q_events q') <= EVENT_CAPACITY /\ length (q_events q') <= length (q_events q) + length evs.
Proof using CL.
  revert evs ms os pnd st q conn net. induction fuel as [|fuel IH];
    intros evs ms os pnd st q conn net Hs Hc Hd Hfn Hdn Hne Hf1 Hf2 Hq Hk Hl; [lia|].
  assert (next_response takes (S fuel) (session_with w key st pnd [] q, (conn, net)) =
    (_ ← reader_runs; next_response takes fuel) (session_with w key st pnd [] (taken q), (conn, net))) as ->.
  { by destruct pnd. }
  destruct (reader_turn resp w key st pnd ms os c' evs (taken q) conn net Hs Hc Hd Hfn Hdn Hne Hf1 Hf2)
    as (batch & ms2 & os2 & st2 & rest & net2 & Hs2 & Hrun & Hn2 & Hc2 & Hd2 & Hfn2 & Hdn2 & Hne2 & Hg1 & Hg2 & Hprog).
  run. rewrite Hrun.
  assert (length (q_events (taken q)) <= length (q_events q)) as Htq by (cbn; rewrite length_drop; lia).
  destruct (deliver_batch w key st2 batch ms2 evs resp (taken q) Hs2 ltac:(lia))
    as (pnd2 & rs & q2 & p1 & evs' & -> & -> & Hq2 & Hq2l & Hcase).
  assert (q_all q2 = q_all q ++ p1) as Hall by (rewrite <- (taken_all q), Hq2; unfold q_all; cbn [q_taken q_events]; by rewrite app_assoc).
  assert (length (q_events q2) = length (q_events (taken q)) + length p1) as Hql by (by rewrite Hq2; cbn [q_events]; rewrite length_app).
  destruct Hcase as [(-> & -> & -> & ->)|(-> & Hs3 & Hfull & Hp1)].
  - destruct (stream_finished _ _ _ _ _ Hc2 Hd2 Hne2 Hg1 Hg2) as [-> ->]. exists net2, q2. rewrite app_nil_r in *.
    split; [by destruct fuel|]. split; [done|]. split; [done|]. split; [done|]. lia.
  - rewrite length_app in Hk, Hl.
    assert (length rest + length evs' < fuel) as Hfuel.
    { destruct Hprog as [(-> & Hb & ->)|Hlt]; [|lia]. destruct p1 as [|e p1]; [exfalso|cbn in Hl; lia].
      destruct pnd2 as [|m pnd2]; [by apply Hp1|]. destruct (Hfull ltac:(done)) as [Hev Hqf]. cbn [length] in Hql.
      destruct Hk as [Hlive|Hle]; [|destruct evs'; [done|cbn in Hle; lia]].
      specialize (Hlive (q_clock q)). cbn [taken q_events] in Hql. rewrite length_drop in Hql. unfold EVENT_CAPACITY in *. lia. }
    destruct (IH evs' ms2 os2 pnd2 st2 q2 (with_out rest conn) net2) as (net3 & q3 & Hr3 & Hn3 & Ha3 & Hl3 & Hl3'); try done.
    { destruct Hk as [Hlive|Hle]; [by left|right; lia]. }
    exists net3, q3. split; [exact Hr3|]. split; [congruence|]. split; [by rewrite Ha3, Hall, <- app_assoc|].
    split; [done|]. rewrite length_app. lia.
Qed.

(** A full channel whose receiver takes nothing holds up the response, however long. *)
Lemma full_event_channel_stalls fuel s kw ev pending evs :
  ss_responses s = [] -> ss_pending s = SentEvent ev :: pending -> ss_events s = Some evs ->
  EVENT_CAPACITY <= length evs -> (forall i, takes i = 0) ->
  (next_response takes fuel (s, kw)).1 = Fault OutOfFuel.
Proof using.
  intros Hr Hp He Hl Ht. revert s Hr Hp He. induction fuel as [|fuel IH]; intros s Hr Hp He; cbn [next_response]; rewrite Hr, Hp; [done|].
  rewrite Ht. run. unfold reader_runs. cbn [ss_pending take_events]. rewrite Hp. cbn [deliver has_room ss_events take_events set_task].
  rewrite He. cbn [fmap option_fmap option_map drop]. rewrite (proj2 (Nat.ltb_ge _ _)) by done.
  apply IH; cbn; by rewrite ?Hr, ?He.
Qed.

(** The frames of an answer: no more than nineteen bytes for one of the answer. *)
Lemma encrypt_blocks_length key c blocks wire c' :
  Forall (fun b => 0 < length b <= MAX_BLOCK) blocks -> encrypt_blocks key c blocks = (Ok wire, c') ->
  length wire <= 19 * length (mjoin blocks).
Proof using CL.
  intros Hb. revert c wire. induction Hb as [|b blocks Hb _ IH]; intros c wire He; cbn [encrypt_blocks] in He.
  { by injection He as <- <-. }
  destruct (encrypt_frame_spec key c b ltac:(lia)) as (frame & Ef & Hf). rewrite Ef in He.
  destruct (encrypt_blocks key (advance c) blocks) as [[frames|e|f] c2] eqn:Es; simplify_eq.
  specialize (IH _ _ Es). apply frame_of_length in Hf. unfold frame_len, LEN_PREFIX, TAG_LEN in Hf.
  change (mjoin (b :: blocks)) with (b ++ mjoin blocks). rewrite !length_app. lia.
Qed.

#[local] Instance sent_of_inj : Inj (=) (=) sent_of.
Proof. intros [] []; cbn; congruence. Qed.

Lemma answer_demuxed evs reply : well_formed (reply_message reply) -> Forall (fun ev => well_formed (event_message ev)) evs ->
  fits (answer_bytes evs reply) ->
  consume demux_step () (answer_bytes evs reply) = Ok ((Event <$> evs) ++ [Response (reply_response reply)], (), []).
Proof.
  intros Hr He Hf. destruct (consume_rendered ((event_message <$> evs) ++ [reply_message reply])) as (ds & Hds & Hc).
  - apply Forall_app. split; [by apply Forall_fmap|by apply Forall_singleton].
  - exact Hf.
  - assert (ds = (Event <$> evs) ++ [Response (reply_response reply)]) as <-; [|exact Hc].
    apply (inj (fmap sent_of)). rewrite Hds, !fmap_app, sent_events, <- list_fmap_compose. done.
Qed.

Lemma answer_events evs reply : length evs <= length (answer_bytes evs reply).
Proof using.
  unfold answer_bytes. rewrite fmap_app. induction evs as [|ev evs IH]; [simpl; lia|].
  change (length (wire_form (event_message ev) ++ mjoin ((wire_form <$> (event_message <$> evs)) ++ (wire_form <$> [reply_message reply])))
          >= S (length evs)).
  rewrite length_app. assert (1 <= length (wire_form (event_message ev))) as Hw.
  { unfold wire_form, rendered, render_message, join_lines. rewrite !length_app.
    change (length (m_prefix (event_message ev))) with 9. lia. }
  lia.
Qed.

Lemma session_answered keys rc sc (q : Queue) method path ctype body net evs reply a :
  0 < frame_size <= MAX_BLOCK -> srv_secure method path body (nt_server net) = (evs, reply, a) ->
  request_ok method path ctype body -> answer_ok max_reads evs reply ->
  length (q_events q) <= EVENT_CAPACITY -> keeps_up (length (q_events q) + length evs) ->
  exists rc' sc' q' net',
    session_request max_reads takes method path ctype body (session_at keys rc sc q, (server_at keys rc sc [] [], net)) =
      (Ok (reply_response reply), (session_at keys rc' sc' q', (server_at keys rc' sc' [] [], net'))) /\
    nt_server net' = a /\ q_all q' = q_all q ++ evs /\
    length (q_events q') <= EVENT_CAPACITY /\ length (q_events q') <= length (q_events q) + length evs.
Proof using CL.
  intros Hframe Hs Hr (Hw & Hev & Hl) Hq Hk. pose proof (answer_events evs reply) as Hle. set (ans := answer_bytes evs reply) in *.
  assert (Forall (fun b => 0 < length b <= MAX_BLOCK) (chunks frame_size ans)) as Hb.
  { apply Forall_forall. intros b Hin%chunks_length_le; lia. }
  destruct (encrypt_blocks_consume (sk_read_key keys) sc (chunks frame_size ans)) as (wire & sc' & He & Hc).
  { eapply Forall_impl; [exact Hb|]. simpl. lia. }
  pose proof (encrypt_blocks_length _ _ _ _ _ Hb He) as Hlw. rewrite chunks_concat in Hlw by lia.
  assert (fits wire) as Hfw by (unfold fits; lia). specialize (Hc [] ltac:(by rewrite app_nil_r)).
  rewrite app_nil_r, (consume_none _ sc' []), app_nil_r in Hc by done.
  destruct (send_blocks_received keys sc evs reply a wire sc' method path ctype body q (nt_cuts net)
    (chunks MAX_BLOCK (encode_request method path ctype body)) [] rc (nt_server net)) as (rc' & Hsend); [done..| | | |].
  { intros Hn. apply (f_equal mjoin) in Hn. rewrite chunks_concat in Hn by (unfold MAX_BLOCK; lia).
    destruct Hr as [[Hne _] _]. unfold encode_request in Hn. by destruct method. }
  { apply Forall_forall. intros b Hin%chunks_length_le; unfold MAX_BLOCK in *; lia. }
  { by rewrite chunks_concat by (unfold MAX_BLOCK; lia). }
  unfold session_request. run. destruct net as [a0 cuts]. cbn [nt_server nt_cuts] in Hsend. rewrite Hsend.
  destruct (next_response_received (reply_response reply) max_reads evs ((Event <$> evs) ++ [Response (reply_response reply)])
    (chunks frame_size ans) sc' [] {| cipher_buf := []; plain_buf := []; counter := sc |}
    {| w_counter := rc'; write_key := sk_write_key keys |} (sk_read_key keys) q (server_at keys rc' sc' [] wire)
    {| nt_server := a; nt_cuts := cuts |}) as (net' & q' & Hrun & Hn & Hrest); try done.
  - cbn [app]. unfold script. by rewrite fmap_app, sent_events.
  - cbn [plain_buf app]. rewrite chunks_concat by lia. apply answer_demuxed; [done..|]. unfold fits. fold ans. lia.
  - eapply Forall_impl; [exact Hb|]. intros b Hb'. by destruct b; [simpl in Hb'; lia|].
  - cbn [plain_buf app]. rewrite chunks_concat by lia. unfold fits. lia.
  - cbn [sc_out server_at]. lia.
  - exists rc', sc', q', net'. by split.
Qed.
End serving.

(** ** The sockets carry requests *)

Section link.
Context `{C : Crypto} {CL : CryptoLaws C} `{B : Build} {A : Type} `{!HttpServer A}.
Context (frame_size max_reads : nat) (takes : nat -> nat) (Hframe : 0 < frame_size <= MAX_BLOCK).
#[local] Instance link_socket : Socket (ServerConn * Net A) := server_socket frame_size.
#[local] Instance link_plain : HttpConn (TcpConn ServerConn * Net A) := tcp_plain max_reads.
#[local] Instance link_secure : HttpConn ((SessionKeys * TcpConn ServerConn) * Net A) := tcp_secure max_reads takes.

Definition session_of (keys : SessionKeys) (t : TcpConn ServerConn) : SecureSession :=
  default (session_new keys) (tc_session t).

Definition tcp_secured (keys : SessionKeys) (q : Queue) (t : TcpConn ServerConn) : Prop :=
  length (q_events q) <= EVENT_CAPACITY /\
  exists rc sc, session_of keys t = session_at keys rc sc q /\ tc_sock t = server_at keys rc sc [] [].

Definition tcp_carries (method path ctype body : bytes) (evs : list bytes) (r : Reply) : Prop :=
  request_ok method path ctype body /\ answer_ok max_reads evs r.

Lemma tcp_plain_served method path ctype body t (w : Net A) reply keys a :
  tc_sock t = accepted /\ tc_session t = None -> srv_plain method path body (nt_server w) = (reply, keys, a) ->
  tcp_carries method path ctype body [] reply ->
  exists t' w', http_request method path ctype body (t, w) = (Ok (reply_response reply), (t', w')) /\
    nt_server w' = a /\ match keys with
                       | None => tc_sock t' = accepted /\ tc_session t' = None
                       | Some k => tcp_secured k queue_new t'
                       end.
Proof.
  intros [Ht Hn] Hs [Hr Ha]. destruct t as [k se]. cbn [tc_sock tc_session] in *. subst k se.
  destruct (plain_answered frame_size max_reads _ _ _ _ _ _ _ _ Hs Hr Ha) as (w' & Hrun & Hw).
  change (serving_socket frame_size) with link_socket in Hrun.
  cbn [http_request link_plain tcp_plain tc_sock tc_session]. rewrite Hrun. eexists _, w'. split; [reflexivity|]. split; [done|].
  destruct keys as [k|]; [|done]. split; [cbn; unfold EVENT_CAPACITY; lia|]. by exists counter_new, counter_new.
Qed.

Lemma tcp_secure_served method path ctype body keys q t (w : Net A) evs reply a :
  tcp_secured keys q t -> srv_secure method path body (nt_server w) = (evs, reply, a) ->
  tcp_carries method path ctype body evs reply -> keeps_up takes (length (q_events q) + length evs) ->
  exists t' w' q', http_request method path ctype body ((keys, t), w) = (Ok (reply_response reply), ((keys, t'), w')) /\
    nt_server w' = a /\ tcp_secured keys q' t' /\ q_all q' = q_all q ++ evs /\
    length (q_events q') <= length (q_events q) + length evs.
Proof using CL Hframe.
  intros (Hq & rc & sc & Hse & Hk) Hs [Hr Ha] Hup.
  destruct (session_answered frame_size max_reads takes keys rc sc q _ _ _ _ _ _ _ _ Hframe Hs Hr Ha Hq Hup)
    as (rc' & sc' & q' & w' & Hrun & Hw & Hall & Hl & Hl').
  change (serving_socket frame_size) with link_socket in Hrun.
  cbn [http_request link_secure tcp_secure]. unfold session_of in Hse. rewrite Hse, Hk, Hrun.
  eexists _, w', q'. split; [reflexivity|]. split; [done|]. split; [|done]. split; [done|]. by exists rc', sc'.
Qed.

(** A connection whose events the application keeps receiving. *)
#[export] Instance tcp_link (Htakes : forall i, 0 < takes i) : HttpLink (Net A) (TcpConn ServerConn) A.
Proof using CL Hframe.
  refine {| hl_server := nt_server; hl_plain t _ := tc_sock t = accepted /\ tc_session t = None;
            hl_secured keys t _ := exists q, tcp_secured keys q t; hl_carries := tcp_carries |}.
  - intros method path ctype body t w reply keys a Ht Hs Hc.
    destruct (tcp_plain_served _ _ _ _ _ _ _ _ _ Ht Hs Hc) as (t' & w' & Hr & Hw & Hk). exists t', w'.
    split; [done|]. split; [done|]. destruct keys; [by eexists|done].
  - intros method path ctype body keys t w evs reply a [q Ht] Hs Hc.
    destruct (tcp_secure_served _ _ _ _ _ _ _ _ _ _ _ Ht Hs Hc ltac:(by left)) as (t' & w' & q' & Hr & Hw & Hk & _).
    exists t', w'. split; [done|]. split; [done|]. by eexists.
Defined.

(** A sequence of requests over the session, and what the server makes of it. *)
Record HttpRequest := { hr_method : bytes; hr_path : bytes; hr_ctype : bytes; hr_body : bytes }.

Fixpoint run_requests (reqs : list HttpRequest)
    : stateful ((SessionKeys * TcpConn ServerConn) * Net A) TransportError (list HapResponse) :=
  match reqs with
  | [] => mret []
  | r :: reqs' =>
      resp ← http_request (hr_method r) (hr_path r) (hr_ctype r) (hr_body r);
      resps ← run_requests reqs'; mret (resp :: resps)
  end.

Fixpoint serve_requests (reqs : list HttpRequest) (a : A) : list Reply * list bytes * A :=
  match reqs with
  | [] => ([], [], a)
  | r :: reqs' =>
      let '(evs, reply, a) := srv_secure (hr_method r) (hr_path r) (hr_body r) a in
      let '(replies, evs', a) := serve_requests reqs' a in (reply :: replies, evs ++ evs', a)
  end.

(** Every request, and the answer the server gives to it, is well-formed and of a size the
    loops wait for. *)
Fixpoint requests_ok (reqs : list HttpRequest) (a : A) : Prop :=
  match reqs with
  | [] => True
  | r :: reqs' =>
      let '(evs, reply, a) := srv_secure (hr_method r) (hr_path r) (hr_body r) a in
      tcp_carries (hr_method r) (hr_path r) (hr_ctype r) (hr_body r) evs reply /\ requests_ok reqs' a
  end.

Lemma run_requests_ok reqs keys q t w :
  tcp_secured keys q t -> requests_ok reqs (nt_server w) ->
  let '(replies, evs, a) := serve_requests reqs (nt_server w) in
  keeps_up takes (length (q_events q) + length evs) ->
  exists t' w' q', run_requests reqs ((keys, t), w) = (Ok (reply_response <$> replies), ((keys, t'), w')) /\
    nt_server w' = a /\ tcp_secured keys q' t' /\ q_all q' = q_all q ++ evs.
Proof using CL Hframe.
  revert q t w. induction reqs as [|r reqs IH]; intros q t w Ht Hok.
  { intros _. exists t, w, q. by rewrite app_nil_r. }
  cbn [serve_requests requests_ok run_requests] in *.
  destruct (srv_secure _ _ _ (nt_server w)) as [[evs reply] a] eqn:Hs. destruct Hok as [Hc Hok].
  destruct (serve_requests reqs a) as [[replies evs'] a'] eqn:Es. intros Hup. rewrite length_app in Hup.
  destruct (tcp_secure_served _ _ _ _ _ _ _ _ _ _ _ Ht Hs Hc) as (t1 & w1 & q1 & Hr & Hw & Ht1 & Hq1 & Hl1).
  { destruct Hup; [by left|right; lia]. }
  subst a. specialize (IH _ t1 w1 Ht1 Hok). rewrite Es in IH.
  destruct IH as (t2 & w2 & q2 & Hrs & Hw2 & Ht2 & Hq2). { destruct Hup; [by left|right; lia]. }
  exists t2, w2, q2. run. rewrite Hr, Hrs. rewrite Hq1, <- app_assoc in Hq2. done.
Qed.
End link.

(** * Theorems *)

(** C3: Requests over sockets.  From the moment the server has agreed session keys on a
    connection, every sequence of requests made on the secure session returns the server's
    answers, each to its own request, and the events the server pushes reach the event
    channel in order, those the application has taken before those still queued; this
    however large the accessory's frames (up to 1024 bytes) and however TCP cuts the stream,
    with the bounded channels of the session, as long as the application keeps receiving
    events (any number each time it is scheduled) or there are no more events than the 32 the
    channel holds.  Nothing is left over: the counters agree, no bytes and no responses are
    pending. *)
Theorem tcp_session_serves `{CL : CryptoLaws} `{Build} {A} `{HttpServer A} frame_size max_reads takes reqs keys (a0 : A) cuts :
  0 < frame_size <= MAX_BLOCK -> requests_ok max_reads reqs a0 ->
  let t := {| tc_sock := server_at keys counter_new counter_new [] []; tc_session := None |} in
  let '(replies, evs, a) := serve_requests reqs a0 in
  (forall i, 0 < takes i) \/ length evs <= 32 ->
  exists t' w' rc sc q,
    run_requests frame_size max_reads takes reqs ((keys, t), {| nt_server := a0; nt_cuts := cuts |}) =
      (Ok (reply_response <$> replies), ((keys, t'), w')) /\
    nt_server w' = a /\ session_of keys t' = session_at keys rc sc q /\ q_taken q ++ q_events q = evs /\
    tc_sock t' = server_at keys rc sc [] [].
Proof.
  intros Hframe Hok t. assert (tcp_secured keys queue_new t) as Ht.
  { split; [cbn; unfold EVENT_CAPACITY; lia|]. by exists counter_new, counter_new. }
  pose proof (run_requests_ok frame_size max_reads takes Hframe reqs keys queue_new t {| nt_server := a0; nt_cuts := cuts |} Ht Hok) as Hr.
  cbn [nt_server] in Hr. destruct (serve_requests reqs a0) as [[replies evs] a]. intros Hup.
  destruct (Hr Hup) as (t' & w' & q & Hrun & Hw & (_ & rc & sc & Hse & Hk) & Hq). by exists t', w', rc, sc, q.
Qed.

(** A server that counts its requests, answers with the count and echoes the body as an
    event. *)
#[local] Instance echo_server : HttpServer nat := {
  srv_plain _ _ _ n := ({| rp_status := 404; rp_ctype := str "t"; rp_body := [] |}, None, n);
  srv_secure _ _ body n := ([body; body], {| rp_status := 200; rp_ctype := str "t"; rp_body := replicate n x41 |}, S n)
}.
#[local] Instance demo_build : Build := {| overflow_checks := true; debug_assertions := true |}.

Definition demo_reads : nat := 80 * 250.
Definition demo_keys : SessionKeys := {| sk_read_key := replicate 32 x01; sk_write_key := replicate 32 x02 |}.
Definition demo_requests : list HttpRequest :=
  [{| hr_method := str "PUT"; hr_path := str "/x"; hr_ctype := str "t"; hr_body := str "on" |};
   {| hr_method := str "GET"; hr_path := str "/y?id=1"; hr_ctype := str "t"; hr_body := [] |}].

Lemma request_ok_check method path ctype body :
  bool_decide (method <> [] /\ path <> [] /\ Forall (fun b => b <> x20 /\ b <> x0d /\ b <> x0a) method /\
    Forall (fun b => b <> x20 /\ b <> x0d /\ b <> x0a) path /\ (x0d ∉ ctype) /\ (x0a ∉ ctype)) = true ->
  (Z.of_nat (length (encode_request method path ctype body)) <? 2 ^ 62)%Z = true -> request_ok method path ctype body.
Proof. intros H%bool_decide_eq_true Hl%Z.ltb_lt. unfold request_ok, word_ok. naive_solver. Qed.

Lemma demo_requests_ok : requests_ok demo_reads demo_requests 3.
Proof.
  cbn [requests_ok demo_requests srv_secure echo_server hr_method hr_path hr_ctype hr_body].
  assert (forall r evs m p c b, request_ok m p c b -> answer_ok demo_reads evs r -> tcp_carries demo_reads m p c b evs r) as Hc by done.
  split; [|split; [|done]]; (apply Hc; [apply request_ok_check; by vm_compute|]);
    (split; [apply message_ok_check; by vm_compute|split; [|by vm_compute]]);
    repeat apply List.Forall_cons; try apply List.Forall_nil; apply message_ok_check; by vm_compute.
Qed.

(** An application that never takes an event, and two requests that push four. *)
Lemma tcp_session_serves_witness :
  let run := run_requests (C := toy_crypto) 1000 demo_reads (fun _ => 0) demo_requests
               ((demo_keys, {| tc_sock := server_at demo_keys counter_new counter_new [] []; tc_session := None |}),
                {| nt_server := 3; nt_cuts := [0; 4; 30] |}) in
  exists t' w' rc sc q,
    run = (Ok [{| status := 200; content_type := byteZ <$> str "t"; body := replicate 3 x41 |};
               {| status := 200; content_type := byteZ <$> str "t"; body := replicate 4 x41 |}], ((demo_keys, t'), w')) /\
    nt_server w' = 5 /\ session_of demo_keys t' = session_at demo_keys rc sc q /\
    q_taken q ++ q_events q = [str "on"; str "on"; []; []] /\ tc_sock t' = server_at demo_keys rc sc [] [].
Proof.
  assert (0 < 1000 <= MAX_BLOCK) as Hf by (unfold MAX_BLOCK; lia).
  assert (4 <= 32) as Hfew by lia.
  exact (tcp_session_serves (CL := toy_crypto_laws) 1000 demo_reads (fun _ => 0) demo_requests demo_keys 3 [0; 4; 30] Hf demo_requests_ok
           (or_intror Hfew)).
Defined.

(** An accessory that pushes 33 events before its answer: nobody takes one, and the request
    is never answered; with an application that takes them it is. *)
#[local] Instance busy_server : HttpServer nat := {
  srv_plain _ _ _ n := ({| rp_status := 404; rp_ctype := str "t"; rp_body := [] |}, None, n);
  srv_secure _ _ _ n := (replicate 33 (str "on"), {| rp_status := 200; rp_ctype := str "t"; rp_body := [] |}, n)
}.
Definition busy_run (taken_each : nat) : result TransportError (list HapResponse) :=
  (run_requests (C := toy_crypto) (HttpServer0 := busy_server) 1000 400 (fun _ => taken_each) (take 1 demo_requests)
     ((demo_keys, {| tc_sock := server_at demo_keys counter_new counter_new [] []; tc_session := None |}),
      {| nt_server := 0; nt_cuts := replicate 40 99 |})).1.

Example full_channel_example : busy_run 0 = Fault OutOfFuel /\ is_ok (busy_run 1) = true.
Proof. split; by vm_compute. Qed.
