(* ===== verification/DutPairing.v ===== *)
(** * [hap-thread-dut/src/{hap,session,pairing}.rs]: the accessory side

    The reference accessory's Pair Setup and Pair Verify handlers and its secure
    session, and the interoperation theorems: run against the controller's state
    machines, both exchanges complete and the two sides hold the same keys and each
    other's identities.  Random values are arguments. *)

From S2P Require Import Prelude Text Tlv8 Crypto RecordLayer Srp PairSetup PairVerify.

(** ** Errors and helpers ([error.rs], [hap.rs]) *)

Inductive DutError :=
| DutIo (code : Z)
| DutCrypto (e : CryptoError)
| DutTlv8 (e : Tlv8Error)
| Protocol (why : string).

Definition ERROR_AUTHENTICATION : Z := 2.

(** The accessory side's own copies of the HKDF strings and nonce labels. *)
Definition PS_ENCRYPT_SALT : bytes := str "Pair-Setup-Encrypt-Salt".
Definition PS_ENCRYPT_INFO : bytes := str "Pair-Setup-Encrypt-Info".
Definition PS_CONTROLLER_SIGN_SALT : bytes := str "Pair-Setup-Controller-Sign-Salt".
Definition PS_CONTROLLER_SIGN_INFO : bytes := str "Pair-Setup-Controller-Sign-Info".
Definition PS_ACCESSORY_SIGN_SALT : bytes := str "Pair-Setup-Accessory-Sign-Salt".
Definition PS_ACCESSORY_SIGN_INFO : bytes := str "Pair-Setup-Accessory-Sign-Info".
Definition DUT_PV_ENCRYPT_SALT : bytes := str "Pair-Verify-Encrypt-Salt".
Definition DUT_PV_ENCRYPT_INFO : bytes := str "Pair-Verify-Encrypt-Info".
Definition DUT_CONTROL_SALT : bytes := str "Control-Salt".
Definition DUT_CONTROL_READ_INFO : bytes := str "Control-Read-Encryption-Key".
Definition DUT_CONTROL_WRITE_INFO : bytes := str "Control-Write-Encryption-Key".
Definition DUT_EVENT_SALT : bytes := str "Event-Salt".
Definition DUT_EVENT_READ_INFO : bytes := str "Event-Read-Encryption-Key".
Definition NONCE_PV_M2 : bytes := str "PV-Msg02".
Definition NONCE_PV_M3 : bytes := str "PV-Msg03".
Definition NONCE_PS_M5 : bytes := str "PS-Msg05".
Definition NONCE_PS_M6 : bytes := str "PS-Msg06".

Definition nonce_label (label : bytes) : bytes :=
  let n := length label `min` 8 in copy_at (replicate 12 x00) 4 (take n label).

Definition nonce_counter (counter : Z) : bytes := copy_at (replicate 12 x00) 4 (le_bytes 8 counter).

Definition dut_expect_state (map : Tlv8Map) (want : Z) : result DutError () :=
  s ← map_err DutTlv8 (get_u8 map STATE);
  match s with
  | Some s => if (s =? want)%Z then Ok () else Err (Protocol "unexpected pairing State")
  | None => Err (Protocol "unexpected pairing State")
  end.

Definition error_m4 : bytes :=
  let out := push_u8 [] STATE STATE_M4 in push_u8 out ERROR ERROR_AUTHENTICATION.

Definition error_m6 : bytes :=
  let out := push_u8 [] STATE STATE_M6 in push_u8 out ERROR ERROR_AUTHENTICATION.

(** [Result::ok()] of a conversion, as in [and_then(|s| s.try_into().ok())]. *)
Definition array_ok (n : nat) (bs : option bytes) : option bytes :=
  bs ← bs; if length bs =? n then Some bs else None.

(** ** Session ([session.rs]) *)

Record AccessorySession := {
  as_read_key : bytes; as_write_key : bytes; as_event_key : bytes;
  as_recv_ctr : Z; as_send_ctr : Z; as_event_ctr : Z;
}.

Definition accessory_session_new (read_key write_key event_key : bytes) : AccessorySession :=
  {| as_read_key := read_key; as_write_key := write_key; as_event_key := event_key;
     as_recv_ctr := 0; as_send_ctr := 0; as_event_ctr := 0 |}.

Section dut.
Context `{C : Crypto} `{B : BigUintOps}.

Definition hkdf32 (ikm salt info : bytes) : result DutError bytes :=
  ok_or (hkdf_expand ikm salt info 32) (Protocol "HKDF expand failed").

Definition open_request (s : AccessorySession) (ct : bytes) : result DutError bytes * AccessorySession :=
  match map_err DutCrypto (chacha20poly1305_open (as_write_key s) (nonce_counter (as_recv_ctr s)) [] ct) with
  | Ok pt => (Ok pt, {| as_read_key := as_read_key s; as_write_key := as_write_key s;
                        as_event_key := as_event_key s; as_recv_ctr := wrapping_add 64 (as_recv_ctr s) 1;
                        as_send_ctr := as_send_ctr s; as_event_ctr := as_event_ctr s |})
  | r => (r, s)
  end.

Definition seal_response (s : AccessorySession) (pt : bytes) : result DutError bytes * AccessorySession :=
  match map_err DutCrypto (chacha20poly1305_seal (as_read_key s) (nonce_counter (as_send_ctr s)) [] pt) with
  | Ok ct => (Ok ct, {| as_read_key := as_read_key s; as_write_key := as_write_key s;
                        as_event_key := as_event_key s; as_recv_ctr := as_recv_ctr s;
                        as_send_ctr := wrapping_add 64 (as_send_ctr s) 1; as_event_ctr := as_event_ctr s |})
  | r => (r, s)
  end.

Definition seal_event (s : AccessorySession) (pt : bytes) : result DutError bytes * AccessorySession :=
  match map_err DutCrypto (chacha20poly1305_seal (as_event_key s) (nonce_counter (as_event_ctr s)) [] pt) with
  | Ok ct => (Ok ct, {| as_read_key := as_read_key s; as_write_key := as_write_key s;
                        as_event_key := as_event_key s; as_recv_ctr := as_recv_ctr s;
                        as_send_ctr := as_send_ctr s; as_event_ctr := wrapping_add 64 (as_event_ctr s) 1 |})
  | r => (r, s)
  end.

(** ** Pair Verify *)

Record VerifyInProgress := {
  vp_accessory_eph_pub : bytes; vp_controller_eph_pub : bytes; vp_shared : bytes; vp_pv_key : bytes;
}.

(** [secret] is the ephemeral secret [EphemeralKeypair::generate] draws. *)
Definition handle_m1 (secret : bytes) (accessory_keypair : ControllerKeypair) (accessory_id m1 : bytes)
    : result DutError (bytes * VerifyInProgress) :=
  map ← map_err DutTlv8 (map_parse m1);
  _ ← dut_expect_state map STATE_M1;
  controller_eph_pub ← ok_or (get map PUBLIC_KEY) (Protocol "M1 missing controller ephemeral key");
  controller_eph_pub ← try_array 32 controller_eph_pub (Protocol "M1 ephemeral key not 32 bytes");
  let accessory_eph := eph_from_secret secret in
  let accessory_eph_pub := eph_public accessory_eph in
  let shared := diffie_hellman accessory_eph controller_eph_pub in
  pv_key ← hkdf32 shared DUT_PV_ENCRYPT_SALT DUT_PV_ENCRYPT_INFO;
  let signed := accessory_eph_pub ++ accessory_id ++ controller_eph_pub in
  let signature := sign accessory_keypair signed in
  let sub := push [] IDENTIFIER accessory_id in
  let sub := push sub SIGNATURE signature in
  sealed ← map_err DutCrypto (chacha20poly1305_seal pv_key (nonce_label NONCE_PV_M2) [] sub);
  let m2 := push_u8 [] STATE STATE_M2 in
  let m2 := push m2 PUBLIC_KEY accessory_eph_pub in
  let m2 := push m2 ENCRYPTED_DATA sealed in
  Ok (m2, {| vp_accessory_eph_pub := accessory_eph_pub; vp_controller_eph_pub := controller_eph_pub;
             vp_shared := shared; vp_pv_key := pv_key |}).

Definition handle_m3 (progress : VerifyInProgress) (controller_id controller_ltpk m3 : bytes)
    : result DutError (bytes * option AccessorySession) :=
  map ← map_err DutTlv8 (map_parse m3);
  _ ← dut_expect_state map STATE_M3;
  encrypted ← ok_or (get map ENCRYPTED_DATA) (Protocol "M3 missing encrypted data");
  match chacha20poly1305_open (vp_pv_key progress) (nonce_label NONCE_PV_M3) [] encrypted with
  | Err _ => Ok (error_m4, None)
  | Fault f => Fault f
  | Ok plaintext =>
      sub ← map_err DutTlv8 (map_parse plaintext);
      identifier ← ok_or (get sub IDENTIFIER) (Protocol "M3 sub-TLV missing identifier");
      match array_ok 64 (get sub SIGNATURE) with
      | None => Ok (error_m4, None)
      | Some signature =>
          let signed := vp_controller_eph_pub progress ++ identifier ++ vp_accessory_eph_pub progress in
          if negb (bool_decide (identifier = controller_id)) ||
             negb (is_ok (verify_ed25519 controller_ltpk signed signature))
          then Ok (error_m4, None)
          else
            read_key ← hkdf32 (vp_shared progress) DUT_CONTROL_SALT DUT_CONTROL_READ_INFO;
            write_key ← hkdf32 (vp_shared progress) DUT_CONTROL_SALT DUT_CONTROL_WRITE_INFO;
            event_key ← hkdf32 (vp_shared progress) DUT_EVENT_SALT DUT_EVENT_READ_INFO;
            Ok (push_u8 [] STATE STATE_M4, Some (accessory_session_new read_key write_key event_key))
      end
  end.

(** ** Pair Setup *)

Inductive SetupInProgress :=
| DutAwaitingM3 (server : SrpServer)
| DutAwaitingM5 (session_key : bytes).

(** [salt] and [b] are the random values of the SRP server. *)
Definition handle_setup_m1 (salt b setup_code m1 : bytes) : result DutError (bytes * SetupInProgress) :=
  map ← map_err DutTlv8 (map_parse m1);
  _ ← dut_expect_state map STATE_M1;
  method ← map_err DutTlv8 (get_u8 map METHOD);
  if match method with None => true | Some m => (m =? METHOD_PAIR_SETUP)%Z end then
    server_salt ← map_err DutCrypto (hap_srp_server_new salt b setup_code);
    let '(server, salt) := server_salt in
    let m2 := push_u8 [] STATE STATE_M2 in
    let m2 := push m2 SALT salt in
    let m2 := push m2 PUBLIC_KEY (hap_b_pub_bytes server) in
    Ok (m2, DutAwaitingM3 server)
  else Err (Protocol "unsupported pairing Method in M1").

Definition handle_setup_m3 (server : SrpServer) (m3 : bytes) : result DutError (bytes * option bytes) :=
  map ← map_err DutTlv8 (map_parse m3);
  _ ← dut_expect_state map STATE_M3;
  a_pub ← ok_or (get map PUBLIC_KEY) (Protocol "M3 missing controller public key A");
  m1 ← ok_or (get map PROOF) (Protocol "M3 missing controller proof M1");
  match hap_session_key server a_pub with
  | Fault f => Fault f
  | Err _ => Ok (error_m4, None)
  | Ok session_key =>
      match hap_verify_m1_prove_m2 server a_pub m1 with
      | Ok m2_proof =>
          let m4 := push_u8 [] STATE STATE_M4 in
          Ok (push m4 PROOF m2_proof, Some session_key)
      | Err _ => Ok (error_m4, None)
      | Fault f => Fault f
      end
  end.

Definition handle_setup_m5 (session_key : bytes) (accessory_keypair : ControllerKeypair)
    (accessory_id m5 : bytes) : result DutError (bytes * option (bytes * bytes)) :=
  map ← map_err DutTlv8 (map_parse m5);
  _ ← dut_expect_state map STATE_M5;
  encrypted ← ok_or (get map ENCRYPTED_DATA) (Protocol "M5 missing encrypted data");
  enc_key ← hkdf32 session_key PS_ENCRYPT_SALT PS_ENCRYPT_INFO;
  match chacha20poly1305_open enc_key (nonce_label NONCE_PS_M5) [] encrypted with
  | Err _ => Ok (error_m6, None)
  | Fault f => Fault f
  | Ok plaintext =>
      sub ← map_err DutTlv8 (map_parse plaintext);
      controller_id ← ok_or (get sub IDENTIFIER) (Protocol "M5 sub-TLV missing identifier");
      match array_ok 32 (get sub PUBLIC_KEY) with
      | None => Ok (error_m6, None)
      | Some controller_ltpk =>
          match array_ok 64 (get sub SIGNATURE) with
          | None => Ok (error_m6, None)
          | Some signature =>
              ios_device_x ← hkdf32 session_key PS_CONTROLLER_SIGN_SALT PS_CONTROLLER_SIGN_INFO;
              let signed := ios_device_x ++ controller_id ++ controller_ltpk in
              if negb (is_ok (verify_ed25519 controller_ltpk signed signature)) then Ok (error_m6, None)
              else if bool_decide (from_utf8 controller_id = None) then Ok (error_m6, None)
              else
                accessory_x ← hkdf32 session_key PS_ACCESSORY_SIGN_SALT PS_ACCESSORY_SIGN_INFO;
                let accessory_ltpk := ltpk accessory_keypair in
                let acc_signed := accessory_x ++ accessory_id ++ accessory_ltpk in
                let acc_sig := sign accessory_keypair acc_signed in
                let acc_sub := push [] IDENTIFIER accessory_id in
                let acc_sub := push acc_sub PUBLIC_KEY accessory_ltpk in
                let acc_sub := push acc_sub SIGNATURE acc_sig in
                sealed ← map_err DutCrypto (chacha20poly1305_seal enc_key (nonce_label NONCE_PS_M6) [] acc_sub);
                let m6 := push_u8 [] STATE STATE_M6 in
                Ok (push m6 ENCRYPTED_DATA sealed, Some (controller_id, controller_ltpk))
          end
      end
  end.

End dut.

(** * Lemmas *)

(** Identifiers are strings of moderate length: nothing the AEAD refuses. *)
Definition id_ok (id : bytes) : Prop := (Z.of_nat (length id) <= 2 ^ 16)%Z.

(** The accessory's string tables are the controller's. *)
Ltac dut_consts :=
  change DUT_PV_ENCRYPT_SALT with PV_ENCRYPT_SALT; change DUT_PV_ENCRYPT_INFO with PV_ENCRYPT_INFO;
  change DUT_CONTROL_SALT with CONTROL_SALT; change DUT_CONTROL_READ_INFO with CONTROL_READ_INFO;
  change DUT_CONTROL_WRITE_INFO with CONTROL_WRITE_INFO; change DUT_EVENT_SALT with EVENT_SALT;
  change DUT_EVENT_READ_INFO with EVENT_READ_INFO;
  change PS_ENCRYPT_SALT with ENCRYPT_SALT; change PS_ENCRYPT_INFO with ENCRYPT_INFO;
  change PS_CONTROLLER_SIGN_SALT with CONTROLLER_SIGN_SALT;
  change PS_CONTROLLER_SIGN_INFO with CONTROLLER_SIGN_INFO;
  change PS_ACCESSORY_SIGN_SALT with ACCESSORY_SIGN_SALT;
  change PS_ACCESSORY_SIGN_INFO with ACCESSORY_SIGN_INFO;
  change NONCE_PV_M2 with NONCE_M2; change NONCE_PV_M3 with NONCE_M3;
  change NONCE_PS_M5 with NONCE_M5; change NONCE_PS_M6 with NONCE_M6; change nonce_label with hap_nonce.

Lemma try_array_ok {E} n bs (e : E) : length bs = n -> try_array n bs e = Ok bs.
Proof. intros H. unfold try_array. by rewrite (proj2 (Nat.eqb_eq _ _) H). Qed.

Lemma array_ok_ok n bs : length bs = n -> array_ok n (Some bs) = Some bs.
Proof. intros H. simpl. by rewrite (proj2 (Nat.eqb_eq _ _) H). Qed.

Section interop.
Context `{HL : CryptoLaws}.

Lemma hkdf_32 ikm salt info : exists k, hkdf_expand ikm salt info 32 = Some k /\ length k = 32.
Proof using HL. apply hkdf_total. lia. Qed.

(** Sealing a TLV of bounded size succeeds and opens to the same TLV. *)
Lemma seal_open_tlv k n sub :
  (Z.of_nat (length sub) < 2 ^ 32)%Z ->
  exists ct, aead_seal k n [] sub = Some ct /\ aead_open k n [] ct = Some sub.
Proof using HL.
  intros Hl. destruct (aead_seal_total k n [] sub Hl) as [ct Hct].
  exists ct. split; [done|]. by apply aead_open_seal.
Qed.

Lemma sign_verifies seed msg : verify_ed25519 (ed_public seed) msg (ed_sign seed msg) = Ok ().
Proof using HL. unfold verify_ed25519. by rewrite ed_public_valid, ed_verify_sign. Qed.

Lemma id_sig_small id sig : id_ok id -> length sig = 64 ->
  (Z.of_nat (length (push (push [] IDENTIFIER id) SIGNATURE sig)) < 2 ^ 32)%Z.
Proof.
  intros Hid Hs. pose proof (length_push_le (push [] IDENTIFIER id) SIGNATURE sig).
  pose proof (length_push_le [] IDENTIFIER id). unfold id_ok in Hid. simpl length in *. lia.
Qed.

Lemma id_key_sig_small id key sig : id_ok id -> length key = 32 -> length sig = 64 ->
  (Z.of_nat (length (push (push (push [] IDENTIFIER id) PUBLIC_KEY key) SIGNATURE sig)) < 2 ^ 32)%Z.
Proof.
  intros Hid Hk Hs. pose proof (length_push_le (push (push [] IDENTIFIER id) PUBLIC_KEY key) SIGNATURE sig).
  pose proof (length_push_le (push [] IDENTIFIER id) PUBLIC_KEY key).
  pose proof (length_push_le [] IDENTIFIER id). unfold id_ok in Hid. simpl length in *. lia.
Qed.

(** Parsing the bodies the two sides write. *)
(** *** Pair Verify, message by message *)

Section verify.
Context (ctl acc : ControllerKeypair) (acc_id secret_c secret_a : bytes)
  (Hcid : id_ok (kp_id ctl)) (Haid : id_ok acc_id).

Definition pv_pairing : AccessoryPairing := {| pairing_id := acc_id; ap_ltpk := ltpk acc |}.
Definition pv_client0 : PairVerifyClient := new_with_ephemeral ctl pv_pairing secret_c.
Definition pv_shared : bytes := x_dh secret_c (x_public secret_a).

(** M1 to M2. *)
Lemma pv_m1_m2 :
  exists key ct,
    hkdf_expand pv_shared PV_ENCRYPT_SALT PV_ENCRYPT_INFO 32 = Some key /\
    aead_open key (hap_nonce NONCE_M2) [] ct =
      Some (push (push [] IDENTIFIER acc_id) SIGNATURE
              (sign acc (x_public secret_a ++ acc_id ++ x_public secret_c))) /\
    handle_m1 secret_a acc acc_id (pv_start pv_client0).1 =
      Ok (push (push (push_u8 [] STATE STATE_M2) PUBLIC_KEY (x_public secret_a)) ENCRYPTED_DATA ct,
          {| vp_accessory_eph_pub := x_public secret_a; vp_controller_eph_pub := x_public secret_c;
             vp_shared := pv_shared; vp_pv_key := key |}).
Proof using HL Haid.
  destruct (hkdf_32 pv_shared PV_ENCRYPT_SALT PV_ENCRYPT_INFO) as (key & Hk & _).
  destruct (seal_open_tlv key (hap_nonce NONCE_M2) (push (push [] IDENTIFIER acc_id) SIGNATURE
              (sign acc (x_public secret_a ++ acc_id ++ x_public secret_c)))) as (ct & Hs & Ho).
  { apply id_sig_small; [done|apply ed_sign_length]. }
  exists key, ct. split; [done|]. split; [done|].
  unfold handle_m1, pv_start. dut_consts. cbn [fst]. unfold push_u8. rewrite parse_items2 by done.
  cbn [map_err mbind result_bind].
  change (dut_expect_state (from_items [(STATE, le_bytes 1 STATE_M1); (PUBLIC_KEY, eph_public (ephemeral pv_client0))]) STATE_M1)
    with (Ok (E:=DutError) ()). cbn [mbind result_bind].
  change (get (from_items [(STATE, le_bytes 1 STATE_M1); (PUBLIC_KEY, eph_public (ephemeral pv_client0))]) PUBLIC_KEY)
    with (Some (x_public secret_c)). cbn [ok_or mbind result_bind].
  rewrite try_array_ok by apply x_public_length. cbn [mbind result_bind].
  unfold diffie_hellman, eph_from_secret. cbn [eph_secret eph_public]. rewrite x_dh_comm.
  unfold hkdf32. unfold pv_shared in Hk. rewrite Hk. cbn [ok_or mbind result_bind].
  unfold chacha20poly1305_seal, encrypt. rewrite Hs. done.
Qed.

(** M2 to M3. *)
Lemma pv_m2_m3 key ct :
  hkdf_expand pv_shared PV_ENCRYPT_SALT PV_ENCRYPT_INFO 32 = Some key ->
  aead_open key (hap_nonce NONCE_M2) [] ct =
    Some (push (push [] IDENTIFIER acc_id) SIGNATURE
            (sign acc (x_public secret_a ++ acc_id ++ x_public secret_c))) ->
  exists ct3,
    aead_open key (hap_nonce NONCE_M3) [] ct3 =
      Some (push (push [] IDENTIFIER (kp_id ctl)) SIGNATURE
              (sign ctl (x_public secret_c ++ kp_id ctl ++ x_public secret_a))) /\
    pv_handle (pv_start pv_client0).2
      (push (push (push_u8 [] STATE STATE_M2) PUBLIC_KEY (x_public secret_a)) ENCRYPTED_DATA ct) =
    (Ok (PvSend (push (push_u8 [] STATE STATE_M3) ENCRYPTED_DATA ct3)),
     pv_set (pv_start pv_client0).2 (Some pv_shared) AwaitM4).
Proof using HL Hcid.
  intros Hk Ho.
  destruct (seal_open_tlv key (hap_nonce NONCE_M3) (push (push [] IDENTIFIER (kp_id ctl)) SIGNATURE
              (sign ctl (x_public secret_c ++ kp_id ctl ++ x_public secret_a)))) as (ct3 & Hs3 & Ho3).
  { apply id_sig_small; [done|apply ed_sign_length]. }
  exists ct3. split; [done|].
  unfold pv_handle. cbn [pv_start snd pv_set pv_state]. unfold pv_handle_m2, push_u8.
  rewrite parse_items3 by done. cbn [map_err mbind result_bind].
  set (m := from_items [(STATE, le_bytes 1 STATE_M2); _; _]).
  change (pv_check_error m) with (Ok (E:=CryptoError) ()). cbn [mbind result_bind].
  change (pv_expect_state m STATE_M2) with (Ok (E:=CryptoError) ()). cbn [mbind result_bind].
  change (get m PUBLIC_KEY) with (Some (x_public secret_a)). cbn [ok_or mbind result_bind].
  rewrite try_array_ok by apply x_public_length. cbn [mbind result_bind].
  change (get m ENCRYPTED_DATA) with (Some ct). cbn [ok_or mbind result_bind].
  change (diffie_hellman _ (x_public secret_a)) with pv_shared.
  unfold derive_key, hkdf_sha512, decrypt. rewrite Hk. cbn [ok_or mbind result_bind].
  rewrite Ho. cbn [ok_or mbind result_bind]. rewrite parse_items2 by done. cbn [map_err mbind result_bind].
  set (sub := from_items [(IDENTIFIER, acc_id); _]).
  change (get sub IDENTIFIER) with (Some acc_id). cbn [ok_or mbind result_bind].
  change (get sub SIGNATURE) with (Some (sign acc (x_public secret_a ++ acc_id ++ x_public secret_c))).
  cbn [ok_or mbind result_bind]. rewrite try_array_ok by apply ed_sign_length. cbn [mbind result_bind].
  rewrite bool_decide_true by done. cbn [negb].
  change (ap_ltpk (accessory _)) with (ed_public (kp_signing acc)). unfold sign.
  rewrite sign_verifies. cbn [mbind result_bind].
  unfold build_m3, encrypt. change (signing _) with (kp_signing ctl). change (controller_id _) with (kp_id ctl).
  unfold sign in Hs3. change (eph_public (ephemeral _)) with (x_public secret_c).
  rewrite Hs3. done.
Qed.

(** M3 to M4. *)
Lemma pv_m3_m4 key ct3 :
  aead_open key (hap_nonce NONCE_M3) [] ct3 =
    Some (push (push [] IDENTIFIER (kp_id ctl)) SIGNATURE
            (sign ctl (x_public secret_c ++ kp_id ctl ++ x_public secret_a))) ->
  exists r w e,
    hkdf_expand pv_shared CONTROL_SALT CONTROL_READ_INFO 32 = Some r /\
    hkdf_expand pv_shared CONTROL_SALT CONTROL_WRITE_INFO 32 = Some w /\
    hkdf_expand pv_shared EVENT_SALT EVENT_READ_INFO 32 = Some e /\
    handle_m3 {| vp_accessory_eph_pub := x_public secret_a; vp_controller_eph_pub := x_public secret_c;
                 vp_shared := pv_shared; vp_pv_key := key |} (kp_id ctl) (ltpk ctl)
      (push (push_u8 [] STATE STATE_M3) ENCRYPTED_DATA ct3) =
    Ok (push_u8 [] STATE STATE_M4, Some (accessory_session_new r w e)).
Proof using HL.
  intros Ho.
  destruct (hkdf_32 pv_shared CONTROL_SALT CONTROL_READ_INFO) as (r & Hr & _).
  destruct (hkdf_32 pv_shared CONTROL_SALT CONTROL_WRITE_INFO) as (w & Hw & _).
  destruct (hkdf_32 pv_shared EVENT_SALT EVENT_READ_INFO) as (e & He & _).
  exists r, w, e. do 3 (split; [done|]).
  unfold handle_m3. dut_consts. unfold push_u8. rewrite parse_items2 by done.
  cbn [map_err mbind result_bind]. set (m := from_items [(STATE, le_bytes 1 STATE_M3); _]).
  change (dut_expect_state m STATE_M3) with (Ok (E:=DutError) ()). cbn [mbind result_bind].
  change (get m ENCRYPTED_DATA) with (Some ct3). cbn [ok_or mbind result_bind vp_pv_key].
  unfold chacha20poly1305_open, decrypt. rewrite Ho. cbn [ok_or]. rewrite parse_items2 by done.
  cbn [map_err mbind result_bind]. set (sub := from_items [(IDENTIFIER, kp_id ctl); _]).
  change (get sub IDENTIFIER) with (Some (kp_id ctl)). cbn [ok_or mbind result_bind].
  change (get sub SIGNATURE) with (Some (sign ctl (x_public secret_c ++ kp_id ctl ++ x_public secret_a))).
  rewrite array_ok_ok by apply ed_sign_length. cbn [vp_controller_eph_pub vp_accessory_eph_pub vp_shared].
  unfold sign, ltpk. rewrite bool_decide_true, sign_verifies by done. cbn [negb orb is_ok].
  unfold hkdf32. rewrite Hr, Hw, He. done.
Qed.

(** M4 to the session keys. *)
Lemma pv_m4_done c r w :
  pv_state c = AwaitM4 -> shared_secret c = Some pv_shared ->
  hkdf_expand pv_shared CONTROL_SALT CONTROL_READ_INFO 32 = Some r ->
  hkdf_expand pv_shared CONTROL_SALT CONTROL_WRITE_INFO 32 = Some w ->
  pv_handle c (push_u8 [] STATE STATE_M4) =
    (Ok (PvDone {| sk_read_key := r; sk_write_key := w |}), pv_set c (Some pv_shared) VerifyDone).
Proof.
  intros Hs Hsh Hr Hw. unfold pv_handle. rewrite Hs. unfold pv_handle_m4, push_u8.
  rewrite parse_items1 by done. cbn [map_err mbind result_bind].
  set (m := from_items [(STATE, le_bytes 1 STATE_M4)]).
  change (pv_check_error m) with (Ok (E:=CryptoError) ()). cbn [mbind result_bind].
  change (pv_expect_state m STATE_M4) with (Ok (E:=CryptoError) ()). cbn [mbind result_bind].
  rewrite Hsh. cbn [ok_or mbind result_bind]. unfold derive_key, hkdf_sha512. by rewrite Hr, Hw.
Qed.
End verify.
End interop.

(** *** Message sizes *)

(** Identifiers short enough for the pairing messages to fit 512 bytes. *)
Definition short_id (id : bytes) : Prop := length id <= 255.

Lemma short_id_ok id : short_id id -> id_ok id.
Proof. unfold short_id, id_ok. lia. Qed.

Lemma open_length `{CryptoLaws} key n ct pt : aead_open key n [] ct = Some pt -> length ct = length pt + 16.
Proof. intros Ho%aead_seal_open. by apply aead_seal_length in Ho. Qed.

(** Sizes of the sub-TLVs the two sides seal. *)
Lemma length_id_sig id sig :
  short_id id -> length sig = 64 -> length (push (push [] IDENTIFIER id) SIGNATURE sig) <= 325.
Proof.
  unfold short_id. intros Hid Hs. pose proof (length_push_255 (push [] IDENTIFIER id) SIGNATURE sig).
  pose proof (length_push_255 [] IDENTIFIER id). simpl length in *. lia.
Qed.

Lemma length_id_key_sig id key sig :
  short_id id -> length key = 32 -> length sig = 64 ->
  length (push (push (push [] IDENTIFIER id) PUBLIC_KEY key) SIGNATURE sig) <= 359.
Proof.
  unfold short_id. intros Hid Hk Hs.
  pose proof (length_push_255 (push (push [] IDENTIFIER id) PUBLIC_KEY key) SIGNATURE sig).
  pose proof (length_push_255 (push [] IDENTIFIER id) PUBLIC_KEY key).
  pose proof (length_push_255 [] IDENTIFIER id). simpl length in *. lia.
Qed.

(** Sizes of the messages around them. *)
Lemma length_msg1 z ty v : length v <= 460 -> length (push (push_u8 [] STATE z) ty v) <= 512.
Proof.
  intros Hv. pose proof (length_push_255 (push_u8 [] STATE z) ty v) as Hp.
  change (length (push_u8 [] STATE z)) with 3 in Hp. lia.
Qed.

Lemma length_msg2 z (t1 t2 : byte) (v1 v2 : bytes) :
  length v1 + length v2 <= 460 -> length (push (push (push_u8 [] STATE z) t1 v1) t2 v2) <= 512.
Proof.
  intros Hv. pose proof (length_push_255 (push_u8 [] STATE z) t1 v1) as Hp.
  pose proof (length_push_255 (push (push_u8 [] STATE z) t1 v1) t2 v2).
  change (length (push_u8 [] STATE z)) with 3 in Hp. lia.
Qed.

(** *** Pair Setup, message by message *)

Section setup_interop.
Context `{HL : CryptoLaws} `{HB : BigUintLaws}.

Lemma ps_client_shape code ctl a c :
  new_with_private code ctl a = Ok c ->
  exists g, hap_group = Ok g /\ with_private g PAIR_SETUP_USERNAME (from_bytes_be a) = Ok (srp c) /\
    c = {| password := normalize_setup_code code; controller := ctl; srp := srp c; ps_state := Initial |}.
Proof.
  unfold new_with_private. intros H. bind_inv H. bind_inv H. simplify_eq. by exists a0.
Qed.

(** M1 to M2. *)
Lemma ps_m1_m2 c g code salt b :
  hap_group = Ok g ->
  let s := with_salt_and_private g PAIR_SETUP_USERNAME (normalize_setup_code code) salt (from_bytes_be b) in
  handle_setup_m1 salt b code (start c).1 =
    Ok (push (push (push_u8 [] STATE STATE_M2) SALT salt) PUBLIC_KEY (sv_b_pub_bytes s), DutAwaitingM3 s).
Proof.
  intros Hg s. unfold handle_setup_m1, start. cbn [fst]. unfold push_u8. rewrite parse_items2 by done.
  cbn [map_err mbind result_bind].
  set (m := from_items [(STATE, le_bytes 1 STATE_M1); _]).
  change (dut_expect_state m STATE_M1) with (Ok (E:=DutError) ()). cbn [mbind result_bind].
  change (get_u8 m METHOD) with (Ok (E:=Tlv8Error) (Some 0%Z)). cbn [map_err mbind result_bind].
  change (0 =? METHOD_PAIR_SETUP)%Z with true. cbv iota.
  unfold hap_srp_server_new. rewrite Hg. done.
Qed.

(** M2 to M3. *)
Lemma ps_m2_m3 c g salt bp S :
  cl_group (srp c) = g -> ps_state c = AwaitingM2 -> (0 <= bp)%Z ->
  premaster (srp c) salt (password c) bp = Ok S ->
  let K := cl_session_key (srp c) S in
  let m1 := cl_proof_m1 (srp c) salt bp K in
  handle c (push (push (push_u8 [] STATE STATE_M2) SALT salt) PUBLIC_KEY (pad g bp)) =
    (Ok (Send (push (push (push_u8 [] STATE STATE_M3) PUBLIC_KEY (a_pub_bytes (srp c))) PROOF m1)),
     set_state c (AwaitingM4 K m1)).
Proof using HB.
  intros Hg Hs HB0 HS K m1. unfold handle, push_u8. rewrite parse_items3 by done.
  cbn [map_err mbind result_bind]. set (m := from_items [(STATE, le_bytes 1 STATE_M2); _; _]).
  change (ps_check_error m) with (Ok (E:=CryptoError) ()). cbn [mbind result_bind]. rewrite Hs.
  unfold ps_handle_m2. change (ps_expect_state m STATE_M2) with (Ok (E:=CryptoError) ()).
  cbn [mbind result_bind]. change (get m SALT) with (Some salt). cbn [ok_or mbind result_bind].
  change (get m PUBLIC_KEY) with (Some (pad g bp)). cbn [ok_or mbind result_bind].
  rewrite from_pad, HS by done. done.
Qed.

(** M3 to M4. *)
Lemma ps_m3_m4 s A K m1 m2 :
  (0 <= A)%Z -> sv_session_key s A = Ok K -> sv_verify_m1_prove_m2 s A K m1 = Ok m2 ->
  handle_setup_m3 s (push (push (push_u8 [] STATE STATE_M3) PUBLIC_KEY (pad (sv_group s) A)) PROOF m1) =
    Ok (push (push_u8 [] STATE STATE_M4) PROOF m2, Some K).
Proof using HB.
  intros HA HK Hm. unfold handle_setup_m3, push_u8. rewrite parse_items3 by done.
  cbn [map_err mbind result_bind]. set (m := from_items [(STATE, le_bytes 1 STATE_M3); _; _]).
  change (dut_expect_state m STATE_M3) with (Ok (E:=DutError) ()). cbn [mbind result_bind].
  change (get m PUBLIC_KEY) with (Some (pad (sv_group s) A)). cbn [ok_or mbind result_bind].
  change (get m PROOF) with (Some m1). cbn [ok_or mbind result_bind].
  unfold hap_session_key, hap_verify_m1_prove_m2. rewrite from_pad, HK by done.
  cbn [mbind result_bind]. by rewrite Hm.
Qed.

(** M4 to M5. *)
Lemma ps_m4_m5 c K m1 m2 :
  ps_state c = AwaitingM4 K m1 -> verify_m2 (srp c) m1 K m2 = Ok () -> id_ok (kp_id (controller c)) ->
  exists enc x ct,
    hkdf_expand K ENCRYPT_SALT ENCRYPT_INFO 32 = Some enc /\
    hkdf_expand K CONTROLLER_SIGN_SALT CONTROLLER_SIGN_INFO 32 = Some x /\
    aead_open enc (hap_nonce NONCE_M5) [] ct =
      Some (push (push (push [] IDENTIFIER (kp_id (controller c))) PUBLIC_KEY (ltpk (controller c)))
              SIGNATURE (sign (controller c) (x ++ kp_id (controller c) ++ ltpk (controller c)))) /\
    handle c (push (push_u8 [] STATE STATE_M4) PROOF m2) =
      (Ok (Send (push (push_u8 [] STATE STATE_M5) ENCRYPTED_DATA ct)), set_state c (AwaitingM6 K)).
Proof using HL.
  intros Hs Hv Hid.
  destruct (hkdf_32 K ENCRYPT_SALT ENCRYPT_INFO) as (enc & Henc & _).
  destruct (hkdf_32 K CONTROLLER_SIGN_SALT CONTROLLER_SIGN_INFO) as (x & Hx & _).
  destruct (seal_open_tlv enc (hap_nonce NONCE_M5)
    (push (push (push [] IDENTIFIER (kp_id (controller c))) PUBLIC_KEY (ltpk (controller c)))
       SIGNATURE (sign (controller c) (x ++ kp_id (controller c) ++ ltpk (controller c))))) as (ct & Hct & Ho).
  { apply id_key_sig_small; [done|apply ed_public_length|apply ed_sign_length]. }
  exists enc, x, ct. do 3 (split; [done|]).
  unfold handle, push_u8. rewrite parse_items2 by done.
  cbn [map_err mbind result_bind]. set (m := from_items [(STATE, le_bytes 1 STATE_M4); _]).
  change (ps_check_error m) with (Ok (E:=CryptoError) ()). cbn [mbind result_bind]. rewrite Hs.
  unfold ps_handle_m4. change (ps_expect_state m STATE_M4) with (Ok (E:=CryptoError) ()).
  cbn [mbind result_bind]. rewrite Hs. change (get m PROOF) with (Some m2). cbn [ok_or mbind result_bind].
  rewrite Hv. cbn [mbind result_bind]. unfold hkdf_sha512, encrypt. rewrite Henc, Hx.
  cbn [ok_or mbind result_bind]. by rewrite Hct.
Qed.

(** M5 to M6. *)
Lemma ps_m5_m6 K ctl acc acc_id enc x ct :
  hkdf_expand K ENCRYPT_SALT ENCRYPT_INFO 32 = Some enc ->
  hkdf_expand K CONTROLLER_SIGN_SALT CONTROLLER_SIGN_INFO 32 = Some x ->
  aead_open enc (hap_nonce NONCE_M5) [] ct =
    Some (push (push (push [] IDENTIFIER (kp_id ctl)) PUBLIC_KEY (ltpk ctl))
            SIGNATURE (sign ctl (x ++ kp_id ctl ++ ltpk ctl))) ->
  is_Some (from_utf8 (kp_id ctl)) -> id_ok acc_id ->
  exists y ct6,
    hkdf_expand K ACCESSORY_SIGN_SALT ACCESSORY_SIGN_INFO 32 = Some y /\
    aead_open enc (hap_nonce NONCE_M6) [] ct6 =
      Some (push (push (push [] IDENTIFIER acc_id) PUBLIC_KEY (ltpk acc))
              SIGNATURE (sign acc (y ++ acc_id ++ ltpk acc))) /\
    handle_setup_m5 K acc acc_id (push (push_u8 [] STATE STATE_M5) ENCRYPTED_DATA ct) =
      Ok (push (push_u8 [] STATE STATE_M6) ENCRYPTED_DATA ct6, Some (kp_id ctl, ltpk ctl)).
Proof using HL.
  intros Henc Hx Ho [id Hid] Haid.
  destruct (hkdf_32 K ACCESSORY_SIGN_SALT ACCESSORY_SIGN_INFO) as (y & Hy & _).
  destruct (seal_open_tlv enc (hap_nonce NONCE_M6)
    (push (push (push [] IDENTIFIER acc_id) PUBLIC_KEY (ltpk acc))
       SIGNATURE (sign acc (y ++ acc_id ++ ltpk acc)))) as (ct6 & Hct & Ho6).
  { apply id_key_sig_small; [done|apply ed_public_length|apply ed_sign_length]. }
  exists y, ct6. do 2 (split; [done|]).
  unfold handle_setup_m5. dut_consts. unfold push_u8. rewrite parse_items2 by done.
  cbn [map_err mbind result_bind]. set (m := from_items [(STATE, le_bytes 1 STATE_M5); _]).
  change (dut_expect_state m STATE_M5) with (Ok (E:=DutError) ()). cbn [mbind result_bind].
  change (get m ENCRYPTED_DATA) with (Some ct). cbn [ok_or mbind result_bind].
  unfold hkdf32. rewrite Henc. cbn [ok_or mbind result_bind].
  unfold chacha20poly1305_open, decrypt. rewrite Ho. cbn [ok_or]. rewrite parse_items3 by done.
  cbn [map_err mbind result_bind]. set (sub := from_items [(IDENTIFIER, kp_id ctl); _; _]).
  change (get sub IDENTIFIER) with (Some (kp_id ctl)). cbn [ok_or mbind result_bind].
  change (get sub PUBLIC_KEY) with (Some (ltpk ctl)). rewrite array_ok_ok by apply ed_public_length.
  change (get sub SIGNATURE) with (Some (sign ctl (x ++ kp_id ctl ++ ltpk ctl))).
  rewrite array_ok_ok by apply ed_sign_length. rewrite Hx. cbn [ok_or mbind result_bind].
  unfold sign, ltpk in *. rewrite sign_verifies. cbn [is_ok negb].
  rewrite bool_decide_false by (by rewrite Hid). rewrite Hy. cbn [ok_or mbind result_bind].
  unfold chacha20poly1305_seal, encrypt. rewrite Hct. done.
Qed.

(** M6 to the pairing. *)
Lemma ps_m6_done c K acc acc_id enc y ct6 :
  ps_state c = AwaitingM6 K ->
  hkdf_expand K ENCRYPT_SALT ENCRYPT_INFO 32 = Some enc ->
  hkdf_expand K ACCESSORY_SIGN_SALT ACCESSORY_SIGN_INFO 32 = Some y ->
  aead_open enc (hap_nonce NONCE_M6) [] ct6 =
    Some (push (push (push [] IDENTIFIER acc_id) PUBLIC_KEY (ltpk acc))
            SIGNATURE (sign acc (y ++ acc_id ++ ltpk acc))) ->
  is_Some (from_utf8 acc_id) ->
  handle c (push (push_u8 [] STATE STATE_M6) ENCRYPTED_DATA ct6) =
    (Ok (Done {| pairing_id := acc_id; ap_ltpk := ltpk acc |}), set_state c SetupDone).
Proof using HL.
  intros Hs Henc Hy Ho [id Hid]. unfold handle, push_u8. rewrite parse_items2 by done.
  cbn [map_err mbind result_bind]. set (m := from_items [(STATE, le_bytes 1 STATE_M6); _]).
  change (ps_check_error m) with (Ok (E:=CryptoError) ()). cbn [mbind result_bind]. rewrite Hs.
  unfold ps_handle_m6. change (ps_expect_state m STATE_M6) with (Ok (E:=CryptoError) ()). rewrite Hs.
  f_equal. unfold ps_finish_m6. change (get m ENCRYPTED_DATA) with (Some ct6).
  cbn [ok_or mbind result_bind]. unfold hkdf_sha512, decrypt. rewrite Henc. cbn [ok_or mbind result_bind].
  rewrite Ho. cbn [ok_or mbind result_bind]. rewrite parse_items3 by done. cbn [map_err mbind result_bind].
  set (sub := from_items [(IDENTIFIER, acc_id); _; _]).
  change (get sub IDENTIFIER) with (Some acc_id). cbn [ok_or mbind result_bind].
  change (get sub PUBLIC_KEY) with (Some (ltpk acc)). cbn [ok_or mbind result_bind].
  change (get sub SIGNATURE) with (Some (sign acc (y ++ acc_id ++ ltpk acc))). cbn [ok_or mbind result_bind].
  rewrite (try_array_ok 32) by apply ed_public_length. cbn [mbind result_bind].
  rewrite (try_array_ok 64) by apply ed_sign_length. cbn [mbind result_bind].
  rewrite Hid, Hy. cbn [ok_or mbind result_bind]. unfold sign, ltpk. by rewrite sign_verifies.
Qed.
Lemma length_pad_hap g v :
  modulus g = be_Z HAP_N_3072 -> n_len g = 384 -> (0 <= v < modulus g)%Z -> length (pad g v) = 384.
Proof using HB.
  intros HN Hl Hv. unfold pad. rewrite Hl. apply length_pad_be; [|lia].
  rewrite HN in Hv. split; [lia|]. etransitivity; [apply Hv|]. by vm_compute.
Qed.

(** The whole exchange, with the messages and what the sealed ones hold. *)
Lemma ps_messages code_c code_a ctl acc acc_id a salt b c0 g :
  new_with_private code_c ctl a = Ok c0 -> hap_group = Ok g ->
  normalize_setup_code code_c = normalize_setup_code code_a ->
  id_ok (kp_id ctl) -> id_ok acc_id -> is_Some (from_utf8 (kp_id ctl)) -> is_Some (from_utf8 acc_id) ->
  let s := with_salt_and_private g PAIR_SETUP_USERNAME (normalize_setup_code code_a) salt (from_bytes_be b) in
  (sv_b_pub s mod modulus g <> 0)%Z -> (compute_u g (cl_a_pub (srp c0)) (sv_b_pub s) <> 0)%Z ->
  exists K m1 enc x ct5 y ct6 c5 c7,
    let m2 := push (push (push_u8 [] STATE STATE_M2) SALT salt) PUBLIC_KEY (sv_b_pub_bytes s) in
    let m3 := push (push (push_u8 [] STATE STATE_M3) PUBLIC_KEY (a_pub_bytes (srp c0))) PROOF m1 in
    let m4 := push (push_u8 [] STATE STATE_M4) PROOF (proof_m2 g (cl_a_pub (srp c0)) m1 K) in
    let m5 := push (push_u8 [] STATE STATE_M5) ENCRYPTED_DATA ct5 in
    let m6 := push (push_u8 [] STATE STATE_M6) ENCRYPTED_DATA ct6 in
    length m1 = 64 /\ length (sv_b_pub_bytes s) = 384 /\ length (a_pub_bytes (srp c0)) = 384 /\
    aead_open enc (hap_nonce NONCE_M5) [] ct5 =
      Some (push (push (push [] IDENTIFIER (kp_id ctl)) PUBLIC_KEY (ltpk ctl))
              SIGNATURE (sign ctl (x ++ kp_id ctl ++ ltpk ctl))) /\
    aead_open enc (hap_nonce NONCE_M6) [] ct6 =
      Some (push (push (push [] IDENTIFIER acc_id) PUBLIC_KEY (ltpk acc))
              SIGNATURE (sign acc (y ++ acc_id ++ ltpk acc))) /\
    handle_setup_m1 salt b code_a (start c0).1 = Ok (m2, DutAwaitingM3 s) /\
    handle (start c0).2 m2 = (Ok (Send m3), set_state (start c0).2 (AwaitingM4 K m1)) /\
    handle_setup_m3 s m3 = Ok (m4, Some K) /\
    handle (set_state (start c0).2 (AwaitingM4 K m1)) m4 = (Ok (Send m5), c5) /\
    handle_setup_m5 K acc acc_id m5 = Ok (m6, Some (kp_id ctl, ltpk ctl)) /\
    handle c5 m6 = (Ok (Done {| pairing_id := acc_id; ap_ltpk := ltpk acc |}), c7).
Proof using HL HB.
  intros Hnew Hg Hcode Hc Ha Huc Hua s HB0 Hu.
  destruct (ps_client_shape _ _ _ _ Hnew) as (g' & Hg' & Hwp & Hc0).
  rewrite Hg in Hg'. injection Hg' as <-.
  assert (controller c0 = ctl) as Hctl by (by rewrite Hc0).
  destruct hap_group_ok as (g' & Hg' & HN & Hgen & Hlen). rewrite Hg in Hg'. injection Hg' as <-.
  assert (0 < modulus g)%Z as HNpos by (rewrite HN; by vm_compute).
  destruct (with_private_group _ _ _ _ Hwp) as (Hcg & Hcu & Hca & Hcp).
  assert (0 <= sv_b_pub s)%Z as HBn by (apply Z.mod_pos_bound; lia).
  assert (0 <= cl_a_pub (srp c0))%Z as HAn
    by (rewrite Hcp; apply modpow_range; [lia|apply from_bytes_be_nonneg|done]).
  destruct (srp_agreement g PAIR_SETUP_USERNAME (normalize_setup_code code_a) salt
    (from_bytes_be a) (from_bytes_be b) (srp c0)) as (S & HS & _ & HK);
    [done|lia|apply from_bytes_be_nonneg..|done|done|done|]. fold s in HS, HK.
  assert (password c0 = normalize_setup_code code_a) as Hpw by (by rewrite Hc0).
  pose proof (ps_m1_m2 c0 g code_a salt b Hg) as H1. fold s in H1.
  pose proof (ps_m2_m3 (start c0).2 g salt (sv_b_pub s) S Hcg eq_refl HBn) as H2.
  cbn [start snd set_state password srp] in H2. rewrite Hpw in H2. specialize (H2 HS). cbv zeta in H2.
  set (K := cl_session_key (srp c0) S) in *. set (m1 := cl_proof_m1 (srp c0) salt (sv_b_pub s) K) in *.
  assert (sv_verify_m1_prove_m2 s (cl_a_pub (srp c0)) K m1 = Ok (proof_m2 g (cl_a_pub (srp c0)) m1 K)) as Hm1.
  { unfold sv_verify_m1_prove_m2, m1, cl_proof_m1. rewrite Hcg, Hcu.
    subst s. cbn [with_salt_and_private sv_group sv_username sv_salt]. by rewrite ct_eq_refl. }
  pose proof (ps_m3_m4 s (cl_a_pub (srp c0)) K m1 _ HAn HK Hm1) as H3.
  destruct (ps_m4_m5 (set_state (start c0).2 (AwaitingM4 K m1)) K m1 (proof_m2 g (cl_a_pub (srp c0)) m1 K))
    as (enc & x & ct & Henc & Hx & Ho & H4); [done| |by rewrite <- Hctl in Hc|].
  { cbn. unfold verify_m2, expected_m2. by rewrite Hcg, ct_eq_refl. }
  cbn [start snd set_state controller] in Ho. rewrite Hctl in Ho.
  destruct (ps_m5_m6 K ctl acc acc_id enc x ct Henc Hx Ho Huc Ha) as (y & ct6 & Hy & Ho6 & H5).
  pose proof (ps_m6_done (set_state (set_state (start c0).2 (AwaitingM4 K m1)) (AwaitingM6 K))
    K acc acc_id enc y ct6 eq_refl Henc Hy Ho6 Hua) as H6.
  eexists K, m1, enc, x, ct, y, ct6, _, _. cbv zeta.
  split; [apply sha512_length|].
  split; [apply (length_pad_hap g); [done..|apply Z.mod_pos_bound; lia]|]. split; [unfold a_pub_bytes; rewrite Hcg, Hcp; apply length_pad_hap; [done..|];
    apply modpow_range; [lia|apply from_bytes_be_nonneg|done]|].
  split; [exact Ho|]. split; [exact Ho6|].
  split; [exact H1|]. split; [exact H2|].
  unfold a_pub_bytes. rewrite Hcg. split; [exact H3|]. split; [exact H4|]. split; [exact H5|exact H6].
Qed.
End setup_interop.

(** * Properties *)

(** C14: Pair Verify interoperates.  A controller that stores the accessory's
    pairing, and an accessory that stores the controller's, complete the
    exchange whatever their ephemeral secrets: the accessory accepts, and the
    controller's read, write and event keys are the accessory's. *)
Theorem pair_verify_interop `{CryptoLaws} ctl acc acc_id secret_c secret_a :
  id_ok (kp_id ctl) -> id_ok acc_id ->
  let c0 := new_with_ephemeral ctl {| pairing_id := acc_id; ap_ltpk := ltpk acc |} secret_c in
  let '(m1, c1) := pv_start c0 in
  exists m2 progress m3 c2 m4 session keys c3,
    handle_m1 secret_a acc acc_id m1 = Ok (m2, progress) /\
    pv_handle c1 m2 = (Ok (PvSend m3), c2) /\
    handle_m3 progress (kp_id ctl) (ltpk ctl) m3 = Ok (m4, Some session) /\
    pv_handle c2 m4 = (Ok (PvDone keys), c3) /\
    sk_read_key keys = as_read_key session /\ sk_write_key keys = as_write_key session /\
    event_key c3 = Ok (as_event_key session).
Proof.
  intros Hc Ha c0. pose proof (pv_m1_m2 ctl acc acc_id secret_c secret_a Ha) as (key & ct & Hk & Ho & H1).
  destruct (pv_m2_m3 ctl acc acc_id secret_c secret_a Hc key ct Hk Ho) as (ct3 & Ho3 & H2).
  destruct (pv_m3_m4 ctl secret_c secret_a key ct3 Ho3) as (r & w & e & Hr & Hw & He & H3).
  unfold pv_client0, pv_pairing in H1, H2. fold c0 in H1, H2.
  destruct (pv_start c0) as [m1 c1] eqn:Es. cbn [fst snd] in H1, H2.
  eexists _, _, _, _, _, _, _, _. split; [exact H1|]. split; [exact H2|]. split; [exact H3|].
  split; [by eapply pv_m4_done|]. do 2 (split; [done|]).
  unfold event_key. cbn [pv_set shared_secret ok_or mbind result_bind]. unfold derive_key, hkdf_sha512. by rewrite He.
Qed.

Lemma pair_verify_interop_witness :
  let ctl := from_seed (str "ctl") [x05] in let acc := from_seed [] [x09] in
  let '(m1, c1) := pv_start (new_with_ephemeral ctl {| pairing_id := str "AA:BB"; ap_ltpk := ltpk acc |} [x03]) in
  exists m2 progress m3 c2 m4 session keys c3,
    handle_m1 [x07] acc (str "AA:BB") m1 = Ok (m2, progress) /\
    pv_handle c1 m2 = (Ok (PvSend m3), c2) /\
    handle_m3 progress (kp_id ctl) (ltpk ctl) m3 = Ok (m4, Some session) /\
    pv_handle c2 m4 = (Ok (PvDone keys), c3) /\
    sk_read_key keys = as_read_key session /\ sk_write_key keys = as_write_key session /\
    event_key c3 = Ok (as_event_key session).
Proof. by apply (pair_verify_interop (H := toy_crypto_laws)). Defined.

(** C1: Pair Setup interoperates.  A controller and an accessory whose setup codes
    normalise to the same code complete the six messages: the controller ends with
    the accessory's identifier and long-term key, and the accessory with the
    controller's.  (The two SRP conditions are the parameter checks both sides
    make: [B] and the scrambler are not zero.) *)
Theorem pair_setup_interop `{CryptoLaws} `{BigUintLaws} code_c code_a ctl acc acc_id a salt b c0 g :
  new_with_private code_c ctl a = Ok c0 -> hap_group = Ok g ->
  normalize_setup_code code_c = normalize_setup_code code_a ->
  id_ok (kp_id ctl) -> id_ok acc_id -> is_Some (from_utf8 (kp_id ctl)) -> is_Some (from_utf8 acc_id) ->
  let s := with_salt_and_private g PAIR_SETUP_USERNAME (normalize_setup_code code_a) salt (from_bytes_be b) in
  (sv_b_pub s mod modulus g <> 0)%Z -> (compute_u g (cl_a_pub (srp c0)) (sv_b_pub s) <> 0)%Z ->
  let '(m1, c1) := start c0 in
  exists m2 m3 c3 m4 K m5 c5 m6 c7,
    handle_setup_m1 salt b code_a m1 = Ok (m2, DutAwaitingM3 s) /\
    handle c1 m2 = (Ok (Send m3), c3) /\
    handle_setup_m3 s m3 = Ok (m4, Some K) /\
    handle c3 m4 = (Ok (Send m5), c5) /\
    handle_setup_m5 K acc acc_id m5 = Ok (m6, Some (kp_id ctl, ltpk ctl)) /\
    handle c5 m6 = (Ok (Done {| pairing_id := acc_id; ap_ltpk := ltpk acc |}), c7).
Proof.
  intros Hnew Hg Hcode Hc Ha Huc Hua s HB0 Hu.
  destruct (ps_messages code_c code_a ctl acc acc_id a salt b c0 g Hnew Hg Hcode Hc Ha Huc Hua HB0 Hu)
    as (K & m1 & enc & x & ct5 & y & ct6 & c5 & c7 & _ & _ & _ & _ & _ & Hm).
  destruct (start c0) as [m0 c1]. eexists _, _, _, _, _, _, _, _, _. exact Hm.
Qed.

Definition hap_client : SrpClient :=
  {| cl_group := {| modulus := be_Z HAP_N_3072; generator := 5; n_len := 384 |};
     cl_username := PAIR_SETUP_USERNAME; cl_a := 7; cl_a_pub := 78125 |}.

Definition demo_client0 (ctl : ControllerKeypair) : PairSetupClient :=
  {| password := str "123-45-678"; controller := ctl; srp := hap_client; ps_state := Initial |}.

(** The SRP parameter checks at concrete values in the HAP group. *)
Lemma demo_setup_params ctl :
  let g := cl_group hap_client in
  let s := with_salt_and_private (C := toy_crypto) (B := std_biguint) g PAIR_SETUP_USERNAME
             (normalize_setup_code (str "12345678")) [x01] (from_bytes_be [x03]) in
  new_with_private (str "123-45-678") ctl [x07] = Ok (demo_client0 ctl) /\ hap_group = Ok g /\
  (sv_b_pub s mod modulus g <> 0)%Z /\ (compute_u g (cl_a_pub hap_client) (sv_b_pub s) <> 0)%Z.
Proof. split; [by vm_compute|]. split; [by vm_compute|]. split; by vm_compute. Qed.

Lemma pair_setup_interop_witness :
  let ctl := from_seed (str "ctl") [x05] in let acc := from_seed [] [x09] in
  let g := cl_group hap_client in
  let s := with_salt_and_private g PAIR_SETUP_USERNAME (normalize_setup_code (str "12345678")) [x01] (from_bytes_be [x03]) in
  let c0 := demo_client0 ctl in
  let '(m1, c1) := start c0 in
  exists m2 m3 c3 m4 K m5 c5 m6 c7,
    handle_setup_m1 [x01] [x03] (str "12345678") m1 = Ok (m2, DutAwaitingM3 s) /\
    handle c1 m2 = (Ok (Send m3), c3) /\
    handle_setup_m3 s m3 = Ok (m4, Some K) /\
    handle c3 m4 = (Ok (Send m5), c5) /\
    handle_setup_m5 K acc (str "AA:BB") m5 = Ok (m6, Some (kp_id ctl, ltpk ctl)) /\
    handle c5 m6 = (Ok (Done {| pairing_id := str "AA:BB"; ap_ltpk := ltpk acc |}), c7).
Proof.
  destruct (demo_setup_params (from_seed (str "ctl") [x05])) as (Hnew & Hg & HB & Hu).
  apply (pair_setup_interop (H := toy_crypto_laws) (H0 := std_biguint_laws) (str "123-45-678") (str "12345678")
           (from_seed (str "ctl") [x05]) (from_seed [] [x09]) (str "AA:BB") [x07] [x01] [x03]
           (demo_client0 (from_seed (str "ctl") [x05])) (cl_group hap_client)).
  - exact Hnew.
  - exact Hg.
  - by vm_compute.
  - by vm_compute.
  - by vm_compute.
  - by eexists.
  - by eexists.
  - exact HB.
  - exact Hu.
Defined.
