(* ===== verification/ThreadPdu.v ===== *)
(** * [hap-thread/src/{error,pdu}.rs], [hap-thread-dut/src/pdu.rs]: HAP PDUs over CoAP

    The binary request, response and event records exchanged on the secure
    resource: the controller's encoders and decoders and the accessory's.  The
    theorems show that each side reads exactly the batch the other wrote, that the
    controller accepts only position-aligned batches, and that no decoder panics or
    loops on any input. *)

From S2P Require Import Model.
From S2P Require Import Prelude Text Tlv8 Crypto DutPairing.

(** ** [ThreadError]

    [ThModel] holds the model error whose text the code keeps. *)

Inductive ThreadError :=
| ThIo (code : Z)
| Coap (msg : string)
| CoapCode (code : list Z)
| Mdns (msg : string)
| DiscoveryTxt (key : string)
| MalformedPdu (why : string)
| PduStatus (status : Z)
| SessionExpired
| ThCrypto (e : CryptoError)
| ThTlv8 (e : Tlv8Error)
| ThModel (e : ModelError)
| ThStore (msg : string).

(** ** The record loop

    All three decoders walk a buffer with the loop
    [while off < buf.len() { let rest = &buf[off..]; .. out.push(x); off += n }]:
    [one k rest] decodes the [k]-th record from the front of [rest]. *)

Section records.
Context {E A : Type} (one : nat -> bytes -> result E (A * nat)).

Definition records_body (buf : bytes) (st : list A * nat)
    : result E (flow (list A * nat) (list A)) :=
  let '(out, off) := st in
  if off <? length buf then
    rest ← slice buf off (length buf);
    r ← one (length out) rest;
    let '(x, n) := r in Ok (Continue (out ++ [x], off + n))
  else Ok (Break out).

Definition records (buf : bytes) : result E (list A) :=
  loop (S (length buf)) (records_body buf) ([], 0).
End records.

(** ** Controller side ([hap-thread/src/pdu.rs]) *)

Inductive OpCode :=
| CharSigRead | CharWrite | CharRead | CharTimedWrite | CharExecWrite | ServSigRead
| ReadDatabase | Subscribe | Unsubscribe.

Definition op_u8 (op : OpCode) : Z :=
  match op with
  | CharSigRead => 0x01 | CharWrite => 0x02 | CharRead => 0x03 | CharTimedWrite => 0x04
  | CharExecWrite => 0x05 | ServSigRead => 0x06 | ReadDatabase => 0x09
  | Subscribe => 0x0B | Unsubscribe => 0x0C
  end.

Definition VALUE : byte := x01.
Definition RESPONSE_HEADER_LEN : nat := 5.

(** [Tlv8Map::get(VALUE).map(to_vec).unwrap_or_default()] of a body. *)
Definition value_or_empty (map : Tlv8Map) : bytes := default [] (get map VALUE).

Record Response := { resp_tid : Z; resp_status : Z; resp_body : bytes }.

Section encode.
Context `{Build}.

Definition pdu_encode_request (op : OpCode) (tid iid : Z) (body : bytes) : result ThreadError bytes :=
  let out := [x00] in
  let out := out ++ [Zbyte (op_u8 op)] in
  let out := out ++ [Zbyte tid] in
  let out := out ++ le_bytes 2 iid in
  _ ← debug_assert (Z.of_nat (length body) <=? U16_MAX)%Z;
  let len := sat_u16 (length body) in
  let out := out ++ le_bytes 2 len in
  Ok (out ++ body).

(** The [for] loop of [encode_all], from index [idx]. *)
Fixpoint encode_all_from (op : OpCode) (idx : nat) (out : bytes) (entries : list (Z * bytes))
    : result ThreadError bytes :=
  match entries with
  | [] => Ok out
  | (iid, body) :: entries' =>
      let tid := sat_u8 idx in
      pdu ← pdu_encode_request op tid iid body;
      encode_all_from op (S idx) (out ++ pdu) entries'
  end.

Definition encode_all (op : OpCode) (entries : list (Z * bytes)) : result ThreadError bytes :=
  _ ← debug_assert (length entries <=? 256);
  encode_all_from op 0 [] entries.
End encode.

Definition encode_value_body (value : bytes) : bytes := push [] VALUE value.

Definition response_value (self : Response) : result ThreadError bytes :=
  if bool_decide (resp_body self = []) then Ok []
  else map ← map_err ThTlv8 (map_parse (resp_body self)); Ok (value_or_empty map).

(** One turn of [decode_events]. *)
Definition decode_event (_ : nat) (rest : bytes) : result ThreadError ((Z * bytes) * nat) :=
  if length rest <? 5 then Err (MalformedPdu "event record shorter than its 5-byte header")
  else
    i0 ← index rest 1; i1 ← index rest 2;
    let iid := le_Z [i0; i1] in
    l0 ← index rest 3; l1 ← index rest 4;
    let len := Z.to_nat (le_Z [l0; l1]) in
    let end_ := 5 + len in
    if length rest <? end_ then Err (MalformedPdu "event record body shorter than declared")
    else
      body ← slice rest 5 end_;
      value ← (if bool_decide (body = []) then Ok []
               else map ← map_err ThTlv8 (map_parse body); Ok (value_or_empty map));
      Ok ((iid, value), end_).

Definition decode_events (payload : bytes) : result ThreadError (list (Z * bytes)) :=
  records decode_event payload.

Definition decode_one (pdu : bytes) : result ThreadError (Response * nat) :=
  if length pdu <? RESPONSE_HEADER_LEN then Err (MalformedPdu "response shorter than its 5-byte header")
  else
    control ← index pdu 0;
    if negb (Z.land (byteZ control) 14 =? 2)%Z
    then Err (MalformedPdu "control byte does not have the response bit set")
    else
      tid ← index pdu 1;
      status ← index pdu 2;
      l0 ← index pdu 3; l1 ← index pdu 4;
      let len := Z.to_nat (le_Z [l0; l1]) in
      end_ ← ok_or (checked_add RESPONSE_HEADER_LEN len) (MalformedPdu "response length overflow");
      if length pdu <? end_ then Err (MalformedPdu "response body shorter than declared")
      else
        body ← slice pdu RESPONSE_HEADER_LEN end_;
        Ok ({| resp_tid := byteZ tid; resp_status := byteZ status; resp_body := body |}, end_).

(** One turn of [decode_all]; [k] is [out.len()]. *)
Definition decode_all_one (k : nat) (rest : bytes) : result ThreadError (Response * nat) :=
  r ← decode_one rest;
  let '(resp, consumed) := r in
  let expected_tid := sat_u8 k in
  if negb (resp_tid resp =? expected_tid)%Z
  then Err (MalformedPdu "batched response transaction id does not match its position")
  else Ok (resp, consumed).

Definition decode_all (pdu : bytes) : result ThreadError (list Response) :=
  records decode_all_one pdu.

(** ** Accessory side ([hap-thread-dut/src/pdu.rs]) *)

Definition OP_CHAR_WRITE : Z := 0x02.
Definition OP_CHAR_READ : Z := 0x03.
Definition OP_SUBSCRIBE : Z := 0x0B.
Definition OP_UNSUBSCRIBE : Z := 0x0C.
Definition OP_READ_DATABASE : Z := 0x09.
Definition STATUS_SUCCESS : Z := 0.
Definition STATUS_UNSUPPORTED : Z := 1.
Definition STATUS_INVALID_INSTANCE_ID : Z := 4.
Definition PARAM_VALUE : byte := x01.

Record Request := { req_opcode : Z; req_tid : Z; req_iid : Z; req_body : bytes }.

Definition decode_request (_ : nat) (rest : bytes) : result DutError (Request * nat) :=
  if length rest <? 7 then Err (Protocol "request PDU shorter than its 7-byte header")
  else
    opcode ← index rest 1;
    tid ← index rest 2;
    i0 ← index rest 3; i1 ← index rest 4;
    let iid := le_Z [i0; i1] in
    l0 ← index rest 5; l1 ← index rest 6;
    let len := Z.to_nat (le_Z [l0; l1]) in
    let end_ := 7 + len in
    if length rest <? end_ then Err (Protocol "request body shorter than declared")
    else
      body ← slice rest 7 end_;
      Ok ({| req_opcode := byteZ opcode; req_tid := byteZ tid; req_iid := iid; req_body := body |}, end_).

Definition decode_requests (pdu : bytes) : result DutError (list Request) :=
  records decode_request pdu.

Definition encode_response (tid status : Z) (body : bytes) : bytes :=
  let out := [x02] in
  let out := out ++ [Zbyte tid] in
  let out := out ++ [Zbyte status] in
  let len := sat_u16 (length body) in
  let out := out ++ le_bytes 2 len in
  out ++ body.

Definition value_body (value : bytes) : bytes := push [] PARAM_VALUE value.

Definition extract_value (body : bytes) : result DutError bytes :=
  map ← map_err DutTlv8 (map_parse body);
  ok_or (get map PARAM_VALUE) (Protocol "write body missing value param").

(** * Lemmas *)

(** ** The record loop *)

Section records_lemmas.
Context {E A : Type} (one : nat -> bytes -> result E (A * nat)).

Lemma records_body_at pre rest (out : list A) :
  rest <> [] ->
  records_body one (pre ++ rest) (out, length pre) =
    (r ← one (length out) rest; let '(x, n) := r in Ok (Continue (out ++ [x], length pre + n))).
Proof.
  intros Hr. unfold records_body.
  rewrite (proj2 (Nat.ltb_lt _ _)) by (rewrite length_app; destruct rest; simpl; [done|lia]).
  rewrite slice_ok by (rewrite length_app; lia). cbn [mbind result_bind].
  rewrite drop_app_length, take_ge by (rewrite length_app; lia). done.
Qed.

Lemma records_body_end buf (out : list A) : records_body one buf (out, length buf) = Ok (Break out).
Proof. unfold records_body. by rewrite Nat.ltb_irrefl. Qed.

(** The decoder makes progress within the buffer. *)
Definition progressing : Prop :=
  forall k rest x n, one k rest = Ok (x, n) -> 0 < n.

Lemma records_measure buf st st' :
  progressing -> records_body one buf st = Ok (Continue st') ->
  length buf - st'.2 < length buf - st.2.
Proof.
  intros Hp. destruct st as [out off]. unfold records_body. destruct (Nat.ltb_spec off (length buf)); [|done].
  intros Hb. bind_inv Hb. bind_inv Hb. destruct a0 as [x n]. apply Hp in Ha0.
  simplify_eq/=. lia.
Qed.

Lemma records_eq_runs buf r :
  progressing -> runs (records_body one buf) ([], 0) r -> records one buf = r.
Proof.
  intros Hp. apply (loop_eq_runs _ (fun st => length buf - st.2) (fun _ => True)); simpl; try done; [|lia].
  intros s s' _ Hb. split; [by eapply records_measure|done].
Qed.

(** The loop terminates, and returns when its record decoder does. *)
Lemma records_returns buf :
  progressing -> (forall k rest, returns (one k rest)) -> returns (records one buf).
Proof.
  intros Hp Hr. apply (loop_returns _ (fun st => length buf - st.2) (fun _ => True)); simpl; try done; try lia.
  - intros [out off] _. unfold records_body. destruct (Nat.ltb_spec off (length buf)); [|done].
    apply returns_bind; [apply returns_slice; lia|]. intros rest _.
    apply returns_bind; [done|]. intros [x n] _. done.
  - intros s s' _ Hb. split; [by eapply records_measure|done].
Qed.

(** A buffer of back-to-back records decodes to exactly those records. *)
Lemma records_runs_concat pre out (encs : list (A * bytes)) :
  (forall i x e, encs !! i = Some (x, e) ->
     e <> [] /\ forall rest, one (length out + i) (e ++ rest) = Ok (x, length e)) ->
  runs (records_body one (pre ++ mjoin encs.*2)) (out, length pre) (Ok (out ++ encs.*1)).
Proof.
  revert pre out. induction encs as [|[x e] encs IH]; intros pre out Henc; csimpl.
  { rewrite !app_nil_r. apply runs_break, records_body_end. }
  destruct (Henc 0 x e eq_refl) as [Hne H1].
  eapply runs_continue.
  { rewrite records_body_at by (by destruct e). rewrite Nat.add_0_r in H1. rewrite H1. done. }
  rewrite app_assoc, <- length_app.
  replace (out ++ x :: encs.*1) with ((out ++ [x]) ++ encs.*1) by (by rewrite <- app_assoc).
  apply IH. intros i y e' Hi. destruct (Henc (S i) y e' Hi) as [? H2]. split; [done|].
  intros rest. rewrite length_app. simpl. by replace (length out + 1 + i) with (length out + S i) by lia.
Qed.

Lemma records_concat (encs : list (A * bytes)) :
  progressing ->
  (forall i x e, encs !! i = Some (x, e) -> e <> [] /\ forall rest, one i (e ++ rest) = Ok (x, length e)) ->
  records one (mjoin encs.*2) = Ok encs.*1.
Proof. intros Hp He. apply records_eq_runs; [done|]. by apply (records_runs_concat [] []). Qed.

(** What every decoded record satisfies. *)
Lemma records_forall buf out (P : nat -> A -> Prop) :
  (forall k rest x n, one k rest = Ok (x, n) -> P k x) ->
  records one buf = Ok out -> forall i x, out !! i = Some x -> P i x.
Proof.
  intros HP. unfold records.
  apply (loop_invariant _ (fun st => forall i x, st.1 !! i = Some x -> P i x)
           (fun out => forall i x, out !! i = Some x -> P i x)); [| |done].
  - intros [o off] s' HI Hb i x. unfold records_body in Hb.
    destruct (Nat.ltb_spec off (length buf)); [|done].
    bind_inv Hb. bind_inv Hb. destruct a0 as [y n]. simplify_eq/=.
    intros [?|[Hi Hx]]%lookup_app_Some; [by eapply HI|].
    apply list_lookup_singleton_Some in Hx as [Hi0 ->].
    replace i with (length o) by lia. by eapply HP.
  - intros [o off] r HI Hb. unfold records_body in Hb.
    destruct (Nat.ltb_spec off (length buf)); [|by simplify_eq].
    bind_inv Hb. bind_inv Hb. by destruct a0.
Qed.
End records_lemmas.

(** ** Headers *)

(** A request PDU, its header bytes spelled out. *)
Lemma decode_request_spec k op tid iid (body rest : bytes) l0 l1 i0 i1 :
  in_u 8 op -> in_u 8 tid -> le_Z [i0; i1] = iid -> Z.to_nat (le_Z [l0; l1]) = length body ->
  decode_request k ([x00; Zbyte op; Zbyte tid; i0; i1; l0; l1] ++ body ++ rest) =
    Ok ({| req_opcode := op; req_tid := tid; req_iid := iid; req_body := body |}, 7 + length body).
Proof.
  intros Hop Htid Hi Hl. unfold decode_request.
  rewrite (proj2 (Nat.ltb_ge _ _)) by (rewrite !length_app; simpl; lia).
  cbn [app index lookup list_lookup mbind result_bind]. rewrite Hl.
  rewrite (proj2 (Nat.ltb_ge _ _)) by (simpl; rewrite length_app; lia).
  rewrite (slice_app_mid [x00; Zbyte op; Zbyte tid; i0; i1; l0; l1] body rest) by done.
  cbn [mbind result_bind]. by rewrite Hi, !byteZ_u8.
Qed.

Lemma decode_one_spec tid status (body rest : bytes) l0 l1 :
  in_u 8 tid -> in_u 8 status -> Z.to_nat (le_Z [l0; l1]) = length body ->
  decode_one ([x02; Zbyte tid; Zbyte status; l0; l1] ++ body ++ rest) =
    Ok ({| resp_tid := tid; resp_status := status; resp_body := body |}, 5 + length body).
Proof.
  intros Ht Hs Hl. unfold decode_one, RESPONSE_HEADER_LEN.
  rewrite (proj2 (Nat.ltb_ge _ _)) by (rewrite !length_app; simpl; lia).
  cbn [app index lookup list_lookup mbind result_bind]. change (negb (Z.land (byteZ x02) 14 =? 2)%Z) with false.
  cbn beta iota zeta. unfold checked_add. rewrite Hl. cbn [ok_or mbind result_bind].
  rewrite (proj2 (Nat.ltb_ge _ _)) by (simpl; rewrite length_app; lia).
  rewrite (slice_app_mid [x02; Zbyte tid; Zbyte status; l0; l1] body rest) by done.
  cbn [mbind result_bind]. by rewrite !byteZ_u8.
Qed.

Lemma decode_event_spec k iid (value rest : bytes) l0 l1 i0 i1 :
  le_Z [i0; i1] = iid -> Z.to_nat (le_Z [l0; l1]) = length (value_body value) ->
  decode_event k ([x00; i0; i1; l0; l1] ++ value_body value ++ rest) =
    Ok ((iid, value), 5 + length (value_body value)).
Proof.
  intros Hi Hl. unfold decode_event.
  rewrite (proj2 (Nat.ltb_ge _ _)) by (rewrite !length_app; simpl; lia).
  cbn [app index lookup list_lookup mbind result_bind]. rewrite Hl.
  rewrite (proj2 (Nat.ltb_ge _ _)) by (simpl; rewrite length_app; lia).
  rewrite (slice_app_mid [x00; i0; i1; l0; l1] (value_body value) rest) by done.
  cbn [mbind result_bind].
  rewrite bool_decide_false.
  2:{ unfold value_body. intros Hn. pose proof (parse_items1 PARAM_VALUE value ltac:(done)) as Hp.
      rewrite Hn in Hp. done. }
  unfold value_body. rewrite parse_items1 by done. cbn [map_err mbind result_bind].
  by rewrite Hi.
Qed.

Lemma decode_one_progress rest r n : decode_one rest = Ok (r, n) -> 5 <= n.
Proof.
  unfold decode_one, RESPONSE_HEADER_LEN, checked_add. intros H. repeat (case_match; try done).
  repeat (bind_inv H; repeat (case_match; try done)). simplify_eq/=. lia.
Qed.

Lemma decode_request_progressing : progressing decode_request.
Proof.
  intros k rest x n. unfold decode_request. intros H. case_match; [done|].
  repeat (bind_inv H; repeat (case_match; try done)). simplify_eq/=. lia.
Qed.

Lemma decode_event_progressing : progressing decode_event.
Proof.
  intros k rest x n. unfold decode_event. intros H. case_match; [done|].
  repeat (bind_inv H; repeat (case_match; try done)); simplify_eq/=; lia.
Qed.

Lemma decode_all_one_progressing : progressing decode_all_one.
Proof.
  intros k rest x n H. unfold decode_all_one in H. bind_inv H. destruct a as [r m].
  apply decode_one_progress in Ha. case_match; simplify_eq. lia.
Qed.

(** *** No decoder panics *)

Ltac index_returns := apply returns_index; lia.

Lemma decode_request_returns k rest : returns (decode_request k rest).
Proof.
  unfold decode_request. destruct (Nat.ltb_spec (length rest) 7); [done|].
  repeat (apply returns_bind; [index_returns|intros ? _]).
  destruct (Nat.ltb_spec (length rest) (7 + Z.to_nat (le_Z [a3; a4]))); [done|].
  apply returns_bind; [apply returns_slice; lia|]. done.
Qed.

Lemma decode_event_returns k rest : returns (decode_event k rest).
Proof.
  unfold decode_event. destruct (Nat.ltb_spec (length rest) 5); [done|].
  repeat (apply returns_bind; [index_returns|intros ? _]).
  destruct (Nat.ltb_spec (length rest) (5 + Z.to_nat (le_Z [a1; a2]))); [done|].
  apply returns_bind; [apply returns_slice; lia|]. intros body _.
  apply returns_bind; [|done]. case_match; [done|].
  apply returns_bind; [|done]. apply returns_map_err, returns_map_parse.
Qed.

Lemma decode_one_returns rest : returns (decode_one rest).
Proof.
  unfold decode_one, RESPONSE_HEADER_LEN. destruct (Nat.ltb_spec (length rest) 5); [done|].
  apply returns_bind; [index_returns|intros ? _]. case_match; [done|].
  repeat (apply returns_bind; [index_returns|intros ? _]). unfold checked_add. cbn [ok_or mbind result_bind].
  destruct (Nat.ltb_spec (length rest) (5 + Z.to_nat (le_Z [a2; a3]))); [done|].
  apply returns_bind; [apply returns_slice; lia|]. done.
Qed.

Lemma decode_all_one_returns k rest : returns (decode_all_one k rest).
Proof.
  unfold decode_all_one. apply returns_bind; [apply decode_one_returns|]. intros [? ?] _. by case_match.
Qed.

(** ** Batches *)

(** An entry the controller may put in a batch. *)
Definition entry_ok (e : Z * bytes) : Prop := in_u 16 e.1 /\ small_body e.2.

#[export] Instance entry_ok_dec e : Decision (entry_ok e).
Proof. unfold entry_ok, in_u, small_body. apply _. Defined.

(** The request the accessory reads for the entry at position [i]. *)
Definition request_of (op : OpCode) (i : nat) (e : Z * bytes) : Request :=
  {| req_opcode := op_u8 op; req_tid := Z.of_nat i; req_iid := e.1; req_body := e.2 |}.

Definition request_bytes (op : OpCode) (i : nat) (e : Z * bytes) : bytes :=
  [x00; Zbyte (op_u8 op); Zbyte (sat_u8 i)] ++ le_bytes 2 e.1 ++
  le_bytes 2 (sat_u16 (length e.2)) ++ e.2.

Lemma op_u8_range op : in_u 8 (op_u8 op).
Proof. by destruct op. Qed.

Lemma pdu_encode_request_ok `{Build} op i e :
  entry_ok e -> pdu_encode_request op (sat_u8 i) e.1 e.2 = Ok (request_bytes op i e).
Proof.
  intros [_ Hb]. unfold pdu_encode_request, debug_assert, small_body in *.
  rewrite (proj2 (Z.leb_le _ _)) by done. rewrite andb_false_r. cbn [mbind result_bind].
  unfold request_bytes. by rewrite <- !app_assoc.
Qed.

Lemma encode_all_from_ok `{Build} op idx out entries :
  Forall entry_ok entries ->
  encode_all_from op idx out entries =
    Ok (out ++ mjoin (imap (fun i e => request_bytes op (idx + i) e) entries)).
Proof.
  intros He. revert idx out. induction He as [|[iid body] entries H1 He IH]; intros idx out.
  { simpl. by rewrite app_nil_r. }
  cbn [encode_all_from]. rewrite (pdu_encode_request_ok op idx (iid, body)) by done.
  cbn [mbind result_bind]. rewrite IH. f_equal. rewrite <- app_assoc. f_equal.
  rewrite imap_cons, Nat.add_0_r. cbn [mjoin list_join]. f_equal. f_equal. apply imap_ext.
  intros i x _. simpl. by replace (S (idx + i)) with (idx + S i) by lia.
Qed.

Lemma encode_all_ok `{Build} op entries :
  Forall entry_ok entries -> length entries <= 256 ->
  encode_all op entries = Ok (mjoin (imap (request_bytes op) entries)).
Proof.
  intros He Hl. unfold encode_all, debug_assert. rewrite (proj2 (Nat.leb_le _ _)) by done.
  rewrite andb_false_r. cbn [mbind result_bind]. by rewrite encode_all_from_ok.
Qed.

Lemma fmap_imap_pair {A B C D} (f : nat -> A -> B) (g : nat -> A -> C) (h : B * C -> D) (l : list A) :
  h <$> imap (fun i x => (f i x, g i x)) l = imap (fun i x => h (f i x, g i x)) l.
Proof.
  revert f g. induction l as [|x l IH]; intros f g; [done|].
  rewrite !imap_cons, fmap_cons. f_equal. apply (IH (f ∘ S) (g ∘ S)).
Qed.

(** A batch encoded record by record is decoded to the records. *)
Lemma records_imap {E A X} (one : nat -> bytes -> result E (A * nat)) (dec : nat -> X -> A)
    (enc : nat -> X -> bytes) (l : list X) :
  progressing one ->
  (forall i x rest, l !! i = Some x -> enc i x <> [] /\ one i (enc i x ++ rest) = Ok (dec i x, length (enc i x))) ->
  records one (mjoin (imap enc l)) = Ok (imap dec l).
Proof.
  intros Hp H. pose proof (records_concat one (imap (fun i x => (dec i x, enc i x)) l) Hp) as Hr.
  rewrite !fmap_imap_pair in Hr. apply Hr. intros i a e Hi.
  rewrite list_lookup_imap in Hi. destruct (l !! i) as [x|] eqn:Hx; simplify_eq/=.
  split; [by apply (H i x [])|]. intros rest. by apply H.
Qed.

Lemma decode_requests_batch op entries :
  Forall entry_ok entries -> length entries <= 256 ->
  decode_requests (mjoin (imap (request_bytes op) entries)) = Ok (imap (request_of op) entries).
Proof.
  intros He Hl. apply records_imap; [apply decode_request_progressing|].
  intros i [iid body] rest Hi. split; [done|].
  rewrite Forall_lookup in He. destruct (He i _ Hi) as [Hiid Hb]. apply lookup_lt_Some in Hi.
  destruct (sat_u16_small body Hb) as [Hu Hn]. simpl in Hiid.
  unfold request_bytes, request_of. cbn [fst snd].
  destruct (le_Z_u16 iid Hiid) as (i0 & i1 & -> & Hi01).
  destruct (le_Z_u16 _ Hu) as (l0 & l1 & -> & Hl01).
  etransitivity; [apply (decode_request_spec i (op_u8 op) (sat_u8 i) iid body rest l0 l1 i0 i1);
    [apply op_u8_range|apply sat_u8_u8|done|by rewrite Hl01]|].
  unfold sat_u8. rewrite Z.min_l by lia. done.
Qed.

Lemma encode_response_bytes tid status body :
  encode_response tid status body =
    [x02; Zbyte tid; Zbyte status] ++ le_bytes 2 (sat_u16 (length body)) ++ body.
Proof. unfold encode_response. by rewrite <- !app_assoc. Qed.

Lemma decode_all_batch (rs : list (Z * bytes)) :
  Forall (fun r => in_u 8 r.1 /\ small_body r.2) rs ->
  decode_all (mjoin (imap (fun i r => encode_response (sat_u8 i) r.1 r.2) rs)) =
    Ok (imap (fun i r => {| resp_tid := sat_u8 i; resp_status := r.1; resp_body := r.2 |}) rs).
Proof.
  intros Hr. apply records_imap; [apply decode_all_one_progressing|].
  intros i [st body] rest Hi. rewrite encode_response_bytes. split; [done|].
  rewrite Forall_lookup in Hr. destruct (Hr i _ Hi) as [Hst Hb]. cbn [fst snd] in *.
  destruct (sat_u16_small body Hb) as [Hu Hn].
  destruct (le_Z_u16 _ Hu) as (l0 & l1 & -> & Hl01). unfold decode_all_one.
  pose proof (decode_one_spec (sat_u8 i) st body rest l0 l1 (sat_u8_u8 i) Hst) as Hd.
  cbn [app] in Hd |- *. rewrite Hd by (by rewrite Hl01).
  cbn [mbind result_bind resp_tid]. by rewrite Z.eqb_refl.
Qed.

(** One event record, as the accessory frames it. *)
Definition event_record (iid : Z) (value : bytes) : bytes :=
  [x00] ++ le_bytes 2 iid ++ le_bytes 2 (sat_u16 (length (value_body value))) ++ value_body value.

Lemma decode_events_batch (evs : list (Z * bytes)) :
  Forall (fun e => in_u 16 e.1 /\ small_body (value_body e.2)) evs ->
  decode_events (mjoin (imap (fun _ e => event_record e.1 e.2) evs)) = Ok evs.
Proof.
  intros He. transitivity (Ok (E := ThreadError) (imap (fun _ e => (e.1, e.2)) evs)).
  - apply records_imap; [apply decode_event_progressing|].
    intros i [iid v] rest Hi. split; [done|]. rewrite Forall_lookup in He.
    destruct (He i _ Hi) as [Hiid Hb]. cbn [fst snd] in *.
    destruct (sat_u16_small _ Hb) as [Hu Hn]. unfold event_record.
    destruct (le_Z_u16 _ Hiid) as (i0 & i1 & -> & Hi01).
    destruct (le_Z_u16 _ Hu) as (l0 & l1 & -> & Hl01).
    etransitivity; [apply (decode_event_spec i iid v rest l0 l1 i0 i1); [done|by rewrite Hl01]|done].
  - f_equal. clear He. induction evs as [|[? ?] evs IH]; [done|]. rewrite imap_cons. f_equal. done.
Qed.

(** * Theorems *)

(** A batch of requests written by the controller is read by the accessory as
    exactly that batch: the same operation, instance ids and bodies in order, each
    tagged with its position. *)
Theorem thread_request_roundtrip `{Build} op entries :
  Forall entry_ok entries -> length entries <= 256 ->
  (pdu ← encode_all op entries; map_err (fun _ => SessionExpired) (decode_requests pdu)) =
    Ok (imap (request_of op) entries).
Proof.
  intros He Hl. rewrite encode_all_ok by done. cbn [mbind result_bind].
  by rewrite decode_requests_batch.
Qed.

Lemma thread_request_roundtrip_witness :
  let b := {| overflow_checks := true; debug_assertions := true |} in
  (pdu ← encode_all CharWrite [(9, [x01; x01; x01]); (0x0203, [])]%Z;
   map_err (fun _ => SessionExpired) (decode_requests pdu)) =
    Ok (imap (request_of CharWrite) [(9, [x01; x01; x01]); (0x0203, [])]%Z).
Proof.
  apply (thread_request_roundtrip (H := {| overflow_checks := true; debug_assertions := true |}));
    [repeat constructor; by vm_compute|simpl; lia].
Defined.

(** The controller accepts a batch of responses only when every response is at
    the position its transaction id names, and a batch the accessory answers in
    order is accepted with its statuses and bodies. *)
Theorem thread_response_alignment pdu rs (answers : list (Z * bytes)) :
  Forall (fun r => in_u 8 r.1 /\ small_body r.2) answers ->
  (decode_all pdu = Ok rs -> forall i r, rs !! i = Some r -> resp_tid r = Z.min (Z.of_nat i) 255) /\
  decode_all (mjoin (imap (fun i r => encode_response (sat_u8 i) r.1 r.2) answers)) =
    Ok (imap (fun i r => {| resp_tid := sat_u8 i; resp_status := r.1; resp_body := r.2 |}) answers).
Proof.
  intros Ha. split; [|by apply decode_all_batch].
  apply (records_forall _ _ _ (fun i r => resp_tid r = Z.min (Z.of_nat i) 255)).
  intros k rest x n H. unfold decode_all_one in H. bind_inv H. destruct a as [r m].
  destruct (Z.eqb_spec (resp_tid r) (sat_u8 k)); simplify_eq/=. done.
Qed.

Lemma thread_response_alignment_witness :
  decode_all (mjoin (imap (fun i r => encode_response (sat_u8 i) r.1 r.2) [(0, [x01; x01; x01]); (4, [])]%Z)) =
    Ok [{| resp_tid := 0; resp_status := 0; resp_body := [x01; x01; x01] |};
        {| resp_tid := 1; resp_status := 4; resp_body := [] |}].
Proof.
  apply (thread_response_alignment [] [] [(0, [x01; x01; x01]); (4, [])]%Z). repeat constructor; by vm_compute.
Defined.

(** None of the three PDU decoders panics or loops, whatever bytes arrive. *)
Theorem thread_decoders_return buf :
  returns (decode_requests buf) /\ returns (decode_all buf) /\ returns (decode_events buf).
Proof.
  split; [|split]; apply records_returns;
    auto using decode_request_progressing, decode_all_one_progressing, decode_event_progressing,
      decode_request_returns, decode_all_one_returns, decode_event_returns.
Qed.
