(* ===== verification/Coap.v ===== *)
(** * [hap-thread/src/coap.rs]: the CoAP transport binding

    Confirmable request/response exchanges over a datagram socket, the reader task
    that routes datagrams to the exchange awaiting their token, and block-wise
    reassembly.  [coap-lite] (the packet codec) and the network are parameters:
    [CoapLite] is what the code calls of the one, [Network] of the other. *)

From S2P Require Import Prelude Text Tlv8 Crypto DutPairing ThreadPdu.

(** ** The packet library *)

Inductive MessageType := Confirmable | NonConfirmable | Acknowledgement | ResetMsg.

#[export] Instance MessageType_eq_dec : EqDecision MessageType.
Proof. solve_decision. Defined.

(** A Block2 option: block number, more-bit and block size. *)
Record BlockValue := { bv_num : Z; bv_more : bool; bv_size : Z }.

(** A packet as its accessors show it: the code byte is [class << 5 | detail]. *)
Record Packet := {
  pk_type : MessageType; pk_code : Z; pk_mid : Z; pk_token : bytes;
  pk_uri_path : option bytes; pk_block2 : option BlockValue; pk_payload : bytes;
}.

Class CoapLite := {
  to_bytes : Packet -> option bytes;
  from_bytes : bytes -> option Packet;
  (** [BlockValue::new(num, more, size)]. *)
  block_value_new : Z -> bool -> Z -> option BlockValue;
}.

(** A Block2 size the option can express. *)
Definition block_size_ok (size : Z) : Prop := size ∈ [16; 32; 64; 128; 256; 512; 1024]%Z.

Definition block_ok (b : BlockValue) : Prop := (0 <= bv_num b < 4096)%Z /\ block_size_ok (bv_size b).

(** Packets the wire format can carry in one datagram of the minimum IPv6 MTU. *)
Record packet_ok (p : Packet) : Prop := {
  ok_code : in_u 8 (pk_code p);
  ok_mid : in_u 16 (pk_mid p);
  ok_token : length (pk_token p) <= 8;
  ok_path : forall s, pk_uri_path p = Some s -> length s <= 16;
  ok_block2 : forall b, pk_block2 p = Some b -> block_ok b;
  ok_payload : length (pk_payload p) <= 1200;
}.

(** What the code relies on: such packets encode, to at most an MTU, and decode to
    themselves; block values in range are accepted as given. *)
Class CoapLiteLaws (L : CoapLite) := {
  to_bytes_total p : packet_ok p -> exists b, to_bytes p = Some b /\ length b <= 1280;
  from_to_bytes p b : packet_ok p -> to_bytes p = Some b -> from_bytes b = Some p;
  block_value_new_ok num more size :
    block_ok {| bv_num := num; bv_more := more; bv_size := size |} ->
    block_value_new num more size = Some {| bv_num := num; bv_more := more; bv_size := size |};
}.

(** ** The network *)

Class Network (N : Type) := {
  (** [socket.send]. *)
  net_send : bytes -> N -> result Z () * N;
  (** What [socket.recv] returns, in order, during one timed wait. *)
  net_arrive : N -> list (result Z bytes) * N;
}.

(** ** Constants and responses *)

Definition PATH_IDENTIFY : bytes := str "0".
Definition PATH_PAIR_SETUP : bytes := str "1".
Definition PATH_PAIR_VERIFY : bytes := str "2".
Definition PATH_SECURE : bytes := str "".
Definition MAX_TRANSMISSIONS : nat := 4.
Definition MAX_BLOCKS : Z := 1024.
Definition RECV_BUF : nat := 16 * 1024.

Record CoapResponse := { cr_code : Z * Z; cr_payload : bytes }.

Definition is_changed (self : CoapResponse) : bool := bool_decide (cr_code self = (2, 4)%Z).
Definition is_not_found (self : CoapResponse) : bool := bool_decide (cr_code self = (4, 4)%Z).

(** [format!("{:02}")]. *)
Definition two_digits (n : Z) : list Z :=
  if (n <? 10)%Z then 48%Z :: to_decimal n else to_decimal n.

Definition changed_payload (self : CoapResponse) : result ThreadError bytes :=
  if is_changed self then Ok (cr_payload self)
  else if is_not_found self then Err SessionExpired
  else Err (CoapCode (to_decimal (cr_code self).1 ++ [46%Z] ++ two_digits (cr_code self).2)).

(** The [CoapTransport] trait. *)
Class CoapTransport (T : Type) := {
  post : bytes -> bytes -> stateful T ThreadError CoapResponse;
  recv_event : stateful T ThreadError bytes;
}.

(** ** Packet predicates *)

Definition is_event_put (packet : Packet) : bool :=
  let code := pk_code packet in
  bool_decide (pk_type packet = Confirmable) && negb (code =? 0)%Z && (Z.shiftr code 5 =? 0)%Z.

Definition is_empty (packet : Packet) : bool := (pk_code packet =? 0)%Z.

Definition split_code (packet : Packet) : Z * Z :=
  (Z.shiftr (pk_code packet) 5, Z.land (pk_code packet) 0x1f).

Definition block2_of (packet : Packet) : option BlockValue := pk_block2 packet.

Definition CODE_POST : Z := 0x02.
Definition CODE_VALID : Z := 0x43.

Definition u16_be (z : Z) : bytes := reverse (le_bytes 2 z).

(** ** The transport *)

(** [pending] maps a token to the packets its channel holds. *)
Record UdpCoapTransport (N : Type) := {
  ut_net : N; ut_message_id : Z; ut_pending : gmap bytes (list Packet);
  ut_events : list bytes; ut_reading : bool;
}.
Arguments ut_net {N}. Arguments ut_message_id {N}. Arguments ut_pending {N}.
Arguments ut_events {N}. Arguments ut_reading {N}.
Arguments Build_UdpCoapTransport {N}.

Section transport.
Context `{L : CoapLite} {Net : Type} `{NW : Network Net}.
Local Abbreviation T := (UdpCoapTransport Net).
Local Abbreviation M := (stateful T ThreadError).

Definition set_net (n : Net) (u : T) : T :=
  {| ut_net := n; ut_message_id := ut_message_id u; ut_pending := ut_pending u;
     ut_events := ut_events u; ut_reading := ut_reading u |}.
Definition set_pending (q : gmap bytes (list Packet)) (u : T) : T :=
  {| ut_net := ut_net u; ut_message_id := ut_message_id u; ut_pending := q;
     ut_events := ut_events u; ut_reading := ut_reading u |}.
Definition push_event_payload (p : bytes) (u : T) : T :=
  {| ut_net := ut_net u; ut_message_id := ut_message_id u; ut_pending := ut_pending u;
     ut_events := ut_events u ++ [p]; ut_reading := ut_reading u |}.
Definition stop_reading (u : T) : T :=
  {| ut_net := ut_net u; ut_message_id := ut_message_id u; ut_pending := ut_pending u;
     ut_events := ut_events u; ut_reading := false |}.

Definition udp_connect (net : Net) : T :=
  {| ut_net := net; ut_message_id := 1; ut_pending := ∅; ut_events := []; ut_reading := true |}.

(** [socket.send(bytes).await?]. *)
Definition socket_send (b : bytes) : M () := fun u =>
  let '(r, n) := net_send b (ut_net u) in (map_err ThIo r, set_net n u).

(** One datagram through the reader. *)
Definition reader_step (datagram : bytes) (u : T) : T :=
  match from_bytes (take RECV_BUF datagram) with
  | None => u
  | Some packet =>
      if is_event_put packet then
        let ack := {| pk_type := Acknowledgement; pk_code := CODE_VALID; pk_mid := pk_mid packet;
                      pk_token := pk_token packet; pk_uri_path := None; pk_block2 := None;
                      pk_payload := [] |} in
        let u := match to_bytes ack with Some b => (socket_send b u).2 | None => u end in
        push_event_payload (pk_payload packet) u
      else
        let token := pk_token packet in
        match ut_pending u !! token with
        | Some q => set_pending (<[token := q ++ [packet]]> (ut_pending u)) u
        | None => u
        end
  end.

Fixpoint reader_loop (received : list (result Z bytes)) (u : T) : T :=
  match received with
  | [] => u
  | Ok d :: received' => reader_loop received' (reader_step d u)
  | _ :: _ => stop_reading u
  end.

(** The datagrams of one wait pass through the reader task, if it still runs. *)
Definition reader_wait (u : T) : T :=
  let '(ds, n) := net_arrive (ut_net u) in
  let u := set_net n u in
  if ut_reading u then reader_loop ds u else u.

Inductive recv_result := Received (p : Packet) | Closed | Elapsed.

Definition pop_queue (token : bytes) (u : T) : option (Packet * T) :=
  match ut_pending u !! token with
  | Some (p :: q) => Some (p, set_pending (<[token := q]> (ut_pending u)) u)
  | _ => None
  end.

(** [timeout(_, rx.recv())]: a queued packet at once, else whatever the reader routes
    here during the wait.  The channel is open while the token is registered. *)
Definition recv_timeout (token : bytes) : M recv_result := fun u =>
  if bool_decide (ut_pending u !! token = None) then (Ok Closed, u)
  else
    match pop_queue token u with
    | Some (p, u') => (Ok (Received p), u')
    | None =>
        let u := reader_wait u in
        match pop_queue token u with
        | Some (p, u') => (Ok (Received p), u')
        | None => (Ok Elapsed, u)
        end
    end.

Definition next_message_id : M Z := fun u =>
  (Ok (ut_message_id u),
   {| ut_net := ut_net u; ut_message_id := wrapping_add 16 (ut_message_id u) 1;
      ut_pending := ut_pending u; ut_events := ut_events u; ut_reading := ut_reading u |}).

Definition frame (path payload token : bytes) : M Packet :=
  mid ← next_message_id;
  mret {| pk_type := Confirmable; pk_code := CODE_POST; pk_mid := mid; pk_token := token;
          pk_uri_path := (if bool_decide (path = []) then None else Some path);
          pk_block2 := None; pk_payload := payload |}.

Definition build_post (path payload : bytes) : M (Packet * bytes) :=
  token ← next_message_id;
  let token := u16_be token in
  packet ← frame path payload token;
  mret (packet, token).

Definition send_empty_ack (message_id : Z) : M () :=
  let ack := {| pk_type := Acknowledgement; pk_code := 0; pk_mid := message_id; pk_token := [];
                pk_uri_path := None; pk_block2 := None; pk_payload := [] |} in
  b ← lift (ok_or (to_bytes ack) (Coap "could not encode CoAP ACK"));
  socket_send b.

Definition accept (resp : Packet) : M Packet :=
  _ ← (if bool_decide (pk_type resp = Confirmable) then send_empty_ack (pk_mid resp) else mret ());
  mret resp.

(** The ['transmit] loop: a packet to return, or whether an empty ACK ended it. *)
Fixpoint transmit (n : nat) (b token : bytes) : M (option Packet * bool) :=
  match n with
  | 0 => mret (None, false)
  | S n' =>
      _ ← socket_send b;
      event ← recv_timeout token;
      match event with
      | Received resp =>
          if is_empty resp then mret (None, true)
          else r ← accept resp; mret (Some r, false)
      | Closed => lift (Err (Coap "CoAP reader task stopped"))
      | Elapsed => transmit n' b token
      end
  end.

(** The wait for a separate response; [fuel] bounds the duplicate empty ACKs. *)
Fixpoint await_separate (fuel : nat) (token : bytes) : M Packet :=
  match fuel with
  | 0 => lift (Fault OutOfFuel)
  | S fuel' =>
      event ← recv_timeout token;
      match event with
      | Received resp => if is_empty resp then await_separate fuel' token else accept resp
      | Closed => lift (Err (Coap "CoAP reader task stopped"))
      | Elapsed => lift (Err (Coap "no separate CoAP response after the empty ACK"))
      end
  end.

Definition exchange_inner (fuel : nat) (b token : bytes) : M Packet :=
  r ← transmit MAX_TRANSMISSIONS b token;
  match r with
  | (Some resp, _) => mret resp
  | (None, acknowledged) =>
      if negb acknowledged
      then lift (Err (Coap "no CoAP response after maximum retransmissions"))
      else await_separate fuel token
  end.

(** Run the exchange and take the token out of [pending] whatever its outcome. *)
Definition deregister {A} (token : bytes) (m : M A) : M A := fun u =>
  let '(r, u) := m u in (r, set_pending (delete token (ut_pending u)) u).

Definition exchange (fuel : nat) (request : Packet) (token : bytes) : M Packet :=
  b ← lift (ok_or (to_bytes request) (Coap "could not encode CoAP request"));
  _ ← modify (fun u => set_pending (<[token := []]> (ut_pending u)) u);
  deregister token (exchange_inner fuel b token).

(** The Block2 loop of [post]; [bf] is its fuel, [fetched] the code's counter. *)
Fixpoint fetch_blocks (bf fuel : nat) (path : bytes) (block_size : Z) (block : BlockValue)
    (fetched : Z) (code : Z * Z) (full : bytes) : M CoapResponse :=
  match bf with
  | 0 => lift (Fault OutOfFuel)
  | S bf' =>
      if bv_more block then
        if (MAX_BLOCKS <=? fetched)%Z then lift (Err (Coap "too many Block2 fragments in one response"))
        else
          let next_num := (bv_num block + 1)%Z in
          request_block2 ← lift (ok_or (block_value_new next_num false block_size)
                                   (Coap "invalid Block2 request"));
          cont_token ← next_message_id;
          let cont_token := u16_be cont_token in
          req ← frame path [] cont_token;
          let req := {| pk_type := pk_type req; pk_code := pk_code req; pk_mid := pk_mid req;
                        pk_token := pk_token req; pk_uri_path := pk_uri_path req;
                        pk_block2 := Some request_block2; pk_payload := pk_payload req |} in
          r ← exchange fuel req cont_token;
          let code := split_code r in
          let full := full ++ pk_payload r in
          let fetched := (fetched + 1)%Z in
          match block2_of r with
          | Some next => fetch_blocks bf' fuel path block_size next fetched code full
          | None => mret {| cr_code := code; cr_payload := full |}
          end
      else mret {| cr_code := code; cr_payload := full |}
  end.

Definition udp_post (fuel : nat) (path payload : bytes) : M CoapResponse :=
  rt ← build_post path payload;
  let '(request, token) := rt in
  resp ← exchange fuel request token;
  let code := split_code resp in
  match block2_of resp with
  | None => mret {| cr_code := code; cr_payload := pk_payload resp |}
  | Some block =>
      let full := pk_payload resp in
      let block_size := bv_size block in
      fetch_blocks (S (Z.to_nat MAX_BLOCKS)) fuel path block_size block 1 code full
  end.

(** [events.recv()] of an empty channel waits, here for the datagrams of one wait: with
    no event among them the call has not returned, unless the reader has stopped. *)
Definition udp_recv_event : M bytes := fun u =>
  let u := if bool_decide (ut_events u = []) then reader_wait u else u in
  match ut_events u with
  | p :: rest => (Ok p, {| ut_net := ut_net u; ut_message_id := ut_message_id u;
                           ut_pending := ut_pending u; ut_events := rest; ut_reading := ut_reading u |})
  | [] => (if ut_reading u then Fault OutOfFuel else Err (Coap "CoAP event channel closed"), u)
  end.
End transport.

(** The trait implementation. *)
Definition udp_transport `{CoapLite} {Net : Type} `{Network Net} (fuel : nat) : CoapTransport (UdpCoapTransport Net) :=
  {| post := udp_post fuel; recv_event := udp_recv_event |}.

(** ** A concrete packet codec

    Packets as TLV8 items: shows that the laws of [CoapLite] can hold. *)

Definition toy_type (t : MessageType) : Z :=
  match t with Confirmable => 0 | NonConfirmable => 1 | Acknowledgement => 2 | ResetMsg => 3 end.

Definition toy_untype (z : Z) : MessageType :=
  if (z =? 0)%Z then Confirmable else if (z =? 1)%Z then NonConfirmable
  else if (z =? 2)%Z then Acknowledgement else ResetMsg.

Definition toy_block (b : BlockValue) : bytes :=
  le_bytes 2 (bv_num b) ++ le_bytes 2 (bv_size b) ++ [if bv_more b then x01 else x00].

Definition toy_unblock (bs : bytes) : BlockValue :=
  {| bv_num := le_Z (take 2 bs); bv_size := le_Z (take 2 (drop 2 bs));
     bv_more := bool_decide (drop 4 bs = [x01]) |}.

Definition toy_items (p : Packet) : list item :=
  [(x00, le_bytes 1 (toy_type (pk_type p)) ++ le_bytes 1 (pk_code p) ++ le_bytes 2 (pk_mid p));
   (x01, pk_token p)] ++
  match pk_uri_path p with Some s => [(x02, s)] | None => [] end ++
  match pk_block2 p with Some b => [(x03, toy_block b)] | None => [] end ++
  [(x04, pk_payload p)].

Definition toy_packet (m : Tlv8Map) : Packet :=
  let hdr := default [] (get m x00) in
  {| pk_type := toy_untype (le_Z (take 1 hdr)); pk_code := le_Z (take 1 (drop 1 hdr));
     pk_mid := le_Z (drop 2 hdr); pk_token := default [] (get m x01); pk_uri_path := get m x02;
     pk_block2 := toy_unblock <$> get m x03; pk_payload := default [] (get m x04) |}.

Definition toy_coap_lite : CoapLite := {|
  to_bytes := fun p => Some (push_items [] (toy_items p));
  from_bytes := fun b => match map_parse b with Ok m => Some (toy_packet m) | _ => None end;
  block_value_new := fun num more size => Some {| bv_num := num; bv_more := more; bv_size := size |};
|}.

(** * Lemmas *)

Lemma toy_unblock_block b : block_ok b -> toy_unblock (toy_block b) = b.
Proof.
  destruct b as [num more size]. unfold block_ok, block_size_ok. cbn [bv_num bv_size]. intros [Hn Hs].
  assert (0 <= size < 256 ^ Z.of_nat 2)%Z as Hsz.
  { repeat (apply elem_of_cons in Hs as [->|Hs]; [vm_compute; split; congruence|]). by apply not_elem_of_nil in Hs. }
  unfold toy_unblock, toy_block. cbn [bv_num bv_size bv_more].
  change (take 2 (le_bytes 2 num ++ le_bytes 2 size ++ [if more then x01 else x00])) with (le_bytes 2 num).
  change (take 2 (drop 2 (le_bytes 2 num ++ le_bytes 2 size ++ [if more then x01 else x00]))) with (le_bytes 2 size).
  change (drop 4 (le_bytes 2 num ++ le_bytes 2 size ++ [if more then x01 else x00])) with [if more then x01 else x00].
  rewrite !le_Z_le_bytes_small by (try done; change (256 ^ Z.of_nat 2)%Z with 65536%Z; lia).
  by destruct more.
Qed.

Lemma toy_untype_type t : toy_untype (toy_type t) = t.
Proof. by destruct t. Qed.

Lemma toy_header_parts p (H : packet_ok p) :
  let hdr := le_bytes 1 (toy_type (pk_type p)) ++ le_bytes 1 (pk_code p) ++ le_bytes 2 (pk_mid p) in
  toy_untype (le_Z (take 1 hdr)) = pk_type p /\ le_Z (take 1 (drop 1 hdr)) = pk_code p /\
  le_Z (drop 2 hdr) = pk_mid p.
Proof.
  destruct H as [[? ?] [? ?] _ _ _ _]. intros hdr.
  change (take 1 hdr) with (le_bytes 1 (toy_type (pk_type p))).
  change (take 1 (drop 1 hdr)) with (le_bytes 1 (pk_code p)).
  change (drop 2 hdr) with (le_bytes 2 (pk_mid p)).
  rewrite !le_Z_le_bytes_small; [by rewrite toy_untype_type|..];
    change (256 ^ Z.of_nat 2)%Z with (2 ^ 16)%Z; change (256 ^ Z.of_nat 1)%Z with (2 ^ 8)%Z; try lia.
  by destruct (pk_type p).
Qed.

Lemma toy_packet_items p : packet_ok p -> toy_packet (from_items (toy_items p)) = p.
Proof.
  intros H. destruct (toy_header_parts p H) as (Ht & Hc & Hm).
  unfold toy_packet, toy_items, get, from_items. cbn [map_items].
  destruct p as [t c m tok path blk pay]. cbn [pk_type pk_code pk_mid pk_token pk_uri_path pk_block2 pk_payload] in *.
  destruct path as [s|], blk as [b|]; cbn [app List.find];
    repeat match goal with |- context [bool_decide (?x = ?y)] =>
             first [change (bool_decide (x = y)) with true | change (bool_decide (x = y)) with false] end;
    cbv iota;
    cbn [fmap option_fmap option_map snd default from_option]; unfold id; rewrite Ht, Hc, Hm; try done;
    by rewrite (toy_unblock_block b (ok_block2 _ H b eq_refl)).
Qed.

Lemma toy_items_length p : packet_ok p -> length (push_items [] (toy_items p)) <= 1280.
Proof.
  intros [_ _ Htok Hpath _ Hpay]. unfold toy_items, push_items.
  rewrite !foldl_app. cbn [foldl].
  set (o1 := push _ x01 _).
  assert (255 * length o1 <= 4200) as H1.
  { unfold o1. pose proof (length_push_255 (push [] x00 (le_bytes 1 (toy_type (pk_type p)) ++ le_bytes 1 (pk_code p) ++ le_bytes 2 (pk_mid p))) x01 (pk_token p)).
    pose proof (length_push_255 [] x00 (le_bytes 1 (toy_type (pk_type p)) ++ le_bytes 1 (pk_code p) ++ le_bytes 2 (pk_mid p))).
    rewrite !length_app, !length_le_bytes in *. simpl length in *. lia. }
  set (o2 := foldl _ o1 _).
  assert (255 * length o2 <= 255 * length o1 + 4700) as H2.
  { unfold o2. destruct (pk_uri_path p) as [s|]; cbn [foldl]; [|lia].
    pose proof (length_push_255 o1 x02 s). specialize (Hpath s eq_refl). lia. }
  set (o3 := foldl _ o2 _).
  assert (255 * length o3 <= 255 * length o2 + 1900) as H3.
  { unfold o3. destruct (pk_block2 p) as [b|]; cbn [foldl]; [|lia].
    pose proof (length_push_255 o2 x03 (toy_block b)). unfold toy_block in *.
    rewrite !length_app, !length_le_bytes in *. simpl length in *. lia. }
  pose proof (length_push_255 o3 x04 (pk_payload p)). lia.
Qed.

#[export] Instance toy_coap_lite_laws : CoapLiteLaws toy_coap_lite.
Proof.
  split.
  - intros p H. eexists. split; [done|]. by apply toy_items_length.
  - intros p b H Hb. apply (inj Some) in Hb as <-. cbn [from_bytes toy_coap_lite]. rewrite map_parse_push_items.
    + by rewrite toy_packet_items.
    + unfold toy_items. destruct (pk_uri_path p), (pk_block2 p); simpl; items_ok.
  - done.
Qed.

(** ** Correlation: what an exchange returns carries its own token *)

Section correlation.
Context `{L : CoapLite} {Net : Type} `{NW : Network Net}.
Implicit Types u : UdpCoapTransport Net.

(** Every queue holds packets of its own token. *)
Definition routed u : Prop :=
  forall t q, ut_pending u !! t = Some q -> Forall (fun p => pk_token p = t) q.

Lemma socket_send_pending b u : ut_pending (socket_send b u).2 = ut_pending u.
Proof. unfold socket_send. by destruct (net_send b (ut_net u)). Qed.

Lemma routed_pending u u' : ut_pending u' = ut_pending u -> routed u -> routed u'.
Proof. unfold routed. by intros ->. Qed.

Lemma routed_insert u t q :
  routed u -> Forall (fun p => pk_token p = t) q -> routed (set_pending (<[t := q]> (ut_pending u)) u).
Proof.
  intros Hr Hq t' q'. simpl. destruct (decide (t = t')) as [->|Hne].
  - rewrite lookup_insert_eq. by intros [= <-].
  - rewrite lookup_insert_ne by done. apply Hr.
Qed.

Lemma routed_delete u t : routed u -> routed (set_pending (delete t (ut_pending u)) u).
Proof. intros Hr t' q' Hl. simpl in Hl. apply lookup_delete_Some in Hl as [_ Hl]. by apply Hr. Qed.

Lemma reader_step_routed d u : routed u -> routed (reader_step d u).
Proof.
  intros Hr. unfold reader_step. destruct (from_bytes _) as [p|]; [|done].
  destruct (is_event_put p).
  - eapply routed_pending; [|exact Hr]. simpl. destruct (to_bytes _); [apply socket_send_pending|done].
  - destruct (ut_pending u !! pk_token p) as [q|] eqn:Hq; [|done].
    apply routed_insert; [done|]. apply Forall_app. split; [by apply Hr|by repeat constructor].
Qed.

Lemma reader_loop_routed ds u : routed u -> routed (reader_loop ds u).
Proof.
  revert u. induction ds as [|[d|e|f] ds IH]; intros u Hr; simpl; try done.
  by apply IH, reader_step_routed.
Qed.

Lemma reader_wait_routed u : routed u -> routed (reader_wait u).
Proof.
  intros Hr. unfold reader_wait. destruct (net_arrive (ut_net u)) as [ds n].
  assert (routed (set_net n u)) by (by apply (routed_pending u)).
  destruct (ut_reading _); [by apply reader_loop_routed|done].
Qed.

Lemma pop_queue_routed t u p u' :
  pop_queue t u = Some (p, u') -> routed u -> pk_token p = t /\ routed u'.
Proof.
  unfold pop_queue. destruct (ut_pending u !! t) as [[|p' q]|] eqn:Hq; intros ? Hr; simplify_eq.
  pose proof (Hr _ _ Hq) as Hf. apply Forall_cons in Hf as [? ?].
  split; [done|]. by apply routed_insert.
Qed.

Lemma recv_timeout_routed t u r u' :
  recv_timeout t u = (r, u') -> routed u ->
  routed u' /\ forall p, r = Ok (Received p) -> pk_token p = t.
Proof.
  unfold recv_timeout. intros H Hr. case_bool_decide; [by simplify_eq|].
  destruct (pop_queue t u) as [[p v]|] eqn:Hp.
  { simplify_eq. destruct (pop_queue_routed _ _ _ _ Hp Hr) as [? ?]. split; [done|]. by intros ? [= <-]. }
  pose proof (reader_wait_routed u Hr) as Hr'.
  destruct (pop_queue t (reader_wait u)) as [[p v]|] eqn:Hp'; simplify_eq; [|done].
  destruct (pop_queue_routed _ _ _ _ Hp' Hr') as [? ?]. split; [done|]. by intros ? [= <-].
Qed.

(** An action that leaves the queues alone. *)
Lemma send_empty_ack_pending mid u : ut_pending (send_empty_ack mid u).2 = ut_pending u.
Proof.
  unfold send_empty_ack, mbind, stateful_bind, lift. destruct (to_bytes _); [|done].
  cbn [ok_or]. apply socket_send_pending.
Qed.

Lemma accept_spec resp u r u' :
  accept resp u = (r, u') -> ut_pending u' = ut_pending u /\ forall p, r = Ok p -> p = resp.
Proof.
  unfold accept. intros H. run_in H. case_bool_decide.
  - pose proof (send_empty_ack_pending (pk_mid resp) u) as Hp.
    destruct (send_empty_ack (pk_mid resp) u) as [[[]|e|f] v]; cbn in Hp; injection H as <- <-;
      (split; [done|]); by intros ? [= <-].
  - simplify_eq. split; [done|]. by intros ? [= <-].
Qed.

Lemma transmit_routed n b t u r u' :
  transmit n b t u = (r, u') -> routed u ->
  routed u' /\ forall p k, r = Ok (Some p, k) -> pk_token p = t /\ is_empty p = false.
Proof.
  revert u. induction n as [|n IH]; intros u H Hr; [run_in H; by injection H as <- <-|].
  cbn [transmit] in H. run_in H.
  pose proof (socket_send_pending b u) as Hs.
  destruct (socket_send b u) as [[[]|e|f] v]; simplify_eq; cbn [snd] in Hs;
    [|by split; [apply (routed_pending u)|]..].
  assert (routed v) as Hv by (by apply (routed_pending u)).
  destruct (recv_timeout t v) as [[ev|e|f] w] eqn:Hrecv;
    destruct (recv_timeout_routed _ _ _ _ Hrecv Hv) as [Hw Hp]; simplify_eq; [|done..].
  destruct ev as [p| |]; [|by simplify_eq|by eapply IH].
  destruct (is_empty p) eqn:He; [by simplify_eq|].
  destruct (accept p w) as [ra x] eqn:Ha. destruct (accept_spec _ _ _ _ Ha) as [Hx Hpa].
  assert (routed x) by (by apply (routed_pending w)).
  destruct ra as [p'|e|f]; simplify_eq; split; try done.
  intros ? ? [= <- <-]. rewrite (Hpa p' eq_refl). split; [by apply Hp|done].
Qed.

Lemma await_separate_routed fuel t u r u' :
  await_separate fuel t u = (r, u') -> routed u ->
  routed u' /\ forall p, r = Ok p -> pk_token p = t /\ is_empty p = false.
Proof.
  revert u. induction fuel as [|fuel IH]; intros u H Hr; [run_in H; by injection H as <- <-|].
  cbn [await_separate] in H. run_in H.
  destruct (recv_timeout t u) as [[ev|e|f] w] eqn:Hrecv;
    destruct (recv_timeout_routed _ _ _ _ Hrecv Hr) as [Hw Hp]; simplify_eq; [|done..].
  destruct ev as [p| |]; [|by simplify_eq..].
  destruct (is_empty p) eqn:He; [by eapply IH|].
  destruct (accept_spec _ _ _ _ H) as [Hx Hpa].
  split; [by apply (routed_pending w)|]. intros p' Hp'. rewrite (Hpa p' Hp'). split; [by apply Hp|done].
Qed.

Lemma exchange_inner_routed fuel b t u r u' :
  exchange_inner fuel b t u = (r, u') -> routed u ->
  routed u' /\ forall p, r = Ok p -> pk_token p = t /\ is_empty p = false.
Proof.
  unfold exchange_inner. intros H Hr. run_in H.
  destruct (transmit MAX_TRANSMISSIONS b t u) as [[[o ack]|e|f] v] eqn:Ht;
    destruct (transmit_routed _ _ _ _ _ _ Ht Hr) as [Hv Hp]; simplify_eq; [|done..].
  destruct o as [p|]; [simplify_eq; split; [done|]; intros ? [= <-]; by eapply Hp|].
  destruct ack; cbn [negb] in H; [by apply (await_separate_routed fuel t v)|by injection H as <- <-].
Qed.
End correlation.

(** * Theorems *)

(** C33: On any network, whatever arrives in whatever order, an exchange that returns
    a packet returns one that carries the exchange's own token and is a response
    (never another request's response, nor an empty acknowledgement), and its token
    is no longer registered afterwards, also when the exchange fails. *)
Theorem coap_exchange_correlated `{CoapLite} {Net : Type} `{Network Net} fuel request token (u : UdpCoapTransport Net) r u' :
  routed u -> ut_pending u !! token = None -> exchange fuel request token u = (r, u') ->
  routed u' /\ ut_pending u' !! token = None /\
  forall p, r = Ok p -> pk_token p = token /\ is_empty p = false.
Proof.
  intros Hr Hn. unfold exchange, deregister. run.
  destruct (to_bytes request) as [b|]; cbn [ok_or]; [|by intros [= <- <-]].
  set (v := set_pending _ u). destruct (exchange_inner fuel b token v) as [r' w] eqn:He.
  intros [= <- <-].
  assert (routed v) as Hv by (by apply routed_insert).
  destruct (exchange_inner_routed _ _ _ _ _ _ He Hv) as [Hw Hp].
  split; [by apply routed_delete|]. split; [simpl; by rewrite lookup_delete_eq|done].
Qed.

(** A network that accepts every send and delivers a fixed schedule of datagrams. *)
Definition script_network : Network (list (list (result Z bytes))) :=
  {| net_send := fun _ n => (Ok (), n);
     net_arrive := fun n => match n with ds :: n' => (ds, n') | [] => ([], []) end |}.

Definition script_packet (token payload : bytes) : Packet :=
  {| pk_type := Acknowledgement; pk_code := 0x44; pk_mid := 7; pk_token := token;
     pk_uri_path := None; pk_block2 := None; pk_payload := payload |}.

Definition script_datagram (token payload : bytes) : result Z bytes :=
  match to_bytes (CoapLite := toy_coap_lite) (script_packet token payload) with
  | Some b => Ok b | None => Err 0%Z
  end.

(** The stray response for token [00 09] is skipped, the lost first answer is
    retransmitted for, and the exchange returns its own response. *)
Lemma coap_exchange_correlated_witness :
  let u := udp_connect [[]; [script_datagram [x00; x09] [x01]; script_datagram [x00; x01] [x02]]] in
  let req := {| pk_type := Confirmable; pk_code := CODE_POST; pk_mid := 2; pk_token := [x00; x01];
                pk_uri_path := None; pk_block2 := None; pk_payload := [] |} in
  let ru := exchange (L := toy_coap_lite) (NW := script_network) 1 req [x00; x01] u in
  ru.1 = Ok (script_packet [x00; x01] [x02]) /\
  routed ru.2 /\ ut_pending ru.2 !! [x00; x01] = None /\
  forall p, ru.1 = Ok p -> pk_token p = [x00; x01] /\ is_empty p = false.
Proof.
  intros u req ru. split; [vm_compute; reflexivity|].
  apply (coap_exchange_correlated (H := toy_coap_lite) (H0 := script_network) 1 req [x00; x01] u).
  - intros t q. unfold u. simpl. by rewrite lookup_empty.
  - reflexivity.
  - unfold ru. by destruct (exchange _ _ _ _).
Defined.
