(* ===== verification/DutServer.v ===== *)
(** * [hap-thread-dut/src/lib.rs]: the reference accessory

    Its state, the handlers of its four CoAP resources and the datagram loop with the
    three response framings (piggy-backed, separate, block-wise).  Its mutexes are
    uncontended: one task serves, and no handler panics while holding one.  Random
    values are read from [ra_rng]. *)

From S2P Require Import Prelude Text Tlv8 Crypto Srp PairSetup PairVerify DutPairing ThreadPdu Coap.

(** ** State *)

(** The response codes the accessory uses. *)
Inductive ResponseType := Changed | BadRequest | Unauthorized | NotFound | InternalServerError.

Definition response_code (c : ResponseType) : Z :=
  match c with
  | Changed => 0x44 | BadRequest => 0x80 | Unauthorized => 0x81 | NotFound => 0x84
  | InternalServerError => 0xA0
  end.

(** What one request may draw: an ephemeral secret, an SRP salt and private key. *)
Record Random := { rnd_secret : bytes; rnd_salt : bytes; rnd_b : bytes }.

(** The part of [ReferenceAccessory] the resource handlers read and write;
    [ra_actuated] lists the calls of [actuator.set]. *)
Record Core := {
  ra_pairing_id : bytes; ra_keypair : ControllerKeypair; ra_setup_code : option bytes;
  ra_controller : option (bytes * bytes); ra_setup : option SetupInProgress;
  ra_verify : option VerifyInProgress; ra_session : option AccessorySession;
  ra_on : bool; ra_actuated : list bool; ra_subscriptions : gset Z;
  ra_rng : nat -> Random; ra_draws : nat;
}.

Record BlockwiseResponse := { bw_peer : Z; bw_code : ResponseType; bw_payload : bytes }.

(** The whole accessory: the handlers' state and that of the datagram loop. *)
Record ReferenceAccessory := {
  ra_core : Core; ra_next_mid : Z; ra_slow : bool; ra_blockwise : option nat;
  ra_block_cache : option BlockwiseResponse; ra_peer : option Z; ra_socket : bool;
}.

Definition ON_IID : Z := 9.
Definition DUT_RECV_BUF : nat := 1500.

(** Field updates. *)
Definition set_pairing (controller : option (bytes * bytes)) (setup : option SetupInProgress)
    (verify : option VerifyInProgress) (c : Core) : Core :=
  {| ra_pairing_id := ra_pairing_id c; ra_keypair := ra_keypair c; ra_setup_code := ra_setup_code c;
     ra_controller := controller; ra_setup := setup; ra_verify := verify; ra_session := ra_session c;
     ra_on := ra_on c; ra_actuated := ra_actuated c; ra_subscriptions := ra_subscriptions c;
     ra_rng := ra_rng c; ra_draws := ra_draws c |}.
Definition set_controller x (c : Core) : Core := set_pairing x (ra_setup c) (ra_verify c) c.
Definition set_setup x (c : Core) : Core := set_pairing (ra_controller c) x (ra_verify c) c.
Definition set_verify x (c : Core) : Core := set_pairing (ra_controller c) (ra_setup c) x c.
Definition set_session (s : option AccessorySession) (c : Core) : Core :=
  {| ra_pairing_id := ra_pairing_id c; ra_keypair := ra_keypair c; ra_setup_code := ra_setup_code c;
     ra_controller := ra_controller c; ra_setup := ra_setup c; ra_verify := ra_verify c; ra_session := s;
     ra_on := ra_on c; ra_actuated := ra_actuated c; ra_subscriptions := ra_subscriptions c;
     ra_rng := ra_rng c; ra_draws := ra_draws c |}.
Definition set_light (on : bool) (actuated : list bool) (subs : gset Z) (c : Core) : Core :=
  {| ra_pairing_id := ra_pairing_id c; ra_keypair := ra_keypair c; ra_setup_code := ra_setup_code c;
     ra_controller := ra_controller c; ra_setup := ra_setup c; ra_verify := ra_verify c;
     ra_session := ra_session c; ra_on := on; ra_actuated := actuated; ra_subscriptions := subs;
     ra_rng := ra_rng c; ra_draws := ra_draws c |}.
(** The next random draw. *)
Definition draw (c : Core) : Random * Core :=
  (ra_rng c (ra_draws c),
   {| ra_pairing_id := ra_pairing_id c; ra_keypair := ra_keypair c; ra_setup_code := ra_setup_code c;
      ra_controller := ra_controller c; ra_setup := ra_setup c; ra_verify := ra_verify c;
      ra_session := ra_session c; ra_on := ra_on c; ra_actuated := ra_actuated c;
      ra_subscriptions := ra_subscriptions c; ra_rng := ra_rng c; ra_draws := S (ra_draws c) |}).

Definition set_core (c : Core) (a : ReferenceAccessory) : ReferenceAccessory :=
  {| ra_core := c; ra_next_mid := ra_next_mid a; ra_slow := ra_slow a; ra_blockwise := ra_blockwise a;
     ra_block_cache := ra_block_cache a; ra_peer := ra_peer a; ra_socket := ra_socket a |}.
Definition set_cache (x : option BlockwiseResponse) (a : ReferenceAccessory) : ReferenceAccessory :=
  {| ra_core := ra_core a; ra_next_mid := ra_next_mid a; ra_slow := ra_slow a;
     ra_blockwise := ra_blockwise a; ra_block_cache := x; ra_peer := ra_peer a; ra_socket := ra_socket a |}.
Definition set_peer (x : option Z) (a : ReferenceAccessory) : ReferenceAccessory :=
  {| ra_core := ra_core a; ra_next_mid := ra_next_mid a; ra_slow := ra_slow a;
     ra_blockwise := ra_blockwise a; ra_block_cache := ra_block_cache a; ra_peer := x;
     ra_socket := ra_socket a |}.
Definition set_mid (x : Z) (a : ReferenceAccessory) : ReferenceAccessory :=
  {| ra_core := ra_core a; ra_next_mid := x; ra_slow := ra_slow a; ra_blockwise := ra_blockwise a;
     ra_block_cache := ra_block_cache a; ra_peer := ra_peer a; ra_socket := ra_socket a |}.

(** ** Constructors *)

(** [keypair] is the identity [ControllerKeypair::generate] draws. *)
Definition with_actuator (rng : nat -> Random) (keypair : ControllerKeypair) (pairing_id : bytes)
    : ReferenceAccessory :=
  {| ra_core := {| ra_pairing_id := pairing_id; ra_keypair := keypair; ra_setup_code := None;
                   ra_controller := None; ra_setup := None; ra_verify := None; ra_session := None;
                   ra_on := false; ra_actuated := []; ra_subscriptions := ∅;
                   ra_rng := rng; ra_draws := 0 |};
     ra_next_mid := 1; ra_slow := false; ra_blockwise := None; ra_block_cache := None;
     ra_peer := None; ra_socket := false |}.

Definition with_slow_responses (a : ReferenceAccessory) : ReferenceAccessory :=
  {| ra_core := ra_core a; ra_next_mid := ra_next_mid a; ra_slow := true; ra_blockwise := ra_blockwise a;
     ra_block_cache := ra_block_cache a; ra_peer := ra_peer a; ra_socket := ra_socket a |}.

Definition with_blockwise_responses (block_size : nat) (a : ReferenceAccessory) : ReferenceAccessory :=
  {| ra_core := ra_core a; ra_next_mid := ra_next_mid a; ra_slow := ra_slow a;
     ra_blockwise := Some (block_size `max` 16); ra_block_cache := ra_block_cache a;
     ra_peer := ra_peer a; ra_socket := ra_socket a |}.

Definition with_setup_code (code : bytes) (a : ReferenceAccessory) : ReferenceAccessory :=
  let c := ra_core a in
  set_core {| ra_pairing_id := ra_pairing_id c; ra_keypair := ra_keypair c; ra_setup_code := Some code;
              ra_controller := ra_controller c; ra_setup := ra_setup c; ra_verify := ra_verify c;
              ra_session := ra_session c; ra_on := ra_on c; ra_actuated := ra_actuated c;
              ra_subscriptions := ra_subscriptions c; ra_rng := ra_rng c; ra_draws := ra_draws c |} a.

Definition provision_controller (controller_id controller_ltpk : bytes) (c : Core) : Core :=
  set_controller (Some (controller_id, controller_ltpk)) c.

Definition synthetic_database : bytes := (fun i => Zbyte (i mod 251)) <$> seqZ 0 2000.

Section server.
Context `{C : Crypto} `{B : BigUintOps} `{L : CoapLite}.

(** A handler returns a code and a payload; a [Fault] would take the task down. *)
Local Abbreviation H := (stateful Core Empty_set).

(** ** Resource handlers *)

(** [Tlv8Map::parse(payload).ok().and_then(|m| m.get_u8(STATE).ok().flatten())]. *)
Definition tlv_state (payload : bytes) : option Z :=
  match map_parse payload with
  | Ok m => match get_u8 m STATE with Ok s => s | _ => None end
  | _ => None
  end.

Definition pair_setup_m1 (setup_code payload : bytes) : H (ResponseType * bytes) := fun c =>
  let '(rnd, c) := draw c in
  match handle_setup_m1 (rnd_salt rnd) (rnd_b rnd) setup_code payload with
  | Ok (m2, progress) => (Ok (Changed, m2), set_setup (Some progress) c)
  | Err _ => (Ok (BadRequest, []), c)
  | Fault f => (Fault f, c)
  end.

Definition pair_setup_m3 (payload : bytes) : H (ResponseType * bytes) := fun c =>
  let progress := ra_setup c in
  let c := set_setup None c in
  match progress with
  | Some (DutAwaitingM3 server) =>
      match handle_setup_m3 server payload with
      | Ok (m4, Some session_key) => (Ok (Changed, m4), set_setup (Some (DutAwaitingM5 session_key)) c)
      | Ok (m4, None) => (Ok (Changed, m4), c)
      | Err _ => (Ok (BadRequest, []), c)
      | Fault f => (Fault f, c)
      end
  | _ => (Ok (BadRequest, []), c)
  end.

Definition pair_setup_m5 (payload : bytes) : H (ResponseType * bytes) := fun c =>
  let progress := ra_setup c in
  let c := set_setup None c in
  match progress with
  | Some (DutAwaitingM5 session_key) =>
      match handle_setup_m5 session_key (ra_keypair c) (ra_pairing_id c) payload with
      | Ok (m6, Some (cid, cltpk)) => (Ok (Changed, m6), provision_controller cid cltpk c)
      | Ok (m6, None) => (Ok (Changed, m6), c)
      | Err _ => (Ok (BadRequest, []), c)
      | Fault f => (Fault f, c)
      end
  | _ => (Ok (BadRequest, []), c)
  end.

Definition dut_pair_setup (payload : bytes) : H (ResponseType * bytes) := fun c =>
  match ra_setup_code c with
  | None => (Ok (NotFound, []), c)
  | Some setup_code =>
      match tlv_state payload with
      | Some s =>
          if (s =? STATE_M1)%Z then pair_setup_m1 setup_code payload c
          else if (s =? STATE_M3)%Z then pair_setup_m3 payload c
          else if (s =? STATE_M5)%Z then pair_setup_m5 payload c
          else (Ok (BadRequest, []), c)
      | None => (Ok (BadRequest, []), c)
      end
  end.

Definition pair_verify_m1 (payload : bytes) : H (ResponseType * bytes) := fun c =>
  let '(rnd, c) := draw c in
  match handle_m1 (rnd_secret rnd) (ra_keypair c) (ra_pairing_id c) payload with
  | Ok (m2, progress) => (Ok (Changed, m2), set_verify (Some progress) c)
  | Err _ => (Ok (BadRequest, []), c)
  | Fault f => (Fault f, c)
  end.

Definition pair_verify_m3 (payload : bytes) : H (ResponseType * bytes) := fun c =>
  let progress := ra_verify c in
  let c := set_verify None c in
  match progress, ra_controller c with
  | Some progress, Some (cid, cltpk) =>
      match handle_m3 progress cid cltpk payload with
      | Ok (m4, Some sess) => (Ok (Changed, m4), set_session (Some sess) c)
      | Ok (m4, None) => (Ok (Changed, m4), c)
      | Err _ => (Ok (BadRequest, []), c)
      | Fault f => (Fault f, c)
      end
  | _, _ => (Ok (BadRequest, []), c)
  end.

Definition dut_pair_verify (payload : bytes) : H (ResponseType * bytes) := fun c =>
  match tlv_state payload with
  | Some s =>
      if (s =? STATE_M1)%Z then pair_verify_m1 payload c
      else if (s =? STATE_M3)%Z then pair_verify_m3 payload c
      else (Ok (BadRequest, []), c)
  | None => (Ok (BadRequest, []), c)
  end.

(** [u8::from(bool)]. *)
Definition bool_u8 (b : bool) : Z := if b then 1 else 0.

(** [value.first().copied().unwrap_or(0) != 0]. *)
Definition first_nonzero (value : bytes) : bool :=
  negb (match value with b :: _ => byteZ b | [] => 0%Z end =? 0)%Z.

Definition handle_char (req : Request) : H bytes := fun c =>
  if (req_opcode req =? OP_READ_DATABASE)%Z
  then (Ok (encode_response (req_tid req) STATUS_SUCCESS synthetic_database), c)
  else if negb (req_iid req =? ON_IID)%Z
  then (Ok (encode_response (req_tid req) STATUS_INVALID_INSTANCE_ID []), c)
  else if (req_opcode req =? OP_CHAR_READ)%Z then
    let body := value_body [Zbyte (bool_u8 (ra_on c))] in
    (Ok (encode_response (req_tid req) STATUS_SUCCESS body), c)
  else if (req_opcode req =? OP_CHAR_WRITE)%Z then
    match extract_value (req_body req) with
    | Ok value =>
        let on := first_nonzero value in
        (Ok (encode_response (req_tid req) STATUS_SUCCESS []),
         set_light on (ra_actuated c ++ [on]) (ra_subscriptions c) c)
    | Err _ => (Ok (encode_response (req_tid req) STATUS_UNSUPPORTED []), c)
    | Fault f => (Fault f, c)
    end
  else if (req_opcode req =? OP_SUBSCRIBE)%Z then
    (Ok (encode_response (req_tid req) STATUS_SUCCESS []),
     set_light (ra_on c) (ra_actuated c) ({[req_iid req]} ∪ ra_subscriptions c) c)
  else if (req_opcode req =? OP_UNSUBSCRIBE)%Z then
    (Ok (encode_response (req_tid req) STATUS_SUCCESS []),
     set_light (ra_on c) (ra_actuated c) (ra_subscriptions c ∖ {[req_iid req]}) c)
  else (Ok (encode_response (req_tid req) STATUS_UNSUPPORTED []), c).

(** The [for req in &requests] loop. *)
Fixpoint handle_chars (responses : bytes) (requests : list Request) : H bytes :=
  match requests with
  | [] => mret responses
  | req :: requests' => r ← handle_char req; handle_chars (responses ++ r) requests'
  end.

Definition secure_pdu (payload : bytes) : H (ResponseType * bytes) := fun c =>
  match ra_session c with
  | None => (Ok (Unauthorized, []), c)
  | Some session =>
      let '(opened, session) := open_request session payload in
      let c := set_session (Some session) c in
      match opened with
      | Err _ => (Ok (Unauthorized, []), c)
      | Fault f => (Fault f, c)
      | Ok plaintext =>
          match decode_requests plaintext with
          | Err _ => (Ok (BadRequest, []), c)
          | Fault f => (Fault f, c)
          | Ok requests =>
              match handle_chars [] requests c with
              | (Ok responses, c) =>
                  let '(sealed, session) := seal_response session responses in
                  let c := set_session (Some session) c in
                  match sealed with
                  | Ok sealed => (Ok (Changed, sealed), c)
                  | Err _ => (Ok (InternalServerError, []), c)
                  | Fault f => (Fault f, c)
                  end
              | (Err e, c) => (Err e, c)
              | (Fault f, c) => (Fault f, c)
              end
          end
      end
  end.

Definition dut_handle (path : list Z) (payload : bytes) : H (ResponseType * bytes) :=
  if bool_decide (path = chars "0") then mret (Changed, [])
  else if bool_decide (path = chars "2") then dut_pair_verify payload
  else if bool_decide (path = chars "1") then dut_pair_setup payload
  else if bool_decide (path = chars "") then secure_pdu payload
  else mret (NotFound, []).

(** ** The datagram loop: the datagrams sent to the peer for one received *)

Definition encode_packet (p : Packet) : list bytes :=
  match to_bytes p with Some b => [b] | None => [] end.

Definition send_block (message_id : Z) (token : bytes) (code : ResponseType) (full : bytes) (num bs : nat)
    (a : ReferenceAccessory) : list bytes * ReferenceAccessory :=
  let start := (num * bs) `min` length full in
  let end_ := (start + bs) `min` length full in
  let more := end_ <? length full in
  let resp := {| pk_type := Acknowledgement; pk_code := response_code code; pk_mid := message_id;
                 pk_token := token; pk_uri_path := None;
                 pk_block2 := block_value_new (Z.of_nat num) more (Z.of_nat bs);
                 pk_payload := take (end_ - start) (drop start full) |} in
  (encode_packet resp, if negb more then set_cache None a else a).

Definition send_response (peer : Z) (req : Packet) (code : ResponseType) (payload : bytes)
    (a : ReferenceAccessory) : list bytes * ReferenceAccessory :=
  let token := pk_token req in
  let plain :=
    if ra_slow a then
      let empty := {| pk_type := Acknowledgement; pk_code := 0; pk_mid := pk_mid req; pk_token := [];
                      pk_uri_path := None; pk_block2 := None; pk_payload := [] |} in
      let con := {| pk_type := Confirmable; pk_code := response_code code; pk_mid := ra_next_mid a;
                    pk_token := token; pk_uri_path := None; pk_block2 := None; pk_payload := payload |} in
      (encode_packet empty ++ encode_packet con, set_mid (wrapping_add 16 (ra_next_mid a) 1) a)
    else
      let ack := {| pk_type := Acknowledgement; pk_code := response_code code; pk_mid := pk_mid req;
                    pk_token := token; pk_uri_path := None; pk_block2 := None; pk_payload := payload |} in
      (encode_packet ack, a) in
  match ra_blockwise a with
  | Some bs =>
      if bs <? length payload then
        let a := set_cache (Some {| bw_peer := peer; bw_code := code; bw_payload := payload |}) a in
        send_block (pk_mid req) token code payload 0 bs a
      else plain
  | None => plain
  end.

Definition serve_cached_block (peer : Z) (req : Packet) (num : Z) (a : ReferenceAccessory)
    : list bytes * ReferenceAccessory :=
  match ra_blockwise a with
  | None => ([], a)
  | Some bs =>
      match ra_block_cache a with
      | Some b =>
          if (bw_peer b =? peer)%Z
          then send_block (pk_mid req) (pk_token req) (bw_code b) (bw_payload b) (Z.to_nat num) bs a
          else ([], a)
      | None => ([], a)
      end
  end.

Definition requested_block (req : Packet) : option Z := bv_num <$> pk_block2 req.

(** The [num > 0] continuation a block-wise accessory serves from its cache. *)
Definition continuation (req : Packet) (a : ReferenceAccessory) : option Z :=
  match ra_blockwise a, requested_block req with
  | Some _, Some num => if (0 <? num)%Z then Some num else None
  | _, _ => None
  end.

(** One turn of [serve]: a [Fault] is a panic of the serving task. *)
Definition serve_datagram (peer : Z) (datagram : bytes)
    : stateful ReferenceAccessory Empty_set (list bytes) := fun a =>
  match from_bytes (take DUT_RECV_BUF datagram) with
  | None => (Ok [], a)
  | Some req =>
      if bool_decide (pk_type req = Acknowledgement) then (Ok [], a)
      else
        let a := set_peer (Some peer) a in
        match continuation req a with
        | Some num => let '(out, a) := serve_cached_block peer req num a in (Ok out, a)
        | None =>
            let path := default [] (from_utf8_lossy <$> pk_uri_path req) in
            match dut_handle path (pk_payload req) (ra_core a) with
            | (Ok (code, payload), c) =>
                let '(out, a) := send_response peer req code payload (set_core c a) in (Ok out, a)
            | (Err e, c) => (Err e, set_core c a)
            | (Fault f, c) => (Fault f, set_core c a)
            end
        end
  end.

(** ** Events *)

(** Whether an event was sent, and the datagrams sent to the peer. *)
Definition push_event (iid : Z) (value : bytes)
    : stateful ReferenceAccessory DutError (bool * list (Z * bytes)) := fun a =>
  let c := ra_core a in
  if negb (bool_decide (iid ∈ ra_subscriptions c)) then (Ok (false, []), a)
  else if negb (ra_socket a) then (Ok (false, []), a)
  else
    match ra_peer a with
    | None => (Ok (false, []), a)
    | Some peer =>
        let body := value_body value in
        if (U16_MAX <? Z.of_nat (length body))%Z then (Ok (false, []), a)
        else
          let len := Z.of_nat (length body) in
          let record := [x00] ++ le_bytes 2 iid ++ le_bytes 2 len ++ body in
          match ra_session c with
          | None => (Ok (false, []), a)
          | Some session =>
              let '(sealed, session) := seal_event session record in
              let a := set_core (set_session (Some session) c) a in
              match sealed with
              | Err e => (Err e, a)
              | Fault f => (Fault f, a)
              | Ok sealed =>
                  let mid := ra_next_mid a in
                  let tok := wrapping_add 16 mid 1 in
                  let a := set_mid (wrapping_add 16 tok 1) a in
                  let put := {| pk_type := Confirmable; pk_code := 0x03; pk_mid := mid;
                                pk_token := u16_be tok; pk_uri_path := None; pk_block2 := None;
                                pk_payload := sealed |} in
                  match to_bytes put with
                  | None => (Err (Protocol "could not encode event PUT"), a)
                  | Some b => (Ok (true, [(peer, b)]), a)
                  end
              end
          end
    end.
End server.
