(* ===== verification/DutExchange.v ===== *)
(** * The pairing exchanges through the accessory's dispatcher

    Pair Setup and Pair Verify between the controller's state machines and the request
    handlers of the reference accessory, message by message, for any transport that carries
    the messages: every message is small, none carries an error, and the accessory ends
    with the controller stored, or with a session whose keys are the controller's. *)

From S2P Require Import Prelude Text Tlv8 Crypto RecordLayer Srp PairSetup PairVerify Store Pairing DutPairing ThreadPdu Coap DutServer.

Section exchange.
Context `{C : Crypto} {CL : CryptoLaws C} `{B : BigUintOps}.

(** The state a TLV8 message announces. *)
Lemma tlv_state_push items z :
  Forall item_ok items -> in_u 8 z -> tlv_state (push_items (push_u8 [] STATE z) items) = Some z.
Proof.
  intros Hi [? ?]. change (push_items (push_u8 [] STATE z) items) with (push_items [] ((STATE, le_bytes 1 z) :: items)).
  unfold tlv_state. rewrite map_parse_push_items by (constructor; [by apply item_ok_ty|done]).
  assert (0 <= z < 256 ^ Z.of_nat 1)%Z as Hz by (change (256 ^ Z.of_nat 1)%Z with (2 ^ 8)%Z; lia).
  pose proof (get_uint_pushed [] items STATE z 1 1 (not_elem_of_nil _) ltac:(lia) Hz) as Hg. cbn [app] in Hg.
  unfold get_u8. rewrite Hg. cbn [mbind result_bind option_map]. by rewrite Z.mod_small by lia.
Qed.

(** The check both IP drivers make of a response. *)
Lemma check_tlv_error_push items z :
  Forall item_ok items -> in_u 8 z -> get (from_items ((STATE, le_bytes 1 z) :: items)) ERROR = None ->
  check_tlv_error (push_items (push_u8 [] STATE z) items) = Ok ().
Proof.
  intros Hi Hz Hg. unfold check_tlv_error.
  change (push_items (push_u8 [] STATE z) items) with (push_items [] ((STATE, le_bytes 1 z) :: items)).
  rewrite map_parse_push_items by (constructor; [by apply item_ok_ty|done]).
  cbn [map_err mbind result_bind]. change K_TLV_TYPE_ERROR with ERROR. by rewrite Hg.
Qed.

Definition small_message (m : bytes) : Prop := length m <= 512.

(** ** Pair Verify *)

(** The accessory after a completed Pair Verify. *)
Definition verified (s : AccessorySession) (c : Core) : Core :=
  set_session (Some s) (set_verify None (draw c).2).


Lemma verify_exchange c ctl secret_c :
  ra_controller c = Some (kp_id ctl, ltpk ctl) -> short_id (kp_id ctl) -> short_id (ra_pairing_id c) ->
  let cl := new_with_ephemeral ctl {| pairing_id := ra_pairing_id c; ap_ltpk := ltpk (ra_keypair c) |} secret_c in
  exists m2 c1 m3 cl1 m4 keys ek cl2,
    (dut_pair_verify (pv_start cl).1 c = (Ok (Changed, m2), c1) /\ ra_session c1 = ra_session c) /\
    pv_handle (pv_start cl).2 m2 = (Ok (PvSend m3), cl1) /\
    dut_pair_verify m3 c1 =
      (Ok (Changed, m4), verified (accessory_session_new (sk_read_key keys) (sk_write_key keys) ek) c) /\
    (pv_handle cl1 m4 = (Ok (PvDone keys), cl2) /\ event_key cl2 = Ok ek) /\
    Forall small_message [(pv_start cl).1; m2; m3; m4] /\ check_tlv_error m2 = Ok () /\ check_tlv_error m4 = Ok ().
Proof using CL.
  intros Hctl Hid1 Hid2 cl. set (sa := rnd_secret (draw c).1).
  destruct (pv_m1_m2 ctl (ra_keypair c) (ra_pairing_id c) secret_c sa (short_id_ok _ Hid2)) as (key & ct & Hk & Ho & Hm1).
  destruct (pv_m2_m3 ctl (ra_keypair c) (ra_pairing_id c) secret_c sa (short_id_ok _ Hid1) key ct Hk Ho) as (ct3 & Ho3 & Hm2).
  destruct (pv_m3_m4 ctl secret_c sa key ct3 Ho3) as (r & w & e & Hrk & Hwk & Hek & Hm3).
  unfold pv_client0, pv_pairing in *. fold cl in Hm1, Hm2.
  set (m2 := push (push (push_u8 [] STATE STATE_M2) PUBLIC_KEY (x_public sa)) ENCRYPTED_DATA ct) in *.
  set (m3 := push (push_u8 [] STATE STATE_M3) ENCRYPTED_DATA ct3) in *.
  set (prog := {| vp_accessory_eph_pub := _ |}) in *.
  exists m2, (set_verify (Some prog) (draw c).2), m3, (pv_set (pv_start cl).2 (Some (pv_shared secret_c sa)) AwaitM4),
    (push_u8 [] STATE STATE_M4), {| sk_read_key := r; sk_write_key := w |}, e,
    (pv_set (pv_set (pv_start cl).2 (Some (pv_shared secret_c sa)) AwaitM4) (Some (pv_shared secret_c sa)) VerifyDone).
  split; [split; [|done]|split; [exact Hm2|split; [|split; [split|split; [|split]]]]].
  - unfold dut_pair_verify.
    assert (tlv_state (pv_start cl).1 = Some STATE_M1) as ->
      by (apply (tlv_state_push [(PUBLIC_KEY, x_public secret_c)] STATE_M1); [items_ok|done]).
    change (STATE_M1 =? STATE_M1)%Z with true. cbv iota. unfold pair_verify_m1.
    cbn [draw]. change (handle_m1 _ _ _ _) with (handle_m1 sa (ra_keypair c) (ra_pairing_id c) (pv_start cl).1).
    by rewrite Hm1.
  - unfold dut_pair_verify.
    assert (tlv_state m3 = Some STATE_M3) as ->
      by (apply (tlv_state_push [(ENCRYPTED_DATA, ct3)] STATE_M3); [items_ok|done]).
    change (STATE_M3 =? STATE_M1)%Z with false. change (STATE_M3 =? STATE_M3)%Z with true. cbv iota.
    unfold pair_verify_m3. cbn [ra_verify ra_controller set_verify set_pairing draw snd].
    unfold verified, set_session, set_verify, set_pairing, draw. cbn. by rewrite Hctl, Hm3.
  - by apply (pv_m4_done secret_c sa _ r w).
  - unfold event_key. cbn [pv_set shared_secret ok_or mbind result_bind]. unfold derive_key, hkdf_sha512. by rewrite Hek.
  - apply open_length in Ho, Ho3. unfold small_message, sign in *. repeat apply Forall_cons_2; [| | | |apply Forall_nil_2].
    + apply length_msg1. cbn. rewrite x_public_length. lia.
    + apply length_msg2. rewrite x_public_length, Ho.
      pose proof (length_id_sig _ _ Hid2 (ed_sign_length (kp_signing (ra_keypair c)) (x_public sa ++ ra_pairing_id c ++ x_public secret_c))). lia.
    + apply length_msg1. rewrite Ho3.
      pose proof (length_id_sig _ _ Hid1 (ed_sign_length (kp_signing ctl) (x_public secret_c ++ kp_id ctl ++ x_public sa))). lia.
    + simpl. lia.
  - by apply (check_tlv_error_push [(PUBLIC_KEY, x_public sa); (ENCRYPTED_DATA, ct)]); [items_ok|..].
  - by apply (check_tlv_error_push []).
Qed.

(** ** Pair Setup *)

(** The accessory after a completed Pair Setup. *)
Definition paired (ctl : ControllerKeypair) (c : Core) : Core :=
  provision_controller (kp_id ctl) (ltpk ctl) (set_setup None (draw c).2).

(** One message of Pair Setup through the accessory's dispatcher. *)
Lemma dut_setup_m1 c code_a m1 m2 progress items :
  ra_setup_code c = Some code_a -> m1 = push_items (push_u8 [] STATE STATE_M1) items -> Forall item_ok items ->
  handle_setup_m1 (rnd_salt (draw c).1) (rnd_b (draw c).1) code_a m1 = Ok (m2, progress) ->
  dut_handle (from_utf8_lossy PATH_PAIR_SETUP) m1 c = (Ok (Changed, m2), set_setup (Some progress) (draw c).2).
Proof.
  intros Hc Hm Hi Hh. change (dut_pair_setup m1 c = (Ok (Changed, m2), set_setup (Some progress) (draw c).2)).
  unfold dut_pair_setup. rewrite Hc. assert (tlv_state m1 = Some STATE_M1) as -> by (rewrite Hm; by apply tlv_state_push).
  change (STATE_M1 =? STATE_M1)%Z with true. cbv iota. unfold pair_setup_m1.
  destruct (draw c) as [rnd c']. cbn [fst snd] in *. by rewrite Hh.
Qed.

Lemma dut_setup_m3 c code_a server m3 m4 K items :
  ra_setup_code c = Some code_a -> ra_setup c = Some (DutAwaitingM3 server) ->
  m3 = push_items (push_u8 [] STATE STATE_M3) items -> Forall item_ok items ->
  handle_setup_m3 server m3 = Ok (m4, Some K) ->
  dut_handle (from_utf8_lossy PATH_PAIR_SETUP) m3 c = (Ok (Changed, m4), set_setup (Some (DutAwaitingM5 K)) c).
Proof.
  intros Hc Hs Hm Hi Hh. change (dut_pair_setup m3 c = (Ok (Changed, m4), set_setup (Some (DutAwaitingM5 K)) c)).
  unfold dut_pair_setup. rewrite Hc. assert (tlv_state m3 = Some STATE_M3) as -> by (rewrite Hm; by apply tlv_state_push).
  change (STATE_M3 =? STATE_M1)%Z with false. change (STATE_M3 =? STATE_M3)%Z with true. cbv iota.
  unfold pair_setup_m3. rewrite Hs, Hh. done.
Qed.

Lemma dut_setup_m5 c code_a K m5 m6 id key items :
  ra_setup_code c = Some code_a -> ra_setup c = Some (DutAwaitingM5 K) ->
  m5 = push_items (push_u8 [] STATE STATE_M5) items -> Forall item_ok items ->
  handle_setup_m5 K (ra_keypair c) (ra_pairing_id c) m5 = Ok (m6, Some (id, key)) ->
  dut_handle (from_utf8_lossy PATH_PAIR_SETUP) m5 c =
    (Ok (Changed, m6), provision_controller id key (set_setup None c)).
Proof.
  intros Hc Hs Hm Hi Hh.
  change (dut_pair_setup m5 c = (Ok (Changed, m6), provision_controller id key (set_setup None c))).
  unfold dut_pair_setup. rewrite Hc. assert (tlv_state m5 = Some STATE_M5) as -> by (rewrite Hm; by apply tlv_state_push).
  change (STATE_M5 =? STATE_M1)%Z with false. change (STATE_M5 =? STATE_M3)%Z with false.
  change (STATE_M5 =? STATE_M5)%Z with true. cbv iota.
  unfold pair_setup_m5. rewrite Hs.
  change (ra_keypair (set_setup None c)) with (ra_keypair c).
  change (ra_pairing_id (set_setup None c)) with (ra_pairing_id c). by rewrite Hh.
Qed.


Lemma setup_exchange {BL : BigUintLaws B} c code_c code_a ctl a c0 g :
  let salt := rnd_salt (draw c).1 in
  let s := with_salt_and_private g PAIR_SETUP_USERNAME (normalize_setup_code code_a) salt
             (from_bytes_be (rnd_b (draw c).1)) in
  ra_setup_code c = Some code_a -> new_with_private code_c ctl a = Ok c0 -> hap_group = Ok g ->
  normalize_setup_code code_c = normalize_setup_code code_a ->
  short_id (kp_id ctl) -> short_id (ra_pairing_id c) -> length salt <= 64 ->
  is_Some (from_utf8 (kp_id ctl)) -> is_Some (from_utf8 (ra_pairing_id c)) ->
  (sv_b_pub s mod modulus g <> 0)%Z -> (compute_u g (cl_a_pub (srp c0)) (sv_b_pub s) <> 0)%Z ->
  exists m2 c1 m3 cl1 m4 c2 m5 cl2 m6 cl3,
    (dut_pair_setup (start c0).1 c = (Ok (Changed, m2), c1) /\ handle (start c0).2 m2 = (Ok (Send m3), cl1)) /\
    (dut_pair_setup m3 c1 = (Ok (Changed, m4), c2) /\ handle cl1 m4 = (Ok (Send m5), cl2)) /\
    (dut_pair_setup m5 c2 = (Ok (Changed, m6), paired ctl c) /\
     handle cl2 m6 = (Ok (Done {| pairing_id := ra_pairing_id c; ap_ltpk := ltpk (ra_keypair c) |}), cl3)) /\
    Forall small_message [(start c0).1; m2; m3; m4; m5; m6] /\
    check_tlv_error m2 = Ok () /\ check_tlv_error m4 = Ok () /\ check_tlv_error m6 = Ok ().
Proof using CL.
  intros salt s Hcode Hnew Hg Hnorm Hid1 Hid2 Hsalt Hu1 Hu2 HB0 Hu.
  destruct (ps_messages code_c code_a ctl (ra_keypair c) (ra_pairing_id c) a salt (rnd_b (draw c).1) c0 g
    Hnew Hg Hnorm (short_id_ok _ Hid1) (short_id_ok _ Hid2) Hu1 Hu2 HB0 Hu)
    as (K & m1 & enc & x & ct5 & y & ct6 & c5 & c7 & Hl1 & HlB & HlA & Ho5 & Ho6 & Hm1 & Hm2 & Hm3 & Hm4 & Hm5 & Hm6).
  fold s in HlB, Hm1, Hm2, Hm3. set (m0 := (start c0).1) in *.
  set (m2 := push (push (push_u8 [] STATE STATE_M2) SALT salt) PUBLIC_KEY (sv_b_pub_bytes s)) in *.
  set (m3 := push (push (push_u8 [] STATE STATE_M3) PUBLIC_KEY (a_pub_bytes (srp c0))) PROOF m1) in *.
  set (m4 := push (push_u8 [] STATE STATE_M4) PROOF (proof_m2 g (cl_a_pub (srp c0)) m1 K)) in *.
  set (m5 := push (push_u8 [] STATE STATE_M5) ENCRYPTED_DATA ct5) in *.
  set (m6 := push (push_u8 [] STATE STATE_M6) ENCRYPTED_DATA ct6) in *.
  exists m2, (set_setup (Some (DutAwaitingM3 s)) (draw c).2), m3, (set_state (start c0).2 (AwaitingM4 K m1)), m4,
    (set_setup (Some (DutAwaitingM5 K)) (draw c).2), m5, c5, m6, c7.
  split; [split; [|exact Hm2]|split; [split; [|exact Hm4]|split; [split; [|exact Hm6]|split; [|split_and!]]]].
  - by apply (dut_setup_m1 c code_a m0 m2 _ [(METHOD, le_bytes 1 METHOD_PAIR_SETUP)]); [..|items_ok|].
  - by apply (dut_setup_m3 (set_setup (Some (DutAwaitingM3 s)) (draw c).2) code_a s m3 m4 K
             [(PUBLIC_KEY, a_pub_bytes (srp c0)); (PROOF, m1)]); [..|items_ok|].
  - by apply (dut_setup_m5 (set_setup (Some (DutAwaitingM5 K)) (draw c).2) code_a K m5 m6 (kp_id ctl) (ltpk ctl)
             [(ENCRYPTED_DATA, ct5)]); [..|items_ok|].
  - apply open_length in Ho5, Ho6. unfold small_message, sign, ltpk in *.
    repeat apply Forall_cons_2; [| | | | | |apply Forall_nil_2].
    + change (length m0) with 6. lia.
    + apply length_msg2. lia.
    + apply length_msg2. lia.
    + apply length_msg1. unfold proof_m2. rewrite sha512_length. lia.
    + apply length_msg1. rewrite Ho5. pose proof (length_id_key_sig _ _ _ Hid1 (ed_public_length (kp_signing ctl))
        (ed_sign_length (kp_signing ctl) (x ++ kp_id ctl ++ ed_public (kp_signing ctl)))). lia.
    + apply length_msg1. rewrite Ho6. pose proof (length_id_key_sig _ _ _ Hid2 (ed_public_length (kp_signing (ra_keypair c)))
        (ed_sign_length (kp_signing (ra_keypair c)) (y ++ ra_pairing_id c ++ ed_public (kp_signing (ra_keypair c))))). lia.
  - by apply (check_tlv_error_push [(SALT, salt); (PUBLIC_KEY, sv_b_pub_bytes s)]); [items_ok|..].
  - by apply (check_tlv_error_push [(PROOF, proof_m2 g (cl_a_pub (srp c0)) m1 K)]); [items_ok|..].
  - by apply (check_tlv_error_push [(ENCRYPTED_DATA, ct6)]); [items_ok|..].
Qed.
End exchange.
