(* ===== verification/ThreadAccessory.v ===== *)
(** * [hap-thread/src/{session,accessory,pairing}.rs]: the controller over CoAP

    The secure session, the connected-accessory operations and the pairing drivers,
    written against the [CoapTransport] trait.  [Carries] is what a transport promises
    to these clients: a POST runs the accessory's handler once and brings back its
    answer.  Against any such transport the operations refine an abstract light bulb:
    they return what the abstract commands return and leave both sides in step. *)

From S2P Require Import Prelude Text Tlv8 Crypto RecordLayer Srp PairSetup PairVerify DutPairing ThreadPdu Coap DutServer.

(** ** The session ([session.rs]) *)

Definition counter_nonce (counter : Z) : bytes := copy_at (replicate 12 x00) 4 (le_bytes 8 counter).

Record CoapSession := {
  cs_read_key : bytes; cs_write_key : bytes; cs_event_key : bytes;
  cs_send_ctr : Z; cs_recv_ctr : Z; cs_event_ctr : Z;
}.

Definition coap_session_new (keys : SessionKeys) (event_key : bytes) : CoapSession :=
  {| cs_read_key := sk_read_key keys; cs_write_key := sk_write_key keys; cs_event_key := event_key;
     cs_send_ctr := 0; cs_recv_ctr := 0; cs_event_ctr := 0 |}.

Definition set_ctrs (send recv event : Z) (s : CoapSession) : CoapSession :=
  {| cs_read_key := cs_read_key s; cs_write_key := cs_write_key s; cs_event_key := cs_event_key s;
     cs_send_ctr := send; cs_recv_ctr := recv; cs_event_ctr := event |}.

Section session.
Context `{C : Crypto}.

Definition seal_request (plaintext : bytes) : stateful CoapSession ThreadError bytes := fun s =>
  let nonce := counter_nonce (cs_send_ctr s) in
  match chacha20poly1305_seal (cs_write_key s) nonce [] plaintext with
  | Ok ct => (Ok ct, set_ctrs (wrapping_add 64 (cs_send_ctr s) 1) (cs_recv_ctr s) (cs_event_ctr s) s)
  | Err e => (Err (ThCrypto e), s)
  | Fault f => (Fault f, s)
  end.

Definition open_response (ciphertext_and_tag : bytes) : stateful CoapSession ThreadError bytes := fun s =>
  let nonce := counter_nonce (cs_recv_ctr s) in
  match chacha20poly1305_open (cs_read_key s) nonce [] ciphertext_and_tag with
  | Ok pt => (Ok pt, set_ctrs (cs_send_ctr s) (wrapping_add 64 (cs_recv_ctr s) 1) (cs_event_ctr s) s)
  | Err e => (Err (ThCrypto e), s)
  | Fault f => (Fault f, s)
  end.

Definition open_event (ciphertext_and_tag : bytes) : stateful CoapSession ThreadError bytes := fun s =>
  let nonce := counter_nonce (cs_event_ctr s) in
  match chacha20poly1305_open (cs_event_key s) nonce [] ciphertext_and_tag with
  | Ok pt => (Ok pt, set_ctrs (cs_send_ctr s) (cs_recv_ctr s) (wrapping_add 64 (cs_event_ctr s) 1) s)
  | Err e => (Err (ThCrypto e), s)
  | Fault f => (Fault f, s)
  end.
End session.

(** ** The connection and its operations ([accessory.rs]) *)

Record SecureCoapConnection (T : Type) := { sc_transport : T; sc_session : CoapSession }.
Arguments sc_transport {T}. Arguments sc_session {T}. Arguments Build_SecureCoapConnection {T}.

Section accessory.
Context `{C : Crypto} `{CoapTransport T} `{Build}.
Local Abbreviation M := (stateful (SecureCoapConnection T) ThreadError).

(** Run an action on one field of the connection. *)
Definition on_session {A} (m : stateful CoapSession ThreadError A) : M A := fun c =>
  let '(r, s) := m (sc_session c) in (r, {| sc_transport := sc_transport c; sc_session := s |}).
Definition on_transport {A} (m : stateful T ThreadError A) : M A := fun c =>
  let '(r, t) := m (sc_transport c) in (r, {| sc_transport := t; sc_session := sc_session c |}).

Definition post_secure (pdu : bytes) : M bytes :=
  sealed ← on_session (seal_request pdu);
  response ← on_transport (post PATH_SECURE sealed);
  response ← lift (changed_payload response);
  on_session (open_response response).

Definition next_event : M (list (Z * bytes)) :=
  encrypted ← on_transport recv_event;
  plaintext ← on_session (open_event encrypted);
  lift (decode_events plaintext).

(** [into_iter().next().ok_or(..)] *)
Definition first_of {A} (l : list A) (e : ThreadError) : result ThreadError A := ok_or (head l) e.

Definition read_characteristics (iids : list Z) : M (list (result ThreadError bytes)) :=
  let entries := (fun iid => (iid, [])) <$> iids in
  req ← lift (encode_all CharRead entries);
  resp ← post_secure req;
  responses ← lift (decode_all resp);
  mret ((fun r => if (resp_status r =? 0)%Z then response_value r else Err (PduStatus (resp_status r)))
          <$> responses).

Definition read_characteristic (iid : Z) : M bytes :=
  values ← read_characteristics [iid];
  value ← lift (first_of values (MalformedPdu "empty read response"));
  lift value.

(** The shared tail of the write, subscribe and unsubscribe methods. *)
Definition expect_status_ok (r : Response) : result ThreadError () :=
  if (resp_status r =? 0)%Z then Ok () else Err (PduStatus (resp_status r)).

Definition write_characteristic (iid : Z) (value : bytes) : M () :=
  let body := encode_value_body value in
  req ← lift (encode_all CharWrite [(iid, body)]);
  resp ← post_secure req;
  responses ← lift (decode_all resp);
  first ← lift (first_of responses (MalformedPdu "empty write response"));
  lift (expect_status_ok first).

Definition read_database_raw : M bytes :=
  req ← lift (encode_all ReadDatabase [(0, [])]%Z);
  resp ← post_secure req;
  responses ← lift (decode_all resp);
  first ← lift (first_of responses (MalformedPdu "empty database response"));
  if (resp_status first =? 0)%Z then mret (resp_body first) else lift (Err (PduStatus (resp_status first))).

Definition subscribe (iid : Z) : M () :=
  req ← lift (encode_all Subscribe [(iid, [])]);
  resp ← post_secure req;
  responses ← lift (decode_all resp);
  first ← lift (first_of responses (MalformedPdu "empty subscribe response"));
  lift (expect_status_ok first).

Definition unsubscribe (iid : Z) : M () :=
  req ← lift (encode_all Unsubscribe [(iid, [])]);
  resp ← post_secure req;
  responses ← lift (decode_all resp);
  first ← lift (first_of responses (MalformedPdu "empty unsubscribe response"));
  lift (expect_status_ok first).
End accessory.

(** ** Pairing drivers ([pairing.rs]) *)

Section drivers.
Context `{C : Crypto} `{B : BigUintOps} `{CoapTransport T}.
Local Abbreviation M := (stateful T ThreadError).

(** The [loop] of [pair_setup]; the client's states bound it, [fuel] is above them. *)
Fixpoint setup_loop (fuel : nat) (client : PairSetupClient) (out : bytes) : M AccessoryPairing :=
  match fuel with
  | 0 => lift (Fault OutOfFuel)
  | S fuel' =>
      reply ← post PATH_PAIR_SETUP out;
      reply ← lift (changed_payload reply);
      let '(step, client) := handle client reply in
      step ← lift (map_err ThCrypto step);
      match step with
      | Send next => setup_loop fuel' client next
      | Done pairing => mret pairing
      end
  end.

(** [a] is the SRP private value [PairSetupClient::new] draws. *)
Definition thread_pair_setup (a setup_code : bytes) (controller : ControllerKeypair) : M AccessoryPairing :=
  client ← lift (map_err ThCrypto (new_with_private setup_code controller a));
  let '(out, client) := start client in
  setup_loop 4 client out.

Fixpoint verify_loop (fuel : nat) (client : PairVerifyClient) (out : bytes)
    : M (SessionKeys * PairVerifyClient) :=
  match fuel with
  | 0 => lift (Fault OutOfFuel)
  | S fuel' =>
      reply ← post PATH_PAIR_VERIFY out;
      reply ← lift (changed_payload reply);
      let '(step, client) := pv_handle client reply in
      step ← lift (map_err ThCrypto step);
      match step with
      | PvSend next => verify_loop fuel' client next
      | PvDone keys => mret (keys, client)
      end
  end.

Definition pair_verify_with_client (client : PairVerifyClient) : M (SessionKeys * bytes) :=
  let '(out, client) := pv_start client in
  kc ← verify_loop 3 client out;
  let '(keys, client) := kc in
  event_key ← lift (map_err ThCrypto (event_key client));
  mret (keys, event_key).
End drivers.

(** ** The interface between the operations and a transport *)

Class Carries `{Crypto} `{BigUintOps} `{CoapTransport T} := {
  accessory_of : T -> Core;
  carrier_ok : T -> Prop;
  max_request : nat;
  max_reply : nat;
  max_request_u32 : (Z.of_nat max_request < 2 ^ 32)%Z;
  max_reply_u32 : (Z.of_nat max_reply < 2 ^ 32)%Z;
  post_handled t path payload code reply c' :
    carrier_ok t -> path ∈ [PATH_PAIR_SETUP; PATH_PAIR_VERIFY; PATH_SECURE] ->
    length payload <= max_request -> length reply <= max_reply ->
    dut_handle (from_utf8_lossy path) payload (accessory_of t) = (Ok (code, reply), c') ->
    exists t', post path payload t =
        (Ok {| cr_code := (Z.shiftr (response_code code) 5, Z.land (response_code code) 0x1f);
               cr_payload := reply |}, t') /\
      accessory_of t' = c' /\ carrier_ok t';
}.

(** ** The abstract light bulb *)

Record Light := { l_on : bool; l_actuated : list bool; l_subs : gset Z }.

Inductive Command :=
| CmdRead (iids : list Z)
| CmdWrite (iid : Z) (value : bytes)
| CmdSubscribe (iid : Z)
| CmdUnsubscribe (iid : Z)
| CmdDatabase.

Inductive Outcome :=
| OValues (vs : list (result ThreadError bytes))
| ODone
| OBody (body : bytes).

Definition spec_read (l : Light) (iid : Z) : result ThreadError bytes :=
  if (iid =? ON_IID)%Z then Ok [Zbyte (bool_u8 (l_on l))] else Err (PduStatus STATUS_INVALID_INSTANCE_ID).

(** An operation on the [On] characteristic; any other instance id is refused. *)
Definition spec_on (iid : Z) (l : Light) (l' : Light) : result ThreadError Outcome * Light :=
  if (iid =? ON_IID)%Z then (Ok ODone, l') else (Err (PduStatus STATUS_INVALID_INSTANCE_ID), l).

Definition spec_command (cmd : Command) (l : Light) : result ThreadError Outcome * Light :=
  match cmd with
  | CmdRead iids => (Ok (OValues (spec_read l <$> iids)), l)
  | CmdWrite iid v =>
      let on := first_nonzero v in
      spec_on iid l {| l_on := on; l_actuated := l_actuated l ++ [on]; l_subs := l_subs l |}
  | CmdSubscribe iid =>
      spec_on iid l {| l_on := l_on l; l_actuated := l_actuated l; l_subs := {[iid]} ∪ l_subs l |}
  | CmdUnsubscribe iid =>
      spec_on iid l {| l_on := l_on l; l_actuated := l_actuated l; l_subs := l_subs l ∖ {[iid]} |}
  | CmdDatabase => (Ok (OBody synthetic_database), l)
  end.

Fixpoint spec_commands (cmds : list Command) (l : Light) : list (result ThreadError Outcome) * Light :=
  match cmds with
  | [] => ([], l)
  | cmd :: cmds' =>
      let '(r, l) := spec_command cmd l in
      let '(rs, l) := spec_commands cmds' l in (r :: rs, l)
  end.

(** The same commands through the controller's methods. *)
Definition run_command `{Crypto} `{CoapTransport T} `{Build} (cmd : Command)
    : stateful (SecureCoapConnection T) ThreadError Outcome :=
  match cmd with
  | CmdRead iids => vs ← read_characteristics iids; mret (OValues vs)
  | CmdWrite iid v => _ ← write_characteristic iid v; mret ODone
  | CmdSubscribe iid => _ ← subscribe iid; mret ODone
  | CmdUnsubscribe iid => _ ← unsubscribe iid; mret ODone
  | CmdDatabase => b ← read_database_raw; mret (OBody b)
  end.

Fixpoint run_commands `{Crypto} `{CoapTransport T} `{Build} (cmds : list Command)
    (c : SecureCoapConnection T) : list (result ThreadError Outcome) * SecureCoapConnection T :=
  match cmds with
  | [] => ([], c)
  | cmd :: cmds' =>
      let '(r, c) := run_command cmd c in
      let '(rs, c) := run_commands cmds' c in (r :: rs, c)
  end.

(** * Lemmas *)

Definition light_of (c : Core) : Light :=
  {| l_on := ra_on c; l_actuated := ra_actuated c; l_subs := ra_subscriptions c |}.
Definition with_light (l : Light) (c : Core) : Core := set_light (l_on l) (l_actuated l) (l_subs l) c.

(** The two ends of a session: the same keys, and each counter equal to its peer's. *)
Definition in_sync (s : CoapSession) (c : Core) : Prop :=
  ra_session c =
    Some {| as_read_key := cs_read_key s; as_write_key := cs_write_key s; as_event_key := cs_event_key s;
            as_recv_ctr := cs_send_ctr s; as_send_ctr := cs_recv_ctr s; as_event_ctr := cs_event_ctr s |}.

Section refinement.
Context `{CA : Carries} {CL : CryptoLaws _} {BD : Build}.
Implicit Types conn : SecureCoapConnection T.

(** The connection reaches the accessory [c] over a live session. *)
Definition linked conn (c : Core) : Prop :=
  carrier_ok (sc_transport conn) /\ accessory_of (sc_transport conn) = c /\ in_sync (sc_session conn) c.

(** One secured round trip. *)
Lemma post_secure_ok conn c c1 pdu reqs resp :
  linked conn c -> decode_requests pdu = Ok reqs ->
  (forall s, handle_chars [] reqs (set_session s c) = (Ok resp, set_session s c1)) ->
  length pdu + 16 <= max_request -> length resp + 16 <= max_reply ->
  (Z.of_nat (length pdu) < 2 ^ 32)%Z -> (Z.of_nat (length resp) < 2 ^ 32)%Z ->
  exists conn' s', post_secure pdu conn = (Ok resp, conn') /\ linked conn' (set_session (Some s') c1).
Proof using CL.
  intros (Hok & Hacc & Hsync) Hdec Hch Hreq Hrep Hb1 Hb2. destruct conn as [t s]. cbn [sc_transport sc_session] in *.
  destruct (seal_open (cs_write_key s) (counter_nonce (cs_send_ctr s)) pdu Hb1) as (ct & Hs & Ho & Hlct).
  destruct (seal_open (cs_read_key s) (counter_nonce (cs_recv_ctr s)) resp Hb2) as (rt & Hs2 & Ho2 & Hlrt).
  set (a1 := {| as_read_key := cs_read_key s; as_write_key := cs_write_key s; as_event_key := cs_event_key s;
                as_recv_ctr := wrapping_add 64 (cs_send_ctr s) 1; as_send_ctr := cs_recv_ctr s;
                as_event_ctr := cs_event_ctr s |}).
  set (a2 := {| as_read_key := cs_read_key s; as_write_key := cs_write_key s; as_event_key := cs_event_key s;
                as_recv_ctr := wrapping_add 64 (cs_send_ctr s) 1; as_send_ctr := wrapping_add 64 (cs_recv_ctr s) 1;
                as_event_ctr := cs_event_ctr s |}).
  destruct (post_handled t PATH_SECURE ct Changed rt (set_session (Some a2) (set_session (Some a1) c1)))
    as (t' & Hpost & Hacc' & Hok').
  - done.
  - set_solver.
  - lia.
  - lia.
  - rewrite Hacc. change (secure_pdu ct c = (Ok (Changed, rt), set_session (Some a2) (set_session (Some a1) c1))).
    unfold secure_pdu. rewrite Hsync. unfold open_request. cbn [as_write_key as_recv_ctr].
    change (nonce_counter (cs_send_ctr s)) with (counter_nonce (cs_send_ctr s)). rewrite Ho. cbn [map_err].
    rewrite Hdec. cbn [as_read_key as_event_key as_send_ctr as_event_ctr]. fold a1. rewrite Hch.
    unfold seal_response. cbn [as_read_key as_send_ctr a1].
    change (nonce_counter (cs_recv_ctr s)) with (counter_nonce (cs_recv_ctr s)). by rewrite Hs2.
  - eexists {| sc_transport := t'; sc_session := _ |}, a2. split.
    + unfold post_secure, on_session, on_transport, seal_request, open_response. run.
      cbn [sc_session sc_transport]. rewrite Hs. cbn [sc_transport sc_session]. rewrite Hpost. cbn beta iota zeta.
      change (changed_payload _) with (Ok (E := ThreadError) rt). cbn [sc_transport sc_session cs_read_key cs_recv_ctr set_ctrs]. rewrite Ho2.
      reflexivity.
    + split; [done|]. split; [exact Hacc'|done].
Qed.

(** A whole batch: encode, round trip, decode. *)
Lemma batch_ok conn c c1 op entries (answers : list (Z * bytes)) :
  linked conn c -> Forall entry_ok entries -> length entries <= 256 ->
  Forall (fun r => in_u 8 r.1 /\ small_body r.2) answers ->
  (forall s, handle_chars [] (imap (request_of op) entries) (set_session s c) =
     (Ok (mjoin (imap (fun i r => encode_response (sat_u8 i) r.1 r.2) answers)), set_session s c1)) ->
  length (mjoin (imap (request_bytes op) entries)) + 16 <= max_request ->
  length (mjoin (imap (fun i r => encode_response (sat_u8 i) r.1 r.2) answers)) + 16 <= max_reply ->
  exists conn' s', linked conn' (set_session (Some s') c1) /\
    forall A (k : list Response -> stateful (SecureCoapConnection T) ThreadError A),
      (req ← lift (encode_all op entries); resp ← post_secure req; rs ← lift (decode_all resp); k rs) conn =
      k (imap (fun i r => {| resp_tid := sat_u8 i; resp_status := r.1; resp_body := r.2 |}) answers) conn'.
Proof using CL.
  intros Hl He H256 Ha Hh Hq Hr. pose proof max_request_u32. pose proof max_reply_u32.
  destruct (post_secure_ok conn c c1 _ _ _ Hl (decode_requests_batch op entries He H256) Hh)
    as (conn' & s' & Hp & Hl'); [lia..|].
  exists conn', s'. split; [done|]. intros A k. run. rewrite encode_all_ok by done. rewrite Hp.
  by rewrite decode_all_batch.
Qed.

(** *** What the accessory answers *)

Lemma with_light_of c : with_light (light_of c) c = c.
Proof. by destruct c. Qed.

Lemma handle_chars_read iids out idx (s : option AccessorySession) (c : Core) :
  Forall (in_u 16) iids -> idx + length iids <= 256 ->
  handle_chars out (imap (fun i iid => request_of CharRead (idx + i) (iid, [])) iids) (set_session s c) =
    (Ok (out ++ mjoin (imap (fun i r => encode_response (sat_u8 (idx + i)) r.1 r.2)
           ((fun iid => if (iid =? ON_IID)%Z then (STATUS_SUCCESS, value_body [Zbyte (bool_u8 (ra_on c))])
                        else (STATUS_INVALID_INSTANCE_ID, [])) <$> iids))),
     set_session s c).
Proof.
  intros Hi. revert out idx. induction Hi as [|iid iids Hiid Hi IH]; intros out idx Hn.
  { simpl. by rewrite app_nil_r. }
  cbn [length] in Hn. rewrite fmap_cons, !imap_cons. cbn [handle_chars mjoin list_join]. run.
  rewrite !Nat.add_0_r. change (sat_u8 idx) with (Z.min (Z.of_nat idx) 255). rewrite (Z.min_l (Z.of_nat idx)) by lia.
  assert (handle_char (request_of CharRead idx (iid, [])) (set_session s c) =
    (Ok (encode_response (Z.of_nat idx)
       (if (iid =? ON_IID)%Z then (STATUS_SUCCESS, value_body [Zbyte (bool_u8 (ra_on c))])
        else (STATUS_INVALID_INSTANCE_ID, [])).1
       (if (iid =? ON_IID)%Z then (STATUS_SUCCESS, value_body [Zbyte (bool_u8 (ra_on c))])
        else (STATUS_INVALID_INSTANCE_ID, [])).2), set_session s c)) as ->.
  { unfold handle_char, request_of. cbn [req_opcode req_iid req_tid fst snd op_u8].
    change (0x03 =? OP_READ_DATABASE)%Z with false. change (0x03 =? OP_CHAR_READ)%Z with true.
    cbv iota. by destruct (iid =? ON_IID)%Z. }
  cbv beta iota. rewrite (imap_ext _ (fun i iid => request_of CharRead (S idx + i) (iid, [])))
    by (intros i x _; simpl; do 2 f_equal; lia).
  rewrite IH by lia. f_equal. f_equal. rewrite <- app_assoc. f_equal. f_equal. f_equal.
  apply imap_ext. intros i x _. simpl. by replace (S (idx + i)) with (idx + S i) by lia.
Qed.

Lemma length_request_bytes op i e : length (request_bytes op i e) = 7 + length e.2.
Proof. unfold request_bytes. rewrite !length_app, !length_le_bytes. done. Qed.

Lemma length_encode_response tid st body : length (encode_response tid st body) = 5 + length body.
Proof. rewrite encode_response_bytes, !length_app, length_le_bytes. simpl. lia. Qed.

Lemma length_mjoin_imap {A B} (f : nat -> A -> list B) (l : list A) k :
  (forall i x, l !! i = Some x -> length (f i x) <= k) -> length (mjoin (imap f l)) <= k * length l.
Proof.
  revert f. induction l as [|x l IH]; intros f Hk; [simpl; lia|].
  rewrite imap_cons. cbn [mjoin list_join length]. rewrite length_app, Nat.mul_succ_r.
  rewrite Nat.add_comm. apply Nat.add_le_mono; [|by apply (Hk 0 x)].
  apply (IH (f ∘ S)). intros i y Hy. by apply (Hk (S i) y).
Qed.

(** *** The commands *)

(** Commands whose messages fit the transport. *)
Definition command_ok (cmd : Command) : Prop :=
  match cmd with
  | CmdRead iids => Forall (in_u 16) iids /\ length iids <= 256 /\
                    7 * length iids + 16 <= max_request /\ 8 * length iids + 16 <= max_reply
  | CmdWrite iid v => in_u 16 iid /\ small_body (encode_value_body v) /\
                      23 + length (encode_value_body v) <= max_request /\ 21 <= max_reply
  | CmdSubscribe iid | CmdUnsubscribe iid => in_u 16 iid /\ 23 <= max_request /\ 21 <= max_reply
  | CmdDatabase => 23 <= max_request /\ 2021 <= max_reply
  end.

(** A batch of one. *)
Lemma single_ok conn c c1 op iid body st ans :
  linked conn c -> in_u 16 iid -> small_body body -> in_u 8 st -> small_body ans ->
  (forall s, handle_char (request_of op 0 (iid, body)) (set_session s c) =
     (Ok (encode_response 0 st ans), set_session s c1)) ->
  23 + length body <= max_request -> 21 + length ans <= max_reply ->
  exists conn' s', linked conn' (set_session (Some s') c1) /\
    forall A (k : list Response -> stateful (SecureCoapConnection T) ThreadError A),
      (req ← lift (encode_all op [(iid, body)]); resp ← post_secure req; rs ← lift (decode_all resp); k rs) conn =
      k [{| resp_tid := 0; resp_status := st; resp_body := ans |}] conn'.
Proof using CL.
  intros Hl Hiid Hb Hst Ha Hh Hq Hr.
  apply (batch_ok conn c c1 op [(iid, body)] [(st, ans)]); try done.
  - by rewrite Forall_singleton.
  - simpl. lia.
  - by rewrite Forall_singleton.
  - intros s. cbn [imap handle_chars]. run. rewrite Hh. simpl. by rewrite app_nil_r.
  - cbn [imap mjoin list_join]. rewrite app_nil_r, length_request_bytes. simpl. lia.
  - cbn [imap mjoin list_join]. rewrite app_nil_r, length_encode_response. simpl. lia.
Qed.

Lemma read_refines conn c iids :
  linked conn c -> command_ok (CmdRead iids) ->
  exists conn' s', run_command (CmdRead iids) conn = (Ok (OValues (spec_read (light_of c) <$> iids)), conn') /\
    linked conn' (set_session (Some s') c).
Proof using CL.
  intros Hl (Hi & Hn & Hq & Hr).
  set (ans := (fun iid => if (iid =? ON_IID)%Z then (STATUS_SUCCESS, value_body [Zbyte (bool_u8 (ra_on c))])
                          else (STATUS_INVALID_INSTANCE_ID, [])) <$> iids).
  assert (forall r, r ∈ ans -> in_u 8 r.1 /\ length r.2 <= 3) as Hans.
  { intros r (iid & -> & _)%list_elem_of_fmap.
    destruct (iid =? ON_IID)%Z; (split; [done|simpl; lia]). }
  destruct (batch_ok conn c c CharRead ((fun iid => (iid, [])) <$> iids) ans) as (conn' & s' & Hl' & Hk).
  - done.
  - apply Forall_fmap. eapply Forall_impl; [exact Hi|]. intros z Hz. by split.
  - by rewrite length_fmap.
  - apply Forall_forall. intros r Hr'. destruct (Hans r Hr'). split; [done|]. unfold small_body, U16_MAX. lia.
  - intros s. rewrite imap_fmap. pose proof (handle_chars_read iids [] 0 s c Hi Hn) as Hh. exact Hh.
  - pose proof (length_mjoin_imap (request_bytes CharRead) ((fun iid => (iid, [])) <$> iids) 7) as H7.
    rewrite length_fmap in H7. ospecialize (H7 _); [|lia].
    intros i x Hx. rewrite length_request_bytes. apply list_lookup_fmap_Some in Hx as (z & -> & _). simpl. lia.
  - pose proof (length_mjoin_imap (fun i r => encode_response (sat_u8 i) r.1 r.2) ans 8) as H8.
    unfold ans in H8 at 3. rewrite length_fmap in H8. ospecialize (H8 _); [|lia].
    intros i r Hx. rewrite length_encode_response. apply list_elem_of_lookup_2, Hans in Hx as [_ ?]. lia.
  - exists conn', s'. split; [|done]. cbn [run_command].
    assert (read_characteristics iids conn = (Ok (spec_read (light_of c) <$> iids), conn')) as Hrd.
    { unfold read_characteristics. rewrite Hk. run. do 2 f_equal. unfold ans.
      rewrite fmap_imap, imap_fmap. etransitivity; [|apply imap_const]. apply imap_ext.
      intros i iid _. simpl. unfold spec_read, light_of. simpl. by destruct (iid =? ON_IID)%Z. }
    run. by rewrite Hrd.
Qed.

(** The single-characteristic methods share one shape: the accessory applies
    [apply_] to [On] and refuses any other instance id. *)
Lemma on_command_refines conn c op iid body (apply_ : Core -> Core) e :
  linked conn c -> in_u 16 iid -> small_body body -> 23 + length body <= max_request -> 21 <= max_reply ->
  (forall s, iid = ON_IID -> handle_char (request_of op 0 (iid, body)) (set_session s c) =
     (Ok (encode_response 0 STATUS_SUCCESS []), set_session s (apply_ c))) ->
  op <> ReadDatabase ->
  exists conn' s',
    (req ← lift (encode_all op [(iid, body)]); resp ← post_secure req; rs ← lift (decode_all resp);
     first ← lift (first_of rs e); lift (expect_status_ok first)) conn =
      ((if (iid =? ON_IID)%Z then Ok () else Err (PduStatus STATUS_INVALID_INSTANCE_ID)), conn') /\
    linked conn' (set_session (Some s') (if (iid =? ON_IID)%Z then apply_ c else c)).
Proof using CL.
  intros Hl Hi Hb Hq Hr Hon Hop. destruct (Z.eqb_spec iid ON_IID) as [He|He].
  - destruct (single_ok conn c (apply_ c) op iid body STATUS_SUCCESS []) as (conn' & s' & Hl' & Hk);
      [done..|intros s; by apply Hon|lia|simpl; lia|].
    exists conn', s'. split; [|done]. by rewrite Hk.
  - destruct (single_ok conn c c op iid body STATUS_INVALID_INSTANCE_ID []) as (conn' & s' & Hl' & Hk);
      [done..| |lia|simpl; lia|].
    + intros s. unfold handle_char, request_of. cbn [req_opcode req_iid req_tid fst snd].
      rewrite (proj2 (Z.eqb_neq (op_u8 op) OP_READ_DATABASE)) by (by destruct op).
      by rewrite (proj2 (Z.eqb_neq iid ON_IID)).
    + exists conn', s'. split; [|done]. by rewrite Hk.
Qed.

Lemma extract_value_body v : extract_value (encode_value_body v) = Ok v.
Proof. unfold extract_value, encode_value_body. by rewrite parse_items1. Qed.

(** One command through the wire is one step of the abstract light. *)
Lemma command_refines conn c cmd :
  linked conn c -> command_ok cmd ->
  exists conn' s', run_command cmd conn = ((spec_command cmd (light_of c)).1, conn') /\
    linked conn' (set_session (Some s') (with_light (spec_command cmd (light_of c)).2 c)).
Proof using CL.
  intros Hl Hok. destruct cmd as [iids|iid v|iid|iid|].
  - destruct (read_refines conn c iids Hl Hok) as (conn' & s' & Hr & Hl'). exists conn', s'.
    cbn [spec_command fst snd]. by rewrite with_light_of.
  - destruct Hok as (Hi & Hb & Hq & Hr).
    destruct (on_command_refines conn c CharWrite iid (encode_value_body v)
      (set_light (first_nonzero v) (ra_actuated c ++ [first_nonzero v]) (ra_subscriptions c))
      (MalformedPdu "empty write response")) as (conn' & s' & Hw & Hl'); [done..| |done|].
    { intros s ->. unfold handle_char, request_of. cbn [req_opcode req_iid req_tid req_body fst snd op_u8].
      by rewrite extract_value_body. }
    exists conn', s'. cbn [run_command spec_command]. unfold write_characteristic, spec_on. run.
    run_in Hw. rewrite Hw. destruct (iid =? ON_IID)%Z; [done|]. cbn [snd]. by rewrite with_light_of.
  - destruct Hok as (Hi & Hq & Hr).
    destruct (on_command_refines conn c Subscribe iid []
      (set_light (ra_on c) (ra_actuated c) ({[iid]} ∪ ra_subscriptions c))
      (MalformedPdu "empty subscribe response")) as (conn' & s' & Hw & Hl');
      [done..|simpl; lia|done| |done|].
    { by intros s ->. }
    exists conn', s'. cbn [run_command spec_command]. unfold subscribe, spec_on. run.
    run_in Hw. rewrite Hw. destruct (iid =? ON_IID)%Z; [done|]. cbn [snd]. by rewrite with_light_of.
  - destruct Hok as (Hi & Hq & Hr).
    destruct (on_command_refines conn c Unsubscribe iid []
      (set_light (ra_on c) (ra_actuated c) (ra_subscriptions c ∖ {[iid]}))
      (MalformedPdu "empty unsubscribe response")) as (conn' & s' & Hw & Hl');
      [done..|simpl; lia|done| |done|].
    { by intros s ->. }
    exists conn', s'. cbn [run_command spec_command]. unfold unsubscribe, spec_on. run.
    run_in Hw. rewrite Hw. destruct (iid =? ON_IID)%Z; [done|]. cbn [snd]. by rewrite with_light_of.
  - destruct Hok as (Hq & Hr).
    destruct (single_ok conn c c ReadDatabase 0 [] STATUS_SUCCESS synthetic_database)
      as (conn' & s' & Hl' & Hk); [done..| |done|simpl; lia| |].
    + by vm_compute.
    + change (length synthetic_database) with 2000. lia.
    + exists conn', s'. cbn [run_command spec_command fst snd]. rewrite with_light_of. split; [|done].
      unfold read_database_raw. pose proof (Hk Outcome (fun rs =>
        first ← lift (first_of rs (MalformedPdu "empty database response"));
        b ← (if (resp_status first =? 0)%Z then mret (resp_body first) else lift (Err (PduStatus (resp_status first))));
        mret (OBody b))) as Hk'. run_in Hk'. run.
      destruct (encode_all ReadDatabase [(0%Z, [])]) as [req|?|?]; [|done..].
      destruct (post_secure req conn) as [[resp|?|?] conn1]; [|done..].
      destruct (decode_all resp) as [rs|?|?]; [|done..].
      destruct (first_of rs _) as [fst_|?|?]; [|done..].
      by destruct (resp_status fst_ =? 0)%Z.
Qed.

Lemma commands_refine cmds conn c :
  linked conn c -> Forall command_ok cmds ->
  exists conn' s', run_commands cmds conn = ((spec_commands cmds (light_of c)).1, conn') /\
    linked conn' (set_session s' (with_light (spec_commands cmds (light_of c)).2 c)).
Proof using CL.
  intros Hl Hok. revert conn c Hl. induction Hok as [|cmd cmds Hcmd Hok IH]; intros conn c Hl.
  { exists conn, (ra_session c). split; [done|]. simpl. rewrite with_light_of. by destruct c. }
  destruct (command_refines conn c cmd Hl Hcmd) as (conn1 & s1 & Hr & Hl1).
  destruct (IH _ _ Hl1) as (conn2 & s2 & Hr2 & Hl2).
  exists conn2, s2. cbn [run_commands spec_commands]. rewrite Hr. rewrite Hr2.
  destruct (spec_command cmd (light_of c)) as [r l]. cbn [fst snd] in *.
  change (light_of (set_session (Some s1) (with_light l c))) with (light_of (with_light l c)) in *.
  assert (light_of (with_light l c) = l) as Hll by (by destruct l). rewrite Hll in *.
  destruct (spec_commands cmds l) as [rs l2]. done.
Qed.
End refinement.
