(* ===== verification/ThreadLink.v ===== *)
(** * The Thread stack end to end

    The pairing drivers and the secure operations of the controller against the
    reference accessory.  The first part is proved for any transport that [Carries];
    the second builds such a transport from the UDP transport, a network that may lose
    requests, and the accessory's datagram loop, in each of its response framings. *)

From S2P Require Import Prelude Text Tlv8 Crypto RecordLayer Srp PairSetup PairVerify DutPairing ThreadPdu Coap DutServer DutExchange ThreadAccessory.

Section drivers.
Context `{CA : Carries} {CL : CryptoLaws _}.
Implicit Types t : T.

Lemma post_changed t path payload reply c' :
  carrier_ok t -> path ∈ [PATH_PAIR_SETUP; PATH_PAIR_VERIFY; PATH_SECURE] ->
  length payload <= max_request -> length reply <= max_reply ->
  dut_handle (from_utf8_lossy path) payload (accessory_of t) = (Ok (Changed, reply), c') ->
  exists t', accessory_of t' = c' /\ carrier_ok t' /\
    forall A (k : bytes -> stateful T ThreadError A),
      (r ← post path payload; r ← lift (changed_payload r); k r) t = k reply t'.
Proof.
  intros Hok Hp Hq Hr Hh. destruct (post_handled _ _ _ _ _ _ Hok Hp Hq Hr Hh) as (t' & Hpost & Ha & Hok').
  exists t'. split; [done|]. split; [done|]. intros A k. run. by rewrite Hpost.
Qed.

(** *** Pair Verify over the transport *)

Lemma thread_verify t ctl secret_c :
  let c := accessory_of t in
  carrier_ok t -> ra_controller c = Some (kp_id ctl, ltpk ctl) ->
  short_id (kp_id ctl) -> short_id (ra_pairing_id c) -> 512 <= max_request -> 512 <= max_reply ->
  exists keys ek t' s,
    pair_verify_with_client
      (new_with_ephemeral ctl {| pairing_id := ra_pairing_id c; ap_ltpk := ltpk (ra_keypair c) |} secret_c) t =
      (Ok (keys, ek), t') /\
    linked {| sc_transport := t'; sc_session := coap_session_new keys ek |} (verified s c).
Proof using CL.
  intros c Hok Hctl Hid1 Hid2 Hq Hr.
  destruct (verify_exchange c ctl secret_c Hctl Hid1 Hid2)
    as (m2 & c1 & m3 & cl1 & m4 & keys & ek & cl2 & [E1 _] & Hm2 & E3 & [Hm4 Hek] & Hs & _).
  set (cl := new_with_ephemeral ctl _ secret_c) in *. rewrite !Forall_cons in Hs. destruct Hs as (L1 & L2 & L3 & L4 & _). unfold small_message in *.
  destruct (post_changed t PATH_PAIR_VERIFY (pv_start cl).1 m2 c1) as (t1 & Ha1 & Hok1 & Hp1); [done|set_solver|lia|lia|exact E1|].
  destruct (post_changed t1 PATH_PAIR_VERIFY m3 m4 (verified (accessory_session_new (sk_read_key keys) (sk_write_key keys) ek) c))
    as (t2 & Ha2 & Hok2 & Hp2); [done|set_solver|lia|lia|rewrite Ha1; exact E3|].
  assert (verify_loop 3 (pv_start cl).2 (pv_start cl).1 t = (Ok (keys, cl2), t2)) as Hloop.
  { etransitivity; [apply Hp1|]. cbv beta. rewrite Hm2. etransitivity; [apply Hp2|]. cbv beta. by rewrite Hm4. }
  eexists keys, ek, t2, _. split; [|split; [done|]; split; [exact Ha2|done]].
  unfold pair_verify_with_client. destruct (pv_start cl) as [m1 cl1']. cbn [fst snd] in *. run. by rewrite Hloop, Hek.
Qed.
End drivers.

(** *** Pair Setup over the transport *)

Section setup.
Context `{CA : Carries} {CL : CryptoLaws _} {BL : BigUintLaws _}.

Lemma thread_setup t code_c code_a ctl a c0 g :
  let c := accessory_of t in let salt := rnd_salt (draw c).1 in
  let s := with_salt_and_private g PAIR_SETUP_USERNAME (normalize_setup_code code_a) salt
             (from_bytes_be (rnd_b (draw c).1)) in
  carrier_ok t -> 512 <= max_request -> 512 <= max_reply -> ra_setup_code c = Some code_a ->
  new_with_private code_c ctl a = Ok c0 -> hap_group = Ok g ->
  normalize_setup_code code_c = normalize_setup_code code_a ->
  short_id (kp_id ctl) -> short_id (ra_pairing_id c) -> length salt <= 64 ->
  is_Some (from_utf8 (kp_id ctl)) -> is_Some (from_utf8 (ra_pairing_id c)) ->
  (sv_b_pub s mod modulus g <> 0)%Z -> (compute_u g (cl_a_pub (srp c0)) (sv_b_pub s) <> 0)%Z ->
  exists t', thread_pair_setup a code_c ctl t =
      (Ok {| pairing_id := ra_pairing_id c; ap_ltpk := ltpk (ra_keypair c) |}, t') /\
    accessory_of t' = paired ctl c /\ carrier_ok t'.
Proof using CL BL.
  intros c salt s Hok Hq Hr Hcode Hnew Hg Hnorm Hid1 Hid2 Hsalt Hu1 Hu2 HB0 Hu.
  destruct (setup_exchange c code_c code_a ctl a c0 g Hcode Hnew Hg Hnorm Hid1 Hid2 Hsalt Hu1 Hu2 HB0 Hu)
    as (m2 & c1 & m3 & cl1 & m4 & c2 & m5 & cl2 & m6 & cl3 & [E1 Hm2] & [E3 Hm4] & [E5 Hm6] & Hs & _).
  rewrite !Forall_cons in Hs. destruct Hs as (L1 & L2 & L3 & L4 & L5 & L6 & _). unfold small_message in *. set (m0 := (start c0).1) in *.
  destruct (post_changed t PATH_PAIR_SETUP m0 m2 c1) as (t1 & Ha1 & Hok1 & Hp1); [done|set_solver|lia|lia|exact E1|].
  destruct (post_changed t1 PATH_PAIR_SETUP m3 m4 c2) as (t2 & Ha2 & Hok2 & Hp2); [done|set_solver|lia|lia|rewrite Ha1; exact E3|].
  destruct (post_changed t2 PATH_PAIR_SETUP m5 m6 (paired ctl c)) as (t3 & Ha3 & Hok3 & Hp3);
    [done|set_solver|lia|lia|rewrite Ha2; exact E5|].
  exists t3. split; [|done]. unfold thread_pair_setup. rewrite Hnew. run. cbn [map_err].
  destruct (start c0) as [o cl]. cbn [fst snd] in *.
  etransitivity; [apply Hp1|]. cbv beta. rewrite Hm2.
  etransitivity; [apply Hp2|]. cbv beta. rewrite Hm4.
  etransitivity; [apply Hp3|]. cbv beta. by rewrite Hm6.
Qed.
End setup.

(** ** The drivers terminate

    Each [Send] moves the client one state on, so the loops turn at most three and two
    times whatever the transport returns. *)

Section drivers_return.
Context `{C : Crypto} {B : BigUintOps} {BL : BigUintLaws B} `{CoapTransport T}.
Hypothesis post_returns : forall path payload (t : T), returns (post path payload t).1.

Definition setup_rank (c : PairSetupClient) : nat :=
  match ps_state c with AwaitingM2 => 2 | AwaitingM4 _ _ => 1 | _ => 0 end.

Definition verify_rank (c : PairVerifyClient) : nat :=
  match pv_state c with AwaitM2 => 1 | _ => 0 end.

Lemma ps_finish_m6_done K m p : ps_finish_m6 K m = Ok p -> exists q, p = Done q.
Proof. unfold ps_finish_m6. intros Hf. do 12 bind_inv Hf. simplify_eq. by eexists. Qed.

Lemma handle_send_rank c reply m c' : handle c reply = (Ok (Send m), c') -> setup_rank c' < setup_rank c.
Proof.
  unfold handle, keep, setup_rank. destruct (x ← _; _) as [mp|e|f]; [|done..].
  destruct (ps_state c) as [| |K m1|K|] eqn:Es; try done.
  - destruct (ps_handle_m2 c mp) as [[st s]| |] eqn:E2; try done. intros [= -> <-].
    apply ps_handle_m2_inv in E2 as (K & m1 & -> & _). simpl. lia.
  - destruct (ps_handle_m4 c mp) as [[st s]| |] eqn:E4; try done. intros [= -> <-].
    destruct (ps_handle_m4_inv _ _ _ _ _ _ Es E4) as (-> & _). simpl. lia.
  - unfold ps_handle_m6. destruct (ps_expect_state mp STATE_M6); rewrite ?Es; try done.
    intros [= Hf _]. apply ps_finish_m6_done in Hf as [q Hq]. done.
Qed.

Lemma pv_handle_send_rank c reply m c' : pv_handle c reply = (Ok (PvSend m), c') -> verify_rank c' < verify_rank c.
Proof.
  unfold pv_handle, pv_keep, verify_rank. destruct (pv_state c); try done.
  - destruct (pv_handle_m2 c reply) as [[[st sh] s]| |] eqn:E; try done. intros [= -> <-].
    apply pv_handle_m2_inv in E as (x & -> & -> & _). simpl. lia.
  - destruct (pv_handle_m4 c reply) as [[[st sh] s]| |] eqn:E; try done. intros [= -> <-].
    by apply pv_handle_m4_inv in E as (x & r & w & _ & _ & _ & Hst & _).
Qed.

Lemma returns_changed_payload r : returns (changed_payload r).
Proof. unfold changed_payload. by repeat case_match. Qed.

(** The request half of a turn. *)
Lemma turn_returns {A} path out (t : T) (k : bytes -> stateful T ThreadError A) :
  (forall reply t', returns (k reply t').1) ->
  returns ((r ← post path out; r ← lift (changed_payload r); k r) t).1.
Proof using post_returns.
  intros Hk. run. pose proof (post_returns path out t) as Hp.
  destruct (post path out t) as [[r|e|f] t1]; try done.
  pose proof (returns_changed_payload r) as Hc. by destruct (changed_payload r).
Qed.

Lemma setup_loop_returns fuel c out t :
  setup_rank c < fuel -> (0 < modulus (cl_group (srp c)))%Z -> returns (setup_loop fuel c out t).1.
Proof using post_returns BL.
  revert c out t. induction fuel as [|fuel IH]; intros c out t Hr Hm; [lia|].
  cbn [setup_loop]. apply turn_returns. intros reply t'. destruct (handle c reply) as [st c'] eqn:Eh.
  pose proof (handle_returns_lemma c reply Hm) as Hret. rewrite Eh in Hret.
  run. destruct st as [[next|p]|e|f]; cbn [map_err]; try done.
  pose proof (handle_send_rank _ _ _ _ Eh). apply IH; [lia|].
  pose proof (ps_next_fixed c (Receive reply)) as [Hfix _]. cbn [ps_next] in Hfix. rewrite Eh in Hfix. cbn in Hfix. by rewrite Hfix.
Qed.

Lemma verify_loop_returns fuel c out t :
  verify_rank c < fuel -> returns (verify_loop fuel c out t).1.
Proof using post_returns.
  revert c out t. induction fuel as [|fuel IH]; intros c out t Hr; [lia|].
  cbn [verify_loop]. apply turn_returns. intros reply t'. destruct (pv_handle c reply) as [st c'] eqn:Eh.
  pose proof (returns_pv_handle c reply) as Hret. rewrite Eh in Hret.
  run. destruct st as [[next|p]|e|f]; cbn [map_err]; try done.
  pose proof (pv_handle_send_rank _ _ _ _ Eh). apply IH. lia.
Qed.
End drivers_return.

(** ** A network that ends in the accessory's datagram loop

    A datagram the controller sends is lost where the loss schedule says so, else
    the accessory serves it and its datagrams wait for the controller's next read. *)

Record Loop := { lp_acc : ReferenceAccessory; lp_wire : list bytes; lp_losses : list bool }.

Definition PEER : Z := 1.

(** No four consecutive datagrams are lost; [run] have just been. *)
Fixpoint lossy_ok (run : nat) (losses : list bool) : bool :=
  match losses with
  | [] => true
  | true :: l => (run <? 3) && lossy_ok (S run) l
  | false :: l => lossy_ok 0 l
  end.

Section loop_network.
Context `{C : Crypto} `{B : BigUintOps} `{L : CoapLite}.

Definition loop_deliver (b : bytes) (losses : list bool) (n : Loop) : Loop :=
  match serve_datagram PEER b (lp_acc n) with
  | (Ok out, a) => {| lp_acc := a; lp_wire := lp_wire n ++ out; lp_losses := losses |}
  | (_, a) => {| lp_acc := a; lp_wire := lp_wire n; lp_losses := losses |}
  end.

Definition loop_send (b : bytes) (n : Loop) : result Z () * Loop :=
  match lp_losses n with
  | true :: l => (Ok (), {| lp_acc := lp_acc n; lp_wire := lp_wire n; lp_losses := l |})
  | l => (Ok (), loop_deliver b (tail l) n)
  end.

Definition loop_arrive (n : Loop) : list (result Z bytes) * Loop :=
  (Ok <$> lp_wire n, {| lp_acc := lp_acc n; lp_wire := []; lp_losses := lp_losses n |}).

#[local] Instance loop_network : Network Loop := {| net_send := loop_send; net_arrive := loop_arrive |}.

(** A transport between exchanges. *)
Definition at_rest (mid : Z) (ev : list bytes) (a : ReferenceAccessory) (losses : list bool)
    (pend : gmap bytes (list Packet)) : UdpCoapTransport Loop :=
  {| ut_net := {| lp_acc := a; lp_wire := []; lp_losses := losses |}; ut_message_id := mid;
     ut_pending := pend; ut_events := ev; ut_reading := true |}.

(** The datagrams [out] give the exchange waiting for [token] the packet [p]. *)
Definition routes (token : bytes) (out : list bytes) (p : Packet) : Prop :=
  forall u : UdpCoapTransport Loop, ut_pending u = {[token := []]} ->
    reader_loop (Ok <$> out) u = set_pending {[token := [p]]} u.

Context {LL : CoapLiteLaws L}.

Lemma lossy_ok_mono run run' l : run' <= run -> lossy_ok run l = true -> lossy_ok run' l = true.
Proof.
  revert run run'. induction l as [|[] l IH]; intros run run' Hle; simpl; [done| |done].
  intros [Hr Hl]%andb_prop. apply Nat.ltb_lt in Hr. rewrite (proj2 (Nat.ltb_lt _ _)) by lia.
  by apply (IH (S run)); [lia|].
Qed.

Lemma lossy_ok_tail run l : lossy_ok run l = true -> lossy_ok 0 (tail l) = true.
Proof.
  destruct l as [|[] l]; simpl; try done. intros [_ H]%andb_prop. eapply lossy_ok_mono; [|done]. lia.
Qed.

(** A decoded datagram is the packet that was encoded, in either receive buffer. *)
Lemma from_bytes_buf p b n : packet_ok p -> to_bytes p = Some b -> 1280 <= n -> from_bytes (take n b) = Some p.
Proof using LL.
  intros Hp Hb Hn. destruct (to_bytes_total p Hp) as (b' & Hb' & Hl). simplify_eq.
  rewrite take_ge by lia. by apply from_to_bytes.
Qed.

Lemma reader_step_routes p b (u : UdpCoapTransport Loop) q :
  packet_ok p -> to_bytes p = Some b -> is_event_put p = false -> ut_pending u !! pk_token p = Some q ->
  reader_step b u = set_pending (<[pk_token p := q ++ [p]]> (ut_pending u)) u.
Proof using LL.
  intros Hp Hb He Hq. unfold reader_step, RECV_BUF. rewrite (from_bytes_buf p) by (done || lia).
  by rewrite He, Hq.
Qed.

Lemma routes_single p b :
  packet_ok p -> to_bytes p = Some b -> is_event_put p = false -> routes (pk_token p) [b] p.
Proof using LL.
  intros Hp Hb He u Hu. cbn [fmap list_fmap reader_loop].
  rewrite (reader_step_routes p b u []); [|done..|by rewrite Hu, lookup_singleton_eq].
  by rewrite Hu, insert_singleton_eq.
Qed.

(** A separate response: the empty ACK carries no token and reaches nobody. *)
Lemma routes_separate p b e be :
  packet_ok p -> to_bytes p = Some b -> is_event_put p = false -> pk_token p <> [] ->
  packet_ok e -> to_bytes e = Some be -> is_event_put e = false -> pk_token e = [] ->
  routes (pk_token p) [be; b] p.
Proof using LL.
  intros Hp Hb Hev Ht He Hbe Heve Hte u Hu. cbn [fmap list_fmap reader_loop].
  assert (reader_step be u = u) as ->; [|by apply (routes_single p b)].
  unfold reader_step, RECV_BUF. rewrite (from_bytes_buf e) by (done || lia).
  rewrite Heve, Hte, Hu, lookup_singleton_ne by done. done.
Qed.

(** *** One exchange *)

(** Sending an acknowledgement changes nothing but the loss schedule. *)
Lemma send_empty_ack_loop mid' mid ev a losses pend :
  in_u 16 mid' ->
  send_empty_ack mid' (at_rest mid ev a losses pend) = (Ok (), at_rest mid ev a (tail losses) pend).
Proof using LL.
  intros Hm. unfold send_empty_ack. set (ack := {| pk_type := Acknowledgement |}).
  assert (packet_ok ack) as Hp.
  { split; cbn; try done; try lia. }
  destruct (to_bytes_total ack Hp) as (b & Hb & Hl). rewrite Hb. run. cbn [ok_or].
  unfold socket_send, at_rest. cbn [ut_net net_send loop_network]. unfold loop_send. cbn [lp_losses].
  assert (loop_deliver b (tail losses) {| lp_acc := a; lp_wire := []; lp_losses := losses |} =
            {| lp_acc := a; lp_wire := []; lp_losses := tail losses |}) as Hd.
  { unfold loop_deliver, serve_datagram, DUT_RECV_BUF. rewrite (from_bytes_buf ack) by (done || lia).
    cbn [ack pk_type]. rewrite bool_decide_true by done. done. }
  destruct losses as [|[] l]; [by rewrite Hd|done|by rewrite Hd].
Qed.

Lemma accept_loop p mid ev a losses pend run :
  in_u 16 (pk_mid p) -> lossy_ok run losses = true ->
  exists losses', accept p (at_rest mid ev a losses pend) = (Ok p, at_rest mid ev a losses' pend) /\
    lossy_ok 0 losses' = true.
Proof using LL.
  intros Hm Hl. unfold accept. case_bool_decide.
  - exists (tail losses). run. rewrite send_empty_ack_loop by done. split; [done|]. by eapply lossy_ok_tail.
  - exists losses. split; [done|]. eapply lossy_ok_mono; [|done]. lia.
Qed.

Section exchange_loop.
Context (b token : bytes) (p : Packet) (out : list bytes) (a a' : ReferenceAccessory).
Context (Hserve : serve_datagram PEER b a = (Ok out, a')) (Hroute : routes token out p)
  (Hne : is_empty p = false) (Hmid : in_u 16 (pk_mid p)).

Lemma recv_lost mid ev losses :
  recv_timeout token (at_rest mid ev a losses {[token := []]}) =
    (Ok Elapsed, at_rest mid ev a losses {[token := []]}).
Proof.
  unfold recv_timeout, pop_queue, reader_wait, at_rest. cbn [ut_pending ut_net net_arrive loop_network].
  rewrite lookup_singleton_eq, bool_decide_false by done. cbn. by rewrite lookup_singleton_eq.
Qed.

Lemma recv_delivered mid ev losses :
  recv_timeout token
    {| ut_net := {| lp_acc := a'; lp_wire := out; lp_losses := losses |}; ut_message_id := mid;
       ut_pending := {[token := []]}; ut_events := ev; ut_reading := true |} =
    (Ok (Received p), at_rest mid ev a' losses {[token := []]}).
Proof using Hroute.
  set (u := {| ut_net := _ |}).
  assert (reader_wait u = set_pending {[token := [p]]} (at_rest mid ev a' losses {[token := []]})) as Hw
    by (by apply (Hroute (at_rest mid ev a' losses {[token := []]}))).
  unfold recv_timeout, pop_queue. rewrite Hw. unfold u, at_rest. cbn [ut_pending set_pending].
  rewrite !lookup_singleton_eq, bool_decide_false by done. cbv iota.
  unfold set_pending. cbn [ut_net ut_message_id ut_events ut_reading]. by rewrite insert_singleton_eq.
Qed.

(** Retransmission outlasts the losses. *)
Lemma transmit_loop n run mid ev losses :
  n + run = MAX_TRANSMISSIONS -> lossy_ok run losses = true -> run < 4 ->
  exists losses', transmit n b token (at_rest mid ev a losses {[token := []]}) =
      (Ok (Some p, false), at_rest mid ev a' losses' {[token := []]}) /\ lossy_ok 0 losses' = true.
Proof using Hserve Hroute Hne Hmid LL.
  revert run losses. induction n as [|n IH]; intros run losses Hn Hl Hr; [unfold MAX_TRANSMISSIONS in Hn; lia|].
  assert ((exists l, losses = true :: l) \/
    socket_send b (at_rest mid ev a losses {[token := []]}) =
      (Ok (), {| ut_net := {| lp_acc := a'; lp_wire := out; lp_losses := tail losses |}; ut_message_id := mid;
                 ut_pending := {[token := []]}; ut_events := ev; ut_reading := true |})) as [[l ->]|Hs].
  { unfold socket_send, at_rest. cbn [ut_net net_send loop_network]. unfold loop_send, loop_deliver. cbn [lp_losses lp_acc].
    rewrite Hserve. destruct losses as [|[] l]; [by right|left; by eexists|by right]. }
  - cbn [lossy_ok] in Hl. apply andb_prop in Hl as [Hr3 Hl]. apply Nat.ltb_lt in Hr3.
    destruct (IH (S run) l) as (losses' & Ht & Hl'); [lia|done|lia|].
    exists losses'. split; [|done]. cbn [transmit]. run.
    change (socket_send b (at_rest mid ev a (true :: l) {[token := []]}))
      with (Ok (E := ThreadError) (), at_rest mid ev a l {[token := []]}).
    cbv beta iota. rewrite recv_lost. exact Ht.
  - cbn [transmit]. run. rewrite Hs. cbv beta iota. rewrite recv_delivered. cbv beta iota. rewrite Hne.
    destruct (accept_loop p mid ev a' (tail losses) {[token := []]} 0 Hmid) as (losses' & Ha & Hl');
      [by eapply lossy_ok_tail|].
    rewrite Ha. by exists losses'.
Qed.
End exchange_loop.

Lemma exchange_loop fuel req b p out mid ev a a' losses :
  to_bytes req = Some b -> serve_datagram PEER b a = (Ok out, a') -> routes (pk_token req) out p ->
  is_empty p = false -> in_u 16 (pk_mid p) -> lossy_ok 0 losses = true ->
  exists losses', exchange fuel req (pk_token req) (at_rest mid ev a losses ∅) =
      (Ok p, at_rest mid ev a' losses' ∅) /\ lossy_ok 0 losses' = true.
Proof using LL.
  intros Hb Hs Hr Hne Hm Hl.
  destruct (transmit_loop b (pk_token req) p out a a' Hs Hr Hne Hm MAX_TRANSMISSIONS 0 mid ev losses)
    as (losses' & Ht & Hl'); [done..|lia|].
  exists losses'. split; [|done]. unfold exchange. rewrite Hb. run. cbn [ok_or]. unfold deregister.
  change (set_pending (<[pk_token req:=[]]> (ut_pending (at_rest mid ev a losses ∅))) (at_rest mid ev a losses ∅))
    with (at_rest mid ev a losses (<[pk_token req:=[]]> ∅)).
  rewrite insert_empty. unfold exchange_inner. run. rewrite Ht. cbv beta iota.
  unfold at_rest, set_pending. cbn [ut_net ut_pending ut_message_id ut_events ut_reading].
  by rewrite delete_singleton_eq.
Qed.

(** *** The accessory's framings *)

(** What the datagram loop keeps of its configuration. *)
Definition serving (bs : option nat) (a : ReferenceAccessory) : Prop :=
  in_u 16 (ra_next_mid a) /\ ra_blockwise a = bs /\
  forall n, bs = Some n -> block_size_ok (Z.of_nat n).

Lemma wrapping_u16 z k : in_u 16 (wrapping_add 16 z k).
Proof. unfold wrapping_add, in_u. apply Z.mod_pos_bound. lia. Qed.

Lemma length_u16_be z : length (u16_be z) = 2.
Proof. done. Qed.

Lemma response_code_ok c : in_u 8 (response_code c) /\ (response_code c =? 0)%Z = false /\
  (Z.shiftr (response_code c) 5 =? 0)%Z = false.
Proof. by destruct c. Qed.

(** A response packet to the exchange of [token]. *)
Definition response_packet (ty : MessageType) (code : ResponseType) (mid : Z) (token : bytes)
    (blk : option BlockValue) (payload : bytes) : Packet :=
  {| pk_type := ty; pk_code := response_code code; pk_mid := mid; pk_token := token;
     pk_uri_path := None; pk_block2 := blk; pk_payload := payload |}.

Lemma response_packet_ok ty code mid token blk payload :
  in_u 16 mid -> length token <= 8 -> length payload <= 1200 -> (forall b, blk = Some b -> block_ok b) ->
  let p := response_packet ty code mid token blk payload in
  packet_ok p /\ is_event_put p = false /\ is_empty p = false /\ exists b, to_bytes p = Some b.
Proof using LL.
  intros Hm Ht Hp Hb p. destruct (response_code_ok code) as (H8 & H0 & H5).
  assert (packet_ok p) as Hok by (by split).
  split; [done|]. split; [unfold is_event_put, p; cbn; by rewrite H5, andb_false_r|]. split; [done|].
  destruct (to_bytes_total p Hok) as (b & Hb' & _). by exists b.
Qed.

Lemma send_response_plain bs req code payload a :
  serving bs a -> in_u 16 (pk_mid req) -> length (pk_token req) = 2 -> length payload <= 1200 ->
  (forall n, bs = Some n -> length payload <= n) ->
  exists out a' ty mid, send_response PEER req code payload a = (out, a') /\
    let p := response_packet ty code mid (pk_token req) None payload in
    routes (pk_token req) out p /\ is_empty p = false /\ in_u 16 mid /\
    ra_core a' = ra_core a /\ serving bs a'.
Proof using LL.
  intros (Hn & Hbs & Hsz) Hm Ht Hl Hle. unfold send_response.
  assert (forall X (y : X) (x : nat -> X), match ra_blockwise a with
            | Some n => if n <? length payload then x n else y | None => y end = y) as Hplain.
  { intros X y x. rewrite Hbs. destruct bs as [n|]; [|done].
    by rewrite (proj2 (Nat.ltb_ge _ _)) by (by apply Hle). }
  rewrite Hplain. destruct (ra_slow a).
  - destruct (response_packet_ok Confirmable code (ra_next_mid a) (pk_token req) None payload)
      as (Hp & He & Hne & b & Hb); [done|lia|done|done|].
    set (e := {| pk_type := Acknowledgement; pk_code := 0 |}).
    assert (packet_ok e) as Hpe by (split; cbn; try done; lia).
    destruct (to_bytes_total e Hpe) as (be & Hbe & _).
    eexists _, _, Confirmable, (ra_next_mid a). split; [reflexivity|].
    cbv zeta. unfold encode_packet. rewrite Hbe. unfold response_packet in *. rewrite Hb. cbn [app].
    split; [apply (routes_separate (response_packet Confirmable code (ra_next_mid a) (pk_token req) None payload) b e);
      try done; by destruct (pk_token req)|].
    split; [done|]. split; [done|]. split; [done|]. by split; [apply wrapping_u16|].
  - destruct (response_packet_ok Acknowledgement code (pk_mid req) (pk_token req) None payload)
      as (Hp & He & Hne & b & Hb); [done|lia|done|done|].
    eexists _, _, Acknowledgement, (pk_mid req). split; [reflexivity|].
    cbv zeta. unfold encode_packet. unfold response_packet in *. rewrite Hb.
    split; [by apply (routes_single (response_packet Acknowledgement code (pk_mid req) (pk_token req) None payload))|].
    split; [done|]. split; [done|]. by split.
Qed.

(** Block [num] of [full]. *)
Definition block_of (full : bytes) (num bs : nat) : bytes := take bs (drop (num * bs) full).
Definition block_value (full : bytes) (num bs : nat) : BlockValue :=
  {| bv_num := Z.of_nat num; bv_more := S num * bs <? length full; bv_size := Z.of_nat bs |}.

Lemma block_size_bound n : block_size_ok (Z.of_nat n) -> 16 <= n <= 1024.
Proof. unfold block_size_ok. intros H. repeat (apply elem_of_cons in H as [H|H]; [lia|]). by apply not_elem_of_nil in H. Qed.

Lemma send_block_ok mid token code full num bs a :
  in_u 16 mid -> length token = 2 -> block_size_ok (Z.of_nat bs) -> num * bs < length full -> num < 4096 ->
  exists out a', send_block mid token code full num bs a = (out, a') /\
    let p := response_packet Acknowledgement code mid token (Some (block_value full num bs)) (block_of full num bs) in
    routes token out p /\ is_empty p = false /\
    a' = if S num * bs <? length full then a else set_cache None a.
Proof using LL.
  intros Hm Ht Hbs Hlt Hnum. pose proof (block_size_bound _ Hbs) as Hb. unfold send_block.
  rewrite (Nat.min_l (num * bs)) by lia.
  assert (((num * bs + bs) `min` length full <? length full) = (S num * bs <? length full)) as Hmore.
  { destruct (Nat.ltb_spec (S num * bs) (length full)); [apply Nat.ltb_lt|apply Nat.ltb_ge]; lia. }
  rewrite Hmore. rewrite block_value_new_ok by (split; cbn; [lia|done]).
  assert (take ((num * bs + bs) `min` length full - num * bs) (drop (num * bs) full) = block_of full num bs) as ->.
  { unfold block_of. destruct (decide (num * bs + bs <= length full)).
    - rewrite Nat.min_l by lia. f_equal. lia.
    - rewrite Nat.min_r by lia. rewrite !take_ge by (rewrite length_drop; lia). done. }
  destruct (response_packet_ok Acknowledgement code mid token (Some (block_value full num bs)) (block_of full num bs))
    as (Hp & He & Hne & b & Hb'); [done|lia|unfold block_of; rewrite length_take; lia|intros ? [= <-]; split; cbn; [lia|done]|].
  eexists _, _. split; [reflexivity|]. cbv zeta. split; [|split; [done|by destruct (S num * bs <? length full)]].
  unfold encode_packet. unfold response_packet, block_value in *. rewrite Hb'.
  by apply (routes_single (response_packet Acknowledgement code mid token (Some (block_value full num bs))
              (block_of full num bs))).
Qed.

(** *** Requests as the accessory sees them *)

Definition request_packet (mid : Z) (token path payload : bytes) (blk : option BlockValue) : Packet :=
  {| pk_type := Confirmable; pk_code := CODE_POST; pk_mid := mid; pk_token := token;
     pk_uri_path := (if bool_decide (path = []) then None else Some path);
     pk_block2 := blk; pk_payload := payload |}.

Lemma request_packet_ok mid token path payload blk :
  in_u 16 mid -> length token = 2 -> length path <= 16 -> length payload <= 1200 ->
  (forall b, blk = Some b -> block_ok b) -> packet_ok (request_packet mid token path payload blk).
Proof.
  intros Hm Ht Hp Hl Hb. split; cbn; try done; try lia. intros s. case_bool_decide; [done|]. by intros [= <-].
Qed.

Lemma serve_request mid token path payload b a code reply c' :
  packet_ok (request_packet mid token path payload None) ->
  to_bytes (request_packet mid token path payload None) = Some b ->
  dut_handle (from_utf8_lossy path) payload (ra_core a) = (Ok (code, reply), c') ->
  serve_datagram PEER b a =
    let '(out, a) := send_response PEER (request_packet mid token path payload None) code reply
                       (set_core c' (set_peer (Some PEER) a)) in (Ok out, a).
Proof using LL.
  intros Hok Hb Hh. unfold serve_datagram, DUT_RECV_BUF.
  rewrite (from_bytes_buf (request_packet mid token path payload None)) by (done || lia).
  cbn [request_packet pk_type pk_payload pk_uri_path]. rewrite bool_decide_false by done.
  assert (continuation (request_packet mid token path payload None) (set_peer (Some PEER) a) = None) as Hc
    by (unfold continuation; by destruct (ra_blockwise _)).
  rewrite Hc.
  assert (default [] (from_utf8_lossy <$> (if bool_decide (path = []) then None else Some path)) =
            from_utf8_lossy path) as -> by (by case_bool_decide; [subst|]).
  change (ra_core (set_peer (Some PEER) a)) with (ra_core a). by rewrite Hh.
Qed.

Lemma serve_continuation mid token path b a num bs cache :
  let req := request_packet mid token path [] (Some {| bv_num := Z.of_nat num; bv_more := false; bv_size := Z.of_nat bs |}) in
  packet_ok req -> to_bytes req = Some b -> 0 < num ->
  ra_blockwise a = Some bs -> ra_block_cache a = Some cache -> bw_peer cache = PEER ->
  serve_datagram PEER b a =
    let '(out, a) := send_block mid token (bw_code cache) (bw_payload cache) num bs (set_peer (Some PEER) a) in
    (Ok out, a).
Proof using LL.
  intros req Hok Hb Hn Hbs Hc Hp. unfold serve_datagram, DUT_RECV_BUF.
  rewrite (from_bytes_buf req) by (done || lia).
  cbn [req request_packet pk_type]. rewrite bool_decide_false by done.
  assert (continuation req (set_peer (Some PEER) a) = Some (Z.of_nat num)) as Hcont.
  { unfold continuation. cbn [set_peer ra_blockwise]. rewrite Hbs. cbn [requested_block req request_packet pk_block2 fmap option_fmap option_map bv_num].
    by rewrite (proj2 (Z.ltb_lt _ _)) by lia. }
  fold req. rewrite Hcont. unfold serve_cached_block. cbn [set_peer ra_blockwise ra_block_cache].
  rewrite Hbs, Hc, Hp, Z.eqb_refl. cbn [pk_mid pk_token]. by rewrite Nat2Z.id.
Qed.

(** *** Block-wise reassembly *)

Lemma take_S_block (full : bytes) num bs :
  take (S num * bs) full ++ block_of full (S num) bs = take (S (S num) * bs) full.
Proof. unfold block_of. rewrite take_take_drop. f_equal. lia. Qed.

Lemma fetch_blocks_loop bf fuel path code full bs num mid ev a losses :
  length path <= 16 -> block_size_ok (Z.of_nat bs) -> length full <= bs * 1024 -> length full + bs <= bf * bs + S num * bs ->
  ra_blockwise a = Some bs -> num * bs < length full ->
  ra_block_cache a = Some {| bw_peer := PEER; bw_code := code; bw_payload := full |} \/ length full <= S num * bs ->
  in_u 16 mid -> lossy_ok 0 losses = true -> 0 < bf ->
  exists mid' losses' a',
    fetch_blocks bf fuel path (Z.of_nat bs) (block_value full num bs) (Z.of_nat (S num))
      (split_code (response_packet Acknowledgement code 0 [] None [])) (take (S num * bs) full)
      (at_rest mid ev a losses ∅) =
      (Ok {| cr_code := split_code (response_packet Acknowledgement code 0 [] None []); cr_payload := full |},
       at_rest mid' ev a' losses' ∅) /\
    in_u 16 mid' /\ lossy_ok 0 losses' = true /\
    ra_core a' = ra_core a /\ ra_next_mid a' = ra_next_mid a /\ ra_blockwise a' = Some bs.
Proof using LL.
  intros Hpath Hsz Hmax. pose proof (block_size_bound _ Hsz) as Hb.
  revert num mid a losses. induction bf as [|bf IH]; intros num mid a losses Hbf Hbw Hnum Hcache Hmid Hloss Hpos; [lia|].
  cbn [fetch_blocks]. cbn [block_value bv_more bv_num].
  destruct (Nat.ltb_spec (S num * bs) (length full)) as [Hmore|Hdone]; cycle 1.
  { exists mid, losses, a. rewrite take_ge by lia. done. }
  destruct Hcache as [Hcache|?]; [|lia].
  assert (S num < 1024) as H1024 by nia.
  rewrite (proj2 (Z.leb_gt _ _)) by (unfold MAX_BLOCKS; lia).
  assert (block_value_new (Z.of_nat num + 1) false (Z.of_nat bs) =
    Some {| bv_num := Z.of_nat (S num); bv_more := false; bv_size := Z.of_nat bs |}) as Hbv.
  { replace (Z.of_nat num + 1)%Z with (Z.of_nat (S num)) by lia. apply block_value_new_ok. split; cbn; [lia|done]. }
  rewrite Hbv. cbn [ok_or].
  set (mid1 := wrapping_add 16 mid 1). set (mid2 := wrapping_add 16 mid1 1).
  set (req := request_packet mid1 (u16_be mid) path [] (Some {| bv_num := Z.of_nat (S num); bv_more := false; bv_size := Z.of_nat bs |})).
  assert (packet_ok req) as Hreq.
  { apply request_packet_ok; try done; [apply wrapping_u16|simpl; lia|]. intros ? [= <-]. split; cbn; [lia|done]. }
  destruct (to_bytes_total req Hreq) as (b & Hbytes & _).
  pose proof (serve_continuation mid1 (u16_be mid) path b a (S num) bs _ Hreq Hbytes ltac:(lia) Hbw Hcache eq_refl) as Hserve.
  cbn [bw_code bw_payload] in Hserve.
  destruct (send_block_ok mid1 (u16_be mid) code full (S num) bs (set_peer (Some PEER) a))
    as (out & a1 & Hsb & Hroute & Hne & Ha1); [apply wrapping_u16|done|done|lia|lia|].
  rewrite Hsb in Hserve.
  destruct (exchange_loop fuel req b _ out mid2 ev a a1 losses Hbytes Hserve Hroute Hne (wrapping_u16 _ _) Hloss)
    as (losses1 & Hex & Hl1).
  destruct (IH (S num) mid2 a1 losses1) as (mid' & losses' & a' & Hf & Hm' & Hl' & Hc' & Hn' & Hb').
  { lia. }
  { rewrite Ha1. by destruct (S (S num) * bs <? length full). }
  { lia. }
  { rewrite Ha1. destruct (Nat.ltb_spec (S (S num) * bs) (length full)); [by left|right; lia]. }
  { apply wrapping_u16. }
  { done. }
  { destruct bf; [lia|lia]. }
  exists mid', losses', a'. split.
  - run. unfold next_message_id, frame, next_message_id. run. unfold at_rest in *.
    cbn [ut_message_id ut_net ut_pending ut_events ut_reading pk_type pk_code pk_mid pk_token pk_uri_path pk_payload].
    fold mid1 mid2. fold (request_packet mid1 (u16_be mid) path [] (Some {| bv_num := Z.of_nat (S num); bv_more := false; bv_size := Z.of_nat bs |})).
    fold req. change (u16_be mid) with (pk_token req). rewrite Hex. cbv beta iota zeta.
    cbn [block2_of response_packet pk_block2 pk_payload]. rewrite take_S_block.
    replace (Z.of_nat (S num) + 1)%Z with (Z.of_nat (S (S num))) by lia. exact Hf.
  - split; [done|]. split; [done|]. rewrite Hc', Hn', Hb', Ha1. by destruct (S (S num) * bs <? length full).
Qed.

(** *** A whole POST *)

Definition loop_max_reply (bs : option nat) : nat :=
  match bs with None => 1200 | Some n => n * 1024 end.

(** The first exchange of a POST. *)
Lemma post_first_exchange fuel path payload out p mid ev a a1 losses :
  let req := request_packet (wrapping_add 16 mid 1) (u16_be mid) path payload None in
  packet_ok req -> (forall b, to_bytes req = Some b -> serve_datagram PEER b a = (Ok out, a1)) ->
  routes (u16_be mid) out p -> is_empty p = false -> in_u 16 (pk_mid p) -> lossy_ok 0 losses = true ->
  exists losses1, lossy_ok 0 losses1 = true /\
    udp_post fuel path payload (at_rest mid ev a losses ∅) =
      match block2_of p with
      | None => mret {| cr_code := split_code p; cr_payload := pk_payload p |}
      | Some block => fetch_blocks (S (Z.to_nat MAX_BLOCKS)) fuel path (bv_size block) block 1 (split_code p) (pk_payload p)
      end (at_rest (wrapping_add 16 (wrapping_add 16 mid 1) 1) ev a1 losses1 ∅).
Proof using LL.
  intros req Hreq Hserve Hr Hne Hm Hl. destruct (to_bytes_total req Hreq) as (b & Hb & _).
  destruct (exchange_loop fuel req b p out (wrapping_add 16 (wrapping_add 16 mid 1) 1) ev a a1 losses
    Hb (Hserve b Hb) Hr Hne Hm Hl) as (losses1 & Hex & Hl1).
  exists losses1. split; [done|]. unfold udp_post, build_post, frame, next_message_id. run.
  unfold at_rest in *. cbn [ut_message_id ut_net ut_pending ut_events ut_reading].
  fold (request_packet (wrapping_add 16 mid 1) (u16_be mid) path payload None). fold req.
  change (u16_be mid) with (pk_token req). rewrite Hex. reflexivity.
Qed.

Lemma serving_core bs c a : serving bs a -> serving bs (set_core c (set_peer (Some PEER) a)).
Proof. done. Qed.

Lemma post_loop bs fuel path payload code reply c' mid ev a losses :
  serving bs a -> in_u 16 mid -> lossy_ok 0 losses = true ->
  length path <= 16 -> length payload <= 1200 -> length reply <= loop_max_reply bs ->
  dut_handle (from_utf8_lossy path) payload (ra_core a) = (Ok (code, reply), c') ->
  exists mid' losses' a',
    udp_post fuel path payload (at_rest mid ev a losses ∅) =
      (Ok {| cr_code := (Z.shiftr (response_code code) 5, Z.land (response_code code) 0x1f); cr_payload := reply |},
       at_rest mid' ev a' losses' ∅) /\
    ra_core a' = c' /\ serving bs a' /\ in_u 16 mid' /\ lossy_ok 0 losses' = true.
Proof using LL.
  intros Hs Hmid Hloss Hpath Hpay Hrep Hh. set (mid1 := wrapping_add 16 mid 1).
  set (req := request_packet mid1 (u16_be mid) path payload None).
  assert (packet_ok req) as Hreq by (by apply request_packet_ok; [apply wrapping_u16|..]).
  pose proof (serving_core bs c' a Hs) as Hs1. set (a0 := set_core c' (set_peer (Some PEER) a)) in *.
  assert (forall out a1, send_response PEER req code reply a0 = (out, a1) ->
    forall b, to_bytes req = Some b -> serve_datagram PEER b a = (Ok out, a1)) as Hserve.
  { intros out a1 Hsend b Hb. rewrite (serve_request mid1 (u16_be mid) path payload b a code reply c' Hreq Hb Hh).
    fold a0 req. by rewrite Hsend. }
  assert (forall n, bs = Some n -> length reply <= n \/ n < length reply) as Hcases by lia.
  assert ((forall n, bs = Some n -> length reply <= n) \/ exists n, bs = Some n /\ n < length reply) as [Hplain|(n & -> & Hbig)].
  { destruct bs as [n|]; [|by left]. destruct (Hcases n eq_refl); [left; by intros ? [= <-]|right; by exists n]. }
  - destruct (send_response_plain bs req code reply a0) as (out & a1 & ty & pm & Hsend & Hr & Hne & Hpm & Hc1 & Hs1');
      [done|apply wrapping_u16|done| |done|].
    { destruct bs as [n|]; [|done]. destruct Hs as (_ & _ & Hsz). pose proof (block_size_bound n (Hsz n eq_refl)).
      specialize (Hplain n eq_refl). lia. }
    destruct (post_first_exchange fuel path payload out _ mid ev a a1 losses Hreq (Hserve _ _ Hsend) Hr Hne Hpm Hloss)
      as (losses1 & Hl1 & Hpost).
    eexists _, losses1, a1. split; [exact Hpost|]. split; [by rewrite Hc1|]. split; [done|].
    split; [apply wrapping_u16|done].
  - pose proof Hs as (Hn & Hbw & Hsz). specialize (Hsz n eq_refl). pose proof (block_size_bound n Hsz) as Hn16.
    set (a0' := set_cache (Some {| bw_peer := PEER; bw_code := code; bw_payload := reply |}) a0).
    destruct (send_block_ok mid1 (u16_be mid) code reply 0 n a0') as (out & a1 & Hsb & Hr & Hne & Ha1);
      [apply wrapping_u16|done|done|lia|lia|].
    rewrite (proj2 (Nat.ltb_lt _ _)) in Ha1 by lia.
    assert (send_response PEER req code reply a0 = (out, a1)) as Hsend.
    { unfold send_response. change (ra_blockwise a0) with (ra_blockwise a). rewrite Hbw.
      rewrite (proj2 (Nat.ltb_lt _ _)) by done. exact Hsb. }
    destruct (post_first_exchange fuel path payload out _ mid ev a a1 losses Hreq (Hserve _ _ Hsend) Hr Hne
      (wrapping_u16 _ _) Hloss) as (losses1 & Hl1 & Hpost).
    destruct (fetch_blocks_loop (S (Z.to_nat MAX_BLOCKS)) fuel path code reply n 0
      (wrapping_add 16 (wrapping_add 16 mid 1) 1) ev a1 losses1) as (mid' & losses' & a' & Hf & Hm' & Hl' & Hc' & Hn' & Hb');
      [done|done|done|change (Z.to_nat MAX_BLOCKS) with 1024; cbn [loop_max_reply] in Hrep; lia|by rewrite Ha1|lia|left; by rewrite Ha1|apply wrapping_u16|done|lia|].
    exists mid', losses', a'. split.
    + rewrite Hpost. cbn [block2_of response_packet pk_block2]. replace (1 * n) with n in Hf by lia.
      unfold block_of. cbn [pk_payload Nat.mul]. rewrite drop_0. exact Hf.
    + split; [by rewrite Hc', Ha1|]. split; [|done]. split; [by rewrite Hn', Ha1|]. split; [done|]. by intros ? [= <-].
Qed.

(** *** The interface, discharged *)

Definition loop_ok (bs : option nat) (u : UdpCoapTransport Loop) : Prop :=
  exists mid ev a losses, u = at_rest mid ev a losses ∅ /\ serving bs a /\ in_u 16 mid /\ lossy_ok 0 losses = true.

Definition block_option_ok (bs : option nat) : Prop := forall n, bs = Some n -> block_size_ok (Z.of_nat n).

#[program] Definition loop_carries (bs : option nat) (fuel : nat) (Hbs : block_option_ok bs)
    : Carries (H1 := udp_transport fuel) :=
  {| accessory_of := fun u => ra_core (lp_acc (ut_net u)); carrier_ok := loop_ok bs;
     max_request := 1200; max_reply := loop_max_reply bs |}.
Next Obligation. done. Qed.
Next Obligation.
  intros bs _ Hbs. destruct bs as [n|]; [|done]. pose proof (block_size_bound n (Hbs n eq_refl)). simpl. lia.
Qed.
Next Obligation.
  intros bs fuel _ t path payload code reply c' (mid & ev & a & losses & -> & Hs & Hm & Hl) Hp Hq Hr Hh.
  assert (length path <= 16) as Hpl.
  { repeat (apply elem_of_cons in Hp as [->|Hp]; [simpl; lia|]). by apply not_elem_of_nil in Hp. }
  destruct (post_loop bs fuel path payload code reply c' mid ev a losses) as (mid' & losses' & a' & Hpost & Hc & Hs' & Hm' & Hl');
    [done..|].
  eexists. split; [exact Hpost|]. split; [exact Hc|]. by eexists _, _, _, _.
Qed.
End loop_network.

(** ** Events *)

Section events.
Context `{C : Crypto} `{B : BigUintOps} `{L : CoapLite} {CL : CryptoLaws C} {LL : CoapLiteLaws L}.
#[local] Existing Instance loop_network.

(** What happens on the link: the accessory pushes an event, the reader task takes the
    datagrams that have arrived, or the controller calls [next_event]. *)
Inductive LinkAction := Push (iid : Z) (value : bytes) | Read | Next.

Definition link_step (fuel : nat) (act : LinkAction) (conn : SecureCoapConnection (UdpCoapTransport Loop))
    : list (result ThreadError (list (Z * bytes))) * SecureCoapConnection (UdpCoapTransport Loop) :=
  let u := sc_transport conn in
  let n := ut_net u in
  match act with
  | Push iid value =>
      match push_event iid value (lp_acc n) with
      | (Ok (_, sent), a) =>
          let n := {| lp_acc := a; lp_wire := lp_wire n ++ sent.*2; lp_losses := lp_losses n |} in
          ([], {| sc_transport := set_net n u; sc_session := sc_session conn |})
      | (_, a) => ([Err (Coap "push_event failed")], conn)
      end
  | Read => ([], {| sc_transport := reader_wait u; sc_session := sc_session conn |})
  | Next => let '(r, conn) := next_event (H := udp_transport fuel) conn in ([r], conn)
  end.

Fixpoint run_link (fuel : nat) (acts : list LinkAction) (conn : SecureCoapConnection (UdpCoapTransport Loop))
    : list (result ThreadError (list (Z * bytes))) * SecureCoapConnection (UdpCoapTransport Loop) :=
  match acts with
  | [] => ([], conn)
  | act :: acts' =>
      let '(r, conn) := link_step fuel act conn in
      let '(rs, conn) := run_link fuel acts' conn in (r ++ rs, conn)
  end.

(** The events pushed, and the calls of [next_event]. *)
Definition pushes (acts : list LinkAction) : list (Z * bytes) :=
  omap (fun act => match act with Push iid v => Some (iid, v) | _ => None end) acts.
Definition nexts (acts : list LinkAction) : nat :=
  sum_list ((fun act => match act with Next => 1 | _ => 0 end) <$> acts).

(** No call of [next_event] is made before the event it returns is pushed: with [n]
    events outstanding, the schedule never waits. *)
Fixpoint never_waits (n : nat) (acts : list LinkAction) : bool :=
  match acts with
  | [] => true
  | Push _ _ :: acts' => never_waits (S n) acts'
  | Read :: acts' => never_waits n acts'
  | Next :: acts' => match n with 0 => false | S n => never_waits n acts' end
  end.

(** An accessory that can push events for [iid] to this controller. *)
Definition event_ready (iid : Z) (a : ReferenceAccessory) : Prop :=
  in_u 16 iid /\ iid ∈ ra_subscriptions (ra_core a) /\ ra_socket a = true /\ ra_peer a = Some PEER /\
  in_u 16 (ra_next_mid a).

Definition event_fits (value : bytes) : Prop := length (value_body value) + 21 <= 1200.

Lemma push_event_ok iid value a s :
  event_ready iid a -> event_fits value -> in_sync s (ra_core a) ->
  exists mid tok sealed b a',
    let put := {| pk_type := Confirmable; pk_code := 0x03; pk_mid := mid; pk_token := u16_be tok;
                  pk_uri_path := None; pk_block2 := None; pk_payload := sealed |} in
    push_event iid value a = (Ok (true, [(PEER, b)]), a') /\ packet_ok put /\ to_bytes put = Some b /\
    aead_open (cs_event_key s) (counter_nonce (cs_event_ctr s)) [] sealed = Some (event_record iid value) /\
    in_sync (set_ctrs (cs_send_ctr s) (cs_recv_ctr s) (wrapping_add 64 (cs_event_ctr s) 1) s) (ra_core a') /\
    light_of (ra_core a') = light_of (ra_core a) /\ (forall iid', event_ready iid' a -> event_ready iid' a').
Proof using CL LL.
  intros (Hi & Hsub & Hsock & Hpeer & Hmid) Hfit Hsync. unfold event_fits in Hfit.
  unfold push_event. rewrite bool_decide_true by done. rewrite Hsock, Hpeer. cbn [negb].
  rewrite (proj2 (Z.ltb_ge _ _)) by (unfold U16_MAX; lia). rewrite Hsync.
  unfold seal_event. cbn [as_event_key as_event_ctr].
  assert (event_record iid value =
    [x00] ++ le_bytes 2 iid ++ le_bytes 2 (Z.of_nat (length (value_body value))) ++ value_body value) as Hrec.
  { unfold event_record, sat_u16. by rewrite Z.min_l by (unfold U16_MAX; lia). }
  rewrite <- Hrec.
  assert (length (event_record iid value) = 5 + length (value_body value)) as Hlen.
  { rewrite Hrec, !length_app, !length_le_bytes. simpl. lia. }
  destruct (seal_open_tlv (cs_event_key s) (counter_nonce (cs_event_ctr s)) (event_record iid value))
    as (ct & Hs & Ho); [lia|].
  pose proof (open_length _ _ _ _ Ho) as Hct.
  unfold chacha20poly1305_seal, encrypt. change (nonce_counter (cs_event_ctr s)) with (counter_nonce (cs_event_ctr s)).
  rewrite Hs. cbn [ok_or map_err].
  set (put := {| pk_type := Confirmable; pk_code := 3; pk_mid := ra_next_mid (set_core _ _);
                 pk_token := _; pk_uri_path := None; pk_block2 := None; pk_payload := ct |}).
  assert (packet_ok put) as Hput by (split; cbn; try done; lia).
  destruct (to_bytes_total put Hput) as (b & Hb & _). rewrite Hb.
  exists (ra_next_mid a), (wrapping_add 16 (ra_next_mid a) 1), ct, b. eexists. cbv zeta.
  split; [reflexivity|]. split; [exact Hput|]. split; [exact Hb|]. split; [done|]. split; [done|]. split; [done|].
  intros iid' (? & ? & _). split; [done|]. split; [done|]. split; [done|]. split; [done|]. apply wrapping_u16.
Qed.

(** The reader acknowledges each PUT and queues its payload. *)
Definition carries_put (b payload : bytes) : Prop :=
  exists put, packet_ok put /\ to_bytes put = Some b /\ is_event_put put = true /\ pk_payload put = payload.

Lemma reader_step_event mid ev a losses b payload :
  carries_put b payload ->
  reader_step b (at_rest mid ev a losses ∅) = at_rest mid (ev ++ [payload]) a (tail losses) ∅.
Proof using LL.
  intros (put & Hp & Hb & He & <-). unfold reader_step, RECV_BUF. rewrite (from_bytes_buf put) by (done || lia). rewrite He.
  set (ack := {| pk_type := Acknowledgement |}).
  assert (packet_ok ack) as Hack by (destruct Hp; split; cbn; try done; lia).
  destruct (to_bytes_total ack Hack) as (ab & Hab & _). rewrite Hab.
  unfold socket_send, at_rest. cbn [set_net ut_net net_send loop_network]. unfold loop_send. cbn [lp_losses].
  assert (loop_deliver ab (tail losses) {| lp_acc := a; lp_wire := []; lp_losses := losses |} =
            {| lp_acc := a; lp_wire := []; lp_losses := tail losses |}) as Hd.
  { unfold loop_deliver, serve_datagram, DUT_RECV_BUF. rewrite (from_bytes_buf ack) by (done || lia).
    cbn [ack pk_type]. by rewrite bool_decide_true by done. }
  destruct losses as [|[] l]; [by rewrite Hd|done|by rewrite Hd].
Qed.

(** A transport with events queued and datagrams on the wire. *)
Definition with_wire (wire : list bytes) (u : UdpCoapTransport Loop) : UdpCoapTransport Loop :=
  set_net {| lp_acc := lp_acc (ut_net u); lp_wire := wire; lp_losses := lp_losses (ut_net u) |} u.

Lemma reader_wait_events wire payloads mid ev a losses :
  Forall2 carries_put wire payloads ->
  exists losses', reader_wait (with_wire wire (at_rest mid ev a losses ∅)) = at_rest mid (ev ++ payloads) a losses' ∅.
Proof using LL.
  intros Hw. unfold reader_wait. cbn [with_wire at_rest set_net ut_net net_arrive loop_network]. unfold loop_arrive.
  cbn [lp_wire lp_acc lp_losses]. change (set_net _ _) with (at_rest mid ev a losses ∅). cbn [at_rest ut_reading].
  revert ev losses. induction Hw as [|b pl wire payloads Hb _ IH]; intros ev losses; cbn [fmap list_fmap reader_loop].
  - exists losses. by rewrite app_nil_r.
  - rewrite (reader_step_event mid ev a losses b pl Hb). destruct (IH (ev ++ [pl]) (tail losses)) as [losses' Hl].
    exists losses'. rewrite Hl. by rewrite <- app_assoc.
Qed.

(** The controller's connection over the loop, and the accessory behind it. *)
Definition event_link (conn : SecureCoapConnection (UdpCoapTransport Loop)) (a : ReferenceAccessory) : Prop :=
  exists mid losses, sc_transport conn = at_rest mid [] a losses ∅ /\ in_sync (sc_session conn) (ra_core a).

Definition next_ctr (s : CoapSession) : CoapSession :=
  set_ctrs (cs_send_ctr s) (cs_recv_ctr s) (wrapping_add 64 (cs_event_ctr s) 1) s.

(** The payloads sealed for the events outstanding, from the session's counter on. *)
Fixpoint sealed_events (s : CoapSession) (evs : list (Z * bytes)) (payloads : list bytes) : Prop :=
  match evs, payloads with
  | [], [] => True
  | (iid, v) :: evs', sealed :: payloads' =>
      aead_open (cs_event_key s) (counter_nonce (cs_event_ctr s)) [] sealed = Some (event_record iid v) /\
      in_u 16 iid /\ event_fits v /\ sealed_events (next_ctr s) evs' payloads'
  | _, _ => False
  end.

(** The events outstanding [evs] are queued or on the wire, and the accessory is ahead by
    as many. *)
Definition event_waiting (evs : list (Z * bytes)) (conn : SecureCoapConnection (UdpCoapTransport Loop))
    (a : ReferenceAccessory) : Prop :=
  exists mid losses queued wire flying,
    sc_transport conn = with_wire wire (at_rest mid queued a losses ∅) /\
    Forall2 carries_put wire flying /\ sealed_events (sc_session conn) evs (queued ++ flying) /\
    in_sync (Nat.iter (length evs) next_ctr (sc_session conn)) (ra_core a).

Lemma event_link_waiting conn a : event_link conn a <-> event_waiting [] conn a.
Proof using.
  split.
  - intros (mid & losses & Hu & Hs). exists mid, losses, [], [], []. by rewrite Hu.
  - intros (mid & losses & queued & wire & flying & Hu & Hw & Hsl & Hs).
    destruct queued as [|? queued], flying as [|? flying]; try done. inversion Hw; subst. by exists mid, losses.
Qed.

Lemma iter_next_ctr n s : Nat.iter n next_ctr (next_ctr s) = next_ctr (Nat.iter n next_ctr s).
Proof using. induction n as [|n IH]; [done|]. simpl. by rewrite IH. Qed.

Lemma iter_next_ctr_key n s : cs_event_key (Nat.iter n next_ctr s) = cs_event_key s.
Proof using. by induction n. Qed.

Lemma sealed_events_app s evs payloads iid v sealed :
  sealed_events s evs payloads -> in_u 16 iid -> event_fits v ->
  aead_open (cs_event_key s) (counter_nonce (cs_event_ctr (Nat.iter (length evs) next_ctr s))) [] sealed = Some (event_record iid v) ->
  sealed_events s (evs ++ [(iid, v)]) (payloads ++ [sealed]).
Proof using.
  revert s payloads. induction evs as [|[j w] evs IH]; intros s [|pl payloads]; try done.
  cbn [sealed_events app]. intros (Ho & Hi & Hf & Hrest) Hj Hw Hopen. do 3 (split; [done|]).
  apply IH; [done..|]. cbn [length Nat.iter] in Hopen. by rewrite iter_next_ctr.
Qed.

(** A push is one more outstanding. *)
Lemma link_push fuel iid v evs conn a :
  event_waiting evs conn a -> event_ready iid a -> event_fits v ->
  exists conn' a', link_step fuel (Push iid v) conn = ([], conn') /\ event_waiting (evs ++ [(iid, v)]) conn' a' /\
    (forall iid', event_ready iid' a -> event_ready iid' a').
Proof using CL LL.
  intros (mid & losses & queued & wire & flying & Hu & Hw & Hsl & Hsync) Hrdy Hfit.
  destruct conn as [u s]. cbn [sc_transport sc_session] in *. subst u.
  destruct (push_event_ok iid v a _ Hrdy Hfit Hsync)
    as (pm & tok & sealed & b & a' & Hpush & Hok & Hb & Ho & Hsync' & _ & Hrdy').
  eexists {| sc_transport := with_wire (wire ++ [b]) (at_rest mid queued a' losses ∅); sc_session := s |}, a'.
  split; [|split; [|exact Hrdy']].
  - unfold link_step. cbn [sc_transport with_wire at_rest set_net ut_net lp_acc lp_wire lp_losses]. by rewrite Hpush.
  - exists mid, losses, queued, (wire ++ [b]), (flying ++ [sealed]). cbn [sc_transport sc_session]. split; [done|].
    split; [apply Forall2_app; [done|]; apply Forall2_cons_2; [by eexists|done]|]. split.
    + rewrite app_assoc. apply sealed_events_app; [done|apply Hrdy|done|]. by rewrite iter_next_ctr_key in Ho.
    + rewrite length_app, Nat.add_comm. exact Hsync'.
Qed.

Lemma link_read fuel evs conn a :
  event_waiting evs conn a -> exists conn', link_step fuel Read conn = ([], conn') /\ event_waiting evs conn' a.
Proof using LL.
  intros (mid & losses & queued & wire & flying & Hu & Hw & Hsl & Hsync).
  destruct conn as [u s]. cbn [sc_transport sc_session] in *. subst u. eexists. split; [reflexivity|].
  destruct (reader_wait_events wire flying mid queued a losses Hw) as [losses' Hr].
  exists mid, losses', (queued ++ flying), [], []. cbn [sc_transport sc_session]. rewrite Hr, app_nil_r. by split_and!.
Qed.

(** [recv_event] takes the oldest payload. *)
Lemma recv_oldest payload rest mid losses queued wire flying a :
  Forall2 carries_put wire flying -> queued ++ flying = payload :: rest ->
  exists losses' queued' wire' flying',
    udp_recv_event (with_wire wire (at_rest mid queued a losses ∅)) =
      (Ok payload, with_wire wire' (at_rest mid queued' a losses' ∅)) /\
    Forall2 carries_put wire' flying' /\ queued' ++ flying' = rest.
Proof using LL.
  intros Hw Hq. unfold udp_recv_event. change (ut_events (with_wire wire (at_rest mid queued a losses ∅))) with queued.
  destruct queued as [|p queued]; cbn [app] in Hq.
  - rewrite bool_decide_true by done. destruct (reader_wait_events wire flying mid [] a losses Hw) as [losses' ->].
    cbn [app]. subst flying. exists losses', rest, [], []. by rewrite app_nil_r.
  - rewrite bool_decide_false by done. injection Hq as <- <-. by exists losses, queued, wire, flying.
Qed.

Lemma link_next fuel e evs conn a :
  event_waiting (e :: evs) conn a -> exists conn', link_step fuel Next conn = ([Ok [e]], conn') /\ event_waiting evs conn' a.
Proof using LL.
  destruct e as [iid v]. intros (mid & losses & queued & wire & flying & Hu & Hw & Hsl & Hsync).
  destruct conn as [u s]. cbn [sc_transport sc_session] in *. subst u.
  destruct (queued ++ flying) as [|payload rest] eqn:Hq; [done|]. destruct Hsl as (Ho & Hi & Hf & Hrest).
  destruct (recv_oldest payload rest mid losses queued wire flying a Hw Hq) as (losses' & queued' & wire' & flying' & Hrecv & Hw' & <-).
  exists {| sc_transport := with_wire wire' (at_rest mid queued' a losses' ∅); sc_session := next_ctr s |}.
  split; [|exists mid, losses', queued', wire', flying'; do 3 (split; [done|]); cbn [length Nat.iter] in Hsync; cbn [sc_session]; by rewrite iter_next_ctr].
  unfold link_step, next_event, on_transport, on_session. run. cbn [sc_transport sc_session].
  change (recv_event (CoapTransport := udp_transport fuel)) with udp_recv_event. rewrite Hrecv.
  unfold open_event. cbn [sc_session]. unfold chacha20poly1305_open, decrypt. rewrite Ho. cbn [ok_or sc_transport].
  pose proof (decode_events_batch [(iid, v)]) as Hd. cbn [imap mjoin list_join] in Hd. rewrite app_nil_r in Hd.
  cbn [fst snd] in Hd. rewrite Hd; [done|]. rewrite Forall_singleton. cbn [fst snd].
  split; [apply Hi|]. unfold small_body, U16_MAX. unfold event_fits in Hf. lia.
Qed.

Lemma run_link_ok fuel acts evs conn a :
  event_waiting evs conn a -> Forall (fun e => event_ready e.1 a /\ event_fits e.2) (pushes acts) ->
  never_waits (length evs) acts = true ->
  exists conn' a', run_link fuel acts conn = ((fun e => Ok [e]) <$> take (nexts acts) (evs ++ pushes acts), conn') /\
    event_waiting (drop (nexts acts) (evs ++ pushes acts)) conn' a'.
Proof using CL LL.
  revert evs conn a. induction acts as [|[iid v| |] acts IH]; intros evs conn a Hw Hev Hn.
  - exists conn, a. by rewrite app_nil_r.
  - apply Forall_cons in Hev as [[Hr Hf] Hev]. destruct (link_push fuel iid v evs conn a Hw Hr Hf) as (conn1 & a1 & Hs & Hw1 & Hrdy).
    destruct (IH _ conn1 a1 Hw1) as (conn2 & a2 & Hrun & Hw2).
    { eapply Forall_impl; [exact Hev|]. intros e [? ?]. split; [by apply Hrdy|done]. }
    { rewrite length_app, Nat.add_comm. exact Hn. }
    exists conn2, a2. cbn [run_link]. rewrite Hs, Hrun. rewrite <- app_assoc in Hw2 |- *. done.
  - destruct (link_read fuel evs conn a Hw) as (conn1 & Hs & Hw1). destruct (IH evs conn1 a Hw1 Hev Hn) as (conn2 & a2 & Hrun & Hw2).
    exists conn2, a2. cbn [run_link]. by rewrite Hs, Hrun.
  - destruct evs as [|e evs]; [done|]. destruct (link_next fuel e evs conn a Hw) as (conn1 & Hs & Hw1).
    destruct (IH evs conn1 a Hw1 Hev Hn) as (conn2 & a2 & Hrun & Hw2).
    exists conn2, a2. cbn [run_link]. by rewrite Hs, Hrun.
Qed.
End events.

(** * Theorems *)

(** C13: A POST over UDP runs the accessory's handler exactly once and returns its
    code and payload, whichever framing the accessory uses (piggy-backed, an empty
    ACK and a separate response, or Block2 fragments of any legal size) and even
    when up to three consecutive datagrams of the controller to the accessory are lost.
    (What the accessory sends back is not lost here.) *)
Theorem coap_post_delivers `{Crypto} `{BigUintOps} `{CoapLiteLaws} bs fuel path payload code reply c' mid ev a losses :
  serving bs a -> in_u 16 mid -> lossy_ok 0 losses = true ->
  length path <= 16 -> length payload <= 1200 -> length reply <= loop_max_reply bs ->
  dut_handle (from_utf8_lossy path) payload (ra_core a) = (Ok (code, reply), c') ->
  exists mid' losses' a',
    udp_post (NW := loop_network) fuel path payload (at_rest mid ev a losses ∅) =
      (Ok {| cr_code := (Z.shiftr (response_code code) 5, Z.land (response_code code) 0x1f); cr_payload := reply |},
       at_rest mid' ev a' losses' ∅) /\
    ra_core a' = c' /\ serving bs a' /\ in_u 16 mid' /\ lossy_ok 0 losses' = true.
Proof. apply post_loop. Qed.

(** The accessory of the examples: one Lightbulb, block-wise in 64-byte blocks. *)
Definition demo_keypair : ControllerKeypair := from_seed [] [x09].
Definition demo_controller : ControllerKeypair := from_seed (str "ctl") [x05].
Definition demo_random : Random := {| rnd_secret := [x07]; rnd_salt := [x01]; rnd_b := [x03] |}.
Definition demo_accessory : ReferenceAccessory :=
  with_blockwise_responses 64 (with_setup_code (str "12345678")
    (with_actuator (fun _ => demo_random) demo_keypair (str "AA:BB"))).

Lemma demo_serving a : ra_next_mid a = 1%Z -> ra_blockwise a = Some 64 -> serving (Some 64) a.
Proof. intros Hm Hb. split; [by rewrite Hm|]. split; [done|]. intros ? [= <-]. unfold block_size_ok. set_solver. Qed.

Lemma demo_blocks : block_option_ok (Some 64).
Proof. intros ? [= <-]. unfold block_size_ok. set_solver. Qed.

Lemma coap_post_delivers_witness :
  exists mid' losses' a',
    udp_post (L := toy_coap_lite) (NW := loop_network (C := toy_crypto) (B := std_biguint) (L := toy_coap_lite))
      1 PATH_IDENTIFY [] (at_rest 1 [] demo_accessory [true; true; true; false] ∅) =
      (Ok {| cr_code := (2, 4)%Z; cr_payload := [] |}, at_rest mid' [] a' losses' ∅) /\
    ra_core a' = ra_core demo_accessory /\ serving (Some 64) a' /\ in_u 16 mid' /\ lossy_ok 0 losses' = true.
Proof.
  apply (coap_post_delivers (H := toy_crypto) (H0 := std_biguint) (L := toy_coap_lite) (H1 := toy_coap_lite_laws)
           (Some 64) 1 PATH_IDENTIFY [] Changed [] (ra_core demo_accessory) 1 [] demo_accessory).
  - by apply demo_serving.
  - by split.
  - reflexivity.
  - simpl; lia.
  - simpl; lia.
  - apply Nat.le_0_l.
  - reflexivity.
Defined.

(** What the controller keeps of the accessory's identity. *)
Definition identity_of_core `{Crypto} (c : Core) : AccessoryPairing :=
  {| pairing_id := ra_pairing_id c; ap_ltpk := ltpk (ra_keypair c) |}.

(** C4: The controller against the reference accessory is an abstract light bulb.
    Over any transport that carries requests, a controller the accessory has been
    paired with completes Pair Verify, and then any sequence of batched reads, writes,
    subscriptions and database reads, sealed, framed and parsed on both sides, returns
    exactly what the light bulb's specification returns, errors included, and leaves
    the accessory in the specified state. *)
Theorem thread_session_refines `{CA : Carries} {CL : CryptoLaws _} `{Build} t ctl secret_c cmds :
  let c := accessory_of t in
  carrier_ok t -> ra_controller c = Some (kp_id ctl, ltpk ctl) ->
  short_id (kp_id ctl) -> short_id (ra_pairing_id c) -> 512 <= max_request -> 512 <= max_reply ->
  Forall command_ok cmds ->
  let pairing := identity_of_core c in
  exists keys ek t' conn',
    pair_verify_with_client (new_with_ephemeral ctl pairing secret_c) t = (Ok (keys, ek), t') /\
    run_commands cmds {| sc_transport := t'; sc_session := coap_session_new keys ek |} =
      ((spec_commands cmds (light_of c)).1, conn') /\
    light_of (accessory_of (sc_transport conn')) = (spec_commands cmds (light_of c)).2.
Proof.
  intros c Hok Hctl Hi1 Hi2 Hq Hr Hcmds pairing.
  destruct (thread_verify t ctl secret_c Hok Hctl Hi1 Hi2 Hq Hr) as (keys & ek & t' & s & Hv & Hl).
  destruct (commands_refine cmds _ _ Hl Hcmds) as (conn' & s' & Hrun & Hl').
  exists keys, ek, t', conn'. split; [exact Hv|]. split; [exact Hrun|].
  destruct Hl' as (_ & Ha & _). rewrite Ha.
  change (light_of (verified s (accessory_of t))) with (light_of c).
  by destruct (spec_commands cmds (light_of c)) as [? [? ? ?]].
Qed.

Definition demo_paired : ReferenceAccessory :=
  set_core (provision_controller (str "ctl") (ltpk (C := toy_crypto) demo_controller) (ra_core demo_accessory))
    demo_accessory.

Definition demo_commands : list Command :=
  [CmdWrite 9 [x01]; CmdRead [9; 7]%Z; CmdWrite 8 [x00]; CmdSubscribe 9; CmdDatabase].

Lemma demo_commands_ok `{CA : Carries} :
  1200 <= max_request -> 3000 <= max_reply -> Forall command_ok demo_commands.
Proof.
  unfold command_ok, demo_commands. generalize max_request max_reply. intros mq mr Hq Hr.
  repeat (apply Forall_cons_2 || apply Forall_nil_2); cbn [length];
    change (length (encode_value_body _)) with 3; repeat split; try done; try lia.
  repeat constructor; done.
Qed.

Lemma thread_session_refines_witness :
  let b := {| overflow_checks := true; debug_assertions := true |} in
  let T := udp_transport (H := toy_coap_lite) (H0 := loop_network (C := toy_crypto) (B := std_biguint) (L := toy_coap_lite)) 1 in
  let pairing := {| pairing_id := str "AA:BB"; ap_ltpk := ltpk (C := toy_crypto) demo_keypair |} in
  exists keys ek t' conn',
    pair_verify_with_client (C := toy_crypto) (H := T) (new_with_ephemeral (C := toy_crypto) demo_controller pairing [x03])
      (at_rest 1 [] demo_paired [false; true; true] ∅) = (Ok (keys, ek), t') /\
    run_commands (H := toy_crypto) (H0 := T) demo_commands
      {| sc_transport := t'; sc_session := coap_session_new keys ek |} =
      ([Ok ODone; Ok (OValues [Ok [x01]; Err (PduStatus 4)]); Err (PduStatus 4); Ok ODone;
        Ok (OBody synthetic_database)], conn') /\
    light_of (ra_core (lp_acc (ut_net (sc_transport conn')))) =
      {| l_on := true; l_actuated := [true]; l_subs := {[9%Z]} ∪ ∅ |}.
Proof.
  apply (thread_session_refines
    (CA := loop_carries (C := toy_crypto) (B := std_biguint) (L := toy_coap_lite) (LL := toy_coap_lite_laws) (Some 64) 1 demo_blocks)
    (at_rest 1 [] demo_paired [false; true; true] ∅) demo_controller [x03] demo_commands).
  - eexists _, _, _, _. split; [reflexivity|]. by split; [apply demo_serving|].
  - reflexivity.
  - unfold short_id. simpl. lia.
  - unfold short_id. simpl. lia.
  - change (512 <= 1200). lia.
  - change (512 <= 64 * 1024). lia.
  - apply demo_commands_ok; [change (1200 <= 1200); lia|change (3000 <= 64 * 1024); lia].
Defined.

(** Pair Setup over CoAP.  Over any transport that carries requests, a controller
    and an accessory whose setup codes normalise to the same code complete Pair Setup:
    the controller's driver returns the accessory's identity, and the accessory ends
    with the controller provisioned and no exchange pending.  (The last two hypotheses
    are the SRP parameter checks both sides make.) *)
Theorem thread_pair_setup_provisions `{CA : Carries} {CL : CryptoLaws _} {BL : BigUintLaws _}
    t code_c code_a ctl a c0 g :
  let c := accessory_of t in let salt := rnd_salt (draw c).1 in
  let s := with_salt_and_private g PAIR_SETUP_USERNAME (normalize_setup_code code_a) salt
             (from_bytes_be (rnd_b (draw c).1)) in
  carrier_ok t -> 512 <= max_request -> 512 <= max_reply -> ra_setup_code c = Some code_a ->
  new_with_private code_c ctl a = Ok c0 -> hap_group = Ok g ->
  normalize_setup_code code_c = normalize_setup_code code_a ->
  short_id (kp_id ctl) -> short_id (ra_pairing_id c) -> length salt <= 64 ->
  is_Some (from_utf8 (kp_id ctl)) -> is_Some (from_utf8 (ra_pairing_id c)) ->
  (sv_b_pub s mod modulus g <> 0)%Z -> (compute_u g (cl_a_pub (srp c0)) (sv_b_pub s) <> 0)%Z ->
  exists t', thread_pair_setup a code_c ctl t =
      (Ok {| pairing_id := ra_pairing_id c; ap_ltpk := ltpk (ra_keypair c) |}, t') /\
    ra_controller (accessory_of t') = Some (kp_id ctl, ltpk ctl) /\ ra_setup (accessory_of t') = None /\
    carrier_ok t'.
Proof.
  intros c salt s Hok Hq Hr Hc Hn Hg Hnm Hi1 Hi2 Hs Hu1 Hu2 HB Hu.
  destruct (thread_setup t code_c code_a ctl a c0 g Hok Hq Hr Hc Hn Hg Hnm Hi1 Hi2 Hs Hu1 Hu2 HB Hu)
    as (t' & Ht & Ha & Hok'). exists t'. split; [exact Ht|]. rewrite Ha. done.
Qed.

Lemma thread_pair_setup_provisions_witness :
  let T := udp_transport (H := toy_coap_lite) (H0 := loop_network (C := toy_crypto) (B := std_biguint) (L := toy_coap_lite)) 1 in
  exists t', thread_pair_setup (C := toy_crypto) (B := std_biguint) (H := T) [x07] (str "123-45-678") demo_controller
        (at_rest 1 [] demo_accessory [true; false; true] ∅) =
      (Ok {| pairing_id := str "AA:BB"; ap_ltpk := ltpk (C := toy_crypto) demo_keypair |}, t') /\
    ra_controller (ra_core (lp_acc (ut_net t'))) = Some (str "ctl", ltpk (C := toy_crypto) demo_controller) /\
    ra_setup (ra_core (lp_acc (ut_net t'))) = None /\ loop_ok (Some 64) t'.
Proof.
  destruct (demo_setup_params demo_controller) as (Hnew & Hg & HB & Hu).
  apply (thread_pair_setup_provisions
    (CA := loop_carries (C := toy_crypto) (B := std_biguint) (L := toy_coap_lite) (LL := toy_coap_lite_laws) (Some 64) 1 demo_blocks)
    (at_rest 1 [] demo_accessory [true; false; true] ∅) (str "123-45-678") (str "12345678") demo_controller [x07]
    (demo_client0 demo_controller) (cl_group hap_client)).
  - clear Hnew Hg HB Hu. eexists _, _, _, _. split; [reflexivity|]. by split; [apply demo_serving|].
  - change (512 <= 1200). lia.
  - change (512 <= 64 * 1024). lia.
  - reflexivity.
  - exact Hnew.
  - exact Hg.
  - by vm_compute.
  - unfold short_id. simpl. lia.
  - unfold short_id. simpl. lia.
  - simpl. lia.
  - by eexists.
  - by eexists.
  - change (rnd_salt (draw _).1) with [x01]. change (rnd_b (draw _).1) with [x03]. exact HB.
  - change (rnd_salt (draw _).1) with [x01]. change (rnd_b (draw _).1) with [x03]. exact Hu.
Defined.

(** C17: Event delivery.  Once a session is up, however the accessory's pushes for
    subscribed characteristics, the reader task and the controller's calls of [next_event]
    interleave - any number of events may be on the wire or queued when a call is made -
    the calls return the events one by one, in the order they were pushed, each with its
    instance id and value; and once as many were taken as pushed, the event counters of
    the two sides are in step with nothing left queued.  Nothing is sent for a
    characteristic that is not subscribed. *)
Theorem thread_events_delivered `{CryptoLaws} `{BigUintOps} `{CoapLiteLaws} fuel acts conn a :
  event_link conn a -> Forall (fun e => event_ready e.1 a /\ event_fits e.2) (pushes acts) ->
  never_waits 0 acts = true ->
  (exists conn' a', run_link fuel acts conn = ((fun e => Ok [e]) <$> take (nexts acts) (pushes acts), conn') /\
     (nexts acts = length (pushes acts) -> event_link conn' a')) /\
  (forall iid v, iid ∉ ra_subscriptions (ra_core a) -> push_event iid v a = (Ok (false, []), a)).
Proof.
  intros Hl Hev Hn. split.
  - destruct (run_link_ok fuel acts [] conn a) as (conn' & a' & Hr & Hw); [by apply event_link_waiting|done..|].
    exists conn', a'. split; [exact Hr|]. intros Hall. apply event_link_waiting.
    cbn [app] in Hw. by rewrite drop_ge in Hw by lia.
  - intros iid v Hi. unfold push_event. by rewrite bool_decide_false.
Qed.

(** The pairing drivers end.  Over any transport whose POST returns, whatever it
    returns, [pair_setup] and [pair_verify] return a result or an error: they never
    panic and never loop. *)
Theorem thread_drivers_return `{Crypto} `{BL : BigUintLaws} `{CoapTransport T}
    a code ctl pairing secret (t : T) :
  (forall path payload (t : T), returns (post path payload t).1) ->
  returns (thread_pair_setup a code ctl t).1 /\
  returns (pair_verify_with_client (new_with_ephemeral ctl pairing secret) t).1.
Proof.
  intros Hpost. split.
  - unfold thread_pair_setup. run. destruct (new_with_private code ctl a) as [c|e|f] eqn:En; cbn [map_err]; try done.
    + destruct (ps_client_shape _ _ _ _ En) as (g & Hg & Hw & Hc). destruct (hap_group_ok) as (g' & Hg' & HN & _).
      rewrite Hg in Hg'. injection Hg' as <-. destruct (with_private_group _ _ _ _ Hw) as (Hcg & _).
      cbn [start]. apply setup_loop_returns; [done|unfold setup_rank; cbn; lia|].
      change (srp (set_state c AwaitingM2)) with (srp c). rewrite Hcg, HN. by vm_compute.
    + unfold new_with_private in En. destruct hap_group_ok as (g & Hg & _). rewrite Hg in En.
      cbn [mbind result_bind] in En. unfold with_private in En. by repeat case_match.
  - unfold pair_verify_with_client. destruct (pv_start _) as [out c] eqn:Es. run.
    pose proof (verify_loop_returns Hpost 3 c out t) as Hr. ospecialize (Hr _).
    { injection Es as _ <-. unfold verify_rank. cbn. lia. }
    destruct (verify_loop 3 c out t) as [[[keys c']|e|f] t']; try done.
    unfold event_key, derive_key, hkdf_sha512. destruct (shared_secret c'); cbn [ok_or mbind result_bind]; [|done].
    by destruct (hkdf_expand _ _ _ _).
Qed.

(** A transport on which every request times out. *)
Definition silent_transport : CoapTransport () :=
  {| post := fun _ _ t => (Err (Coap "no CoAP response after maximum retransmissions"), t);
     recv_event := fun t => (Err (Coap "CoAP event channel closed"), t) |}.

Lemma thread_drivers_return_witness :
  returns (thread_pair_setup (C := toy_crypto) (B := std_biguint) (H := silent_transport)
             [x07] (str "123-45-678") demo_controller ()).1 /\
  returns (pair_verify_with_client (C := toy_crypto) (H := silent_transport)
             (new_with_ephemeral demo_controller {| pairing_id := []; ap_ltpk := [] |} [x03]) ()).1.
Proof.
  apply (thread_drivers_return (H := toy_crypto) (BL := std_biguint_laws) (H0 := silent_transport)).
  intros path payload []. exact I.
Defined.

Definition demo_keys : SessionKeys := {| sk_read_key := [x01]; sk_write_key := [x02] |}.

(** The accessory in a session, subscribed to its [On] characteristic. *)
Definition demo_subscribed : ReferenceAccessory :=
  {| ra_core := set_session (Some (accessory_session_new [x01] [x02] [x03]))
                  (set_light false [] {[9%Z]} (ra_core demo_paired));
     ra_next_mid := 1; ra_slow := false; ra_blockwise := Some 64; ra_block_cache := None;
     ra_peer := Some PEER; ra_socket := true |}.

Lemma thread_events_delivered_witness :
  let conn := {| sc_transport := at_rest 1 [] demo_subscribed [true] ∅; sc_session := coap_session_new demo_keys [x03] |} in
  let acts := [Push 9 [x01]; Push 9 []; Read; Next; Push 9 [x02]; Next] in
  exists conn', run_link (C := toy_crypto) (B := std_biguint) (L := toy_coap_lite) 1 acts conn =
      ([Ok [(9%Z, [x01])]; Ok [(9%Z, [])]], conn').
Proof.
  destruct (thread_events_delivered (H := toy_crypto_laws) (H0 := std_biguint) (H1 := toy_coap_lite_laws) 1
    [Push 9 [x01]; Push 9 []; Read; Next; Push 9 [x02]; Next]
    {| sc_transport := at_rest 1 [] demo_subscribed [true] ∅; sc_session := coap_session_new demo_keys [x03] |} demo_subscribed)
    as [(conn' & a' & Hr & _) _].
  - eexists _, _. split; reflexivity.
  - assert (event_ready 9 demo_subscribed) as Hr
      by (split; [done|]; split; [change (9%Z ∈ ({[9%Z]} : gset Z)); set_solver|]; done).
    change (pushes _) with [(9%Z, [x01]); (9%Z, []); (9%Z, [x02])].
    repeat (apply Forall_cons_2 || apply Forall_nil_2); (split; [exact Hr|]);
      unfold event_fits; change (length (value_body _)) with 3 || change (length (value_body _)) with 2; cbn; lia.
  - reflexivity.
  - exists conn'. exact Hr.
Defined.
