(* ===== verification/ThreadDb.v ===== *)
(** * [hap-thread/src/{database,controller}.rs]: the typed database over Thread

    The decoder of the [0x09] attribute database, [ThreadAccessory::read_database] and
    [watch_events], and the entry points of [ThreadController].  The theorems show that
    every database an accessory can describe is read back as the tree it describes, and
    that a malformed one is refused with a TLV8 error. *)

From S2P Require Import Prelude Text Tlv8 Crypto RecordLayer Srp PairSetup PairVerify DutPairing ThreadPdu Coap DutServer DutExchange ThreadAccessory ThreadLink Model Types.

(** ** [database.rs] *)

(** The [mod ty] of type numbers. *)
Definition ACCESSORIES : byte := x18.
Definition ACCESSORY : byte := x19.
Definition ACC_IID : byte := x1a.
Definition SERVICES : byte := x16.
Definition SERVICE : byte := x15.
Definition SVC_TYPE : byte := x06.
Definition SVC_IID : byte := x07.
Definition CHARS : byte := x14.
Definition CHAR : byte := x13.
Definition CHR_TYPE : byte := x04.
Definition CHR_IID : byte := x05.
Definition CHR_PROPS : byte := x0a.
Definition PRES_FMT : byte := x0c.

Definition list_items (value : bytes) (item_type : byte) : result ThreadError (list bytes) :=
  map ← map_err ThTlv8 (map_parse value);
  Ok (snd <$> filter (fun i => i.1 = item_type) (map_items map)).

(** The [format!] of the sixteen big-endian bytes of a UUID. *)
Definition dashed (be : bytes) : list Z :=
  let h := be ≫= hex2 false in
  take 8 h ++ [45%Z] ++ take 4 (drop 8 h) ++ [45%Z] ++ take 4 (drop 12 h) ++ [45%Z] ++ take 4 (drop 16 h) ++
  [45%Z] ++ drop 20 h.

Definition type_uuid (bs : bytes) : result ThreadError Uuid :=
  let n := length bs `min` 16 in
  let le := copy_at (replicate 16 x00) 0 (take n bs) in
  let s :=
    if forallb (fun b => bool_decide (b = x00)) (drop 4 le) then to_hex (le_Z (take 4 le))
    else dashed (reverse le) in
  map_err ThModel (uuid_parse s).

Definition perms_from (p : Z) : Perms :=
  let any mask := negb (Z.land p mask =? 0)%Z in
  {| p_read := any (Z.lor 0x0001 0x0010);
     p_write := any (Z.lor 0x0002 0x0020);
     p_events := any (Z.lor 0x0080 0x0100);
     p_additional_authorization := any 0x0004%Z;
     p_timed_write := any 0x0008%Z;
     p_hidden := any 0x0040%Z;
     p_write_response := false |}.

Definition format_and_unit (pf : option bytes) : CharFormat * option (list Z) :=
  match pf with
  | None => (FData, None)
  | Some pf =>
      let format :=
        match head pf with
        | Some x01 => FBool
        | Some x04 => FUint8
        | Some x06 => FUint16
        | Some x08 => FUint32
        | Some x0a => FUint64
        | Some x10 => FInt
        | Some x14 => FFloat
        | Some x19 => FString
        | _ => FData
        end in
      let unit :=
        code ← le_Z <$> get_range pf 2 4;
        match code with
        | 0x272F => Some "celsius"
        | 0x27AD => Some "percentage"
        | 0x2700 => Some "unitless"
        | 0x2731 => Some "lux"
        | 0x2703 => Some "seconds"
        | 0x2763 => Some "arcdegrees"
        | _ => None
        end%Z in
      (format, chars <$> unit)
  end.

Section database.
Context `{Generated}.

Definition decode_characteristic (bs : bytes) : result ThreadError Characteristic :=
  map ← map_err ThTlv8 (map_parse bs);
  iid ← map_err ThTlv8 (get_u16 map CHR_IID);
  u ← type_uuid (default [] (get map CHR_TYPE));
  let char_type := characteristic_from_uuid u in
  properties ← map_err ThTlv8 (get_u16 map CHR_PROPS);
  let '(format, unit) := format_and_unit (get map PRES_FMT) in
  Ok {| ch_iid := default 0%Z iid; ch_type := char_type; ch_format := format;
        ch_perms := perms_from (default 0%Z properties); ch_value := None; ch_unit := unit;
        ch_min_value := None; ch_max_value := None; ch_min_step := None; ch_max_len := None |}.

Definition decode_service (bs : bytes) : result ThreadError Service :=
  map ← map_err ThTlv8 (map_parse bs);
  iid ← map_err ThTlv8 (get_u16 map SVC_IID);
  u ← type_uuid (default [] (get map SVC_TYPE));
  let service_type := service_from_uuid u in
  let chars_value := default [] (get map CHARS) in
  items ← list_items chars_value CHAR;
  characteristics ← mapM decode_characteristic items;
  Ok {| svc_iid := default 0%Z iid; svc_type := service_type; svc_characteristics := characteristics |}.

Definition decode_accessory (bs : bytes) : result ThreadError Accessory :=
  map ← map_err ThTlv8 (map_parse bs);
  aid ← map_err ThTlv8 (get_u16 map ACC_IID);
  let services_value := default [] (get map SERVICES) in
  items ← list_items services_value SERVICE;
  services ← mapM decode_service items;
  Ok {| acc_aid := default 0%Z aid; acc_services := services |}.

Definition decode_database (raw : bytes) : result ThreadError (list Accessory) :=
  map ← map_err ThTlv8 (map_parse raw);
  let accessories := default [] (get map ACCESSORIES) in
  items ← list_items accessories ACCESSORY;
  mapM decode_accessory items.
End database.

(** ** [ThreadAccessory]: the typed database and the watcher *)

Section accessory.
Context `{C : Crypto} `{CoapTransport T} `{Build} `{Generated}.
Local Abbreviation Conn := (SecureCoapConnection T).

Definition read_database : stateful Conn ThreadError (list Accessory) :=
  raw ← read_database_raw;
  lift (decode_database raw).

(** The [for event in events] loop of the watcher; the stream takes [room] more events
    and is dropped.  [None]: it was. *)
Fixpoint forward_events (events : list (Z * bytes)) (room : nat) : list (Z * bytes) * option nat :=
  match events, room with
  | [], _ => ([], Some room)
  | _ :: _, 0 => ([], None)
  | event :: events', S room' => let '(sent, remaining) := forward_events events' room' in (event :: sent, remaining)
  end.

Inductive WatcherEnd := StreamDropped | WatcherStopped (e : ThreadError) | WatcherAborted.

(** The watcher task, aborted (by a new watcher or the drop of the accessory) after
    [turns] batches.  [Fault]: the task panicked. *)
Fixpoint watch_events (turns room : nat) (conn : Conn)
    : list (Z * bytes) * result Empty_set WatcherEnd * Conn :=
  match turns with
  | 0 => ([], Ok WatcherAborted, conn)
  | S turns' =>
      match next_event conn with
      | (Ok events, conn) =>
          match forward_events events room with
          | (sent, Some room) =>
              let '(sent', end_, conn) := watch_events turns' room conn in (sent ++ sent', end_, conn)
          | (sent, None) => (sent, Ok StreamDropped, conn)
          end
      | (Err e, conn) => ([], Ok (WatcherStopped e), conn)
      | (Fault f, conn) => ([], Fault f, conn)
      end
  end.
End accessory.

(** ** [controller.rs]

    [secret] and [a] are the private values [PairVerifyClient::new] and
    [PairSetupClient::new] draw.  A failed attempt drops the transport. *)

Section controller.
Context `{C : Crypto} `{B : BigUintOps} `{CoapTransport T}.

Definition identify : stateful T ThreadError () :=
  response ← post PATH_IDENTIFY [];
  _ ← lift (changed_payload response);
  mret ().

Definition verify_and_connect (secret : bytes) (keypair : ControllerKeypair) (pairing : AccessoryPairing) (t : T)
    : result ThreadError (SecureCoapConnection T) :=
  let '(r, t) := pair_verify_with_client (new_with_ephemeral keypair pairing secret) t in
  ke ← r;
  let '(keys, event_key) := ke in
  let session := coap_session_new keys event_key in
  Ok {| sc_transport := t; sc_session := session |}.

Definition pair_with_transport (a secret : bytes) (keypair : ControllerKeypair) (setup_code : bytes) (t : T)
    : result ThreadError (SecureCoapConnection T * AccessoryPairing) :=
  let '(r, t) := thread_pair_setup a setup_code keypair t in
  pairing ← r;
  accessory ← verify_and_connect secret keypair pairing t;
  Ok (accessory, pairing).

Definition connect_with_transport (secret : bytes) (keypair : ControllerKeypair) (pairing : AccessoryPairing) (t : T)
    : result ThreadError (SecureCoapConnection T) :=
  verify_and_connect secret keypair pairing t.
End controller.

(** * Specification: a database as the accessory describes it *)

(** The bytes of a UUID, the first one first. *)
Definition hex_byte (p : list Z) : byte :=
  match p with [a; b] => Zbyte (16 * default 0 (to_digit 16 a) + default 0 (to_digit 16 b)) | _ => x00 end%Z.
Definition uuid_be (u : Uuid) : bytes := hex_byte <$> chunks 2 (filter (.≠ 45%Z) (as_full u)).

(** A type on the wire: little-endian, a short one when it is in the HAP base range. *)
Definition type_bytes (u : Uuid) : bytes :=
  if bool_decide (drop 8 (as_full u) = lower_suffix) then reverse (take 4 (uuid_be u)) ++ replicate 12 x00
  else reverse (uuid_be u).

(** The UUIDs the format can carry: written 8-4-4-4-12, and either in the HAP base range
    or not of the form of a short type. *)
Definition type_ok (u : Uuid) : Prop :=
  length (uuid_be u) = 16 /\ as_full u = dashed (uuid_be u) /\
  (drop 8 (as_full u) = lower_suffix \/ take 12 (uuid_be u) <> replicate 12 x00).

Definition flag (b : bool) (bit : Z) : Z := if b then bit else 0%Z.
Definition props_bits (p : Perms) : Z :=
  (flag (p_read p) 0x1 + flag (p_write p) 0x2 + flag (p_events p) 0x80 + flag (p_additional_authorization p) 0x4 +
   flag (p_timed_write p) 0x8 + flag (p_hidden p) 0x40)%Z.

Definition format_code (f : CharFormat) : byte :=
  match f with
  | FBool => x01 | FUint8 => x04 | FUint16 => x06 | FUint32 => x08 | FUint64 => x0a | FInt => x10
  | FFloat => x14 | FString => x19 | FTlv8 | FData => x1b
  end.

Definition unit_codes : list (string * Z) :=
  [("celsius", 0x272F); ("percentage", 0x27AD); ("unitless", 0x2700); ("lux", 0x2731); ("seconds", 0x2703);
   ("arcdegrees", 0x2763)]%Z.
Definition unit_code (unit : option (list Z)) : Z :=
  match unit with
  | None => 0%Z
  | Some u => match list_find (fun e => chars e.1 = u) unit_codes with Some (_, (_, code)) => code | None => 0%Z end
  end.

(** Items of a list, separated by zero-type items. *)
Definition separated (ty : byte) (bodies : list bytes) : list item :=
  tail (bodies ≫= fun b => [(x00, []); (ty, b)]).

(** Every structure may end with further items. *)
Section encode.
Context (extra : list item).

Definition encode_characteristic (c : Characteristic) : bytes :=
  push_items []
    ([(CHR_TYPE, type_bytes (characteristic_type_uuid (ch_type c))); (CHR_IID, le_bytes 2 (ch_iid c));
      (CHR_PROPS, le_bytes 2 (props_bits (ch_perms c)));
      (PRES_FMT, [format_code (ch_format c); x00] ++ le_bytes 2 (unit_code (ch_unit c)) ++ [x01; x00; x00])] ++ extra).

Definition encode_service (s : Service) : bytes :=
  push_items []
    ([(SVC_TYPE, type_bytes (service_type_uuid (svc_type s))); (SVC_IID, le_bytes 2 (svc_iid s));
      (CHARS, push_items [] (separated CHAR (encode_characteristic <$> svc_characteristics s)))] ++ extra).

Definition encode_accessory (a : Accessory) : bytes :=
  push_items []
    ([(ACC_IID, le_bytes 2 (acc_aid a));
      (SERVICES, push_items [] (separated SERVICE (encode_service <$> acc_services a)))] ++ extra).

Definition encode_database (accs : list Accessory) : bytes :=
  push_items [] ([(ACCESSORIES, push_items [] (separated ACCESSORY (encode_accessory <$> accs)))] ++ extra).
End encode.

(** The trees the format can carry: structure without values. *)
Record characteristic_ok (c : Characteristic) : Prop := {
  co_iid : in_u 16 (ch_iid c);
  co_type : type_ok (characteristic_type_uuid (ch_type c));
  co_named : characteristic_type_from_uuid (characteristic_type_uuid (ch_type c)) = ch_type c;
  co_format : ch_format c <> FTlv8;
  co_perms : p_write_response (ch_perms c) = false;
  co_unit : from_option (fun u => u ∈ chars <$> unit_codes.*1) True (ch_unit c);
  co_structure : ch_value c = None /\ ch_min_value c = None /\ ch_max_value c = None /\ ch_min_step c = None /\
                 ch_max_len c = None
}.

Record service_ok (s : Service) : Prop := {
  so_iid : in_u 16 (svc_iid s);
  so_type : type_ok (service_type_uuid (svc_type s));
  so_named : service_type_from_uuid (service_type_uuid (svc_type s)) = svc_type s;
  so_chars : Forall characteristic_ok (svc_characteristics s)
}.

Definition accessory_ok (a : Accessory) : Prop := in_u 16 (acc_aid a) /\ Forall service_ok (acc_services a).

(** * Lemmas *)

(** ** Type UUIDs *)

Lemma hex_char_hexl d : (0 <= d < 16)%Z -> hexl (hex_char false d).
Proof. intros Hd. unfold hex_char, hexl. destruct (Z.ltb_spec d 10); lia. Qed.

Lemma hex2_hexl b : Forall hexl (hex2 false b).
Proof.
  pose proof (byteZ_range b). unfold hex2.
  repeat apply Forall_cons_2; try apply Forall_nil_2; apply hex_char_hexl;
    [split; [apply Z.div_pos|apply Z.div_lt_upper_bound]; lia|apply Z.mod_pos_bound; lia].
Qed.

Lemma hex_bytes_hexl bs : Forall hexl (bs ≫= hex2 false).
Proof. induction bs as [|b bs IH]; [by apply Forall_nil_2|]. rewrite bind_cons. apply Forall_app. split; [apply hex2_hexl|done]. Qed.

Lemma length_hex_bytes bs : length (bs ≫= hex2 false) = 2 * length bs.
Proof. induction bs as [|b bs IH]; [done|]. rewrite bind_cons, length_app, IH. cbn [length hex2]. lia. Qed.

Lemma hexl_hexd l : Forall hexl l -> Forall hexd l.
Proof. intros Hl. eapply Forall_impl; [exact Hl|]. intros c Hc. by left. Qed.

(** A short type reads back as the UUID in the HAP base range. *)
Lemma parse_short_type (bs : bytes) :
  length bs = 4 -> uuid_parse (to_hex (le_Z bs)) = Ok (MkUuid ((reverse bs ≫= hex2 false) ++ lower_suffix)).
Proof.
  intros Hl. pose proof (le_Z_bound bs) as Hb. rewrite Hl in Hb.
  destruct (to_hex_padded 7 (le_Z bs)) as [Hpad Hlen]; [exact Hb|].
  pose proof (hex_fixed_bytes bs) as Hf. rewrite Hl in Hf. change (2 * 4) with 8 in Hf. rewrite Hf in Hpad.
  set (t := to_hex (le_Z bs)) in *.
  assert (Forall hexl t) as Ht.
  { pose proof (hex_bytes_hexl (reverse bs)) as Hh. rewrite <- Hpad in Hh. by apply Forall_app in Hh as [_ ?]. }
  assert (Forall (fun c => 33 <= c < 128)%Z t) as Hr
    by (eapply Forall_impl; [exact Ht|]; intros c Hc; apply hexd_range; by left).
  unfold uuid_parse. rewrite trim_hexd by done.
  rewrite utf8_encode_small by (eapply Forall_impl; [exact Hr|]; simpl; lia).
  rewrite length_fmap, (proj2 (Nat.eqb_neq (length t) 36)) by lia. cbn [andb].
  rewrite !(proj2 (Nat.leb_le _ _)) by lia. cbn [andb].
  replace (forallb is_ascii_hexdigit t) with true
    by (symmetry; apply forallb_Forall; eapply Forall_impl; [exact Ht|apply hexl_digit]).
  rewrite (lower_hexd t) by by apply hexl_hexd. unfold pad_left_zero. rewrite Hpad.
  do 2 f_equal. unfold to_ascii_lowercase, lower_suffix. rewrite fmap_app. f_equal.
  apply lower_hexd, hexl_hexd, hex_bytes_hexl.
Qed.

Lemma dashed_canonical be : length be = 16 -> canonical (dashed be).
Proof.
  intros Hl. unfold dashed. set (h := be ≫= hex2 false).
  assert (length h = 32) as Hh by (unfold h; rewrite length_hex_bytes, Hl; done).
  assert (Forall hexd h) as Hx by apply hexl_hexd, hex_bytes_hexl.
  split; [|split].
  - rewrite !length_app, !length_take, !length_drop, Hh. simpl. lia.
  - rewrite lookup_app_r by (rewrite length_take; lia). rewrite length_take, Hh. done.
  - repeat (apply Forall_app; split); try (apply Forall_singleton; by right);
      repeat first [apply Forall_take | apply Forall_drop]; done.
Qed.

Lemma dashed_head be : length be = 16 -> take 8 (dashed be) = take 4 be ≫= hex2 false.
Proof.
  intros Hl. do 16 (destruct be as [|? be]; [done|]). destruct be; [|done]. reflexivity.
Qed.

Lemma copy_whole (bs : bytes) : length bs = 16 -> copy_at (replicate 16 x00) 0 (take (length bs `min` 16) bs) = bs.
Proof.
  intros Hl. unfold copy_at. rewrite Hl. rewrite (take_ge bs) by (simpl; lia).
  rewrite drop_ge by (rewrite length_replicate, Hl; simpl; lia). apply app_nil_r.
Qed.

Lemma type_uuid_bytes u : type_ok u -> type_uuid (type_bytes u) = Ok u.
Proof.
  intros (Hl & Hd & Hor). unfold type_uuid, type_bytes. set (be := uuid_be u) in *.
  case_bool_decide as Hs.
  - set (hd := take 4 be). assert (length hd = 4) as Hh by (unfold hd; rewrite length_take; lia).
    rewrite copy_whole by (rewrite length_app, length_reverse, length_replicate; lia).
    rewrite drop_app_length', take_app_length' by (by rewrite length_reverse).
    change (forallb _ (replicate 12 x00)) with true. cbv iota.
    rewrite parse_short_type by (by rewrite length_reverse). rewrite reverse_involutive. cbn [map_err].
    f_equal. destruct u as [f]. cbn [as_full] in *. f_equal.
    rewrite <- (take_drop 8 f), Hs. f_equal. rewrite Hd. symmetry. by apply dashed_head.
  - destruct Hor as [Hor|Hz]; [done|]. rewrite copy_whole by (by rewrite length_reverse).
    replace (forallb _ (drop 4 (reverse be))) with false.
    2:{ symmetry. apply not_true_iff_false. intros Hf%forallb_Forall. apply Hz.
        assert (drop 4 (reverse be) = reverse (take 12 be)) as He.
        { rewrite <- (take_drop 12 be) at 1. rewrite reverse_app, drop_app_length'; [done|].
          rewrite length_reverse, length_drop. lia. }
        rewrite He in Hf. symmetry. apply replicate_as_Forall. split; [by rewrite length_take, Hl|].
        apply Forall_reverse in Hf. rewrite reverse_involutive in Hf. eapply Forall_impl; [exact Hf|]. intros b Hb. cbn beta in Hb.
        by apply bool_decide_eq_true in Hb. }
    rewrite reverse_involutive, <- Hd, parse_full; [by destruct u|]. rewrite Hd. by apply dashed_canonical.
Qed.

Lemma copy_prefix (bs : bytes) : length (copy_at (replicate 16 x00) 0 (take (length bs `min` 16) bs)) = 16.
Proof. unfold copy_at. rewrite !length_app, length_drop, !length_take, length_replicate. lia. Qed.

(** No type field is refused. *)
Lemma type_uuid_total bs : exists u, type_uuid bs = Ok u /\ canonical (as_full u).
Proof.
  unfold type_uuid. pose proof (copy_prefix bs) as Hl. set (le := copy_at _ _ _) in *.
  destruct (forallb _ (drop 4 le)).
  - rewrite parse_short_type by (rewrite length_take; lia). eexists. split; [reflexivity|].
    eapply parse_canonical, parse_short_type. rewrite length_take. lia.
  - assert (canonical (dashed (reverse le))) as Hc by (apply dashed_canonical; by rewrite length_reverse).
    rewrite parse_full by done. by eexists.
Qed.

(** ** Properties and formats *)

Lemma perms_from_bits p : p_write_response p = false -> in_u 16 (props_bits p) /\ perms_from (props_bits p) = p.
Proof. destruct p as [[] [] [] [] [] [] []]; intros [=]; by vm_compute. Qed.

Lemma format_and_unit_pf f unit :
  f <> FTlv8 -> from_option (fun u => u ∈ chars <$> unit_codes.*1) True unit ->
  format_and_unit (Some ([format_code f; x00] ++ le_bytes 2 (unit_code unit) ++ [x01; x00; x00])) = (f, unit).
Proof.
  intros Hf Hu. transitivity (match f with FTlv8 => FData | _ => f end, unit); [|by destruct f].
  unfold format_and_unit. cbn [head app]. f_equal; [by destruct f|].
  replace (get_range _ 2 4) with (Some (le_bytes 2 (unit_code unit))) by reflexivity.
  destruct unit as [u|]; [|by vm_compute]. cbn [from_option] in Hu.
  apply list_elem_of_fmap in Hu as (name & -> & Hn).
  unfold unit_codes in Hn. cbn [fmap list_fmap fst] in Hn. set_unfold in Hn.
  destruct_or! Hn; subst; by vm_compute.
Qed.

(** ** Lists *)

Lemma list_items_separated ty bodies :
  ty <> x00 -> ty <> SEPARATOR -> list_items (push_items [] (separated ty bodies)) ty = Ok bodies.
Proof.
  intros H0 Hs. unfold list_items. rewrite map_parse_push_items.
  2:{ unfold separated. destruct bodies as [|b bodies]; [by apply Forall_nil_2|]. cbn [tail mbind list_bind app].
      apply Forall_cons. split; [by apply item_ok_ty|].
      induction bodies as [|b' bodies IH]; [by apply Forall_nil_2|]. cbn [mbind list_bind app].
      apply Forall_cons. split; [by apply item_ok_ty|]. apply Forall_cons. split; [by apply item_ok_ty|]. exact IH. }
  cbn [map_err mbind result_bind]. f_equal. unfold from_items, separated. cbn [map_items].
  destruct bodies as [|b bodies]; [done|]. cbn [tail mbind list_bind app].
  rewrite filter_cons_True by done. cbn [fmap list_fmap snd]. f_equal.
  induction bodies as [|b' bodies IH]; [done|]. cbn [mbind list_bind app].
  rewrite filter_cons_False by (cbn [fst]; congruence). rewrite filter_cons_True by done.
  cbn [fmap list_fmap snd]. by f_equal.
Qed.

Lemma mapM_inverse {E A B} (f : B -> result E A) (g : A -> B) (P : A -> Prop) l :
  (forall x, P x -> f (g x) = Ok x) -> Forall P l -> mapM f (g <$> l) = Ok l.
Proof.
  intros Hf. induction 1 as [|x l Hx Hl IH]; [done|]. cbn [fmap list_fmap mapM]. rewrite (Hf x Hx).
  cbn [mbind result_bind]. by rewrite IH.
Qed.

(** ** Round trip of each level *)

Section roundtrip.
Context (extra : list item) (Hextra : Forall item_ok extra).

Lemma parse_fields fields :
  Forall (fun i => i.1 <> SEPARATOR) fields -> map_parse (push_items [] (fields ++ extra)) = Ok (from_items (fields ++ extra)).
Proof using Hextra.
  intros Hf. apply map_parse_push_items, Forall_app. split; [|done].
  eapply Forall_impl; [exact Hf|]. intros [ty v] Ht. by apply item_ok_ty.
Qed.

Lemma get_head ty v l : get (from_items ((ty, v) :: l)) ty = Some v.
Proof. exact (get_first [] l ty v (not_elem_of_nil _)). Qed.

Lemma get_skip ty ty' v l : ty' <> ty -> get (from_items ((ty', v) :: l)) ty = get (from_items l) ty.
Proof. intros Hn. unfold get, from_items. simpl. by rewrite bool_decide_false by done. Qed.

Lemma get_u16_head ty n l : in_u 16 n -> get_u16 (from_items ((ty, le_bytes 2 n) :: l)) ty = Ok (Some n).
Proof.
  intros Hn. unfold get_u16. erewrite get_uint_spec by (lia || apply get_head).
  rewrite length_le_bytes, le_Z_le_bytes_small by exact Hn. cbn. unfold in_u in Hn. by rewrite Z.mod_small by lia.
Qed.

Lemma get_u16_skip ty ty' v l : ty' <> ty -> get_u16 (from_items ((ty', v) :: l)) ty = get_u16 (from_items l) ty.
Proof. intros Hn. unfold get_u16, get_uint. by rewrite get_skip. Qed.

Ltac fields := repeat apply Forall_cons_2; try apply Forall_nil_2; done.
Ltac field :=
  repeat first [ rewrite get_u16_skip by done | rewrite get_skip by done
               | rewrite get_u16_head by done | rewrite get_head | rewrite type_uuid_bytes by done
               | progress cbn [map_err mbind result_bind default from_option id] ].

Lemma characteristic_roundtrip c :
  characteristic_ok c -> decode_characteristic (encode_characteristic extra c) = Ok c.
Proof using Hextra.
  intros [Hi Ht Hn Hf Hp Hu Hs]. destruct (perms_from_bits _ Hp) as [Hb Hperms].
  unfold decode_characteristic, encode_characteristic. rewrite parse_fields by fields.
  cbn [map_err mbind result_bind app]. field. pose proof (format_and_unit_pf _ _ Hf Hu) as He. cbn [app] in He. rewrite He.
  rewrite Hperms. change (characteristic_from_uuid (characteristic_type_uuid (ch_type c)))
    with (characteristic_type_from_uuid (characteristic_type_uuid (ch_type c))). rewrite Hn.
  destruct c. simpl in *. destruct Hs as (-> & -> & -> & -> & ->). done.
Qed.

Lemma service_roundtrip s : service_ok s -> decode_service (encode_service extra s) = Ok s.
Proof using Hextra.
  intros [Hi Ht Hn Hc]. unfold decode_service, encode_service. rewrite parse_fields by fields.
  cbn [map_err mbind result_bind app]. field. rewrite list_items_separated by done. cbn [mbind result_bind].
  rewrite (mapM_inverse _ _ characteristic_ok) by (done || apply characteristic_roundtrip). cbn [mbind result_bind].
  change (service_from_uuid (service_type_uuid (svc_type s)))
    with (service_type_from_uuid (service_type_uuid (svc_type s))). rewrite Hn. by destruct s.
Qed.

Lemma accessory_roundtrip a : accessory_ok a -> decode_accessory (encode_accessory extra a) = Ok a.
Proof using Hextra.
  intros [Hi Hs]. unfold decode_accessory, encode_accessory. rewrite parse_fields by fields.
  cbn [map_err mbind result_bind app]. field.
  rewrite list_items_separated by done. cbn [mbind result_bind].
  rewrite (mapM_inverse _ _ service_ok) by (done || apply service_roundtrip). by destruct a.
Qed.

Lemma database_roundtrip accs :
  Forall accessory_ok accs -> decode_database (encode_database extra accs) = Ok accs.
Proof using Hextra.
  intros Ha. unfold decode_database, encode_database. rewrite parse_fields by fields.
  cbn [map_err mbind result_bind app]. field.
  rewrite list_items_separated by done. cbn [mbind result_bind].
  by rewrite (mapM_inverse _ _ accessory_ok) by (done || apply accessory_roundtrip).
Qed.
End roundtrip.

(** ** Refusals *)

(** A result, or an error of the TLV8 layer. *)
Definition tlv8_or {A} (r : result ThreadError A) : Prop :=
  match r with Ok _ => True | Err (ThTlv8 _) => True | _ => False end.

Lemma tlv8_or_bind {A B} (m : result ThreadError A) (k : A -> result ThreadError B) :
  tlv8_or m -> (forall a, tlv8_or (k a)) -> tlv8_or (m ≫= k).
Proof. destruct m as [a|[]|f]; simpl; auto. Qed.

Lemma tlv8_or_map_err {A} (m : result Tlv8Error A) : returns m -> tlv8_or (map_err ThTlv8 m).
Proof. by destruct m. Qed.

Lemma tlv8_or_mapM {A B} (f : A -> result ThreadError B) l : (forall a, tlv8_or (f a)) -> tlv8_or (mapM f l).
Proof.
  intros Hf. induction l as [|a l IH]; [done|]. cbn [mapM]. apply tlv8_or_bind; [done|]. intros b.
  by apply tlv8_or_bind.
Qed.

Lemma returns_get_u16 m ty : returns (get_u16 m ty).
Proof. unfold get_u16. apply returns_bind; [apply returns_get_uint; lia|done]. Qed.

Lemma tlv8_or_type_uuid bs : tlv8_or (type_uuid bs).
Proof. by destruct (type_uuid_total bs) as (u & -> & _). Qed.

Ltac refusals :=
  repeat first
    [ match goal with
      | H : forall _, tlv8_or (?f _) |- tlv8_or (?f _) => apply H
      | H : forall _ _, tlv8_or (?f _ _) |- tlv8_or (?f _ _) => apply H
      end
    | apply tlv8_or_bind; [|intros ?]
    | apply tlv8_or_mapM; intros ?
    | apply tlv8_or_map_err; first [apply returns_map_parse | apply returns_get_u16]
    | apply tlv8_or_type_uuid
    | done ].

Lemma decode_database_refusals `{Generated} raw : tlv8_or (decode_database raw).
Proof.
  assert (forall v ty, tlv8_or (list_items v ty)) as Hl by (intros v ty; unfold list_items; refusals).
  assert (forall bs, tlv8_or (decode_characteristic bs)) as Hc.
  { intros bs. unfold decode_characteristic. refusals. by destruct (format_and_unit _). }
  assert (forall bs, tlv8_or (decode_service bs)) as Hs by (intros bs; unfold decode_service; refusals).
  assert (forall bs, tlv8_or (decode_accessory bs)) as Ha by (intros bs; unfold decode_accessory; refusals).
  unfold decode_database. refusals.
Qed.

(** ** The watcher *)

Section watcher.
Context `{C : Crypto} `{CoapTransport T}.

(** The batches [next_event] returned one after the other. *)
Inductive received : SecureCoapConnection T -> list (list (Z * bytes)) -> SecureCoapConnection T -> Prop :=
| received_none conn : received conn [] conn
| received_batch conn b conn1 bs conn2 :
    next_event conn = (Ok b, conn1) -> received conn1 bs conn2 -> received conn (b :: bs) conn2.

Lemma forward_events_spec events room :
  forward_events events room =
    (take room events, if length events <=? room then Some (room - length events) else None).
Proof.
  revert room. induction events as [|e events IH]; intros room; [by rewrite Nat.sub_0_r, take_nil|].
  destruct room as [|room]; [done|]. cbn [forward_events]. by rewrite IH.
Qed.

(** What the stream yields: the events of the batches in order, cut where it was
    dropped, and all of them when the task ended for another reason. *)
Lemma watch_events_spec turns room conn :
  let '(sent, end_, conn') := watch_events turns room conn in
  exists bs conn1, received conn bs conn1 /\ sent = take room (mjoin bs) /\
    match end_ with
    | Ok StreamDropped => room < length (mjoin bs) /\ conn' = conn1
    | Ok (WatcherStopped e) => sent = mjoin bs /\ next_event conn1 = (Err e, conn')
    | Ok WatcherAborted => sent = mjoin bs /\ length bs = turns /\ conn' = conn1
    | Err e => False
    | Fault f => sent = mjoin bs /\ next_event conn1 = (Fault f, conn')
    end.
Proof.
  revert room conn. induction turns as [|turns IH]; intros room conn; cbn [watch_events].
  { exists [], conn. split; [constructor|]. cbn [mjoin list_join]. by rewrite take_nil. }
  destruct (next_event conn) as [[events|e|f] conn1] eqn:Hn.
  - rewrite forward_events_spec. destruct (Nat.leb_spec (length events) room) as [Hle|Hlt].
    + specialize (IH (room - length events) conn1).
      destruct (watch_events turns _ conn1) as [[sent end_] conn'].
      destruct IH as (bs & conn2 & Hr & -> & He). exists (events :: bs), conn2.
      split; [by eapply received_batch|]. change (mjoin (events :: bs)) with (events ++ mjoin bs).
      rewrite take_ge, (take_app_ge events) by lia. split; [done|].
      rewrite length_app. cbn [length].
      destruct end_ as [[|e|]|[]|f]; [|destruct He as [Hs He]..]; rewrite ?Hs; try done.
      * destruct He as [He ->]. split; [lia|done].
      * destruct He as [<- ->]. done.
    + exists [events], conn1. split; [eapply received_batch; [done|constructor]|].
      cbn [mjoin list_join]. rewrite app_nil_r. done.
  - exists [], conn. split; [constructor|]. cbn [mjoin list_join]. by rewrite take_nil.
  - exists [], conn. split; [constructor|]. cbn [mjoin list_join]. by rewrite take_nil.
Qed.
End watcher.

(** * Theorems *)

(** C26: The attribute database over Thread.  Whatever tree of accessories, services and
    characteristics an accessory describes in its [0x09] body (HAP and vendor types,
    permissions, formats, units, any further items), [read_database] returns exactly
    that tree; and any other body, however malformed, gives a tree or an error of the
    TLV8 layer: no type UUID is ever refused and nothing panics. *)
Theorem thread_database_roundtrip `{Crypto} `{CoapTransport T} `{Build} extra accs conn conn' :
  Forall item_ok extra -> Forall accessory_ok accs -> small_body (encode_database extra accs) ->
  post_secure [x00; x09; x00; x00; x00; x00; x00] conn =
    (Ok (encode_response 0 STATUS_SUCCESS (encode_database extra accs)), conn') ->
  read_database conn = (Ok accs, conn') /\ forall raw, tlv8_or (decode_database raw).
Proof.
  intros He Ha Hs Hp. split; [|apply decode_database_refusals].
  unfold read_database, read_database_raw. run.
  replace (encode_all ReadDatabase [(0%Z, [])]) with (Ok (E := ThreadError) [x00; x09; x00; x00; x00; x00; x00])
    by (unfold encode_all, debug_assert, encode_all_from, pdu_encode_request, debug_assert; by destruct debug_assertions).
  rewrite Hp. pose proof (decode_all_batch [(STATUS_SUCCESS, encode_database extra accs)]) as Hd.
  cbn [imap mjoin list_join fst snd] in Hd. rewrite app_nil_r in Hd. change (sat_u8 0) with 0%Z in Hd.
  rewrite Hd by (apply Forall_singleton; by split). cbn [first_of head ok_or resp_status resp_body].
  change (STATUS_SUCCESS =? 0)%Z with true. cbv beta iota. by rewrite database_roundtrip.
Qed.

(** A lamp and a sensor of a vendor type, described with a vendor item. *)
Definition demo_vendor : Uuid := MkUuid (chars "6b1f2c3d-0102-4a5b-8c7d-00000000abcd").
Definition demo_characteristic (iid : Z) (t : HapCharacteristicType) (f : CharFormat) (p : Perms) (unit : option (list Z))
    : Characteristic :=
  {| ch_iid := iid; ch_type := t; ch_format := f; ch_perms := p; ch_value := None; ch_unit := unit;
     ch_min_value := None; ch_max_value := None; ch_min_step := None; ch_max_len := None |}.
Definition demo_tree : list Accessory :=
  [{| acc_aid := 1; acc_services :=
       [{| svc_iid := 8; svc_type := service_type_from_uuid (from_full_unchecked "00000043-0000-1000-8000-0026bb765291");
           svc_characteristics :=
             [demo_characteristic 9 (characteristic_type_from_uuid (from_full_unchecked "00000025-0000-1000-8000-0026bb765291"))
                FBool (perms_from 0x93) None;
              demo_characteristic 300 (characteristic_type_from_uuid (from_full_unchecked "00000008-0000-1000-8000-0026bb765291"))
                FInt (perms_from 0x0b) (Some (chars "percentage"))] |};
        {| svc_iid := 20; svc_type := SvcUnknown demo_vendor;
           svc_characteristics := [demo_characteristic 21 (ChrUnknown demo_vendor) FString (perms_from 0x41) None] |}] |}]%Z.

#[local] Instance type_ok_dec u : Decision (type_ok u).
Proof. unfold type_ok. apply _. Defined.

Lemma demo_tree_ok : Forall accessory_ok demo_tree.
Proof.
  repeat first [apply Forall_cons_2 | apply Forall_nil_2 | split]; cbn [acc_aid acc_services];
    try (vm_compute; done); try (apply (bool_decide_unpack _); by vm_compute).
  apply (bool_decide_unpack (chars "percentage" ∈ chars <$> unit_codes.*1)). by vm_compute.
Qed.

(** A transport that answers every request with the sealed description. *)
Definition describing_transport : CoapTransport () :=
  {| post := fun _ _ t =>
       (Ok {| cr_code := (2, 4)%Z;
              cr_payload := match chacha20poly1305_seal (C := toy_crypto) [x01] (counter_nonce 0) []
                                   (encode_response 0 STATUS_SUCCESS (encode_database [(x0f, [x01])] demo_tree)) with
                            | Ok ct => ct | _ => [] end |}, t);
     recv_event := fun t => (Err (Coap "CoAP event channel closed"), t) |}.

Lemma thread_database_roundtrip_witness :
  let b := {| overflow_checks := true; debug_assertions := true |} in
  let conn := {| sc_transport := (); sc_session := coap_session_new {| sk_read_key := [x01]; sk_write_key := [x02] |} [x03] |} in
  exists conn', read_database (C := toy_crypto) (H := describing_transport) conn = (Ok demo_tree, conn') /\
    forall raw, tlv8_or (decode_database raw).
Proof.
  intros b conn. eexists.
  apply (thread_database_roundtrip (H := toy_crypto) (H0 := describing_transport) [(x0f, [x01])] demo_tree).
  - apply Forall_singleton. by apply item_ok_ty.
  - apply demo_tree_ok.
  - by vm_compute.
  - vm_compute. reflexivity.
Defined.

(** C25: Pairing with [ThreadController].  Over any transport that carries requests to an
    accessory whose setup code normalises to the one given, [pair] returns a connection
    and the accessory's identity, and [connect] with that identity opens another one; on
    either connection any sequence of commands returns what the light bulb's
    specification returns.  (The last two hypotheses are the SRP parameter checks both
    sides make.) *)
Theorem thread_controller_pairs `{CA : Carries} {CL : CryptoLaws _} {BL : BigUintLaws _} `{Build}
    t code_c code_a ctl a secret c0 g :
  let c := accessory_of t in let salt := rnd_salt (draw c).1 in
  let s := with_salt_and_private g PAIR_SETUP_USERNAME (normalize_setup_code code_a) salt
             (from_bytes_be (rnd_b (draw c).1)) in
  carrier_ok t -> 512 <= max_request -> 512 <= max_reply -> ra_setup_code c = Some code_a ->
  new_with_private code_c ctl a = Ok c0 -> hap_group = Ok g ->
  normalize_setup_code code_c = normalize_setup_code code_a ->
  short_id (kp_id ctl) -> short_id (ra_pairing_id c) -> length salt <= 64 ->
  is_Some (from_utf8 (kp_id ctl)) -> is_Some (from_utf8 (ra_pairing_id c)) ->
  (sv_b_pub s mod modulus g <> 0)%Z -> (compute_u g (cl_a_pub (srp c0)) (sv_b_pub s) <> 0)%Z ->
  let pairing := {| pairing_id := ra_pairing_id c; ap_ltpk := ltpk (ra_keypair c) |} in
  let works conn := forall cmds, Forall command_ok cmds ->
    exists conn', run_commands cmds conn = ((spec_commands cmds (light_of c)).1, conn') /\
      light_of (accessory_of (sc_transport conn')) = (spec_commands cmds (light_of c)).2 in
  exists conn, pair_with_transport a secret ctl code_c t = Ok (conn, pairing) /\ works conn /\
    exists conn2, connect_with_transport secret ctl pairing (sc_transport conn) = Ok conn2 /\ works conn2.
Proof.
  intros c salt s Hok Hq Hr Hc Hn Hg Hnm Hi1 Hi2 Hs Hu1 Hu2 HB Hu pairing works.
  destruct (thread_setup t code_c code_a ctl a c0 g Hok Hq Hr Hc Hn Hg Hnm Hi1 Hi2 Hs Hu1 Hu2 HB Hu)
    as (t1 & Ht & Ha & Hok1). fold c in Ht, Ha.
  assert (forall t', carrier_ok t' -> ra_controller (accessory_of t') = Some (kp_id ctl, ltpk ctl) ->
    ra_pairing_id (accessory_of t') = ra_pairing_id c -> ra_keypair (accessory_of t') = ra_keypair c ->
    light_of (accessory_of t') = light_of c ->
    exists conn, verify_and_connect secret ctl pairing t' = Ok conn /\ works conn /\
      carrier_ok (sc_transport conn) /\ exists s', accessory_of (sc_transport conn) = verified s' (accessory_of t')) as Hv.
  { intros t' Hok' Hctl Hid Hkp Hlight.
    destruct (thread_verify t' ctl secret) as (keys & ek & t'' & s' & Hv & Hl);
      [done|done|done|by rewrite Hid|done|done|].
    rewrite Hid, Hkp in Hv. fold pairing in Hv. eexists. split; [|split; [|split]].
    - unfold verify_and_connect. rewrite Hv. reflexivity.
    - intros cmds Hcmds. destruct (commands_refine cmds _ _ Hl Hcmds) as (conn' & s'' & Hrun & Hl').
      change (light_of (verified s' (accessory_of t'))) with (light_of (accessory_of t')) in *.
      rewrite Hlight in *. exists conn'. split; [exact Hrun|]. destruct Hl' as (_ & Ha' & _). rewrite Ha'.
      by destruct (spec_commands cmds (light_of c)) as [? [? ? ?]].
    - apply Hl.
    - exists s'. apply Hl. }
  destruct (Hv t1 Hok1) as (conn & Hconn & Hw & Hokc & s1 & Hac); [by rewrite Ha..|].
  destruct (Hv (sc_transport conn) Hokc) as (conn2 & Hconn2 & Hw2 & _); [by rewrite Hac, Ha..|].
  exists conn. split; [|split; [done|by exists conn2]].
  unfold pair_with_transport. rewrite Ht. cbn [mbind result_bind]. fold pairing. by rewrite Hconn.
Qed.

Lemma thread_controller_pairs_witness :
  let T := udp_transport (H := toy_coap_lite) (H0 := loop_network (C := toy_crypto) (B := std_biguint) (L := toy_coap_lite)) 1 in
  let CA := loop_carries (C := toy_crypto) (B := std_biguint) (L := toy_coap_lite) (LL := toy_coap_lite_laws) (Some 64) 1 demo_blocks in
  let b := {| overflow_checks := true; debug_assertions := true |} in
  let pairing := {| pairing_id := str "AA:BB"; ap_ltpk := ltpk (C := toy_crypto) demo_keypair |} in
  let works conn := forall cmds, Forall (command_ok (CA := CA)) cmds ->
    exists conn', run_commands (H := toy_crypto) (H0 := T) cmds conn =
        ((spec_commands cmds (light_of (ra_core demo_accessory))).1, conn') /\
      light_of (ra_core (lp_acc (ut_net (sc_transport conn')))) = (spec_commands cmds (light_of (ra_core demo_accessory))).2 in
  exists conn, pair_with_transport (C := toy_crypto) (B := std_biguint) (H := T) [x07] [x03] demo_controller
      (str "123-45-678") (at_rest 1 [] demo_accessory [true; false; true] ∅) = Ok (conn, pairing) /\ works conn /\
    exists conn2, connect_with_transport (C := toy_crypto) (H := T) [x03] demo_controller pairing (sc_transport conn) = Ok conn2 /\
      works conn2.
Proof.
  destruct (demo_setup_params demo_controller) as (Hnew & Hg & HB & Hu).
  apply (thread_controller_pairs
    (CA := loop_carries (C := toy_crypto) (B := std_biguint) (L := toy_coap_lite) (LL := toy_coap_lite_laws) (Some 64) 1 demo_blocks)
    (at_rest 1 [] demo_accessory [true; false; true] ∅) (str "123-45-678") (str "12345678") demo_controller [x07] [x03]
    (demo_client0 demo_controller) (cl_group hap_client)).
  - clear Hnew Hg HB Hu. eexists _, _, _, _. split; [reflexivity|]. by split; [apply demo_serving|].
  - change (512 <= 1200). lia.
  - change (512 <= 64 * 1024). lia.
  - reflexivity.
  - exact Hnew.
  - exact Hg.
  - by vm_compute.
  - unfold short_id. simpl. lia.
  - unfold short_id. simpl. lia.
  - simpl. lia.
  - by eexists.
  - by eexists.
  - change (rnd_salt (draw _).1) with [x01]. change (rnd_b (draw _).1) with [x03]. exact HB.
  - change (rnd_salt (draw _).1) with [x01]. change (rnd_b (draw _).1) with [x03]. exact Hu.
Defined.
