(* ===== verification/ModelJson.v ===== *)
(** * [hap-model/src/{format,characteristics,accessories,database}.rs]: the JSON bodies

    Values against JSON, the requests and responses of [/characteristics] and
    [/accessories], and the database over an executor.  serde_json is the class
    [SerdeJson]: its numbers and the texts of its values, written and read; the
    deserialisers derived for the wire structs are written out on the tree of a text.
    base64 is the class [Base64Engine]. *)

From Stdlib Require Import SpecFloat.
From S2P Require Import Prelude Text Model.

#[local] Set Warnings "-register-all".

(** ** JSON values *)

(** [serde_json::Value], over the crate's number type. *)
Inductive JsonValue (N : Type) :=
| JNull
| JBool (b : bool)
| JNumber (n : N)
| JString (s : list Z)
| JArray (items : list (JsonValue N))
| JObject (fields : list (string * JsonValue N)).
Arguments JNull {N}.
Arguments JBool {N} b.
Arguments JNumber {N} n.
Arguments JString {N} s.
Arguments JArray {N} items.
Arguments JObject {N} fields.

(** The wire structs ([tree.rs], [characteristics.rs]). *)
Record WireCharacteristic (N : Type) := {
  wc_iid : Z; wc_type : Uuid; wc_format : CharFormat; wc_perms : Perms;
  wc_value : option (JsonValue N); wc_unit : option (list Z);
  wc_min_value : option f64; wc_max_value : option f64; wc_min_step : option f64; wc_max_len : option Z
}.
Arguments wc_iid {N}. Arguments wc_type {N}. Arguments wc_format {N}. Arguments wc_perms {N}.
Arguments wc_value {N}. Arguments wc_unit {N}. Arguments wc_min_value {N}. Arguments wc_max_value {N}.
Arguments wc_min_step {N}. Arguments wc_max_len {N}.

Record WireService (N : Type) := { ws_iid : Z; ws_type : Uuid; ws_characteristics : list (WireCharacteristic N) }.
Arguments ws_iid {N}. Arguments ws_type {N}. Arguments ws_characteristics {N}.

Record WireAccessory (N : Type) := { wa_aid : Z; wa_services : list (WireService N) }.
Arguments wa_aid {N}. Arguments wa_services {N}.

(** [aid] and [iid] are [u64], [status] an [i64]. *)
Record WireReadEntry (N : Type) := {
  we_aid : Z; we_iid : Z; we_value : option (JsonValue N); we_status : option Z; we_format : option CharFormat
}.
Arguments we_aid {N}. Arguments we_iid {N}. Arguments we_value {N}. Arguments we_status {N}. Arguments we_format {N}.

Class SerdeJson := {
  Number : Type;
  as_u64 : Number -> option Z;
  as_i64 : Number -> option Z;
  as_f64 : Number -> option f64;
  number_from_u64 : Z -> Number;
  number_from_i64 : Z -> Number;
  number_from_f64 : f64 -> option Number;
  json_display : JsonValue Number -> list Z;
  to_vec : JsonValue Number -> bytes;
  json_from_slice : bytes -> result (list Z) (JsonValue Number);
  shape_error : bytes -> list Z
}.

Class Base64Engine := {
  b64_encode : bytes -> list Z;
  b64_decode : bytes -> result (list Z) bytes
}.

(** The object [json!] builds: [serde_json::Map] keeps its entries in the order of the
    keys, the last of equal keys. *)
Fixpoint insert_field {A} (k : string) (v : A) (fields : list (string * A)) : list (string * A) :=
  match fields with
  | [] => [(k, v)]
  | (k', v') :: fields' =>
      if String.eqb k k' then fields
      else if String.leb k k' then (k, v) :: fields else (k', v') :: insert_field k v fields'
  end.
Definition json_object {N} (fields : list (string * JsonValue N)) : JsonValue N :=
  JObject (foldr (fun kv => insert_field kv.1 kv.2) [] fields).

Section json.
Context `{SerdeJson} `{Base64Engine}.
Local Abbreviation Value := (JsonValue Number).

(** ** [format.rs] *)

Definition value_as_u64 (v : Value) : option Z := match v with JNumber n => as_u64 n | _ => None end.
Definition value_as_i64 (v : Value) : option Z := match v with JNumber n => as_i64 n | _ => None end.
Definition value_as_f64 (v : Value) : option f64 := match v with JNumber n => as_f64 n | _ => None end.

Definition type_err (self : CharFormat) (v : Value) : ModelError :=
  ValueType (format_as_str self) (chars "got JSON " ++ json_display v).

Definition value_from_json (self : CharFormat) (v : Value) : result ModelError CharValue :=
  match self with
  | FBool =>
      match v with
      | JBool b => Ok (VBool b)
      | JNumber n =>
          if bool_decide (as_u64 n = Some 0%Z) then Ok (VBool false)
          else if bool_decide (as_u64 n = Some 1%Z) then Ok (VBool true)
          else Err (type_err self v)
      | other => Err (type_err self other)
      end
  | FUint8 | FUint16 | FUint32 | FUint64 =>
      n ← ok_or (value_as_u64 v) (type_err self v);
      match uint_max self with
      | Some max =>
          if (max <? n)%Z then Err (ValueRange (format_as_str self) (to_decimal n)) else Ok (VUint n)
      | None => Ok (VUint n)
      end
  | FInt => n ← ok_or (value_as_i64 v) (type_err self v); Ok (VInt n)
  | FFloat => f ← ok_or (value_as_f64 v) (type_err self v); Ok (VFloat f)
  | FString => match v with JString s => Ok (VStr s) | other => Err (type_err self other) end
  | FTlv8 | FData =>
      match v with
      | JString s => bs ← map_err Base64 (b64_decode (utf8_encode s)); Ok (VBytes bs)
      | other => Err (type_err self other)
      end
  end.

Definition to_json (self : CharValue) : Value :=
  match self with
  | VBool b => JBool b
  | VInt n => JNumber (number_from_i64 n)
  | VUint n => JNumber (number_from_u64 n)
  | VFloat f => match number_from_f64 f with Some n => JNumber n | None => JNull end
  | VStr s => JString s
  | VBytes b => JString (b64_encode b)
  end.

(** ** The derived deserialisers

    [#[derive(Deserialize)]] on the wire structs: a struct is read from an object, whose
    unknown fields are ignored and whose known ones may not repeat, or from an array of
    its fields in order.  [None] is an error whose text is [shape_error]. *)

(** The bytes of a Rust string, as a string. *)
Definition as_str (s : list Z) : string := String.string_of_list_byte (utf8_encode s).

Definition field (fields : list (string * Value)) (name : string) : option Value :=
  snd <$> List.find (fun kv => String.eqb kv.1 name) fields.

Definition repeated (fields : list (string * Value)) (name : string) : bool :=
  1 <? length (List.filter (fun kv => String.eqb kv.1 name) fields).

Definition struct_fields (names : list string) (j : Value) : option (list (option Value)) :=
  match j with
  | JObject fields =>
      if existsb (repeated fields) names then None else Some (field fields <$> names)
  | JArray items =>
      if length items <=? length names then Some (take (length names) ((Some <$> items) ++ (const None <$> names))) else None
  | _ => None
  end.

(** A field without a default, and one with [#[serde(default)]] of an [Option] type. *)
Definition required {A} (de : Value -> option A) (f : option Value) : option A := f ≫= de.
Definition defaulted {A} (de : Value -> option A) (f : option Value) : option (option A) :=
  match f with None | Some JNull => Some None | Some j => Some <$> de j end.

Definition de_vec {A} (de : Value -> option A) (j : Value) : option (list A) :=
  match j with JArray items => mapM de items | _ => None end.
Definition de_string (j : Value) : option (list Z) := match j with JString s => Some s | _ => None end.

(** [rename_all = "lowercase"]: the names of [as_str]; a unit variant may also be an
    object of its name and [null]. *)
Definition char_formats : list CharFormat :=
  [FBool; FUint8; FUint16; FUint32; FUint64; FInt; FFloat; FString; FTlv8; FData].
Definition de_format (j : Value) : option CharFormat :=
  name ← match j with JString s => Some (as_str s) | JObject [(k, JNull)] => Some k | _ => None end;
  List.find (fun f => String.eqb (format_as_str f) name) char_formats.

Definition de_perms (j : Value) : option Perms := (fun codes => visit_seq (as_str <$> codes)) <$> de_vec de_string j.

Definition de_uuid (j : Value) : option Uuid :=
  raw ← de_string j; match uuid_parse raw with Ok u => Some u | _ => None end.

Definition de_read_entry (j : Value) : option (WireReadEntry Number) :=
  fs ← struct_fields ["aid"; "iid"; "value"; "status"; "format"] j;
  match fs with
  | [aid; iid; value; status; format] =>
      aid ← required value_as_u64 aid;
      iid ← required value_as_u64 iid;
      value ← defaulted Some value;
      status ← defaulted value_as_i64 status;
      format ← defaulted de_format format;
      Some {| we_aid := aid; we_iid := iid; we_value := value; we_status := status; we_format := format |}
  | _ => None
  end.

Definition de_read_response (j : Value) : option (list (WireReadEntry Number)) :=
  fs ← struct_fields ["characteristics"] j;
  match fs with [entries] => required (de_vec de_read_entry) entries | _ => None end.

Definition de_characteristic (j : Value) : option (WireCharacteristic Number) :=
  fs ← struct_fields ["iid"; "type"; "format"; "perms"; "value"; "unit"; "minValue"; "maxValue"; "minStep"; "maxLen"] j;
  match fs with
  | [iid; type; format; perms; value; unit; min_value; max_value; min_step; max_len] =>
      iid ← required value_as_u64 iid;
      type ← required de_uuid type;
      format ← required de_format format;
      perms ← required de_perms perms;
      value ← defaulted Some value;
      unit ← defaulted de_string unit;
      min_value ← defaulted value_as_f64 min_value;
      max_value ← defaulted value_as_f64 max_value;
      min_step ← defaulted value_as_f64 min_step;
      max_len ← defaulted value_as_u64 max_len;
      Some {| wc_iid := iid; wc_type := type; wc_format := format; wc_perms := perms; wc_value := value; wc_unit := unit;
              wc_min_value := min_value; wc_max_value := max_value; wc_min_step := min_step; wc_max_len := max_len |}
  | _ => None
  end.

Definition de_service (j : Value) : option (WireService Number) :=
  fs ← struct_fields ["iid"; "type"; "characteristics"] j;
  match fs with
  | [iid; type; characteristics] =>
      iid ← required value_as_u64 iid;
      type ← required de_uuid type;
      characteristics ← required (de_vec de_characteristic) characteristics;
      Some {| ws_iid := iid; ws_type := type; ws_characteristics := characteristics |}
  | _ => None
  end.

Definition de_accessory (j : Value) : option (WireAccessory Number) :=
  fs ← struct_fields ["aid"; "services"] j;
  match fs with
  | [aid; services] =>
      aid ← required value_as_u64 aid;
      services ← required (de_vec de_service) services;
      Some {| wa_aid := aid; wa_services := services |}
  | _ => None
  end.

Definition de_accessories (j : Value) : option (list (WireAccessory Number)) :=
  fs ← struct_fields ["accessories"] j;
  match fs with [accessories] => required (de_vec de_accessory) accessories | _ => None end.

(** [serde_json::from_slice]. *)
Definition from_slice {A} (de : Value -> option A) (json : bytes) : result (list Z) A :=
  j ← json_from_slice json; ok_or (de j) (shape_error json).

Definition read_response_from_slice : bytes -> result (list Z) (list (WireReadEntry Number)) := from_slice de_read_response.
Definition accessories_from_slice : bytes -> result (list Z) (list (WireAccessory Number)) := from_slice de_accessories.

(** ** [characteristics.rs] *)

Fixpoint read_query (first : bool) (ids : list (Z * Z)) : list Z :=
  match ids with
  | [] => []
  | (aid, iid) :: ids' =>
      (if first then [] else chars ",") ++ to_decimal aid ++ chars "." ++ to_decimal iid ++ read_query false ids'
  end.

Definition build_read_request (ids : list (Z * Z)) : list Z :=
  chars "/characteristics?id=" ++ read_query true ids.

Definition infer_value (v : Value) : result ModelError CharValue :=
  match v with
  | JBool b => Ok (VBool b)
  | JString s => Ok (VStr s)
  | JNumber n =>
      match as_u64 n with
      | Some u => Ok (VUint u)
      | None =>
          match as_i64 n with
          | Some i => Ok (VInt i)
          | None =>
              match as_f64 n with
              | Some f => Ok (VFloat f)
              | None => Err (ValueType "unknown" (chars "uninterpretable number " ++ json_display v))
              end
          end
      end
  | other => Err (ValueType "unknown" (chars "got JSON " ++ json_display other))
  end.

(** The body of the loop over the entries: the decoded entry, if it carries a value. *)
Definition read_entry (e : WireReadEntry Number) : result ModelError (option ((Z * Z) * CharValue)) :=
  let decode :=
    match we_value e with
    | None => Ok None
    | Some raw =>
        value ← (match we_format e with Some fmt => value_from_json fmt raw | None => infer_value raw end);
        Ok (Some ((we_aid e, we_iid e), value))
    end in
  match we_status e with
  | Some s => if negb (s =? 0)%Z then Err (CharacteristicStatus (we_aid e) (we_iid e) s) else decode
  | None => decode
  end.

Definition parse_read_response (json : bytes) : result ModelError (list ((Z * Z) * CharValue)) :=
  wire ← map_err Json (read_response_from_slice json);
  out ← mapM read_entry wire;
  Ok (omap id out).

Definition json_u64 (n : Z) : Value := JNumber (number_from_u64 n).

Definition characteristics_body (entries : list Value) : bytes :=
  to_vec (json_object [("characteristics", JArray entries)]).

Definition build_write_request (writes : list ((Z * Z) * CharValue)) : bytes :=
  characteristics_body ((fun '((aid, iid), v) =>
    json_object [("aid", json_u64 aid); ("iid", json_u64 iid); ("value", to_json v)]) <$> writes).

Definition build_subscribe_request (ids : list (Z * Z)) (enable : bool) : bytes :=
  characteristics_body ((fun '(aid, iid) =>
    json_object [("aid", json_u64 aid); ("iid", json_u64 iid); ("ev", JBool enable)]) <$> ids).

Definition build_prepare_request (ttl_ms pid : Z) : bytes :=
  to_vec (json_object [("ttl", json_u64 ttl_ms); ("pid", json_u64 pid)]).

Definition build_timed_write_request (writes : list ((Z * Z) * CharValue)) (pid : Z) : bytes :=
  characteristics_body ((fun '((aid, iid), v) =>
    json_object [("aid", json_u64 aid); ("iid", json_u64 iid); ("value", to_json v); ("pid", json_u64 pid)]) <$> writes).

Definition build_write_request_with_response (writes : list ((Z * Z) * CharValue)) : bytes :=
  characteristics_body ((fun '((aid, iid), v) =>
    json_object [("aid", json_u64 aid); ("iid", json_u64 iid); ("value", to_json v); ("r", JBool true)]) <$> writes).
End json.

(** ** [accessories.rs] *)

Section accessories.
Context `{SerdeJson} `{Base64Engine} `{Generated}.

Definition convert_characteristic (c : WireCharacteristic Number) : result ModelError Characteristic :=
  value ← (match wc_value c with
           | Some v => Some <$> value_from_json (wc_format c) v
           | None => Ok None
           end);
  Ok {| ch_iid := wc_iid c; ch_type := characteristic_from_uuid (wc_type c); ch_format := wc_format c;
        ch_perms := wc_perms c; ch_value := value; ch_unit := wc_unit c; ch_min_value := wc_min_value c;
        ch_max_value := wc_max_value c; ch_min_step := wc_min_step c; ch_max_len := wc_max_len c |}.

Definition convert_service (s : WireService Number) : result ModelError Service :=
  characteristics ← mapM convert_characteristic (ws_characteristics s);
  Ok {| svc_iid := ws_iid s; svc_type := service_from_uuid (ws_type s); svc_characteristics := characteristics |}.

Definition parse_accessories (json : bytes) : result ModelError (list Accessory) :=
  wire ← map_err Json (accessories_from_slice json);
  mapM (fun a => services ← mapM convert_service (wa_services a);
                 Ok {| acc_aid := wa_aid a; acc_services := services |}) wire.
End accessories.

(** ** [database.rs] *)

Inductive ExecRequest :=
| ReqGet (path : list Z)
| ReqPut (path : list Z) (body : bytes).

Class RequestExecutor (E : Type) := { execute : ExecRequest -> stateful E ModelError bytes }.

Section database.
Context `{SerdeJson} `{Base64Engine} `{Generated} `{RequestExecutor E}.

Record AccessoryDatabase := { db_executor : E; db_accessories : list Accessory }.

Definition on_executor {A} (m : stateful E ModelError A) : stateful AccessoryDatabase ModelError A := fun db =>
  let '(r, e) := m (db_executor db) in (r, {| db_executor := e; db_accessories := db_accessories db |}).

Definition db_fetch : stateful E ModelError AccessoryDatabase := fun executor =>
  match execute (ReqGet (chars "/accessories")) executor with
  | (Ok body, executor) =>
      (accessories ← parse_accessories body; Ok {| db_executor := executor; db_accessories := accessories |}, executor)
  | (Err e, executor) => (Err e, executor)
  | (Fault f, executor) => (Fault f, executor)
  end.

Definition db_read (ids : list (Z * Z)) : stateful AccessoryDatabase ModelError (list ((Z * Z) * CharValue)) :=
  body ← on_executor (execute (ReqGet (build_read_request ids)));
  lift (parse_read_response body).

Definition db_write (writes : list ((Z * Z) * CharValue)) : stateful AccessoryDatabase ModelError () :=
  _ ← on_executor (execute (ReqPut (chars "/characteristics") (build_write_request writes)));
  mret ().

Definition db_subscribe (ids : list (Z * Z)) (enable : bool) : stateful AccessoryDatabase ModelError () :=
  _ ← on_executor (execute (ReqPut (chars "/characteristics") (build_subscribe_request ids enable)));
  mret ().
End database.
