(* ===== verification/BlePdu.v ===== *)
(** * [hap-ble/src/{error,gatt,pdu,session}.rs]: HAP PDUs over GATT

    The request and response PDUs, their fragmentation to the size of a GATT write, the
    encrypted session and the two request functions, written against the
    [GattConnection] trait ([Gatt]).  The theorems show that fragments fit their size
    and reassemble to the PDU, that a request returns within the fragment limit, and
    that codecs read back what is written. *)

From S2P Require Import Prelude Text Tlv8 Crypto Srp PairSetup PairVerify Model.

(** ** [error.rs] *)

Inductive BleError :=
| BleTlv8 (e : Tlv8Error)
| BleCrypto (e : CryptoError)
| BleModel (e : ModelError)
| AccessoryNotFound
| CharacteristicNotFound (aid iid : Z)
| BleMalformedPdu (why : string)
| PairingRejected (status : Z)
| RequestRejected (status : Z)
| Disconnected
| Backend (msg : list Z)
| NoAdvertSource.

(** ** [gatt.rs] *)

Record GattCharacteristic := { gc_uuid : list Z; gc_iid : Z }.
Record GattService := { gs_uuid : list Z; gs_iid : Z; gs_characteristics : list GattCharacteristic }.

Definition SERVICE_SIGNATURE_CHAR : list Z := chars "000000a5-0000-1000-8000-0026bb765291".
Definition PROTOCOL_INFO_SERVICE : list Z := chars "000000a2-0000-1000-8000-0026bb765291".
Definition DEFAULT_FRAGMENT_SIZE : nat := 180.

Definition u16_le (v : bytes) : option Z :=
  match v with
  | lo :: hi :: _ => Some (le_Z [lo; hi])
  | _ => None
  end.

(** The trait: [W] is the link and whatever is behind it. *)
Class Gatt (W : Type) := {
  gatt_write : list Z -> bytes -> stateful W BleError ();
  gatt_read : list Z -> stateful W BleError bytes;
  gatt_instance_id : list Z -> stateful W BleError Z;
  gatt_enumerate : stateful W BleError (list GattService);
  gatt_max_write : W -> nat * W;
  gatt_generation : W -> Z * W
}.

(** ** [session.rs] *)

Definition ble_nonce (counter : Z) : bytes := copy_at (replicate 12 x00) 4 (le_bytes 8 counter).

Record BleSession := { bs_keys : SessionKeys; send_counter : Z; recv_counter : Z }.

Definition ble_session_new (keys : SessionKeys) : BleSession :=
  {| bs_keys := keys; send_counter := 0; recv_counter := 0 |}.

Section session.
Context `{C : Crypto} `{Build}.

Definition ble_seal (pdu : bytes) : stateful BleSession BleError bytes := fun s =>
  let r :=
    out ← map_err BleCrypto
            (chacha20poly1305_seal (sk_write_key (bs_keys s)) (ble_nonce (send_counter s)) [] pdu);
    ctr ← add_u 64 (send_counter s) 1;
    Ok (out, ctr) in
  match r with
  | Ok (out, ctr) =>
      (Ok out, {| bs_keys := bs_keys s; send_counter := ctr; recv_counter := recv_counter s |})
  | Err e => (Err e, s)
  | Fault f => (Fault f, s)
  end.

Definition ble_open (data : bytes) : stateful BleSession BleError bytes := fun s =>
  let r :=
    out ← map_err BleCrypto
            (chacha20poly1305_open (sk_read_key (bs_keys s)) (ble_nonce (recv_counter s)) [] data);
    ctr ← add_u 64 (recv_counter s) 1;
    Ok (out, ctr) in
  match r with
  | Ok (out, ctr) =>
      (Ok out, {| bs_keys := bs_keys s; send_counter := send_counter s; recv_counter := ctr |})
  | Err e => (Err e, s)
  | Fault f => (Fault f, s)
  end.
End session.

(** ** [pdu.rs]: encoding *)

Inductive BleOpCode :=
| CharacteristicSignatureRead | CharacteristicWrite | CharacteristicRead | CharacteristicConfig
| ProtocolConfig.

Definition ble_op_u8 (op : BleOpCode) : Z :=
  match op with
  | CharacteristicSignatureRead => 0x01
  | CharacteristicWrite => 0x02
  | CharacteristicRead => 0x03
  | CharacteristicConfig => 0x07
  | ProtocolConfig => 0x08
  end.

Definition PARAM_VALUE : byte := x01.
Definition PARAM_CHAR_TYPE : byte := x04.
Definition PARAM_RETURN_RESPONSE : byte := x09.
Definition PARAM_PROPERTIES : byte := x0a.
Definition PARAM_PRESENTATION_FORMAT : byte := x0c.

Definition ble_encode_request (op : BleOpCode) (tid iid : Z) (body : bytes) : bytes :=
  let out := [x00] in
  let out := out ++ [Zbyte (ble_op_u8 op)] in
  let out := out ++ [Zbyte tid] in
  let out := out ++ le_bytes 2 iid in
  if bool_decide (body = []) then out
  else
    let len := sat_u16 (length body) in
    let out := out ++ le_bytes 2 len in
    out ++ body.

Definition encode_write_body (value : bytes) : bytes :=
  let w := push_u8 [] PARAM_RETURN_RESPONSE 1 in
  push w PARAM_VALUE value.

Definition value_param (body : bytes) : result BleError bytes :=
  map ← map_err BleTlv8 (map_parse body);
  ok_or (get map PARAM_VALUE) (BleMalformedPdu "missing value param (0x01)").

(** ** [pdu.rs]: decoding *)

Record BleResponse := { br_tid : Z; br_status : Z; br_body : bytes }.

Definition decode_response (pdu : bytes) : result BleError BleResponse :=
  if length pdu <? 3 then Err (BleMalformedPdu "response shorter than 3 bytes")
  else
    tid ← index pdu 1;
    status ← index pdu 2;
    body ← (if 3 <? length pdu then
              if length pdu <? 5 then Err (BleMalformedPdu "response body length truncated")
              else
                l0 ← index pdu 3; l1 ← index pdu 4;
                let len := Z.to_nat (le_Z [l0; l1]) in
                let start := 5 in
                if length pdu <? start + len
                then Err (BleMalformedPdu "response body shorter than declared")
                else slice pdu start (start + len)
            else Ok []);
    Ok {| br_tid := byteZ tid; br_status := byteZ status; br_body := body |}.

(** ** [pdu.rs]: fragments *)

(** One turn of the [while] loop of [fragment]. *)
Definition fragment_body (tid : byte) (cont_payload : nat) (st : list bytes * bytes)
    : result BleError (flow (list bytes * bytes) (list bytes)) :=
  let '(frags, rest) := st in
  match rest with
  | [] => Ok (Break frags)
  | _ =>
      let take := Nat.min (length rest) cont_payload in
      chunk ← slice rest 0 take;
      let f := [x80; tid] ++ chunk in
      rest' ← slice rest take (length rest);
      Ok (Continue (frags ++ [f], rest'))
  end.

Definition fragment (pdu : bytes) (frag_size : nat) : result BleError (list bytes) :=
  let frag_size := Nat.max frag_size 3 in
  if length pdu <=? frag_size then Ok [pdu]
  else
    tid ← index pdu 2;
    first ← slice pdu 0 frag_size;
    rest ← slice pdu frag_size (length pdu);
    let cont_payload := Nat.max (frag_size - 2) 1 in
    loop (S (length pdu)) (fragment_body tid cont_payload) ([first], rest).

(** The [for] loop of [reassemble]. *)
Fixpoint reassemble_rest (out : bytes) (frags : list bytes) : result BleError bytes :=
  match frags with
  | [] => Ok out
  | f :: frags' =>
      if length f <? 2 then Err (BleMalformedPdu "continuation fragment too short")
      else
        chunk ← slice f 2 (length f);
        reassemble_rest (out ++ chunk) frags'
  end.

Definition reassemble (frags : list bytes) : result BleError bytes :=
  match head frags with
  | Some first => rest ← slice frags 1 (length frags); reassemble_rest first rest
  | None => Err (BleMalformedPdu "no fragments to reassemble")
  end.

Definition declared_total (first : bytes) : result BleError nat :=
  if 5 <=? length first then
    l0 ← index first 3; l1 ← index first 4;
    Ok (5 + Z.to_nat (le_Z [l0; l1]))
  else Ok (length first).

Definition MAX_RESPONSE_FRAGMENTS : nat := 64.

(** ** [pdu.rs]: requests *)

(** The [while] loop that reads a response; [next] reads (and opens) one fragment. *)
Fixpoint read_fragments {S} (next : stateful S BleError bytes) (fuel : nat) (frags : list bytes)
    : stateful S BleError (list bytes) :=
  match fuel with
  | O => lift (Fault OutOfFuel)
  | S fuel' =>
      out ← lift (reassemble frags);
      first ← lift (index frags 0);
      total ← lift (declared_total first);
      if length out <? total then
        if MAX_RESPONSE_FRAGMENTS <=? length frags
        then lift (Err (BleMalformedPdu "too many response fragments"))
        else f ← next; read_fragments next fuel' (frags ++ [f])
      else mret frags
  end.

(** The write loop: each fragment is (sealed and) written in turn. *)
Fixpoint write_fragments {S} (put : bytes -> stateful S BleError ()) (frags : list bytes)
    : stateful S BleError () :=
  match frags with
  | [] => mret ()
  | frag :: frags' => _ ← put frag; write_fragments put frags'
  end.

Section requests.
Context `{C : Crypto} `{Gatt W} `{Build}.

Definition ble_request (char_uuid : list Z) (op : BleOpCode) (tid iid : Z) (body : bytes)
    (frag_size : nat) : stateful W BleError BleResponse :=
  let pdu := ble_encode_request op tid iid body in
  frags ← lift (fragment pdu frag_size);
  _ ← write_fragments (gatt_write char_uuid) frags;
  f ← gatt_read char_uuid;
  frags ← read_fragments (gatt_read char_uuid) (S MAX_RESPONSE_FRAGMENTS) [f];
  out ← lift (reassemble frags);
  lift (decode_response out).

(** [session.seal] and [session.open] beside the link. *)
Definition on_ble_session {A} (m : stateful BleSession BleError A) : stateful (BleSession * W) BleError A :=
  fun sw => let '(r, s) := m sw.1 in (r, (s, sw.2)).
Definition on_gatt {A} (m : stateful W BleError A) : stateful (BleSession * W) BleError A :=
  fun sw => let '(r, w) := m sw.2 in (r, (sw.1, w)).

Definition write_sealed (char_uuid : list Z) (frag : bytes) : stateful (BleSession * W) BleError () :=
  sealed ← on_ble_session (ble_seal frag);
  on_gatt (gatt_write char_uuid sealed).

Definition read_opened (char_uuid : list Z) : stateful (BleSession * W) BleError bytes :=
  data ← on_gatt (gatt_read char_uuid);
  on_ble_session (ble_open data).

Definition request_secure (char_uuid : list Z) (op : BleOpCode) (tid iid : Z) (body : bytes)
    (frag_size : nat) : stateful (BleSession * W) BleError BleResponse :=
  let pdu := ble_encode_request op tid iid body in
  frags ← lift (fragment pdu (Nat.max (frag_size - 16) 1));
  _ ← write_fragments (write_sealed char_uuid) frags;
  f ← read_opened char_uuid;
  frags ← read_fragments (read_opened char_uuid) (S MAX_RESPONSE_FRAGMENTS) [f];
  out ← lift (reassemble frags);
  lift (decode_response out).
End requests.

(** ** [pdu.rs]: signatures *)

Definition PROP_BROADCAST_NOTIFY : Z := 0x0200.
Definition PROP_CONNECTED_EVENTS : Z := 0x0080.
Definition PROP_DISCONNECTED_EVENTS : Z := 0x0100.

Definition supports_broadcast_notify (properties : Z) : bool :=
  negb (Z.land properties PROP_BROADCAST_NOTIFY =? 0)%Z.

Definition char_format_from_gatt (b : byte) : option CharFormat :=
  match b with
  | x01 => Some FBool
  | x04 => Some FUint8
  | x06 => Some FUint16
  | x08 => Some FUint32
  | x0a => Some FUint64
  | x10 => Some FInt
  | x14 => Some FFloat
  | x19 => Some FString
  | x1b => Some FData
  | _ => None
  end.

Definition perms_from_properties (bits : Z) : Perms :=
  let bit m := negb (Z.land bits m =? 0)%Z in
  {| p_read := bit 0x0001%Z || bit 0x0010%Z;
     p_write := bit 0x0002%Z || bit 0x0020%Z;
     p_events := bit 0x0080%Z;
     p_hidden := bit 0x0040%Z;
     p_additional_authorization := p_additional_authorization perms_default;
     p_timed_write := p_timed_write perms_default;
     p_write_response := p_write_response perms_default |}.

Definition le_bytes_to_uuid (le : bytes) : result BleError (list Z) :=
  if negb (length le =? 16)
  then Err (BleMalformedPdu "characteristic type uuid not 16 bytes")
  else
    let be := reverse le in
    let h := be ≫= hex2 false in
    a ← slice h 0 8; b ← slice h 8 12; c ← slice h 12 16; d ← slice h 16 20; e ← slice h 20 32;
    Ok (a ++ [45%Z] ++ b ++ [45%Z] ++ c ++ [45%Z] ++ d ++ [45%Z] ++ e).

Section signature.
Context `{Generated}.

Record Signature := {
  sig_char_type : CharacteristicType;
  sig_format : CharFormat;
  sig_perms : Perms;
  sig_properties : Z
}.

Definition parse_signature (body : bytes) : result BleError Signature :=
  map ← map_err BleTlv8 (map_parse body);
  type_le ← ok_or (get map PARAM_CHAR_TYPE) (BleMalformedPdu "signature missing char type");
  full ← le_bytes_to_uuid type_le;
  uuid ← map_err BleModel (uuid_parse full);
  let char_type := characteristic_from_uuid uuid in
  prop_bytes ← ok_or (get map PARAM_PROPERTIES) (BleMalformedPdu "signature missing properties");
  if length prop_bytes <? 2 then Err (BleMalformedPdu "properties descriptor too short")
  else
    b0 ← index prop_bytes 0; b1 ← index prop_bytes 1;
    let properties := le_Z [b0; b1] in
    let perms := perms_from_properties properties in
    let from_gatt := pf ← get map PARAM_PRESENTATION_FORMAT; b ← head pf; char_format_from_gatt b in
    format ← ok_or (match from_gatt with Some f => Some f | None => default_format char_type end)
                   (BleMalformedPdu "no usable characteristic format");
    Ok {| sig_char_type := char_type; sig_format := format; sig_perms := perms;
          sig_properties := properties |}.
End signature.

(** * Lemmas *)

(** ** Fragments *)

(** The continuations of a PDU under the transaction id [tid]. *)
Definition cont_frag (tid : byte) (chunk : bytes) : bytes := [x80; tid] ++ chunk.

Lemma fragment_loop tid n fuel frags rest :
  0 < n -> length rest < fuel ->
  loop fuel (fragment_body tid n) (frags, rest) = Ok (frags ++ (cont_frag tid <$> chunks n rest)).
Proof.
  intros Hn. revert frags rest. induction fuel as [|fuel IH]; intros frags rest Hf; [lia|].
  rewrite loop_unfold. destruct rest as [|b rest]; [by rewrite app_nil_r|].
  remember (b :: rest) as r eqn:Hr. unfold fragment_body at 1. rewrite Hr at 1. cbv iota.
  assert (0 < length r) by (subst; simpl; lia).
  rewrite !slice_ok by lia. cbn [mbind result_bind].
  rewrite IH by (rewrite length_take, length_drop; lia).
  rewrite (chunks_cons n Hn r) by (by subst). rewrite fmap_cons, <- app_assoc.
  rewrite drop_0, Nat.sub_0_r, (take_ge (drop _ _)) by (rewrite length_drop; lia).
  destruct (Nat.min_spec (length r) n) as [[? ->]|[? ->]]; [|done].
  by rewrite !drop_ge, !take_ge by lia.
Qed.

(** What [fragment] computes. *)
Definition fragments_of (pdu : bytes) (frag_size : nat) : list bytes :=
  let n := Nat.max frag_size 3 in
  if length pdu <=? n then [pdu]
  else take n pdu :: (cont_frag (default x00 (pdu !! 2)) <$> chunks (n - 2) (drop n pdu)).

Lemma fragment_spec pdu frag_size : fragment pdu frag_size = Ok (fragments_of pdu frag_size).
Proof.
  unfold fragment, fragments_of. destruct (Nat.leb_spec (length pdu) (Nat.max frag_size 3)); [done|].
  destruct (lookup_lt_is_Some_2 pdu 2) as [tid Ht]; [lia|]. unfold index. rewrite Ht. cbn [mbind result_bind default].
  rewrite !slice_ok by lia. cbn [mbind result_bind].
  rewrite fragment_loop by (rewrite ?length_take, ?length_drop; lia).
  rewrite drop_0, Nat.sub_0_r. replace (Nat.max (Nat.max frag_size 3 - 2) 1) with (Nat.max frag_size 3 - 2) by lia.
  rewrite (take_ge (drop _ _)) by (rewrite length_drop; lia). done.
Qed.

(** Fragments whose continuations carry a two-byte header. *)
Lemma reassemble_rest_spec out frags :
  Forall (fun f => 2 <= length f) frags -> reassemble_rest out frags = Ok (out ++ mjoin (drop 2 <$> frags)).
Proof.
  intros Hf. revert out. induction Hf as [|f frags H2 Hf IH]; intros out; csimpl; [by rewrite app_nil_r|].
  rewrite (proj2 (Nat.ltb_ge _ _)) by done. rewrite slice_ok by lia. cbn [mbind result_bind].
  rewrite IH, <- app_assoc. do 3 f_equal. rewrite take_ge; [done|rewrite length_drop; lia].
Qed.

Lemma reassemble_spec first frags :
  Forall (fun f => 2 <= length f) frags ->
  reassemble (first :: frags) = Ok (first ++ mjoin (drop 2 <$> frags)).
Proof.
  intros Hf. unfold reassemble. cbn [head]. rewrite slice_ok by (simpl; lia). cbn [mbind result_bind].
  rewrite take_ge by (rewrite length_drop; simpl; lia). by apply reassemble_rest_spec.
Qed.

Lemma reassemble_fragments pdu frag_size : reassemble (fragments_of pdu frag_size) = Ok pdu.
Proof.
  unfold fragments_of. case_match; [done|]. rewrite reassemble_spec.
  - rewrite <- list_fmap_compose. rewrite (list_fmap_ext _ id) by done. rewrite list_fmap_id.
    rewrite chunks_concat by lia. by rewrite take_drop.
  - apply Forall_fmap, Forall_forall. intros c _. unfold cont_frag. simpl. lia.
Qed.

Lemma fragments_length pdu frag_size :
  Forall (fun f => length f <= Nat.max frag_size 3) (fragments_of pdu frag_size).
Proof.
  unfold fragments_of. destruct (Nat.leb_spec (length pdu) (Nat.max frag_size 3)).
  - by repeat constructor.
  - constructor; [rewrite length_take; lia|]. apply Forall_fmap, Forall_forall. intros c Hc.
    apply chunks_length_le in Hc; [|lia]. unfold cont_frag. simpl. lia.
Qed.

Lemma returns_reassemble frags : returns (reassemble frags).
Proof.
  unfold reassemble. destruct frags as [|f frags]; [done|]. cbn [head].
  apply returns_bind; [apply returns_slice; simpl; lia|]. intros rest _. generalize f as out.
  induction rest as [|x rest IH]; intros out; [done|]. cbn [reassemble_rest].
  destruct (Nat.ltb_spec (length x) 2); [done|]. apply returns_bind; [apply returns_slice; lia|]. auto.
Qed.

Lemma returns_declared_total f : returns (declared_total f).
Proof.
  unfold declared_total. destruct (Nat.leb_spec 5 (length f)); [|done].
  repeat (apply returns_bind; [apply returns_index; lia|intros ? _]). done.
Qed.

Lemma returns_decode_response pdu : returns (decode_response pdu).
Proof.
  unfold decode_response. destruct (Nat.ltb_spec (length pdu) 3); [done|].
  do 2 (apply returns_bind; [apply returns_index; lia|intros ? _]).
  apply returns_bind; [|done]. destruct (Nat.ltb_spec 3 (length pdu)); [|done].
  destruct (Nat.ltb_spec (length pdu) 5); [done|].
  do 2 (apply returns_bind; [apply returns_index; lia|intros ? _]).
  match goal with |- context [length pdu <? ?n] => destruct (Nat.ltb_spec (length pdu) n) end; [done|].
  apply returns_slice. lia.
Qed.

(** ** The response loop *)

(** A response of [first] and the continuations [conts], complete at its last one. *)
Definition well_framed (first : bytes) (conts : list bytes) : Prop :=
  declared_total first = Ok (length (first ++ mjoin (drop 2 <$> conts))) /\
  Forall (fun f => 3 <= length f) conts /\ length conts < MAX_RESPONSE_FRAGMENTS.

Lemma reassemble_truncated first got :
  Forall (fun f => 2 <= length f) got ->
  reassemble (first :: got ++ [[]]) = Err (BleMalformedPdu "continuation fragment too short").
Proof.
  intros Hg. unfold reassemble. cbn [head]. rewrite slice_ok by (simpl; lia). cbn [mbind result_bind].
  rewrite take_ge by (rewrite length_drop; simpl; lia). cbn [drop]. rewrite drop_0. generalize first as out.
  induction Hg as [|f got Hf Hg IH]; intros out; [done|]. cbn [app reassemble_rest].
  rewrite (proj2 (Nat.ltb_ge _ _)) by done. rewrite slice_ok by lia. cbn [mbind result_bind]. apply IH.
Qed.

(** Reading a well-framed response: [I fs] says that [fs] are still to come; a link that
    was lost ([L]) delivers an empty fragment or an error. *)
Lemma read_fragments_triple {S} (next : stateful S BleError bytes) (I : list bytes -> S -> Prop) (L : S -> Prop)
    fuel first got rest :
  (forall f fs, triple (I (f :: fs)) next (fun f' s => f' = f /\ I fs s \/ f' = [] /\ L s) (fun _ => L)) ->
  well_framed first (got ++ rest) -> length rest < fuel ->
  triple (I rest) (read_fragments next fuel (first :: got))
    (fun fs s => fs = first :: got ++ rest /\ I [] s) (fun _ => L).
Proof.
  intros Hnext Hwf. revert got Hwf fuel. induction rest as [|f rest IH]; intros got Hwf fuel Hfuel;
    (destruct fuel as [|fuel]; [simpl in Hfuel; lia|]); cbn [read_fragments];
    pose proof Hwf as (Ht & Hlen & Hmax).
  all: assert (Forall (fun f => 2 <= length f) got) as Hgot
    by (apply Forall_app in Hlen as [Hlen _]; eapply Forall_impl; [exact Hlen|]; intros; simpl in *; lia).
  all: eapply triple_lift_bind; [by apply reassemble_spec|].
  all: eapply triple_lift_bind; [done|]; eapply triple_lift_bind; [exact Ht|].
  - rewrite app_nil_r, Nat.ltb_irrefl. by apply triple_ret.
  - apply Forall_app in Hlen as [_ [Hf _]%Forall_cons]. rewrite length_app in Hmax. simpl in Hmax.
    rewrite (proj2 (Nat.ltb_lt _ _)).
    2:{ rewrite fmap_app, fmap_cons, join_app, !length_app. simpl. rewrite length_app, length_drop. lia. }
    rewrite (proj2 (Nat.leb_gt _ _)) by (simpl; lia).
    eapply triple_bind; [apply Hnext|]. intros f' s [[-> Hs]|[-> Hs]].
    + replace (got ++ f :: rest) with ((got ++ [f]) ++ rest) in * by (by rewrite <- app_assoc).
      eapply (IH (got ++ [f])); [done|simpl in Hfuel; lia|done].
    + simpl in Hfuel. destruct fuel as [|fuel]; [lia|]. cbn [app read_fragments]. unfold lift. run.
      by rewrite reassemble_truncated.
Qed.

(** Writing fragments: [Ph i] holds when [i] of them have been written. *)
Lemma write_fragments_triple {S} (put : bytes -> stateful S BleError ()) (Ph : nat -> S -> Prop) R frags :
  (forall i f, frags !! i = Some f -> triple (Ph i) (put f) (fun _ => Ph (Datatypes.S i)) R) ->
  triple (Ph 0) (write_fragments put frags) (fun _ => Ph (length frags)) R.
Proof.
  revert Ph. induction frags as [|f frags IH]; intros Ph Hput; cbn [write_fragments].
  - by apply triple_ret.
  - apply (triple_bind _ _ _ (fun _ => Ph 1)); [by apply (Hput 0)|]. intros _. apply (IH (fun i => Ph (Datatypes.S i))).
    intros i f' Hi. by apply (Hput (Datatypes.S i)).
Qed.

(** A computation that cannot panic or run out of fuel. *)
Definition safe {S E A} (m : stateful S E A) : Prop :=
  triple (fun _ => True) m (fun _ _ => True) (fun _ _ => True).

Lemma safe_bind {S E A B} (m : stateful S E A) (k : A -> stateful S E B) :
  safe m -> (forall a, safe (k a)) -> safe (m ≫= k).
Proof. intros Hm Hk. eapply triple_bind; [exact Hm|]. exact Hk. Qed.

Lemma safe_lift {S E A} (m : result E A) : returns m -> safe (S:=S) (lift m).
Proof. intros Hm s _. unfold lift. by destruct m. Qed.

(** Whatever the link delivers, the loop ends: at most 64 fragments are read. *)
Lemma safe_read_fragments {S} (next : stateful S BleError bytes) fuel frags :
  safe next -> frags <> [] -> length frags <= MAX_RESPONSE_FRAGMENTS < fuel + length frags ->
  safe (read_fragments next fuel frags).
Proof.
  intros Hnext. revert frags. induction fuel as [|fuel IH]; intros frags Hne Hf; [lia|].
  cbn [read_fragments]. apply safe_bind; [apply safe_lift, returns_reassemble|]. intros out.
  apply safe_bind; [apply safe_lift, returns_index; destruct frags; [done|simpl; lia]|]. intros first.
  apply safe_bind; [apply safe_lift, returns_declared_total|]. intros total. case_match; [|by intros ? ?].
  destruct (Nat.leb_spec MAX_RESPONSE_FRAGMENTS (length frags)); [by intros ? ?|].
  apply safe_bind; [done|]. intros f. apply IH; [by destruct frags|]. rewrite length_app. simpl. lia.
Qed.

Lemma safe_write_fragments {S} (put : bytes -> stateful S BleError ()) frags :
  (forall f, safe (put f)) -> safe (write_fragments put frags).
Proof.
  intros Hp. induction frags as [|f frags IH]; cbn [write_fragments]; [by intros ? ?|].
  by apply safe_bind.
Qed.

(** ** The response codec *)

Lemma decode_response_body control tid status l0 l1 (body : bytes) :
  Z.to_nat (le_Z [l0; l1]) = length body ->
  decode_response ([control; tid; status; l0; l1] ++ body) =
    Ok {| br_tid := byteZ tid; br_status := byteZ status; br_body := body |}.
Proof.
  intros Hl. pose proof (slice_app_mid (E':=BleError) [control; tid; status; l0; l1] body [] 5 (5 + length body)
    eq_refl eq_refl) as Hs.
  rewrite app_nil_r in Hs. set (pdu := [control; tid; status; l0; l1] ++ body) in *.
  assert (length pdu = 5 + length body) as Hn by done.
  unfold decode_response. rewrite Hn. rewrite !(proj2 (Nat.ltb_ge (5 + _) _)) by lia.
  rewrite (proj2 (Nat.ltb_lt _ _)) by lia. cbn [pdu app index lookup list_lookup mbind result_bind]. rewrite Hl.
  rewrite Nat.ltb_irrefl. cbn [app] in Hs. unfold pdu in Hs. cbn [app] in Hs. by rewrite Hs.
Qed.

Lemma value_param_push v : value_param (push [] PARAM_VALUE v) = Ok v.
Proof. unfold value_param. by rewrite parse_items1. Qed.

Lemma value_param_write_body v : value_param (encode_write_body v) = Ok v.
Proof. unfold value_param, encode_write_body, push_u8. by rewrite parse_items2. Qed.

(** * Theorems *)

(** C34: Fragmentation.  Every PDU is split, without panic, into fragments that fit the
    size of a GATT write (at least 3), whose continuations repeat the transaction id,
    and that reassemble to the PDU. *)
Theorem ble_fragments_fit pdu frag_size :
  exists first conts,
    fragment pdu frag_size = Ok (first :: conts) /\
    reassemble (first :: conts) = Ok pdu /\
    Forall (fun f => length f <= Nat.max frag_size 3) (first :: conts) /\
    first = take (Nat.max frag_size 3) pdu /\
    Forall (fun f => 3 <= length f /\ f !! 0 = Some x80 /\ f !! 1 = pdu !! 2) conts.
Proof.
  pose proof (fragments_length pdu frag_size) as Hl. pose proof (reassemble_fragments pdu frag_size) as Hr.
  rewrite fragment_spec. unfold fragments_of in *.
  destruct (Nat.leb_spec (length pdu) (Nat.max frag_size 3)).
  - exists pdu, []. by rewrite take_ge by lia.
  - eexists _, _. do 3 (split; [done|]). split; [done|]. apply Forall_fmap, Forall_forall. intros c Hc.
    apply chunks_length_le in Hc; [|lia]. unfold cont_frag. simpl.
    destruct (lookup_lt_is_Some_2 pdu 2) as [tid ->]; [lia|]. split; [lia|done].
Qed.
