(* ===== verification/BleAccessory.v ===== *)
(** * [hap-ble/src/{pairing,accessory,db,thread,controller}.rs]: the controller over BLE

    The pairing drivers, the re-verification of a session the link lost, the encrypted
    operations with their retries, the value codec, the attribute database sweep and
    the pairing and connection flows, written against the [Gatt] interface.  The
    theorems of this file are about values: what is encoded and decoded has the type its
    format declares and reads back. *)

From Stdlib Require Import SpecFloat.
From S2P Require Import Prelude Text Tlv8 Crypto Srp PairSetup PairVerify Model BlePdu.

(** ** Values ([db.rs]) *)

(** [f64 as f32] and [f64::from(f32)]; an [f32] is given by its 32 bits. *)
Definition f32_bits (sign exponent mantissa : Z) : Z :=
  ((sign mod 2) * 2 ^ 31 + (exponent mod 2 ^ 8) * 2 ^ 23 + mantissa mod 2 ^ 23)%Z.

Definition f32_of_f64 (f : f64) : Z :=
  let sign (s : bool) := if s then 1%Z else 0%Z in
  let narrowed :=
    match f with
    | S754_finite s m e => binary_normalize 24 128 (if s then Zneg m else Zpos m) e s
    | other => other
    end in
  match narrowed with
  | S754_zero s => f32_bits (sign s) 0 0
  | S754_infinity s => f32_bits (sign s) 255 0
  | S754_nan => f32_bits 0 255 (2 ^ 22)
  | S754_finite s m e =>
      if (Z.pos m <? 2 ^ 23)%Z then f32_bits (sign s) 0 (Z.pos m)
      else f32_bits (sign s) (e + 150) (Z.pos m - 2 ^ 23)
  end.

Definition f64_of_f32 (bits : Z) : f64 :=
  let s := Z.testbit bits 31 in
  let exponent := (bits / 2 ^ 23 mod 2 ^ 8)%Z in
  let mantissa := (bits mod 2 ^ 23)%Z in
  let finite m e := binary_normalize 53 1024 (if s then - m else m)%Z e s in
  if (exponent =? 255)%Z then if (mantissa =? 0)%Z then S754_infinity s else S754_nan
  else if (exponent =? 0)%Z then finite mantissa (-149)%Z
  else finite (mantissa + 2 ^ 23)%Z (exponent - 150)%Z.

Definition encode_value (format : CharFormat) (value : CharValue) : result BleError bytes :=
  let mismatch := BleMalformedPdu "value does not match characteristic format" in
  let try_from (max n : Z) := if (n <=? max)%Z then Ok n else Err mismatch in
  match format, value with
  | FBool, VBool b => Ok [if b then x01 else x00]
  | FUint8, VUint n => n ← try_from (2 ^ 8 - 1)%Z n; Ok (le_bytes 1 n)
  | FUint16, VUint n => n ← try_from (2 ^ 16 - 1)%Z n; Ok (le_bytes 2 n)
  | FUint32, VUint n => n ← try_from (2 ^ 32 - 1)%Z n; Ok (le_bytes 4 n)
  | FUint64, VUint n => Ok (le_bytes 8 n)
  | FInt, VInt n => if ((- 2 ^ 31 <=? n) && (n <? 2 ^ 31))%Z then Ok (le_bytes 4 n) else Err mismatch
  | FFloat, VFloat f => Ok (le_bytes 4 (f32_of_f64 f))
  | FString, VStr s => Ok (utf8_encode s)
  | (FTlv8 | FData), VBytes b => Ok b
  | _, _ => Err mismatch
  end.

(** [i32::from_le_bytes]. *)
Definition i32_of_bytes (bs : bytes) : Z :=
  let u := le_Z bs in if (u <? 2 ^ 31)%Z then u else (u - 2 ^ 32)%Z.

Definition decode_value (format : CharFormat) (raw : bytes) : result BleError CharValue :=
  let need n : result BleError () :=
    if length raw <? n then Err (BleMalformedPdu "value shorter than its format width") else Ok () in
  match format with
  | FBool => _ ← need 1; b ← index raw 0; Ok (VBool (negb (byteZ b =? 0)%Z))
  | FUint8 => _ ← need 1; b ← index raw 0; Ok (VUint (byteZ b))
  | FUint16 => _ ← need 2; b ← slice raw 0 2; Ok (VUint (le_Z b))
  | FUint32 => _ ← need 4; b ← slice raw 0 4; Ok (VUint (le_Z b))
  | FUint64 => _ ← need 8; b ← slice raw 0 8; Ok (VUint (le_Z b))
  | FInt => _ ← need 4; b ← slice raw 0 4; Ok (VInt (i32_of_bytes b))
  | FFloat => _ ← need 4; b ← slice raw 0 4; Ok (VFloat (f64_of_f32 (le_Z b)))
  | FString => Ok (VStr (from_utf8_lossy raw))
  | FTlv8 | FData => Ok (VBytes raw)
  end.

(** ** Pairing drivers ([pairing.rs]) *)

Section pairing.
Context `{C : Crypto} `{B : BigUintOps} `{Gatt W}.
Local Abbreviation M := (stateful W BleError).

Definition ble_exchange (char_uuid : list Z) (tid iid : Z) (tlv : bytes) (frag_size : nat) : M bytes :=
  let body := encode_write_body tlv in
  resp ← ble_request char_uuid CharacteristicWrite tid iid body frag_size;
  if negb (br_status resp =? 0)%Z then lift (Err (PairingRejected (br_status resp)))
  else lift (value_param (br_body resp)).

Fixpoint ble_setup_loop (char_uuid : list Z) (iid : Z) (frag_size : nat) (fuel : nat) (tid : Z)
    (client : PairSetupClient) (out : bytes) : M AccessoryPairing :=
  match fuel with
  | O => lift (Fault OutOfFuel)
  | S fuel' =>
      let tid := wrapping_add 8 tid 1 in
      reply ← ble_exchange char_uuid tid iid out frag_size;
      let '(step, client) := handle client reply in
      step ← lift (map_err BleCrypto step);
      match step with
      | Send next => ble_setup_loop char_uuid iid frag_size fuel' tid client next
      | Done pairing => mret pairing
      end
  end.

(** [a] is the SRP private value [PairSetupClient::new] draws. *)
Definition ble_pair_setup (a : bytes) (char_uuid : list Z) (iid : Z) (setup_code : bytes)
    (controller : ControllerKeypair) (frag_size : nat) : M AccessoryPairing :=
  client ← lift (map_err BleCrypto (new_with_private setup_code controller a));
  let '(out, client) := start client in
  ble_setup_loop char_uuid iid frag_size 4 0 client out.

Fixpoint ble_verify_loop (char_uuid : list Z) (iid : Z) (frag_size : nat) (fuel : nat) (tid : Z)
    (client : PairVerifyClient) (out : bytes) : M (SessionKeys * PairVerifyClient) :=
  match fuel with
  | O => lift (Fault OutOfFuel)
  | S fuel' =>
      let tid := wrapping_add 8 tid 1 in
      reply ← ble_exchange char_uuid tid iid out frag_size;
      let '(step, client) := pv_handle client reply in
      step ← lift (map_err BleCrypto step);
      match step with
      | PvSend next => ble_verify_loop char_uuid iid frag_size fuel' tid client next
      | PvDone keys => mret (keys, client)
      end
  end.

(** [secret] is the X25519 secret [PairVerifyClient::new] draws. *)
Definition ble_pair_verify (secret : bytes) (char_uuid : list Z) (iid : Z)
    (controller : ControllerKeypair) (accessory : AccessoryPairing) (frag_size : nat)
    : M (BleSession * BroadcastKey) :=
  let client := new_with_ephemeral controller accessory secret in
  let '(out, client) := pv_start client in
  kc ← ble_verify_loop char_uuid iid frag_size 3 0 client out;
  let '(keys, client) := kc in
  bkey ← lift (map_err BleCrypto (broadcast_key client (ltpk controller)));
  mret (ble_session_new keys, bkey).
End pairing.

(** ** The shared secure state ([accessory.rs]) *)

Record Secure := { sec_session : BleSession; sec_tid : Z; sec_generation : Z }.

Record Reviver := {
  rv_keypair : ControllerKeypair;
  rv_pairing : AccessoryPairing;
  rv_verify_char : list Z;
  rv_verify_iid : Z;
  rv_frag_size : nat
}.

Definition MAX_REVIVE_RETRIES : nat := 3.

Section operations.
Context `{C : Crypto} `{Gatt W} `{Build}.
Local Abbreviation M := (stateful (Secure * W) BleError).

Definition on_link {A} (m : stateful W BleError A) : M A :=
  fun sw => let '(r, w) := m sw.2 in (r, (sw.1, w)).

(** [gatt.generation().await]. *)
Definition link_generation : M Z := fun sw => let '(g, w) := gatt_generation sw.2 in (Ok g, (sw.1, w)).

(** [pdu::request_secure(gatt, &mut s.session, ..)]. *)
Definition secure_request (uuid : list Z) (op : BleOpCode) (tid iid : Z) (body : bytes) (frag_size : nat)
    : M BleResponse := fun sw =>
  let '(r, (session, w)) := request_secure uuid op tid iid body frag_size (sec_session sw.1, sw.2) in
  (r, ({| sec_session := session; sec_tid := sec_tid sw.1; sec_generation := sec_generation sw.1 |}, w)).

(** [s.tid = s.tid.wrapping_add(1)], returning the new id. *)
Definition next_tid : M Z := fun sw =>
  let tid := wrapping_add 8 (sec_tid sw.1) 1 in
  (Ok tid, ({| sec_session := sec_session sw.1; sec_tid := tid; sec_generation := sec_generation sw.1 |}, sw.2)).

(** [secret] is the X25519 secret the handshake draws, should it run. *)
Definition revive_if_stale (secret : bytes) (reviver : Reviver) : M () :=
  g ← link_generation;
  sw ← get_state;
  if (g <=? sec_generation sw.1)%Z then mret ()
  else
    sb ← on_link (ble_pair_verify secret (rv_verify_char reviver) (rv_verify_iid reviver)
                    (rv_keypair reviver) (rv_pairing reviver) (rv_frag_size reviver));
    let '(session, _) := sb in
    g ← link_generation;
    modify (fun sw => ({| sec_session := session; sec_tid := 0; sec_generation := g |}, sw.2)).

(** The [loop] of [read_char_raw] and [write_char_raw]: a request is retried while the
    link's generation has advanced and fewer than [MAX_REVIVE_RETRIES] attempts failed.
    [secrets] are the X25519 secrets drawn by the attempts; [finish] is the [Ok] arm. *)
Fixpoint retry_loop {A} (secrets : nat -> bytes) (reviver : Reviver) (uuid : list Z) (op : BleOpCode)
    (iid16 : Z) (body : bytes) (frag_size : nat) (finish : BleResponse -> result BleError A)
    (fuel attempts : nat) : M A :=
  match fuel with
  | O => lift (Fault OutOfFuel)
  | S fuel' =>
      _ ← revive_if_stale (secrets attempts) reviver;
      tid ← next_tid;
      r ← attempt (secure_request uuid op tid iid16 body frag_size);
      match r with
      | inl resp => lift (finish resp)
      | inr e =>
          let attempts := S attempts in
          if attempts <? MAX_REVIVE_RETRIES then
            g ← link_generation;
            sw ← get_state;
            if (sec_generation sw.1 <? g)%Z
            then retry_loop secrets reviver uuid op iid16 body frag_size finish fuel' attempts
            else lift (Err e)
          else lift (Err e)
      end
  end.

(** [u16::try_from(iid)]. *)
Definition iid_u16 (iid : Z) : result BleError Z :=
  if (iid <=? U16_MAX)%Z then Ok iid else Err (CharacteristicNotFound 0 iid).

Definition read_char_raw (secrets : nat -> bytes) (reviver : Reviver) (uuid : list Z) (iid : Z)
    (frag_size : nat) : M bytes :=
  iid16 ← lift (iid_u16 iid);
  retry_loop secrets reviver uuid CharacteristicRead iid16 [] frag_size
    (fun resp => value_param (br_body resp)) MAX_REVIVE_RETRIES 0.

Definition write_char_raw (secrets : nat -> bytes) (reviver : Reviver) (uuid : list Z) (iid : Z)
    (value_bytes : bytes) (frag_size : nat) : M () :=
  iid16 ← lift (iid_u16 iid);
  let body := encode_write_body value_bytes in
  retry_loop secrets reviver uuid CharacteristicWrite iid16 body frag_size
    (fun resp => if negb (br_status resp =? 0)%Z then Err (RequestRejected (br_status resp)) else Ok ())
    MAX_REVIVE_RETRIES 0.

Definition METHOD_REMOVE : Z := 0x04.

Definition encode_remove_pairing (controller_id : bytes) : bytes :=
  let w := push_u8 [] STATE STATE_M1 in
  let w := push_u8 w METHOD METHOD_REMOVE in
  push w IDENTIFIER controller_id.

Definition expect_remove_m2 (tlv : bytes) : result BleError () :=
  map ← map_err BleTlv8 (map_parse tlv);
  match get map ERROR with
  | Some err => Err (PairingRejected (default 1%Z (byteZ <$> head err)))
  | None =>
      match s ← get map STATE; head s with
      | Some b =>
          if (byteZ b =? STATE_M2)%Z then Ok ()
          else Err (BleMalformedPdu "remove-pairing reply not state M2")
      | None => Err (BleMalformedPdu "remove-pairing reply not state M2")
      end
  end.

(** [pairings] is the Pairing-Pairings characteristic (UUID, instance id). *)
Definition ble_remove_pairing (secret : bytes) (reviver : Reviver) (pairings : list Z * Z)
    (frag_size : nat) (controller_id : bytes) : M () :=
  let '(uuid, iid) := pairings in
  let removing_self := bool_decide (controller_id = kp_id (rv_keypair reviver)) in
  let tlv := encode_remove_pairing controller_id in
  let body := encode_write_body tlv in
  _ ← revive_if_stale secret reviver;
  tid ← next_tid;
  r ← attempt (secure_request uuid CharacteristicWrite tid iid body frag_size);
  lift match r with
       | inl resp =>
           if negb (br_status resp =? 0)%Z then Err (PairingRejected (br_status resp))
           else v ← value_param (br_body resp); expect_remove_m2 v
       | inr (Disconnected as e) | inr (BleCrypto _ as e) => if removing_self then Ok () else Err e
       | inr e => Err e
       end.

Definition ENABLE_BROADCAST_BODY : bytes := [x01; x02; x01; x00; x02; x01; x01].

(** [chars] maps (aid, iid) to the characteristic's UUID and format; [secrets] are the
    X25519 secrets the entries' re-verifications draw. *)
Fixpoint enable_broadcasts_from (secrets : nat -> bytes) (reviver : Reviver)
    (chars : gmap (Z * Z) (list Z * CharFormat)) (frag_size : nat) (k : nat) (iids : list Z) : M () :=
  match iids with
  | [] => mret ()
  | iid :: iids' =>
      let continue := enable_broadcasts_from secrets reviver chars frag_size (S k) iids' in
      match chars !! (1%Z, iid) with
      | None => continue
      | Some (uuid, _) =>
          if (iid <=? U16_MAX)%Z then
            _ ← revive_if_stale (secrets k) reviver;
            tid ← next_tid;
            _ ← attempt (secure_request uuid CharacteristicConfig tid iid ENABLE_BROADCAST_BODY frag_size);
            continue
          else continue
      end
  end.

Definition enable_broadcasts (secrets : nat -> bytes) (reviver : Reviver)
    (chars : gmap (Z * Z) (list Z * CharFormat)) (frag_size : nat) (iids : list Z) : M () :=
  enable_broadcasts_from secrets reviver chars frag_size 0 iids.
End operations.

(** ** Thread commissioning ([thread.rs]) *)

Record ThreadDataset := {
  network_name : list Z; channel : byte; pan_id : Z; ext_pan_id : bytes; network_key : bytes
}.

Definition encode_query : bytes := push [] x01 [x03].

Definition encode_provision (dataset : ThreadDataset) : bytes :=
  let iw := push [] x01 (utf8_encode (network_name dataset)) in
  let iw := push iw x02 [channel dataset] in
  let iw := push iw x03 (le_bytes 2 (pan_id dataset)) in
  let iw := push iw x04 (ext_pan_id dataset) in
  let inner := push iw x05 (network_key dataset) in
  let w := push [] x01 [x01] in
  let w := push w x02 inner in
  push w x03 [x01].

Definition THREAD_CONTROL_POINT_UUID : list Z := chars "00000704-0000-1000-8000-0026bb765291".

(** ** The attribute database ([db.rs]) *)

Section database.
Context `{Crypto} `{Gatt W} `{Generated}.

Definition service_type_of (uuid : list Z) : result BleError ServiceType :=
  u ← map_err BleModel (uuid_parse uuid); Ok (service_from_uuid u).

(** The inner loop of [build_db], over the characteristics of one service. *)
Fixpoint build_chars (frag_size : nat) (tid : Z) (out : list Characteristic) (gcs : list GattCharacteristic)
    : stateful W BleError (list Characteristic * Z) :=
  match gcs with
  | [] => mret (out, tid)
  | gc :: gcs' =>
      if eq_ignore_ascii_case (gc_uuid gc) SERVICE_SIGNATURE_CHAR
      then build_chars frag_size tid out gcs'
      else
        let tid := wrapping_add 8 tid 1 in
        resp ← ble_request (gc_uuid gc) CharacteristicSignatureRead tid (gc_iid gc) [] frag_size;
        sig ← lift (parse_signature (br_body resp));
        build_chars frag_size tid
          (out ++ [{| ch_iid := gc_iid gc; ch_type := sig_char_type sig; ch_format := sig_format sig;
                      ch_perms := sig_perms sig; ch_value := None; ch_unit := None;
                      ch_min_value := None; ch_max_value := None; ch_min_step := None;
                      ch_max_len := None |}]) gcs'
  end.

Fixpoint build_services (frag_size : nat) (tid : Z) (out : list Service) (gss : list GattService)
    : stateful W BleError (list Service) :=
  match gss with
  | [] => mret out
  | gs :: gss' =>
      ty ← lift (service_type_of (gs_uuid gs));
      ct ← build_chars frag_size tid [] (gs_characteristics gs);
      let '(chars, tid) := ct in
      build_services frag_size tid
        (out ++ [{| svc_iid := gs_iid gs; svc_type := ty; svc_characteristics := chars |}]) gss'
  end.

Definition build_db (gatt_services : list GattService) (frag_size : nat)
    : stateful W BleError (list Accessory) :=
  services ← build_services frag_size 0 [] gatt_services;
  mret [{| acc_aid := 1; acc_services := services |}].
End database.

(** ** The accessory handle ([accessory.rs]) *)

Record BleBroadcastState := { bb_key : BroadcastKey; bb_gsn : Z }.

Section handle.
Context `{C : Crypto} `{Gatt W} `{Build} `{Generated}.

(** The background tasks an accessory runs, with what they own. *)
Inductive Task :=
| SubscribeTask (aid iid : Z) (uuid : list Z) (format : CharFormat)
| PollTask (targets : list (Z * Z * (list Z * CharFormat)))
| AdvertTask (device_id : bytes) (formats : gmap Z CharFormat).

(** [BleAccessory] without the link and the channels; [ba_advert_source] tells whether the
    advertisement source is set. *)
Record BleAccessory := {
  ba_secure : Secure;
  ba_reviver : Reviver;
  ba_pairings : list Z * Z;
  ba_frag_size : nat;
  ba_accessories : list Accessory;
  ba_chars : gmap (Z * Z) (list Z * CharFormat);
  ba_last_gsn : Z;
  ba_emitted : gmap Z Z;
  ba_broadcast_key : BroadcastKey;
  ba_advert_source : bool;
  ba_tasks : list Task
}.

Definition ble_set_secure (s : Secure) (self : BleAccessory) : BleAccessory :=
  {| ba_secure := s; ba_reviver := ba_reviver self; ba_pairings := ba_pairings self;
     ba_frag_size := ba_frag_size self; ba_accessories := ba_accessories self;
     ba_chars := ba_chars self; ba_last_gsn := ba_last_gsn self; ba_emitted := ba_emitted self;
     ba_broadcast_key := ba_broadcast_key self; ba_advert_source := ba_advert_source self; ba_tasks := ba_tasks self |}.

Definition ble_set_watch (source : bool) (tasks : list Task) (self : BleAccessory) : BleAccessory :=
  {| ba_secure := ba_secure self; ba_reviver := ba_reviver self; ba_pairings := ba_pairings self;
     ba_frag_size := ba_frag_size self; ba_accessories := ba_accessories self;
     ba_chars := ba_chars self; ba_last_gsn := ba_last_gsn self; ba_emitted := ba_emitted self;
     ba_broadcast_key := ba_broadcast_key self; ba_advert_source := source; ba_tasks := tasks |}.

Record SecureContext := {
  ctx_session : BleSession;
  ctx_session_generation : Z;
  ctx_keypair : ControllerKeypair;
  ctx_pairing : AccessoryPairing;
  ctx_verify_char : list Z;
  ctx_verify_iid : Z;
  ctx_pairings_char : list Z;
  ctx_pairings_iid : Z;
  ctx_broadcast_key : BroadcastKey;
  ctx_initial_gsn : Z
}.

Definition uuid_by_iid (gatt_services : list GattService) : gmap Z (list Z) :=
  foldl (fun m gc => <[gc_iid gc := gc_uuid gc]> m) ∅ (gatt_services ≫= gs_characteristics).

Definition chars_of (uuids : gmap Z (list Z)) (accessories : list Accessory)
    : gmap (Z * Z) (list Z * CharFormat) :=
  foldl (fun m acc =>
    foldl (fun m svc =>
      foldl (fun m ch =>
        match uuids !! ch_iid ch with
        | Some uuid => <[(acc_aid acc, ch_iid ch) := (uuid, ch_format ch)]> m
        | None => m
        end) m (svc_characteristics svc)) m (acc_services acc)) ∅ accessories.

Definition ble_accessory_new (ctx : SecureContext) (frag_size : nat) (gatt_services : list GattService)
    (accessories : list Accessory) : BleAccessory :=
  {| ba_secure := {| sec_session := ctx_session ctx; sec_tid := 0;
                     sec_generation := ctx_session_generation ctx |};
     ba_reviver := {| rv_keypair := ctx_keypair ctx; rv_pairing := ctx_pairing ctx;
                      rv_verify_char := ctx_verify_char ctx; rv_verify_iid := ctx_verify_iid ctx;
                      rv_frag_size := frag_size |};
     ba_pairings := (ctx_pairings_char ctx, ctx_pairings_iid ctx);
     ba_frag_size := frag_size;
     ba_accessories := accessories;
     ba_chars := chars_of (uuid_by_iid gatt_services) accessories;
     ba_last_gsn := ctx_initial_gsn ctx;
     ba_emitted := ∅;
     ba_broadcast_key := ctx_broadcast_key ctx;
     ba_advert_source := false; ba_tasks := [] |}.

Definition ble_find_in (svc : ServiceType) (chr : CharacteristicType) (acc : Accessory) : option (Z * Z) :=
  head (s ← acc_services acc;
        if bool_decide (svc_type s = svc) then
          c ← svc_characteristics s;
          if bool_decide (ch_type c = chr) then [(acc_aid acc, ch_iid c)] else []
        else []).

Definition ble_find (self : BleAccessory) (svc : ServiceType) (chr : CharacteristicType)
    : result BleError (Z * Z) :=
  ok_or (head (acc ← ba_accessories self; option_list (ble_find_in svc chr acc)))
        (CharacteristicNotFound 0 0).

Definition broadcast_state (self : BleAccessory) : BleBroadcastState :=
  {| bb_key := ba_broadcast_key self; bb_gsn := ba_last_gsn self |}.

Local Abbreviation M := (stateful (BleAccessory * W) BleError).

(** An operation on [self.secure] and the link. *)
Definition on_secure {A} (m : stateful (Secure * W) BleError A) : M A := fun '(self, w) =>
  let '(r, (s, w)) := m (ba_secure self, w) in
  (r, (ble_set_secure s self, w)).

Definition ble_read (secrets : nat -> bytes) (aid iid : Z) : M CharValue :=
  sw ← get_state;
  let self := sw.1 in
  uf ← lift (ok_or (ba_chars self !! (aid, iid)) (CharacteristicNotFound aid iid));
  let '(uuid, format) := uf in
  raw ← on_secure (read_char_raw secrets (ba_reviver self) uuid iid (ba_frag_size self));
  lift (decode_value format raw).

Definition ble_write (secrets : nat -> bytes) (aid iid : Z) (value : CharValue) : M () :=
  sw ← get_state;
  let self := sw.1 in
  uf ← lift (ok_or (ba_chars self !! (aid, iid)) (CharacteristicNotFound aid iid));
  let '(uuid, format) := uf in
  bytes ← lift (encode_value format value);
  on_secure (write_char_raw secrets (ba_reviver self) uuid iid bytes (ba_frag_size self)).

(** The first match in the order of the map; the source iterates over a [HashMap]. *)
Definition thread_control_point (self : BleAccessory) : result BleError (list Z * Z) :=
  ok_or (e ← head (filter (fun e => eq_ignore_ascii_case e.2.1 THREAD_CONTROL_POINT_UUID = true)
                          (map_to_list (ba_chars self)));
         Some (e.2.1, e.1.2))
        (CharacteristicNotFound 0 0).

Definition thread_provision (secrets1 secrets2 : nat -> bytes) (dataset : ThreadDataset) : M () :=
  sw ← get_state;
  let self := sw.1 in
  ui ← lift (thread_control_point self);
  let '(uuid, iid) := ui in
  _ ← on_secure (write_char_raw secrets1 (ba_reviver self) uuid iid encode_query (ba_frag_size self));
  let provision := encode_provision dataset in
  _ ← attempt (on_secure (write_char_raw secrets2 (ba_reviver self) uuid iid provision (ba_frag_size self)));
  mret ().
End handle.

(** ** Pairing and connecting ([controller.rs]) *)

Definition PAIR_SETUP_CHAR : list Z := chars "0000004c-0000-1000-8000-0026bb765291".
Definition PAIR_VERIFY_CHAR : list Z := chars "0000004e-0000-1000-8000-0026bb765291".
Definition PAIRINGS_CHAR : list Z := chars "00000050-0000-1000-8000-0026bb765291".
Definition GENERATE_BROADCAST_KEY_BODY : bytes := [x01; x00].

Definition protocol_info_service_iid (services : list GattService) : option Z :=
  svc ← head (filter (fun s => eq_ignore_ascii_case (gs_uuid s) PROTOCOL_INFO_SERVICE = true) services);
  if existsb (fun c => eq_ignore_ascii_case (gc_uuid c) SERVICE_SIGNATURE_CHAR) (gs_characteristics svc)
  then Some (gs_iid svc) else None.

Definition iid_of (services : list GattService) (char_uuid : list Z) : result BleError Z :=
  ok_or (gc_iid <$> head (filter (fun c => eq_ignore_ascii_case (gc_uuid c) char_uuid = true)
                                 (services ≫= gs_characteristics)))
        (CharacteristicNotFound 0 0).

Section controller.
Context `{C : Crypto} `{B : BigUintOps} `{Gatt W} `{Build} `{Generated}.
Local Abbreviation M := (stateful W BleError).

(** [gatt.max_write()] and [gatt.generation()]. *)
Definition max_write : M nat := fun w => let '(n, w) := gatt_max_write w in (Ok n, w).
Definition generation : M Z := fun w => let '(g, w) := gatt_generation w in (Ok g, w).

(** [request_secure] on a session held in a local variable; its result is discarded. *)
Definition request_secure_ignoring (session : BleSession) (uuid : list Z) (op : BleOpCode) (tid iid : Z)
    (body : bytes) (frag_size : nat) : M BleSession := fun w =>
  match request_secure uuid op tid iid body frag_size (session, w) with
  | (Fault f, (_, w)) => (Fault f, w)
  | (_, (session, w)) => (Ok session, w)
  end.

(** The part of [verify_and_build] that establishes the session: Pair Verify, the
    best-effort broadcast-key request, and the generation the session is filed under. *)
Definition mint_session (secret : bytes) (keypair : ControllerKeypair) (pairing : AccessoryPairing)
    (services : list GattService) (verify_iid : Z) (frag : nat) : M (BleSession * BroadcastKey * Z) :=
  sb ← ble_pair_verify secret PAIR_VERIFY_CHAR verify_iid keypair pairing frag;
  let '(session, broadcast_key) := sb in
  session ← (match protocol_info_service_iid services with
             | Some service_iid =>
                 request_secure_ignoring session SERVICE_SIGNATURE_CHAR ProtocolConfig 1 service_iid
                   GENERATE_BROADCAST_KEY_BODY frag
             | None => mret session
             end);
  session_generation ← generation;
  mret (session, broadcast_key, session_generation).

Definition verify_and_build (secret : bytes) (keypair : ControllerKeypair) (pairing : AccessoryPairing)
    (initial_gsn : Z) : M BleAccessory :=
  frag ← max_write;
  services ← gatt_enumerate;
  accessories ← build_db services frag;
  verify_iid ← lift (iid_of services PAIR_VERIFY_CHAR);
  sbg ← mint_session secret keypair pairing services verify_iid frag;
  let '(session, broadcast_key, session_generation) := sbg in
  pairings_iid ← lift (iid_of services PAIRINGS_CHAR);
  let ctx := {| ctx_session := session; ctx_session_generation := session_generation;
                ctx_keypair := keypair; ctx_pairing := pairing;
                ctx_verify_char := PAIR_VERIFY_CHAR; ctx_verify_iid := verify_iid;
                ctx_pairings_char := PAIRINGS_CHAR; ctx_pairings_iid := pairings_iid;
                ctx_broadcast_key := broadcast_key; ctx_initial_gsn := initial_gsn |} in
  mret (ble_accessory_new ctx frag services accessories).

Definition ble_connect (secret : bytes) (keypair : ControllerKeypair) (pairing : AccessoryPairing)
    (broadcast : option BleBroadcastState) : M BleAccessory :=
  let initial_gsn := match broadcast with Some b => bb_gsn b | None => 0%Z end in
  verify_and_build secret keypair pairing initial_gsn.

(** [a] and [secret] are the values Pair Setup and Pair Verify draw. *)
Definition ble_pair (a secret : bytes) (keypair : ControllerKeypair) (setup_code : bytes)
    : M (BleAccessory * AccessoryPairing * BleBroadcastState) :=
  frag ← max_write;
  setup_iid ← gatt_instance_id PAIR_SETUP_CHAR;
  pairing ← ble_pair_setup a PAIR_SETUP_CHAR setup_iid setup_code keypair frag;
  accessory ← verify_and_build secret keypair pairing 0;
  mret (accessory, pairing, broadcast_state accessory).
End controller.

(** * Lemmas *)

(** ** Values *)

(** The values a Rust [CharValue] can hold. *)
Definition value_wf (v : CharValue) : Prop :=
  match v with
  | VInt n => (- 2 ^ 63 <= n < 2 ^ 63)%Z
  | VUint n => in_u 64 n
  | VStr s => Forall is_scalar s
  | _ => True
  end.

(** The values of a format. *)
Definition has_format (format : CharFormat) (v : CharValue) : Prop :=
  match format, v with
  | FBool, VBool _ => True
  | FUint8, VUint n => in_u 8 n
  | FUint16, VUint n => in_u 16 n
  | FUint32, VUint n => in_u 32 n
  | FUint64, VUint n => in_u 64 n
  | FInt, VInt n => (- 2 ^ 31 <= n < 2 ^ 31)%Z
  | FFloat, VFloat _ => True
  | FString, VStr s => Forall is_scalar s
  | (FTlv8 | FData), VBytes _ => True
  | _, _ => False
  end.

(** A value after the wire: floats are narrowed to 32 bits. *)
Definition wire_value (v : CharValue) : CharValue :=
  match v with VFloat f => VFloat (f64_of_f32 (f32_of_f64 f)) | _ => v end.

Lemma f32_bits_range s e m : in_u 32 (f32_bits s e m).
Proof.
  unfold f32_bits, in_u. pose proof (Z.mod_pos_bound s 2). pose proof (Z.mod_pos_bound e (2 ^ 8)).
  pose proof (Z.mod_pos_bound m (2 ^ 23)). lia.
Qed.

Lemma f32_of_f64_range f : in_u 32 (f32_of_f64 f).
Proof.
  unfold f32_of_f64.
  match goal with |- in_u 32 (match ?x with _ => _ end) => destruct x end; try apply f32_bits_range.
  case_match; apply f32_bits_range.
Qed.

Lemma le_Z_u (n : nat) z : in_u (8 * Z.of_nat n) z -> le_Z (le_bytes n z) = z.
Proof.
  intros Hz. apply le_Z_le_bytes_small. unfold in_u in Hz.
  by rewrite Z.pow_mul_r in Hz by lia.
Qed.

Lemma i32_le_bytes n : (- 2 ^ 31 <= n < 2 ^ 31)%Z -> i32_of_bytes (le_bytes 4 n) = n.
Proof.
  intros Hn. unfold i32_of_bytes. rewrite le_Z_le_bytes. change (256 ^ Z.of_nat 4)%Z with (2 ^ 32)%Z.
  destruct (Z.leb_spec 0 n).
  - rewrite Z.mod_small by lia. by rewrite (proj2 (Z.ltb_lt _ _)) by lia.
  - assert (n mod 2 ^ 32 = n + 2 ^ 32)%Z as ->.
    { symmetry. apply (Z.mod_unique _ _ (-1)); lia. }
    rewrite (proj2 (Z.ltb_ge _ _)) by lia. lia.
Qed.

Lemma i32_of_bytes_range bs : length bs = 4 -> (- 2 ^ 31 <= i32_of_bytes bs < 2 ^ 31)%Z.
Proof.
  intros Hl. unfold i32_of_bytes. pose proof (le_Z_bound bs) as Hb. rewrite Hl in Hb.
  change (256 ^ Z.of_nat 4)%Z with (2 ^ 32)%Z in Hb. destruct (Z.ltb_spec (le_Z bs) (2 ^ 31)); lia.
Qed.

Lemma slice_whole {E A} (l : list A) n : length l = n -> slice (E:=E) l 0 n = Ok l.
Proof. intros <-. rewrite slice_ok by lia. by rewrite drop_0, Nat.sub_0_r, take_ge. Qed.

Lemma slice_u {E} raw n b : slice (E:=E) raw 0 n = Ok b -> length b = n /\ in_u (8 * Z.of_nat n) (le_Z b).
Proof.
  unfold slice. destruct (get_range raw 0 n) eqn:Hg; [|done]. apply get_range_Some in Hg as [Hn ->].
  intros ?; simplify_eq. set (b := take _ _).
  assert (length b = n) as Hb by (unfold b; rewrite length_take, length_drop; lia).
  split; [done|]. unfold in_u. pose proof (le_Z_bound b) as Hz. rewrite Hb in Hz.
  by rewrite Z.pow_mul_r by lia.
Qed.

Lemma encode_value_typed f v :
  value_wf v -> is_ok (encode_value f v) = true <-> has_format f v.
Proof.
  intros Hv. destruct f, v; simpl in *; unfold in_u in *; try done.
  all: repeat match goal with
       | |- context [(?a <=? ?b)%Z] => destruct (Z.leb_spec a b)
       | |- context [(?a <? ?b)%Z] => destruct (Z.ltb_spec a b)
       end; cbn; split; intros; try done; try lia.
Qed.

Lemma decode_value_typed f raw v : decode_value f raw = Ok v -> has_format f v.
Proof.
  unfold decode_value. intros H. destruct f; try (bind_inv H; bind_inv H); simplify_eq/=; try done.
  all: try (unfold in_u; pose proof (byteZ_range a0); lia).
  all: try by (apply slice_u in Ha0 as [_ ?]).
  - apply slice_u in Ha0 as [? _]. by apply i32_of_bytes_range.
  - apply from_utf8_lossy_scalar.
Qed.

Lemma returns_decode_value f raw : returns (decode_value f raw).
Proof.
  assert (forall n {A} (k : result BleError A), (n <= length raw -> returns k) ->
    returns (_ ← (if length raw <? n then Err (BleMalformedPdu "value shorter than its format width") else Ok ());
             k)) as Hneed.
  { intros n A k Hk. destruct (Nat.ltb_spec (length raw) n); [done|]. by apply Hk. }
  unfold decode_value. destruct f; try done; apply Hneed; intros Hl;
    (apply returns_bind; [first [apply returns_index; lia | apply returns_slice; lia]|done]).
Qed.

Lemma decode_encode f v raw :
  value_wf v -> encode_value f v = Ok raw -> decode_value f raw = Ok (wire_value v).
Proof.
  intros Hv He. assert (has_format f v) as Ht by (apply encode_value_typed; [done|by rewrite He]).
  destruct f, v; try done; cbn [encode_value has_format] in He, Ht.
  1: by destruct b; simplify_eq.
  1-3: rewrite (proj2 (Z.leb_le _ _)) in He by (unfold in_u in Ht; lia).
  5: rewrite (proj2 (Z.leb_le _ _)), (proj2 (Z.ltb_lt _ _)) in He by lia.
  all: cbn [mbind result_bind andb] in He;
    match type of He with Ok ?x = Ok ?y => assert (y = x) as -> by congruence end.
  1: { cbn. do 2 f_equal. apply byteZ_u8. done. }
  all: unfold decode_value; try done.
  all: rewrite ?length_le_bytes; cbn [Nat.ltb Nat.leb mbind result_bind];
    rewrite ?slice_whole by (by rewrite ?length_le_bytes); cbn [mbind result_bind].
  1-3: by rewrite le_Z_u.
  - by rewrite i32_le_bytes.
  - rewrite (le_Z_u 4); [done|apply f32_of_f64_range].
  - by rewrite from_utf8_lossy_encode.
Qed.

(** * Theorems *)

(** C29: The value codec is typed.  A value encodes exactly when it belongs to the
    characteristic's format; what decodes, from any bytes and without panic, belongs to
    the format; and an encoded value decodes to itself, a float to its 32-bit rounding. *)
Theorem ble_value_typed format v raw :
  value_wf v ->
  (is_ok (encode_value format v) = true <-> has_format format v) /\
  (returns (decode_value format raw) /\ forall v', decode_value format raw = Ok v' -> has_format format v') /\
  (encode_value format v = Ok raw -> decode_value format raw = Ok (wire_value v)).
Proof.
  intros Hv. split; [by apply encode_value_typed|]. split.
  - split; [apply returns_decode_value|]. intros v'. apply decode_value_typed.
  - by apply decode_encode.
Qed.

Lemma ble_value_typed_witness :
  decode_value FInt (le_bytes 4 (-7)) = Ok (VInt (-7)) /\
  (is_ok (encode_value FUint8 (VUint 256)) = true <-> has_format FUint8 (VUint 256)).
Proof.
  split.
  - apply (ble_value_typed FInt (VInt (-7)) (le_bytes 4 (-7))); [simpl; lia|reflexivity].
  - apply (ble_value_typed FUint8 (VUint 256) []). simpl. unfold in_u. lia.
Defined.
