(* ===== verification/BleEvents.v ===== *)
(** * [hap-ble/src/{advert,accessory}.rs]: events of a sleeping accessory

    Advertisements carry a global state number (GSN) or an encrypted value.  The advert
    task and the catch-up poll task of [watch_sleepy_events_with_source] share the last
    GSN, the map of emitted GSNs and the event channel; [System] puts them side by side
    with every interleaving as a step.  The theorems show that no change is reported
    twice and that a broadcast is reported exactly when it is authentic and new. *)

From S2P Require Import Prelude Text Tlv8 Crypto Srp PairSetup PairVerify Model BlePdu BleAccessory.

(** ** [advert.rs] *)

Inductive HapAdvert :=
| Regular (device_id : bytes) (gsn : Z) (paired : bool)
| EncryptedNotification (advertising_id payload : bytes).

Definition advert_parse (mfg : bytes) : result BleError (option HapAdvert) :=
  match head mfg with
  | None => Ok None
  | Some x06 =>
      if 13 <=? length mfg then
        device_id ← slice mfg 3 9;
        g0 ← index mfg 11; g1 ← index mfg 12;
        let gsn := le_Z [g0; g1] in
        flags ← index mfg 2;
        let paired := (Z.land (byteZ flags) 1 =? 0)%Z in
        Ok (Some (Regular device_id gsn paired))
      else Ok None
  | Some x11 =>
      if 8 <=? length mfg then
        advertising_id ← slice mfg 2 8;
        payload ← slice mfg 8 (length mfg);
        Ok (Some (EncryptedNotification advertising_id payload))
      else Ok None
  | Some _ => Ok None
  end.

(** ** GSNs and deduplication ([accessory.rs]) *)

Definition gsn_is_newer (new last : Z) : bool :=
  let diff := wrapping_sub 16 new last in
  negb (diff =? 0)%Z && (diff <? 0x8000)%Z.

Record CharacteristicEvent := { ev_aid : Z; ev_iid : Z; ev_value : CharValue }.

(** What the two tasks share: the last GSN, the dedup map and the events sent. *)
Record Shared := { sh_last_gsn : Z; sh_emitted : gmap Z Z; sh_events : list CharacteristicEvent }.

Definition dedup_should_emit (emitted : gmap Z Z) (iid gsn : Z) : bool * gmap Z Z :=
  let prev := emitted !! iid in
  if bool_decide (prev = Some gsn) then (false, emitted)
  else
    let emitted := match prev with
                   | Some p => if gsn_is_newer gsn p then <[iid := gsn]> emitted else emitted
                   | None => <[iid := gsn]> emitted
                   end in
    (true, emitted).

(** [if dedup_should_emit(..) { tx.send(event) }]. *)
Definition emit (aid iid gsn : Z) (value : CharValue) (sh : Shared) : Shared :=
  let '(fresh, emitted) := dedup_should_emit (sh_emitted sh) iid gsn in
  {| sh_last_gsn := sh_last_gsn sh; sh_emitted := emitted;
     sh_events := if fresh
                  then sh_events sh ++ [{| ev_aid := aid; ev_iid := iid; ev_value := value |}]
                  else sh_events sh |}.

Definition set_gsn (gsn : Z) (sh : Shared) : Shared :=
  {| sh_last_gsn := gsn; sh_emitted := sh_emitted sh; sh_events := sh_events sh |}.

(** ** The advert task *)

Section advert.
Context `{Crypto} (broadcast_key : BroadcastKey) (device_id : bytes) (formats : gmap Z CharFormat).

(** The GSN candidates: next, current, then the forward window. *)
Definition candidates (start : Z) : list Z :=
  wrapping_add 16 start 1 :: start :: ((fun d => wrapping_add 16 start (Z.of_nat d)) <$> seq 2 99).

(** The [for] loop over the candidates. *)
Fixpoint try_candidates (start : Z) (payload advertising_id : bytes) (gsns : list Z) (sh : Shared)
    : result BleError Shared :=
  match gsns with
  | [] => Ok sh
  | gsn :: gsns' =>
      let continue := try_candidates start payload advertising_id gsns' sh in
      match broadcast_open broadcast_key gsn payload advertising_id with
      | Fault f => Fault f
      | Err _ => continue
      | Ok pt =>
          if length pt <? 12 then continue
          else
            p0 ← index pt 0; p1 ← index pt 1;
            if negb (le_Z [p0; p1] =? gsn)%Z then continue
            else if negb (gsn_is_newer gsn start) then Ok sh
            else
              i0 ← index pt 2; i1 ← index pt 3;
              let iid := le_Z [i0; i1] in
              let sh := set_gsn gsn sh in
              match formats !! iid with
              | None => Ok sh
              | Some format =>
                  raw ← slice pt 4 12;
                  match decode_value format raw with
                  | Ok value => Ok (emit 1 iid gsn value sh)
                  | Err _ => Ok sh
                  | Fault f => Fault f
                  end
              end
      end
  end.

(** One advertisement: the new shared state and the GSN handed to the poll task, if any. *)
Definition advert_step (manufacturer_data : bytes) (sh : Shared) : result BleError (Shared * option Z) :=
  advert ← advert_parse manufacturer_data;
  match advert with
  | Some (Regular d gsn _) =>
      if negb (bool_decide (d = device_id)) then Ok (sh, None)
      else if negb (gsn_is_newer gsn (sh_last_gsn sh)) then Ok (sh, None)
      else Ok (set_gsn gsn sh, Some gsn)
  | Some (EncryptedNotification advertising_id payload) =>
      if negb (bool_decide (advertising_id = device_id)) then Ok (sh, None)
      else
        let start := sh_last_gsn sh in
        sh ← try_candidates start payload advertising_id (candidates start) sh;
        Ok (sh, None)
  | None => Ok (sh, None)
  end.
End advert.

(** ** The poll task *)

Record Target := { tg_aid : Z; tg_iid : Z; tg_format : CharFormat }.

(** One target polled at [gsn]; [raw] is what [read_char_raw] returned. *)
Definition poll_target (gsn : Z) (t : Target) (raw : result BleError bytes) (sh : Shared) : Shared :=
  match raw with
  | Ok raw_val =>
      match decode_value (tg_format t) raw_val with
      | Ok value => emit (tg_aid t) (tg_iid t) gsn value sh
      | _ => sh
      end
  | _ => sh
  end.

(** ** The two tasks side by side

    The watch channel holds the latest bump the poll task has not seen.  The accessory
    counts its changes: every advertisement it has sent carries the count of that moment,
    the serial number, and its GSN is that count modulo 65536.  [sy_serial] is the serial
    number of the advertisement that last moved the GSN; a bump and the poll it starts
    carry theirs, and [sy_log] records the instance id and serial number of every event. *)

Record System := {
  sy_shared : Shared;
  sy_channel : option (Z * Z);
  sy_polling : option (Z * Z * list Target);
  sy_serial : Z;
  sy_log : list (Z * Z)
}.

Definition new_events (sh sh' : Shared) : list CharacteristicEvent :=
  drop (length (sh_events sh)) (sh_events sh').

Definition log_of (serial : Z) (sh sh' : Shared) : list (Z * Z) :=
  (fun e => (ev_iid e, serial)) <$> new_events sh sh'.

(** What a successful broadcast carries: its GSN, instance id and value bytes. *)
Definition pt_gsn (pt : bytes) : Z := le_Z (take 2 pt).
Definition pt_iid (pt : bytes) : Z := le_Z (take 2 (drop 2 pt)).
Definition pt_raw (pt : bytes) : bytes := take 8 (drop 4 pt).

Section system.
Context `{Crypto} (broadcast_key : BroadcastKey) (device_id : bytes) (formats : gmap Z CharFormat)
  (targets : list Target).

(** The GSN an advertisement of the accessory states: in the clear, or under the key. *)
Inductive declares (raw : bytes) : Z -> Prop :=
| declares_regular g paired : advert_parse raw = Ok (Some (Regular device_id g paired)) -> declares raw g
| declares_broadcast pt :
    advert_parse raw = Ok (Some (EncryptedNotification device_id (broadcast_seal broadcast_key (pt_gsn pt) pt device_id))) ->
    12 <= length pt -> declares raw (pt_gsn pt).

(** An advertisement that is heard was sent by the accessory at serial number [n], fewer
    than 32768 changes away from the last one that counted, however late or often it is
    heard; or it is anybody's, and declares nothing. *)
Inductive sys_step : System -> System -> Prop :=
| step_advert raw n sh sh' sent ch po sr log :
    advert_step broadcast_key device_id formats raw sh = Ok (sh', sent) ->
    (forall g, declares raw g -> g = n mod 2 ^ 16 /\ Z.abs (n - sr) < 2 ^ 15)%Z ->
    let sr' := if (sh_last_gsn sh' =? sh_last_gsn sh)%Z then sr else n in
    sys_step {| sy_shared := sh; sy_channel := ch; sy_polling := po; sy_serial := sr; sy_log := log |}
      {| sy_shared := sh';
         sy_channel := match sent with Some g => Some (g, sr') | None => ch end;
         sy_polling := po; sy_serial := sr'; sy_log := log ++ log_of sr' sh sh' |}
| step_poll_begin sh g n sr log :
    sys_step {| sy_shared := sh; sy_channel := Some (g, n); sy_polling := None; sy_serial := sr; sy_log := log |}
      {| sy_shared := sh; sy_channel := None; sy_polling := Some (g, n, targets); sy_serial := sr; sy_log := log |}
| step_poll_target sh ch g n t ts raw sr log :
    let sh' := poll_target g t raw sh in
    sys_step {| sy_shared := sh; sy_channel := ch; sy_polling := Some (g, n, t :: ts); sy_serial := sr; sy_log := log |}
      {| sy_shared := sh'; sy_channel := ch; sy_polling := Some (g, n, ts); sy_serial := sr;
         sy_log := log ++ log_of n sh sh' |}
| step_poll_end sh ch g n sr log :
    sys_step {| sy_shared := sh; sy_channel := ch; sy_polling := Some (g, n, []); sy_serial := sr; sy_log := log |}
      {| sy_shared := sh; sy_channel := ch; sy_polling := None; sy_serial := sr; sy_log := log |}.
End system.

(** The tasks as they are started, after the accessory's [serial]-th change. *)
Definition sys_init (serial : Z) : System :=
  {| sy_shared := {| sh_last_gsn := serial mod 2 ^ 16; sh_emitted := ∅; sh_events := [] |};
     sy_channel := None; sy_polling := None; sy_serial := serial; sy_log := [] |}.

(** A change is reported again only after another of the same characteristic: a newer one
    (a broadcast overtook the poll), or one 32768 or more older, which the map of emitted
    GSNs still holds. *)
Definition repeats_excused (log : list (Z * Z)) : Prop :=
  forall l1 iid n l2, log = l1 ++ (iid, n) :: l2 -> (iid, n) ∈ l1 ->
    exists m, (iid, m) ∈ l1 /\ (n < m \/ m + 2 ^ 15 <= n)%Z.

(** * Lemmas *)

Lemma gsn_newer_spec new last :
  gsn_is_newer new last = true <-> (0 < wrapping_sub 16 new last < 2 ^ 15)%Z.
Proof.
  unfold gsn_is_newer. pose proof (Z.mod_pos_bound (new - last) (2 ^ 16) ltac:(lia)) as Hb.
  unfold wrapping_sub in *. set (d := ((new - last) mod 2 ^ 16)%Z) in *.
  rewrite andb_true_iff, negb_true_iff, Z.eqb_neq, Z.ltb_lt. change 0x8000%Z with (2 ^ 15)%Z. lia.
Qed.

Lemma wrapping_sub_self z : wrapping_sub 16 z z = 0%Z.
Proof. unfold wrapping_sub. by rewrite Z.sub_diag. Qed.

Lemma emit_spec aid iid gsn v sh :
  sh_last_gsn (emit aid iid gsn v sh) = sh_last_gsn sh /\
  (sh_emitted sh !! iid <> Some gsn ->
     sh_events (emit aid iid gsn v sh) = sh_events sh ++ [{| ev_aid := aid; ev_iid := iid; ev_value := v |}]) /\
  (sh_emitted sh !! iid = Some gsn -> emit aid iid gsn v sh = sh).
Proof.
  unfold emit, dedup_should_emit. case_bool_decide as Hp.
  - split; [done|]. split; [done|]. by destruct sh.
  - split; [done|]. split; [done|]. done.
Qed.

(** Events only accumulate, one at a time: [emitting] is [emit] or a change of the GSN only. *)
Definition emitting (iid gsn : Z) (sh sh' : Shared) : Prop :=
  (sh_events sh' = sh_events sh /\ sh_emitted sh' = sh_emitted sh) \/
  (exists e, ev_iid e = iid /\ sh_events sh' = sh_events sh ++ [e] /\ sh_emitted sh !! iid <> Some gsn /\
     sh_emitted sh' = match sh_emitted sh !! iid with
                      | Some p => if gsn_is_newer gsn p then <[iid := gsn]> (sh_emitted sh) else sh_emitted sh
                      | None => <[iid := gsn]> (sh_emitted sh)
                      end).

Lemma emit_emitting aid iid gsn v sh : emitting iid gsn sh (emit aid iid gsn v sh).
Proof.
  unfold emitting, emit, dedup_should_emit. case_bool_decide as Hp; [by left|right].
  eexists. split; [|split; [reflexivity|]]; done.
Qed.

Lemma log_of_emitting serial iid gsn sh sh' :
  emitting iid gsn sh sh' ->
  (log_of serial sh sh' = [] /\ sh_events sh' = sh_events sh /\ sh_emitted sh' = sh_emitted sh) \/
  (log_of serial sh sh' = [(iid, serial)] /\ exists e, ev_iid e = iid /\ sh_events sh' = sh_events sh ++ [e]).
Proof.
  unfold log_of, new_events. intros [[-> ->]|(e & <- & -> & _)].
  - left. by rewrite drop_all.
  - right. rewrite drop_app_length. eauto.
Qed.

Section advert_lemmas.
Context `{CL : CryptoLaws} (key : BroadcastKey) (device_id : bytes) (formats : gmap Z CharFormat).

(** The effect of an accepted broadcast. *)
Definition accepted (pt : bytes) (sh : Shared) : Shared :=
  let sh := set_gsn (pt_gsn pt) sh in
  match formats !! pt_iid pt with
  | None => sh
  | Some format =>
      match decode_value format (pt_raw pt) with
      | Ok v => emit 1 (pt_iid pt) (pt_gsn pt) v sh
      | _ => sh
      end
  end.

Lemma long_bytes (pt : bytes) : 12 <= length pt ->
  exists b0 b1 b2 b3 rest, pt = b0 :: b1 :: b2 :: b3 :: rest /\ 8 <= length rest.
Proof.
  intros Hl. destruct pt as [|b0 [|b1 [|b2 [|b3 rest]]]]; simpl in Hl; try lia.
  eexists _, _, _, _, _. split; [done|lia].
Qed.

(** The candidate loop accepts an authentic, newer broadcast, or changes nothing. *)
Lemma try_candidates_spec start payload gsns sh :
  exists sh', try_candidates key formats start payload device_id gsns sh = Ok sh' /\
    (sh' = sh \/ exists pt, pt_gsn pt ∈ gsns /\ gsn_is_newer (pt_gsn pt) start = true /\ 12 <= length pt /\
       payload = broadcast_seal key (pt_gsn pt) pt device_id /\ sh' = accepted pt sh).
Proof using CL.
  induction gsns as [|gsn gsns (sh' & Hr & Hs)]; cbn [try_candidates]; [exists sh; by split; [|left]|].
  assert (exists sh', try_candidates key formats start payload device_id gsns sh = Ok sh' /\
    (sh' = sh \/ exists pt, pt_gsn pt ∈ gsn :: gsns /\ gsn_is_newer (pt_gsn pt) start = true /\ 12 <= length pt /\
       payload = broadcast_seal key (pt_gsn pt) pt device_id /\ sh' = accepted pt sh)) as Hc.
  { exists sh'. split; [done|]. destruct Hs as [->|(pt & Hin & Hrest)]; [by left|right].
    exists pt. split; [by right|done]. }
  destruct (broadcast_open key gsn payload device_id) as [pt|e|f] eqn:Eo; [|exact Hc|].
  2:{ exfalso. clear -Eo. unfold broadcast_open in Eo. by repeat case_match. }
  destruct (Nat.ltb_spec (length pt) 12) as [|Hlen]; [exact Hc|].
  destruct (long_bytes pt Hlen) as (b0 & b1 & b2 & b3 & rest & Hpt & Hrest).
  assert (slice (E:=BleError) pt 4 12 = Ok (pt_raw pt)) as Hraw by (by rewrite slice_ok by lia).
  assert (le_Z [b0; b1] = pt_gsn pt /\ le_Z [b2; b3] = pt_iid pt) as [Hg0 Hi0] by (by rewrite Hpt).
  assert (forall i b, [b0; b1; b2; b3] !! i = Some b -> index (E:=BleError) pt i = Ok b) as Hidx.
  { intros i b Hi. apply index_ok. rewrite Hpt. do 4 (destruct i as [|i]; [done|]). done. }
  rewrite (Hidx 0 b0), (Hidx 1 b1), (Hidx 2 b2), (Hidx 3 b3) by done. cbn [mbind result_bind]. rewrite Hg0, Hi0.
  destruct (Z.eqb_spec (pt_gsn pt) gsn) as [<-|]; [|exact Hc]. cbn [negb].
  destruct (gsn_is_newer (pt_gsn pt) start) eqn:En; cbn [negb]; [|exists sh; by split; [|left]].
  rewrite Hraw. cbn [mbind result_bind]. exists (accepted pt sh). split.
  - unfold accepted. destruct (formats !! pt_iid pt) as [fm|]; [|done].
    pose proof (returns_decode_value fm (pt_raw pt)) as Hd. by destruct (decode_value fm (pt_raw pt)).
  - right. exists pt. split; [by left|]. do 2 (split; [done|]). split; [by apply broadcast_open_sealed|done].
Qed.

Lemma accepted_emitting pt sh :
  sh_last_gsn (accepted pt sh) = pt_gsn pt /\ emitting (pt_iid pt) (pt_gsn pt) sh (accepted pt sh).
Proof.
  unfold accepted. destruct (formats !! pt_iid pt) as [fm|]; [|by split; [|left]].
  destruct (decode_value fm (pt_raw pt)); [|by split; [|left]..].
  split; [apply emit_spec|]. exact (emit_emitting 1 (pt_iid pt) (pt_gsn pt) a (set_gsn (pt_gsn pt) sh)).
Qed.

(** A broadcast that opens under its own GSN only is accepted. *)
Lemma try_candidates_complete start pt gsns sh :
  let payload := broadcast_seal key (pt_gsn pt) pt device_id in
  12 <= length pt -> pt_gsn pt ∈ gsns -> gsn_is_newer (pt_gsn pt) start = true ->
  (forall g, g <> pt_gsn pt -> is_ok (broadcast_open key g payload device_id) = false) ->
  try_candidates key formats start payload device_id gsns sh = Ok (accepted pt sh).
Proof using CL.
  intros payload Hlen Hin Hnew Honly. induction gsns as [|g gsns IH]; [by apply elem_of_nil in Hin|].
  cbn [try_candidates]. destruct (decide (g = pt_gsn pt)) as [->|Hne].
  - rewrite (proj2 (broadcast_open_sealed key (pt_gsn pt) payload device_id pt)) by done.
    destruct (long_bytes pt Hlen) as (b0 & b1 & b2 & b3 & rest & Hpt & Hrest).
    assert (slice (E:=BleError) pt 4 12 = Ok (pt_raw pt)) as Hraw by (by rewrite slice_ok by lia).
    assert (le_Z [b0; b1] = pt_gsn pt /\ le_Z [b2; b3] = pt_iid pt) as [Hg0 Hi0] by (by rewrite Hpt).
    assert (forall i b, [b0; b1; b2; b3] !! i = Some b -> index (E:=BleError) pt i = Ok b) as Hidx.
    { intros i b Hi. apply index_ok. rewrite Hpt. do 4 (destruct i as [|i]; [done|]). done. }
    rewrite (proj2 (Nat.ltb_ge _ _)) by done.
    rewrite (Hidx 0 b0), (Hidx 1 b1), (Hidx 2 b2), (Hidx 3 b3) by done. cbn [mbind result_bind].
    rewrite Hg0, Hi0, Z.eqb_refl, Hnew, Hraw. cbn [negb mbind result_bind]. unfold accepted.
    destruct (formats !! pt_iid pt) as [fm|]; [|done].
    pose proof (returns_decode_value fm (pt_raw pt)) as Hd. by destruct (decode_value fm (pt_raw pt)).
  - apply elem_of_cons in Hin as [Hg|Hin]; [by rewrite Hg in Hne|]. specialize (Honly g Hne).
    destruct (broadcast_open key g payload device_id) as [p|e|f] eqn:Eo; [done|by apply IH|].
    exfalso. clear -Eo. unfold broadcast_open in Eo. by repeat case_match.
Qed.

Lemma wrapping_sub_add start d : (0 <= d < 2 ^ 16)%Z -> wrapping_sub 16 (wrapping_add 16 start d) start = d.
Proof.
  intros Hd. unfold wrapping_sub, wrapping_add. rewrite Zminus_mod_idemp_l.
  replace (start + d - start)%Z with d by lia. by apply Z.mod_small.
Qed.

Lemma wrapping_add_sub g start : in_u 16 g -> wrapping_add 16 start (wrapping_sub 16 g start) = g.
Proof.
  intros Hg. unfold wrapping_sub, wrapping_add. rewrite Zplus_mod_idemp_r.
  replace (start + (g - start))%Z with g by lia. by apply Z.mod_small.
Qed.

(** The candidates ahead of the last GSN are the next hundred. *)
Lemma candidates_window start g :
  in_u 16 g ->
  g ∈ candidates start /\ gsn_is_newer g start = true <-> (1 <= wrapping_sub 16 g start <= 100)%Z.
Proof.
  intros Hg. rewrite gsn_newer_spec. unfold candidates. split.
  - intros [Hin [Hpos _]]. rewrite !elem_of_cons in Hin. destruct Hin as [->|[->|Hin]].
    + rewrite wrapping_sub_add by lia. lia.
    + rewrite wrapping_sub_self in Hpos. lia.
    + apply list_elem_of_fmap in Hin as (d & -> & Hd%elem_of_seq). rewrite wrapping_sub_add by lia. lia.
  - intros Hw. split; [|lia]. rewrite <- (wrapping_add_sub g start Hg).
    destruct (decide (wrapping_sub 16 g start = 1)%Z) as [->|Hne]; [by left|]. right. right.
    apply list_elem_of_fmap. exists (Z.to_nat (wrapping_sub 16 g start)). rewrite Z2Nat.id by lia.
    split; [done|]. apply elem_of_seq. lia.
Qed.

Lemma in_u16_le_Z2 b0 b1 : in_u 16 (le_Z [b0; b1]).
Proof. unfold in_u. pose proof (le_Z_bound [b0; b1]) as Hb. simpl length in Hb. change (256 ^ Z.of_nat 2)%Z with (2 ^ 16)%Z in Hb. done. Qed.

Lemma pt_gsn_range pt : 12 <= length pt -> in_u 16 (pt_gsn pt).
Proof.
  intros Hl. destruct (long_bytes pt Hl) as (b0 & b1 & b2 & b3 & rest & -> & _). apply in_u16_le_Z2.
Qed.

Lemma advert_parse_regular raw d gsn p : advert_parse raw = Ok (Some (Regular d gsn p)) -> in_u 16 gsn.
Proof.
  unfold advert_parse. destruct (head raw) as [b|]; [|done]. intros Hp.
  destruct b; try done; case_match; try done; repeat bind_inv Hp; simplify_eq; apply in_u16_le_Z2.
Qed.

(** An advertisement changes nothing, or moves the GSN forward to the one it declares: a
    bump is handed to the poll task, a broadcast sends at most one event. *)
Lemma advert_step_spec raw sh sh' sent :
  advert_step key device_id formats raw sh = Ok (sh', sent) ->
  (sh' = sh /\ sent = None) \/
  (gsn_is_newer (sh_last_gsn sh') (sh_last_gsn sh) = true /\ declares key device_id raw (sh_last_gsn sh') /\
   (sent = Some (sh_last_gsn sh') /\ sh_events sh' = sh_events sh /\ sh_emitted sh' = sh_emitted sh \/
    sent = None /\ exists iid, emitting iid (sh_last_gsn sh') sh sh')).
Proof using CL.
  unfold advert_step. intros Hs. destruct (advert_parse raw) as [a|?|?] eqn:Ha; [|done..].
  cbn [mbind result_bind] in Hs. destruct a as [[d gsn p|id payload]|]; [| |simplify_eq; by left].
  - case_bool_decide as Hd; cbn [negb] in Hs; [|simplify_eq; by left]. subst d.
    destruct (gsn_is_newer gsn (sh_last_gsn sh)) eqn:En; cbn [negb] in Hs; simplify_eq; [|by left].
    right. cbn. split; [done|]. split; [by eapply declares_regular|]. by left.
  - case_bool_decide as Hd; cbn [negb] in Hs; [|simplify_eq; by left]. subst id.
    destruct (try_candidates_spec (sh_last_gsn sh) payload (candidates (sh_last_gsn sh)) sh) as (sh1 & Hr & Hcase).
    rewrite Hr in Hs. cbn [mbind result_bind] in Hs. simplify_eq.
    destruct Hcase as [->|(pt & _ & Hn & Hl & -> & ->)]; [by left|right].
    destruct (accepted_emitting pt sh) as [-> Hx]. split; [done|]. split; [by apply declares_broadcast|]. right. eauto.
Qed.

Lemma advert_parse_returns raw : returns (advert_parse raw).
Proof using.
  unfold advert_parse. destruct raw as [|b raw]; [done|]. cbn [head].
  destruct b; try done; (case_match eqn:Hl; [|done]); apply Nat.leb_le in Hl;
    repeat (apply returns_bind; [(apply returns_slice + apply returns_index); lia|intros ? _]); done.
Qed.

(** The advert task never panics. *)
Lemma advert_step_returns raw sh : returns (advert_step key device_id formats raw sh).
Proof using CL.
  unfold advert_step. apply returns_bind; [apply advert_parse_returns|]. intros [[d g p|id payload]|] _; [| |done].
  - by repeat case_match.
  - case_bool_decide as Hd; [|done]. subst id. cbn [negb].
    by destruct (try_candidates_spec (sh_last_gsn sh) payload (candidates (sh_last_gsn sh)) sh) as (sh1 & -> & _).
Qed.
End advert_lemmas.

(** ** Serial numbers *)

(** Within 32768 changes, newer by GSN is newer by serial number. *)
Lemma newer_serial n sr :
  (Z.abs (n - sr) < 2 ^ 15)%Z -> gsn_is_newer (n mod 2 ^ 16) (sr mod 2 ^ 16) = true -> (sr < n)%Z.
Proof.
  intros Ha Hn%gsn_newer_spec. unfold wrapping_sub in Hn. rewrite <- Zminus_mod in Hn.
  destruct (Z.le_gt_cases n sr) as [Hle|Hgt]; [|lia]. exfalso.
  destruct (decide (n = sr)) as [->|Hne]; [rewrite Z.sub_diag, Zmod_0_l in Hn; lia|].
  rewrite <- (Z_mod_plus_full _ 1), Z.mod_small in Hn by lia. lia.
Qed.

(** Whatever the distance: the one that is not newer is older, or much newer. *)
Lemma newer_cases n m : gsn_is_newer (n mod 2 ^ 16) (m mod 2 ^ 16) = true -> (m < n \/ n + 2 ^ 15 <= m)%Z.
Proof.
  intros Hn%gsn_newer_spec. unfold wrapping_sub in Hn. rewrite <- Zminus_mod in Hn.
  pose proof (Z.div_mod (n - m) (2 ^ 16) ltac:(lia)). lia.
Qed.
Lemma not_newer_cases n m :
  gsn_is_newer (n mod 2 ^ 16) (m mod 2 ^ 16) = false -> (n mod 2 ^ 16 <> m mod 2 ^ 16)%Z -> (n < m \/ m + 2 ^ 15 <= n)%Z.
Proof.
  intros Hn Hne. destruct (decide (n < m \/ m + 2 ^ 15 <= n)%Z) as [|Ho]; [done|exfalso].
  assert (gsn_is_newer (n mod 2 ^ 16) (m mod 2 ^ 16) = true) as Ht; [|by rewrite Ht in Hn].
  apply gsn_newer_spec. unfold wrapping_sub. rewrite <- Zminus_mod, Z.mod_small by lia.
  assert (n <> m) by congruence. lia.
Qed.

(** ** The invariant of the two tasks *)

Definition superseded (log : list (Z * Z)) (iid n : Z) : Prop :=
  exists m, (iid, m) ∈ log /\ (n < m \/ m + 2 ^ 15 <= n)%Z.

(** The map holds the GSN of an event that no other event of the characteristic outdates. *)
Definition map_inv (log : list (Z * Z)) (emitted : gmap Z Z) : Prop :=
  forall iid, match emitted !! iid with
              | None => forall n, (iid, n) ∉ log
              | Some g => exists m, (m mod 2 ^ 16)%Z = g /\ (iid, m) ∈ log /\
                            forall n, (iid, n) ∈ log -> n = m \/ superseded log iid n
              end.

Record sys_inv (st : System) : Prop := {
  inv_gsn : (sy_serial st mod 2 ^ 16)%Z = sh_last_gsn (sy_shared st);
  inv_events : (sy_log st).*1 = ev_iid <$> sh_events (sy_shared st);
  inv_map : map_inv (sy_log st) (sh_emitted (sy_shared st));
  inv_repeats : repeats_excused (sy_log st);
  inv_bump g n : sy_channel st = Some (g, n) -> g = (n mod 2 ^ 16)%Z;
  inv_poll g n ts : sy_polling st = Some (g, n, ts) -> g = (n mod 2 ^ 16)%Z
}.

(** When the polled characteristics are distinct. *)
Record once_inv (st : System) : Prop := {
  inv_nodup : NoDup (sy_log st);
  inv_past : Forall (fun e => e.2 <= sy_serial st)%Z (sy_log st);
  inv_channel g n : sy_channel st = Some (g, n) -> (n <= sy_serial st)%Z /\ n ∉ (sy_log st).*2;
  inv_polling g n ts : sy_polling st = Some (g, n, ts) ->
    (n <= sy_serial st)%Z /\ NoDup (tg_iid <$> ts) /\ (forall t, t ∈ ts -> (tg_iid t, n) ∉ sy_log st) /\
    (forall g' n', sy_channel st = Some (g', n') -> (n < n')%Z)
}.

Lemma superseded_app log l iid n : superseded log iid n -> superseded (log ++ l) iid n.
Proof. intros (m & Hin & Hm). exists m. split; [apply elem_of_app; by left|done]. Qed.

(** The map and the log after an event. *)
Lemma emit_inv (log : list (Z * Z)) (em em' : gmap Z Z) iid n :
  map_inv log em -> repeats_excused log -> em !! iid <> Some (n mod 2 ^ 16)%Z ->
  em' = match em !! iid with
        | Some p => if gsn_is_newer (n mod 2 ^ 16) p then <[iid := (n mod 2 ^ 16)%Z]> em else em
        | None => <[iid := (n mod 2 ^ 16)%Z]> em
        end ->
  map_inv (log ++ [(iid, n)]) em' /\ repeats_excused (log ++ [(iid, n)]).
Proof.
  intros Hm Hr Hne ->. pose proof (Hm iid) as Hi. split; [intros j|].
  - assert (forall k, (j, k) ∈ log -> (j, k) ∈ log ++ [(iid, n)]) as Hsub by (intros; apply elem_of_app; by left).
    destruct (decide (j = iid)) as [->|Hj].
    2:{ assert (match em !! iid with Some p => if gsn_is_newer (n mod 2 ^ 16) p then <[iid := (n mod 2 ^ 16)%Z]> em else em
                | None => <[iid := (n mod 2 ^ 16)%Z]> em end !! j = em !! j) as -> by (repeat case_match; by rewrite ?lookup_insert_ne).
        assert (forall k, (j, k) ∈ log ++ [(iid, n)] -> (j, k) ∈ log) as Hjk.
        { intros k [?|[= ? _]%list_elem_of_singleton]%elem_of_app; done. }
        specialize (Hm j). destruct (em !! j) as [g|]; [|intros k Hk%Hjk; by apply (Hm k)].
        destruct Hm as (m & Hg & Hin & Hall). exists m. split; [done|]. split; [by apply Hsub|].
        intros k Hk%Hjk. destruct (Hall k Hk) as [|Hs]; [by left|right; by apply superseded_app]. }
    assert ((iid, n) ∈ log ++ [(iid, n)]) as Hself by (apply elem_of_app; right; by left).
    destruct (em !! iid) as [p|] eqn:Ep.
    + destruct Hi as (m & Hp & Hin & Hall). destruct (gsn_is_newer (n mod 2 ^ 16) p) eqn:En.
      * rewrite lookup_insert_eq. exists n. do 2 (split; [done|]).
        intros k [Hk|[= ->]%list_elem_of_singleton]%elem_of_app; [right|by left].
        destruct (Hall k Hk) as [->|Hs]; [|by apply superseded_app]. subst p. apply newer_cases in En. by exists n.
      * rewrite Ep. exists m. split; [done|]. split; [by apply Hsub|].
        intros k [Hk|[= ->]%list_elem_of_singleton]%elem_of_app.
        { destruct (Hall k Hk) as [|Hs]; [by left|right; by apply superseded_app]. }
        right. exists m. split; [by apply Hsub|]. subst p. apply not_newer_cases; [done|congruence].
    + rewrite lookup_insert_eq. exists n. do 2 (split; [done|]).
      intros k [Hk|[= ->]%list_elem_of_singleton]%elem_of_app; [by destruct (Hi k)|by left].
  - intros l1 j k l2 He Hin. destruct l2 as [|x l2' _] using rev_ind.
    + apply app_inj_tail in He as [<- [= <- <-]].
      destruct (em !! iid) as [p|]; [|by destruct (Hi n)]. destruct Hi as (m & Hp & _ & Hall).
      destruct (Hall n Hin) as [->|Hs]; [congruence|done].
    + rewrite app_comm_cons, app_assoc in He. apply app_inj_tail in He as [He _]. by apply (Hr l1 j k l2').
Qed.

(** Appending an event of serial number [n] to the log. *)
Lemma log_append_nodup (log : list (Z * Z)) (iid n : Z) : NoDup log -> (iid, n) ∉ log -> NoDup (log ++ [(iid, n)]).
Proof.
  intros Hn Hf. apply NoDup_app. split; [done|]. split; [|apply NoDup_singleton].
  intros x Hx ->%list_elem_of_singleton. done.
Qed.

Lemma past_fresh (log : list (Z * Z)) iid n m :
  Forall (fun e => (e.2 <= m)%Z) log -> (m < n)%Z -> ((iid, n) ∉ log) /\ n ∉ log.*2.
Proof.
  rewrite Forall_forall. intros Hp Hlt. split.
  - intros Hin. specialize (Hp _ Hin). simpl in Hp. lia.
  - intros (e & -> & Hin)%list_elem_of_fmap. specialize (Hp _ Hin). lia.
Qed.

Lemma sys_init_inv serial : sys_inv (sys_init serial).
Proof.
  split; cbn; try done.
  - intros iid. rewrite lookup_empty. intros n. apply not_elem_of_nil.
  - intros l1 iid n l2 He. by destruct l1.
Qed.

Lemma sys_init_once serial : once_inv (sys_init serial).
Proof. split; cbn; try done. by apply NoDup_nil_2. Qed.

Section invariant.
Context `{CL : CryptoLaws} (key : BroadcastKey) (device_id : bytes) (formats : gmap Z CharFormat)
  (targets : list Target).

(** An event of serial number [n] sent: the map, the log and the events stay in step. *)
Lemma emitting_inv sh sh' log iid n :
  (log.*1 = ev_iid <$> sh_events sh) -> map_inv log (sh_emitted sh) -> repeats_excused log ->
  emitting iid (n mod 2 ^ 16) sh sh' ->
  let log' := log ++ log_of n sh sh' in
  (log'.*1 = ev_iid <$> sh_events sh') /\ map_inv log' (sh_emitted sh') /\ repeats_excused log'.
Proof using.
  intros He Hm Hr Hx log'. unfold log', log_of, new_events.
  destruct Hx as [[-> ->]|(e & <- & -> & Hne & Hem)]; [by rewrite drop_all, app_nil_r|].
  rewrite drop_app_length, !fmap_app, He. split; [done|]. by apply (emit_inv log (sh_emitted sh)).
Qed.

Lemma sys_step_inv st st' : sys_step key device_id formats targets st st' -> sys_inv st -> sys_inv st'.
Proof using CL.
  intros Hstep Hinv.
  destruct Hstep as [raw n sh sh' sent ch po sr log Ha Hd sr'|sh g n sr log|sh ch g n t ts raw sr log sh'|sh ch g n sr log];
    destruct Hinv as [Ig Ie Im Ir Ib Ip]; cbn in *.
  - destruct (advert_step_spec key device_id formats raw sh sh' sent Ha) as [[-> ->]|(Hn & Hdec & Hcase)].
    { unfold sr', log_of, new_events. by rewrite drop_all, app_nil_r, Z.eqb_refl. }
    destruct (Hd _ Hdec) as [Hg _].
    assert (sr' = n) as ->.
    { unfold sr'. destruct (Z.eqb_spec (sh_last_gsn sh') (sh_last_gsn sh)) as [E|]; [|done].
      apply gsn_newer_spec in Hn. rewrite E, wrapping_sub_self in Hn. lia. }
    assert (exists iid, emitting iid (n mod 2 ^ 16) sh sh') as [iid Hx].
    { destruct Hcase as [(_ & ? & ?)|(_ & iid & Hx)]; [exists 0%Z; by left|exists iid; by rewrite <- Hg]. }
    destruct (emitting_inv sh sh' log iid n Ie Im Ir Hx) as (? & ? & ?). split; cbn; try done.
    intros g m Hc. destruct Hcase as [[-> _]|[-> _]]; [by simplify_eq|by apply Ib].
  - split; cbn; try done. intros g0 m ts [= <- <- <-]. by apply Ib.
  - pose proof (Ip g n (t :: ts) eq_refl) as Hg.
    assert (emitting (tg_iid t) (n mod 2 ^ 16) sh sh' /\ sh_last_gsn sh' = sh_last_gsn sh) as [Hx Hlast].
    { unfold sh', poll_target. destruct raw as [rv| |]; [|by split; [left|]..].
      destruct (decode_value (tg_format t) rv) as [v| |]; [|by split; [left|]..].
      split; [rewrite <- Hg; apply emit_emitting|apply emit_spec]. }
    destruct (emitting_inv sh sh' log (tg_iid t) n Ie Im Ir Hx) as (? & ? & ?). split; cbn; try done.
    + by rewrite Hlast.
    + intros g0 m ts0 [= <- <- <-]. done.
  - by split; cbn.
Qed.

(** An event of a serial number past all others. *)
Lemma once_advance sh sh' ch po sr n log iid g :
  once_inv {| sy_shared := sh; sy_channel := ch; sy_polling := po; sy_serial := sr; sy_log := log |} ->
  (sr < n)%Z -> emitting iid g sh sh' ->
  once_inv {| sy_shared := sh'; sy_channel := ch; sy_polling := po; sy_serial := n; sy_log := log ++ log_of n sh sh' |}.
Proof using.
  intros [In Ip Ic Io] Hlt Hx. cbn in *. destruct (past_fresh log iid n sr Ip Hlt) as [Hf _].
  assert (Forall (fun e => e.2 <= n)%Z log) as Hp' by (eapply Forall_impl; [exact Ip|intros e He; simpl in *; lia]).
  destruct (log_of_emitting n iid g sh sh' Hx) as [(-> & _)|(-> & _)].
  - rewrite app_nil_r. split; cbn; try done.
    + intros g0 m Hc. destruct (Ic g0 m Hc). split; [lia|done].
    + intros g0 m ts Hpo. destruct (Io g0 m ts Hpo) as (? & ? & ? & ?). split; [lia|done].
  - split; cbn.
    + by apply log_append_nodup.
    + apply Forall_app. split; [done|]. apply Forall_singleton. simpl. lia.
    + intros g0 m Hc. destruct (Ic g0 m Hc) as [Hle Hnin]. split; [lia|]. rewrite fmap_app, elem_of_app.
      intros [?|Hin]; [done|]. apply list_elem_of_singleton in Hin. simpl in Hin. lia.
    + intros g0 m ts Hpo. destruct (Io g0 m ts Hpo) as (Hle & Hnt & Hni & Hch). split; [lia|]. split; [done|].
      split; [|done]. intros t Ht. rewrite elem_of_app. intros [Hin|Hin]; [by apply (Hni t Ht)|].
      apply list_elem_of_singleton in Hin. injection Hin as _ ->. lia.
Qed.

(** A bump of a serial number past all others is handed to the poll task. *)
Lemma once_bump sh sh' ch po sr n log g :
  once_inv {| sy_shared := sh; sy_channel := ch; sy_polling := po; sy_serial := sr; sy_log := log |} -> (sr < n)%Z ->
  once_inv {| sy_shared := sh'; sy_channel := Some (g, n); sy_polling := po; sy_serial := n; sy_log := log |}.
Proof using.
  intros [In Ip Ic Io] Hlt. cbn in *. split; cbn; [done|..].
  - eapply Forall_impl; [exact Ip|intros e He; simpl in *; lia].
  - intros g0 m [= <- <-]. split; [lia|]. by apply (past_fresh log 0 n sr).
  - intros g0 m ts Hpo. destruct (Io g0 m ts Hpo) as (Hle & ? & ? & _). split; [lia|]. do 2 (split; [done|]).
    intros g' n' [= _ <-]. lia.
Qed.

Lemma sys_step_once st st' :
  NoDup (tg_iid <$> targets) -> sys_step key device_id formats targets st st' -> sys_inv st -> once_inv st -> once_inv st'.
Proof using CL.
  intros Htargets Hstep [Ig _ _ _ _ _] Honce.
  destruct Hstep as [raw n sh sh' sent ch po sr log Ha Hd sr'|sh g n sr log|sh ch g n t ts raw sr log sh'|sh ch g n sr log]; cbn in *.
  - destruct (advert_step_spec key device_id formats raw sh sh' sent Ha) as [[-> ->]|(Hn & Hdec & Hcase)].
    { unfold sr', log_of, new_events. by rewrite drop_all, app_nil_r, Z.eqb_refl. }
    destruct (Hd _ Hdec) as [Hg Hnear]. rewrite Hg, <- Ig in Hn. apply (newer_serial n sr Hnear) in Hn as Hlt.
    assert (sr' = n) as ->.
    { unfold sr'. rewrite Hg, <- Ig. destruct (Z.eqb_spec (n mod 2 ^ 16) (sr mod 2 ^ 16)) as [E|]; [|done].
      apply gsn_newer_spec in Hn. rewrite E, wrapping_sub_self in Hn. lia. }
    destruct Hcase as [(-> & Hev & Hem)|[-> [iid Hx]]].
    + unfold log_of, new_events. rewrite Hev, drop_all, app_nil_r. cbn. by apply (once_bump sh sh' ch po sr n).
    + by apply (once_advance sh sh' ch po sr n log iid (sh_last_gsn sh')).
  - destruct Honce as [In Ip Ic Io]. cbn in *. split; cbn; try done.
    intros g0 n0 ts [= <- <- <-]. destruct (Ic g n eq_refl) as [Hle Hni]. split; [done|]. split; [done|].
    split; [|done]. intros t _ Hin. apply Hni, list_elem_of_fmap. by exists (tg_iid t, n).
  - assert (emitting (tg_iid t) g sh sh') as Hx.
    { unfold sh', poll_target. destruct raw as [rv| |]; [|by left..].
      destruct (decode_value (tg_format t) rv) as [v| |]; [apply emit_emitting|by left..]. }
    destruct Honce as [In Ip Ic Io]. cbn in *. destruct (Io g n (t :: ts) eq_refl) as (Hle & Hnt & Hni & Hch).
    rewrite fmap_cons in Hnt. apply NoDup_cons in Hnt as [Ht Hnt].
    pose proof (Hni t (list_elem_of_here _ _)) as Hf.
    destruct (log_of_emitting n (tg_iid t) g sh sh' Hx) as [(-> & _)|(-> & _)].
    { rewrite app_nil_r. split; cbn; try done.
      intros g0 n0 ts0 [= <- <- <-]. split; [done|]. split; [done|]. split; [|done]. intros t0 Ht0. apply Hni. by right. }
    split; cbn.
    + by apply log_append_nodup.
    + apply Forall_app. split; [done|]. by apply Forall_singleton.
    + intros g' n' Hc. destruct (Ic g' n' Hc) as [Hle' Hni']. split; [done|]. rewrite fmap_app, elem_of_app.
      intros [?|Hin]; [done|]. apply list_elem_of_singleton in Hin. simpl in Hin. specialize (Hch g' n' Hc). lia.
    + intros g0 n0 ts0 [= <- <- <-]. split; [done|]. split; [done|]. split; [|done].
      intros t0 Ht0. rewrite elem_of_app. intros [Hin|Hin]; [by apply (Hni t0); [right|]|].
      apply list_elem_of_singleton in Hin. injection Hin as Heq. apply Ht. rewrite <- Heq.
      apply list_elem_of_fmap. by exists t0.
  - destruct Honce as [In Ip Ic Io]. cbn in *. by split; cbn.
Qed.

Lemma sys_reachable_inv serial st :
  rtc (sys_step key device_id formats targets) (sys_init serial) st ->
  sys_inv st /\ (NoDup (tg_iid <$> targets) -> once_inv st).
Proof using CL.
  intros Hr. pose proof (sys_init_inv serial) as Hi. pose proof (sys_init_once serial) as Ho.
  assert (sys_inv (sys_init serial) /\ (NoDup (tg_iid <$> targets) -> once_inv (sys_init serial))) as Hs by done.
  clear Hi Ho. induction Hr as [|x y z Hstep _ IH]; [done|]. destruct Hs as [Hi Ho]. apply IH.
  split; [by eapply sys_step_inv|]. intros Ht. by eapply sys_step_once; eauto.
Qed.
End invariant.

(** * Theorems *)

(** C16: However advertisements, broadcasts and catch-up polls interleave, and however late
    or often an advertisement sent fewer than 32768 changes before or after the last one is
    heard, no change is reported twice: when the polled characteristics are distinct, the
    events are for distinct pairs of instance id and number of the change.  For any list
    of polled characteristics, a change is reported again only after a newer change of the
    same characteristic, or one 32768 or more older, was reported in between; and the last
    GSN is always the one of the newest advertisement. *)
Theorem ble_events_once `{CryptoLaws} key device_id formats targets serial st :
  rtc (sys_step key device_id formats targets) (sys_init serial) st ->
  (NoDup (tg_iid <$> targets) -> NoDup (sy_log st)) /\
  repeats_excused (sy_log st) /\
  (sy_log st).*1 = ev_iid <$> sh_events (sy_shared st) /\
  (sy_serial st mod 2 ^ 16)%Z = sh_last_gsn (sy_shared st).
Proof.
  intros Hr. destruct (sys_reachable_inv key device_id formats targets serial st Hr) as [[Ig Ie _ Ir _ _] Ho].
  split; [intros Ht; by destruct (Ho Ht)|done].
Qed.

(** A bump from 5 to 6 polled for characteristic 9 twice, and the older advertisement heard again. *)
Definition demo_target : Target := {| tg_aid := 1; tg_iid := 9; tg_format := FBool |}.
Definition demo_id : bytes := [x01; x02; x03; x04; x05; x06].
Definition demo_advert (g : Byte.byte) : bytes := [x06; x00; x00] ++ demo_id ++ [x00; x00; g; x00].
Definition demo_end : System :=
  {| sy_shared := {| sh_last_gsn := 6; sh_emitted := {[9%Z := 6%Z]};
                     sh_events := [{| ev_aid := 1; ev_iid := 9; ev_value := VBool true |}] |};
     sy_channel := None; sy_polling := Some (6%Z, 6%Z, []); sy_serial := 6; sy_log := [(9, 6)%Z] |}.

Lemma demo_declares g n :
  advert_parse (demo_advert g) = Ok (Some (Regular demo_id n true)) ->
  forall m, declares (H := toy_crypto) {| bk := [] |} demo_id (demo_advert g) m -> m = n.
Proof. intros Hp m [k paired Hk|pt Hk _]; rewrite Hp in Hk; by simplify_eq. Qed.

Lemma demo_reached :
  rtc (sys_step (H := toy_crypto) {| bk := [] |} demo_id ∅ [demo_target; demo_target]) (sys_init 5) demo_end.
Proof.
  eapply rtc_l; [eapply (step_advert _ _ _ _ (demo_advert x06) 6 _ _ (Some 6%Z)); [by vm_compute|]|].
  { by intros g ->%(demo_declares x06 6). }
  eapply rtc_l; [apply step_poll_begin|].
  eapply rtc_l; [apply (step_poll_target _ _ _ _ _ _ _ _ _ _ (Ok [x01]))|].
  eapply rtc_l; [apply (step_poll_target _ _ _ _ _ _ _ _ _ _ (Ok [x00]))|].
  eapply rtc_l; [eapply (step_advert _ _ _ _ (demo_advert x05) 5 _ _ None); [by vm_compute|]|].
  { by intros g ->%(demo_declares x05 5). }
  apply rtc_refl.
Qed.

Lemma ble_events_once_witness :
  repeats_excused (sy_log demo_end) /\ (sy_log demo_end).*1 = ev_iid <$> sh_events (sy_shared demo_end) /\
  (sy_serial demo_end mod 2 ^ 16)%Z = sh_last_gsn (sy_shared demo_end).
Proof.
  apply (ble_events_once (H := toy_crypto_laws) {| bk := [] |} demo_id ∅ [demo_target; demo_target] 5 demo_end).
  exact demo_reached.
Defined.

(** C28: A broadcast advertisement takes effect exactly when it is authentic and new.  No
    manufacturer data makes the advert task panic.  An encrypted notification of the device
    changes its state only for a payload sealed under the broadcast key, the device's id
    and a GSN one to a hundred ahead of the last, and then records that GSN and reports
    the value at most once; and every such payload that opens under no other GSN is
    accepted. *)
Theorem ble_broadcast_exact `{CryptoLaws} key device_id formats sh mfg :
  let ahead pt := (1 <= wrapping_sub 16 (pt_gsn pt) (sh_last_gsn sh) <= 100)%Z in
  returns (advert_step key device_id formats mfg sh) /\
  forall payload, advert_parse mfg = Ok (Some (EncryptedNotification device_id payload)) ->
  exists sh', advert_step key device_id formats mfg sh = Ok (sh', None) /\
    (sh' = sh \/ exists pt, payload = broadcast_seal key (pt_gsn pt) pt device_id /\ 12 <= length pt /\
       ahead pt /\ sh' = accepted formats pt sh) /\
    (forall pt, payload = broadcast_seal key (pt_gsn pt) pt device_id -> 12 <= length pt -> ahead pt ->
       (forall g, g <> pt_gsn pt -> is_ok (broadcast_open key g payload device_id) = false) ->
       sh' = accepted formats pt sh).
Proof.
  intros ahead. split; [apply advert_step_returns|]. intros payload Hp.
  unfold advert_step. rewrite Hp. cbn [mbind result_bind]. rewrite bool_decide_true by done. cbn [negb].
  destruct (try_candidates_spec key device_id formats (sh_last_gsn sh) payload (candidates (sh_last_gsn sh)) sh)
    as (sh' & Hr & Hcase).
  rewrite Hr. exists sh'. split; [done|]. split.
  - destruct Hcase as [->|(pt & Hin & Hn & Hl & Hpay & ->)]; [by left|right]. exists pt. split; [done|].
    split; [done|]. split; [|done]. apply candidates_window; [by apply pt_gsn_range|done].
  - intros pt Hpay Hl Ha Honly. subst payload.
    apply candidates_window in Ha as [Hin Hn]; [|by apply pt_gsn_range].
    rewrite try_candidates_complete in Hr by done. by simplify_eq.
Qed.

Definition demo_broadcast_pt : bytes := [x07; x00; x09; x00; x01] ++ replicate 7 x00.
Definition demo_broadcast : bytes := broadcast_seal (C := toy_crypto) {| bk := [] |} 7 demo_broadcast_pt demo_id.

Lemma ble_broadcast_exact_witness :
  exists sh', advert_step (H := toy_crypto) {| bk := [] |} demo_id {[9%Z := FBool]} ([x11; x00] ++ demo_id ++ demo_broadcast)
      (sy_shared (sys_init 5)) = Ok (sh', None) /\
    sh' = accepted {[9%Z := FBool]} demo_broadcast_pt (sy_shared (sys_init 5)).
Proof.
  destruct (ble_broadcast_exact (H := toy_crypto_laws) {| bk := [] |} demo_id {[9%Z := FBool]} (sy_shared (sys_init 5))
              ([x11; x00] ++ demo_id ++ demo_broadcast)) as [_ Hall].
  destruct (Hall demo_broadcast) as (sh' & Hs & _ & _).
  - by vm_compute.
  - exists sh'. split; [exact Hs|]. vm_compute in Hs. injection Hs as <-. by vm_compute.
Defined.
