(* ===== verification/BleLink.v ===== *)
(** * The BLE operations against an accessory that may drop the link

    [Device] is the accessory side of HAP-BLE at the level of GATT writes and reads: it
    reassembles request fragments, answers Pair Verify in the clear with the reference
    accessory's handlers and characteristic requests through the session, and forgets
    session and buffers when the link drops.  [BleLink] is what a [Gatt] connection
    promises about it: an operation may lose the link any number of times, after which
    it is either performed on the fresh connection (as [BluestConnection] does) or
    fails.  The theorem shows that reads and writes through [read_char_raw] and
    [write_char_raw] refine a key-value store, and fail only when the link was lost. *)

From S2P Require Import Prelude Text Tlv8 Crypto Srp PairSetup PairVerify DutPairing Model BlePdu BleAccessory.

(** ** The accessory *)

Record Device := {
  d_gen : Z;                              (* connections so far *)
  d_values : gmap Z bytes;                (* characteristic values by instance id *)
  d_session : option BleSession;          (* its end of the session, as the controller counts *)
  d_verify : option VerifyInProgress;
  d_rx : list bytes;                      (* fragments of the request in progress *)
  d_tx : list bytes                       (* fragments of the response still to be read *)
}.

Definition set_io (rx tx : list bytes) (d : Device) : Device :=
  {| d_gen := d_gen d; d_values := d_values d; d_session := d_session d; d_verify := d_verify d;
     d_rx := rx; d_tx := tx |}.
Definition dset_session (s : option BleSession) (d : Device) : Device :=
  {| d_gen := d_gen d; d_values := d_values d; d_session := s; d_verify := d_verify d;
     d_rx := d_rx d; d_tx := d_tx d |}.
Definition dset_verify (v : option VerifyInProgress) (d : Device) : Device :=
  {| d_gen := d_gen d; d_values := d_values d; d_session := d_session d; d_verify := v;
     d_rx := d_rx d; d_tx := d_tx d |}.
Definition dset_values (vs : gmap Z bytes) (d : Device) : Device :=
  {| d_gen := d_gen d; d_values := vs; d_session := d_session d; d_verify := d_verify d;
     d_rx := d_rx d; d_tx := d_tx d |}.

(** A lost connection: only the values survive. *)
Definition dev_drop (d : Device) : Device :=
  {| d_gen := d_gen d + 1; d_values := d_values d; d_session := None; d_verify := None;
     d_rx := []; d_tx := [] |}.
Definition dev_drops (k : nat) (d : Device) : Device := Nat.iter k dev_drop d.

(** The accessory's identity, the controller it is paired with, the secrets its
    handshakes draw and how it splits a response. *)
Class Peripheral := {
  pr_keypair : ControllerKeypair;
  pr_id : bytes;
  pr_controller : ControllerKeypair;
  pr_secret : Z -> bytes;
  pr_verify_char : list Z;
  pr_split : bytes -> list bytes
}.

(** A response split in fragments: framed as the controller expects it. *)
Class PeripheralLaws `{Peripheral} := {
  pr_id_ok : length pr_id <= 255;
  pr_controller_ok : length (kp_id pr_controller) <= 255;
  pr_split_framed resp : declared_total resp = Ok (length resp) -> (Z.of_nat (length resp) <= 70000)%Z ->
    exists first conts, pr_split resp = first :: conts /\ well_framed first conts /\
      first ++ mjoin (drop 2 <$> conts) = resp
}.

Section device.
Context `{C : Crypto} `{Peripheral}.

(** A response PDU. *)
Definition reply (tid : byte) (status : Z) (body : bytes) : bytes :=
  [x02; tid; Zbyte status] ++
  (if bool_decide (body = []) then [] else le_bytes 2 (Z.of_nat (length body)) ++ body).

(** Whether the bytes received so far are a whole request PDU. *)
Definition declared_len (pdu : bytes) : nat := Z.to_nat (le_Z (take 2 (drop 5 pdu))).
Definition complete (pdu : bytes) : bool :=
  (length pdu =? 5) || ((7 <=? length pdu) && (7 + declared_len pdu <=? length pdu)).

Definition pdu_tid (pdu : bytes) : byte := default x00 (pdu !! 2).
Definition pdu_iid (pdu : bytes) : Z := le_Z (take 2 (drop 3 pdu)).

(** A Pair Verify message, in the clear. *)
Definition dev_verify (pdu : bytes) (d : Device) : bytes * Device :=
  let tid := pdu_tid pdu in
  let refuse := (reply tid 6 [], dset_verify None d) in
  match value_param (drop 7 pdu) with
  | Ok tlv =>
      match handle_m1 (pr_secret (d_gen d)) pr_keypair pr_id tlv with
      | Ok (m2, progress) => (reply tid 0 (push [] PARAM_VALUE m2), dset_verify (Some progress) d)
      | _ =>
          match d_verify d with
          | Some progress =>
              match handle_m3 progress (kp_id pr_controller) (ltpk pr_controller) tlv with
              | Ok (m4, Some s) =>
                  (reply tid 0 (push [] PARAM_VALUE m4),
                   dset_verify None (dset_session
                     (Some (ble_session_new {| sk_read_key := as_read_key s; sk_write_key := as_write_key s |})) d))
              | _ => refuse
              end
          | None => refuse
          end
      end
  | _ => refuse
  end.

(** A characteristic read or write, inside the session. *)
Definition dev_char (pdu : bytes) (d : Device) : bytes * Device :=
  let tid := pdu_tid pdu in
  let iid := pdu_iid pdu in
  match pdu !! 1, d_values d !! iid with
  | Some x03, Some v => (reply tid 0 (push [] PARAM_VALUE v), d)
  | Some x02, Some _ =>
      match value_param (drop 7 pdu) with
      | Ok v => (reply tid 0 [], dset_values (<[iid := v]> (d_values d)) d)
      | _ => (reply tid 6 [], d)
      end
  | _, None => (reply tid 4 [], d)
  | _, _ => (reply tid 1 [], d)
  end.

(** One fragment: a first fragment starts a request, a continuation extends the request
    in progress; a whole request is handled and its response queued. *)
Definition dev_accept (h : bytes -> Device -> bytes * Device) (frag : bytes) (d : Device) : Device :=
  let rx := if bool_decide (head frag = Some x80)
            then match d_rx d with [] => [] | rx => rx ++ [frag] end
            else [frag] in
  match reassemble rx with
  | Ok pdu =>
      if complete pdu then let '(resp, d) := h pdu d in set_io [] (pr_split resp) d
      else set_io rx [] d
  | _ => set_io [] [] d
  end.

Definition bump_send (s : BleSession) : BleSession :=
  {| bs_keys := bs_keys s; send_counter := send_counter s + 1; recv_counter := recv_counter s |}.
Definition bump_recv (s : BleSession) : BleSession :=
  {| bs_keys := bs_keys s; send_counter := send_counter s; recv_counter := recv_counter s + 1 |}.

Definition dev_write (uuid : list Z) (data : bytes) (d : Device) : Device :=
  if bool_decide (uuid = pr_verify_char) then dev_accept dev_verify data d
  else
    match d_session d with
    | None => d
    | Some s =>
        match chacha20poly1305_open (sk_write_key (bs_keys s)) (ble_nonce (send_counter s)) [] data with
        | Ok frag => dev_accept dev_char frag (dset_session (Some (bump_send s)) d)
        | _ => set_io [] [] (dset_session None d)
        end
    end.

(** Without a response to give, the value read is empty. *)
Definition dev_read (uuid : list Z) (d : Device) : bytes * Device :=
  if bool_decide (uuid = pr_verify_char) then
    match d_tx d with
    | f :: fs => (f, set_io (d_rx d) fs d)
    | [] => ([], d)
    end
  else
    match d_session d, d_tx d with
    | Some s, f :: fs =>
        match chacha20poly1305_seal (sk_read_key (bs_keys s)) (ble_nonce (recv_counter s)) [] f with
        | Ok c => (c, set_io (d_rx d) fs (dset_session (Some (bump_recv s)) d))
        | _ => ([], d)
        end
    | _, _ => ([], d)
    end.
End device.

(** ** The link *)

Class BleLink `{Crypto} `{Peripheral} (W : Type) `{Gatt W} := {
  dev : W -> Device;
  link_write uuid data w : exists k,
    ((gatt_write uuid data w).1 = Ok () /\
       dev (gatt_write uuid data w).2 = dev_write uuid data (dev_drops k (dev w))) \/
    (exists e, (gatt_write uuid data w).1 = Err e /\ 0 < k /\
       dev (gatt_write uuid data w).2 = dev_drops k (dev w));
  link_read uuid w : exists k,
    ((gatt_read uuid w).1 = Ok (dev_read uuid (dev_drops k (dev w))).1 /\
       dev (gatt_read uuid w).2 = (dev_read uuid (dev_drops k (dev w))).2) \/
    (exists e, (gatt_read uuid w).1 = Err e /\ 0 < k /\
       dev (gatt_read uuid w).2 = dev_drops k (dev w));
  link_gen w : gatt_generation w = (d_gen (dev w), w)
}.

(** ** The store the operations refine *)

Inductive BleOp :=
| OpRead (uuid : list Z) (iid : Z)
| OpWrite (uuid : list Z) (iid : Z) (value : bytes).

(** [None] is a failed operation.  A write that fails may or may not have happened. *)
Inductive spec_op : BleOp -> gmap Z bytes -> option bytes -> gmap Z bytes -> Prop :=
| spec_read uuid iid store v : store !! iid = Some v -> spec_op (OpRead uuid iid) store (Some v) store
| spec_write uuid iid v store : spec_op (OpWrite uuid iid v) store (Some []) (<[iid := v]> store)
| spec_read_fails uuid iid store : spec_op (OpRead uuid iid) store None store
| spec_write_fails uuid iid v store : spec_op (OpWrite uuid iid v) store None store
| spec_write_unseen uuid iid v store : spec_op (OpWrite uuid iid v) store None (<[iid := v]> store).

Inductive spec_ops : list BleOp -> gmap Z bytes -> list (option bytes) -> gmap Z bytes -> Prop :=
| spec_ops_nil store : spec_ops [] store [] store
| spec_ops_cons op ops store r store1 rs store2 :
    spec_op op store r store1 -> spec_ops ops store1 rs store2 -> spec_ops (op :: ops) store (r :: rs) store2.

Section run.
Context `{Crypto} `{Gatt W} `{Build}.

(** [secrets] are the X25519 secrets the operation's re-verifications draw. *)
Definition run_op (secrets : nat -> bytes) (reviver : Reviver) (frag_size : nat) (op : BleOp)
    : stateful (Secure * W) BleError bytes :=
  match op with
  | OpRead uuid iid => read_char_raw secrets reviver uuid iid frag_size
  | OpWrite uuid iid v => _ ← write_char_raw secrets reviver uuid iid v frag_size; mret []
  end.

(** A sequence of operations; errors are reported and the next operation goes on. *)
Fixpoint run_ops (secrets : nat -> nat -> bytes) (reviver : Reviver) (frag_size : nat) (k : nat)
    (ops : list BleOp) : stateful (Secure * W) BleError (list (option bytes)) :=
  match ops with
  | [] => mret []
  | op :: ops' =>
      r ← attempt (run_op (secrets k) reviver frag_size op);
      rs ← run_ops secrets reviver frag_size (S k) ops';
      mret ((match r with inl v => Some v | inr _ => None end) :: rs)
  end.
End run.

(** * Lemmas *)

(** ** Requests and their fragments *)

(** A request PDU as [ble_encode_request] lays it out. *)
Definition request_pdu (pdu : bytes) : Prop :=
  head pdu = Some x00 /\ (length pdu = 5 \/ (7 <= length pdu /\ 7 + declared_len pdu = length pdu)).

Lemma encode_request_pdu op tid iid body :
  small_body body ->
  let pdu := ble_encode_request op tid iid body in
  request_pdu pdu /\ pdu_tid pdu = Zbyte tid /\ pdu !! 1 = Some (Zbyte (ble_op_u8 op)) /\
  pdu_iid pdu = le_Z (le_bytes 2 iid) /\ drop 7 pdu = body.
Proof.
  intros Hb pdu. destruct (sat_u16_small body Hb) as [Hu Hl]. destruct (le_Z_u16 _ Hu) as (l0 & l1 & Hlb & Hlz).
  unfold pdu, ble_encode_request. case_bool_decide as He.
  { subst body. split; [split; [done|by left]|done]. }
  rewrite Hlb. split; [|done]. split; [done|]. right.
  change (declared_len _) with (Z.to_nat (le_Z [l0; l1])). rewrite Hlz, Hl. cbn. lia.
Qed.

Lemma complete_request pdu : request_pdu pdu -> complete pdu = true.
Proof.
  intros [_ [Hl|[Hl Hd]]]; unfold complete.
  - by rewrite Hl.
  - rewrite Hd, !(proj2 (Nat.leb_le _ _)) by lia. by rewrite orb_true_r.
Qed.

(** A proper prefix that holds the header is not a whole request. *)
Lemma incomplete_prefix pdu n :
  request_pdu pdu -> 7 <= n < length pdu -> complete (take n pdu) = false.
Proof.
  intros [_ [Hl|[Hl Hd]]] Hn; [lia|]. unfold complete.
  assert (declared_len (take n pdu) = declared_len pdu) as ->.
  { unfold declared_len. by rewrite skipn_firstn_comm, take_take, Nat.min_l by lia. }
  rewrite length_take, Nat.min_l by lia. rewrite (proj2 (Nat.eqb_neq _ _)) by lia.
  rewrite (proj2 (Nat.leb_gt (7 + _) _)) by lia. by rewrite andb_false_r.
Qed.

Section accepting.
Context `{Peripheral}.
Implicit Types (h : bytes -> Device -> bytes * Device).

(** The first fragments of a request, reassembled. *)
Lemma fragments_prefix pdu n i :
  request_pdu pdu -> 7 <= n -> 0 < i < length (fragments_of pdu n) ->
  exists q, reassemble (take i (fragments_of pdu n)) = Ok q /\ complete q = false.
Proof.
  intros Hp Hn Hi. unfold fragments_of in *. rewrite Nat.max_l in * by lia.
  destruct (Nat.leb_spec (length pdu) n) as [|Hlt]; [simpl in Hi; lia|].
  destruct i as [|i]; [lia|]. cbn [take length] in *. rewrite length_fmap in Hi.
  set (cs := chunks (n - 2) (drop n pdu)) in *.
  assert (Forall (fun f => 0 < length f) cs) as Hcs.
  { apply Forall_forall. intros c Hc. apply chunks_length_le in Hc; lia. }
  assert (mjoin cs = mjoin (take i cs) ++ mjoin (drop i cs)) as Hj by (by rewrite <- join_app, take_drop).
  exists (take (n + length (mjoin (take i cs))) pdu). split.
  - rewrite reassemble_spec.
    2:{ apply Forall_take, Forall_fmap, Forall_forall. intros c _. unfold cont_frag. simpl. lia. }
    f_equal. rewrite <- fmap_take, <- list_fmap_compose, (list_fmap_ext _ id), list_fmap_id by done.
    rewrite <- take_take_drop. f_equal.
    rewrite <- (chunks_concat (n - 2) ltac:(lia) (drop n pdu)). fold cs.
    by rewrite Hj, take_app_length.
  - apply incomplete_prefix; [done|]. split; [lia|].
    assert (length (drop n pdu) = length (mjoin cs)) as Hl
      by (unfold cs; by rewrite chunks_concat by lia).
    rewrite Hj, length_app, length_drop in Hl.
    assert (0 < length (mjoin (drop i cs))) as Hd; [|lia].
    destruct (drop i cs) as [|c rest] eqn:E.
    { apply (f_equal length) in E. rewrite length_drop in E. simpl in E. lia. }
    assert (0 < length c).
    { rewrite Forall_forall in Hcs. apply Hcs. rewrite <- (take_drop i cs), E. apply elem_of_app. by right; left. }
    cbn [mjoin list_join]. rewrite length_app. lia.
Qed.

Lemma fragment_head pdu n i f :
  request_pdu pdu -> 7 <= n -> fragments_of pdu n !! i = Some f -> head f = Some x80 <-> i <> 0.
Proof.
  intros [Hh _] Hn Hi. unfold fragments_of in Hi. rewrite Nat.max_l in Hi by lia.
  destruct pdu as [|b pdu]; [done|]. injection Hh as ->.
  destruct (length (x00 :: pdu) <=? n).
  - destruct i as [|i]; [|done]. simplify_eq/=. split; [done|lia].
  - destruct i as [|i].
    + destruct n; [lia|]. cbn in Hi. simplify_eq/=. split; [done|lia].
    + match type of Hi with (_ :: ?l) !! S ?j = _ => change (l !! j = Some f) in Hi end.
      rewrite list_lookup_fmap in Hi. apply fmap_Some in Hi as (c & _ & ->). split; [lia|done].
Qed.

(** A fragment in sequence: the request goes on, and is handled with the last one. *)
Lemma accept_fragment h pdu n i f d :
  request_pdu pdu -> 7 <= n -> fragments_of pdu n !! i = Some f ->
  (i <> 0 -> d_rx d = take i (fragments_of pdu n)) ->
  dev_accept h f d =
    if S i =? length (fragments_of pdu n)
    then let '(resp, d) := h pdu d in set_io [] (pr_split resp) d
    else set_io (take (S i) (fragments_of pdu n)) [] d.
Proof.
  intros Hp Hn Hi Hrx. pose proof (fragment_head pdu n i f Hp Hn Hi) as Hh.
  pose proof (lookup_lt_Some _ _ _ Hi) as Hlt.
  assert ((if bool_decide (head f = Some x80) then match d_rx d with [] => [] | rx => rx ++ [f] end else [f]) =
          take (S i) (fragments_of pdu n)) as Hrx'.
  { rewrite (take_S_r _ _ f) by done. case_bool_decide as Hb.
    - rewrite Hrx by (by apply Hh). destruct (take i (fragments_of pdu n)) eqn:E; [|done].
      apply (f_equal length) in E. rewrite length_take in E. simpl in E. apply Hh in Hb. lia.
    - assert (i = 0) as -> by (destruct i; [done|]; destruct Hb; by apply Hh). done. }
  unfold dev_accept. rewrite Hrx'. destruct (Nat.eqb_spec (S i) (length (fragments_of pdu n))) as [He|He].
  - rewrite He, firstn_all, reassemble_fragments, complete_request by done. done.
  - destruct (fragments_prefix pdu n (S i)) as (q & Hq & Hc); [done..|lia|]. by rewrite Hq, Hc.
Qed.

(** A continuation without a request is ignored. *)
Lemma accept_ignored h pdu n i f d :
  request_pdu pdu -> 7 <= n -> fragments_of pdu n !! i = Some f -> i <> 0 -> d_rx d = [] ->
  dev_accept h f d = set_io [] [] d.
Proof.
  intros Hp Hn Hi H0 Hrx. unfold dev_accept.
  rewrite bool_decide_true by (by apply (fragment_head pdu n i f)). by rewrite Hrx.
Qed.
End accepting.

(** ** Lost connections *)

Lemma dev_drops_fields k d :
  d_gen (dev_drops k d) = (d_gen d + Z.of_nat k)%Z /\ d_values (dev_drops k d) = d_values d /\
  (0 < k -> d_session (dev_drops k d) = None /\ d_verify (dev_drops k d) = None /\
            d_rx (dev_drops k d) = [] /\ d_tx (dev_drops k d) = []).
Proof.
  induction k as [|k (Hg & Hv & _)]; [split; [simpl; lia|]; split; [done|lia]|].
  unfold dev_drops in *. cbn [Nat.iter nat_rect]. unfold dev_drop at 1 3 5 7 9 11.
  cbn [d_gen d_values d_session d_verify d_rx d_tx]. split; [|done]. rewrite Nat2Z.inj_succ. 
  fold (Nat.iter k dev_drop d) in *. lia.
Qed.

Section link.
Context `{BL : BleLink} {CL : CryptoLaws _} {PL : PeripheralLaws} {BD : Build}.

(** The link was lost since generation [g]; the values satisfy [V]. *)
Definition lost_dev (g : Z) (V : gmap Z bytes -> Prop) (d : Device) : Prop :=
  (g < d_gen d)%Z /\ d_session d = None /\ V (d_values d).
Definition lost (g : Z) (V : gmap Z bytes -> Prop) (w : W) : Prop := lost_dev g V (dev w).

(** Too short for a tag, an empty fragment never opens. *)
Lemma ble_open_empty s : exists e, ble_open [] s = (Err e, s).
Proof using CL.
  unfold ble_open, chacha20poly1305_open, decrypt.
  destruct (aead_open (sk_read_key (bs_keys s)) (ble_nonce (recv_counter s)) [] []) as [m|] eqn:E.
  - apply aead_seal_open, aead_seal_length in E. simpl in E. lia.
  - by eexists.
Qed.

(** *** A secured request *)

Section secure.
Context (uuid : list Z) (Huuid : uuid <> pr_verify_char).
Context (pdu : bytes) (n : nat) (Hpdu : request_pdu pdu) (Hn : 7 <= n).
Context (g : Z) (vals vals' : gmap Z bytes) (resp : bytes).
Context (Hh : forall d, d_values d = vals -> dev_char pdu d = (resp, dset_values vals' d)).
Context (c0 r0 : Z) (Hroom : (c0 + Z.of_nat (length (fragments_of pdu n)) < 2 ^ 64)%Z)
  (Hroom' : (r0 + Z.of_nat (length (pr_split resp)) < 2 ^ 64)%Z).

Let frags := fragments_of pdu n.
Let V (v : gmap Z bytes) : Prop := v = vals \/ v = vals'.

(** [i] fragments written: the accessory holds them, or has handled the request, or the
    link is lost. *)
Definition sec_phase (i : nat) (sw : BleSession * W) : Prop :=
  send_counter sw.1 = (c0 + Z.of_nat i)%Z /\ recv_counter sw.1 = r0 /\
  ((d_session (dev sw.2) = Some sw.1 /\ d_gen (dev sw.2) = g /\
    if i =? length frags
    then d_values (dev sw.2) = vals' /\ d_rx (dev sw.2) = [] /\ d_tx (dev sw.2) = pr_split resp
    else d_values (dev sw.2) = vals /\ (i <> 0 -> d_rx (dev sw.2) = take i frags)) \/
   lost g V sw.2).

Definition sec_lost (sw : BleSession * W) : Prop := lost g V sw.2.

Lemma lost_drops w k :
  (d_gen (dev w) = g /\ V (d_values (dev w)) /\ 0 < k) \/ lost g V w ->
  lost_dev g V (dev_drops k (dev w)).
Proof.
  destruct (dev_drops_fields k (dev w)) as (Hg & Hv & Hk). unfold lost_dev. rewrite Hg, Hv.
  intros [(? & HV & Hpos)|(Hlt & Hs & HV)].
  - destruct (Hk Hpos) as (? & _). split; [lia|]. done.
  - split; [lia|]. split; [|done]. destruct k as [|k]; [done|]. apply Hk. lia.
Qed.

Lemma fragments_bound i f :
  frags !! i = Some f -> (Z.of_nat (length pdu) < 2 ^ 31)%Z -> (Z.of_nat (length f) < 2 ^ 32)%Z.
Proof.
  intros Hi Hl. unfold frags, fragments_of in Hi. rewrite Nat.max_l in Hi by lia.
  destruct (length pdu <=? n).
  - destruct i; simplify_eq/=. lia.
  - destruct i as [|i].
    + cbn in Hi. simplify_eq. rewrite length_take. lia.
    + match type of Hi with (_ :: ?l) !! S ?j = _ => change (l !! j = Some f) in Hi end.
      rewrite list_lookup_fmap in Hi. apply fmap_Some in Hi as (c & Hc & ->).
      apply list_elem_of_lookup_2 in Hc.
      assert (length c <= length (mjoin (chunks (n - 2) (drop n pdu)))) as Hlc.
      { clear -Hc. induction (chunks (n - 2) (drop n pdu)) as [|x l IH]; [by apply elem_of_nil in Hc|].
        cbn [mjoin list_join]. rewrite length_app. apply elem_of_cons in Hc as [->|Hc]; [lia|].
        etransitivity; [exact (IH Hc)|apply Nat.le_add_l]. }
      rewrite chunks_concat, length_drop in Hlc by lia. unfold cont_frag. simpl length. lia.
Qed.

Lemma write_sealed_triple i f :
  (Z.of_nat (length pdu) < 2 ^ 31)%Z -> frags !! i = Some f ->
  triple (sec_phase i) (write_sealed uuid f) (fun _ => sec_phase (S i)) (fun _ => sec_lost).
Proof using All.
  intros Hlen Hi [s w] (Hctr & Hrec & Hst). cbn [fst snd] in *. pose proof (lookup_lt_Some _ _ _ Hi) as Hlt.
  destruct (seal_open (sk_write_key (bs_keys s)) (ble_nonce (send_counter s)) f (fragments_bound i f Hi Hlen))
    as (ct & Hs & Ho & _).
  assert (ble_seal f s = (Ok ct, bump_send s)) as Hseal.
  { unfold ble_seal. rewrite Hs. cbn [map_err mbind result_bind].
    by rewrite add_u_ok by (fold frags in Hroom; lia). }
  unfold write_sealed, on_ble_session, on_gatt. run. cbn [fst snd]. rewrite Hseal. cbn [fst snd].
  destruct (gatt_write uuid ct w) as [r w'] eqn:Ew.
  destruct (link_write uuid ct w) as [k Hw]. rewrite Ew in Hw. cbn [fst snd] in Hw.
  assert (0 < k \/ lost g V w -> lost_dev g V (dev_drops k (dev w))) as Hdr.
  { intros Hor. apply (lost_drops w). destruct Hst as [(Hse & Hg & Hif)|Hl]; [|by right].
    destruct Hor as [Hk|Hl]; [|by right]. left. split; [done|]. split; [|done].
    rewrite (proj2 (Nat.eqb_neq i (length frags))) in Hif by lia. left. apply Hif. }
  destruct Hw as [[-> Hd]|(e & -> & Hk & Hd)].
  2:{ unfold sec_lost, lost. cbn [snd]. rewrite Hd. apply Hdr. by left. }
  split; [cbn; lia|]. split; [done|]. cbn [fst snd].
  assert (0 < k \/ lost g V w -> lost g V w') as Hlost.
  { intros Hl. destruct (Hdr Hl) as (? & Hno & ?). unfold lost. rewrite Hd. unfold dev_write.
    rewrite bool_decide_false by done. by rewrite Hno. }
  destruct k as [|k]; [|right; apply Hlost; left; lia].
  destruct Hst as [(Hse & Hg & Hif)|Hx]; [|right; apply Hlost; by right]. left.
  rewrite (proj2 (Nat.eqb_neq i (length frags))) in Hif by lia. destruct Hif as [Hv Hrx].
  cbn in Hd. unfold dev_write in Hd. rewrite bool_decide_false, Hse, Ho in Hd by done.
  rewrite (accept_fragment _ pdu n i f) in Hd by (done || by intros; apply Hrx).
  fold frags in Hd. rewrite Hd. destruct (S i =? length frags).
  - rewrite Hh by done. done.
  - done.
Qed.

(** The fragments [fs] of the response are still to be read. *)
Definition sec_reading (fs : list bytes) (sw : BleSession * W) : Prop :=
  d_session (dev sw.2) = Some sw.1 /\ d_gen (dev sw.2) = g /\ d_values (dev sw.2) = vals' /\
  d_tx (dev sw.2) = fs /\ send_counter sw.1 = (c0 + Z.of_nat (length frags))%Z /\
  (recv_counter sw.1 + Z.of_nat (length fs) = r0 + Z.of_nat (length (pr_split resp)))%Z /\
  Forall (fun f => Z.of_nat (length f) < 2 ^ 32)%Z fs.

Lemma read_lost w k :
  lost_dev g V (dev_drops k (dev w)) -> (dev_read uuid (dev_drops k (dev w))) = ([], dev_drops k (dev w)).
Proof using Huuid.
  intros (_ & Hs & _). unfold dev_read. rewrite bool_decide_false by done. by rewrite Hs.
Qed.

Lemma read_opened_triple f fs :
  triple (fun sw => sec_reading (f :: fs) sw \/ sec_lost sw) (read_opened uuid)
    (fun f' sw => f' = f /\ sec_reading fs sw) (fun _ => sec_lost).
Proof using All.
  intros [s w] Hst. unfold read_opened, on_ble_session, on_gatt. run. cbn [fst snd].
  destruct (link_read uuid w) as [k Hr]. destruct (gatt_read uuid w) as [r w'] eqn:Er. cbn [fst snd] in Hr.
  assert (0 < k \/ lost g V w -> lost_dev g V (dev_drops k (dev w))) as Hdr.
  { intros Hor. apply lost_drops. destruct Hst as [(_ & Hg & Hv & _)|Hl]; [|by right].
    destruct Hor as [Hk|Hl]; [|by right]. left. split; [done|]. split; [|done]. right. apply Hv. }
  destruct Hr as [[-> Hd]|(e & -> & Hk & Hd)].
  2:{ unfold sec_lost, lost. cbn [snd]. rewrite Hd. apply Hdr. by left. }
  assert (0 < k \/ lost g V w -> match (let '(r0, s0) := ble_open (dev_read uuid (dev_drops k (dev w))).1 s in
              (r0, (s0, w'))) with
            | (Ok a, s') => a = f /\ sec_reading fs s' | (Err _, s') => sec_lost s' | (Fault _, _) => False end) as Hl.
  { intros Hor. specialize (Hdr Hor). rewrite read_lost in * by done. cbn [fst snd] in *.
    destruct (ble_open_empty s) as [e ->]. unfold sec_lost, lost. cbn [snd]. by rewrite Hd. }
  destruct k as [|k]; [|apply Hl; left; lia].
  destruct Hst as [(Hse & Hg & Hv & Htx & Hsc & Hrm & Hsz)|Hlost]; [|apply Hl; by right]. cbn [fst snd] in *.
  apply Forall_cons in Hsz as [Hf Hsz].
  destruct (seal_open (sk_read_key (bs_keys s)) (ble_nonce (recv_counter s)) f Hf) as (ct & Hs & Ho & _).
  change (dev_drops 0 (dev w)) with (dev w) in *. unfold dev_read in *.
  rewrite bool_decide_false, Hse, Htx, Hs in * by done. cbn [fst snd] in *.
  unfold ble_open. rewrite Ho. cbn [map_err mbind result_bind length] in *. rewrite add_u_ok by lia.
  split; [done|]. unfold sec_reading. cbn [fst snd]. rewrite Hd. repeat (split; [done|]).
  split; [|done]. cbn. lia.
Qed.
End secure.

(** Counters with room for [k] more operations. *)
Definition room (k : nat) (s : BleSession) : Prop :=
  (send_counter s + Z.of_nat k * 2 ^ 17 < 2 ^ 64 /\ recv_counter s + Z.of_nat k * 64 < 2 ^ 64)%Z.

(** The session is live at generation [g]. *)
Definition live (g : Z) (vals : gmap Z bytes) (k : nat) (sw : BleSession * W) : Prop :=
  d_session (dev sw.2) = Some sw.1 /\ d_gen (dev sw.2) = g /\ d_values (dev sw.2) = vals /\ room k sw.1.

Lemma length_join_in {A} (x : list A) l : x ∈ l -> length x <= length (mjoin l).
Proof.
  induction l as [|y l IH]; intros Hx; [by apply elem_of_nil in Hx|].
  cbn [mjoin list_join]. rewrite length_app. apply elem_of_cons in Hx as [->|Hx]; [lia|].
  etransitivity; [exact (IH Hx)|apply Nat.le_add_l].
Qed.

Lemma length_join_pos {A} (l : list (list A)) : Forall (fun x => 0 < length x) l -> length l <= length (mjoin l).
Proof.
  induction 1 as [|x l Hx Hl IH]; [done|]. cbn [mjoin list_join length]. rewrite length_app.
  exact (Nat.add_le_mono 1 _ _ _ Hx IH).
Qed.

Lemma length_fragments_of pdu n : 3 <= n -> length (fragments_of pdu n) <= S (length pdu).
Proof.
  intros Hn. unfold fragments_of. rewrite Nat.max_l by lia. case_match; [simpl; lia|]. simpl. rewrite length_fmap.
  assert (length (chunks (n - 2) (drop n pdu)) <= length (mjoin (chunks (n - 2) (drop n pdu)))).
  { apply length_join_pos, Forall_forall. intros c Hc. apply chunks_length_le in Hc; lia. }
  rewrite chunks_concat, length_drop in * by lia. lia.
Qed.

Lemma length_encode_request op tid iid body : length (ble_encode_request op tid iid body) <= 7 + length body.
Proof. unfold ble_encode_request. case_bool_decide; simpl; lia. Qed.

Lemma split_bounds resp :
  declared_total resp = Ok (length resp) -> (Z.of_nat (length resp) <= 70000)%Z ->
  exists first conts, pr_split resp = first :: conts /\ well_framed first conts /\
    reassemble (first :: conts) = Ok resp /\
    Forall (fun f => Z.of_nat (length f) < 2 ^ 32)%Z (first :: conts).
Proof using PL.
  intros Ht Hl. destruct (pr_split_framed resp Ht Hl) as (first & conts & Hs & Hw & Hr).
  exists first, conts. do 2 (split; [done|]). destruct Hw as (_ & Hc & _). split.
  { rewrite reassemble_spec; [by rewrite Hr|]. eapply Forall_impl; [exact Hc|]. intros; simpl in *; lia. }
  rewrite <- Hr, length_app in Hl. constructor; [lia|]. apply Forall_forall. intros f Hf.
  assert (length (drop 2 f) <= length (mjoin (drop 2 <$> conts)))
    by (apply length_join_in, list_elem_of_fmap; eauto).
  rewrite length_drop in *. lia.
Qed.

Lemma request_secure_triple uuid op tid iid body frag_size g vals vals' resp r k :
  let pdu := ble_encode_request op tid iid body in
  uuid <> pr_verify_char -> small_body body -> 23 <= frag_size ->
  (forall d, d_values d = vals -> dev_char pdu d = (resp, dset_values vals' d)) ->
  declared_total resp = Ok (length resp) -> (Z.of_nat (length resp) <= 70000)%Z -> decode_response resp = Ok r ->
  triple (live g vals (S k)) (request_secure uuid op tid iid body frag_size)
    (fun r' sw => r' = r /\ live g vals' k sw) (fun _ => sec_lost g vals vals').
Proof using All.
  intros pdu Hu Hb Hn Hh Ht Hl Hdec.
  destruct (encode_request_pdu op tid iid body Hb) as (Hp & _). fold pdu in Hp.
  set (n := Nat.max (frag_size - 16) 1). assert (7 <= n) as Hn7 by lia.
  pose proof (length_encode_request op tid iid body) as Hlen. fold pdu in Hlen. unfold small_body, U16_MAX in Hb.
  pose proof (length_fragments_of pdu n ltac:(lia)) as Hfr.
  destruct (split_bounds resp Ht Hl) as (first & conts & Hsp & Hwf & Hre & Hsz).
  pose proof Hwf as (_ & _ & Hmax). unfold MAX_RESPONSE_FRAGMENTS in Hmax.
  intros [s w] (Hse & Hg & Hv & Hr1 & Hr2). cbn [fst snd] in *.
  set (c0 := send_counter s) in *. set (r0 := recv_counter s) in *.
  assert (triple (sec_phase pdu n g vals vals' resp c0 r0 0) (request_secure uuid op tid iid body frag_size)
    (fun r' sw => r' = r /\ live g vals' k sw) (fun _ => sec_lost g vals vals')) as Htr.
  2:{ apply (Htr (s, w)). split; [cbn; lia|]. split; [done|]. left. do 2 (split; [done|]).
      rewrite (proj2 (Nat.eqb_neq 0 _)); [done|]. unfold fragments_of. case_match; simpl; lia. }
  assert (c0 + Z.of_nat (length (fragments_of pdu n)) < 2 ^ 64)%Z as HA by lia.
  assert (r0 + Z.of_nat (length (pr_split resp)) < 2 ^ 64)%Z as HB by (rewrite Hsp; simpl; lia).
  assert (Z.of_nat (length pdu) < 2 ^ 31)%Z as HC by lia.
  unfold request_secure. fold pdu n. eapply triple_lift_bind; [apply fragment_spec|].
  eapply triple_bind.
  { apply (write_fragments_triple _ (sec_phase pdu n g vals vals' resp c0 r0)). intros i f Hi.
    by eapply write_sealed_triple. }
  intros ?. set (rd := sec_reading pdu n g vals' resp c0 r0).
  eapply (triple_bind _ _ _ (fun f sw => f = first /\ rd conts sw)).
  { eapply triple_conseq;
      [by apply (read_opened_triple uuid Hu pdu n Hp Hn7 g vals vals' resp Hh c0 r0 HA HB first conts)| |done|done].
    intros sw (Hc & Hrc & [(Hs1 & Hg1 & Hif)|Hlo]); [left|by right].
    rewrite Nat.eqb_refl in Hif. destruct Hif as (Hv1 & _ & Htx).
    unfold sec_reading. rewrite Htx, Hsp, Hrc. done. }
  intros f. apply triple_pull. intros ->.
  eapply (triple_bind _ _ _ (fun fs sw => fs = first :: conts /\ rd [] sw)).
  { apply (read_fragments_triple _ rd); [|done|unfold MAX_RESPONSE_FRAGMENTS; lia]. intros f fs.
    eapply triple_conseq;
      [by apply (read_opened_triple uuid Hu pdu n Hp Hn7 g vals vals' resp Hh c0 r0 HA HB f fs)| | |done];
      [by left|by left]. }
  intros fs. apply triple_pull. intros ->.
  eapply triple_lift_bind; [exact Hre|]. eapply triple_lift_ok; [exact Hdec|].
  intros sw (Hs1 & Hg1 & Hv1 & _ & Hsc & Hrc & _). split; [done|]. do 3 (split; [done|]).
  rewrite Hsp in Hrc. unfold room. simpl length in Hrc. lia.
Qed.

(** *** A request in the clear *)

Lemma dev_verify_keeps pdu d : d_gen (dev_verify pdu d).2 = d_gen d /\ d_values (dev_verify pdu d).2 = d_values d.
Proof. unfold dev_verify. repeat case_match; simplify_eq; done. Qed.

Lemma reply_decodes tid status body :
  in_u 8 status -> small_body body ->
  declared_total (reply tid status body) = Ok (length (reply tid status body)) /\
  (Z.of_nat (length (reply tid status body)) <= 70000)%Z /\
  decode_response (reply tid status body) =
    Ok {| br_tid := byteZ tid; br_status := status; br_body := body |}.
Proof.
  intros Hs Hb. unfold reply. case_bool_decide as He.
  { subst body. cbn. by rewrite byteZ_u8. }
  unfold small_body, U16_MAX in Hb. destruct (le_Z_u16 (Z.of_nat (length body))) as (l0 & l1 & Hl & Hz).
  { unfold in_u. lia. }
  rewrite Hl. change ([x02; tid; Zbyte status] ++ [l0; l1] ++ body) with ([x02; tid; Zbyte status; l0; l1] ++ body).
  rewrite decode_response_body by (rewrite Hz; lia). rewrite byteZ_u8 by done.
  split; [|split; [rewrite length_app; cbn [length]; lia|done]].
  unfold declared_total. cbn [app length Nat.leb index lookup list_lookup mbind result_bind].
  rewrite Hz, Nat2Z.id. done.
Qed.

Section clear.
Context (pdu : bytes) (n : nat) (Hpdu : request_pdu pdu) (Hn : 7 <= n).
Context (g : Z) (vals : gmap Z bytes) (v0 : option VerifyInProgress).
Let frags := fragments_of pdu n.

(** The link was lost since generation [g]. *)
Definition broken_dev (d : Device) : Prop := d_values d = vals /\ (g < d_gen d)%Z.
Definition broken (w : W) : Prop := broken_dev (dev w).

(** A device the request may reach: the one it was meant for, or a fresh connection. *)
Definition origin (d : Device) : Prop :=
  d_values d = vals /\ (d_gen d = g /\ d_verify d = v0 \/ (g < d_gen d)%Z /\ d_verify d = None).

Definition idle (w : W) : Prop := broken w /\ d_rx (dev w) = [] /\ d_tx (dev w) = [].

Definition reading (d : Device) (fs : list bytes) (w : W) : Prop := dev w = set_io [] fs d.

Definition handled (w : W) : Prop :=
  exists d0, origin d0 /\ reading (dev_verify pdu d0).2 (pr_split (dev_verify pdu d0).1) w.

Definition clear_phase (i : nat) (w : W) : Prop :=
  (if i =? length frags then handled w
   else origin (dev w) /\ (i <> 0 -> d_rx (dev w) = take i frags)) \/ (i <> 0 /\ idle w).

Lemma origin_drops k d : origin d -> origin (dev_drops k d).
Proof.
  destruct (dev_drops_fields k d) as (Hg & Hv & Hk). intros [Hvs Ho]. split; [congruence|].
  destruct k as [|k]; [done|]. right. split; [|apply Hk; lia]. lia.
Qed.

Lemma write_clear_triple i f :
  frags !! i = Some f ->
  triple (clear_phase i) (gatt_write pr_verify_char f) (fun _ => clear_phase (S i)) (fun _ => broken).
Proof using All.
  intros Hi w Hph. pose proof (lookup_lt_Some _ _ _ Hi) as Hlt.
  destruct (link_write pr_verify_char f w) as [k Hw].
  destruct (gatt_write pr_verify_char f w) as [r w']. cbn [fst snd] in Hw.
  destruct (dev_drops_fields k (dev w)) as (Hg & Hv & Hk).
  unfold clear_phase in Hph. rewrite (proj2 (Nat.eqb_neq i (length frags))) in Hph by lia.
  destruct Hw as [[-> Hd]|(e & -> & Hpos & Hd)].
  2:{ unfold broken, broken_dev. rewrite Hd, Hg, Hv.
      destruct Hph as [[[Hvs Ho] _]|[_ [[Hvs Ho] _]]]; (split; [done|]); [|lia].
      destruct Ho as [[? ?]|[? ?]]; lia. }
  unfold dev_write in Hd. rewrite bool_decide_true in Hd by done.
  destruct Hph as [[Ho Hrx]|[Hi0 [[Hvs Hgt] [Hrx Htx]]]].
  - destruct (decide (k = 0 \/ i = 0)) as [Hki|Hki].
    + left. rewrite (accept_fragment _ pdu n i f) in Hd; [|done..|].
      2:{ intros Hi0. destruct Hki as [->|?]; [|done]. by apply Hrx. }
      fold frags in Hd. destruct (S i =? length frags).
      * exists (dev_drops k (dev w)). split; [by apply origin_drops|]. unfold reading. rewrite Hd.
        by destruct (dev_verify pdu _).
      * split; [|by rewrite Hd]. rewrite Hd. exact (origin_drops k _ Ho).
    + right. split; [lia|]. destruct Hk as (_ & _ & Hrx0 & _); [lia|].
      rewrite (accept_ignored _ pdu n i f) in Hd by (done || lia). unfold idle, broken, broken_dev. rewrite Hd. cbn.
      rewrite Hg, Hv. destruct Ho as [Hvs Ho]. split; [|done]. split; [done|]. destruct Ho as [[? ?]|[? ?]]; lia.
  - right. split; [lia|].
    assert (d_rx (dev_drops k (dev w)) = []) as Hrx0 by (destruct k; [done|apply Hk; lia]).
    rewrite (accept_ignored _ pdu n i f) in Hd by (done || lia). unfold idle, broken, broken_dev. rewrite Hd. cbn.
    rewrite Hg, Hv. split; [|done]. split; [done|]. lia.
Qed.

(** Reading on: the next fragment, or an empty one when the link was lost. *)
Lemma read_clear_triple d f fs :
  d_values d = vals -> (g <= d_gen d)%Z ->
  triple (reading d (f :: fs)) (gatt_read pr_verify_char)
    (fun f' w => f' = f /\ reading d fs w \/ f' = [] /\ broken w) (fun _ => broken).
Proof using All.
  intros Hdv Hdg w Hr. destruct (link_read pr_verify_char w) as [k Hl].
  destruct (gatt_read pr_verify_char w) as [r w']. cbn [fst snd] in Hl.
  destruct (dev_drops_fields k (dev w)) as (Hg & Hv & Hk). unfold reading in Hr.
  assert (0 < k -> broken_dev (dev_drops k (dev w))) as Hb.
  { intros Hpos. unfold broken_dev. rewrite Hg, Hv, Hr. cbn. split; [done|lia]. }
  destruct Hl as [[-> Hd]|(e & -> & Hpos & Hd)]; [|unfold broken; rewrite Hd; by apply Hb].
  unfold dev_read in *. rewrite bool_decide_true in * by done. destruct k as [|k].
  - change (dev_drops 0 (dev w)) with (dev w) in *. rewrite Hr in *. cbn in *. left. split; [done|]. by unfold reading.
  - destruct Hk as (_ & _ & _ & Htx); [lia|]. rewrite Htx in *. cbn [fst snd] in *. right. split; [done|].
    unfold broken. rewrite Hd. apply Hb. lia.
Qed.

Context (Hreply : forall d, origin d ->
  let resp := (dev_verify pdu d).1 in
  declared_total resp = Ok (length resp) /\ (Z.of_nat (length resp) <= 70000)%Z /\ is_ok (decode_response resp) = true).

Lemma origin_gen d : origin d -> d_values (dev_verify pdu d).2 = vals /\ (g <= d_gen (dev_verify pdu d).2)%Z.
Proof. intros [Hv Ho]. destruct (dev_verify_keeps pdu d) as [-> ->]. split; [done|]. destruct Ho as [[? ?]|[? ?]]; lia. Qed.

(** The first fragment of the response to a device [d0], or an empty one. *)
Definition first_read (f : bytes) (w : W) : Prop :=
  (exists d0 conts, origin d0 /\ well_framed f conts /\ reassemble (f :: conts) = Ok (dev_verify pdu d0).1 /\
     reading (dev_verify pdu d0).2 conts w) \/ f = [] /\ broken w.

Lemma first_read_triple :
  triple (fun w => handled w \/ idle w) (gatt_read pr_verify_char) first_read (fun _ => broken).
Proof using All.
  intros w [(d0 & Ho & Hr)|Hi].
  - destruct (Hreply d0 Ho) as (Ht & Hl & _). destruct (origin_gen d0 Ho) as [Hv Hg].
    destruct (split_bounds _ Ht Hl) as (first & conts & Hs & Hw & Hre & _). rewrite Hs in Hr.
    pose proof (read_clear_triple _ first conts Hv Hg w Hr) as Ht2.
    destruct (gatt_read pr_verify_char w) as [[f|e|x] w']; try done.
    destruct Ht2 as [[-> Hr2]|[-> Hb]]; [|by right]. left. by exists d0, conts.
  - destruct Hi as [[Hvs Hgt] [_ Htx]]. destruct (link_read pr_verify_char w) as [k Hl].
    destruct (dev_drops_fields k (dev w)) as (Hg & Hv & Hk).
    assert (d_tx (dev_drops k (dev w)) = []) as Htx0 by (destruct k; [done|apply Hk; lia]).
    unfold dev_read in Hl. rewrite bool_decide_true, Htx0 in Hl by done.
    destruct (gatt_read pr_verify_char w) as [r w']. cbn [fst snd] in Hl.
    assert (dev w' = dev_drops k (dev w) -> broken w') as Hb.
    { intros Hd. unfold broken, broken_dev. rewrite Hd, Hg, Hv. split; [done|lia]. }
    destruct Hl as [[-> Hd]|(e & -> & _ & Hd)]; [right; auto|auto].
Qed.

Lemma request_clear_triple op tid iid body :
  pdu = ble_encode_request op tid iid body ->
  triple (fun w => origin (dev w)) (ble_request pr_verify_char op tid iid body n)
    (fun r w => exists d0, origin d0 /\ decode_response (dev_verify pdu d0).1 = Ok r /\
                           reading (dev_verify pdu d0).2 [] w)
    (fun _ => broken).
Proof using All.
  intros Hp. unfold ble_request. rewrite <- Hp. eapply triple_lift_bind; [apply fragment_spec|].
  apply (triple_bind _ _ _ (fun _ => clear_phase (length frags))).
  { eapply triple_conseq; [apply (write_fragments_triple _ clear_phase); intros; by apply write_clear_triple| |done|done].
    intros w Ho. left. rewrite (proj2 (Nat.eqb_neq 0 _)); [done|].
    unfold frags, fragments_of. case_match; simpl; lia. }
  intros _. apply (triple_bind _ _ _ first_read).
  { eapply triple_conseq; [exact first_read_triple| |done|done].
    intros w [Hh|[_ Hi]]; [|by right]. left. by rewrite Nat.eqb_refl in Hh. }
  intros f w [(d0 & conts & Ho & Hw & Hre & Hr)|[-> Hb]]; [|exact Hb].
  destruct (Hreply d0 Ho) as (_ & _ & Hok). destruct (origin_gen d0 Ho) as [Hv Hg].
  assert (triple (reading (dev_verify pdu d0).2 conts)
    (frags ← read_fragments (gatt_read pr_verify_char) (S MAX_RESPONSE_FRAGMENTS) [f];
     out ← lift (reassemble frags); lift (decode_response out))
    (fun r w => decode_response (dev_verify pdu d0).1 = Ok r /\ reading (dev_verify pdu d0).2 [] w)
    (fun _ => broken)) as Htr.
  2:{ refine (triple_conseq _ _ _ _ _ _ _ Htr _ _ _ w Hr); [done| |done].
      intros r w1 Hx. exists d0. by split. }
  apply (triple_bind _ _ _ (fun fs w => fs = f :: conts /\ reading (dev_verify pdu d0).2 [] w)).
  { apply (read_fragments_triple _ (reading (dev_verify pdu d0).2)); [|done|].
    - intros f' fs. by apply read_clear_triple.
    - destruct Hw as (_ & _ & Hm). unfold MAX_RESPONSE_FRAGMENTS in *. lia. }
  intros fs. apply triple_pull. intros ->. eapply triple_lift_bind; [exact Hre|].
  destruct (decode_response (dev_verify pdu d0).1) as [r| |] eqn:E; try done.
Qed.
End clear.

(** *** Pair Verify over the link *)

(** One pairing message: [res] is the accessory's answer and state, [None] a refusal. *)
Lemma exchange_triple tid iid tlv n g vals v0 (res : Device -> option (bytes * Device)) :
  let pdu := ble_encode_request CharacteristicWrite tid iid (encode_write_body tlv) in
  7 <= n -> small_body (encode_write_body tlv) ->
  (forall d, origin g vals v0 d ->
     match res d with
     | Some (m, d') => dev_verify pdu d = (reply (Zbyte tid) 0 (push [] PARAM_VALUE m), d') /\
                       small_body (push [] PARAM_VALUE m)
     | None => dev_verify pdu d = (reply (Zbyte tid) 6 [], dset_verify None d) /\ (g < d_gen d)%Z
     end) ->
  triple (fun w => origin g vals v0 (dev w)) (ble_exchange pr_verify_char tid iid tlv n)
    (fun m w => exists d0 d', origin g vals v0 d0 /\ res d0 = Some (m, d') /\ reading d' [] w)
    (fun _ => broken g vals).
Proof using All.
  intros pdu Hn Hb Hres. destruct (encode_request_pdu CharacteristicWrite tid iid _ Hb) as (Hp & _). fold pdu in Hp.
  unfold ble_exchange. eapply triple_bind.
  { apply (request_clear_triple pdu n Hp Hn g vals v0); [|done]. intros d Ho. specialize (Hres d Ho).
    destruct (res d) as [[m d']|]; destruct Hres as [-> Hx]; cbn [fst].
    - destruct (reply_decodes (Zbyte tid) 0 _ ltac:(done) Hx) as (? & ? & ->). done.
    - destruct (reply_decodes (Zbyte tid) 6 [] ltac:(done) ltac:(done)) as (? & ? & ->). done. }
  intros r w (d0 & Ho & Hd & Hr). pose proof (Hres d0 Ho) as H2.
  destruct (res d0) as [[m d']|] eqn:E; destruct H2 as [Hdv Hx]; rewrite Hdv in *; cbn [fst snd] in *.
  - destruct (reply_decodes (Zbyte tid) 0 _ ltac:(done) Hx) as (_ & _ & Hd'). rewrite Hd' in Hd.
    injection Hd as <-. cbn [br_status br_body Z.eqb negb]. unfold lift. rewrite value_param_push. by exists d0, d'.
  - destruct (reply_decodes (Zbyte tid) 6 [] ltac:(done) ltac:(done)) as (_ & _ & Hd'). rewrite Hd' in Hd.
    injection Hd as <-. cbn [br_status Z.eqb negb]. unfold lift, broken, broken_dev. rewrite Hr. cbn.
    split; [|done]. by destruct Ho.
Qed.

Lemma handle_m1_not_m3 secret kp id ct : is_ok (handle_m1 secret kp id (push (push_u8 [] STATE STATE_M3) ENCRYPTED_DATA ct)) = false.
Proof. unfold handle_m1, push_u8. by rewrite parse_items2. Qed.

Lemma small_write_body tlv : length tlv <= 512 -> small_body (encode_write_body tlv).
Proof.
  intros Hl. unfold small_body, encode_write_body, U16_MAX.
  pose proof (length_push_255 (push_u8 [] PARAM_RETURN_RESPONSE 1) PARAM_VALUE tlv) as Hp.
  change (length (push_u8 [] PARAM_RETURN_RESPONSE 1)) with 3 in Hp. lia.
Qed.

Lemma small_value_body m : length m <= 512 -> small_body (push [] PARAM_VALUE m).
Proof.
  intros Hl. unfold small_body, U16_MAX. pose proof (length_push_255 [] PARAM_VALUE m) as Hp. simpl length in Hp. lia.
Qed.

Definition verify_pairing : AccessoryPairing := {| pairing_id := pr_id; ap_ltpk := ltpk pr_keypair |}.

(** What the accessory answers to a message of Pair Verify. *)
Lemma dev_verify_value tid iid tlv d :
  small_body (encode_write_body tlv) ->
  let pdu := ble_encode_request CharacteristicWrite tid iid (encode_write_body tlv) in
  dev_verify pdu d =
    match handle_m1 (pr_secret (d_gen d)) pr_keypair pr_id tlv with
    | Ok (m2, progress) => (reply (Zbyte tid) 0 (push [] PARAM_VALUE m2), dset_verify (Some progress) d)
    | _ =>
        match d_verify d with
        | Some progress =>
            match handle_m3 progress (kp_id pr_controller) (ltpk pr_controller) tlv with
            | Ok (m4, Some s) =>
                (reply (Zbyte tid) 0 (push [] PARAM_VALUE m4),
                 dset_verify None (dset_session
                   (Some (ble_session_new {| sk_read_key := as_read_key s; sk_write_key := as_write_key s |})) d))
            | _ => (reply (Zbyte tid) 6 [], dset_verify None d)
            end
        | None => (reply (Zbyte tid) 6 [], dset_verify None d)
        end
    end.
Proof.
  intros Hb pdu. destruct (encode_request_pdu CharacteristicWrite tid iid _ Hb) as (_ & Ht & _ & _ & Hd).
  fold pdu in Ht, Hd. unfold dev_verify. by rewrite Ht, Hd, value_param_write_body.
Qed.

(** The second half of Pair Verify: M3 to the device that answered M1. *)
Lemma verify_m3_triple secret iid n g vals sa key ct3 tid client fuel r wk e :
  7 <= n -> small_body (encode_write_body (push (push_u8 [] STATE STATE_M3) ENCRYPTED_DATA ct3)) ->
  let progress := {| vp_accessory_eph_pub := x_public sa; vp_controller_eph_pub := x_public secret;
                     vp_shared := pv_shared secret sa; vp_pv_key := key |} in
  handle_m3 progress (kp_id pr_controller) (ltpk pr_controller) (push (push_u8 [] STATE STATE_M3) ENCRYPTED_DATA ct3) =
    Ok (push_u8 [] STATE STATE_M4, Some (accessory_session_new r wk e)) ->
  pv_handle client (push_u8 [] STATE STATE_M4) =
    (Ok (PvDone {| sk_read_key := r; sk_write_key := wk |}), pv_set client (Some (pv_shared secret sa)) VerifyDone) ->
  triple (fun w => origin g vals (Some progress) (dev w))
    (ble_verify_loop pr_verify_char iid n (S fuel) tid client (push (push_u8 [] STATE STATE_M3) ENCRYPTED_DATA ct3))
    (fun kc w => kc = ({| sk_read_key := r; sk_write_key := wk |}, pv_set client (Some (pv_shared secret sa)) VerifyDone) /\
       d_session (dev w) = Some (ble_session_new {| sk_read_key := r; sk_write_key := wk |}) /\
       d_values (dev w) = vals /\ d_gen (dev w) = g)
    (fun _ => broken g vals).
Proof using All.
  intros Hn Hb progress Hm3 Hm4. cbn [ble_verify_loop].
  set (res := fun d => match d_verify d with
    | Some _ => Some (push_u8 [] STATE STATE_M4, dset_verify None (dset_session
        (Some (ble_session_new {| sk_read_key := r; sk_write_key := wk |})) d))
    | None => None end).
  eapply triple_bind.
  { apply (exchange_triple _ _ _ _ _ _ _ res); [done..|]. intros d [Hv Ho]. rewrite dev_verify_value by done.
    pose proof (handle_m1_not_m3 (pr_secret (d_gen d)) pr_keypair pr_id ct3) as Hno.
    destruct (handle_m1 _ _ _ _) as [[? ?]|?|?]; [done| |]; unfold res;
      (destruct Ho as [[_ ->]|[Hgt ->]]; [rewrite Hm3; split; [done|by apply small_value_body; simpl; lia]|done]). }
  intros m w (d0 & d' & [Hv Ho] & Hr & Hw). unfold res in Hr.
  destruct (d_verify d0) eqn:Ev; [|done]. simplify_eq. rewrite Hm4. cbn [map_err]. run.
  unfold reading in Hw. rewrite Hw. cbn. split; [done|]. split; [done|]. split; [done|].
  destruct Ho as [[? _]|[_ ?]]; [done|congruence].
Qed.

Lemma verify_origin_triple secret iid n g vals v0 :
  7 <= n ->
  triple (fun w => origin g vals v0 (dev w))
    (ble_pair_verify secret pr_verify_char iid pr_controller verify_pairing n)
    (fun sb w => d_session (dev w) = Some sb.1 /\ d_values (dev w) = vals /\ (g <= d_gen (dev w))%Z /\
                 send_counter sb.1 = 0%Z /\ recv_counter sb.1 = 0%Z)
    (fun _ => broken g vals).
Proof using All.
  intros Hn.
  pose proof (short_id_ok _ pr_id_ok) as Hi2. pose proof (short_id_ok _ pr_controller_ok) as Hi1.
  unfold ble_pair_verify. set (cl := new_with_ephemeral pr_controller verify_pairing secret).
  destruct (pv_start cl) as [m1 cl1] eqn:Est.
  assert (length m1 <= 512) as HL1.
  { injection Est as <- _. apply length_msg1. cbn. rewrite x_public_length. lia. }
  set (res := fun d => match handle_m1 (pr_secret (d_gen d)) pr_keypair pr_id m1 with
    | Ok (m2, progress) => Some (m2, dset_verify (Some progress) d) | _ => None end).
  assert (forall sa, exists key ct, hkdf_expand (pv_shared secret sa) PV_ENCRYPT_SALT PV_ENCRYPT_INFO 32 = Some key /\
    aead_open key (hap_nonce NONCE_M2) [] ct = Some (push (push [] IDENTIFIER pr_id) SIGNATURE
              (sign pr_keypair (x_public sa ++ pr_id ++ x_public secret))) /\
    handle_m1 sa pr_keypair pr_id m1 =
      Ok (push (push (push_u8 [] STATE STATE_M2) PUBLIC_KEY (x_public sa)) ENCRYPTED_DATA ct,
          {| vp_accessory_eph_pub := x_public sa; vp_controller_eph_pub := x_public secret;
             vp_shared := pv_shared secret sa; vp_pv_key := key |}) /\
    length (push (push (push_u8 [] STATE STATE_M2) PUBLIC_KEY (x_public sa)) ENCRYPTED_DATA ct) <= 512) as Hm1.
  { intros sa. destruct (pv_m1_m2 pr_controller pr_keypair pr_id secret sa Hi2) as (key & ct & Hk & Ho & Hm).
    exists key, ct. do 2 (split; [done|]). split; [by rewrite <- Hm; unfold pv_client0, pv_pairing; fold verify_pairing cl; rewrite Est|].
    apply length_msg2. apply open_length in Ho. rewrite x_public_length, Ho.
    pose proof (length_id_sig _ _ pr_id_ok (ed_sign_length (kp_signing pr_keypair) (x_public sa ++ pr_id ++ x_public secret))).
    unfold sign. lia. }
  eapply (triple_bind _ _ _ (fun kc w => exists keys sa, kc = (keys, pv_set (pv_set cl1 (Some (pv_shared secret sa)) AwaitM4) (Some (pv_shared secret sa)) VerifyDone) /\
       d_session (dev w) = Some (ble_session_new keys) /\ d_values (dev w) = vals /\ (g <= d_gen (dev w))%Z)).
  - pose (fuel := 2). assert (fuel = 2) as Hfuel by done.
    change (ble_verify_loop pr_verify_char iid n 3) with (ble_verify_loop pr_verify_char iid n (S fuel)).
    clearbody fuel. cbn [ble_verify_loop]. eapply triple_bind.
    { apply (exchange_triple _ _ _ _ _ _ _ res); [done|by apply small_write_body|].
      intros d _. rewrite dev_verify_value by (by apply small_write_body). unfold res.
      destruct (Hm1 (pr_secret (d_gen d))) as (key & ct & _ & _ & -> & Hl). split; [done|by apply small_value_body]. }
    intros m w (d0 & d' & [Hv Ho] & Hr & Hw). unfold res in Hr. set (sa := pr_secret (d_gen d0)) in *.
    destruct (Hm1 sa) as (key & ct & Hk & Hop & Hm & _). rewrite Hm in Hr. simplify_eq.
    destruct (pv_m2_m3 pr_controller pr_keypair pr_id secret sa Hi1 key ct Hk Hop) as (ct3 & Ho3 & Hm2).
    destruct (pv_m3_m4 pr_controller secret sa key ct3 Ho3) as (r & wk & e & Hrk & Hwk & Hek & Hm3).
    unfold pv_client0, pv_pairing in Hm2. fold verify_pairing cl in Hm2. rewrite Est in Hm2. cbn [snd] in Hm2.
    rewrite Hm2. cbn [map_err]. run.
    assert (d_gen d0 >= g)%Z as Hge by (destruct Ho as [[? _]|[? _]]; lia).
    assert (small_body (encode_write_body (push (push_u8 [] STATE STATE_M3) ENCRYPTED_DATA ct3))) as Hsm.
    { apply small_write_body, length_msg1. apply open_length in Ho3. rewrite Ho3.
      pose proof (length_id_sig _ _ pr_controller_ok (ed_sign_length (kp_signing pr_controller) (x_public secret ++ kp_id pr_controller ++ x_public sa))).
      unfold sign. lia. }
    pose proof (verify_m3_triple secret iid n (d_gen d0) (d_values d0) sa key ct3 (wrapping_add 8 0 1)
      (pv_set cl1 (Some (pv_shared secret sa)) AwaitM4) 1 r wk e Hn Hsm Hm3
      (pv_m4_done secret sa (pv_set cl1 (Some (pv_shared secret sa)) AwaitM4) r wk eq_refl eq_refl Hrk Hwk) w) as Ht.
    assert (origin (d_gen d0) (d_values d0) (Some _) (dev w)) as Hpre
      by (unfold reading in Hw; rewrite Hw; split; [done|by left]). specialize (Ht Hpre). clear Hpre.
    destruct (ble_verify_loop _ _ _ _ _ _ _ w) as [[kc|er|x] w']; [| |done].
    + destruct Ht as (-> & Hs & Hv' & Hg'). exists {| sk_read_key := r; sk_write_key := wk |}, sa.
      rewrite Hs, Hv', Hg'. repeat (split; [done|]). lia.
    + destruct Ht as [Hb1 Hb2]. split; [congruence|lia].
  - intros kc w (keys & sa & -> & Hs & Hv & Hg).
    destruct (hkdf_32 (pv_shared secret sa) (ltpk pr_controller) BROADCAST_INFO) as (bk & Hbk & _).
    run. unfold broadcast_key, broadcast_derive, hkdf_sha512. cbn [pv_set shared_secret ok_or mbind result_bind].
    rewrite Hbk. cbn. done.
Qed.

(** *** The shared secure state *)

(** The controller's state and the accessory: a session is live unless the link was lost
    since it was minted; [k] requests fit its counters. *)
Definition linked (k : nat) (sw : Secure * W) : Prop :=
  (sec_generation sw.1 <= d_gen (dev sw.2))%Z /\
  (sec_generation sw.1 = d_gen (dev sw.2) ->
     d_session (dev sw.2) = Some (sec_session sw.1) /\ room k (sec_session sw.1)).

Definition revives (reviver : Reviver) : Prop :=
  rv_keypair reviver = pr_controller /\ rv_pairing reviver = verify_pairing /\
  rv_verify_char reviver = pr_verify_char /\ 7 <= rv_frag_size reviver.

Lemma room_le k k' s : k' <= k -> room k s -> room k' s.
Proof. unfold room. intros Hk [? ?]. split; nia. Qed.

(** The session is live at the current generation, which is at least [g]. *)
Definition ready (k : nat) (V : gmap Z bytes -> Prop) (g : Z) (sw : Secure * W) : Prop :=
  sec_generation sw.1 = d_gen (dev sw.2) /\ d_session (dev sw.2) = Some (sec_session sw.1) /\
  room k (sec_session sw.1) /\ V (d_values (dev sw.2)) /\ (g <= d_gen (dev sw.2))%Z.

Lemma revive_triple secret reviver k V g :
  revives reviver -> (Z.of_nat k < 2 ^ 46)%Z ->
  triple (fun sw => linked k sw /\ V (d_values (dev sw.2)) /\ (g <= d_gen (dev sw.2))%Z)
    (revive_if_stale secret reviver)
    (fun _ => ready k V g)
    (fun _ sw => linked k sw /\ V (d_values (dev sw.2)) /\ (g < d_gen (dev sw.2))%Z).
Proof using All.
  intros (Hkp & Hpr & Hvc & Hfr) Hk [s w] ([Hle Hlive] & HV & Hg). cbn [fst snd] in *.
  unfold revive_if_stale, link_generation, on_link. run. cbn [fst snd]. rewrite link_gen. cbn [fst snd].
  destruct (Z.leb_spec (d_gen (dev w)) (sec_generation s)) as [Hge|Hlt].
  { destruct (Hlive ltac:(lia)) as [Hse Hrm]. unfold ready. cbn [fst snd]. split; [lia|done]. }
  rewrite Hkp, Hpr, Hvc. cbn [fst snd].
  pose proof (verify_origin_triple secret (rv_verify_iid reviver) (rv_frag_size reviver) (d_gen (dev w))
                (d_values (dev w)) (d_verify (dev w)) Hfr w) as Ht.
  assert (origin (d_gen (dev w)) (d_values (dev w)) (d_verify (dev w)) (dev w)) as Ho by (split; [done|by left]).
  specialize (Ht Ho). destruct (ble_pair_verify _ _ _ _ _ _ w) as [[[se bk]|e|x] w']; [| |done]; cbn [fst snd] in *.
  - destruct Ht as (Hs & Hv & Hge & Hsc & Hrc). run. cbn [fst snd]. rewrite link_gen. unfold ready. cbn.
    rewrite Hv. repeat (split; [done|]). split; [|split; [done|lia]]. unfold room. rewrite Hsc, Hrc. lia.
  - destruct Ht as [Hv Hgt]. rewrite Hv. split; [|split; [done|lia]]. split; cbn; lia.
Qed.

(** One request of a live session, beside the rest of the shared state. *)
Lemma secure_request_triple uuid op tid iid body frag_size (V : gmap Z bytes -> Prop) vals' resp r k g :
  let pdu := ble_encode_request op tid iid body in
  uuid <> pr_verify_char -> small_body body -> 23 <= frag_size ->
  (forall d, V (d_values d) -> dev_char pdu d = (resp, dset_values vals' d)) -> V vals' ->
  declared_total resp = Ok (length resp) -> (Z.of_nat (length resp) <= 70000)%Z -> decode_response resp = Ok r ->
  triple (ready (S k) V g) (secure_request uuid op tid iid body frag_size)
    (fun r' sw => r' = r /\ ready k (.= vals') g sw)
    (fun _ sw => linked k sw /\ V (d_values (dev sw.2)) /\ (g < d_gen (dev sw.2))%Z /\
                 (sec_generation sw.1 < d_gen (dev sw.2))%Z).
Proof using All.
  intros pdu Hu Hb Hn Hh HV' Ht Hl Hd [s w] (Hgen & Hse & Hrm & HV & Hg). cbn [fst snd] in *.
  unfold secure_request. cbn [fst snd].
  assert (forall d, d_values d = d_values (dev w) -> dev_char pdu d = (resp, dset_values vals' d)) as Hh'.
  { intros d Hdv. apply Hh. by rewrite Hdv. }
  pose proof (request_secure_triple uuid op tid iid body frag_size (d_gen (dev w)) (d_values (dev w)) vals' resp r k
                Hu Hb Hn Hh' Ht Hl Hd (sec_session s, w)) as Htr.
  assert (live (d_gen (dev w)) (d_values (dev w)) (S k) (sec_session s, w)) as Hlv by done. specialize (Htr Hlv).
  destruct (request_secure _ _ _ _ _ _ _) as [[r'|e|x] [se' w']]; [| |done]; cbn [fst snd] in *.
  - destruct Htr as [-> (Hs' & Hg' & Hv' & Hr')]. cbn [fst snd] in *. split; [done|].
    unfold ready. cbn. rewrite Hg'. done.
  - destruct Htr as (Hlt & Hno & Hv'). cbn [fst snd sec_generation] in *. split; [|split; [|lia]].
    + split; cbn; lia.
    + destruct Hv' as [->| ->]; done.
Qed.

Section retry.
Context (reviver : Reviver) (Hrev : revives reviver) (secrets : nat -> bytes) (frag_size : nat) (Hfrag : 23 <= frag_size).
Context (uuid : list Z) (Huuid : uuid <> pr_verify_char) (op : BleOpCode) (iid16 : Z) (body : bytes)
  (Hbody : small_body body).
Context (V : gmap Z bytes -> Prop) (vals' : gmap Z bytes) (HV' : V vals') (answer : bytes) (Hans : small_body answer).
Context (Hh : forall tid d, V (d_values d) ->
  dev_char (ble_encode_request op tid iid16 body) d = (reply (Zbyte tid) 0 answer, dset_values vals' d)).
Context {A : Type} (finish : BleResponse -> result BleError A) (a : A)
  (Hfin : forall tid, finish {| br_tid := tid; br_status := 0; br_body := answer |} = Ok a).

(** Failed operations cost the link a generation each. *)
Lemma retry_triple g k fuel attempts :
  fuel + attempts = MAX_REVIVE_RETRIES -> 0 < fuel -> (Z.of_nat (k + fuel) < 2 ^ 46)%Z ->
  triple (fun sw => linked (k + fuel) sw /\ V (d_values (dev sw.2)) /\ (g <= d_gen (dev sw.2))%Z)
    (retry_loop secrets reviver uuid op iid16 body frag_size finish fuel attempts)
    (fun a' sw => a' = a /\ linked k sw /\ d_values (dev sw.2) = vals' /\ (g <= d_gen (dev sw.2))%Z)
    (fun _ sw => linked k sw /\ V (d_values (dev sw.2)) /\ (g < d_gen (dev sw.2))%Z).
Proof using All.
  revert attempts. induction fuel as [|fuel IH]; intros attempts Hf Hpos Hk; [lia|]. cbn [retry_loop].
  assert (forall sw, linked (k + fuel) sw -> linked k sw) as Hweak.
  { intros sw [? Hl]. split; [done|]. intros He. destruct (Hl He). split; [done|]. by apply (room_le (k + fuel)); [lia|]. }
  eapply (triple_bind _ _ _ (fun _ => ready (k + S fuel) V g)).
  { eapply triple_conseq; [by apply (revive_triple (secrets attempts) reviver (k + S fuel) V g)|done|done|].
    intros _ sw ([? Hl] & ? & ?). split; [|done]. split; [done|]. intros He. destruct (Hl He). split; [done|].
    by apply (room_le (k + S fuel)); [lia|]. }
  intros _. apply (triple_bind _ _ _ (fun _ => ready (k + S fuel) V g)).
  { intros [s w] Hr. exact Hr. }
  intros tid. destruct (reply_decodes (Zbyte tid) 0 answer ltac:(done) Hans) as (Ht & Hl & Hd).
  pose proof (secure_request_triple uuid op tid iid16 body frag_size V vals' _ _ (k + fuel) g
                Huuid Hbody Hfrag (Hh tid) HV' Ht Hl Hd) as Htr.
  intros [s w] Hr. rewrite Nat.add_succ_r in Hr. specialize (Htr (s, w) Hr). unfold attempt. run.
  destruct (secure_request _ _ _ _ _ _ (s, w)) as [[r|e|x] [s' w']]; [| |done]; cbn [fst snd] in *.
  - destruct Htr as [-> (Hgen & Hse & Hrm & Hv & Hg)]. rewrite Hfin. split; [done|]. split; [|done].
    apply Hweak. split; [cbn in *; lia|]. done.
  - destruct Htr as (Hlk & HVv & Hg & Hstale).
    destruct (Nat.ltb_spec (S attempts) MAX_REVIVE_RETRIES) as [Hlt|Hge]; [|by split; [apply Hweak|]].
    unfold link_generation. cbn [fst snd]. rewrite link_gen. cbn [fst snd].
    rewrite (proj2 (Z.ltb_lt _ _)) by done.
    eapply (IH (S attempts)); [lia..|]. do 2 (split; [done|]). apply Z.lt_le_incl. exact Hg.
Qed.
End retry.

(** *** Operations *)

(** Values that fit a response. *)
Definition store_ok (store : gmap Z bytes) : Prop := map_Forall (fun _ v => small_body (push [] PARAM_VALUE v)) store.

Definition op_ok (store : gmap Z bytes) (op : BleOp) : Prop :=
  match op with
  | OpRead uuid iid => uuid <> pr_verify_char /\ in_u 16 iid /\ iid ∈ dom store
  | OpWrite uuid iid v => uuid <> pr_verify_char /\ in_u 16 iid /\ iid ∈ dom store /\
      small_body (encode_write_body v) /\ small_body (push [] PARAM_VALUE v)
  end.

Lemma le_Z_iid iid : in_u 16 iid -> le_Z (le_bytes 2 iid) = iid.
Proof. intros Hi. by apply (le_Z_u 2). Qed.

Lemma dset_values_id d : dset_values (d_values d) d = d.
Proof. by destruct d. Qed.

Lemma dev_char_read tid iid v d :
  in_u 16 iid -> d_values d !! iid = Some v ->
  dev_char (ble_encode_request CharacteristicRead tid iid []) d = (reply (Zbyte tid) 0 (push [] PARAM_VALUE v), d).
Proof.
  intros Hi Hv. destruct (encode_request_pdu CharacteristicRead tid iid []) as (_ & Ht & Hop & Hid & _); [done|].
  unfold dev_char. rewrite Hop, Hid, Ht, le_Z_iid, Hv by done. done.
Qed.

Lemma dev_char_write tid iid v d :
  in_u 16 iid -> small_body (encode_write_body v) -> is_Some (d_values d !! iid) ->
  dev_char (ble_encode_request CharacteristicWrite tid iid (encode_write_body v)) d =
    (reply (Zbyte tid) 0 [], dset_values (<[iid := v]> (d_values d)) d).
Proof.
  intros Hi Hb [v0 Hv]. destruct (encode_request_pdu CharacteristicWrite tid iid _ Hb) as (_ & Ht & Hop & Hid & Hd).
  unfold dev_char. rewrite Hop, Hid, Ht, Hd, le_Z_iid, Hv by done. change (Zbyte (ble_op_u8 CharacteristicWrite)) with x02.
  cbv iota. by rewrite value_param_write_body.
Qed.

Lemma linked_le k k' sw : k' <= k -> linked k sw -> linked k' sw.
Proof. intros Hk [? Hl]. split; [done|]. intros He. destruct (Hl He). split; [done|]. by apply (room_le k). Qed.

Lemma iid_u16_ok iid : in_u 16 iid -> iid_u16 iid = Ok iid.
Proof. intros [? ?]. unfold iid_u16, U16_MAX. by rewrite (proj2 (Z.leb_le _ _)) by lia. Qed.

Lemma run_op_triple reviver secrets frag_size op store g k :
  revives reviver -> 23 <= frag_size -> store_ok store -> op_ok store op -> (Z.of_nat (k + 3) < 2 ^ 46)%Z ->
  triple (fun sw => linked (k + 3) sw /\ d_values (dev sw.2) = store /\ (g <= d_gen (dev sw.2))%Z)
    (run_op secrets reviver frag_size op)
    (fun v sw => linked k sw /\ spec_op op store (Some v) (d_values (dev sw.2)) /\ (g <= d_gen (dev sw.2))%Z)
    (fun _ sw => linked k sw /\ spec_op op store None (d_values (dev sw.2)) /\ (g < d_gen (dev sw.2))%Z).
Proof using All.
  intros Hrev Hfr Hst Hop Hk. destruct op as [uuid iid|uuid iid v]; cbn [op_ok run_op] in *.
  - destruct Hop as (Hu & Hi & [v Hv]%elem_of_dom). unfold read_char_raw.
    eapply triple_lift_bind; [by apply iid_u16_ok|].
    eapply triple_conseq; [apply (retry_triple reviver Hrev secrets frag_size Hfr uuid Hu CharacteristicRead iid []
      ltac:(done) (.= store) store eq_refl (push [] PARAM_VALUE v) (Hst _ _ Hv)) with (a := v) (g := g) (k := k)| | |].
    + intros tid d Hd. rewrite (dev_char_read tid iid v) by (done || by rewrite Hd). by rewrite <- Hd, dset_values_id.
    + intros tid. cbn [br_body]. apply value_param_push.
    + done.
    + unfold MAX_REVIVE_RETRIES. lia.
    + done.
    + done.
    + intros a sw (-> & Hl & Hv' & Hg). rewrite Hv'. split; [done|]. split; [by constructor|done].
    + intros e sw (Hl & -> & Hg). split; [done|]. split; [constructor|done].
  - destruct Hop as (Hu & Hi & [v0 Hv0]%elem_of_dom & Hb & Hb2). unfold write_char_raw.
    set (V := fun m => m = store \/ m = <[iid := v]> store).
    eapply (triple_bind _ _ _ (fun _ sw => linked k sw /\ d_values (dev sw.2) = <[iid := v]> store /\ (g <= d_gen (dev sw.2))%Z)).
    + eapply triple_lift_bind; [by apply iid_u16_ok|].
      eapply triple_conseq; [apply (retry_triple reviver Hrev secrets frag_size Hfr uuid Hu CharacteristicWrite iid
        (encode_write_body v) Hb V (<[iid := v]> store) (or_intror eq_refl) [] ltac:(done)) with (a := ()) (g := g) (k := k)| | |].
      * intros tid d [Hd|Hd]; rewrite (dev_char_write tid iid v) by
          (done || rewrite Hd; rewrite ?lookup_insert_eq; by eexists); rewrite Hd; [done|by rewrite insert_insert_eq].
      * done.
      * done.
      * unfold MAX_REVIVE_RETRIES. lia.
      * done.
      * intros sw (? & ? & ?). split; [done|]. split; [by left|done].
      * intros [] sw (_ & Hl & Hv' & Hg). done.
      * intros e sw (Hl & [-> | ->] & Hg); (split; [done|]); split; constructor || done.
    + intros _. apply triple_ret. intros sw (Hl & -> & Hg). split; [done|]. split; [constructor|done].
Qed.

Lemma spec_op_store op store r store' :
  spec_op op store r store' -> op_ok store op -> store_ok store -> store_ok store' /\ dom store' = dom store.
Proof.
  intros Hs Hop Hst. destruct Hs; try done; cbn [op_ok] in Hop; destruct Hop as (_ & _ & Hd & _ & Hb).
  all: split; [by apply map_Forall_insert_2|]; rewrite dom_insert_L; set_solver.
Qed.

Lemma op_ok_dom store store' op : dom store' = dom store -> op_ok store op -> op_ok store' op.
Proof. intros Hd. destruct op; cbn [op_ok]; by rewrite Hd. Qed.

Definition failures (rs : list (option bytes)) : nat := length (filter (.= None) rs).

Lemma run_ops_refine reviver secrets frag_size n ops store g s w :
  revives reviver -> 23 <= frag_size -> store_ok store -> Forall (op_ok store) ops ->
  (3 * Z.of_nat (length ops) < 2 ^ 46)%Z ->
  linked (3 * length ops) (s, w) -> d_values (dev w) = store -> (g <= d_gen (dev w))%Z ->
  exists rs s' w', run_ops secrets reviver frag_size n ops (s, w) = (Ok rs, (s', w')) /\
    spec_ops ops store rs (d_values (dev w')) /\ linked 0 (s', w') /\
    (g + Z.of_nat (failures rs) <= d_gen (dev w'))%Z.
Proof using All.
  intros Hrev Hfr. revert n store g s w. induction ops as [|op ops IH]; intros n store g s w Hst Hops Hb Hl Hv Hg.
  { exists [], s, w. cbn in *. rewrite Hv. split; [done|]. split; [constructor|]. split; [done|lia]. }
  apply Forall_cons in Hops as [Hop Hops]. cbn [length] in *.
  pose proof (run_op_triple reviver (secrets n) frag_size op store g (3 * length ops) Hrev Hfr Hst Hop ltac:(lia) (s, w)) as Ht.
  cbn [fst snd] in Ht. replace (3 * length ops + 3) with (3 * S (length ops)) in Ht by lia.
  specialize (Ht (conj Hl (conj Hv Hg))).
  assert (forall r s1 w1 g1, linked (3 * length ops) (s1, w1) -> spec_op op store r (d_values (dev w1)) ->
    (g1 <= d_gen (dev w1))%Z -> g1 = (match r with Some _ => g | None => g + 1 end)%Z ->
    exists rs s' w', run_ops secrets reviver frag_size (S n) ops (s1, w1) = (Ok rs, (s', w')) /\
      spec_ops (op :: ops) store (r :: rs) (d_values (dev w')) /\ linked 0 (s', w') /\
      (g + Z.of_nat (failures (r :: rs)) <= d_gen (dev w'))%Z) as Hnext.
  { intros r s1 w1 g1 Hl1 Hs1 Hg1 Hr. destruct (spec_op_store _ _ _ _ Hs1 Hop Hst) as [Hst1 Hd1].
    destruct (IH (S n) (d_values (dev w1)) g1 s1 w1) as (rs & s' & w' & Hrun & Hsp & Hl' & Hg'); try done.
    { eapply Forall_impl; [exact Hops|]. intros o. by apply op_ok_dom. }
    { lia. }
    exists rs, s', w'. split; [done|]. split; [by econstructor|]. split; [done|].
    unfold failures in *. rewrite filter_cons. destruct r; cbn in *; [rewrite decide_False by done; lia|].
    rewrite decide_True by done. cbn. lia. }
  cbn [run_ops]. unfold attempt. run. destruct (run_op _ _ _ _ (s, w)) as [[v|e|x] [s1 w1]]; [| |done]; cbn [fst snd] in Ht.
  - destruct Ht as (Hl1 & Hs1 & Hg1). destruct (Hnext (Some v) s1 w1 g Hl1 Hs1 Hg1 eq_refl) as (rs & s' & w' & Hrun & Hrest).
    exists (Some v :: rs), s', w'. by rewrite Hrun.
  - destruct Ht as (Hl1 & Hs1 & Hg1).
    destruct (Hnext None s1 w1 (g + 1)%Z Hl1 Hs1 ltac:(lia) eq_refl) as (rs & s' & w' & Hrun & Hrest).
    exists (None :: rs), s', w'. by rewrite Hrun.
Qed.
End link.

(** ** A link with a schedule of losses

    Each GATT operation consumes an entry: how often the link is lost before it, and
    whether it then gives up. *)

Definition Scheduled : Type := Device * list (nat * bool).

Section schedule.
Context `{Crypto} `{Peripheral}.

Definition sched_op {A} (op : Device -> A * Device) : stateful Scheduled BleError A := fun '(d, l) =>
  let '(k, gives_up) := default (0, false) (head l) in
  let d := dev_drops k d in
  if gives_up && (0 <? k) then (Err Disconnected, (d, tail l))
  else let '(a, d) := op d in (Ok a, (d, tail l)).

#[export] Instance sched_gatt : Gatt Scheduled := {|
  gatt_write uuid data := sched_op (fun d => ((), dev_write uuid data d));
  gatt_read uuid := sched_op (dev_read uuid);
  gatt_instance_id _ := lift (Err AccessoryNotFound);
  gatt_enumerate := lift (Err AccessoryNotFound);
  gatt_max_write w := (DEFAULT_FRAGMENT_SIZE, w);
  gatt_generation w := (d_gen w.1, w)
|}.

Lemma sched_op_law {A} (op : Device -> A * Device) (w : Scheduled) : exists k,
  ((sched_op op w).1 = Ok (op (dev_drops k w.1)).1 /\ (sched_op op w).2.1 = (op (dev_drops k w.1)).2) \/
  (exists e, (sched_op op w).1 = Err e /\ 0 < k /\ (sched_op op w).2.1 = dev_drops k w.1).
Proof.
  destruct w as [d l]. unfold sched_op. destruct (default (0, false) (head l)) as [k b]. exists k. cbn [fst snd].
  destruct (b && (0 <? k)) eqn:E.
  - right. exists Disconnected. apply andb_true_iff in E as [_ E%Nat.ltb_lt]. done.
  - left. by destruct (op (dev_drops k d)).
Qed.

#[export] Instance sched_link : BleLink Scheduled.
Proof.
  refine {| dev := fst |}.
  - intros uuid data w. destruct (sched_op_law (fun d => ((), dev_write uuid data d)) w) as [k Hk]. by exists k.
  - intros uuid w. destruct (sched_op_law (dev_read uuid) w) as [k Hk]. by exists k.
  - by intros [d l].
Defined.
End schedule.

Definition demo_peripheral : Peripheral :=
  {| pr_keypair := from_seed [] [x09]; pr_id := str "AA:BB"; pr_controller := from_seed (str "ctl") [x05];
     pr_secret := fun g => le_bytes 4 (g + 3); pr_verify_char := PAIR_VERIFY_CHAR; pr_split := fun r => [r] |}.

Lemma demo_peripheral_laws : PeripheralLaws (H := demo_peripheral).
Proof.
  split; [simpl; lia|simpl; lia|]. intros resp Ht _. exists resp, []. split; [done|]. rewrite app_nil_r.
  split; [|done]. split; [by rewrite app_nil_r|]. split; [constructor|]. unfold MAX_RESPONSE_FRAGMENTS. simpl. lia.
Qed.

Definition demo_device : Device :=
  {| d_gen := 4; d_values := {[9%Z := [x01]]}; d_session := None; d_verify := None; d_rx := []; d_tx := [] |}.
Definition demo_reviver : Reviver :=
  {| rv_keypair := from_seed (str "ctl") [x05];
     rv_pairing := verify_pairing (H := toy_crypto) (H0 := demo_peripheral);
     rv_verify_char := PAIR_VERIFY_CHAR; rv_verify_iid := 3; rv_frag_size := 100 |}.
(** A session minted three connections ago. *)
Definition demo_secure : Secure :=
  {| sec_session := ble_session_new {| sk_read_key := [x01]; sk_write_key := [x02] |}; sec_tid := 7; sec_generation := 1 |}.
Definition demo_ops : list BleOp := [OpRead PAIRINGS_CHAR 9; OpWrite PAIRINGS_CHAR 9 [x00; x05]; OpRead PAIRINGS_CHAR 9].
Definition demo_build : Build := {| overflow_checks := true; debug_assertions := true |}.
Definition demo_secrets (k n : nat) : bytes := le_bytes 4 (Z.of_nat (10 * k + n)).

(** The stale session is renewed; the link then drops during the write, which is retried. *)
Example demo_run :
  (run_ops (H := toy_crypto) (W := Scheduled) (H0 := sched_gatt (H0 := demo_peripheral)) (H1 := demo_build)
     demo_secrets demo_reviver 40 0 demo_ops (demo_secure, (demo_device, replicate 7 (0, false) ++ [(1, true)]))).1 =
    Ok [Some [x01]; Some []; Some [x00; x05]].
Proof. by vm_compute. Qed.

(** A link lost during the broadcast-key request is not noticed: its error is discarded
    and the session, which the accessory no longer has, is filed under the new
    connection's generation, so every later operation fails although the link stays up. *)
Definition demo_services : list GattService :=
  [{| gs_uuid := PROTOCOL_INFO_SERVICE; gs_iid := 16;
      gs_characteristics := [{| gc_uuid := SERVICE_SIGNATURE_CHAR; gc_iid := 17 |}] |}].

Definition demo_minted :=
  mint_session (C := toy_crypto) (W := Scheduled) (H := sched_gatt (H0 := demo_peripheral)) (H0 := demo_build)
    [x06] (from_seed (str "ctl") [x05]) (rv_pairing demo_reviver) demo_services 3 512
    (demo_device, replicate 4 (0, false) ++ [(1, true)]).

Lemma late_generation :
  match demo_minted with
  | (Ok (session, _, g), w) =>
      g = d_gen w.1 /\
      (run_ops (H := toy_crypto) (W := Scheduled) (H0 := sched_gatt (H0 := demo_peripheral)) (H1 := demo_build)
         demo_secrets demo_reviver 40 0 demo_ops
         ({| sec_session := session; sec_tid := 0; sec_generation := g |}, w)).1 = Ok [None; None; None]
  | _ => False
  end.
Proof. by vm_compute. Qed.

(** * Theorems *)

(** C6: Reads and writes over BLE refine a key-value store.  Whatever connections are
    lost, before or during an operation and however the accessory splits its responses,
    every sequence of operations terminates; each successful read returns the current
    value, each successful write stores its value, a failed write is stored or not; and
    operations fail at most as often as the link is lost, so on a stable link all
    succeed, a stale session being verified afresh. *)
Theorem ble_operations_refine `{BleLink} {CL : CryptoLaws _} {PL : PeripheralLaws} {BD : Build}
    reviver secrets frag_size ops s w :
  revives reviver -> 23 <= frag_size -> store_ok (d_values (dev w)) ->
  Forall (op_ok (d_values (dev w))) ops -> (3 * Z.of_nat (length ops) < 2 ^ 46)%Z ->
  linked (3 * length ops) (s, w) ->
  exists rs s' w', run_ops secrets reviver frag_size 0 ops (s, w) = (Ok rs, (s', w')) /\
    spec_ops ops (d_values (dev w)) rs (d_values (dev w')) /\ linked 0 (s', w') /\
    (d_gen (dev w) + Z.of_nat (failures rs) <= d_gen (dev w'))%Z.
Proof. intros Hr Hf Hst Hops Hb Hl. by apply run_ops_refine. Qed.

Lemma ble_operations_refine_witness :
  exists rs s' (w' : Scheduled), run_ops (H := toy_crypto) (W := Scheduled) (H0 := sched_gatt (H0 := demo_peripheral))
      (H1 := demo_build) demo_secrets demo_reviver 40 0 demo_ops
      (demo_secure, (demo_device, [(0, false); (2, true)])) = (Ok rs, (s', w')) /\
    spec_ops demo_ops {[9%Z := [x01]]} rs (d_values w'.1) /\
    linked (H := toy_crypto) (H0 := demo_peripheral) (H1 := sched_gatt (H0 := demo_peripheral)) (BL := sched_link) 0 (s', w') /\
    (4 + Z.of_nat (failures rs) <= d_gen w'.1)%Z.
Proof.
  apply (ble_operations_refine (H := toy_crypto) (H0 := demo_peripheral) (H1 := sched_gatt (H0 := demo_peripheral)) (H2 := sched_link)
           (CL := toy_crypto_laws) (PL := demo_peripheral_laws) (BD := demo_build)
           demo_reviver demo_secrets 40 demo_ops demo_secure (demo_device, [(0, false); (2, true)])).
  - repeat (split; [done|]). simpl. lia.
  - lia.
  - change (store_ok {[9%Z := [x01]]}). intros iid v [<- <-]%lookup_singleton_Some. by vm_compute.
  - repeat apply List.Forall_cons; try apply List.Forall_nil; cbn [op_ok];
      repeat split; try (by apply (bool_decide_unpack _); vm_compute); by vm_compute.
  - by vm_compute.
  - split; cbn; lia.
Defined.
