(* ===== verification/Handle.v ===== *)
(** * [hap-controller/src/{error,event,handle}.rs]: one accessory over IP

    [IpHandle]: the cached accessory tree, typed reads and writes, subscriptions.  Every
    request leaves through [self.conn], the class [IpConn]; [Reconnect] says what stands
    behind it.  The theorem relates the handle to a store of typed values kept by an
    accessory that speaks the [/characteristics] protocol. *)

From Stdlib Require Import SpecFloat.
From S2P Require Import Prelude Text Tlv8 Crypto RecordLayer PairSetup Store Model Types ModelJson BlePdu.

(** ** [error.rs], [event.rs] *)

Inductive HapError :=
| HapTlv8 (e : Tlv8Error)
| HapCrypto (e : CryptoError)
| HapTransport (e : TransportError)
| HapPairing (e : PairingError)
| HapModel (e : ModelError)
| HapUnknownAccessory (id : bytes)
| HapCharacteristicNotFound (aid iid : Z)
| InvalidSetupCode
| HapHttp (status : Z)
| ConnectionLost
| InvalidSetupPayload
| UnsupportedByTransport (op : string)
| HapBle (e : BleError)
| NoMatchingAccessory
| AmbiguousMatch (candidates : list bytes).

Record SessionResponse := { sr_status : Z; sr_body : bytes }.

(** [self.request(method, path, content_type, body)]. *)
Class IpConn (W : Type) := {
  conn_request : bytes -> list Z -> bytes -> bytes -> stateful W HapError SessionResponse
}.

Definition HAP_JSON : bytes := str "application/hap+json".
Definition CHARACTERISTICS : list Z := chars "/characteristics".

(** ** Values *)

Definition is_success (status : Z) : bool := ((200 <=? status) && (status <? 300))%Z.

(** [n as f64]. *)
Definition f64_of_int (n : Z) : f64 := binary_normalize 53 1024 n 0 false.

Definition coerce_to_format (value : CharValue) (fmt : CharFormat) : CharValue :=
  match fmt, value with
  | FBool, VUint n => VBool (negb (n =? 0)%Z)
  | FBool, VInt n => VBool (negb (n =? 0)%Z)
  | FInt, VUint n => if (n <=? 2 ^ 63 - 1)%Z then VInt n else VUint n
  | FFloat, VUint n => VFloat (f64_of_int n)
  | FFloat, VInt n => VFloat (f64_of_int n)
  | _, other => other
  end.

(** The formats learned from [/accessories] applied to one value. *)
Definition retype (formats : gmap (Z * Z) CharFormat) (r : (Z * Z) * CharValue) : (Z * Z) * CharValue :=
  (r.1, match formats !! r.1 with Some f => coerce_to_format r.2 f | None => r.2 end).

Section handle.
Context `{SerdeJson} `{Base64Engine} `{Generated} `{IpConn W}.

Record IpHandle := {
  ih_accessories : option (list Accessory);
  ih_formats : gmap (Z * Z) CharFormat;
  ih_subscribed : gset (Z * Z);
  ih_pid : Z;
  ih_needs_refresh : bool
}.

Definition ip_handle_new : IpHandle :=
  {| ih_accessories := None; ih_formats := ∅; ih_subscribed := ∅; ih_pid := 1; ih_needs_refresh := false |}.

Definition set_tree (accessories : option (list Accessory)) (refresh : bool) (formats : gmap (Z * Z) CharFormat)
    (h : IpHandle) : IpHandle :=
  {| ih_accessories := accessories; ih_formats := formats; ih_subscribed := ih_subscribed h; ih_pid := ih_pid h;
     ih_needs_refresh := refresh |}.
Definition set_subscribed (s : gset (Z * Z)) (h : IpHandle) : IpHandle :=
  {| ih_accessories := ih_accessories h; ih_formats := ih_formats h; ih_subscribed := s; ih_pid := ih_pid h;
     ih_needs_refresh := ih_needs_refresh h |}.
Definition set_pid (pid : Z) (h : IpHandle) : IpHandle :=
  {| ih_accessories := ih_accessories h; ih_formats := ih_formats h; ih_subscribed := ih_subscribed h; ih_pid := pid;
     ih_needs_refresh := ih_needs_refresh h |}.

Local Abbreviation M := (stateful (IpHandle * W) HapError).

Definition on_conn {A} (m : stateful W HapError A) : M A := fun hw =>
  let '(r, w) := m hw.2 in (r, (hw.1, w)).
Definition on_handle (f : IpHandle -> IpHandle) : M () := fun hw => (Ok (), (f hw.1, hw.2)).
Definition get_handle : M IpHandle := fun hw => (Ok hw.1, hw).

Definition handle_request (method : bytes) (path : list Z) (body : bytes) : M SessionResponse :=
  on_conn (conn_request method path HAP_JSON body).

Definition expect_success (resp : SessionResponse) : result HapError () :=
  if negb (is_success (sr_status resp)) then Err (HapHttp (sr_status resp)) else Ok ().

(** The formats declared in a tree. *)
Definition formats_of (parsed : list Accessory) : gmap (Z * Z) CharFormat :=
  foldl (fun m acc =>
    foldl (fun m svc =>
      foldl (fun m ch => <[(acc_aid acc, ch_iid ch) := ch_format ch]> m) m (svc_characteristics svc))
      m (acc_services acc)) ∅ parsed.

Definition ih_fetch : M (list Accessory) :=
  _ ← on_handle (fun h => if ih_needs_refresh h then set_tree None false (ih_formats h) h else h);
  h ← get_handle;
  match ih_accessories h with
  | Some tree => mret tree
  | None =>
      resp ← handle_request (str "GET") (chars "/accessories") [];
      _ ← lift (expect_success resp);
      parsed ← lift (map_err HapModel (parse_accessories (sr_body resp)));
      _ ← on_handle (fun h => set_tree (Some parsed) (ih_needs_refresh h) (formats_of parsed) h);
      mret parsed
  end.

Definition ih_find_in (service : ServiceType) (chr : CharacteristicType) (accessory : Accessory) : option (Z * Z) :=
  head (svc ← acc_services accessory;
        if bool_decide (svc_type svc = service) then
          c ← svc_characteristics svc;
          if bool_decide (ch_type c = chr) then [(acc_aid accessory, ch_iid c)] else []
        else []).

Definition ih_find (h : IpHandle) (service : ServiceType) (chr : CharacteristicType) : result HapError (Z * Z) :=
  ok_or (head (accessory ← default [] (ih_accessories h); option_list (ih_find_in service chr accessory)))
        (HapCharacteristicNotFound 0 0).

Definition put_characteristics (body : bytes) : M () :=
  resp ← handle_request (str "PUT") CHARACTERISTICS body;
  _ ← lift (expect_success resp);
  if bool_decide (sr_body resp = []) then mret ()
  else _ ← lift (map_err HapModel (parse_read_response (sr_body resp))); mret ().

Definition read_many (ids : list (Z * Z)) : M (list ((Z * Z) * CharValue)) :=
  let path := build_read_request ids in
  resp ← handle_request (str "GET") path [];
  _ ← lift (expect_success resp);
  parsed ← lift (map_err HapModel (parse_read_response (sr_body resp)));
  h ← get_handle;
  mret (retype (ih_formats h) <$> parsed).

Definition write_many (writes : list ((Z * Z) * CharValue)) : M () :=
  put_characteristics (build_write_request writes).

Definition ih_read (aid iid : Z) : M CharValue :=
  values ← read_many [(aid, iid)];
  lift (snd <$> ok_or (head values) (HapCharacteristicNotFound aid iid)).

Definition ih_write (aid iid : Z) (value : CharValue) : M () := write_many [((aid, iid), value)].

Definition ih_subscribe (aid iid : Z) : M () :=
  _ ← put_characteristics (build_subscribe_request [(aid, iid)] true);
  on_handle (fun h => set_subscribed ({[(aid, iid)]} ∪ ih_subscribed h) h).

Definition ih_unsubscribe (aid iid : Z) : M () :=
  _ ← put_characteristics (build_subscribe_request [(aid, iid)] false);
  on_handle (fun h => set_subscribed (ih_subscribed h ∖ {[(aid, iid)]}) h).

(** [ttl_ms] is the duration in milliseconds, capped at [u64::MAX]. *)
Definition write_timed (aid iid : Z) (value : CharValue) (ttl_ms : Z) : M () :=
  h ← get_handle;
  let pid := ih_pid h in
  _ ← on_handle (fun h => set_pid (wrapping_add 64 pid 1) h);
  let prepare := build_prepare_request (Z.min ttl_ms (2 ^ 64 - 1)) pid in
  resp ← handle_request (str "PUT") (chars "/prepare") prepare;
  _ ← lift (expect_success resp);
  put_characteristics (build_timed_write_request [((aid, iid), value)] pid).

Definition write_with_response (aid iid : Z) (value : CharValue) : M CharValue :=
  let body := build_write_request_with_response [((aid, iid), value)] in
  resp ← handle_request (str "PUT") CHARACTERISTICS body;
  _ ← lift (expect_success resp);
  v ← lift (map_err HapModel (parse_read_response (sr_body resp)));
  r ← lift (ok_or (head v) (HapCharacteristicNotFound aid iid));
  h ← get_handle;
  mret (match ih_formats h !! (aid, iid) with Some f => coerce_to_format r.2 f | None => r.2 end).

(** One [EVENT/1.0] body in the pump: the events sent. *)
Definition pump_event (formats : gmap (Z * Z) CharFormat) (body : bytes) : list ((Z * Z) * CharValue) :=
  match parse_read_response body with
  | Ok reports => retype formats <$> reports
  | _ => []
  end.
End handle.

(** ** The accessory's side

    An accessory that keeps typed values and a set of subscriptions, and describes itself
    in the body it answers [/accessories] with.  It speaks the JSON of the HAP
    specification: the entries of [/characteristics] are objects with an ["aid"], an ["iid"]
    and a ["value"], ["ev"] or ["status"], their values as [hap_json] and [hap_value] have
    them.  Only the texts of JSON values are the class [HapPeer]. *)

Record Peer := {
  pr_database : bytes; pr_formats : gmap (Z * Z) CharFormat; pr_values : gmap (Z * Z) CharValue; pr_subs : gset (Z * Z)
}.

Definition with_values (values : gmap (Z * Z) CharValue) (p : Peer) : Peer :=
  {| pr_database := pr_database p; pr_formats := pr_formats p; pr_values := values; pr_subs := pr_subs p |}.
Definition with_subs (subs : gset (Z * Z)) (p : Peer) : Peer :=
  {| pr_database := pr_database p; pr_formats := pr_formats p; pr_values := pr_values p; pr_subs := subs |}.

(** The accessory's JSON texts; [exact_number] are the numbers that both sides' texts carry
    exactly (every integer, and the floats serde_json's default parser gives back). *)
Class HapPeer `{SerdeJson} := {
  peer_print : JsonValue Number -> bytes;
  peer_parse : bytes -> option (JsonValue Number);
  exact_number : Number -> Prop
}.

(** [/characteristics?id=a.i,a.i]. *)
Definition parse_query_id (s : list Z) : option (Z * Z) :=
  match split_on 46%Z s with
  | [a; i] => aid ← from_str_radix 10 (2 ^ 64 - 1) a; iid ← from_str_radix 10 (2 ^ 64 - 1) i; Some (aid, iid)
  | _ => None
  end.
Definition parse_query (path : list Z) : option (list (Z * Z)) :=
  let prefix := chars "/characteristics?id=" in
  if starts_with prefix path then mapM parse_query_id (split_on 44%Z (drop (length prefix) path)) else None.

Section peer.
Context `{HapPeer} `{Base64Engine}.

Definition RESOURCE_DOES_NOT_EXIST : Z := -70409.
Definition INVALID_VALUE : Z := -70410.

Local Abbreviation Value := (JsonValue Number).

(** The JSON of a value, and the value a JSON is for a format. *)
Definition hap_json (v : CharValue) : Value :=
  match v with
  | VBool b => JBool b
  | VInt n => JNumber (number_from_i64 n)
  | VUint n => JNumber (number_from_u64 n)
  | VFloat f => from_option JNumber JNull (number_from_f64 f)
  | VStr s => JString s
  | VBytes b => JString (b64_encode b)
  end.

Definition uint_bits (f : CharFormat) : option Z :=
  match f with FUint8 => Some 8 | FUint16 => Some 16 | FUint32 => Some 32 | FUint64 => Some 64 | _ => None end%Z.

Definition hap_value (f : CharFormat) (j : Value) : option CharValue :=
  match f, j with
  | FBool, JBool b => Some (VBool b)
  | FInt, JNumber n => VInt <$> as_i64 n
  | FFloat, JNumber n => VFloat <$> as_f64 n
  | FString, JString s => Some (VStr s)
  | (FTlv8 | FData), JString s => match b64_decode (utf8_encode s) with Ok b => Some (VBytes b) | _ => None end
  | (FUint8 | FUint16 | FUint32 | FUint64), JNumber n =>
      bits ← uint_bits f; u ← as_u64 n; if (u <? 2 ^ bits)%Z then Some (VUint u) else None
  | _, _ => None
  end.

(** The field of an object, wherever it stands. *)
Definition member (name : string) (j : Value) : option Value :=
  match j with
  | JObject fields => snd <$> List.find (fun kv => String.eqb kv.1 name) fields
  | _ => None
  end.
Definition entries_of (j : Value) : option (list Value) :=
  match member "characteristics" j with Some (JArray es) => Some es | _ => None end.

(** One entry of a PUT: the characteristic, the value to write, whether to report events. *)
Record PutEntry := { pe_id : Z * Z; pe_value : option Value; pe_ev : option bool }.

Definition number_of (j : Value) : option Z := match j with JNumber n => as_u64 n | _ => None end.
Definition put_entry (j : Value) : option PutEntry :=
  aid ← member "aid" j ≫= number_of;
  iid ← member "iid" j ≫= number_of;
  Some {| pe_id := (aid, iid); pe_value := member "value" j;
          pe_ev := match member "ev" j with Some (JBool b) => Some b | _ => None end |}.
Definition decode_put (body : bytes) : option (list PutEntry) := j ← peer_parse body; es ← entries_of j; mapM put_entry es.

(** The answer to a GET or a refused PUT. *)
Definition entry_json (id : Z * Z) (name : string) (j : Value) : Value :=
  JObject [("aid", JNumber (number_from_u64 id.1)); ("iid", JNumber (number_from_u64 id.2)); (name, j)].
Definition status_json (id : Z * Z) (status : Z) : Value := entry_json id "status" (JNumber (number_from_i64 status)).
Definition value_json (p : Peer) (id : Z * Z) : Value :=
  match pr_values p !! id with
  | Some v => entry_json id "value" (hap_json v)
  | None => status_json id RESOURCE_DOES_NOT_EXIST
  end.
Definition render_entries (es : list Value) : bytes := peer_print (JObject [("characteristics", JArray es)]).

Definition apply_value (id : Z * Z) (j : Value) (p : Peer) : option Peer :=
  f ← pr_formats p !! id; v ← hap_value f j; Some (with_values (<[id := v]> (pr_values p)) p).
Definition apply_ev (id : Z * Z) (enable : bool) (p : Peer) : Peer :=
  with_subs (if enable then {[id]} ∪ pr_subs p else pr_subs p ∖ {[id]}) p.

(** One entry of a PUT; [None] if it is refused. *)
Definition apply_put (p : Peer) (e : PutEntry) : option Peer :=
  p ← match pe_value e with Some j => apply_value (pe_id e) j p | None => Some p end;
  Some (match pe_ev e with Some enable => apply_ev (pe_id e) enable p | None => p end).

Fixpoint apply_puts (es : list PutEntry) (p : Peer) : option Peer :=
  match es with [] => Some p | e :: es' => p ← apply_put p e; apply_puts es' p end.

Definition serve_put (body : bytes) (p : Peer) : SessionResponse * Peer :=
  match decode_put body with
  | Some es =>
      match apply_puts es p with
      | Some p' => ({| sr_status := 204; sr_body := [] |}, p')
      | None =>
          ({| sr_status := 207; sr_body := render_entries ((fun e => status_json (pe_id e) INVALID_VALUE) <$> es) |}, p)
      end
  | None => ({| sr_status := 400; sr_body := [] |}, p)
  end.

Definition serve_http (method : bytes) (path : list Z) (body : bytes) (p : Peer) : SessionResponse * Peer :=
  if bool_decide (method = str "GET") then
    match parse_query path with
    | Some ids =>
        ({| sr_status := if bool_decide (Forall (fun id => is_Some (pr_values p !! id)) ids) then 200 else 207;
            sr_body := render_entries (value_json p <$> ids) |}, p)
    | None =>
        (if bool_decide (path = chars "/accessories") then {| sr_status := 200; sr_body := pr_database p |}
         else {| sr_status := 400; sr_body := [] |}, p)
    end
  else if bool_decide (method = str "PUT") && bool_decide (path = CHARACTERISTICS) then serve_put body p
  else ({| sr_status := 400; sr_body := [] |}, p).
End peer.

(** What is relied on of serde_json's numbers, of base64 and of the JSON texts: each side
    reads the other's text of a JSON value as that value. *)
Class NumberLaws `{SerdeJson} := {
  u64_from n : in_u 64 n -> as_u64 (number_from_u64 n) = Some n;
  i64_from n : (- 2 ^ 63 <= n < 2 ^ 63)%Z -> as_i64 (number_from_i64 n) = Some n;
  f64_from f n : number_from_f64 f = Some n -> as_f64 n = Some f;
  u64_range n u : as_u64 n = Some u -> in_u 64 u;
  i64_range n i : as_i64 n = Some i -> (- 2 ^ 63 <= i < 2 ^ 63)%Z;
  i64_u64 n i u : as_i64 n = Some i -> as_u64 n = Some u -> u = i;
  f64_u64 n f u : as_f64 n = Some f -> as_u64 n = Some u -> f = f64_of_int u;
  f64_i64 n f i : as_f64 n = Some f -> as_u64 n = None -> as_i64 n = Some i -> f = f64_of_int i
}.

Class Base64Laws `{Base64Engine} := {
  b64_ascii b : Forall is_scalar (b64_encode b);
  b64_roundtrip b : b64_decode (utf8_encode (b64_encode b)) = Ok b
}.

Definition id_ok (id : Z * Z) : Prop := in_u 64 id.1 /\ in_u 64 id.2.

(** A JSON value of exact numbers, whose strings are text and whose objects' keys differ. *)
Fixpoint json_ok `{HapPeer} (j : JsonValue Number) : Prop :=
  match j with
  | JNull | JBool _ => True
  | JNumber n => exact_number n
  | JString s => Forall is_scalar s
  | JArray l => foldr (fun j rest => json_ok j /\ rest) True l
  | JObject l =>
      NoDup l.*1 /\ Forall (fun k => is_Some (from_utf8 (str k))) l.*1 /\
      foldr (fun kv rest => json_ok kv.2 /\ rest) True l
  end.

Class HapPeerLaws `{HapPeer} `{Base64Engine} := {
  peer_numbers :: NumberLaws;
  peer_base64 :: Base64Laws;
  exact_u64 n : in_u 64 n -> exact_number (number_from_u64 n);
  exact_i64 n : (- 2 ^ 63 <= n < 2 ^ 63)%Z -> exact_number (number_from_i64 n);
  print_read j : json_ok j -> json_from_slice (peer_print j) = Ok j;
  parse_sent j : json_ok j -> peer_parse (to_vec j) = Some j
}.

(** A connection that ends in such an accessory; [carries] are the requests and answers of
    a size it carries. *)
Class IpLink `{HapPeer} `{Base64Engine} (W : Type) `{IpConn W} := {
  peer : W -> Peer;
  link_ok : W -> Prop;
  carries : bytes -> list Z -> bytes -> SessionResponse -> Prop;
  conn_served method path body w :
    link_ok w -> carries method path body (serve_http method path body (peer w)).1 ->
    exists w', conn_request method path HAP_JSON body w = (Ok (serve_http method path body (peer w)).1, w') /\
      peer w' = (serve_http method path body (peer w)).2 /\ link_ok w'
}.

(** ** The specification: typed values and subscriptions *)

Inductive IpOp :=
| IpRead (ids : list (Z * Z))
| IpWrite (ws : list ((Z * Z) * CharValue))
| IpSubscribe (id : Z * Z)
| IpUnsubscribe (id : Z * Z).

Section spec.
Context `{HapPeer} `{Base64Engine}.

(** A value of the format: in its range, a string of text, a float the texts carry. *)
Definition value_typed (f : CharFormat) (v : CharValue) : Prop :=
  match f, v with
  | FBool, VBool _ | (FTlv8 | FData), VBytes _ => True
  | (FUint8 | FUint16 | FUint32 | FUint64), VUint n => exists bits, uint_bits f = Some bits /\ in_u bits n
  | FInt, VInt n => (- 2 ^ 63 <= n < 2 ^ 63)%Z
  | FFloat, VFloat x => exists n, number_from_f64 x = Some n /\ exact_number n
  | FString, VStr s => Forall is_scalar s
  | _, _ => False
  end.

(** How a read reports it: without the format in the response, byte values stay base64. *)
Definition read_as (v : CharValue) : CharValue :=
  match v with VBytes b => VStr (b64_encode b) | _ => v end.

Definition spec_ip (op : IpOp) (p : Peer) : list ((Z * Z) * CharValue) * Peer :=
  match op with
  | IpRead ids => (omap (fun id => pair id ∘ read_as <$> pr_values p !! id) ids, p)
  | IpWrite ws => ([], with_values (foldl (fun m w => <[w.1 := w.2]> m) (pr_values p) ws) p)
  | IpSubscribe id => ([], with_subs ({[id]} ∪ pr_subs p) p)
  | IpUnsubscribe id => ([], with_subs (pr_subs p ∖ {[id]}) p)
  end.

Fixpoint spec_ips (ops : list IpOp) (p : Peer) : list (list ((Z * Z) * CharValue)) * Peer :=
  match ops with
  | [] => ([], p)
  | op :: ops' => let '(r, p) := spec_ip op p in let '(rs, p) := spec_ips ops' p in (r :: rs, p)
  end.

Definition typed_in (formats : gmap (Z * Z) CharFormat) (id : Z * Z) (v : CharValue) : Prop :=
  exists f, formats !! id = Some f /\ value_typed f v.

(** Operations on characteristics the accessory has, with values of their formats. *)
Definition ip_op_ok (p : Peer) (op : IpOp) : Prop :=
  match op with
  | IpRead ids => ids <> [] /\ Forall (fun id => id_ok id /\ is_Some (pr_values p !! id)) ids
  | IpWrite ws => Forall (fun w => id_ok w.1 /\ typed_in (pr_formats p) w.1 w.2) ws
  | IpSubscribe id | IpUnsubscribe id => id_ok id
  end.

Definition peer_ok (p : Peer) : Prop := map_Forall (typed_in (pr_formats p)) (pr_values p).

(** The request an operation makes. *)
Definition ip_message (op : IpOp) : bytes * list Z * bytes :=
  match op with
  | IpRead ids => (str "GET", build_read_request ids, [])
  | IpWrite ws => (str "PUT", CHARACTERISTICS, build_write_request ws)
  | IpSubscribe id => (str "PUT", CHARACTERISTICS, build_subscribe_request [id] true)
  | IpUnsubscribe id => (str "PUT", CHARACTERISTICS, build_subscribe_request [id] false)
  end.
End spec.

Section run_ip.
Context `{SerdeJson} `{Base64Engine} `{Generated} `{IpConn W}.

Definition run_ip (op : IpOp) : stateful (IpHandle * W) HapError (list ((Z * Z) * CharValue)) :=
  match op with
  | IpRead ids => read_many ids
  | IpWrite ws => _ ← write_many ws; mret []
  | IpSubscribe (aid, iid) => _ ← ih_subscribe aid iid; mret []
  | IpUnsubscribe (aid, iid) => _ ← ih_unsubscribe aid iid; mret []
  end.

Fixpoint run_ips (ops : list IpOp) : stateful (IpHandle * W) HapError (list (list ((Z * Z) * CharValue))) :=
  match ops with
  | [] => mret []
  | op :: ops' => r ← run_ip op; rs ← run_ips ops'; mret (r :: rs)
  end.
End run_ip.

(** * Lemmas *)

(** ** Values *)

Ltac typed_cases f v Hv := destruct f, v; try done; cbn [value_typed] in Hv.

Lemma uint_in_u64 f bits n : uint_bits f = Some bits -> in_u bits n -> in_u 64 n.
Proof. unfold in_u. destruct f; intros [= <-]; lia. Qed.

(** The client writes a value the way the accessory reads it. *)
Lemma hap_value_to_json `{HapPeer} `{Base64Engine} {NL : NumberLaws} {BL : Base64Laws} f v :
  value_typed f v -> hap_value f (to_json v) = Some v.
Proof.
  intros Hv. typed_cases f v Hv; cbn [hap_value to_json].
  1-4: destruct Hv as (bits & Hb & Hn); rewrite Hb; cbn [mbind option_bind];
    rewrite u64_from by (by eapply uint_in_u64); cbn [mbind option_bind]; by rewrite (proj2 (Z.ltb_lt _ _)) by apply Hn.
  - by rewrite i64_from.
  - destruct Hv as (n & Hn & _). rewrite Hn. cbn. by rewrite (f64_from _ _ Hn).
  - by rewrite b64_roundtrip.
  - by rewrite b64_roundtrip.
Qed.

(** Reading what the accessory writes, without the format, and coercing it. *)
Lemma read_as_typed `{HapPeer} `{Base64Engine} {NL : NumberLaws} f v :
  value_typed f v -> exists v0, infer_value (hap_json v) = Ok v0 /\ coerce_to_format v0 f = read_as v.
Proof.
  intros Hv. typed_cases f v Hv; cbn [hap_json infer_value]; try (by eexists).
  1-4: destruct Hv as (bits & Hb & Hn); rewrite u64_from by (by eapply uint_in_u64); by eexists.
  - destruct (as_u64 _) as [u|] eqn:Hu; [|rewrite i64_from by done; by eexists].
    rewrite (i64_u64 _ n u (i64_from _ Hv) Hu). eexists. split; [done|]. cbn. by rewrite (proj2 (Z.leb_le _ _)) by lia.
  - destruct Hv as (n & Hn & _). rewrite Hn. cbn [from_option infer_value]. pose proof (f64_from _ _ Hn) as Hf.
    destruct (as_u64 n) as [u|] eqn:Hu; [eexists; split; [done|]; cbn; by rewrite (f64_u64 n f u)|].
    destruct (as_i64 n) as [i|] eqn:Hi; [eexists; split; [done|]; cbn; by rewrite (f64_i64 n f i)|].
    rewrite Hf. by eexists.
Qed.

(** The wire struct of a response holds [u64] ids and an [i64] status, and never a null value. *)
Lemma de_read_entry_widths `{NumberLaws} `{Base64Engine} j e :
  de_read_entry j = Some e ->
  in_u 64 (we_aid e) /\ in_u 64 (we_iid e) /\ we_value e <> Some JNull /\
  match we_status e with Some s => (- 2 ^ 63 <= s < 2 ^ 63)%Z | None => True end.
Proof.
  assert (forall f u, required value_as_u64 f = Some u -> in_u 64 u) as Hu.
  { intros [[| |n| | |]|] u; cbn; try done. apply u64_range. }
  assert (forall f s, defaulted value_as_i64 f = Some (Some s) -> (- 2 ^ 63 <= s < 2 ^ 63)%Z) as Hi.
  { intros [[| |n|t| |]|] s; cbn; try done. destruct (as_i64 n) eqn:En; [|done]. intros [= <-]. by eapply i64_range. }
  assert (forall f : option (JsonValue Number), defaulted Some f <> Some (Some JNull)) as Hv by (by intros [[]|]).
  unfold de_read_entry. destruct (struct_fields _ j) as [[|aid [|iid [|value [|status [|format []]]]]]|]; try done. cbn.
  destruct (required value_as_u64 aid) as [a|] eqn:Ea; [|done]. cbn.
  destruct (required value_as_u64 iid) as [i|] eqn:Ei; [|done]. cbn.
  destruct (defaulted Some value) as [v|] eqn:Ev; [|done]. cbn.
  destruct (defaulted value_as_i64 status) as [s|] eqn:Es; [|done]. cbn.
  destruct (defaulted de_format format); [|done]. cbn. intros [= <-]. cbn.
  split; [by eapply Hu|]. split; [by eapply Hu|]. split; [intros ->; by eapply Hv|]. destruct s; [by eapply Hi|done].
Qed.

(** ** The query *)

Lemma decimal_no_sep n c : (0 <= n)%Z -> (c < 48)%Z -> c ∉ to_decimal n.
Proof.
  intros Hn Hc Hin. pose proof (to_decimal_digits n Hn) as Hd. apply (proj1 (Forall_forall _ _) Hd) in Hin. lia.
Qed.

Lemma parse_query_id_to_decimal id : id_ok id ->
  parse_query_id (to_decimal id.1 ++ chars "." ++ to_decimal id.2) = Some id.
Proof.
  intros [Ha Hi]. destruct id as [a i]. unfold in_u in *. cbn [fst snd] in *. unfold parse_query_id.
  rewrite split_on_skip by (apply decimal_no_sep; lia). change (chars ".") with [46%Z]. cbn [app split_on].
  rewrite bool_decide_true by done. rewrite split_on_line by (apply decimal_no_sep; lia).
  rewrite app_nil_r, !from_str_radix_to_decimal by lia. done.
Qed.

Lemma split_read_query ids : ids <> [] -> Forall id_ok ids ->
  split_on 44%Z (read_query true ids) = (fun id => to_decimal id.1 ++ chars "." ++ to_decimal id.2) <$> ids.
Proof.
  assert (forall id, id_ok id -> 44%Z ∉ to_decimal id.1 ++ chars "." ++ to_decimal id.2) as Hno.
  { intros [a i] [Ha Hi]. unfold in_u in *. cbn [fst snd] in *. rewrite !not_elem_of_app.
    split; [apply decimal_no_sep; lia|]. split; [|apply decimal_no_sep; lia].
    change (chars ".") with [46%Z]. rewrite list_elem_of_singleton. lia. }
  intros Hne Hids. destruct ids as [|id ids]; [done|]. clear Hne. revert id Hids.
  induction ids as [|id' ids IH]; intros id Hids; apply Forall_cons in Hids as [Hid Hids]; specialize (Hno id Hid);
    destruct id as [a i]; cbn [read_query fst snd fmap list_fmap app] in *.
  - rewrite app_nil_r. by apply split_on_line.
  - specialize (IH id' Hids). destruct id' as [a' i']. cbn [read_query fst snd fmap list_fmap app] in *.
    replace (to_decimal a ++ chars "." ++ to_decimal i ++ chars "," ++ to_decimal a' ++ chars "." ++ to_decimal i' ++ read_query false ids)
      with ((to_decimal a ++ chars "." ++ to_decimal i) ++ 44%Z :: (to_decimal a' ++ chars "." ++ to_decimal i' ++ read_query false ids))
      by (rewrite <- !app_assoc; done).
    rewrite split_on_skip by done. cbn [split_on]. rewrite bool_decide_true by done.
    rewrite IH. by rewrite app_nil_r.
Qed.

Lemma parse_query_build ids : ids <> [] -> Forall id_ok ids -> parse_query (build_read_request ids) = Some ids.
Proof.
  intros Hne Hids. unfold parse_query, build_read_request.
  assert (forall p l : list Z, starts_with p (p ++ l) = true) as Hst.
  { intros p l. induction p as [|c p IH]; [done|]. cbn. by rewrite bool_decide_true. }
  rewrite Hst, drop_app_length, split_read_query by done.
  apply mapM_Some, Forall2_fmap_l. clear Hne.
  induction Hids as [|id ids Hid _ IH]; constructor; [by apply parse_query_id_to_decimal|done].
Qed.

(** ** One operation *)

Section refinement.
Context `{IpLink W} `{Generated} {PL : HapPeerLaws}.

(** The handle has learned the peer's formats, every value has its format, and the handle
    records the subscriptions the peer holds. *)
Definition ip_linked (hw : IpHandle * W) : Prop :=
  ih_formats hw.1 = pr_formats (peer hw.2) /\ peer_ok (peer hw.2) /\ ih_subscribed hw.1 = pr_subs (peer hw.2) /\
  link_ok hw.2.

(** The connection carries the request of an operation and its answer. *)
Definition message_carried (p : Peer) (m : bytes * list Z * bytes) : Prop :=
  carries m.1.1 m.1.2 m.2 (serve_http m.1.1 m.1.2 m.2 p).1.
Definition ip_op_carried (p : Peer) (op : IpOp) : Prop := message_carried p (ip_message op).

(** The client reads an answer as the entries the accessory rendered. *)
Lemma json_ok_hap_json f v : value_typed f v -> json_ok (hap_json v).
Proof.
  intros Hv. typed_cases f v Hv; cbn; try done; try apply b64_ascii; try (by apply exact_i64).
  1-4: destruct Hv as (bits & Hb & Hn); apply exact_u64; by eapply uint_in_u64.
  destruct Hv as (n & -> & Hn). exact Hn.
Qed.

Lemma json_ok_entry id name j :
  id_ok id -> name ∉ ["aid"; "iid"] -> is_Some (from_utf8 (str name)) -> json_ok j -> json_ok (entry_json id name j).
Proof.
  intros [Ha Hi] Hn Hu Hj. cbn. split_and!; try done; try (by apply exact_u64).
  - repeat (apply NoDup_cons; split; [set_solver|]). apply NoDup_nil_2.
  - repeat (apply Forall_cons; split; [by eexists|]). by apply Forall_singleton.
Qed.

Lemma json_ok_all l : Forall json_ok l -> foldr (fun j rest => json_ok j /\ rest) True l.
Proof. induction 1; by split. Qed.

Lemma json_ok_body es : Forall json_ok es -> json_ok (JObject [("characteristics", JArray es)]).
Proof.
  intros Hes. split; [apply NoDup_singleton|]. split; [by apply Forall_singleton; eexists|]. split; [by apply json_ok_all|done].
Qed.

Lemma de_value_entry id v :
  id_ok id -> hap_json v <> JNull ->
  de_read_entry (entry_json id "value" (hap_json v)) =
    Some {| we_aid := id.1; we_iid := id.2; we_value := Some (hap_json v); we_status := None; we_format := None |}.
Proof.
  intros [Ha Hi] Hn. unfold de_read_entry, entry_json. cbn. rewrite !u64_from by done. cbn. by destruct (hap_json v).
Qed.

Lemma read_render es rs :
  Forall json_ok es -> mapM de_read_entry es = Some rs -> read_response_from_slice (render_entries es) = Ok rs.
Proof.
  intros Hok Hrs. unfold read_response_from_slice, from_slice, render_entries. rewrite print_read by by apply json_ok_body.
  cbn. by rewrite Hrs.
Qed.

Lemma hap_json_not_null f v : value_typed f v -> hap_json v <> JNull.
Proof. intros Hv. typed_cases f v Hv. cbn. by destruct Hv as (n & -> & _). Qed.

Lemma read_value_entry id j v0 : infer_value j = Ok v0 ->
  read_entry {| we_aid := id.1; we_iid := id.2; we_value := Some j; we_status := None; we_format := None |} = Ok (Some (id, v0)).
Proof. intros Hi. unfold read_entry. cbn. rewrite Hi. by destruct id. Qed.

Lemma read_entries p h ids :
  ih_formats h = pr_formats p -> peer_ok p -> Forall id_ok ids -> Forall (fun id => is_Some (pr_values p !! id)) ids ->
  exists es rs, read_response_from_slice (render_entries (value_json p <$> ids)) = Ok es /\ mapM read_entry es = Ok rs /\
    retype (ih_formats h) <$> omap Datatypes.id rs = omap (fun id => pair id ∘ read_as <$> pr_values p !! id) ids.
Proof.
  intros Hf Hp Hok Hids.
  assert (Forall json_ok (value_json p <$> ids) /\ exists es, mapM de_read_entry (value_json p <$> ids) = Some es /\
    exists rs, mapM read_entry es = Ok rs /\
      retype (ih_formats h) <$> omap Datatypes.id rs = omap (fun id => pair id ∘ read_as <$> pr_values p !! id) ids)
    as (Hj & es & He & rs & Hr & Hret).
  2:{ exists es, rs. split; [by apply read_render|done]. }
  induction Hok as [|id ids Hid Hok IH]; [split; [apply Forall_nil_2|]; exists []; split; [done|]; by exists []|].
  apply Forall_cons in Hids as [[v Hv] Hids]. destruct (IH Hids) as (Hj & es & He & rs & Hr & Hret). clear IH.
  destruct (Hp id v Hv) as (f & Hfm & Ht). destruct (read_as_typed f v Ht) as (v0 & Hi & Hc).
  pose proof (de_value_entry id v Hid (hap_json_not_null _ _ Ht)) as Hde.
  assert (value_json p id = entry_json id "value" (hap_json v)) as Hvj by (unfold value_json; by rewrite Hv).
  rewrite fmap_cons, Hvj. split.
  { apply Forall_cons. split; [|done]. apply json_ok_entry; [done|set_solver|by eexists|by eapply json_ok_hap_json]. }
  eexists. split; [cbn [mapM]; rewrite Hde; cbn [mbind option_bind]; by rewrite He|].
  exists (Some (id, v0) :: rs). split.
  { cbn [mapM]. rewrite (read_value_entry id _ v0) by done. cbn [mbind result_bind]. by rewrite Hr. }
  cbn [omap list_omap Datatypes.id]. rewrite fmap_cons, Hret, Hv. cbn. f_equal. unfold retype. cbn [fst snd].
  by rewrite Hf, Hfm, Hc.
Qed.

(** The accessory reads the bodies the client builds. *)
Lemma json_ok_to_json f v : value_typed f v -> json_ok (to_json v).
Proof.
  intros Hv. typed_cases f v Hv; cbn; try done; try apply b64_ascii; try (by apply exact_i64).
  1-4: destruct Hv as (bits & Hb & Hn); apply exact_u64; by eapply uint_in_u64.
  destruct Hv as (n & -> & Hn). exact Hn.
Qed.

Lemma decode_body es ps :
  Forall json_ok es -> mapM put_entry es = Some ps -> decode_put (characteristics_body es) = Some ps.
Proof.
  intros Hok Hps. unfold decode_put, characteristics_body. rewrite parse_sent by by apply json_ok_body. cbn. by rewrite Hps.
Qed.

Definition value_put (w : (Z * Z) * CharValue) : PutEntry :=
  {| pe_id := w.1; pe_value := Some (to_json w.2); pe_ev := None |}.

Definition put_fields (id : Z * Z) (l : list (string * JsonValue Number)) : list (string * JsonValue Number) :=
  ("aid", json_u64 id.1) :: ("iid", json_u64 id.2) :: l.

Lemma put_value_entry id v : id_ok id ->
  put_entry (json_object (put_fields id [("value", v)])) = Some {| pe_id := id; pe_value := Some v; pe_ev := None |}.
Proof.
  intros [Ha Hi]. change (json_object _) with (JObject (put_fields id [("value", v)])). unfold put_entry. cbn.
  rewrite !u64_from by done. by destruct id.
Qed.
Lemma put_ev_entry id b : id_ok id ->
  put_entry (json_object (put_fields id [("ev", JBool b)])) = Some {| pe_id := id; pe_value := None; pe_ev := Some b |}.
Proof.
  intros [Ha Hi].
  change (json_object _) with (JObject [("aid", json_u64 id.1); ("ev", JBool b); ("iid", json_u64 id.2)]).
  unfold put_entry. cbn. rewrite !u64_from by done. by destruct id.
Qed.

Lemma json_ok_put id name j : id_ok id -> name ∈ ["value"; "ev"] -> json_ok j -> json_ok (json_object (put_fields id [(name, j)])).
Proof.
  intros [Ha Hi] [-> | ->%list_elem_of_singleton]%elem_of_cons Hj;
    [change (json_ok (JObject (put_fields id [("value", j)])))
    |change (json_ok (JObject [("aid", json_u64 id.1); ("ev", j); ("iid", json_u64 id.2)]))]; cbn; (split; [|split]);
    try (repeat (apply NoDup_cons; split; [set_solver|]); apply NoDup_nil_2);
    try (repeat (apply Forall_cons; split; [by eexists|]); apply Forall_nil_2);
    split_and!; try done; by apply exact_u64.
Qed.

Lemma decode_writes formats ws :
  Forall (fun w => id_ok w.1 /\ typed_in formats w.1 w.2) ws ->
  decode_put (build_write_request ws) = Some (value_put <$> ws).
Proof.
  intros Hws. apply decode_body.
  - apply Forall_fmap. eapply Forall_impl; [exact Hws|]. intros [[a i] v] [Hid (f & _ & Hv)].
    apply (json_ok_put (a, i)); [done|set_solver|by eapply json_ok_to_json].
  - induction Hws as [|[[a i] v] ws [Hid _] _ IH]; [done|]. cbn [fmap list_fmap mapM].
    pose proof (put_value_entry (a, i) (to_json v) Hid) as He. unfold put_fields in He. cbn [fst snd] in *. rewrite He. cbn [mbind option_bind].
    by rewrite IH.
Qed.

Lemma decode_event aid iid enable :
  id_ok (aid, iid) ->
  decode_put (build_subscribe_request [(aid, iid)] enable) =
    Some [{| pe_id := (aid, iid); pe_value := None; pe_ev := Some enable |}].
Proof.
  intros Hid. apply decode_body.
  - apply Forall_singleton. by apply (json_ok_put (aid, iid)); [|set_solver|].
  - cbn [fmap list_fmap mapM]. pose proof (put_ev_entry (aid, iid) enable Hid) as He. unfold put_fields in He.
    cbn [fst snd] in He. by rewrite He.
Qed.

Lemma apply_puts_typed ws p :
  Forall (fun w => typed_in (pr_formats p) w.1 w.2) ws ->
  apply_puts (value_put <$> ws) p = Some (with_values (foldl (fun m w => <[w.1 := w.2]> m) (pr_values p) ws) p).
Proof.
  intros Hws. destruct p as [db fs vs subs]. cbn [pr_formats] in Hws. revert vs.
  induction Hws as [|w ws (f & Hf & Hv) _ IH]; intros vs; [done|].
  cbn [fmap list_fmap apply_puts foldl]. unfold apply_put, apply_value. cbn [pe_value pe_ev pe_id value_put pr_formats].
  rewrite Hf. cbn [mbind option_bind]. rewrite (hap_value_to_json _ _ Hv). cbn [mbind option_bind].
  exact (IH (<[w.1 := w.2]> vs)).
Qed.

Lemma peer_ok_writes p ws :
  Forall (fun w => typed_in (pr_formats p) w.1 w.2) ws -> peer_ok p ->
  peer_ok (with_values (foldl (fun m w => <[w.1 := w.2]> m) (pr_values p) ws) p).
Proof.
  intros Hws Hp. unfold peer_ok in *. cbn [with_values pr_formats pr_values]. revert Hp.
  generalize (pr_values p). induction Hws as [|w ws Hw _ IH]; intros values Hv; [done|].
  apply IH. by apply map_Forall_insert_2.
Qed.

(** A request answered by the peer. *)
Lemma handle_request_served method path body h w :
  link_ok w -> message_carried (peer w) (method, path, body) ->
  exists w', handle_request method path body (h, w) = (Ok (serve_http method path body (peer w)).1, (h, w')) /\
    peer w' = (serve_http method path body (peer w)).2 /\ link_ok w'.
Proof.
  intros Hok Hc. destruct (conn_served method path body w Hok Hc) as (w' & Hr & Hp). exists w'. split; [|done].
  unfold handle_request, on_conn. cbn [fst snd]. by rewrite Hr.
Qed.

Lemma put_served body h w p' :
  link_ok w -> message_carried (peer w) (str "PUT", CHARACTERISTICS, body) ->
  (serve_put body (peer w)) = ({| sr_status := 204; sr_body := [] |}, p') ->
  exists w', put_characteristics body (h, w) = (Ok (), (h, w')) /\ peer w' = p' /\ link_ok w'.
Proof.
  intros Hok Hc Hs. destruct (handle_request_served (str "PUT") CHARACTERISTICS body h w Hok Hc) as (w' & Hr & Hp).
  change (serve_http (str "PUT") CHARACTERISTICS body (peer w)) with (serve_put body (peer w)) in *.
  rewrite Hs in *. exists w'. split; [|done]. unfold put_characteristics. run. by rewrite Hr.
Qed.

Lemma run_ip_ok op h w :
  ip_linked (h, w) -> ip_op_ok (peer w) op -> ip_op_carried (peer w) op ->
  exists h' w', run_ip op (h, w) = (Ok (spec_ip op (peer w)).1, (h', w')) /\
    peer w' = (spec_ip op (peer w)).2 /\ ip_linked (h', w').
Proof using PL.
  intros (Hf & Hp & Hs & Hlk) Hop Hca. unfold ip_op_carried in Hca. cbn [fst snd] in *. destruct op as [ids|ws|[aid iid]|[aid iid]]; cbn [run_ip].
  - destruct Hop as [Hne Hids].
    assert (Forall id_ok ids /\ Forall (fun id => is_Some (pr_values (peer w) !! id)) ids) as [Hok Hsome]
      by by apply Forall_and.
    destruct (handle_request_served (str "GET") (build_read_request ids) [] h w Hlk Hca) as (w' & Hr & Hp' & Hlk').
    unfold serve_http in *. rewrite bool_decide_true in * by done. rewrite parse_query_build in * by done.
    destruct (read_entries (peer w) h ids Hf Hp Hok Hsome) as (es & rs & Hes & Hrs & Hret).
    exists h, w'. cbn [fst snd] in *. split; [|split; [done|split_and!; cbn; by rewrite ?Hp']].
    unfold read_many. run. rewrite Hr. unfold expect_success. rewrite bool_decide_true by done.
    change (is_success _) with true. cbn [negb sr_body]. unfold parse_read_response. rewrite Hes.
    cbn [map_err mbind result_bind]. rewrite Hrs. cbn. by rewrite Hret.
  - cbn in Hop. assert (Forall (fun w0 => typed_in (pr_formats (peer w)) w0.1 w0.2) ws) as Hws
      by (eapply Forall_impl; [exact Hop|]; by intros w0 [_ ?]).
    destruct (put_served (build_write_request ws) h w (spec_ip (IpWrite ws) (peer w)).2 Hlk Hca) as (w' & Hr & Hp' & Hlk').
    { unfold serve_put. rewrite (decode_writes (pr_formats (peer w))) by done. by rewrite apply_puts_typed. }
    exists h, w'. split; [unfold write_many; run; by rewrite Hr|]. split; [done|].
    split; cbn; rewrite Hp'; [done|]. split; [by apply peer_ok_writes|done].
  - destruct (put_served (build_subscribe_request [(aid, iid)] true) h w
      (spec_ip (IpSubscribe (aid, iid)) (peer w)).2 Hlk Hca) as (w' & Hr & Hp' & Hlk').
    { unfold serve_put. by rewrite decode_event. }
    eexists _, w'. split; [unfold ih_subscribe, on_handle; run; by rewrite Hr|]. split; [done|].
    split_and!; cbn; rewrite ?Hp'; cbn; try done; by rewrite Hs.
  - destruct (put_served (build_subscribe_request [(aid, iid)] false) h w
      (spec_ip (IpUnsubscribe (aid, iid)) (peer w)).2 Hlk Hca) as (w' & Hr & Hp' & Hlk').
    { unfold serve_put. by rewrite decode_event. }
    eexists _, w'. split; [unfold ih_unsubscribe, on_handle; run; by rewrite Hr|]. split; [done|].
    split_and!; cbn; rewrite ?Hp'; cbn; try done; by rewrite Hs.
Qed.

(** Fetching the tree: the handle learns the formats the accessory declares. *)
Definition describes (p : Peer) (tree : list Accessory) : Prop :=
  parse_accessories (pr_database p) = Ok tree /\ formats_of tree = pr_formats p.
Definition fetch_message : bytes * list Z * bytes := (str "GET", chars "/accessories", []).

Lemma ih_fetch_ok h w tree :
  link_ok w -> peer_ok (peer w) -> describes (peer w) tree -> ih_accessories h = None ->
  ih_subscribed h = pr_subs (peer w) -> message_carried (peer w) fetch_message ->
  exists h' w', ih_fetch (h, w) = (Ok tree, (h', w')) /\ peer w' = peer w /\ ip_linked (h', w').
Proof.
  intros Hlk Hp [Ht Hf] Hn Hs Hca. unfold ih_fetch, on_handle, get_handle. run. cbn [fst snd].
  set (h1 := if ih_needs_refresh h then _ else h).
  assert (ih_accessories h1 = None /\ ih_subscribed h1 = ih_subscribed h) as [-> Hs1] by (unfold h1; by destruct (ih_needs_refresh h)).
  destruct (handle_request_served (str "GET") (chars "/accessories") [] h1 w Hlk Hca) as (w' & Hr & Hp' & Hlk').
  change (serve_http (str "GET") (chars "/accessories") [] (peer w)) with
    ({| sr_status := 200; sr_body := pr_database (peer w) |}, peer w) in *.
  rewrite Hr. cbn [fst snd expect_success sr_status sr_body] in *. change (expect_success _) with (Ok (E := HapError) ()).
  rewrite Ht. cbn [map_err]. eexists _, w'. split; [reflexivity|]. split; [done|].
  split_and!; cbn; rewrite ?Hp'; [done..|by rewrite Hs1|done].
Qed.

(** Later operations are no less valid: the accessory's characteristics stay. *)
Fixpoint ip_ops_ok (p : Peer) (ops : list IpOp) : Prop :=
  match ops with [] => True | op :: ops' => ip_op_ok p op /\ ip_op_carried p op /\ ip_ops_ok (spec_ip op p).2 ops' end.

Lemma run_ips_ok ops h w :
  ip_linked (h, w) -> ip_ops_ok (peer w) ops ->
  exists h' w', run_ips ops (h, w) = (Ok (spec_ips ops (peer w)).1, (h', w')) /\
    peer w' = (spec_ips ops (peer w)).2 /\ ip_linked (h', w').
Proof using PL.
  revert h w. induction ops as [|op ops IH]; intros h w Hl Hops; [by exists h, w|].
  destruct Hops as (Hop & Hca & Hops). destruct (run_ip_ok op h w Hl Hop Hca) as (h1 & w1 & Hr & Hp & Hl1).
  cbn [run_ips spec_ips]. destruct (spec_ip op (peer w)) as [r p1]. cbn [fst snd] in *. subst p1.
  destruct (IH h1 w1 Hl1 Hops) as (h2 & w2 & Hrs & Hp2 & Hl2). destruct (spec_ips ops (peer w1)) as [rs p2].
  exists h2, w2. cbn [fst snd] in *. split; [|done]. run. rewrite Hr. run. by rewrite Hrs.
Qed.
End refinement.

(** * The theorem *)

(** C8: The handle of [hap-controller/src/handle.rs] implements a store of typed values
    with subscriptions.  Over any connection that ends in an accessory speaking the protocol
    and carries the messages, a handle first fetches the tree the accessory describes itself
    with; then every sequence of [read_many], [write_many], [subscribe] and [unsubscribe] of
    characteristics the accessory has succeeds and returns what the store returns: the last
    value written, back in the type of its format (byte values as their base64 text, since
    the response names no format).  The accessory ends with the store's values and
    subscriptions, and the handle records exactly the subscriptions the accessory holds. *)
Theorem ip_operations_refine `{IpLink W} `{Generated} {PL : HapPeerLaws} (ops : list IpOp) (h : IpHandle) (w : W) tree :
  link_ok w -> peer_ok (peer w) -> describes (peer w) tree -> message_carried (peer w) fetch_message ->
  ih_accessories h = None -> ih_subscribed h = pr_subs (peer w) -> ip_ops_ok (peer w) ops ->
  exists h' w', (tree ← ih_fetch; rs ← run_ips ops; mret (tree, rs)) (h, w) =
      (Ok (tree, (spec_ips ops (peer w)).1), (h', w')) /\
    peer w' = (spec_ips ops (peer w)).2 /\ ih_subscribed h' = pr_subs (peer w').
Proof.
  intros Hlk Hp Hd Hca Hn Hs Hops. destruct (ih_fetch_ok h w tree Hlk Hp Hd Hn Hs Hca) as (h1 & w1 & Hf & Hp1 & Hl1).
  rewrite <- Hp1 in Hops |- *. destruct (run_ips_ok ops h1 w1 Hl1 Hops) as (h' & w' & Hr & Hp' & _ & _ & Hs' & _).
  exists h', w'. split; [|done]. run. by rewrite Hf, Hr.
Qed.

(** ** A JSON, an accessory of two characteristics, and some operations on it *)

#[local] Instance spec_float_eq : EqDecision spec_float := ltac:(solve_decision).
#[local] Instance spec_float_countable : Countable spec_float :=
  inj_countable'
    (fun f => match f with S754_zero s => inl (inl s) | S754_infinity s => inl (inr s) | S754_nan => inr None
              | S754_finite s m e => inr (Some (s, m, e)) end)
    (fun c => match c with inl (inl s) => S754_zero s | inl (inr s) => S754_infinity s | inr None => S754_nan
              | inr (Some (s, m, e)) => S754_finite s m e end) ltac:(by intros []).

Definition demo_number : Type := Z + f64.
Local Abbreviation json := (JsonValue demo_number).
Local Abbreviation leaf := ((bool + demo_number) + (list Z + string))%type.

(** JSON as a tree; the leaves of an object's fields are their names. *)
Fixpoint json_tree (j : json) : gen_tree leaf :=
  match j with
  | JNull => GenNode 0 []
  | JBool b => GenLeaf (inl (inl b))
  | JNumber n => GenLeaf (inl (inr n))
  | JString s => GenLeaf (inr (inl s))
  | JArray l => GenNode 1 (json_tree <$> l)
  | JObject l => GenNode 2 ((fun '(k, v) => GenNode 3 [GenLeaf (inr (inr k)); json_tree v]) <$> l)
  end.

Fixpoint tree_json (t : gen_tree leaf) : json :=
  match t with
  | GenLeaf (inl (inl b)) => JBool b
  | GenLeaf (inl (inr n)) => JNumber n
  | GenLeaf (inr (inl s)) => JString s
  | GenNode 1 l => JArray (tree_json <$> l)
  | GenNode 2 l =>
      JObject ((fun t => match t with GenNode 3 [GenLeaf (inr (inr k)); v] => (k, tree_json v) | _ => (EmptyString, JNull) end) <$> l)
  | _ => JNull
  end.

Fixpoint tree_json_tree (j : json) : tree_json (json_tree j) = j.
Proof.
  destruct j as [|b|n|s|l|l]; cbn; try done; f_equal; induction l as [|x l IH]; cbn; try done.
  - by rewrite tree_json_tree, IH.
  - destruct x as [k v]. by rewrite tree_json_tree, IH.
Qed.

#[local] Instance json_eq : EqDecision json.
Proof. refine (fun a b => cast_if (decide (json_tree a = json_tree b))); [|congruence].
  rewrite <- (tree_json_tree a), <- (tree_json_tree b). by f_equal. Defined.
#[local] Instance json_countable : Countable json := inj_countable' json_tree tree_json tree_json_tree.
#[local] Instance format_countable : Countable CharFormat :=
  inj_countable format_as_str (fun s => list_find (fun f => format_as_str f = s)
    [FBool; FUint8; FUint16; FUint32; FUint64; FInt; FFloat; FString; FTlv8; FData] ≫= Some ∘ snd) ltac:(by intros []).
(** A lamp: On (bool) and Brightness (int). *)
Definition demo_char_json (type format : string) (iid : Z) (value : json) : json :=
  JObject [("iid", JNumber (inl iid)); ("type", JString (chars type)); ("format", JString (chars format));
           ("perms", JArray [JString (chars "pr"); JString (chars "pw"); JString (chars "ev")]); ("value", value)].
Definition demo_database : json :=
  JObject [("accessories", JArray [JObject [("aid", JNumber (inl 1%Z)); ("services", JArray [
    JObject [("iid", JNumber (inl 8%Z)); ("type", JString (chars "43"));
             ("characteristics", JArray [demo_char_json "8" "int" 10 (JNumber (inl 50%Z));
                                         demo_char_json "25" "bool" 9 (JBool true)])]])]])].

Definition demo_print (j : json) : bytes :=
  if bool_decide (j = demo_database) then str "lamp" else x00 :: pos_bytes (encode j).
Definition demo_parse (bs : bytes) : option json :=
  match bs with x00 :: bs' => decode (bytes_pos bs') | _ => if bool_decide (bs = str "lamp") then Some demo_database else None end.

Lemma demo_parse_print j : demo_parse (demo_print j) = Some j.
Proof.
  unfold demo_print. case_bool_decide as Hj; [by rewrite Hj|]. cbn [demo_parse]. by rewrite bytes_pos_bytes, decode_encode.
Qed.

#[local] Instance demo_serde : SerdeJson := {
  Number := demo_number;
  as_u64 n := match n with inl n => if decide (0 <= n < 2 ^ 64)%Z then Some n else None | inr _ => None end;
  as_i64 n := match n with inl n => if decide (- 2 ^ 63 <= n < 2 ^ 63)%Z then Some n else None | inr _ => None end;
  as_f64 n := Some (match n with inl n => f64_of_int n | inr f => f end);
  number_from_u64 := inl;
  number_from_i64 := inl;
  number_from_f64 f := match f with S754_nan | S754_infinity _ => None | _ => Some (inr f) end;
  json_display _ := chars "value";
  to_vec := demo_print;
  json_from_slice bs := ok_or (demo_parse bs) (chars "syntax");
  shape_error _ := chars "shape"
}.

(** Not base64, but an encoding of bytes as text. *)
#[local] Instance demo_base64 : Base64Engine := {
  b64_encode bs := b ← bs; [65 + byteZ b / 16; 65 + byteZ b mod 16]%Z;
  b64_decode :=
    fix go s := match s with
                | [] => Ok []
                | a :: b :: s' => (Zbyte ((byteZ a - 65) * 16 + (byteZ b - 65)) ::.) <$> go s'
                | _ => Err (chars "padding")
                end
}.

#[local] Instance demo_peer : HapPeer := { peer_print := demo_print; peer_parse := demo_parse; exact_number _ := True }.

Lemma demo_laws : HapPeerLaws.
Proof.
  constructor; try done.
  - constructor; cbn; unfold demo_number, in_u; intros; repeat case_match; repeat case_decide; simplify_eq; lia || done.
  - constructor; cbn; intros bs.
    + induction bs as [|b bs IH]; [apply Forall_nil_2|]. rewrite bind_cons. apply Forall_app. split; [|exact IH].
      pose proof (byteZ_range b). repeat (apply Forall_cons; split); [..|apply Forall_nil_2]; left;
        pose proof (Z.mod_pos_bound (byteZ b) 16); pose proof (Z.div_pos (byteZ b) 16);
        pose proof (Z.div_lt_upper_bound (byteZ b) 16 16); lia.
    + induction bs as [|b bs IH]; [done|]. rewrite bind_cons. pose proof (byteZ_range b).
      pose proof (Z.mod_pos_bound (byteZ b) 16). pose proof (Z.div_pos (byteZ b) 16).
      pose proof (Z.div_lt_upper_bound (byteZ b) 16 16). pose proof (Z.div_mod (byteZ b) 16).
      cbn [app]. rewrite !bind_cons. unfold utf8_encode_char at 1 2.
      rewrite !(proj2 (Z.ltb_lt _ 0x80)) by lia. cbn [app]. rewrite !byteZ_Zbyte_small by lia.
      rewrite IH. cbn [fmap result_fmap]. do 2 f_equal.
      rewrite <- (Zbyte_byteZ b) at 3. f_equal. lia.
  - intros j _. cbn. by rewrite demo_parse_print.
  - intros j _. apply demo_parse_print.
Qed.

#[local] Instance demo_conn : IpConn Peer := {
  conn_request method path _ body p := let '(r, p) := serve_http method path body p in (Ok r, p)
}.
Lemma demo_conn_served method path body (p : Peer) :
  True -> True -> exists p', conn_request method path HAP_JSON body p = (Ok (serve_http method path body p).1, p') /\
    p' = (serve_http method path body p).2 /\ True.
Proof. intros _ _. exists (serve_http method path body p).2. cbn. by destruct serve_http. Qed.

#[local] Instance demo_link : IpLink Peer :=
  { peer p := p; link_ok _ := True; carries _ _ _ _ := True; conn_served := demo_conn_served }.

(** The lamp's brightness is written and read back. *)
Definition demo_formats : gmap (Z * Z) CharFormat := <[(1, 9)%Z := FBool]> {[(1, 10)%Z := FInt]}.
Definition demo_lamp : Peer :=
  {| pr_database := str "lamp"; pr_formats := demo_formats; pr_values := <[(1, 9)%Z := VBool true]> {[(1, 10)%Z := VInt 50]}; pr_subs := ∅ |}.
Definition demo_tree : list Accessory :=
  match parse_accessories (pr_database demo_lamp) with Ok tree => tree | _ => [] end.

Lemma demo_describes : describes demo_lamp demo_tree.
Proof.
  split.
  - unfold demo_tree. assert (is_ok (parse_accessories (pr_database demo_lamp)) = true) as Hok by by vm_compute.
    by destruct (parse_accessories _).
  - by vm_compute.
Qed.

Lemma demo_lamp_ok : peer_ok demo_lamp.
Proof. apply map_Forall_insert_2; [by exists FBool|]. apply map_Forall_singleton. by exists FInt. Qed.

Definition demo_ops : list IpOp :=
  [IpRead [(1, 9); (1, 10)]; IpWrite [((1, 10), VInt 70)]; IpSubscribe (1, 9); IpRead [(1, 10)]]%Z.

Lemma demo_ops_ok : ip_ops_ok (peer demo_lamp) demo_ops.
Proof.
  repeat split; try done; repeat apply List.Forall_cons; try apply List.Forall_nil; split; try (by split);
    try (by eexists); exists FInt; by split.
Qed.

Lemma ip_operations_refine_witness :
  exists h' w', (tree ← ih_fetch; rs ← run_ips demo_ops; mret (tree, rs)) (ip_handle_new, demo_lamp) =
      (Ok (demo_tree, [[((1, 9), VBool true); ((1, 10), VInt 50)]; []; []; [((1, 10), VInt 70)]]%Z), (h', w')) /\
    peer w' = (spec_ips demo_ops (peer demo_lamp)).2 /\ ih_subscribed h' = pr_subs (peer w').
Proof.
  exact (ip_operations_refine (PL := demo_laws) demo_ops ip_handle_new demo_lamp demo_tree I demo_lamp_ok demo_describes I
           eq_refl eq_refl demo_ops_ok).
Defined.
