(* ===== verification/Reconnect.v ===== *)
(** * [hap-controller/src/reconnect.rs] and the supervisor of [handle.rs]

    A foreground operation and the supervisor task share the current session.  Between
    two awaits each runs as a function ([resume_fg], [resume_sup]) from the state of its
    task to the next one, with the actions it performs; the answers to its awaits are the
    environment's.  [sys_step] interleaves the two tasks.

    Sessions are numbered; two [Arc]s are the same session when their numbers agree.  The
    receiver the handle keeps lets every [watch::Sender::send] succeed. *)

From S2P Require Import Prelude Text Tlv8 Crypto RecordLayer PairSetup Store Model Types ModelJson BlePdu Handle.

(** ** [reconnect.rs] *)

Definition SessId := nat.

Record Reconnected := { rc_session : SessId; rc_config_number : option Z }.

Inductive ConnectionState := Connected | Reconnecting (attempt : Z) | Disconnected.

#[export] Instance connection_state_eq_dec : EqDecision ConnectionState.
Proof. solve_decision. Defined.

Definition is_session_dead (err : HapError) : bool :=
  match err with
  | HapTransport (ConnectionClosed | SessionClosed | NoResponse | Io _) => true
  | _ => false
  end.

(** [uN::checked_shl]. *)
Definition checked_shl (w a n : Z) : option Z := if (n <? w)%Z then Some (Z.shiftl a n mod 2 ^ w)%Z else None.

(** In seconds. *)
Definition backoff (attempt : Z) : Z :=
  let secs := Z.min (default 30%Z (checked_shl 64 1 (Z.max (attempt - 1) 0))) 30 in Z.max secs 1.

(** The [watch] channel: the current session and the number of times it was sent. *)
Record ReconnectingSession := { rs_current : SessId; rs_version : nat }.

Definition reconnecting_new (initial : SessId) : ReconnectingSession := {| rs_current := initial; rs_version := 0 |}.
Definition publish (s : SessId) (w : ReconnectingSession) : ReconnectingSession :=
  {| rs_current := s; rs_version := S (rs_version w) |}.

Definition Outcome : Type := result HapError SessionResponse.

(** Where [request] awaits. *)
Inductive Foreground :=
| FgRequest (sess : SessId)
| FgWait (dead : SessId) (seen : nat)
| FgRetry (fresh : SessId)
| FgDone (r : Outcome).

Inductive FgAnswer :=
| Answered (a : option Outcome) (* [None]: the time limit elapsed *)
| Changed
| Elapsed.

(** One turn of the [loop] of [wait_for_fresh_then_retry]. *)
Definition wait_for_fresh (w : ReconnectingSession) (dead : SessId) : Foreground :=
  let fresh := rs_current w in
  if negb (fresh =? dead) then FgRetry fresh else FgWait dead (rs_version w).

(** [request]. *)
Definition start_request (w : ReconnectingSession) : Foreground := FgRequest (rs_current w).

Definition resume_fg (w : ReconnectingSession) (fg : Foreground) (ans : FgAnswer) : option Foreground :=
  match fg, ans with
  | FgRequest sess, Answered (Some (Err e)) =>
      Some (if is_session_dead e then wait_for_fresh w sess else FgDone (Err e))
  | FgRequest _, Answered (Some r) => Some (FgDone r)
  | FgRequest sess, Answered None =>
      let fresh := rs_current w in
      Some (if fresh =? sess then FgDone (Err ConnectionLost) else FgRetry fresh)
  | FgWait dead seen, Changed => if negb (rs_version w =? seen) then Some (wait_for_fresh w dead) else None
  | FgWait _ seen, Elapsed => if rs_version w =? seen then Some (FgDone (Err ConnectionLost)) else None
  | FgRetry _, Answered (Some r) => Some (FgDone r)
  | _, _ => None
  end.

(** ** Operations of the handle *)

Inductive FgOp :=
| OpFetch
| OpSend (method : bytes) (path : list Z) (body : bytes)
| OpSubscribe (id : Z * Z)
| OpUnsubscribe (id : Z * Z).

(** What the tasks do, in order. *)
Inductive Event :=
| EvState (st : ConnectionState)
| EvReport (e : (Z * Z) * CharValue)
| EvSleep (secs : Z)
| EvBack (s : SessId) (subs : gset (Z * Z)) (* a reconnect, with the subscriptions recorded then *)
| EvResubscribe (s : SessId) (id : Z * Z)
| EvPublish (s : SessId)
| EvStart (n : nat) (op : FgOp)
| EvSend (n : nat) (s : SessId) (op : FgOp)
| EvAnswer (n : nat) (s : SessId) (a : option Outcome)
| EvRecord (id : Z * Z)
| EvDone (n : nat) (r : Outcome) (cur : SessId).

(** Where the supervisor awaits; [SupPanicked] when its attempt counter overflowed. *)
Inductive Supervisor :=
| SupDrain (last_cn : option Z) (sess : SessId)
| SupReconnect (last_cn : option Z) (attempt : Z)
| SupSleep (last_cn : option Z) (attempt : Z)
| SupResubscribe (last_cn : option Z) (fresh : SessId) (id : Z * Z) (ids : list (Z * Z))
| SupPanicked.

Inductive SupAnswer :=
| GotEvent (body : bytes)
| EventsClosed
| ReconnectOk (rc : Reconnected) (ids : list (Z * Z)) (* the set of subscriptions, in hash order *)
| ReconnectErr
| Slept
| Resubscribed.

Section system.
Context `{SerdeJson} `{Base64Engine} `{Generated} `{Build}.

(** The checks of [put_characteristics] on the response. *)
Definition put_check (resp : SessionResponse) : result HapError () :=
  _ ← expect_success resp;
  if bool_decide (sr_body resp = []) then Ok ()
  else _ ← map_err HapModel (parse_read_response (sr_body resp)); Ok ().

(** What the operation does to the handle once [request] has returned. *)
Definition complete (op : FgOp) (r : Outcome) (h : IpHandle) : IpHandle * list Event :=
  match op, r with
  | OpFetch, Ok resp =>
      match _ ← expect_success resp; map_err HapModel (parse_accessories (sr_body resp)) with
      | Ok parsed => (set_tree (Some parsed) (ih_needs_refresh h) (formats_of parsed) h, [])
      | _ => (h, [])
      end
  | OpSubscribe id, Ok resp =>
      match put_check resp with
      | Ok _ => (set_subscribed ({[id]} ∪ ih_subscribed h) h, [EvRecord id])
      | _ => (h, [])
      end
  | OpUnsubscribe id, Ok resp =>
      match put_check resp with
      | Ok _ => (set_subscribed (ih_subscribed h ∖ {[id]}) h, [])
      | _ => (h, [])
      end
  | _, _ => (h, [])
  end.

(** [accessories] drops the cached tree when a refresh was requested. *)
Definition begin_op (op : FgOp) (h : IpHandle) : IpHandle :=
  match op with
  | OpFetch => if ih_needs_refresh h then set_tree None false (ih_formats h) h else h
  | _ => h
  end.

(** ** The supervisor *)

(** The top of the loop. *)
Definition sup_top (last_cn : option Z) (w : ReconnectingSession) : Supervisor * list Event :=
  (SupDrain last_cn (rs_current w), [EvState Connected]).

(** The top of the inner loop. *)
Definition sup_attempt (last_cn : option Z) (attempt : Z) : Supervisor * list Event :=
  match @add_u _ HapError 32 attempt 1 with
  | Ok attempt => (SupReconnect last_cn attempt, [EvState (Reconnecting attempt)])
  | _ => (SupPanicked, [])
  end.

(** From a fresh session on: the next subscription, or publication. *)
Definition sup_resubscribe (last_cn : option Z) (fresh : SessId) (ids : list (Z * Z)) (w : ReconnectingSession)
    : Supervisor * ReconnectingSession * list Event :=
  match ids with
  | id :: ids' => (SupResubscribe last_cn fresh id ids', w, [])
  | [] =>
      let w := publish fresh w in
      let '(sup, evs) := sup_top last_cn w in (sup, w, EvPublish fresh :: evs)
  end.

(** The [c#] check. *)
Definition config_refresh (last_cn new_cn : option Z) : bool * option Z :=
  match new_cn with
  | Some cn => (bool_decide (last_cn <> None) && bool_decide (last_cn <> Some cn), Some cn)
  | None => (false, last_cn)
  end.

Definition resume_sup (w : ReconnectingSession) (h : IpHandle) (sup : Supervisor) (ans : SupAnswer)
    : option (Supervisor * ReconnectingSession * IpHandle * list Event) :=
  match sup, ans with
  | SupDrain _ _, GotEvent body => Some (sup, w, h, EvReport <$> pump_event (ih_formats h) body)
  | SupDrain last_cn _, EventsClosed =>
      let '(sup, evs) := sup_attempt last_cn 0 in Some (sup, w, h, EvState Disconnected :: evs)
  | SupReconnect last_cn _, ReconnectOk rc ids =>
      let '(refresh, last_cn) := config_refresh last_cn (rc_config_number rc) in
      let h := if refresh then set_tree (ih_accessories h) true (ih_formats h) h else h in
      let '(sup, w, evs) := sup_resubscribe last_cn (rc_session rc) ids w in
      Some (sup, w, h, EvBack (rc_session rc) (ih_subscribed h) :: evs)
  | SupReconnect last_cn attempt, ReconnectErr => Some (SupSleep last_cn attempt, w, h, [EvSleep (backoff attempt)])
  | SupSleep last_cn attempt, Slept => let '(sup, evs) := sup_attempt last_cn attempt in Some (sup, w, h, evs)
  | SupResubscribe last_cn fresh id ids, Resubscribed =>
      let '(sup, w, evs) := sup_resubscribe last_cn fresh ids w in
      Some (sup, w, h, EvResubscribe fresh id :: evs)
  | _, _ => None
  end.

(** ** The two tasks *)

Record Sys := {
  sy_watch : ReconnectingSession; sy_handle : IpHandle; sy_sup : Supervisor;
  sy_fg : option (FgOp * Foreground); sy_ops : nat (* operations started before the current one *)
}.

(** [build], with the supervisor at its first await. *)
Definition sys_init (initial : SessId) : Sys * list Event :=
  let w := reconnecting_new initial in
  let '(sup, evs) := sup_top None w in
  ({| sy_watch := w; sy_handle := ip_handle_new; sy_sup := sup; sy_fg := None; sy_ops := 0 |}, evs).

(** The foreground task moved to [fg]: it sends, waits, or the operation is over. *)
Definition settle (op : FgOp) (fg : Foreground) (st : Sys) : Sys * list Event :=
  match fg with
  | FgDone r =>
      let '(h, evs) := complete op r (sy_handle st) in
      ({| sy_watch := sy_watch st; sy_handle := h; sy_sup := sy_sup st; sy_fg := None; sy_ops := S (sy_ops st) |},
       EvDone (sy_ops st) r (rs_current (sy_watch st)) :: evs)
  | _ =>
      ({| sy_watch := sy_watch st; sy_handle := sy_handle st; sy_sup := sy_sup st; sy_fg := Some (op, fg);
          sy_ops := sy_ops st |},
       match fg with FgRequest s | FgRetry s => [EvSend (sy_ops st) s op] | _ => [] end)
  end.

Definition set_handle (h : IpHandle) (st : Sys) : Sys :=
  {| sy_watch := sy_watch st; sy_handle := h; sy_sup := sy_sup st; sy_fg := sy_fg st; sy_ops := sy_ops st |}.

(** The answer seen by the operation, if it is one to a request. *)
Definition answer_event (n : nat) (fg : Foreground) (ans : FgAnswer) : list Event :=
  match fg, ans with
  | (FgRequest s | FgRetry s), Answered a => [EvAnswer n s a]
  | _, _ => []
  end.

Inductive sys_step : Sys -> list Event -> Sys -> Prop :=
| step_start st op st' evs :
    sy_fg st = None ->
    settle op (start_request (sy_watch st)) (set_handle (begin_op op (sy_handle st)) st) = (st', evs) ->
    sys_step st (EvStart (sy_ops st) op :: evs) st'
| step_fg st op fg ans fg' st' evs :
    sy_fg st = Some (op, fg) -> resume_fg (sy_watch st) fg ans = Some fg' ->
    settle op fg' st = (st', evs) ->
    sys_step st (answer_event (sy_ops st) fg ans ++ evs) st'
| step_cancel st op fg :
    sy_fg st = Some (op, fg) ->
    sys_step st []
      {| sy_watch := sy_watch st; sy_handle := sy_handle st; sy_sup := sy_sup st; sy_fg := None;
         sy_ops := S (sy_ops st) |}
| step_sup st ans sup w h evs :
    (forall rc ids, ans = ReconnectOk rc ids -> ids ≡ₚ elements (ih_subscribed (sy_handle st))) ->
    resume_sup (sy_watch st) (sy_handle st) (sy_sup st) ans = Some (sup, w, h, evs) ->
    sys_step st evs {| sy_watch := w; sy_handle := h; sy_sup := sup; sy_fg := sy_fg st; sy_ops := sy_ops st |}.

(** Executions from the start, with all that was done. *)
Inductive reached (initial : SessId) : list Event -> Sys -> Prop :=
| reached_init st evs : sys_init initial = (st, evs) -> reached initial evs st
| reached_step es st evs st' : reached initial es st -> sys_step st evs st' -> reached initial (es ++ evs) st'.
End system.

(** * Specification *)

(** Why a request on a session is given up. *)
Definition gave_up (a : option Outcome) : Prop :=
  match a with
  | None => True
  | Some (Err e) => is_session_dead e = true
  | Some _ => False
  end.

(** How an operation ends: the exchanges it made, its result, and the session that was
    current at that moment. *)
Inductive served (cur : SessId) : list (SessId * option Outcome) -> Outcome -> Prop :=
| served_first s r : ~ gave_up (Some r) -> served cur [(s, Some r)] r
| served_lost a : gave_up a -> served cur [(cur, a)] (Err ConnectionLost)
| served_retry s a s' r : gave_up a -> s <> s' -> served cur [(s, a); (s', Some r)] r.

Definition sends_of (n : nat) (es : list Event) : list SessId :=
  omap (fun e => match e with EvSend n' s _ => if n' =? n then Some s else None | _ => None end) es.
Definition exchanges (n : nat) (es : list Event) : list (SessId * option Outcome) :=
  omap (fun e => match e with EvAnswer n' s a => if n' =? n then Some (s, a) else None | _ => None end) es.
(** The operation [n] that was begun, and the requests sent for it. *)
Definition begun (n : nat) (es : list Event) : list FgOp :=
  omap (fun e => match e with EvStart n' op => if n' =? n then Some op else None | _ => None end) es.
Definition requests (n : nat) (es : list Event) : list FgOp :=
  omap (fun e => match e with EvSend n' _ op => if n' =? n then Some op else None | _ => None end) es.
Definition published (es : list Event) : list SessId :=
  omap (fun e => match e with EvPublish s => Some s | _ => None end) es.

Definition recorded_in (es : list Event) : list (Z * Z) :=
  omap (fun e => match e with EvRecord id => Some id | _ => None end) es.

(** [s] came back with subscriptions [subs], all of them were re-issued on it and it was
    then published; [recorded] were recorded since it came back. *)
Definition restored (es : list Event) (s : SessId) (subs : gset (Z * Z)) (recorded : list (Z * Z)) : Prop :=
  exists ea eb, es = ea ++ EvBack s subs :: eb /\ EvPublish s ∈ eb /\
    (forall id, id ∈ subs -> EvResubscribe s id ∈ eb) /\
    recorded = recorded_in eb.

(** The order of the supervisor's states and pauses. *)
Definition next_ok (prev next : Event) : Prop :=
  match prev, next with
  | EvState Connected, EvState Disconnected => True
  | EvState Disconnected, EvState (Reconnecting n) => n = 1%Z
  | EvState (Reconnecting n), EvSleep secs => secs = backoff n
  | EvState (Reconnecting _), EvBack _ _ => True
  | EvSleep secs, EvState (Reconnecting n) => secs = backoff (n - 1) \/ n = 0%Z (* the counter wrapped *)
  | EvBack s _, EvPublish s' => s = s'
  | EvPublish _, EvState Connected => True
  | _, _ => False
  end.

Definition next_state (prev next : ConnectionState) : Prop :=
  match prev, next with
  | Connected, Disconnected => True
  | Disconnected, Reconnecting n => n = 1%Z
  | Reconnecting n, Reconnecting n' => n' = wrapping_add 32 n 1
  | Reconnecting _, Connected => True
  | _, _ => False
  end.

Definition is_progress (e : Event) : bool :=
  match e with EvState _ | EvSleep _ | EvBack _ _ | EvPublish _ => true | _ => false end.
Definition progress_of (es : list Event) : list Event := List.filter is_progress es.
Definition states_of (es : list Event) : list ConnectionState :=
  omap (fun e => match e with EvState st => Some st | _ => None end) es.

Fixpoint chain {A} (R : A -> A -> Prop) (l : list A) : Prop :=
  match l with
  | x :: (y :: _) as l' => R x y /\ chain R l'
  | _ => True
  end.

(** [P before e] at every event of a log. *)
Definition always (P : list Event -> Event -> Prop) (es : list Event) : Prop :=
  forall es1 e es2, es = es1 ++ e :: es2 -> P es1 e.

(** * Lemmas *)

Lemma backoff_spec attempt : (1 <= attempt)%Z -> backoff attempt = Z.min (2 ^ (attempt - 1)) 30.
Proof.
  intros Ha. unfold backoff, checked_shl. rewrite (Z.max_l (attempt - 1) 0) by lia.
  case_match eqn:Hb; cbn [default]; [apply Z.ltb_lt in Hb|apply Z.ltb_ge in Hb].
  - rewrite Z.shiftl_1_l, Z.mod_small by (split; [lia|by apply Z.pow_lt_mono_r; lia]).
    apply Z.max_l. pose proof (Z.pow_pos_nonneg 2 (attempt - 1)). lia.
  - assert (2 ^ 64 <= 2 ^ (attempt - 1))%Z by (apply Z.pow_le_mono_r; lia). lia.
Qed.

Section chains.
Context {A : Type} (R : A -> A -> Prop).

Lemma chain_snoc l x : chain R l -> (forall y, last l = Some y -> R y x) -> chain R (l ++ [x]).
Proof.
  induction l as [|a [|b l] IH]; intros Hl Hx; [done|by split; [apply Hx|]|].
  destruct Hl as [Hab Hl]. split; [done|]. by apply IH.
Qed.

Lemma chain_app l k y : last l = Some y -> chain R l -> chain R (y :: k) -> chain R (l ++ k).
Proof.
  revert l y. induction k as [|x k IH]; intros l y Hy Hl Hk; [by rewrite app_nil_r|].
  destruct Hk as [Hyx Hk]. change (x :: k) with ([x] ++ k). rewrite app_assoc.
  apply (IH _ x); [by rewrite last_snoc|by apply chain_snoc; [|intros ?; rewrite Hy; intros [= <-]]|done].
Qed.
End chains.

Fixpoint each (P : list Event -> Event -> Prop) (es evs : list Event) : Prop :=
  match evs with [] => True | e :: evs' => P es e /\ each P (es ++ [e]) evs' end.

Lemma always_app P es evs : always P es -> each P es evs -> always P (es ++ evs).
Proof.
  revert es. induction evs as [|e evs IH]; intros es Hes Hev; [by rewrite app_nil_r|].
  destruct Hev as [He Hev]. change (e :: evs) with ([e] ++ evs). rewrite app_assoc. apply IH; [|done].
  intros es1 e' es2 Heq. destruct (app_eq_inv _ _ _ _ Heq) as [(k & -> & Hk)|(k & -> & Hk)];
    destruct k as [|e0 k]; cbn in Hk; injection Hk as Hk1 Hk2; subst.
  - by rewrite app_nil_r in He.
  - by eapply Hes.
  - by rewrite app_nil_r.
  - by destruct k.
Qed.

(** ** What an event adds to a log *)

(** Events of the supervisor and completions. *)
Definition quiet (e : Event) : bool := match e with EvStart _ _ | EvSend _ _ _ | EvAnswer _ _ _ => false | _ => true end.

Lemma quiet_sends n evs : forallb quiet evs = true -> sends_of n evs = [] /\ exchanges n evs = [].
Proof. induction evs as [|e evs IH]; [done|]. cbn. destruct e; cbn; try done; apply IH. Qed.

Lemma restored_app es s subs rec evs :
  restored es s subs rec -> restored (es ++ evs) s subs (rec ++ recorded_in evs).
Proof.
  intros (ea & eb & -> & Hp & Hs & ->). exists ea, (eb ++ evs). rewrite <- app_assoc. split; [done|].
  split; [set_solver|]. split; [intros id Hid; apply elem_of_app; left; by apply Hs|].
  unfold recorded_in. by rewrite omap_app.
Qed.

Lemma sends_app n es evs : sends_of n (es ++ evs) = sends_of n es ++ sends_of n evs.
Proof. apply omap_app. Qed.
Lemma exchanges_app n es evs : exchanges n (es ++ evs) = exchanges n es ++ exchanges n evs.
Proof. apply omap_app. Qed.
Lemma published_app es evs : published (es ++ evs) = published es ++ published evs.
Proof. apply omap_app. Qed.
Lemma states_app es evs : states_of (es ++ evs) = states_of es ++ states_of evs.
Proof. apply omap_app. Qed.
Lemma progress_app es evs : progress_of (es ++ evs) = progress_of es ++ progress_of evs.
Proof. apply List.filter_app. Qed.

Lemma published_elem es s : s ∈ published es <-> EvPublish s ∈ es.
Proof.
  unfold published. rewrite list_elem_of_omap. split.
  - intros (e & He & Hs). destruct e; by simplify_eq.
  - intros Hs. by exists (EvPublish s).
Qed.

Section invariant.
Context `{SerdeJson} `{Base64Engine} `{Generated} `{Build}.

(** ** The foreground task *)

(** The exchanges of an operation and where it stands. *)
Inductive fg_inv (w : ReconnectingSession) (pubs : list SessId)
    : option (FgOp * Foreground) -> list SessId -> list (SessId * option Outcome) -> Prop :=
| fgi_none : fg_inv w pubs None [] []
| fgi_request op s : (pubs = [] -> rs_current w = s) -> fg_inv w pubs (Some (op, FgRequest s)) [s] []
| fgi_wait op s a seen :
    (pubs = [] -> rs_current w = s) -> gave_up a -> seen <= rs_version w -> (rs_version w = seen -> rs_current w = s) ->
    fg_inv w pubs (Some (op, FgWait s seen)) [s] [(s, a)]
| fgi_retry op s a s' :
    gave_up a -> s <> s' -> s' ∈ pubs -> fg_inv w pubs (Some (op, FgRetry s')) [s; s'] [(s, a)].

(** The current session is the initial one until another is published. *)
Definition current_inv (initial : SessId) (w : ReconnectingSession) (pubs : list SessId) : Prop :=
  match last pubs with Some s => rs_current w = s | None => rs_current w = initial end.

(** An operation ends as specified, after exchanges with published sessions only. *)
Definition ends_well (es : list Event) (e : Event) : Prop :=
  match e with
  | EvDone n r cur =>
      served cur (exchanges n es) r /\ sends_of n es = (exchanges n es).*1 /\
      Forall (fun s => s ∈ published es) (tail (sends_of n es))
  | _ => True
  end.

Record fg_ok (initial : SessId) (es : list Event) (st : Sys) : Prop := {
  fo_now : fg_inv (sy_watch st) (published es) (sy_fg st) (sends_of (sy_ops st) es) (exchanges (sy_ops st) es);
  fo_later n : sy_ops st < n -> sends_of n es = [] /\ exchanges n es = [];
  fo_current : current_inv initial (sy_watch st) (published es);
  fo_ends : always ends_well es
}.

Lemma current_published initial w pubs s :
  current_inv initial w pubs -> (pubs = [] -> rs_current w = s) -> rs_current w <> s -> rs_current w ∈ pubs.
Proof.
  unfold current_inv. intros Hc Hs Hne. destruct (last pubs) as [s'|] eqn:Hl.
  - rewrite Hc. by apply last_Some_elem_of.
  - apply last_None in Hl. by apply Hs in Hl.
Qed.

(** The operation moved to [fg], with the exchanges made so far and the sends before. *)
Definition moved (w : ReconnectingSession) (pubs : list SessId) (op : FgOp) (fg : Foreground)
    (sends : list SessId) (ex : list (SessId * option Outcome)) : Prop :=
  match fg with
  | FgDone r => served (rs_current w) ex r /\ sends = ex.*1 /\ Forall (fun s => s ∈ pubs) (tail sends)
  | FgRetry s' => fg_inv w pubs (Some (op, fg)) (sends ++ [s']) ex
  | FgWait _ _ => fg_inv w pubs (Some (op, fg)) sends ex
  | FgRequest _ => False
  end.

Lemma wait_inv initial w pubs op s a :
  current_inv initial w pubs -> (pubs = [] -> rs_current w = s) -> gave_up a ->
  moved w pubs op (wait_for_fresh w s) [s] [(s, a)].
Proof.
  intros Hc Hs Ha. unfold wait_for_fresh. destruct (Nat.eqb_spec (rs_current w) s) as [He|He]; cbn.
  - by constructor.
  - constructor; [done|congruence|by eapply current_published].
Qed.

(** One move of the operation. *)
Lemma resume_inv initial w pubs op fg ans fg' sends ex n :
  current_inv initial w pubs -> fg_inv w pubs (Some (op, fg)) sends ex -> resume_fg w fg ans = Some fg' ->
  moved w pubs op fg' sends (ex ++ exchanges n (answer_event n fg ans)).
Proof.
  intros Hc Hi Hr. inversion Hi; subst; destruct ans as [a'| |]; cbn in Hr; try done; cbn; rewrite ?Nat.eqb_refl.
  - destruct a' as [[r|e|f]|].
    + injection Hr as <-. split; [apply served_first; by intros []|done].
    + injection Hr as <-. destruct (is_session_dead e) eqn:He; [by eapply wait_inv|].
      split; [apply served_first; cbn; congruence|done].
    + injection Hr as <-. split; [apply served_first; by intros []|done].
    + injection Hr as <-. destruct (Nat.eqb_spec (rs_current w) s) as [He|He].
      * subst s. split; [by apply served_lost|done].
      * constructor; [done|congruence|by eapply current_published].
  - destruct (Nat.eqb_spec (rs_version w) seen); [done|]. injection Hr as <-. by eapply wait_inv.
  - destruct (Nat.eqb_spec (rs_version w) seen) as [He|]; [|done]. injection Hr as <-.
    assert (rs_current w = s) as <- by auto. split; [by apply served_lost|done].
  - destruct a' as [r|]; [|done]. injection Hr as <-. split; [by apply served_retry|]. split; [done|]. by repeat constructor.
Qed.

Lemma complete_events op r h h' evs : complete op r h = (h', evs) ->
  (evs = [] \/ exists id, evs = [EvRecord id]) /\
  ih_subscribed h' ⊆ ih_subscribed h ∪ list_to_set (recorded_in evs).
Proof.
  destruct op, r; cbn; intros Hc; repeat case_match; simplify_eq/=; (split; [by eauto|set_solver]).
Qed.

Lemma each_app P es a b : each P es (a ++ b) <-> each P es a /\ each P (es ++ a) b.
Proof.
  revert es. induction a as [|e a IH]; intros es; cbn; [rewrite app_nil_r; tauto|].
  rewrite IH, <- app_assoc. cbn. tauto.
Qed.

Lemma each_trivial (P : list Event -> Event -> Prop) es evs : (forall es e, e ∈ evs -> P es e) -> each P es evs.
Proof.
  revert es. induction evs as [|e evs IH]; intros es Hp; [done|]. split; [apply Hp; set_solver|].
  apply IH. intros es' e' He. apply Hp. set_solver.
Qed.

(** What a completed move leaves behind. *)
Lemma settle_done op r st st' evs : settle op (FgDone r) st = (st', evs) ->
  exists evs', evs = EvDone (sy_ops st) r (rs_current (sy_watch st)) :: evs' /\
    (evs' = [] \/ exists id, evs' = [EvRecord id]) /\
    ih_subscribed (sy_handle st') ⊆ ih_subscribed (sy_handle st) ∪ list_to_set (recorded_in evs') /\
    sy_watch st' = sy_watch st /\ sy_sup st' = sy_sup st /\ sy_fg st' = None /\ sy_ops st' = S (sy_ops st).
Proof.
  cbn. destruct complete as [h evs'] eqn:Hc. intros [= <- <-]. apply complete_events in Hc as [Hev Hs].
  by exists evs'.
Qed.

Lemma answer_quiet n m fg ans : sends_of m (answer_event n fg ans) = [] /\ published (answer_event n fg ans) = [] /\
  (m <> n -> exchanges m (answer_event n fg ans) = []).
Proof. destruct fg, ans; cbn; try done; (split; [done|]; split; [done|]); intros Hm; destruct (Nat.eqb_spec n m); congruence. Qed.

Lemma fg_ok_fg initial es st op fg ans fg' st' evs :
  fg_ok initial es st -> sy_fg st = Some (op, fg) -> resume_fg (sy_watch st) fg ans = Some fg' ->
  settle op fg' st = (st', evs) ->
  fg_ok initial (es ++ answer_event (sy_ops st) fg ans ++ evs) st'.
Proof.
  intros [Hn Hl Hc He] Hfg Hr Hs. rewrite Hfg in Hn.
  pose proof (resume_inv _ _ _ _ _ _ _ _ _ (sy_ops st) Hc Hn Hr) as Hm.
  destruct (answer_quiet (sy_ops st) (sy_ops st) fg ans) as (Ha & Hp & _).
  assert (each ends_well es (answer_event (sy_ops st) fg ans)) as Hea
    by (apply each_trivial; intros ? e; destruct fg, ans; cbn; set_solver).
  destruct fg' as [s|s seen|s|r]; cbn [moved] in Hm; [done|..].
  - cbn in Hs. injection Hs as <- <-. rewrite app_nil_r. constructor; cbn.
    + by rewrite sends_app, exchanges_app, published_app, Ha, Hp, !app_nil_r.
    + intros n Hgt. rewrite sends_app, exchanges_app. destruct (Hl n Hgt) as [-> ->].
      destruct (answer_quiet (sy_ops st) n fg ans) as (-> & _ & Hq). rewrite Hq by lia. done.
    + by rewrite published_app, Hp, app_nil_r.
    + by apply always_app.
  - cbn in Hs. injection Hs as <- <-. constructor; cbn.
    + rewrite !sends_app, !exchanges_app, !published_app, Ha, Hp. cbn. by rewrite Nat.eqb_refl, !app_nil_r.
    + intros n Hgt. rewrite !sends_app, !exchanges_app. destruct (Hl n Hgt) as [-> ->].
      destruct (answer_quiet (sy_ops st) n fg ans) as (-> & _ & Hq). rewrite Hq by lia. cbn.
      by destruct (Nat.eqb_spec (sy_ops st) n); [lia|].
    + by rewrite !published_app, Hp, !app_nil_r.
    + apply always_app; [done|]. apply each_app. split; [done|]. by split.
  - destruct Hm as (Hsv & Hse & Hpub). apply settle_done in Hs as (evs' & -> & Hev & _ & Hw & _ & Hf & Ho).
    set (done_evs := EvDone _ _ _ :: evs').
    assert (forall m, sends_of m done_evs = [] /\ exchanges m done_evs = [] /\ published done_evs = []) as Hq
      by (intros m; by destruct Hev as [->|[id ->]]).
    constructor; rewrite ?Hw, ?Hf, ?Ho.
    + rewrite !sends_app, !exchanges_app. destruct (Hl (S (sy_ops st))) as [-> ->]; [lia|].
      destruct (answer_quiet (sy_ops st) (S (sy_ops st)) fg ans) as (-> & _ & Hx). rewrite Hx by lia.
      destruct (Hq (S (sy_ops st))) as (-> & -> & _). constructor.
    + intros n Hgt. rewrite !sends_app, !exchanges_app. destruct (Hl n) as [-> ->]; [lia|].
      destruct (answer_quiet (sy_ops st) n fg ans) as (-> & _ & Hx). rewrite Hx by lia.
      by destruct (Hq n) as (-> & -> & _).
    + rewrite !published_app, Hp. destruct (Hq 0) as (_ & _ & ->). by rewrite !app_nil_r.
    + apply always_app; [done|]. apply each_app. split; [done|]. split.
      * cbn. rewrite exchanges_app, sends_app, published_app, Ha, Hp, !app_nil_r. done.
      * apply each_trivial. intros ? e. destruct Hev as [->|[id ->]]; set_solver.
Qed.

(** ** The supervisor *)

(** A session that is coming back, with the subscriptions still to be re-issued. *)
Definition pending (es : list Event) (s : SessId) (ids : list (Z * Z)) (subscribed : gset (Z * Z)) : Prop :=
  exists ea eb subs, es = ea ++ EvBack s subs :: eb /\
    (forall id, id ∈ subs -> EvResubscribe s id ∈ eb \/ id ∈ ids) /\
    subscribed ⊆ subs ∪ list_to_set (recorded_in eb).

(** The current session is the initial one, or has the subscriptions recorded so far. *)
Definition covered (initial : SessId) (es : list Event) (cur : SessId) (subscribed : gset (Z * Z)) : Prop :=
  (published es = [] /\ cur = initial) \/
  (exists subs rec, restored es cur subs rec /\ subscribed ⊆ subs ∪ list_to_set rec).

Definition sends_restored (initial : SessId) (es : list Event) (e : Event) : Prop :=
  match e with EvSend _ s _ => covered initial es s ∅ | _ => True end.

(** The last progress event and the last state, where the supervisor stands. *)
Definition sup_last (sup : Supervisor) (e : Event) (st : ConnectionState) : Prop :=
  match sup with
  | SupDrain _ _ => e = EvState Connected /\ st = Connected
  | SupReconnect _ n => e = EvState (Reconnecting n) /\ st = Reconnecting n /\ in_u 32 n
  | SupSleep _ n => e = EvSleep (backoff n) /\ st = Reconnecting n /\ in_u 32 n
  | SupResubscribe _ s _ _ => (exists subs, e = EvBack s subs) /\ exists n, st = Reconnecting n
  | SupPanicked => True
  end.

Definition logged {A} (R : A -> A -> Prop) (l : list A) (x : A) : Prop := chain R l /\ last l = Some x.

Record sup_ok (initial : SessId) (es : list Event) (st : Sys) : Prop := {
  so_current : covered initial es (rs_current (sy_watch st)) (ih_subscribed (sy_handle st));
  so_pending : match sy_sup st with
               | SupResubscribe _ s id ids => pending es s (id :: ids) (ih_subscribed (sy_handle st))
               | _ => True
               end;
  so_sends : always (sends_restored initial) es;
  so_logs : exists e c, logged next_ok (progress_of es) e /\ logged next_state (states_of es) c /\
              sup_last (sy_sup st) e c
}.

Lemma logged_app {A} (R : A -> A -> Prop) l x k :
  logged R l x -> chain R (x :: k) -> logged R (l ++ k) (default x (last k)).
Proof.
  intros [Hc Hl] Hk. split; [by eapply chain_app|]. rewrite last_app, Hl. by destruct (last k).
Qed.

Lemma covered_app initial es evs cur sub sub' :
  covered initial es cur sub -> published evs = [] -> sub' ⊆ sub ∪ list_to_set (recorded_in evs) ->
  covered initial (es ++ evs) cur sub'.
Proof.
  intros [[Hp ->]|(subs & rec & Hr & Hs)] Hev Hsub; [left; by rewrite published_app, Hp, Hev|].
  right. exists subs, (rec ++ recorded_in evs). split; [by apply restored_app|]. rewrite list_to_set_app. set_solver.
Qed.

Lemma pending_app es evs s ids sub sub' :
  pending es s ids sub -> sub' ⊆ sub ∪ list_to_set (recorded_in evs) -> pending (es ++ evs) s ids sub'.
Proof.
  intros (ea & eb & subs & -> & Hs & Hsub) Hsub'. exists ea, (eb ++ evs), subs. rewrite <- app_assoc. split; [done|].
  split; [intros id Hid; destruct (Hs id Hid); set_solver|].
  unfold recorded_in. rewrite omap_app, list_to_set_app. unfold recorded_in in *. set_solver.
Qed.

(** Steps of the foreground leave the supervisor's side alone. *)
Lemma sup_ok_frame initial es st evs st' :
  sup_ok initial es st -> published evs = [] -> progress_of evs = [] -> states_of evs = [] ->
  sy_watch st' = sy_watch st -> sy_sup st' = sy_sup st ->
  ih_subscribed (sy_handle st') ⊆ ih_subscribed (sy_handle st) ∪ list_to_set (recorded_in evs) ->
  each (sends_restored initial) es evs -> sup_ok initial (es ++ evs) st'.
Proof.
  intros [Hc Hp Hs Hl] Hpub Hpr Hst Hw Hsup Hsub Hsend. constructor; rewrite ?Hw, ?Hsup.
  - by eapply covered_app.
  - destruct (sy_sup st); try done. by eapply pending_app.
  - by apply always_app.
  - rewrite progress_app, states_app, Hpr, Hst, !app_nil_r. done.
Qed.

Lemma sup_attempt_last last_cn attempt sup evs :
  in_u 32 attempt -> sup_attempt last_cn attempt = (sup, evs) ->
  sup = SupPanicked /\ evs = [] \/
  let n := wrapping_add 32 attempt 1 in sup = SupReconnect last_cn n /\ evs = [EvState (Reconnecting n)] /\ in_u 32 n.
Proof.
  unfold sup_attempt, add_u, in_u, wrapping_add. intros Ha Hs.
  pose proof (Z.mod_pos_bound (attempt + 1) (2 ^ 32)). destruct (Z.ltb_spec (attempt + 1) (2 ^ 32)).
  - injection Hs as <- <-. right. rewrite Z.mod_small by lia. split_and!; done || lia.
  - destruct overflow_checks; injection Hs as <- <-; [by left|]. right. split_and!; done || lia.
Qed.

(** A pause is the one of the attempt it follows, also when the counter wrapped. *)
Lemma backoff_wrap n : in_u 32 n -> backoff n = backoff (wrapping_add 32 n 1 - 1) \/ wrapping_add 32 n 1 = 0%Z.
Proof.
  unfold in_u, wrapping_add. intros Hn. destruct (Z.eq_dec n (2 ^ 32 - 1)%Z) as [->|Hne]; [by right|].
  left. rewrite Z.mod_small by lia. f_equal. lia.
Qed.

(** From a fresh session on, with the subscriptions [done_] re-issued. *)
Lemma sup_resubscribe_ok initial es st last_cn fresh ids sup w evs h :
  sy_handle st = h -> sup_resubscribe last_cn fresh ids (sy_watch st) = (sup, w, evs) ->
  covered initial es (rs_current (sy_watch st)) (ih_subscribed h) -> pending es fresh ids (ih_subscribed h) ->
  always (sends_restored initial) es ->
  (exists subs c n, logged next_ok (progress_of es) (EvBack fresh subs) /\ logged next_state (states_of es) c /\
     c = Reconnecting n) ->
  sup_ok initial (es ++ evs)
    {| sy_watch := w; sy_handle := h; sy_sup := sup; sy_fg := sy_fg st; sy_ops := sy_ops st |}.
Proof.
  intros <- Hr Hc Hp Hs (subs & c & n & Hl & Hls & ->). destruct ids as [|id ids]; cbn in Hr; simplify_eq.
  - constructor; cbn.
    + destruct Hp as (ea & eb & subs' & -> & Hsub & Hin). right. exists subs', (recorded_in eb).
      split; [|done]. exists ea, (eb ++ [EvPublish fresh; EvState Connected]). rewrite <- app_assoc.
      split; [done|]. split; [set_solver|]. split; [|unfold recorded_in; by rewrite omap_app, app_nil_r].
      intros id Hid. destruct (Hsub id Hid); set_solver.
    + done.
    + by apply always_app.
    + rewrite progress_app, states_app. eexists _, _. split; [by eapply logged_app|].
      split; [by eapply logged_app|done].
  - rewrite app_nil_r. constructor; cbn; try done.
    exists (EvBack fresh subs), (Reconnecting n). split_and!; try done; by eexists.
Qed.

Lemma each_no_send initial es evs : forallb quiet evs = true -> each (sends_restored initial) es evs.
Proof.
  intros Hq. apply each_trivial. intros es' e He. rewrite forallb_forall in Hq.
  apply list_elem_of_In in He. specialize (Hq e He). by destruct e.
Qed.

Lemma sup_ok_sup initial es st ans sup w h evs :
  sup_ok initial es st ->
  (forall rc ids, ans = ReconnectOk rc ids -> ids ≡ₚ elements (ih_subscribed (sy_handle st))) ->
  resume_sup (sy_watch st) (sy_handle st) (sy_sup st) ans = Some (sup, w, h, evs) ->
  sup_ok initial (es ++ evs) {| sy_watch := w; sy_handle := h; sy_sup := sup; sy_fg := sy_fg st; sy_ops := sy_ops st |}.
Proof.
  intros Hok Hids Hr. pose proof Hok as [Hc Hp Hs (e & c & Hl & Hls & Hsl)].
  destruct (sy_sup st) as [lc sess|lc n|lc n|lc fresh id ids|] eqn:Hsup; destruct ans as [body| |rc ids'| | |]; try done;
    cbn in Hr.
  - injection Hr as <- <- <- <-. set (reports := pump_event _ body).
    assert (forall A f, f ∘ EvReport = (fun _ => @None A) -> omap f (EvReport <$> reports) = []) as Hom.
    { intros A f Hf. induction reports as [|r rs IH]; [done|]. cbn. change (f (EvReport r)) with ((f ∘ EvReport) r). by rewrite Hf. }
    apply (sup_ok_frame initial es st); try done; cbn.
    + by apply Hom.
    + clear Hom. by induction reports.
    + by apply Hom.
    + set_solver.
    + apply each_no_send. clear Hom. by induction reports.
  - destruct (sup_attempt lc 0) as [sup' evs'] eqn:Ha. injection Hr as <- <- <- <-. destruct Hsl as [-> ->].
    apply sup_attempt_last in Ha as [(-> & ->)|(-> & -> & Hn)]; [..|done].
    + constructor; cbn; try done.
      * eapply covered_app; [done..|set_solver].
      * by apply always_app.
      * rewrite progress_app, states_app. eexists _, _. split; [by eapply logged_app|]. split; [by eapply logged_app|done].
    + constructor; cbn; try done.
      * eapply covered_app; [done..|set_solver].
      * by apply always_app.
      * rewrite progress_app, states_app. eexists _, _. split; [by eapply logged_app|]. split; [by eapply logged_app|].
        by split_and!.
  - destruct (config_refresh lc (rc_config_number rc)) as [refresh lc'].
    set (h' := if refresh then _ else _) in Hr. destruct (sup_resubscribe _ _ _ _) as [[sup' w'] evs'] eqn:Hre.
    injection Hr as <- <- <- <-. destruct Hsl as (-> & -> & Hn).
    assert (ih_subscribed h' = ih_subscribed (sy_handle st)) as Hh by (unfold h'; by destruct refresh).
    change (EvBack ?s ?g :: evs') with ([EvBack s g] ++ evs'). rewrite app_assoc.
    apply (sup_resubscribe_ok initial _ (set_handle h' st) lc' (rc_session rc) ids'); try done.
    + eapply covered_app; [done..|]. rewrite Hh. set_solver.
    + exists es, [], (ih_subscribed h'). split; [done|]. split; [|set_solver]. intros id Hid. right.
      rewrite (Hids rc ids') by done. rewrite <- Hh. by apply elem_of_elements.
    + by apply always_app.
    + rewrite progress_app, states_app, app_nil_r. eexists _, _, n. split; [|split; [done|done]]. by apply (logged_app _ _ _ [_] Hl).
  - injection Hr as <- <- <- <-. destruct Hsl as (-> & -> & Hn). constructor; cbn; try done.
    + eapply covered_app; [done..|set_solver].
    + by apply always_app.
    + rewrite progress_app, states_app, app_nil_r. eexists _, _. split; [by eapply logged_app|]. by split.
  - destruct (sup_attempt lc n) as [sup' evs'] eqn:Ha. injection Hr as <- <- <- <-. destruct Hsl as (-> & -> & Hn).
    apply sup_attempt_last in Ha as [(-> & ->)|(-> & -> & Hn')]; [..|done].
    + rewrite app_nil_r. constructor; cbn; try done. by eexists _, _.
    + constructor; cbn; try done.
      * eapply covered_app; [done..|set_solver].
      * by apply always_app.
      * rewrite progress_app, states_app. eexists _, _. split; [eapply logged_app; [done|]|split; [by eapply logged_app|by split_and!]].
        split; [|done]. by apply backoff_wrap.
  - destruct (sup_resubscribe _ _ _ _) as [[sup' w'] evs'] eqn:Hre. injection Hr as <- <- <- <-.
    destruct Hsl as ((subs & ->) & (n & ->)).
    change (EvResubscribe ?s ?g :: evs') with ([EvResubscribe s g] ++ evs'). rewrite app_assoc.
    apply (sup_resubscribe_ok initial _ st lc fresh ids); try done.
    + eapply covered_app; [done..|set_solver].
    + destruct Hp as (ea & eb & subs' & -> & Hsub & Hin). exists ea, (eb ++ [EvResubscribe fresh id]), subs'.
      rewrite <- app_assoc. split; [done|]. split; [|unfold recorded_in; by rewrite omap_app, app_nil_r].
      intros id' Hid. destruct (Hsub id' Hid) as [|Hin']; [set_solver|]. apply elem_of_cons in Hin' as [->|]; set_solver.
    + by apply always_app.
    + rewrite progress_app, states_app, !app_nil_r. by eexists _, _, n.
Qed.

(** ** Executions *)

Lemma resume_fg_current w fg ans fg' : resume_fg w fg ans = Some fg' ->
  match fg' with FgRequest _ => False | FgRetry s => s = rs_current w | _ => True end.
Proof.
  unfold resume_fg, wait_for_fresh. intros Hr. repeat case_match; by simplify_eq.
Qed.

Lemma init_ok initial st evs :
  sys_init initial = (st, evs) -> fg_ok initial evs st /\ sup_ok initial evs st.
Proof.
  intros [= <- <-]. split; constructor; cbn; try done.
  - constructor.
  - by apply (always_app _ []); [intros [|]|].
  - by left.
  - by apply (always_app _ []); [intros [|]|].
  - by exists (EvState Connected), Connected.
Qed.

Lemma fg_ok_sup initial es st ans sup w h evs :
  fg_ok initial es st -> resume_sup (sy_watch st) (sy_handle st) (sy_sup st) ans = Some (sup, w, h, evs) ->
  fg_ok initial (es ++ evs) {| sy_watch := w; sy_handle := h; sy_sup := sup; sy_fg := sy_fg st; sy_ops := sy_ops st |}.
Proof.
  intros [Hn Hl Hc He] Hr.
  assert (forallb quiet evs = true /\ (forall es, each ends_well es evs) /\
          (w = sy_watch st /\ published evs = [] \/
           exists s, w = publish s (sy_watch st) /\ published evs = [s])) as (Hq & Hev & Hw).
  { destruct (sy_sup st) as [lc sess|lc n|lc n|lc fresh id ids|], ans as [body| |rc ids'| | |]; try done; cbn in Hr.
    - injection Hr as <- <- <- <-. induction (pump_event _ body) as [|r rs IH]; [by split_and!; [..|left]|].
      destruct IH as (IH1 & IH2 & IH3). by split_and!.
    - destruct sup_attempt as [sup' evs'] eqn:Ha. injection Hr as <- <- <- <-. unfold sup_attempt in Ha.
      split_and!; [..|left]; case_match; by simplify_eq/=.
    - destruct config_refresh as [refresh lc']. unfold sup_resubscribe in Hr.
      destruct ids'; cbn in Hr; simplify_eq/=; split_and!; try done; [right; by eexists|by left].
    - injection Hr as <- <- <- <-. by split_and!; [..|left].
    - destruct sup_attempt as [sup' evs'] eqn:Ha. injection Hr as <- <- <- <-. unfold sup_attempt in Ha.
      split_and!; [..|left]; case_match; by simplify_eq/=.
    - unfold sup_resubscribe in Hr. destruct ids; cbn in Hr; simplify_eq/=; split_and!; try done; [right; by eexists|by left]. }
  assert (forall m, sends_of m (es ++ evs) = sends_of m es /\ exchanges m (es ++ evs) = exchanges m es) as Hx.
  { intros m. rewrite sends_app, exchanges_app. destruct (quiet_sends m evs Hq) as [-> ->]. by rewrite !app_nil_r. }
  constructor; cbn.
  - destruct (Hx (sy_ops st)) as [-> ->]. rewrite published_app. destruct Hw as [[-> ->]|(s & -> & ->)]; [by rewrite app_nil_r|].
    assert (published es ++ [s] <> []) as Hne by by destruct (published es).
    inversion Hn; constructor; cbn; try done; [lia|lia|]. apply elem_of_app. by left.
  - intros n Hgt. destruct (Hx n) as [-> ->]. by apply Hl.
  - rewrite published_app. destruct Hw as [[-> ->]|(s & -> & ->)]; [by rewrite app_nil_r|].
    unfold current_inv. by rewrite last_snoc.
  - by apply always_app.
Qed.

Lemma reached_ok initial es st : reached initial es st -> fg_ok initial es st /\ sup_ok initial es st.
Proof.
  induction 1 as [st evs Hi|es st evs st' _ [IHf IHs] Hstep]; [by apply init_ok|].
  inversion Hstep as [? op ? ? Hfg Hset|? op fg ans fg' ? evs' Hfg Hr Hset|? op fg Hfg|? ans sup w h ? Hids Hr]; subst.
  - cbn in Hset. injection Hset as <- <-. destruct IHf as [Hn Hl Hc He]. rewrite Hfg in Hn.
    assert (sends_of (sy_ops st) es = [] /\ exchanges (sy_ops st) es = []) as [Hse Hex] by by inversion Hn.
    split; [constructor; cbn|].
    + rewrite sends_app, exchanges_app, published_app, Hse, Hex. cbn. rewrite Nat.eqb_refl, app_nil_r. by constructor.
    + intros n Hgt. rewrite sends_app, exchanges_app. destruct (Hl n Hgt) as [-> ->]. cbn.
      by destruct (Nat.eqb_spec (sy_ops st) n); [lia|].
    + by rewrite published_app, app_nil_r.
    + by apply always_app.
    + assert (ih_subscribed (begin_op op (sy_handle st)) = ih_subscribed (sy_handle st)) as Hb
        by (destruct op; cbn; try done; by case_match).
      apply (sup_ok_frame initial es st); try done; cbn; [set_solver|]. split; [done|]. split; [|done].
      eapply covered_app; [apply (so_current _ _ _ IHs)|done|set_solver].
  - split; [by eapply fg_ok_fg|].
    pose proof (resume_fg_current _ _ _ _ Hr) as Hcur.
    destruct (answer_quiet (sy_ops st) 0 fg ans) as (_ & Hp & _).
    assert (progress_of (answer_event (sy_ops st) fg ans) = [] /\ states_of (answer_event (sy_ops st) fg ans) = [] /\
            each (sends_restored initial) es (answer_event (sy_ops st) fg ans)) as (Hpr & Hst & Hea)
      by (destruct fg, ans; by split_and!).
    destruct fg' as [s|s seen|s|r]; [done|..]; cycle 2.
    { apply settle_done in Hset as (evs'' & -> & Hev & Hsub & Hw & Hsup & _ & _).
      apply (sup_ok_frame initial es st); rewrite ?published_app, ?progress_app, ?states_app, ?Hp, ?Hpr, ?Hst; try done.
      - by destruct Hev as [->|[id ->]].
      - by destruct Hev as [->|[id ->]].
      - by destruct Hev as [->|[id ->]].
      - etrans; [exact Hsub|]. unfold recorded_in. rewrite omap_app, list_to_set_app. cbn. set_solver.
      - apply each_app. split; [done|]. apply each_no_send. by destruct Hev as [->|[id ->]]. }
    all: cbn in Hset; injection Hset as <- <-;
      apply (sup_ok_frame initial es st); rewrite ?published_app, ?progress_app, ?states_app, ?Hp, ?Hpr, ?Hst; try done;
      [set_solver|apply each_app; split; [done|]].
    + done.
    + split; [|done]. cbn. rewrite Hcur. eapply covered_app; [apply (so_current _ _ _ IHs)|done|set_solver].
  - rewrite app_nil_r. split.
    + destruct IHf as [Hn Hl Hc He]. constructor; cbn; try done.
      * destruct (Hl (S (sy_ops st))) as [-> ->]; [lia|constructor].
      * intros n Hgt. apply Hl. lia.
    + rewrite <- (app_nil_r es). apply (sup_ok_frame initial es st); try done. set_solver.
  - split; [by eapply fg_ok_sup|by eapply sup_ok_sup].
Qed.

(** ** The requests of an operation *)

(** The current operation was begun once, and only its request was sent. *)
Definition one_request (n : nat) (es : list Event) (op : FgOp) : Prop :=
  begun n es = [op] /\ Forall (.= op) (requests n es).

Record requests_ok (es : list Event) (st : Sys) : Prop := {
  ro_now : match sy_fg st with
           | Some (op, _) => one_request (sy_ops st) es op
           | None => begun (sy_ops st) es = [] /\ requests (sy_ops st) es = []
           end;
  ro_later n : sy_ops st < n -> begun n es = [] /\ requests n es = [];
  ro_ends : always (fun es e => match e with EvDone n _ _ => exists op, one_request n es op | _ => True end) es
}.

Lemma begun_app n es evs : begun n (es ++ evs) = begun n es ++ begun n evs.
Proof using. apply omap_app. Qed.
Lemma requests_app n es evs : requests n (es ++ evs) = requests n es ++ requests n evs.
Proof using. apply omap_app. Qed.

(** Events that begin no operation, send nothing and end nothing. *)
Definition idle (e : Event) : bool := match e with EvStart _ _ | EvSend _ _ _ | EvDone _ _ _ => false | _ => true end.

Lemma idle_requests n evs : forallb idle evs = true -> begun n evs = [] /\ requests n evs = [].
Proof using. induction evs as [|e evs IH]; [done|]. cbn. destruct e; cbn; try done; apply IH. Qed.

Lemma idle_ends P es evs : forallb idle evs = true ->
  each (fun es e => match e with EvDone n _ _ => P n es | _ => True end) es evs.
Proof using.
  intros Hi. apply each_trivial. intros es' e He. rewrite forallb_forall in Hi.
  apply list_elem_of_In in He. specialize (Hi e He). by destruct e.
Qed.

Lemma requests_ok_idle es st evs st' :
  requests_ok es st -> forallb idle evs = true -> sy_fg st' = sy_fg st -> sy_ops st' = sy_ops st ->
  requests_ok (es ++ evs) st'.
Proof using.
  intros [Hn Hl He] Hi Hf Ho. constructor; rewrite ?Hf, ?Ho.
  - unfold one_request. rewrite begun_app, requests_app. destruct (idle_requests (sy_ops st) evs Hi) as [-> ->].
    by rewrite !app_nil_r.
  - intros n Hgt. rewrite begun_app, requests_app. destruct (idle_requests n evs Hi) as [-> ->]. by rewrite !app_nil_r; apply Hl.
  - apply always_app; [done|]. by apply idle_ends.
Qed.

Lemma resume_sup_idle w h sup ans sup' w' h' evs :
  resume_sup w h sup ans = Some (sup', w', h', evs) -> forallb idle evs = true.
Proof using.
  intros Hr. destruct sup as [lc sess|lc n|lc n|lc fresh id ids|], ans as [body| |rc ids'| | |]; try done; cbn in Hr.
  - injection Hr as _ _ _ <-. by induction (pump_event _ body).
  - unfold sup_attempt in Hr. repeat case_match; by simplify_eq/=.
  - destruct config_refresh. unfold sup_resubscribe in Hr. destruct ids'; cbn in Hr; by simplify_eq/=.
  - by simplify_eq/=.
  - unfold sup_attempt in Hr. repeat case_match; by simplify_eq/=.
  - unfold sup_resubscribe in Hr. destruct ids; cbn in Hr; by simplify_eq/=.
Qed.

Lemma answer_idle n fg ans : forallb idle (answer_event n fg ans) = true.
Proof using. by destruct fg, ans. Qed.

(** One move of the operation [op]: it sends its request, waits, or ends. *)
Lemma requests_ok_settle es st op fg st' evs :
  one_request (sy_ops st) es op -> (forall n, sy_ops st < n -> begun n es = [] /\ requests n es = []) ->
  always (fun es e => match e with EvDone n _ _ => exists op, one_request n es op | _ => True end) es ->
  settle op fg st = (st', evs) -> requests_ok (es ++ evs) st'.
Proof using.
  intros Ho Hl He Hs.
  assert (forall s, one_request (sy_ops st) (es ++ [EvSend (sy_ops st) s op]) op) as Hsend.
  { intros s. destruct Ho as [Hb Hr]. unfold one_request. rewrite begun_app, requests_app. cbn. rewrite Nat.eqb_refl, app_nil_r.
    split; [done|]. apply Forall_app. by split; [|constructor]. }
  assert (forall s n, sy_ops st < n -> begun n (es ++ [EvSend (sy_ops st) s op]) = [] /\ requests n (es ++ [EvSend (sy_ops st) s op]) = []) as Hlater.
  { intros s n Hgt. rewrite begun_app, requests_app. destruct (Hl n Hgt) as [-> ->]. cbn.
    by destruct (Nat.eqb_spec (sy_ops st) n); [lia|]. }
  destruct fg as [s|s seen|s|r]; cbn [settle] in Hs.
  - injection Hs as <- <-. constructor; cbn; [apply Hsend|apply Hlater|]. by apply always_app.
  - injection Hs as <- <-. by rewrite app_nil_r.
  - injection Hs as <- <-. constructor; cbn; [apply Hsend|apply Hlater|]. by apply always_app.
  - apply settle_done in Hs as (evs' & -> & Hev & _ & _ & _ & Hf & Hops).
    assert (forallb idle evs' = true) as Hi by (by destruct Hev as [->|[id ->]]).
    assert (forall n, begun n (EvDone (sy_ops st) r (rs_current (sy_watch st)) :: evs') = [] /\
                      requests n (EvDone (sy_ops st) r (rs_current (sy_watch st)) :: evs') = []) as Hq
      by (intros n; by destruct Hev as [->|[id ->]]).
    constructor; rewrite ?Hf, ?Hops.
    + rewrite begun_app, requests_app. destruct (Hl (S (sy_ops st))) as [-> ->]; [lia|]. apply Hq.
    + intros n Hgt. rewrite begun_app, requests_app. destruct (Hl n) as [-> ->]; [lia|]. apply Hq.
    + apply always_app; [done|]. split; [by exists op|]. by apply idle_ends.
Qed.

Lemma reached_requests initial es st : reached initial es st -> requests_ok es st.
Proof using.
  induction 1 as [st evs Hi|es st evs st' _ IH Hstep].
  { injection Hi as <- <-. constructor; cbn; try done. by apply (always_app _ []); [intros [|]|]. }
  pose proof IH as [Hn Hl He].
  inversion Hstep as [? op ? evs' Hfg Hset|? op fg ans fg' ? evs' Hfg Hr Hset|? op fg Hfg|? ans sup w h ? Hids Hr]; subst;
    rewrite ?Hfg in Hn.
  - destruct Hn as [Hb Hr]. change (EvStart (sy_ops st) op :: evs') with ([EvStart (sy_ops st) op] ++ evs'). rewrite app_assoc.
    apply (requests_ok_settle _ (set_handle (begin_op op (sy_handle st)) st) op (start_request (sy_watch st))); [..|exact Hset]; cbn.
    + unfold one_request. rewrite begun_app, requests_app, Hb, Hr. cbn. by rewrite Nat.eqb_refl.
    + intros n Hgt. rewrite begun_app, requests_app. destruct (Hl n Hgt) as [-> ->]. cbn.
      by destruct (Nat.eqb_spec (sy_ops st) n); [lia|].
    + by apply always_app.
  - pose proof (answer_idle (sy_ops st) fg ans) as Hi. rewrite app_assoc.
    destruct (requests_ok_idle es st _ st IH Hi eq_refl eq_refl) as [Hn' Hl' He'].
    rewrite Hfg in Hn'. by eapply requests_ok_settle.
  - rewrite app_nil_r. constructor; cbn; [apply Hl; lia|intros n Hgt; apply Hl; lia|done].
  - apply (requests_ok_idle es st); try done. by eapply resume_sup_idle.
Qed.
End invariant.

(** ** Running an execution *)

Inductive Move := MoveStart (op : FgOp) | MoveFg (ans : FgAnswer) | MoveSup (ans : SupAnswer).

Section moves.
Context `{SerdeJson} `{Base64Engine} `{Generated} `{Build}.

Definition in_hash_order (ans : SupAnswer) (subs : gset (Z * Z)) : bool :=
  match ans with ReconnectOk _ ids => bool_decide (ids = elements subs) | _ => true end.

Definition move (st : Sys) (m : Move) : option (Sys * list Event) :=
  match m with
  | MoveStart op =>
      match sy_fg st with
      | None =>
          let '(st', evs) := settle op (start_request (sy_watch st)) (set_handle (begin_op op (sy_handle st)) st) in
          Some (st', EvStart (sy_ops st) op :: evs)
      | Some _ => None
      end
  | MoveFg ans =>
      '(op, fg) ← sy_fg st;
      fg' ← resume_fg (sy_watch st) fg ans;
      let '(st', evs) := settle op fg' st in Some (st', answer_event (sy_ops st) fg ans ++ evs)
  | MoveSup ans =>
      if negb (in_hash_order ans (ih_subscribed (sy_handle st))) then None else
      '(sup, w, h, evs) ← resume_sup (sy_watch st) (sy_handle st) (sy_sup st) ans;
      Some ({| sy_watch := w; sy_handle := h; sy_sup := sup; sy_fg := sy_fg st; sy_ops := sy_ops st |}, evs)
  end.

Fixpoint play (st : Sys) (es : list Event) (ms : list Move) : option (Sys * list Event) :=
  match ms with
  | [] => Some (st, es)
  | m :: ms' => '(st, evs) ← move st m; play st (es ++ evs) ms'
  end.

Lemma move_step st m st' evs : move st m = Some (st', evs) -> sys_step st evs st'.
Proof.
  destruct m as [op|ans|ans]; cbn.
  - destruct (sy_fg st) eqn:Hfg; [done|]. intros [= <- <-]. by apply (step_start st op).
  - destruct (sy_fg st) as [[op fg]|] eqn:Hfg; [|done]. cbn. destruct (resume_fg _ _ _) as [fg'|] eqn:Hr; [|done]. cbn.
    destruct (settle op fg' st) as [st1 evs1] eqn:Hs. intros [= <- <-]. by apply (step_fg st op fg ans fg').
  - destruct (in_hash_order _ _) eqn:Hg; [|done]. cbn. destruct (resume_sup _ _ _ _) as [[[[sup w] h] evs1]|] eqn:Hr; [|done]. cbn.
    intros [= <- <-]. eapply step_sup; [|done]. intros rc ids ->. apply bool_decide_eq_true in Hg. by rewrite Hg.
Qed.

Lemma play_reached initial st es ms st' es' :
  reached initial es st -> play st es ms = Some (st', es') -> reached initial es' st'.
Proof.
  revert st es. induction ms as [|m ms IH]; intros st es Hr; cbn; [by intros [= <- <-]|].
  destruct (move st m) as [[st1 evs]|] eqn:Hm; [|done]. cbn. apply IH. eapply reached_step; [done|]. by eapply move_step.
Qed.
End moves.

(** * Theorems *)

(** C18: However the foreground and the supervisor of [hap-controller/src/reconnect.rs]
    interleave, an operation that ends sent the request it was begun with, and no other,
    once or twice, and each of these exchanges was on another session.  Its result is the
    answer of the first unless that session was given up (dead or past the time limit),
    else the answer of another session, one that has been published;
    [ConnectionLost] is returned only while the session that was given up is still the
    current one, so no published session is ever missed. *)
Theorem reconnect_request_served `{SerdeJson} `{Base64Engine} `{Generated} `{Build}
    initial es st es1 n r cur es2 :
  reached initial es st -> es = es1 ++ EvDone n r cur :: es2 ->
  served cur (exchanges n es1) r /\ sends_of n es1 = (exchanges n es1).*1 /\
  Forall (fun s => EvPublish s ∈ es1) (tail (sends_of n es1)) /\
  exists op, begun n es1 = [op] /\ Forall (.= op) (requests n es1).
Proof.
  intros Hr ->. pose proof (reached_requests _ _ _ Hr) as [_ _ Hq]. specialize (Hq _ _ _ eq_refl).
  apply reached_ok in Hr as [Hf _]. destruct (fo_ends _ _ _ Hf _ _ _ eq_refl) as (Hs & He & Hp).
  split; [done|]. split; [done|]. split; [|done]. eapply Forall_impl; [exact Hp|]. intros s. by rewrite published_elem.
Qed.

(** C19: However the tasks interleave, the supervisor restores before it publishes: a
    request leaves on the initial session, or on one that came back, had every
    subscription recorded at that time re-issued on it and was then published.  Every
    subscription the handle records was re-issued on the current session or recorded
    since that session came back.  The reported states run Connected, Disconnected,
    Reconnecting 1, 2, ... and back to Connected after a publication, and each pause is
    the one of its attempt. *)
Theorem reconnect_restores `{SerdeJson} `{Base64Engine} `{Generated} `{Build} initial es st :
  reached initial es st ->
  (forall es1 n s op es2, es = es1 ++ EvSend n s op :: es2 ->
     (published es1 = [] /\ s = initial) \/ exists subs rec, restored es1 s subs rec) /\
  ((published es = [] /\ rs_current (sy_watch st) = initial) \/
   (exists subs rec, restored es (rs_current (sy_watch st)) subs rec /\
      ih_subscribed (sy_handle st) ⊆ subs ∪ list_to_set rec)) /\
  chain next_ok (progress_of es) /\ chain next_state (states_of es).
Proof.
  intros Hr. apply reached_ok in Hr as [_ [Hc _ Hs (e & c & [Hl _] & [Hls _] & _)]].
  split; [|by split_and!]. intros es1 n s op es2 Heq.
  destruct (Hs _ _ _ Heq) as [|(subs & rec & Hre & _)]; [by left|right; by eexists _, _].
Qed.

(** ** An outage: the first session dies under a request, the second reconnect succeeds *)

#[local] Existing Instances demo_serde demo_base64.
#[local] Instance demo_build : Build := {| overflow_checks := true; debug_assertions := true |}.

Definition no_content : SessionResponse := {| sr_status := 204; sr_body := [] |}.
Definition demo_get : FgOp := OpSend (str "GET") (chars "/characteristics?id=1.9") [].
Definition demo_moves : list Move :=
  [MoveStart (OpSubscribe (1, 9)%Z); MoveFg (Answered (Some (Ok no_content)));
   MoveStart demo_get; MoveFg (Answered (Some (Err (HapTransport SessionClosed))));
   MoveSup EventsClosed; MoveSup ReconnectErr; MoveSup Slept;
   MoveSup (ReconnectOk {| rc_session := 1; rc_config_number := Some 2%Z |} [(1, 9)%Z]); MoveSup Resubscribed;
   MoveFg Changed; MoveFg (Answered (Some (Ok no_content)))].

Definition demo_log : list Event :=
  [EvState Connected; EvStart 0 (OpSubscribe (1, 9)%Z); EvSend 0 0 (OpSubscribe (1, 9)%Z); EvAnswer 0 0 (Some (Ok no_content)); EvDone 0 (Ok no_content) 0;
   EvRecord (1, 9)%Z; EvStart 1 demo_get; EvSend 1 0 demo_get; EvAnswer 1 0 (Some (Err (HapTransport SessionClosed)));
   EvState Disconnected; EvState (Reconnecting 1); EvSleep 1; EvState (Reconnecting 2); EvBack 1 {[(1, 9)%Z]};
   EvResubscribe 1 (1, 9)%Z; EvPublish 1; EvState Connected; EvSend 1 1 demo_get; EvAnswer 1 1 (Some (Ok no_content))].

Lemma demo_sys_reached : exists st, reached 0 (demo_log ++ [EvDone 1 (Ok no_content) 1]) st /\ rs_current (sy_watch st) = 1.
Proof.
  pose proof (reached_init 0 _ _ eq_refl) as Hi.
  assert (match play (sys_init 0).1 (sys_init 0).2 demo_moves with
          | Some (st, es) => es = demo_log ++ [EvDone 1 (Ok no_content) 1] /\ rs_current (sy_watch st) = 1
          | None => False
          end) as Hp by (vm_compute; by split).
  destruct (play _ _ demo_moves) as [[st es]|] eqn:Hm; [|destruct Hp]. destruct Hp as [-> Hc].
  exists st. split; [by eapply play_reached|done].
Qed.

Lemma reconnect_request_served_witness :
  served 1 [(0, Some (Err (HapTransport SessionClosed))); (1, Some (Ok no_content))] (Ok no_content) /\
  [0; 1] = [0; 1] /\ Forall (fun s => EvPublish s ∈ demo_log) [1] /\
  exists op, [demo_get] = [op] /\ Forall (.= op) [demo_get; demo_get].
Proof.
  destruct demo_sys_reached as (st & Hr & _).
  exact (reconnect_request_served 0 _ st demo_log 1 (Ok no_content) 1 [] Hr eq_refl).
Defined.

Lemma reconnect_restores_witness :
  let es := demo_log ++ [EvDone 1 (Ok no_content) 1] in exists subs rec, restored es 1 subs rec.
Proof.
  destruct demo_sys_reached as (st & Hr & Hcur).
  destruct (reconnect_restores 0 _ st Hr) as (_ & [[Hp _]|(subs & rec & Hre & _)] & _ & _); [by vm_compute in Hp|].
  rewrite Hcur in Hre. by exists subs, rec.
Defined.

(** The exception in [reconnect_restores] is real: the answer to a subscription on the
    old session, handled only after the fresh session came back, is recorded too late to
    be re-issued there. *)
Definition late_moves : list Move :=
  [MoveStart (OpSubscribe (1, 9)%Z); MoveSup EventsClosed;
   MoveSup (ReconnectOk {| rc_session := 1; rc_config_number := None |} []);
   MoveFg (Answered (Some (Ok no_content)))].

Lemma late_subscription_lost : exists es st, reached 0 es st /\
  (1, 9)%Z ∈ ih_subscribed (sy_handle st) /\ rs_current (sy_watch st) = 1 /\
  existsb (fun e => match e with EvResubscribe 1 _ | EvSend _ 1 _ => true | _ => false end) es = false.
Proof.
  pose proof (reached_init 0 _ _ eq_refl) as Hi.
  assert (match play (sys_init 0).1 (sys_init 0).2 late_moves with
          | Some (st, es) =>
              bool_decide ((1, 9)%Z ∈ ih_subscribed (sy_handle st)) && (rs_current (sy_watch st) =? 1) &&
              negb (existsb (fun e => match e with EvResubscribe 1 _ | EvSend _ 1 _ => true | _ => false end) es) = true
          | None => False
          end) as Hp by by vm_compute.
  destruct (play _ _ late_moves) as [[st es]|] eqn:Hm; [|destruct Hp]. exists es, st.
  apply andb_true_iff in Hp as [[Hs%bool_decide_eq_true Hc%Nat.eqb_eq]%andb_true_iff Hn%negb_true_iff].
  split; [by eapply play_reached|]. by split_and!.
Qed.
