(* ===== verification/Discovery.v ===== *)
(** * Discovery: [hap-transport/src/discovery.rs], [hap-ble/src/discovery.rs],
    [hap-thread/src/discovery.rs], [hap-controller/src/{discovered,discover_until}.rs]

    What is heard (mDNS records, BLE advertisements), the accessories read from it, and
    the collection of both transports' accessories.  The mDNS daemon and the radio are
    the sequences of what they report within the window.  A [String] is its UTF-8 bytes.
    The theorems say which accessories a discovery returns. *)

From S2P Require Import ThreadPdu.
From S2P Require Import Prelude Text Tlv8 Crypto RecordLayer PairSetup Store Model ModelJson BlePdu BleAccessory BleEvents.

(** ** Strings *)

Definition lowercase (s : bytes) : bytes := Zbyte <$> to_ascii_lowercase (byteZ <$> s).
Definition uppercase (s : bytes) : bytes := Zbyte <$> to_ascii_uppercase (byteZ <$> s).

(** [eq_ignore_ascii_case]. *)
Definition same_id (a b : bytes) : bool := eq_ignore_ascii_case (byteZ <$> a) (byteZ <$> b).

(** [trim_end_matches(c)]. *)
Definition trim_end_byte (c : byte) (s : bytes) : bytes :=
  let fix go s := match s with b :: s' => if bool_decide (b = c) then go s' else s | [] => [] end in
  reverse (go (reverse s)).

(** [v.trim().parse::<u64>()]. *)
Definition parse_u64 (v : bytes) : option Z := from_str_radix 10 (2 ^ 64 - 1) (trim (from_utf8_lossy v)).

(** ** mDNS *)

Inductive IpAddr := IpV4 (octets : bytes) | IpV6 (octets : bytes).

(** [SocketAddr::new]. *)
Definition socket_addr (ip : IpAddr) (port : Z) : SocketAddr :=
  match ip with IpV4 o => SocketV4 o port | IpV6 o => SocketV6 o port 0 0 end.

Definition is_ipv4 (ip : IpAddr) : bool := match ip with IpV4 _ => true | IpV6 _ => false end.
Definition is_ipv6 (ip : IpAddr) : bool := match ip with IpV4 _ => false | IpV6 _ => true end.

(** What is used of a resolved service; the addresses in the order of the set. *)
Record ResolvedService := {
  rs_fullname : bytes; rs_properties : list (bytes * bytes); rs_addresses : list IpAddr; rs_port : Z
}.

Inductive ServiceEvent := ServiceResolved (info : ResolvedService) | OtherEvent.

(** The properties as a [HashMap]. *)
Definition txt_of (info : ResolvedService) : gmap bytes bytes :=
  foldl (fun m p => <[p.1 := p.2]> m) ∅ (rs_properties info).

(** The first address of the preferred family, or the first. *)
Definition pick_addr (preferred : IpAddr -> bool) (info : ResolvedService) : option SocketAddr :=
  ip ← match List.find preferred (rs_addresses info) with Some ip => Some ip | None => head (rs_addresses info) end;
  Some (socket_addr ip (rs_port info)).

(** ** [hap-transport/src/discovery.rs] *)

Definition HAP_SERVICE_TYPE : bytes := str "_hap._tcp.local.".

Record DiscoveredAccessory := {
  da_id : bytes; da_name : bytes; da_addr : SocketAddr; da_paired : bool; da_category : Z; da_config_number : Z;
  da_setup_hash : option bytes
}.

Definition instance_name (fullname : bytes) : bytes :=
  match strip_suffix HAP_SERVICE_TYPE fullname with
  | None => fullname
  | Some s => trim_end_byte x2e s
  end.

(** The closure [parse_num] of [parse_txt]. *)
Definition parse_num (txt : gmap bytes bytes) (key : string) : result TransportError Z :=
  match txt !! str key with
  | None => Ok 0%Z
  | Some v => ok_or (parse_u64 v) (DiscoveryTxt (chars key))
  end.

(** [uN::try_from(n).map_err(..)]. *)
Definition checked_u (w : Z) (key : string) (n : Z) : result TransportError Z :=
  if (n <? 2 ^ w)%Z then Ok n else Err (DiscoveryTxt (chars key)).

Section ip.
Context `{Base64Engine}.

Definition parse_txt (fullname : bytes) (addr : SocketAddr) (txt : gmap bytes bytes)
    : result TransportError DiscoveredAccessory :=
  id ← ok_or (txt !! str "id") (DiscoveryTxt (chars "id"));
  c ← parse_num txt "c#";
  config_number ← checked_u 32 "c#" c;
  ci ← parse_num txt "ci";
  category ← checked_u 16 "ci" ci;
  sf ← parse_num txt "sf";
  let paired := (Z.land sf 0x1 =? 0)%Z in
  let setup_hash :=
    s ← txt !! str "sh";
    match b64_decode s with Ok b => if length b =? 4 then Some b else None | _ => None end in
  Ok {| da_id := id; da_name := instance_name fullname; da_addr := addr; da_paired := paired;
        da_category := category; da_config_number := config_number; da_setup_hash := setup_hash |}.

(** The accessory of one event, if it has an address and parses. *)
Definition resolved (ev : ServiceEvent) : option DiscoveredAccessory :=
  match ev with
  | OtherEvent => None
  | ServiceResolved info =>
      addr ← pick_addr is_ipv4 info;
      match parse_txt (rs_fullname info) addr (txt_of info) with Ok acc => Some acc | _ => None end
  end.

(** [discover]: [browse] is the start of the browse, then the events heard before the
    window closed; the accessories in the order of the [HashMap]. *)
Fixpoint discover_found (events : list ServiceEvent) (found : gmap bytes DiscoveredAccessory)
    : gmap bytes DiscoveredAccessory :=
  match events with
  | [] => found
  | ev :: events' =>
      discover_found events' (match resolved ev with Some acc => <[da_id acc := acc]> found | None => found end)
  end.

Definition ip_discover (browse : result TransportError (list ServiceEvent))
    : result TransportError (list DiscoveredAccessory) :=
  events ← browse;
  Ok (snd <$> map_to_list (discover_found events ∅)).

(** The task of [discover_stream]: what it sends, in order.  The consumer takes [room]
    accessories and drops its receiver. *)
Fixpoint discover_sends (events : list ServiceEvent) (seen : gset bytes) (room : nat) : list DiscoveredAccessory :=
  match events, room with
  | [], _ | _, 0 => []
  | ev :: events', S room' =>
      match resolved ev with
      | Some acc =>
          if bool_decide (da_id acc ∈ seen) then discover_sends events' seen room
          else acc :: discover_sends events' ({[da_id acc]} ∪ seen) room'
      | None => discover_sends events' seen room
      end
  end.
End ip.

(** ** [hap-thread/src/discovery.rs] *)

Definition HAP_UDP_SERVICE_TYPE : bytes := str "_hap._udp.local.".

Record DiscoveredThreadAccessory := {
  dt_id : bytes; dt_name : bytes; dt_addr : SocketAddr; dt_paired : bool; dt_category : Z; dt_config_number : Z
}.

Definition thread_instance_name (fullname : bytes) : bytes :=
  match strip_suffix HAP_UDP_SERVICE_TYPE fullname with
  | None => fullname
  | Some s => trim_end_byte x2e s
  end.

Definition thread_parse_num (txt : gmap bytes bytes) (key : string) : result ThreadError Z :=
  match txt !! str key with
  | None => Ok 0%Z
  | Some v => ok_or (parse_u64 v) (ThreadPdu.DiscoveryTxt key)
  end.

Definition thread_checked_u (w : Z) (key : string) (n : Z) : result ThreadError Z :=
  if (n <? 2 ^ w)%Z then Ok n else Err (ThreadPdu.DiscoveryTxt key).

Definition thread_parse_txt (fullname : bytes) (addr : SocketAddr) (txt : gmap bytes bytes)
    : result ThreadError DiscoveredThreadAccessory :=
  id ← ok_or (txt !! str "id") (ThreadPdu.DiscoveryTxt "id");
  c ← thread_parse_num txt "c#";
  config_number ← thread_checked_u 32 "c#" c;
  ci ← thread_parse_num txt "ci";
  category ← thread_checked_u 16 "ci" ci;
  sf ← thread_parse_num txt "sf";
  let paired := (Z.land sf 0x1 =? 0)%Z in
  Ok {| dt_id := id; dt_name := thread_instance_name fullname; dt_addr := addr; dt_paired := paired;
        dt_category := category; dt_config_number := config_number |}.

Definition thread_resolved (ev : ServiceEvent) : option DiscoveredThreadAccessory :=
  match ev with
  | OtherEvent => None
  | ServiceResolved info =>
      addr ← pick_addr is_ipv6 info;
      match thread_parse_txt (rs_fullname info) addr (txt_of info) with Ok acc => Some acc | _ => None end
  end.

Fixpoint thread_found (events : list ServiceEvent) (found : gmap bytes DiscoveredThreadAccessory)
    : gmap bytes DiscoveredThreadAccessory :=
  match events with
  | [] => found
  | ev :: events' =>
      thread_found events' (match thread_resolved ev with Some acc => <[dt_id acc := acc]> found | None => found end)
  end.

Definition thread_discover (browse : result ThreadError (list ServiceEvent))
    : result ThreadError (list DiscoveredThreadAccessory) :=
  events ← browse;
  Ok (snd <$> map_to_list (thread_found events ∅)).

(** ** [hap-ble/src/discovery.rs] *)

Definition APPLE_COMPANY_ID : Z := 0x004C.

Record DiscoveredBleAccessory := {
  db_peripheral_id : bytes; db_device_id : bytes; db_category : Z; db_global_state_number : Z;
  db_config_number : Z; db_paired : bool; db_setup_hash : option bytes
}.

(** The [fold] that writes the device id. *)
Definition device_id_str (device_id : bytes) : bytes :=
  foldl (fun s b => (if bool_decide (s = []) then s else s ++ [x3a]) ++ (Zbyte <$> hex2 false b)) [] device_id.

(** [None]: not a HAP advertisement. *)
Definition parse_hap_advert (mfg peripheral_id : bytes) : result BleError (option DiscoveredBleAccessory) :=
  if length mfg <? 15 then Ok None
  else
    parsed ← advert_parse mfg;
    match parsed with
    | Some (Regular device_id gsn paired) =>
        c0 ← index mfg 9; c1 ← index mfg 10;
        let category := le_Z [c0; c1] in
        config_number ← index mfg 13;
        setup_hash ← (if 19 <=? length mfg then
                        h0 ← index mfg 15; h1 ← index mfg 16; h2 ← index mfg 17; h3 ← index mfg 18;
                        Ok (Some [h0; h1; h2; h3])
                      else Ok None);
        Ok (Some {| db_peripheral_id := peripheral_id; db_device_id := device_id_str device_id;
                    db_category := category; db_global_state_number := gsn;
                    db_config_number := byteZ config_number; db_paired := paired; db_setup_hash := setup_hash |})
    | _ => Ok None
    end.

(** What is used of an advertisement: the manufacturer data and the peripheral's id. *)
Record Advertisement := { adv_manufacturer : option (Z * bytes); adv_device : bytes }.

(** The accessory of one advertisement. *)
Definition heard (adv : Advertisement) : result BleError (option DiscoveredBleAccessory) :=
  match adv_manufacturer adv with
  | None => Ok None
  | Some (company_id, data) =>
      if negb (company_id =? APPLE_COMPANY_ID)%Z then Ok None else parse_hap_advert data (adv_device adv)
  end.

(** The loop of [scan] over the advertisements of the window. *)
Fixpoint scan_found (advs : list Advertisement) (found : list DiscoveredBleAccessory) (seen : gset bytes)
    : result BleError (list DiscoveredBleAccessory) :=
  match advs with
  | [] => Ok found
  | adv :: advs' =>
      acc ← heard adv;
      match acc with
      | Some acc =>
          if bool_decide (db_peripheral_id acc ∈ seen) then scan_found advs' found seen
          else scan_found advs' (found ++ [acc]) ({[db_peripheral_id acc]} ∪ seen)
      | None => scan_found advs' found seen
      end
  end.

(** [start] is the start of the scan, then what was heard before the deadline. *)
Definition scan (start : result BleError (list Advertisement)) : result BleError (list DiscoveredBleAccessory) :=
  advs ← start;
  scan_found advs [] ∅.

(** The task of [scan_stream]: what it sends to a consumer that takes [room] of them. *)
Fixpoint scan_sends (advs : list Advertisement) (seen : gset bytes) (room : nat)
    : result BleError (list DiscoveredBleAccessory) :=
  match advs, room with
  | [], _ | _, 0 => Ok []
  | adv :: advs', S room' =>
      acc ← heard adv;
      match acc with
      | Some acc =>
          if bool_decide (db_peripheral_id acc ∈ seen) then scan_sends advs' seen room
          else rest ← scan_sends advs' ({[db_peripheral_id acc]} ∪ seen) room'; Ok (acc :: rest)
      | None => scan_sends advs' seen room
      end
  end.

(** ** [hap-controller/src/discovered.rs] *)

Inductive Discovered := DiscIp (d : DiscoveredAccessory) | DiscBle (d : DiscoveredBleAccessory).

Definition disc_id (self : Discovered) : bytes := match self with DiscIp d => da_id d | DiscBle d => db_device_id d end.
Definition disc_name (self : Discovered) : bytes :=
  match self with DiscIp d => da_name d | DiscBle d => db_device_id d end.
Definition disc_paired (self : Discovered) : bool := match self with DiscIp d => da_paired d | DiscBle d => db_paired d end.
Definition disc_category (self : Discovered) : Z :=
  match self with DiscIp d => da_category d | DiscBle d => db_category d end.

(** ** [hap-controller/src/discover_until.rs] *)

Section collect.
(** The predicate, which may depend on what it was called with before. *)
Context (stop : list Discovered -> Discovered -> bool).

Fixpoint collect_loop (rx : list Discovered) (out : list Discovered) (seen : gset bytes) : list Discovered :=
  match rx with
  | [] => out
  | d :: rx' =>
      if bool_decide (lowercase (disc_id d) ∈ seen) then collect_loop rx' out seen
      else
        let hit := stop out d in
        let out := out ++ [d] in
        if hit then out else collect_loop rx' out ({[lowercase (disc_id d)]} ∪ seen)
  end.

Definition collect_until (rx : list Discovered) : list Discovered := collect_loop rx [] ∅.
End collect.

(** ** [HapController::{discover, discover_until}] *)

(** [discover], from the two scans' results. *)
Definition hc_discover (ip : result TransportError (list DiscoveredAccessory))
    (ble : result BleError (list DiscoveredBleAccessory)) : result TransportError (list Discovered) :=
  match ip, ble with
  | Ok ip, Ok ble => Ok ((DiscIp <$> ip) ++ (DiscBle <$> ble))
  | Ok ip, Err _ => Ok (DiscIp <$> ip)
  | Err _, Ok ble => Ok (DiscBle <$> ble)
  | Err e, Err _ => Err e
  | Fault f, _ | _, Fault f => Fault f
  end.

(** The order in which two forwarders' messages arrive on one channel. *)
Inductive interleaving {A} : list A -> list A -> list A -> Prop :=
| inter_nil : interleaving [] [] []
| inter_left x l r m : interleaving l r m -> interleaving (x :: l) r (x :: m)
| inter_right x l r m : interleaving l r m -> interleaving l (x :: r) (x :: m).

(** [discover_until], from the two started streams and the order [merge] in which their
    accessories arrive. *)
Definition discover_until (ip : result TransportError (list DiscoveredAccessory))
    (ble : result BleError (list DiscoveredBleAccessory)) (merge : list Discovered -> list Discovered -> list Discovered)
    (stop : list Discovered -> Discovered -> bool) : result TransportError (list Discovered) :=
  match ip, ble with
  | Err e, Err _ => Err e
  | Fault f, _ | _, Fault f => Fault f
  | _, _ =>
      let left := match ip with Ok l => DiscIp <$> l | _ => [] end in
      let right := match ble with Ok l => DiscBle <$> l | _ => [] end in
      Ok (collect_until stop (merge left right))
  end.

(** * Specification: what is announced *)

(** What is relied on of base64. *)
Class Base64Laws `{Base64Engine} := { b64_roundtrip bs : b64_decode (utf8_encode (b64_encode bs)) = Ok bs }.

(** The text of a number. *)
Definition decimal (n : Z) : bytes := utf8_encode (to_decimal n).

(** The service an IP accessory registers, at some addresses. *)
Definition announce_ip `{Base64Engine} (d : DiscoveredAccessory) (addrs : list IpAddr) (port : Z) : ServiceEvent :=
  ServiceResolved
    {| rs_fullname := da_name d ++ str "." ++ HAP_SERVICE_TYPE;
       rs_properties :=
         [(str "c#", decimal (da_config_number d)); (str "ci", decimal (da_category d)); (str "id", da_id d);
          (str "sf", decimal (if da_paired d then 0 else 1))] ++
         match da_setup_hash d with Some h => [(str "sh", utf8_encode (b64_encode h))] | None => [] end;
       rs_addresses := addrs; rs_port := port |}.

Definition ip_ok (d : DiscoveredAccessory) : Prop :=
  in_u 32 (da_config_number d) /\ in_u 16 (da_category d) /\ from_option (fun h => length h = 4) True (da_setup_hash d) /\
  last (da_name d) <> Some x2e.

(** The advertisement of a BLE accessory; its device id is the text of six bytes. *)
Definition advertise (d : DiscoveredBleAccessory) : Advertisement :=
  {| adv_manufacturer := Some (APPLE_COMPANY_ID,
       [x06; x31; if db_paired d then x00 else x01] ++ default [] (parse_device_id (db_device_id d)) ++
       le_bytes 2 (db_category d) ++ le_bytes 2 (db_global_state_number d) ++ [Zbyte (db_config_number d); x02] ++
       default [] (db_setup_hash d));
     adv_device := db_peripheral_id d |}.

Definition ble_ok (d : DiscoveredBleAccessory) : Prop :=
  (exists id, length id = 6 /\ db_device_id d = format_device_id id) /\
  in_u 16 (db_category d) /\ in_u 16 (db_global_state_number d) /\ in_u 8 (db_config_number d) /\
  from_option (fun h => length h = 4) True (db_setup_hash d).

(** Where an accessory announced at [addrs] is reached: its first IPv4 address if it has
    one, else its first address, which is then an IPv6 one. *)
Inductive reached_at (addrs : list IpAddr) (port : Z) : SocketAddr -> Prop :=
| reached_v4 before o after :
    addrs = before ++ IpV4 o :: after -> Forall (fun ip => exists o', ip = IpV6 o') before ->
    reached_at addrs port (SocketV4 o port)
| reached_v6 o rest :
    addrs = IpV6 o :: rest -> Forall (fun ip => exists o', ip = IpV6 o') rest ->
    reached_at addrs port (SocketV6 o port 0 0).

(** What announces no accessory: another event, or a service without an id or an address. *)
Inductive unrelated : ServiceEvent -> Prop :=
| unrelated_other : unrelated OtherEvent
| unrelated_no_id info : str "id" ∉ (rs_properties info).*1 -> unrelated (ServiceResolved info)
| unrelated_no_address info : rs_addresses info = [] -> unrelated (ServiceResolved info).

(** Another vendor's advertisement, one too short, or not HAP's regular type. *)
Inductive unrelated_advert : Advertisement -> Prop :=
| unrelated_none dev : unrelated_advert {| adv_manufacturer := None; adv_device := dev |}
| unrelated_vendor company data dev :
    company <> APPLE_COMPANY_ID -> unrelated_advert {| adv_manufacturer := Some (company, data); adv_device := dev |}
| unrelated_short company data dev :
    length data < 15 -> unrelated_advert {| adv_manufacturer := Some (company, data); adv_device := dev |}
| unrelated_type company data dev :
    head data <> Some x06 -> unrelated_advert {| adv_manufacturer := Some (company, data); adv_device := dev |}.

(** What a browse hears of the accessories [ds]: each at least once, among unrelated events. *)
Definition browse_hears `{Base64Engine} (ds : list DiscoveredAccessory) (events : list ServiceEvent) : Prop :=
  (forall ev, ev ∈ events -> unrelated ev \/
     exists d addrs port, d ∈ ds /\ ev = announce_ip d addrs port /\ reached_at addrs port (da_addr d)) /\
  (forall d, d ∈ ds -> exists addrs port, announce_ip d addrs port ∈ events /\ reached_at addrs port (da_addr d)).

Definition scan_hears (ds : list DiscoveredBleAccessory) (advs : list Advertisement) : Prop :=
  (forall adv, adv ∈ advs -> unrelated_advert adv \/ exists d, d ∈ ds /\ adv = advertise d) /\
  (forall d, d ∈ ds -> advertise d ∈ advs).

(** * Lemmas *)

(** ** Numbers and names *)

Lemma decimal_ascii n : (0 <= n)%Z -> decimal n = Zbyte <$> to_decimal n /\ is_ascii (decimal n).
Proof.
  intros Hn. pose proof (to_decimal_digits n Hn) as Hd.
  assert (decimal n = Zbyte <$> to_decimal n) as He.
  { unfold decimal. apply utf8_encode_small. eapply Forall_impl; [exact Hd|]. simpl. lia. }
  split; [done|]. rewrite He. apply Forall_fmap. eapply Forall_impl; [exact Hd|]. intros c Hc. simpl in *.
  rewrite byteZ_Zbyte_small by lia. lia.
Qed.

Lemma parse_decimal n : in_u 64 n -> parse_u64 (decimal n) = Some n.
Proof.
  intros [Hn Hm]. destruct (decimal_ascii n Hn) as [He Ha]. unfold parse_u64.
  rewrite from_utf8_lossy_ascii by done. pose proof (to_decimal_digits n Hn) as Hd.
  replace (byteZ <$> decimal n) with (to_decimal n).
  2:{ rewrite He, <- list_fmap_compose. symmetry. apply fmap_fixed. eapply Forall_impl; [exact Hd|].
      intros c Hc. simpl in *. by rewrite byteZ_Zbyte_small by lia. }
  rewrite trim_no_space; [apply from_str_radix_to_decimal; lia|].
  assert (forall c, c ∈ to_decimal n -> is_whitespace c = false) as Hw.
  { rewrite Forall_forall in Hd. intros c Hc. specialize (Hd c Hc). simpl in Hd. unfold is_whitespace.
    repeat (rewrite ?(proj2 (Z.eqb_neq _ _)), ?(proj2 (Z.leb_gt _ _)) by lia).
    destruct (Z.leb_spec 9 c), (Z.leb_spec c 13); try lia; simpl;
    repeat (rewrite (proj2 (Z.eqb_neq _ _)) by lia); simpl; destruct (Z.leb_spec 0x2000 c); try lia; done. }
  split; intros c s' Hs; apply Hw; rewrite Hs; set_solver.
Qed.

Lemma instance_name_of name : last name <> Some x2e -> instance_name (name ++ str "." ++ HAP_SERVICE_TYPE) = name.
Proof.
  intros Hl. unfold instance_name, strip_suffix.
  replace (length _ - _) with (length (name ++ str ".")) by (rewrite !length_app; simpl; lia).
  rewrite app_assoc, drop_app_length, bool_decide_true, take_app_length by done.
  unfold trim_end_byte. rewrite reverse_app. change (reverse (str ".")) with [x2e]. cbn [app].
  rewrite bool_decide_true by done. destruct (reverse name) as [|b s] eqn:Hr.
  - apply (f_equal reverse) in Hr. by rewrite reverse_involutive in Hr.
  - rewrite bool_decide_false.
    + by rewrite <- Hr, reverse_involutive.
    + intros ->. apply Hl. apply (f_equal reverse) in Hr. rewrite reverse_involutive, reverse_cons in Hr.
      by rewrite Hr, last_snoc.
Qed.

(** ** Announcements are read back *)

Lemma resolved_announced `{Base64Laws} d addrs port info :
  ip_ok d -> announce_ip d addrs port = ServiceResolved info -> pick_addr is_ipv4 info = Some (da_addr d) ->
  resolved (ServiceResolved info) = Some d.
Proof.
  intros (Hcn & Hci & Hsh & Hname) Hi Hp. unfold resolved. rewrite Hp. cbn [mbind option_bind].
  injection Hi as <-. cbn [rs_fullname].
  set (txt := txt_of _).
  assert (txt !! str "id" = Some (da_id d) /\ txt !! str "c#" = Some (decimal (da_config_number d)) /\
    txt !! str "ci" = Some (decimal (da_category d)) /\
    txt !! str "sf" = Some (decimal (if da_paired d then 0 else 1)) /\
    txt !! str "sh" = (fun h => utf8_encode (b64_encode h)) <$> da_setup_hash d) as (Hid & Hc & Ht & Hsf & Hs).
  { unfold txt, txt_of. cbn [rs_properties].
    destruct (da_setup_hash d); cbn [app foldl fst snd fmap option_fmap option_map]; split_and!;
      repeat first [by rewrite lookup_insert_eq | rewrite lookup_insert_ne by done]; by rewrite lookup_empty. }
  unfold parse_txt, parse_num. rewrite Hid, Hc, Ht, Hsf, Hs. cbn [ok_or mbind result_bind].
  rewrite !parse_decimal by (unfold in_u in *; destruct (da_paired d); lia). cbn [ok_or mbind result_bind].
  unfold checked_u. rewrite !(proj2 (Z.ltb_lt _ _)) by (unfold in_u in *; lia). cbn [mbind result_bind].
  rewrite instance_name_of by done.
  destruct d as [id name addr paired cat cn sh]. cbn [da_id da_name da_addr da_paired da_category da_config_number da_setup_hash] in *.
  f_equal. f_equal; [by destruct paired|]. destruct sh as [h|]; [|done]. cbn [fmap option_fmap option_map mbind option_bind].
  rewrite b64_roundtrip. cbn in Hsh. by rewrite Hsh.
Qed.

Lemma find_ipv4_none addrs : Forall (fun ip => exists o, ip = IpV6 o) addrs -> List.find is_ipv4 addrs = None.
Proof. by induction 1 as [|ip addrs [o ->] _ IH]. Qed.

Lemma reached_picked addrs port a fullname props : reached_at addrs port a ->
  pick_addr is_ipv4 {| rs_fullname := fullname; rs_properties := props; rs_addresses := addrs; rs_port := port |} = Some a.
Proof.
  unfold pick_addr. cbn [rs_addresses rs_port]. intros [before o after -> Hb|o rest -> Hr].
  - assert (List.find is_ipv4 (before ++ IpV4 o :: after) = Some (IpV4 o)) as ->; [|done].
    by induction Hb as [|ip before [o' ->] _ IH].
  - cbn [List.find is_ipv4]. by rewrite find_ipv4_none.
Qed.

Lemma resolved_at `{Base64Laws} d addrs port :
  ip_ok d -> reached_at addrs port (da_addr d) -> resolved (announce_ip d addrs port) = Some d.
Proof. intros Hok Hr. eapply resolved_announced; [done|reflexivity|]. by apply reached_picked. Qed.

Lemma txt_missing (props : list (bytes * bytes)) (key : bytes) (m : gmap bytes bytes) :
  key ∉ props.*1 -> foldl (fun m p => <[p.1 := p.2]> m) m props !! key = m !! key.
Proof.
  revert m. induction props as [|[k v] props IH]; intros m Hk; [done|]. cbn [foldl fst snd].
  rewrite IH by set_solver. apply lookup_insert_ne. set_solver.
Qed.

Lemma unrelated_resolved `{Base64Engine} ev : unrelated ev -> resolved ev = None.
Proof.
  intros [|info Hid|info Ha]; [done| |].
  - cbn. destruct (pick_addr is_ipv4 info) as [addr|]; [|done]. cbn. unfold parse_txt.
    assert (txt_of info !! str "id" = None) as -> by (unfold txt_of; by rewrite txt_missing). done.
  - cbn. unfold pick_addr. by rewrite Ha.
Qed.

Lemma unrelated_heard adv : unrelated_advert adv -> heard adv = Ok None.
Proof.
  intros [dev|company data dev Hc|company data dev Hl|company data dev Ht]; [done|..]; unfold heard; cbn [adv_manufacturer adv_device].
  - by rewrite (proj2 (Z.eqb_neq _ _)).
  - unfold parse_hap_advert. rewrite (proj2 (Nat.ltb_lt _ _)) by done. by destruct (negb _).
  - destruct (negb _); [done|]. unfold parse_hap_advert. destruct (length data <? 15) eqn:Hl; [done|].
    apply Nat.ltb_ge in Hl. unfold advert_parse. destruct (head data) as [b|]; [|done].
    destruct b; try done; try by destruct Ht.
    rewrite (proj2 (Nat.leb_le 8 _)) by lia.
    rewrite slice_ok by lia. cbn [mbind result_bind]. by rewrite slice_ok by lia.
Qed.

Lemma device_id_str_more acc id : acc <> [] ->
  foldl (fun s b => (if bool_decide (s = []) then s else s ++ [x3a]) ++ (Zbyte <$> hex2 false b)) acc id =
    acc ++ (id ≫= fun b => x3a :: (Zbyte <$> hex2 false b)).
Proof.
  revert acc. induction id as [|b id IH]; intros acc Ha; [by rewrite app_nil_r|]. cbn [foldl].
  rewrite bool_decide_false by done. rewrite IH by by destruct acc. rewrite bind_cons.
  by rewrite <- !app_assoc.
Qed.

Lemma device_id_str_format id : device_id_str id = format_device_id id.
Proof.
  unfold device_id_str, format_device_id. destruct id as [|b id]; [done|]. cbn [foldl].
  rewrite bool_decide_true by done. rewrite device_id_str_more by done. cbn [app]. rewrite fmap_cons. clear.
  set (hex := fun b => Zbyte <$> hex2 false b).
  change (hex b ++ (id ≫= fun b => x3a :: hex b) = join x3a (hex b :: (hex <$> id))).
  revert b. induction id as [|b' id IH]; intros b; [apply app_nil_r|].
  rewrite bind_cons, fmap_cons. transitivity (hex b ++ x3a :: join x3a (hex b' :: (hex <$> id))); [|done].
  by rewrite <- IH.
Qed.

Lemma heard_advertised d : ble_ok d -> heard (advertise d) = Ok (Some d).
Proof.
  intros ((id & Hl & Hid) & Hc & Hg & Hn & Hs). unfold heard, advertise. cbn [adv_manufacturer adv_device].
  change (negb (APPLE_COMPANY_ID =? APPLE_COMPANY_ID)%Z) with false. cbv iota.
  rewrite Hid, parse_format_device_id by done. change (default [] (Some id)) with id.
  destruct (le_Z_u16 _ Hc) as (c0 & c1 & Hcb & Hcz). destruct (le_Z_u16 _ Hg) as (g0 & g1 & Hgb & Hgz).
  rewrite Hcb, Hgb. do 6 (destruct id as [|? id]; [done|]). destruct id; [|done]. clear Hl.
  destruct d as [pid did cat gsn cn paired sh]. cbn [db_peripheral_id db_device_id db_category db_global_state_number
    db_config_number db_paired db_setup_hash] in *.
  assert (byteZ (Zbyte cn) = cn) as Hcn by by apply byteZ_u8.
  destruct sh as [h|]; cbn in Hs.
  - do 4 (destruct h as [|? h]; [done|]). destruct h; [|done].
    unfold parse_hap_advert. cbn -[device_id_str format_device_id le_Z Z.land].
    rewrite device_id_str_format, Hcz, Hgz, Hcn. rewrite <- Hid. destruct paired; done.
  - unfold parse_hap_advert. cbn -[device_id_str format_device_id le_Z Z.land].
    rewrite device_id_str_format, Hcz, Hgz, Hcn. rewrite <- Hid. destruct paired; done.
Qed.

(** ** The loops *)

Lemma NoDup_fmap_inj {A B} (f : A -> B) l x y : NoDup (f <$> l) -> x ∈ l -> y ∈ l -> f x = f y -> x = y.
Proof.
  intros Hn [i Hi]%list_elem_of_lookup [j Hj]%list_elem_of_lookup Hf.
  assert (i = j) as ->; [|congruence].
  apply (NoDup_lookup (f <$> l) i j (f x)); [done|..]; rewrite list_lookup_fmap; [by rewrite Hi|by rewrite Hj, Hf].
Qed.

(** A scan that hears only accessories of [ds]: each one once, none twice. *)
Lemma scan_found_spec ds advs found seen :
  Forall ble_ok ds -> NoDup (db_peripheral_id <$> ds) ->
  (forall adv, adv ∈ advs -> unrelated_advert adv \/ exists d, d ∈ ds /\ adv = advertise d) ->
  found ⊆ ds -> NoDup found -> (forall i, i ∈ seen <-> i ∈ db_peripheral_id <$> found) ->
  exists found', scan_found advs found seen = Ok found' /\ NoDup found' /\ found ⊆ found' /\ found' ⊆ ds /\
    forall d, d ∈ ds -> advertise d ∈ advs -> d ∈ found'.
Proof.
  intros Hok Hnd. revert found seen. induction advs as [|adv advs IH]; intros found seen Hadv Hsub Hf Hseen.
  { exists found. split_and!; try done. set_solver. }
  assert (forall d, d ∈ ds -> heard (advertise d) = Ok (Some d)) as Hheard
    by (intros d Hd; apply heard_advertised; by apply (proj1 (Forall_forall _ _) Hok)).
  assert (forall x y, x ∈ ds -> y ∈ ds -> db_peripheral_id x = db_peripheral_id y -> x = y) as Hinj
    by (intros x y; by apply NoDup_fmap_inj).
  cbn [scan_found]. destruct (Hadv adv) as [Hn%unrelated_heard|(d & Hd & ->)]; [by left| |].
  - rewrite Hn. cbn [mbind result_bind].
    destruct (IH found seen) as (f' & Hr & H1 & H2 & H3 & H4); [set_solver|done..|].
    exists f'. split_and!; try done. intros d Hd [Ha|Ha]%elem_of_cons; [|by apply H4].
    rewrite <- Ha, Hheard in Hn by done. done.
  - rewrite Hheard by done. cbn [mbind result_bind]. case_bool_decide as Hs.
    + destruct (IH found seen) as (f' & Hr & H1 & H2 & H3 & H4); [set_solver|done..|].
      exists f'. split_and!; try done. intros d' Hd' [Ha|Ha]%elem_of_cons; [|by apply H4].
      apply H2. apply Hseen, list_elem_of_fmap in Hs as (x & Hx & Hxf).
      assert (d' = d) as ->; [|by rewrite (Hinj d x Hd (Hsub _ Hxf) Hx)].
      apply (f_equal heard) in Ha. rewrite !Hheard in Ha by done. congruence.
    + destruct (IH (found ++ [d]) ({[db_peripheral_id d]} ∪ seen)) as (f' & Hr & H1 & H2 & H3 & H4).
      * set_solver.
      * set_solver.
      * apply NoDup_app. split_and!; [done| |apply NoDup_singleton].
        intros x Hx ->%list_elem_of_singleton. apply Hs, Hseen. by apply list_elem_of_fmap_2.
      * intros i. rewrite fmap_app. set_solver.
      * exists f'. split_and!; try done; [set_solver|].
        intros d' Hd' [Ha|Ha]%elem_of_cons; [|by apply H4].
        apply (f_equal heard) in Ha. rewrite !Hheard in Ha by done. assert (d' = d) as -> by congruence. set_solver.
Qed.

Lemma scan_complete ds advs :
  Forall ble_ok ds -> NoDup (db_peripheral_id <$> ds) -> scan_hears ds advs ->
  exists found, scan (Ok advs) = Ok found /\ found ≡ₚ ds.
Proof.
  intros Hok Hnd [H1 H2]. destruct (scan_found_spec ds advs [] ∅) as (found & Hr & Hf & _ & Hsub & Hall);
    [done..|set_solver|constructor|set_solver|].
  exists found. split; [done|]. apply NoDup_Permutation; [done|by apply NoDup_fmap_1 in Hnd|].
  intros d. split; [apply Hsub|]. intros Hd. apply Hall; auto.
Qed.

(** The map after a browse: the accessories heard, each under its id. *)
Lemma discover_found_spec `{Base64Laws} ds events found :
  NoDup (da_id <$> ds) ->
  (forall ev, ev ∈ events -> resolved ev = None \/ exists d, d ∈ ds /\ resolved ev = Some d) ->
  forall i d, discover_found events found !! i = Some d <->
    (d ∈ ds /\ da_id d = i /\ exists ev, ev ∈ events /\ resolved ev = Some d) \/
    (found !! i = Some d /\ forall d' ev, ev ∈ events -> resolved ev = Some d' -> da_id d' <> i).
Proof.
  intros Hnd. revert found. induction events as [|ev events IH]; intros found Hev i d; cbn [discover_found].
  { split; [intros Hi; right; split; [done|set_solver]|]. intros [(_ & _ & ? & ? & _)|[? _]]; [set_solver|done]. }
  assert (forall x y, x ∈ ds -> y ∈ ds -> da_id x = da_id y -> x = y) as Hinj
    by (intros x y; by apply NoDup_fmap_inj).
  rewrite IH by set_solver.
  destruct (Hev ev) as [Hn|(d0 & Hd0 & Hr0)]; [by left| |].
  - rewrite Hn. split.
    + intros [(Hd & Hi & ev' & Hev' & Hr)|[Hf Hno]]; [left|right].
      * split_and!; try done. exists ev'. set_solver.
      * split; [done|]. intros d' ev' [->|Hin]%elem_of_cons Hr; [congruence|by eapply Hno].
    + intros [(Hd & Hi & ev' & [->|Hev']%elem_of_cons & Hr)|[Hf Hno]]; [congruence|left|right].
      * split_and!; try done. by exists ev'.
      * split; [done|]. intros d' ev' Hin. apply Hno. by right.
  - rewrite Hr0. split.
    + intros [(Hd & Hid & ev' & Hev' & Hr)|[Hf Hno]].
      * left. split_and!; try done. exists ev'. set_solver.
      * apply lookup_insert_Some in Hf as [[Hid ->]|[Hid Hf]].
        -- left. split_and!; try done. exists ev. set_solver.
        -- right. split; [done|]. intros d' ev' [->|Hin]%elem_of_cons Hr; [congruence|by eapply Hno].
    + intros [(Hd & Hid & ev' & [->|Hev']%elem_of_cons & Hr)|[Hf Hno]].
      * assert (d0 = d) as -> by congruence. subst i.
        destruct (existsb (fun ev => match resolved ev with Some d' => bool_decide (da_id d' = da_id d) | None => false end)
                    events) eqn:Hl.
        -- left. split_and!; try done. apply existsb_exists in Hl as (ev' & Hin%list_elem_of_In & Hl).
           destruct (resolved ev') as [d'|] eqn:Hr'; [|done]. apply bool_decide_eq_true in Hl.
           exists ev'. split; [done|]. rewrite Hr'. f_equal. apply Hinj; try done.
           destruct (Hev ev') as [Hn'|(d1 & Hd1 & Hr1)]; [by right|congruence|]. by simplify_eq.
        -- right. rewrite lookup_insert_eq. split; [done|]. intros d' ev' Hin Hr' Hid'.
           apply not_true_iff_false in Hl. apply Hl, existsb_exists. exists ev'.
           split; [by apply list_elem_of_In|]. rewrite Hr'. by apply bool_decide_eq_true.
      * left. split_and!; try done. by exists ev'.
      * right. rewrite lookup_insert_ne; [|by eapply Hno; [left|]]. split; [done|].
        intros d' ev' Hin. apply Hno. by right.
Qed.

Lemma ip_discover_complete `{Base64Laws} ds events :
  Forall ip_ok ds -> NoDup (da_id <$> ds) -> browse_hears ds events ->
  exists found, ip_discover (Ok events) = Ok found /\ found ≡ₚ ds.
Proof.
  intros Hok Hnd [H1 H2].
  assert (forall d addrs port, d ∈ ds -> reached_at addrs port (da_addr d) -> resolved (announce_ip d addrs port) = Some d) as Hres.
  { intros d addrs port Hd. apply resolved_at. by apply (proj1 (Forall_forall _ _) Hok). }
  unfold ip_discover. cbn [mbind result_bind]. eexists. split; [reflexivity|].
  assert (discover_found events ∅ = list_to_map ((fun d => (da_id d, d)) <$> ds)) as ->.
  { apply map_eq. intros i. apply option_eq. intros d. rewrite (discover_found_spec ds); [|done|].
    2:{ intros ev Hev. destruct (H1 ev Hev) as [Hn|(d0 & addrs & port & Hd0 & -> & Hr)]; [left; by apply unrelated_resolved|right].
        exists d0. split; [done|]. by apply Hres. }
    rewrite <- elem_of_list_to_map.
    2:{ rewrite <- list_fmap_compose. exact Hnd. }
    rewrite lookup_empty, list_elem_of_fmap. split.
    - intros [(Hd & <- & _)|[? _]]; [by exists d|done].
    - intros (d' & [= -> ->] & Hd). left. split_and!; try done.
      destruct (H2 d' Hd) as (addrs & port & Hin & Hr). eexists. split; [exact Hin|]. by apply Hres. }
  rewrite map_to_list_to_map by (by rewrite <- list_fmap_compose).
  rewrite <- list_fmap_compose. change ((snd ∘ (fun d => (da_id d, d))) <$> ds) with (id <$> ds).
  by rewrite list_fmap_id.
Qed.

(** ** Collecting *)

Lemma interleaving_elem {A} (l r m : list A) x : interleaving l r m -> x ∈ m <-> x ∈ l \/ x ∈ r.
Proof. induction 1; set_solver. Qed.

(** The state of the loop: [out] are the first sightings of the ids of what was received. *)
Lemma collect_loop_spec stop rx0 rx out seen :
  (forall i, i ∈ seen <-> i ∈ (lowercase ∘ disc_id) <$> out) ->
  (forall d, d ∈ rx0 -> lowercase (disc_id d) ∈ seen) ->
  (forall d, d ∈ out -> exists pre post, rx0 = pre ++ d :: post /\
     forall d', d' ∈ pre -> lowercase (disc_id d') <> lowercase (disc_id d)) ->
  NoDup ((lowercase ∘ disc_id) <$> out) -> out `sublist_of` rx0 ->
  (forall o d o', out = o ++ d :: o' -> stop o d = false) ->
  let out' := collect_loop stop rx out seen in
  NoDup ((lowercase ∘ disc_id) <$> out') /\ out' `sublist_of` (rx0 ++ rx) /\
  (forall d, d ∈ out' -> exists pre post, rx0 ++ rx = pre ++ d :: post /\
     forall d', d' ∈ pre -> lowercase (disc_id d') <> lowercase (disc_id d)) /\
  ((forall o d o', out' = o ++ d :: o' -> stop o d = false) /\
     (forall d, d ∈ rx0 ++ rx -> lowercase (disc_id d) ∈ (lowercase ∘ disc_id) <$> out') \/
   exists o d, out' = o ++ [d] /\ stop o d = true /\ forall o1 d1 o2, o = o1 ++ d1 :: o2 -> stop o1 d1 = false).
Proof.
  revert rx0 out seen. induction rx as [|d rx IH]; intros rx0 out seen Hseen Hrx Hfirst Hnd Hsub Hstop out'.
  { unfold out'. cbn [collect_loop]. rewrite app_nil_r. split_and!; try done. left. split; [done|].
    intros d Hd. by apply Hseen, Hrx. }
  unfold out'. cbn [collect_loop]. case_bool_decide as Hs.
  - replace (rx0 ++ d :: rx) with ((rx0 ++ [d]) ++ rx) by by rewrite <- app_assoc.
    apply IH; try done.
    + intros d' [Hd| ->%list_elem_of_singleton]%elem_of_app; auto.
    + intros d' Hd'. destruct (Hfirst d' Hd') as (pre & post & -> & Hp). exists pre, (post ++ [d]).
      by rewrite <- app_assoc.
    + by apply sublist_inserts_r.
  - assert (lowercase (disc_id d) ∉ (lowercase ∘ disc_id) <$> out) as Hnew by by rewrite <- Hseen.
    assert (NoDup ((lowercase ∘ disc_id) <$> out ++ [d])) as Hnd'.
    { rewrite fmap_app. apply NoDup_app. split_and!; [done| |apply NoDup_singleton].
      intros x Hx ->%list_elem_of_singleton. by apply Hnew. }
    assert (forall d', d' ∈ rx0 -> lowercase (disc_id d') <> lowercase (disc_id d)) as Hno.
    { intros d' Hd' He. apply Hs. rewrite <- He. by apply Hrx. }
    assert (forall o d1 o1, stop out d = false -> out ++ [d] = o ++ d1 :: o1 -> stop o d1 = false) as Hstop'.
    { intros o d1 o1 Hf He. destruct o1 as [|d2 o2 _] using rev_ind.
      - by apply app_inj_tail in He as [<- <-].
      - rewrite app_comm_cons, app_assoc in He. apply app_inj_tail in He as [-> _]. by eapply Hstop. }
    destruct (stop out d) eqn:Hhit.
    + split_and!.
      * done.
      * apply sublist_app; [done|]. apply sublist_cons_l. exists [], rx. split; [done|]. apply sublist_nil_l.
      * intros d' [Hd| ->%list_elem_of_singleton]%elem_of_app; [|by exists rx0, rx].
        destruct (Hfirst d' Hd) as (pre & post & -> & Hp). exists pre, (post ++ d :: rx). by rewrite <- app_assoc.
      * right. exists out, d. done.
    + replace (rx0 ++ d :: rx) with ((rx0 ++ [d]) ++ rx) by by rewrite <- app_assoc.
      apply IH; try done.
      * intros i. rewrite elem_of_union, elem_of_singleton, Hseen, fmap_app. set_solver.
      * intros d' [Hd| ->%list_elem_of_singleton]%elem_of_app; [|set_solver]. specialize (Hrx d' Hd). set_solver.
      * intros d' [Hd| ->%list_elem_of_singleton]%elem_of_app; [|by exists rx0, []].
        destruct (Hfirst d' Hd) as (pre & post & -> & Hp). exists pre, (post ++ [d]). by rewrite <- app_assoc.
      * by apply sublist_app.
      * intros o d1 o1. by apply Hstop'.
Qed.

(** * Theorems *)

(** C35: Discovery reports what is announced.  When the browse hears every accessory of a
    set (any number of times, among unrelated services) and the scan every accessory of
    another, [discover] returns exactly these accessories, each once, with the id, name,
    pairing state, category, configuration number and setup hash announced, and reached at
    an IPv4 address it announced, or at an IPv6 one where it announced no other. *)
Theorem discovery_complete `{Base64Laws} ips bles events advs :
  Forall ip_ok ips -> NoDup (da_id <$> ips) -> browse_hears ips events ->
  Forall ble_ok bles -> NoDup (db_peripheral_id <$> bles) -> scan_hears bles advs ->
  exists found, hc_discover (ip_discover (Ok events)) (scan (Ok advs)) = Ok found /\
    found ≡ₚ (DiscIp <$> ips) ++ (DiscBle <$> bles).
Proof.
  intros Hi Hni Hbr Hb Hnb Hsc. destruct (ip_discover_complete ips events Hi Hni Hbr) as (f1 & H1 & Hp1).
  destruct (scan_complete bles advs Hb Hnb Hsc) as (f2 & H2 & Hp2).
  rewrite H1, H2. eexists. split; [reflexivity|]. by rewrite Hp1, Hp2.
Qed.

(** Early discovery.  Whatever order the two transports' accessories arrive in, and
    whatever the predicate, [discover_until] returns the first sighting of each id (IP
    and BLE spellings of an id are the same id), in order of arrival, up to and including
    the first accessory the predicate stops at, or every id that was heard if it stops at
    none; and the predicate is asked once about each, with what was found before. *)
Theorem discover_until_first_sightings ip ble merge stop rx out :
  (forall l r, interleaving l r (merge l r)) ->
  rx = merge (match ip with Ok l => DiscIp <$> l | _ => [] end) (match ble with Ok l => DiscBle <$> l | _ => [] end) ->
  discover_until ip ble merge stop = Ok out ->
  NoDup ((lowercase ∘ disc_id) <$> out) /\ out `sublist_of` rx /\
  (forall d, d ∈ out -> exists pre post, rx = pre ++ d :: post /\
     forall d', d' ∈ pre -> lowercase (disc_id d') <> lowercase (disc_id d)) /\
  ((forall o d o', out = o ++ d :: o' -> stop o d = false) /\
     (forall d, (exists l, ip = Ok l /\ d ∈ DiscIp <$> l) \/ (exists l, ble = Ok l /\ d ∈ DiscBle <$> l) ->
        lowercase (disc_id d) ∈ (lowercase ∘ disc_id) <$> out) \/
   exists o d, out = o ++ [d] /\ stop o d = true /\ forall o1 d1 o2, o = o1 ++ d1 :: o2 -> stop o1 d1 = false).
Proof.
  intros Hm -> Hd.
  pose proof (Hm (match ip with Ok l => DiscIp <$> l | _ => [] end) (match ble with Ok l => DiscBle <$> l | _ => [] end)) as Hi.
  set (rx := merge _ _) in *.
  assert (out = collect_until stop rx) as ->
    by (unfold discover_until in Hd; destruct ip as [?|?|?], ble as [?|?|?]; simplify_eq/=; done).
  destruct (collect_loop_spec stop [] rx [] ∅) as (H1 & H2 & H3 & H4).
  - set_solver.
  - set_solver.
  - set_solver.
  - constructor.
  - done.
  - by intros [] ? ?.
  - split; [done|]. split; [done|]. split; [done|]. destruct H4 as [[Hs Hall]|H4]; [left|by right].
    split; [done|]. intros d Hd'. apply Hall. cbn [app]. apply (interleaving_elem _ _ _ _ Hi).
    destruct Hd' as [(l & -> & Hl)|(l & -> & Hl)]; auto.
Qed.

(** A toy base64: hexadecimal. *)
#[local] Instance demo_base64 : Base64Engine := {
  b64_encode bs := bs ≫= hex2 false;
  b64_decode s := match decode_pairs s with Ok b => Ok b | _ => Err [] end
}.

Lemma demo_base64_laws : Base64Laws (H := demo_base64).
Proof.
  split. intros bs. cbn [b64_decode b64_encode demo_base64].
  assert (utf8_encode (bs ≫= hex2 false) = encode_hex bs) as ->.
  { unfold encode_hex. apply utf8_encode_small. induction bs as [|b bs IH]; [by apply Forall_nil_2|].
    rewrite bind_cons. apply Forall_app. split; [|done].
    apply (bool_decide_unpack _). destruct b; by vm_compute. }
  by rewrite decode_encode_hex.
Qed.

Definition demo_ip : DiscoveredAccessory :=
  {| da_id := str "AA:BB:CC:DD:EE:FF"; da_name := str "Lamp"; da_addr := SocketV4 [xc0; xa8; x01; x02] 51826;
     da_paired := false; da_category := 5; da_config_number := 7; da_setup_hash := Some [x01; x02; x03; x04] |}.
Definition demo_ble : DiscoveredBleAccessory :=
  {| db_peripheral_id := str "p1"; db_device_id := str "aa:bb:cc:dd:ee:ff"; db_category := 10;
     db_global_state_number := 300; db_config_number := 2; db_paired := true; db_setup_hash := None |}.
Definition demo_addrs : list IpAddr := [IpV6 (replicate 16 x01); IpV4 [xc0; xa8; x01; x02]].

(** An accessory that is reachable over IPv6 only. *)
Definition demo_ip6 : DiscoveredAccessory :=
  {| da_id := str "11:22:33:44:55:66"; da_name := str "Plug"; da_addr := SocketV6 (replicate 16 x02) 80 0 0;
     da_paired := true; da_category := 7; da_config_number := 1; da_setup_hash := None |}.
Definition demo_events : list ServiceEvent :=
  [OtherEvent; announce_ip (H := demo_base64) demo_ip demo_addrs 51826;
   announce_ip (H := demo_base64) demo_ip6 [IpV6 (replicate 16 x02)] 80; announce_ip (H := demo_base64) demo_ip demo_addrs 51826].

Lemma demo_browse_hears : browse_hears (H := demo_base64) [demo_ip; demo_ip6] demo_events.
Proof.
  assert (reached_at demo_addrs 51826 (da_addr demo_ip)) as H4.
  { apply (reached_v4 _ _ [IpV6 (replicate 16 x01)] _ []); [done|]. repeat constructor. by eexists. }
  assert (reached_at [IpV6 (replicate 16 x02)] 80 (da_addr demo_ip6)) as H6 by (by eapply reached_v6).
  split.
  - intros ev Hev. unfold demo_events in Hev.
    repeat (apply elem_of_cons in Hev as [->|Hev]); [left; constructor|right..|set_solver];
      [exists demo_ip, demo_addrs, 51826%Z|exists demo_ip6, [IpV6 (replicate 16 x02)], 80%Z|exists demo_ip, demo_addrs, 51826%Z];
      (split; [set_solver|by split]).
  - intros d [->|[->|?%elem_of_nil]%elem_of_cons]%elem_of_cons; [| |done];
      eexists _, _; (split; [|eassumption]); unfold demo_events; set_solver.
Qed.

Lemma discovery_complete_witness :
  exists found,
    hc_discover
      (ip_discover (H := demo_base64) (Ok demo_events))
      (scan (Ok [advertise demo_ble; {| adv_manufacturer := Some (0x4C, [x11])%Z; adv_device := [] |}])) = Ok found /\
    found ≡ₚ [DiscIp demo_ip; DiscIp demo_ip6; DiscBle demo_ble].
Proof.
  apply (discovery_complete (H := demo_base64) (H0 := demo_base64_laws) [demo_ip; demo_ip6] [demo_ble]).
  - repeat constructor; done.
  - apply (bool_decide_unpack _). by vm_compute.
  - apply demo_browse_hears.
  - repeat constructor; try done. exists [xaa; xbb; xcc; xdd; xee; xff]. by vm_compute.
  - apply NoDup_singleton.
  - split.
    + intros adv Hadv. repeat (apply elem_of_cons in Hadv as [->|Hadv]); [right|left|set_solver].
      * exists demo_ble. split; [set_solver|done].
      * by apply unrelated_short; cbn; lia.
    + intros d ->%list_elem_of_singleton. set_solver.
Defined.

(** The lamp is heard on both transports; the predicate looks for a category-10 accessory. *)
Definition demo_sensor : DiscoveredBleAccessory :=
  {| db_peripheral_id := str "p2"; db_device_id := str "01:02:03:04:05:06"; db_category := 10;
     db_global_state_number := 1; db_config_number := 1; db_paired := false; db_setup_hash := None |}.

Lemma discover_until_first_sightings_witness :
  let out := [DiscIp demo_ip; DiscBle demo_sensor] in
  NoDup ((lowercase ∘ disc_id) <$> out).
Proof.
  refine (proj1 (discover_until_first_sightings (Ok [demo_ip]) (Ok [demo_ble; demo_sensor]) app
    (fun _ d => (disc_category d =? 10)%Z) [DiscIp demo_ip; DiscBle demo_ble; DiscBle demo_sensor] _ _ eq_refl _)).
  - intros l r. induction l as [|x l IH]; [|by constructor]. induction r; by constructor.
  - by vm_compute.
Defined.
