(* ===== verification/SetupPayload.v ===== *)
(** * [hap-controller/src/{setup_payload,payload_match}.rs]: setup payloads

    The [X-HM://] string of a setup QR code, and the choice of the discovered accessory
    it belongs to.  The theorems show that the payload of every accessory is read back,
    and that the choice is the unique accessory that can be meant. *)

From S2P Require Import ThreadPdu.
From S2P Require Import Prelude Text Tlv8 Crypto RecordLayer PairSetup Store Model ModelJson BlePdu BleAccessory BleEvents Handle Discovery.

(** ** [setup_payload.rs] *)

Record SetupFlags := { fl_ip : bool; fl_ble : bool; fl_nfc : bool }.

Record SetupPayload := {
  sp_setup_code : bytes; sp_category : Z; sp_setup_id : option bytes; sp_flags : SetupFlags
}.

(** [str::is_char_boundary], [str::split_at]. *)
Definition is_char_boundary (s : bytes) (n : nat) : bool :=
  (n =? length s) || match s !! n with Some b => negb (is_cont b) | None => false end.
Definition split_at {E} (s : bytes) (n : nat) : result E (bytes * bytes) :=
  if is_char_boundary s n then Ok (take n s, drop n s) else Fault Panicked.

(** [str::strip_prefix]. *)
Definition strip_prefix (prefix s : bytes) : option bytes :=
  if starts_with prefix s then Some (drop (length prefix) s) else None.

Definition PREFIX : bytes := str "X-HM://".

Definition payload_parse (uri : bytes) : result HapError SetupPayload :=
  rest ← ok_or (strip_prefix PREFIX uri) InvalidSetupPayload;
  if length rest <? 9 then Err InvalidSetupPayload
  else
    ss ← split_at rest 9;
    let '(payload_str, setup_id_str) := ss in
    full ← ok_or (from_str_radix 36 (2 ^ 64 - 1) (from_utf8_lossy payload_str)) InvalidSetupPayload;
    let value_low := Z.land full 0xFFFFFFFF in
    let value_high := Z.shiftr full 32 in
    let setup_code_num := Z.land value_low 0x7FFFFFF in
    let flags_nibble := Z.land (Z.shiftr value_low 27) 0xF in
    let ip := negb (Z.land flags_nibble 2 =? 0)%Z in
    let ble := negb (Z.land flags_nibble 4 =? 0)%Z in
    let nfc := negb (Z.land flags_nibble 8 =? 0)%Z in
    let category := Z.lor (Z.shiftl (Z.land value_high 0x7F) 1) (Z.land (Z.shiftr value_low 31) 1) in
    category ← (if (category <? 2 ^ 16)%Z then Ok category else Err InvalidSetupPayload);
    let setup_code := Zbyte <$> pad_left_zero 8 (to_decimal setup_code_num) in
    let setup_id := if bool_decide (setup_id_str = []) then None else Some setup_id_str in
    Ok {| sp_setup_code := setup_code; sp_category := category; sp_setup_id := setup_id;
          sp_flags := {| fl_ip := ip; fl_ble := ble; fl_nfc := nfc |} |}.

(** ** [payload_match.rs] *)

Inductive PayloadMatch := Exact | Category.

#[export] Instance payload_match_eq_dec : EqDecision PayloadMatch.
Proof. solve_decision. Defined.

Section matching.
Context `{C : Crypto}.

Definition match_kind (self : SetupPayload) (d : Discovered) : option PayloadMatch :=
  let '(adv_hash, device_id) := match d with
                                | DiscIp a => (da_setup_hash a, da_id a)
                                | DiscBle b => (db_setup_hash b, db_device_id b)
                                end in
  match sp_setup_id self, adv_hash with
  | Some setup_id, Some h =>
      let matches_hash := bool_decide (setup_hash setup_id device_id = h) ||
                          bool_decide (setup_hash setup_id (uppercase device_id) = h) in
      if matches_hash then Some Exact else None
  | _, _ => if (disc_category d =? sp_category self)%Z then Some Category else None
  end.

(** ** [controller.rs]: the choice *)

Inductive Selection := SelOne (d : Discovered) | SelNone | SelAmbiguous (ids : list bytes).

(** The unpaired accessories of one kind of match. *)
Definition candidates_of (found : list Discovered) (payload : SetupPayload) (kind : PayloadMatch) : list Discovered :=
  filter (fun d => match_kind payload d = Some kind) (filter (fun d => disc_paired d = false) found).

Definition select_match (found : list Discovered) (payload : SetupPayload) : Selection :=
  match candidates_of found payload Exact with
  | [d] => SelOne d
  | (_ :: _ :: _) as exact => SelAmbiguous (disc_id <$> exact)
  | [] =>
      match candidates_of found payload Category with
      | [] => SelNone
      | [d] => SelOne d
      | cat => SelAmbiguous (disc_id <$> cat)
      end
  end.
End matching.

Definition controller_normalize_setup_code (code : bytes) : result HapError bytes :=
  let digits := filter (fun b => 48 <= byteZ b <= 57)%Z code in
  if length digits =? 8 then Ok digits else Err InvalidSetupCode.

(** * Specification: the payload of an accessory *)

(** Nine base-36 digits, upper case. *)
Definition digit36 (d : Z) : Z := if (d <? 10)%Z then (48 + d)%Z else (55 + d)%Z.
Fixpoint base36_rev (k : nat) (n : Z) : list Z :=
  match k with O => [] | S k' => digit36 (n mod 36) :: base36_rev k' (n / 36) end.
Definition base36 (k : nat) (n : Z) : list Z := reverse (base36_rev k n).

Definition payload_value (reserved category flags code : Z) : Z :=
  (code + flags * 2 ^ 27 + category * 2 ^ 31 + reserved * 2 ^ 39)%Z.

Definition payload_uri (reserved category flags code : Z) (setup_id : option bytes) : bytes :=
  PREFIX ++ (Zbyte <$> base36 9 (payload_value reserved category flags code)) ++ default [] setup_id.

(** A setup id is a non-empty string. *)
Definition setup_id_ok (setup_id : option bytes) : Prop :=
  match setup_id with Some s => is_Some (from_utf8 s) /\ s <> [] | None => True end.

(** * Lemmas *)

(** ** Base 36 *)

Lemma digit36_ascii d : (0 <= d < 36)%Z -> (43 < digit36 d < 91)%Z /\ digit36 d <> 45%Z.
Proof. intros Hd. unfold digit36. destruct (Z.ltb_spec d 10); lia. Qed.

Lemma to_digit36 d : (0 <= d < 36)%Z -> to_digit 36 (digit36 d) = Some d.
Proof.
  intros Hd.
  assert (Hall : forallb (fun n => bool_decide (to_digit 36 (digit36 (Z.of_nat n)) = Some (Z.of_nat n))) (seq 0 36) = true)
    by by vm_compute.
  rewrite forallb_forall in Hall. specialize (Hall (Z.to_nat d)).
  rewrite Z2Nat.id in Hall by lia. eapply bool_decide_eq_true, Hall, in_seq. lia.
Qed.

Lemma base36_value max k n :
  (0 <= n < 36 ^ Z.of_nat k)%Z -> (n <= max)%Z -> digits_value 36 max 0 (base36 k n) = Some n.
Proof.
  revert n. induction k as [|k IH]; intros n Hn Hm; [simpl in Hn; cbn; f_equal; lia|].
  rewrite Nat2Z.inj_succ, Z.pow_succ_r in Hn by lia.
  unfold base36. cbn [base36_rev]. rewrite reverse_cons, digits_value_app. fold (base36 k (n / 36)).
  pose proof (Z.mod_pos_bound n 36 ltac:(lia)). pose proof (Z.div_mod n 36 ltac:(lia)).
  rewrite IH.
  - cbn [mbind option_bind digits_value]. rewrite to_digit36 by lia. cbn [mbind option_bind].
    replace (n / 36 * 36 + n mod 36)%Z with n by lia. by rewrite (proj2 (Z.leb_le _ _)) by lia.
  - split; [apply Z.div_pos; lia|]. apply Z.div_lt_upper_bound; lia.
  - apply Z.div_le_upper_bound; lia.
Qed.

Lemma base36_ascii k n : Forall (fun c => 43 < c < 91 /\ c <> 45)%Z (base36 k n).
Proof.
  apply Forall_reverse. revert n. induction k as [|k IH]; intros n; cbn [base36_rev]; constructor; [|done].
  pose proof (Z.mod_pos_bound n 36 ltac:(lia)). pose proof (digit36_ascii (n mod 36)). lia.
Qed.

Lemma length_base36 k n : length (base36 k n) = k.
Proof.
  unfold base36. rewrite length_reverse. revert n. induction k as [|k IH]; intros n; [done|].
  cbn [base36_rev length]. by rewrite IH.
Qed.

(** ** The fields *)

Section fields.
Context (r c f n : Z) (Hc : (0 <= c < 256)%Z) (Hf : (0 <= f < 16)%Z) (Hn : (0 <= n < 2 ^ 27)%Z) (Hr : (0 <= r)%Z).
Local Abbreviation full := (payload_value r c f n).
#[local] Set Default Proof Using "Hc Hf Hn Hr".

Lemma payload_low : Z.land full 0xFFFFFFFF = (n + f * 2 ^ 27 + (c mod 2) * 2 ^ 31)%Z.
Proof.
  change 0xFFFFFFFF%Z with (Z.ones 32). rewrite Z.land_ones by lia. symmetry.
  apply (Z.mod_unique _ _ (c / 2 + r * 2 ^ 7)).
  - left. pose proof (Z.mod_pos_bound c 2). lia.
  - unfold payload_value. pose proof (Z.div_mod c 2). lia.
Qed.

Lemma payload_high : Z.shiftr full 32 = (c / 2 + r * 2 ^ 7)%Z.
Proof.
  rewrite Z.shiftr_div_pow2 by lia. symmetry. apply (Z.div_unique _ _ _ (n + f * 2 ^ 27 + (c mod 2) * 2 ^ 31)).
  - left. pose proof (Z.mod_pos_bound c 2). lia.
  - unfold payload_value. pose proof (Z.div_mod c 2). lia.
Qed.

Lemma payload_code : Z.land (Z.land full 0xFFFFFFFF) 0x7FFFFFF = n.
Proof.
  rewrite payload_low. change 0x7FFFFFF%Z with (Z.ones 27). rewrite Z.land_ones by lia. symmetry.
  apply (Z.mod_unique _ _ (f + (c mod 2) * 2 ^ 4)); lia.
Qed.

Lemma payload_flags : Z.land (Z.shiftr (Z.land full 0xFFFFFFFF) 27) 0xF = f.
Proof.
  rewrite payload_low, Z.shiftr_div_pow2 by lia.
  replace ((n + f * 2 ^ 27 + (c mod 2) * 2 ^ 31) / 2 ^ 27)%Z with (f + (c mod 2) * 2 ^ 4)%Z
    by (apply (Z.div_unique _ _ _ n); lia).
  change 0xF%Z with (Z.ones 4). rewrite Z.land_ones by lia. symmetry. apply (Z.mod_unique _ _ (c mod 2)); lia.
Qed.

Lemma lor_category : Z.lor (Z.shiftl (c / 2) 1) (c mod 2) = c.
Proof.
  assert (Hall : forallb (fun n => let c := Z.of_nat n in (Z.lor (Z.shiftl (c / 2) 1) (c mod 2) =? c)%Z) (seq 0 256) = true)
    by by vm_compute.
  rewrite forallb_forall in Hall. specialize (Hall (Z.to_nat c)). cbv zeta in Hall.
  rewrite Z2Nat.id in Hall by lia. apply Z.eqb_eq, Hall, in_seq. lia.
Qed.

Lemma payload_category :
  Z.lor (Z.shiftl (Z.land (Z.shiftr full 32) 0x7F) 1) (Z.land (Z.shiftr (Z.land full 0xFFFFFFFF) 31) 1) = c.
Proof.
  rewrite payload_high, payload_low, Z.shiftr_div_pow2 by lia.
  replace ((n + f * 2 ^ 27 + (c mod 2) * 2 ^ 31) / 2 ^ 31)%Z with (c mod 2)%Z
    by (apply (Z.div_unique _ _ _ (n + f * 2 ^ 27)); lia).
  change 0x7F%Z with (Z.ones 7). change (Z.land (c mod 2) 1) with (Z.land (c mod 2) (Z.ones 1)). rewrite !Z.land_ones by lia.
  replace ((c / 2 + r * 2 ^ 7) mod 2 ^ 7)%Z with (c / 2)%Z.
  - change (2 ^ 1)%Z with 2%Z. rewrite Z.mod_mod by lia. apply lor_category.
  - apply (Z.mod_unique _ _ r); [|lia]. left. split; [apply Z.div_pos; lia|]. apply Z.div_lt_upper_bound; lia.
Qed.
End fields.

Lemma utf8_not_cont b s : is_Some (from_utf8 (b :: s)) -> is_cont b = false.
Proof.
  intros [cs Hs]. destruct (is_cont b) eqn:Hb; [|done]. unfold from_utf8 in Hs. cbn [length utf8_chars] in Hs.
  assert (utf8_step b s = (None, 1)) as Hst.
  { destruct b; try discriminate Hb; reflexivity. }
  rewrite Hst in Hs. done.
Qed.

Lemma strip_prefix_app p s : strip_prefix p (p ++ s) = Some s.
Proof.
  unfold strip_prefix. replace (starts_with p (p ++ s)) with true; [by rewrite drop_app_length|].
  symmetry. induction p as [|b p IH]; [done|]. cbn [app starts_with]. by rewrite bool_decide_true, IH.
Qed.

Lemma payload_value_u64 r c f n :
  (0 <= c < 256)%Z -> (0 <= f < 16)%Z -> (0 <= n < 2 ^ 27)%Z -> (0 <= r)%Z -> (payload_value r c f n < 36 ^ 9)%Z ->
  from_str_radix 36 (2 ^ 64 - 1) (base36 9 (payload_value r c f n)) = Some (payload_value r c f n).
Proof.
  intros Hc Hf Hn Hr Hv. pose proof (base36_ascii 9 (payload_value r c f n)) as Ha.
  pose proof (base36_value (2 ^ 64 - 1) 9 (payload_value r c f n)) as Hb. change (36 ^ Z.of_nat 9)%Z with (36 ^ 9)%Z in Hb.
  pose proof (length_base36 9 (payload_value r c f n)) as Hl.
  destruct (base36 9 (payload_value r c f n)) as [|d s]; [done|].
  apply Forall_cons in Ha as [[Hd ?] _]. rewrite from_str_radix_digit by lia. apply Hb; [|lia].
  unfold payload_value in *. lia.
Qed.

(** The byte after the nine payload characters continues a character. *)
Definition cut_inside_character (uri : bytes) : Prop :=
  exists rest b, uri = PREFIX ++ rest /\ rest !! 9 = Some b /\ (128 <= byteZ b < 192)%Z.

(** The refusals of [parse], and its one panic. *)
Definition payload_refusal (uri : bytes) (r : result HapError SetupPayload) : Prop :=
  (r = Fault Panicked <-> cut_inside_character uri) /\
  match r with Ok _ => True | Err e => e = InvalidSetupPayload | Fault f => f = Panicked end.

Lemma is_cont_range b : is_cont b = true <-> (128 <= byteZ b < 192)%Z.
Proof. destruct b; vm_compute; split; intros; (done || by intuition congruence). Qed.

Lemma starts_with_split {A} `{EqDecision A} (p s : list A) : starts_with p s = true -> s = p ++ drop (length p) s.
Proof.
  revert s. induction p as [|x p IH]; intros s; [done|]. destruct s as [|y s]; [done|]. cbn [starts_with].
  case_bool_decide as Hx; [|done]. intros Hs. subst. cbn. f_equal. by apply IH.
Qed.

Lemma strip_prefix_inv p s rest : strip_prefix p s = Some rest -> s = p ++ rest.
Proof.
  unfold strip_prefix. destruct (starts_with p s) eqn:Hs; [|done]. intros [= <-]. by apply starts_with_split.
Qed.

(** The ninth byte boundary decides. *)
Lemma split_at_faults {E} (rest : bytes) : 9 <= length rest ->
  match split_at (E := E) rest 9 with
  | Ok _ => forall b, rest !! 9 = Some b -> is_cont b = false
  | Err _ => False
  | Fault f => f = Panicked /\ exists b, rest !! 9 = Some b /\ is_cont b = true
  end.
Proof.
  intros Hl. unfold split_at, is_char_boundary. destruct (Nat.eqb_spec 9 (length rest)) as [He|Hne]; cbn [orb].
  - intros b Hb. apply lookup_lt_Some in Hb. lia.
  - assert (9 < length rest) as Hlt by lia. destruct (lookup_lt_is_Some_2 rest 9 Hlt) as [b Hb]. rewrite Hb.
    destruct (is_cont b) eqn:Hc; cbn [negb]; [split; [done|by exists b]|]. intros b' [= <-]. done.
Qed.

Lemma payload_parse_refusals uri : payload_refusal uri (payload_parse uri).
Proof.
  unfold payload_refusal, cut_inside_character, payload_parse.
  destruct (strip_prefix PREFIX uri) as [rest|] eqn:Hp; cbn [ok_or mbind result_bind].
  2:{ split; [|done]. split; [done|]. intros (rest & b & -> & _). by rewrite strip_prefix_app in Hp. }
  apply strip_prefix_inv in Hp as ->.
  assert (forall rest' b, PREFIX ++ rest = PREFIX ++ rest' -> rest' !! 9 = Some b -> rest !! 9 = Some b) as Hinj
    by (intros rest' b He; apply app_inv_head in He; by subst).
  destruct (Nat.ltb_spec (length rest) 9) as [|Hl].
  { split; [|done]. split; [done|]. intros (rest' & b & He & Hb & _). apply (Hinj _ _ He), lookup_lt_Some in Hb. lia. }
  pose proof (split_at_faults (E := HapError) rest Hl) as Hs. destruct (split_at rest 9) as [[s1 s2]|e|f]; [|done|].
  - cbn [mbind result_bind].
    assert (forall r : result HapError SetupPayload, r <> Fault Panicked ->
      (r = Fault Panicked <-> exists rest' b, PREFIX ++ rest = PREFIX ++ rest' /\ rest' !! 9 = Some b /\ (128 <= byteZ b < 192)%Z)) as Hno.
    { intros r Hr. split; [done|]. intros (rest' & b & He & Hb & Hc%is_cont_range). apply (Hinj _ _ He), Hs in Hb. congruence. }
    destruct (from_str_radix _ _ _); cbn [ok_or mbind result_bind]; [|split; [by apply Hno|done]].
    destruct (_ <? 2 ^ 16)%Z; cbn [mbind result_bind]; (split; [by apply Hno|done]).
  - destruct Hs as [-> (b & Hb & Hc%is_cont_range)]. cbn [mbind result_bind]. split; [|done]. split; [|done].
    intros _. by exists rest, b.
Qed.

(** ** The choice *)

Section choice.
Context `{C : Crypto} (payload : SetupPayload) (found : list Discovered).

(** The setup hash an accessory advertises. *)
Definition advertised_hash (d : Discovered) : option bytes :=
  match d with DiscIp a => da_setup_hash a | DiscBle b => db_setup_hash b end.

(** Exactly: the hash of the payload's setup id and the accessory's id, as spelled or in
    upper case, is the one advertised.  By category: there is no setup id or no advertised
    hash to compare, and the category is the payload's. *)
Inductive matches (d : Discovered) : PayloadMatch -> Prop :=
| matches_exact setup_id h :
    sp_setup_id payload = Some setup_id -> advertised_hash d = Some h ->
    setup_hash setup_id (disc_id d) = h \/ setup_hash setup_id (uppercase (disc_id d)) = h ->
    matches d Exact
| matches_category :
    sp_setup_id payload = None \/ advertised_hash d = None -> disc_category d = sp_category payload ->
    matches d Category.

Definition plausible (kind : PayloadMatch) (d : Discovered) : Prop :=
  d ∈ found /\ disc_paired d = false /\ matches d kind.

Lemma match_kind_spec kind d : match_kind payload d = Some kind <-> matches d kind.
Proof.
  assert (match d with DiscIp a => (da_setup_hash a, da_id a) | DiscBle b => (db_setup_hash b, db_device_id b) end =
          (advertised_hash d, disc_id d)) as Hd by (by destruct d).
  unfold match_kind. rewrite Hd. split.
  - destruct (sp_setup_id payload) as [s|] eqn:Hs, (advertised_hash d) as [h|] eqn:Hh;
      [|destruct (Z.eqb_spec (disc_category d) (sp_category payload)); [|done]; intros [= <-]; apply matches_category; auto..].
    destruct (_ || _) eqn:Ho; [|done]. intros [= <-]. eapply matches_exact; [done..|].
    apply orb_true_iff in Ho as [Ho%bool_decide_eq_true | Ho%bool_decide_eq_true]; auto.
  - intros [s h -> -> Hm|Hn Hc].
    + assert (bool_decide (setup_hash s (disc_id d) = h) || bool_decide (setup_hash s (uppercase (disc_id d)) = h) = true) as ->; [|done].
      apply orb_true_iff. destruct Hm as [Hm|Hm]; [left|right]; by apply bool_decide_eq_true.
    + rewrite Hc, Z.eqb_refl. destruct Hn as [-> | ->]; [done|by destruct (sp_setup_id payload)].
Qed.

Lemma candidates_elem kind d : d ∈ candidates_of found payload kind <-> plausible kind d.
Proof. unfold candidates_of, plausible. rewrite !list_elem_of_filter, match_kind_spec. tauto. Qed.

(** What a choice may be. *)
Definition selection_spec (s : Selection) : Prop :=
  match s with
  | SelOne d =>
      (plausible Exact d /\ forall d', plausible Exact d' -> d' = d) \/
      ((forall d', ~ plausible Exact d') /\ plausible Category d /\ forall d', plausible Category d' -> d' = d)
  | SelAmbiguous ids =>
      2 <= length ids /\
      ((forall i, i ∈ ids <-> exists d, plausible Exact d /\ disc_id d = i) \/
       (forall d', ~ plausible Exact d') /\ forall i, i ∈ ids <-> exists d, plausible Category d /\ disc_id d = i)
  | SelNone => forall kind d, ~ plausible kind d
  end.

Lemma candidates_none kind : candidates_of found payload kind = [] -> forall d, ~ plausible kind d.
Proof. intros Hn d Hd%candidates_elem. rewrite Hn in Hd. set_solver. Qed.

Lemma candidates_one kind d : candidates_of found payload kind = [d] ->
  plausible kind d /\ forall d', plausible kind d' -> d' = d.
Proof.
  intros Hn. split; [apply candidates_elem; rewrite Hn; set_solver|].
  intros d' Hd'%candidates_elem. rewrite Hn in Hd'. set_solver.
Qed.

Lemma candidates_ids kind i :
  i ∈ disc_id <$> candidates_of found payload kind <-> exists d, plausible kind d /\ disc_id d = i.
Proof.
  rewrite list_elem_of_fmap. setoid_rewrite candidates_elem. split; intros (d & ? & ?); exists d; by split.
Qed.

Lemma select_match_spec : selection_spec (select_match found payload).
Proof.
  unfold select_match. destruct (candidates_of found payload Exact) as [|d [|d2 ds]] eqn:He.
  - pose proof (candidates_none _ He) as Hno.
    destruct (candidates_of found payload Category) as [|d [|d2 ds]] eqn:Hc; cbn [selection_spec].
    + intros [] d; [apply Hno|by apply candidates_none].
    + right. split; [done|]. by apply candidates_one.
    + split; [simpl; lia|]. right. split; [done|]. intros i. rewrite <- candidates_ids. by rewrite Hc.
  - left. by apply candidates_one.
  - cbn [selection_spec]. split; [rewrite length_fmap; cbn [length]; lia|]. left. intros i. rewrite <- candidates_ids. by rewrite He.
Qed.
End choice.

(** * Theorems *)

(** C36: Setup payloads.  The payload a vendor prints for a setup code, category, flags and
    setup id (any reserved bits) is parsed to them, the code in eight digits; and any
    other string is a payload or the error [InvalidSetupPayload], but for those with the
    prefix whose ninth byte after it ends inside a character: exactly these panic. *)
Theorem setup_payload_roundtrip reserved category flags code setup_id :
  (0 <= category < 256)%Z -> (0 <= flags < 16)%Z -> (0 <= code < 10 ^ 8)%Z -> (0 <= reserved)%Z ->
  (payload_value reserved category flags code < 36 ^ 9)%Z -> setup_id_ok setup_id ->
  payload_parse (payload_uri reserved category flags code setup_id) =
    Ok {| sp_setup_code := Zbyte <$> pad_left_zero 8 (to_decimal code); sp_category := category;
          sp_setup_id := setup_id;
          sp_flags := {| fl_ip := Z.testbit flags 1; fl_ble := Z.testbit flags 2; fl_nfc := Z.testbit flags 3 |} |} /\
  forall uri, payload_refusal uri (payload_parse uri).
Proof.
  intros Hc Hf Hn Hr Hv Hid. split; [|apply payload_parse_refusals].
  unfold payload_parse, payload_uri. rewrite strip_prefix_app. cbn [ok_or mbind result_bind].
  set (full := payload_value reserved category flags code) in *.
  set (digits := Zbyte <$> base36 9 full).
  assert (length digits = 9) as Hl by (unfold digits; by rewrite length_fmap, length_base36).
  assert (from_utf8_lossy digits = base36 9 full) as Hd.
  { pose proof (base36_ascii 9 full) as Ha.
    rewrite from_utf8_lossy_ascii.
    - unfold digits. rewrite <- list_fmap_compose. apply fmap_fixed. eapply Forall_impl; [exact Ha|].
      intros z Hz. simpl in *. apply byteZ_Zbyte_small. lia.
    - apply Forall_fmap. eapply Forall_impl; [exact Ha|]. intros z Hz. simpl in *. rewrite byteZ_Zbyte_small; lia. }
  rewrite (proj2 (Nat.ltb_ge _ _)) by (rewrite length_app; lia).
  assert (split_at (E := HapError) (digits ++ default [] setup_id) 9 = Ok (digits, default [] setup_id)) as ->.
  { unfold split_at. rewrite take_app_length', drop_app_length' by done.
    replace (is_char_boundary _ 9) with true; [done|]. symmetry. unfold is_char_boundary.
    rewrite length_app, Hl, lookup_app_r by lia. rewrite Hl.
    destruct setup_id as [[|b s]|]; [by destruct Hid| |done]. cbn. destruct Hid as [Hu _].
    by rewrite (utf8_not_cont b s). }
  cbn [mbind result_bind]. rewrite Hd. unfold full at 1. rewrite payload_value_u64 by (try lia; done).
  cbn [ok_or mbind result_bind]. unfold full.
  assert (0 <= code < 2 ^ 27)%Z as Hn' by lia.
  rewrite payload_code, payload_flags, payload_category by done.
  rewrite (proj2 (Z.ltb_lt _ _)) by lia. cbn [mbind result_bind]. do 2 f_equal.
  - destruct setup_id as [[|b s]|]; [by destruct Hid|done|done].
  - assert (Hall : forallb (fun k => let f := Z.of_nat k in
        Bool.eqb (negb (Z.land f 2 =? 0)%Z) (Z.testbit f 1) && Bool.eqb (negb (Z.land f 4 =? 0)%Z) (Z.testbit f 2) &&
        Bool.eqb (negb (Z.land f 8 =? 0)%Z) (Z.testbit f 3)) (seq 0 16) = true) by by vm_compute.
    rewrite forallb_forall in Hall. specialize (Hall (Z.to_nat flags)). cbv zeta in Hall.
    rewrite Z2Nat.id in Hall by lia.
    assert (In (Z.to_nat flags) (seq 0 16)) as Hin by (apply in_seq; lia). specialize (Hall Hin).
    apply andb_true_iff in Hall as [[H1 H2]%andb_true_iff H3]. apply Bool.eqb_prop in H1, H2, H3. by rewrite H1, H2, H3.
Qed.

Lemma setup_payload_roundtrip_witness :
  payload_uri 0 10 2 11122333 (Some (str "7OSX")) = str "X-HM://009ZS061P7OSX" /\
  payload_parse (str "X-HM://009ZS061P7OSX") =
    Ok {| sp_setup_code := str "11122333"; sp_category := 10; sp_setup_id := Some (str "7OSX");
          sp_flags := {| fl_ip := true; fl_ble := false; fl_nfc := false |} |}.
Proof.
  split; [by vm_compute|].
  refine (proj1 (setup_payload_roundtrip 0 10 2 11122333 (Some (str "7OSX")) _ _ _ _ _ _)); try lia.
  - by vm_compute.
  - split; [by eexists|done].
Defined.

(** C37: The choice of the accessory a payload belongs to.  [select_match] returns an
    accessory only when it is unpaired and either the only unpaired one whose advertised
    hash is that of the payload's setup id and its own id, or, when no hash matches, the
    only unpaired one of the payload's category that has no hash to check; several
    candidates are reported with all their ids, and none only when there is none.  So an
    accessory whose advertised hash is another's is never returned. *)
Theorem select_match_unique `{C : Crypto} payload found :
  selection_spec payload found (select_match found payload) /\
  forall d h, advertised_hash d = Some h ->
    forall s, sp_setup_id payload = Some s -> setup_hash s (disc_id d) <> h -> setup_hash s (uppercase (disc_id d)) <> h ->
    select_match found payload <> SelOne d.
Proof.
  split; [apply select_match_spec|]. intros d h Hh s Hs Hn1 Hn2 Hsel.
  assert (forall kind, ~ matches payload d kind) as Hm.
  { intros kind [s' h' Hs' Hh' [Ha|Ha]|[Hn|Hn] _]; congruence. }
  pose proof (select_match_spec payload found) as Hspec. rewrite Hsel in Hspec. cbn [selection_spec] in Hspec.
  destruct Hspec as [[(_ & _ & He) _]|(_ & (_ & _ & He) & _)]; by apply Hm in He.
Qed.

Definition demo_payload : SetupPayload :=
  {| sp_setup_code := str "11122333"; sp_category := 10; sp_setup_id := Some (str "7OSX");
     sp_flags := {| fl_ip := true; fl_ble := false; fl_nfc := false |} |}.
Definition demo_match : Discovered :=
  DiscBle {| db_peripheral_id := str "p3"; db_device_id := str "aa:bb:cc:dd:ee:01"; db_category := 10;
             db_global_state_number := 1; db_config_number := 1; db_paired := false;
             db_setup_hash := Some (setup_hash (C := toy_crypto) (str "7OSX") (str "AA:BB:CC:DD:EE:01")) |}.

Example demo_select :
  select_match (C := toy_crypto) [DiscBle demo_sensor; demo_match] demo_payload = SelOne demo_match /\
  select_match (C := toy_crypto) [DiscBle demo_sensor; DiscIp demo_ip] demo_payload = SelOne (DiscBle demo_sensor).
Proof. split; by vm_compute. Qed.

Lemma select_match_unique_witness :
  select_match (C := toy_crypto) [DiscBle demo_sensor; demo_match] demo_payload = SelOne demo_match /\
  selection_spec (C := toy_crypto) demo_payload [DiscBle demo_sensor; demo_match] (SelOne demo_match).
Proof.
  split; [by vm_compute|].
  exact (proj1 (select_match_unique (C := toy_crypto) demo_payload [DiscBle demo_sensor; demo_match])).
Defined.

(** One accessory heard on both transports carries its setup hash twice. *)
Definition demo_match_ip : Discovered :=
  DiscIp {| da_id := str "AA:BB:CC:DD:EE:01"; da_name := str "Lamp"; da_addr := SocketV4 [xc0; xa8; x01; x02] 80;
            da_paired := false; da_category := 10; da_config_number := 1;
            da_setup_hash := Some (setup_hash (C := toy_crypto) (str "7OSX") (str "AA:BB:CC:DD:EE:01")) |}.

Lemma dual_transport_ambiguous :
  same_id (disc_id demo_match_ip) (disc_id demo_match) = true /\
  select_match (C := toy_crypto) [demo_match_ip; demo_match] demo_payload =
    SelAmbiguous [disc_id demo_match_ip; disc_id demo_match].
Proof. split; by vm_compute. Qed.

(** The 27 bits of the setup code hold values of nine digits. *)
Lemma nine_digit_code :
  exists p, payload_parse (payload_uri 0 10 2 123456789 None) = Ok p /\ length (sp_setup_code p) = 9.
Proof. eexists. split; by vm_compute. Qed.
