(* ===== verification/BleWatch.v ===== *)
(** * [hap-ble/src/accessory.rs]: subscriptions and watches of a BLE accessory

    What starts the background tasks: [subscribe], whose task turns each GATT
    notification into an encrypted read and an event, and the two forms of
    [watch_sleepy_events], whose tasks are those of [BleEvents].  The theorem says what a
    subscription reports. *)

From S2P Require Import Prelude Text Tlv8 Crypto RecordLayer Srp PairSetup PairVerify Store DutPairing Model.
From S2P Require Import BlePdu BleAccessory BleEvents BleLink.

(** [GattConnection::{subscribe, disconnect}] and [AdvertSource::watch_adverts]. *)
Class GattWatch (W : Type) := {
  gatt_subscribe : list Z -> stateful W BleError ();
  gatt_disconnect : W -> W;
  watch_adverts : stateful W BleError ()
}.

(** The targets of a poll that the accessory has. *)
Definition resolve_targets (chars : gmap (Z * Z) (list Z * CharFormat)) (poll_iids : list (Z * Z))
    : list (Z * Z * (list Z * CharFormat)) :=
  omap (fun id => pair id <$> chars !! id) poll_iids.

(** The formats by instance id, in the order of the map; the source iterates over a [HashMap]. *)
Definition formats_by_iid (chars : gmap (Z * Z) (list Z * CharFormat)) : gmap Z CharFormat :=
  foldl (fun m e => <[e.1.2 := e.2.2]> m) ∅ (map_to_list chars).

Section watch.
Context `{C : Crypto} `{Gatt W} `{!GattWatch W} `{Build} `{Generated}.
Local Abbreviation M := (stateful (BleAccessory * W) BleError).

(** [pairing_id]. *)
Definition ble_pairing_id (self : BleAccessory) : bytes := pairing_id (rv_pairing (ba_reviver self)).

Definition on_gatt {A} (m : stateful W BleError A) : M A := fun '(self, w) =>
  let '(r, w) := m w in (r, (self, w)).
Definition on_self (f : BleAccessory -> BleAccessory) : M () := fun '(self, w) => (Ok (), (f self, w)).

Definition spawn_task (t : Task) : M () :=
  on_self (fun self => ble_set_watch (ba_advert_source self) (ba_tasks self ++ [t]) self).

Definition set_advert_source : M () := on_self (fun self => ble_set_watch true (ba_tasks self) self).

Definition ble_disconnect : M () := fun '(self, w) => (Ok (), (self, gatt_disconnect w)).

Definition ble_subscribe (aid iid : Z) : M () :=
  sw ← get_state;
  uf ← lift (ok_or (ba_chars sw.1 !! (aid, iid)) (CharacteristicNotFound aid iid));
  _ ← on_gatt (gatt_subscribe uf.1);
  spawn_task (SubscribeTask aid iid uf.1 uf.2).

(** One notification in the task of [subscribe]: the events it sends. *)
Definition notified (secrets : nat -> bytes) (reviver : Reviver) (frag_size : nat) (aid iid : Z) (uuid : list Z)
    (format : CharFormat) : stateful (Secure * W) BleError (list CharacteristicEvent) :=
  r ← attempt (read_char_raw secrets reviver uuid iid frag_size);
  match r with
  | inr _ => mret []
  | inl raw =>
      v ← attempt (lift (decode_value format raw));
      mret match v with
           | inl value => [{| ev_aid := aid; ev_iid := iid; ev_value := value |}]
           | inr _ => []
           end
  end.

(** The task, over [n] notifications. *)
Fixpoint subscribe_task (secrets : nat -> nat -> bytes) (reviver : Reviver) (frag_size : nat) (aid iid : Z)
    (uuid : list Z) (format : CharFormat) (k n : nat) : stateful (Secure * W) BleError (list CharacteristicEvent) :=
  match n with
  | 0 => mret []
  | S n' =>
      evs ← notified (secrets k) reviver frag_size aid iid uuid format;
      rest ← subscribe_task secrets reviver frag_size aid iid uuid format (S k) n';
      mret (evs ++ rest)
  end.

(** The poll task is started only when it has targets. *)
Definition watch_sleepy_events_with_source (device_id : bytes) (poll_iids : list (Z * Z)) : M () :=
  sw ← get_state;
  let targets := resolve_targets (ba_chars sw.1) poll_iids in
  let formats := formats_by_iid (ba_chars sw.1) in
  _ ← on_gatt watch_adverts;
  _ ← (if bool_decide (targets = []) then mret () else spawn_task (PollTask targets));
  spawn_task (AdvertTask device_id formats).

Definition watch_sleepy_events (poll_iids : list (Z * Z)) : M () :=
  sw ← get_state;
  _ ← lift (if ba_advert_source sw.1 then Ok () else Err NoAdvertSource);
  device_id ← lift (ok_or (parse_device_id (ble_pairing_id sw.1))
                          (Backend (chars "malformed pairing id; cannot derive device id")));
  watch_sleepy_events_with_source device_id poll_iids.
End watch.

(** * Lemmas *)

Section notifications.
Context `{BL : BleLink} {CL : CryptoLaws _} {PL : PeripheralLaws} {BD : Build}.
Context (reviver : Reviver) (frag_size : nat) (aid iid : Z) (uuid : list Z) (format : CharFormat).
Context (store : gmap Z bytes) (raw : bytes) (value : CharValue).
Context (Hrev : revives reviver) (Hfrag : 23 <= frag_size) (Hstore : store_ok store).
Context (Hop : op_ok store (OpRead uuid iid)) (Hraw : store !! iid = Some raw) (Hval : decode_value format raw = Ok value).

Lemma notified_triple secrets g k :
  (Z.of_nat (k + 3) < 2 ^ 46)%Z ->
  triple (fun sw => linked (k + 3) sw /\ d_values (dev sw.2) = store /\ (g <= d_gen (dev sw.2))%Z)
    (notified secrets reviver frag_size aid iid uuid format)
    (fun evs sw => linked k sw /\ d_values (dev sw.2) = store /\
       (evs = [{| ev_aid := aid; ev_iid := iid; ev_value := value |}] /\ (g <= d_gen (dev sw.2))%Z \/
        evs = [] /\ (g < d_gen (dev sw.2))%Z))
    (fun _ _ => False).
Proof using All.
  intros Hk sw Hsw. unfold notified, attempt. run.
  pose proof (run_op_triple reviver secrets frag_size (OpRead uuid iid) store g k Hrev Hfrag Hstore Hop Hk sw Hsw) as Ht.
  cbn [run_op] in Ht. destruct (read_char_raw _ _ _ _ _ sw) as [[v|e|x] sw']; [| |done].
  - destruct Ht as (Hl & Hs & Hg). inversion Hs; subst. simplify_eq. rewrite Hval. split; [done|]. split; [done|]. by left.
  - destruct Ht as (Hl & Hs & Hg). inversion Hs; subst. split; [done|]. split; [done|]. by right.
Qed.

Lemma subscribe_task_spec secrets n k g sw :
  (3 * Z.of_nat n < 2 ^ 46)%Z -> linked (3 * n) sw -> d_values (dev sw.2) = store -> (g <= d_gen (dev sw.2))%Z ->
  exists m sw', subscribe_task secrets reviver frag_size aid iid uuid format k n sw =
      (Ok (replicate m {| ev_aid := aid; ev_iid := iid; ev_value := value |}), sw') /\
    m <= n /\ linked 0 sw' /\ d_values (dev sw'.2) = store /\ (g + Z.of_nat (n - m) <= d_gen (dev sw'.2))%Z.
Proof using All.
  revert k g sw. induction n as [|n IH]; intros k g sw Hn Hl Hv Hg.
  { exists 0, sw. split; [done|]. split; [done|]. split; [done|]. split; [done|]. cbn. lia. }
  pose proof (notified_triple (secrets k) g (3 * n) ltac:(lia) sw) as Ht.
  replace (3 * n + 3) with (3 * S n) in Ht by lia. specialize (Ht (conj Hl (conj Hv Hg))).
  cbn [subscribe_task]. run. destruct (notified _ _ _ _ _ _ _ sw) as [[evs|e|x] sw1]; [|done|done].
  destruct Ht as (Hl1 & Hv1 & [[-> Hg1]|[-> Hg1]]).
  - destruct (IH (S k) g sw1 ltac:(lia) Hl1 Hv1 Hg1) as (m & sw' & -> & Hm & Hl' & Hv' & Hg').
    exists (S m), sw'. repeat (split; [done || lia|]). replace (S n - S m) with (n - m) by lia. done.
  - destruct (IH (S k) (g + 1)%Z sw1 ltac:(lia) Hl1 Hv1 ltac:(lia)) as (m & sw' & -> & Hm & Hl' & Hv' & Hg').
    exists m, sw'. repeat (split; [done || lia|]). lia.
Qed.
End notifications.

(** * Theorems *)

(** C38: What a subscription over BLE reports.  Each notification is answered by reading the
    characteristic: whatever links are lost, every event carries the current value of the
    subscribed characteristic, there is at most one per notification, and at most as many
    are missing as the link was lost; the task survives every failed read. *)
Theorem ble_subscription_reports `{BleLink} {CL : CryptoLaws _} {PL : PeripheralLaws} {BD : Build}
    reviver secrets frag_size aid iid uuid format raw value n sw :
  revives reviver -> 23 <= frag_size -> store_ok (d_values (dev sw.2)) ->
  op_ok (d_values (dev sw.2)) (OpRead uuid iid) -> d_values (dev sw.2) !! iid = Some raw ->
  decode_value format raw = Ok value -> (3 * Z.of_nat n < 2 ^ 46)%Z -> linked (3 * n) sw ->
  exists m sw', subscribe_task secrets reviver frag_size aid iid uuid format 0 n sw =
      (Ok (replicate m {| ev_aid := aid; ev_iid := iid; ev_value := value |}), sw') /\
    m <= n /\ (d_gen (dev sw.2) + Z.of_nat (n - m) <= d_gen (dev sw'.2))%Z /\
    d_values (dev sw'.2) = d_values (dev sw.2) /\ linked 0 sw'.
Proof.
  intros Hrev Hfr Hst Hop Hraw Hval Hn Hl.
  destruct (subscribe_task_spec reviver frag_size aid iid uuid format (d_values (dev sw.2)) raw value Hrev Hfr Hst Hop Hraw
              Hval secrets n 0 (d_gen (dev sw.2)) sw Hn Hl eq_refl (Z.le_refl _)) as (m & sw' & Hr & Hm & Hl' & Hv & Hg).
  by exists m, sw'.
Qed.

(** Three notifications, the link lost twice. *)
Lemma ble_subscription_reports_witness :
  exists m sw', subscribe_task (C := toy_crypto) (W := Scheduled) (H := sched_gatt (H0 := demo_peripheral))
      (H0 := demo_build) demo_secrets demo_reviver 40 1 9 PAIRINGS_CHAR FBool 0 3
      (demo_secure, (demo_device, [(0, false); (2, true)])) =
        (Ok (replicate m {| ev_aid := 1; ev_iid := 9; ev_value := VBool true |}), sw') /\
    m <= 3 /\ (4 + Z.of_nat (3 - m) <= d_gen sw'.2.1)%Z /\ d_values sw'.2.1 = {[9%Z := [x01]]} /\
    linked (H := toy_crypto) (H0 := demo_peripheral) (H1 := sched_gatt (H0 := demo_peripheral)) (BL := sched_link) 0 sw'.
Proof.
  apply (ble_subscription_reports (H := toy_crypto) (H0 := demo_peripheral) (H1 := sched_gatt (H0 := demo_peripheral))
           (H2 := sched_link) (CL := toy_crypto_laws) (PL := demo_peripheral_laws) (BD := demo_build)
           demo_reviver demo_secrets 40 1 9 PAIRINGS_CHAR FBool [x01] (VBool true) 3
           (demo_secure, (demo_device, [(0, false); (2, true)]))).
  - repeat (split; [done|]). simpl. lia.
  - lia.
  - change (store_ok {[9%Z := [x01]]}). intros iid v [<- <-]%lookup_singleton_Some. by vm_compute.
  - repeat split; by apply (bool_decide_unpack _); vm_compute.
  - done.
  - done.
  - by vm_compute.
  - split; cbn; lia.
Defined.
