(* ===== verification/Unified.v ===== *)
(** * [hap-controller/src/unified.rs]: one handle over both transports

    [AccessoryHandle] dispatches each operation to the IP handle of [Handle] or to the BLE
    accessory of [BleAccessory] and [BleWatch].  [U] is the connection of the IP handle and
    [G] the GATT link of the BLE accessory, each with its end of the world.  The theorem
    says that a client sees the same store of values on either transport. *)

From S2P Require Import Prelude Text Tlv8 Crypto RecordLayer Srp PairSetup PairVerify Store DutPairing Model Types.
From S2P Require Import ModelJson BlePdu BleAccessory BleEvents BleLink BleWatch Handle.
From S2P Require Reconnect.

Section unified.
Context `{C : Crypto} `{SerdeJson} `{Base64Engine} `{Generated} `{Build}.
Context {U G : Type} `{!IpConn U} `{!Gatt G} `{!GattWatch G}.

Inductive AccessoryHandle :=
| InnerIp (h : IpHandle) (conn : U)
| InnerBle (b : BleAccessory) (link : G).

Local Abbreviation M := (stateful AccessoryHandle HapError).

Definition from_ip (h : IpHandle) (conn : U) : AccessoryHandle := InnerIp h conn.
Definition from_ble (b : BleAccessory) (link : G) : AccessoryHandle := InnerBle b link.

(** [match &mut self.inner { .. }]. *)
Definition dispatch {A} (ip : stateful (IpHandle * U) HapError A) (ble : stateful (BleAccessory * G) HapError A) : M A :=
  fun self =>
    match self with
    | InnerIp h u => let '(r, (h, u)) := ip (h, u) in (r, InnerIp h u)
    | InnerBle b g => let '(r, (b, g)) := ble (b, g) in (r, InnerBle b g)
    end.

(** [Err(UnsupportedByTransport(..))]. *)
Definition unsupported {S A} (what : string) : stateful S HapError A := lift (Err (UnsupportedByTransport what)).

Definition ah_accessories : M (list Accessory) :=
  dispatch ih_fetch (fun bg => (Ok (ba_accessories bg.1), bg)).

Definition ah_find (self : AccessoryHandle) (svc : ServiceType) (chr : CharacteristicType) : result HapError (Z * Z) :=
  match self with
  | InnerIp h _ => ih_find h svc chr
  | InnerBle b _ => map_err HapBle (ble_find b svc chr)
  end.

(** [secrets] are the X25519 secrets a BLE operation's re-verifications draw. *)
Definition ah_read (secrets : nat -> bytes) (aid iid : Z) : M CharValue :=
  dispatch (ih_read aid iid) (with_err HapBle (ble_read secrets aid iid)).

Definition ah_write (secrets : nat -> bytes) (aid iid : Z) (value : CharValue) : M () :=
  dispatch (ih_write aid iid value) (with_err HapBle (ble_write secrets aid iid value)).

Definition ah_subscribe (aid iid : Z) : M () :=
  dispatch (ih_subscribe aid iid) (with_err HapBle (ble_subscribe aid iid)).

(** The loops over a BLE accessory, from the [k]-th operation on. *)
Fixpoint ble_read_loop (secrets : nat -> nat -> bytes) (k : nat) (ids : list (Z * Z))
    : stateful (BleAccessory * G) BleError (list ((Z * Z) * CharValue)) :=
  match ids with
  | [] => mret []
  | (aid, iid) :: ids' =>
      v ← ble_read (secrets k) aid iid;
      rest ← ble_read_loop secrets (S k) ids';
      mret (((aid, iid), v) :: rest)
  end.

Fixpoint ble_write_loop (secrets : nat -> nat -> bytes) (k : nat) (writes : list ((Z * Z) * CharValue))
    : stateful (BleAccessory * G) BleError () :=
  match writes with
  | [] => mret ()
  | ((aid, iid), value) :: writes' =>
      _ ← ble_write (secrets k) aid iid value;
      ble_write_loop secrets (S k) writes'
  end.

Definition ah_read_many (secrets : nat -> nat -> bytes) (ids : list (Z * Z)) : M (list ((Z * Z) * CharValue)) :=
  dispatch (read_many ids) (with_err HapBle (ble_read_loop secrets 0 ids)).

Definition ah_write_many (secrets : nat -> nat -> bytes) (writes : list ((Z * Z) * CharValue)) : M () :=
  dispatch (write_many writes) (with_err HapBle (ble_write_loop secrets 0 writes)).

Definition ah_unsubscribe (aid iid : Z) : M () := dispatch (ih_unsubscribe aid iid) (unsupported "unsubscribe").

Definition ah_write_timed (aid iid : Z) (value : CharValue) (ttl_ms : Z) : M () :=
  dispatch (write_timed aid iid value ttl_ms) (unsupported "write_timed").

Definition ah_write_with_response (aid iid : Z) (value : CharValue) : M CharValue :=
  dispatch (write_with_response aid iid value) (unsupported "write_with_response").

(** The items of the two streams: the events of either transport, and the states the
    supervisor of an IP handle reports; a BLE handle reports none. *)
Definition ah_events (self : AccessoryHandle) (ip : list ((Z * Z) * CharValue)) (ble : list CharacteristicEvent)
    : list ((Z * Z) * CharValue) :=
  match self with
  | InnerIp _ _ => ip
  | InnerBle _ _ => (fun e => ((ev_aid e, ev_iid e), ev_value e)) <$> ble
  end.
Definition ah_connection_state (self : AccessoryHandle) (ip : list Reconnect.ConnectionState)
    : list Reconnect.ConnectionState :=
  match self with InnerIp _ _ => ip | InnerBle _ _ => [] end.

Definition ah_broadcast_state (self : AccessoryHandle) : option BleBroadcastState :=
  match self with InnerIp _ _ => None | InnerBle b _ => Some (broadcast_state b) end.

Definition ah_pairing_id (self : AccessoryHandle) : option bytes :=
  match self with InnerIp _ _ => None | InnerBle b _ => Some (ble_pairing_id b) end.

Definition ah_enable_broadcasts (secrets : nat -> bytes) (iids : list Z) : M () :=
  dispatch (unsupported "enable_broadcasts")
    (with_err HapBle (fun bg => on_secure (enable_broadcasts secrets (ba_reviver bg.1) (ba_chars bg.1) (ba_frag_size bg.1) iids) bg)).

Definition ah_watch_sleepy_events (poll_iids : list (Z * Z)) : M () :=
  dispatch (unsupported "watch_sleepy_events") (with_err HapBle (watch_sleepy_events poll_iids)).

Definition as_ble (self : AccessoryHandle) : option (BleAccessory * G) :=
  match self with InnerIp _ _ => None | InnerBle b g => Some (b, g) end.
End unified.
Arguments AccessoryHandle {_} U G.

(** * Specification: a store of typed values *)

Inductive UOp :=
| URead (id : Z * Z)
| UWrite (id : Z * Z) (value : CharValue)
| UReadMany (ids : list (Z * Z))
| UWriteMany (writes : list ((Z * Z) * CharValue)).

Definition values_of (ids : list (Z * Z)) (vals : gmap (Z * Z) CharValue) : list ((Z * Z) * CharValue) :=
  omap (fun id => pair id <$> vals !! id) ids.
Definition put_all (writes : list ((Z * Z) * CharValue)) (vals : gmap (Z * Z) CharValue) : gmap (Z * Z) CharValue :=
  foldl (fun m w => <[w.1 := w.2]> m) vals writes.

Definition spec_uop (op : UOp) (vals : gmap (Z * Z) CharValue)
    : list ((Z * Z) * CharValue) * gmap (Z * Z) CharValue :=
  match op with
  | URead id => (values_of [id] vals, vals)
  | UWrite id v => ([], <[id := v]> vals)
  | UReadMany ids => (values_of ids vals, vals)
  | UWriteMany writes => ([], put_all writes vals)
  end.

Fixpoint spec_uops (ops : list UOp) (vals : gmap (Z * Z) CharValue)
    : list (list ((Z * Z) * CharValue)) * gmap (Z * Z) CharValue :=
  match ops with
  | [] => ([], vals)
  | op :: ops' =>
      let '(r, vals) := spec_uop op vals in let '(rs, vals) := spec_uops ops' vals in (r :: rs, vals)
  end.

(** Requests of an operation over BLE. *)
Definition uop_cost (op : UOp) : nat :=
  match op with
  | URead _ | UWrite _ _ => 3
  | UReadMany ids => 3 * length ids
  | UWriteMany writes => 3 * length writes
  end.
Definition uops_cost (ops : list UOp) : nat := sum_list_with uop_cost ops.

Section run.
Context `{C : Crypto} `{SerdeJson} `{Base64Engine} `{Generated} `{Build}.
Context {U G : Type} `{!IpConn U} `{!Gatt G} `{!GattWatch G}.

Definition run_uop (secrets : nat -> nat -> bytes) (op : UOp)
    : stateful (AccessoryHandle U G) HapError (list ((Z * Z) * CharValue)) :=
  match op with
  | URead id => v ← ah_read (secrets 0) id.1 id.2; mret [(id, v)]
  | UWrite id v => _ ← ah_write (secrets 0) id.1 id.2 v; mret []
  | UReadMany ids => ah_read_many secrets ids
  | UWriteMany writes => _ ← ah_write_many secrets writes; mret []
  end.

(** A client that stops at the first error. *)
Fixpoint run_uops (secrets : nat -> nat -> nat -> bytes) (k : nat) (ops : list UOp)
    : stateful (AccessoryHandle U G) HapError (list (list ((Z * Z) * CharValue))) :=
  match ops with
  | [] => mret []
  | op :: ops' => r ← run_uop (secrets k) op; rs ← run_uops secrets (S k) ops'; mret (r :: rs)
  end.
End run.

(** * Lemmas *)

Section refinement.
Context `{BL : BleLink (W := G)} {CL : CryptoLaws _} {PL : PeripheralLaws} {BD : Build}.
Context `{IL : IpLink (W := U)} `{GE : Generated} {HL : HapPeerLaws} `{GW : !GattWatch G}.
Context (formats : gmap (Z * Z) CharFormat).

(** A value of a format that both transports carry as it is. *)
Definition portable (f : CharFormat) (v : CharValue) : Prop :=
  value_typed f v /\ read_as v = v /\
  exists raw, encode_value f v = Ok raw /\ decode_value f raw = Ok v /\
    small_body (encode_write_body raw) /\ small_body (push [] PARAM_VALUE raw).

Definition portable_in (id : Z * Z) (v : CharValue) : Prop := exists f, formats !! id = Some f /\ portable f v.

(** The BLE accessory holds the values under its instance ids. *)
Definition ble_stores (vals : gmap (Z * Z) CharValue) (store : gmap Z bytes) : Prop :=
  forall id v, vals !! id = Some v ->
    exists f raw, formats !! id = Some f /\ encode_value f v = Ok raw /\ store !! id.2 = Some raw.

Definition ble_knows (b : BleAccessory) : Prop :=
  revives (ba_reviver b) /\ 23 <= ba_frag_size b /\
  forall id f, formats !! id = Some f ->
    id.1 = 1%Z /\ in_u 16 id.2 /\ exists uuid, ba_chars b !! id = Some (uuid, f) /\ uuid <> pr_verify_char.

Definition ble_holds (vals : gmap (Z * Z) CharValue) (k : nat) (bg : BleAccessory * G) : Prop :=
  ble_knows bg.1 /\ linked k (ba_secure bg.1, bg.2) /\ store_ok (d_values (dev bg.2)) /\
  ble_stores vals (d_values (dev bg.2)).

Definition ip_holds (vals : gmap (Z * Z) CharValue) (hu : IpHandle * U) : Prop :=
  ip_linked hu /\ pr_formats (peer hu.2) = formats /\ pr_values (peer hu.2) = vals.

(** The accessory behind a handle holds the values; a BLE session has room for [k] requests. *)
Definition holds (vals : gmap (Z * Z) CharValue) (k : nat) (self : AccessoryHandle U G) : Prop :=
  map_Forall portable_in vals /\
  match self with InnerIp h u => ip_holds vals (h, u) | InnerBle b g => ble_holds vals k (b, g) end.

(** How often the link was lost. *)
Definition losses (self : AccessoryHandle U G) : Z :=
  match self with InnerIp _ _ => 0 | InnerBle _ g => d_gen (dev g) end.
Definition over_ip (self : AccessoryHandle U G) : bool := match self with InnerIp _ _ => true | InnerBle _ _ => false end.

Definition uop_ok (vals : gmap (Z * Z) CharValue) (op : UOp) : Prop :=
  match op with
  | URead id => id_ok id /\ is_Some (vals !! id)
  | UWrite id v => id_ok id /\ is_Some (vals !! id) /\ portable_in id v
  | UReadMany ids => ids <> [] /\ Forall (fun id => id_ok id /\ is_Some (vals !! id)) ids
  | UWriteMany ws => Forall (fun w => id_ok w.1 /\ is_Some (vals !! w.1) /\ portable_in w.1 w.2) ws
  end.

(** The request an operation makes over IP; the connection of an IP handle carries the
    requests and answers of a sequence of operations. *)
Definition ip_op_of (op : UOp) : IpOp :=
  match op with
  | URead id => IpRead [id] | UWrite id v => IpWrite [(id, v)] | UReadMany ids => IpRead ids | UWriteMany ws => IpWrite ws
  end.
Fixpoint uops_carried (p : Peer) (ops : list UOp) : Prop :=
  match ops with
  | [] => True
  | op :: ops' => ip_op_carried (W := U) p (ip_op_of op) /\ uops_carried (spec_ip (ip_op_of op) p).2 ops'
  end.
Definition carried (ops : list UOp) (self : AccessoryHandle U G) : Prop :=
  match self with InnerIp _ u => uops_carried (peer u) ops | InnerBle _ _ => True end.

(** ** Values *)

Lemma read_as_all vals ids : map_Forall portable_in vals ->
  omap (fun id => pair id ∘ read_as <$> vals !! id) ids = values_of ids vals.
Proof.
  intros Hv. unfold values_of. induction ids as [|id ids IH]; [done|]. cbn. rewrite IH.
  destruct (vals !! id) as [v|] eqn:E; [|done]. cbn. by destruct (Hv _ _ E) as (f & _ & _ & -> & _).
Qed.

Lemma put_all_cons w ws vals : put_all (w :: ws) vals = put_all ws (<[w.1 := w.2]> vals).
Proof. done. Qed.

Lemma put_all_dom ws vals id : is_Some (vals !! id) -> is_Some (put_all ws vals !! id).
Proof.
  revert vals. induction ws as [|w ws IH]; intros vals Hi; [done|]. rewrite put_all_cons. apply IH.
  rewrite lookup_insert_is_Some'. by right.
Qed.

Lemma put_all_portable ws vals :
  map_Forall portable_in vals -> Forall (fun w => portable_in w.1 w.2) ws -> map_Forall portable_in (put_all ws vals).
Proof.
  intros Hv Hw. revert vals Hv. induction Hw as [|w ws Hw _ IH]; intros vals Hv; [done|]. rewrite put_all_cons. apply IH. by apply map_Forall_insert_2.
Qed.

Lemma uop_ok_after op op' vals : uop_ok vals op' -> uop_ok (spec_uop op vals).2 op'.
Proof.
  intros Ho.
  assert (forall id, is_Some (vals !! id) -> is_Some ((spec_uop op vals).2 !! id)) as Hd.
  { intros id Hi. destruct op; cbn [spec_uop snd]; try done; [rewrite lookup_insert_is_Some'; by right|by apply put_all_dom]. }
  destruct op'; cbn [uop_ok] in *; [naive_solver..| |].
  - destruct Ho as [? Ho]. split; [done|]. eapply Forall_impl; [exact Ho|]. naive_solver.
  - eapply Forall_impl; [exact Ho|]. naive_solver.
Qed.

(** ** Over BLE *)

Lemma ble_stores_insert vals store id v f raw :
  ble_stores vals store -> formats !! id = Some f -> encode_value f v = Ok raw ->
  (forall id f, formats !! id = Some f -> id.1 = 1%Z) -> ble_stores (<[id := v]> vals) (<[id.2 := raw]> store).
Proof.
  intros Hs Hf He Hone id' v' Hv'. destruct (decide (id' = id)) as [->|Hne].
  - rewrite lookup_insert_eq in Hv'. simplify_eq. exists f, raw. by rewrite lookup_insert_eq.
  - rewrite lookup_insert_ne in Hv' by done. destruct (Hs _ _ Hv') as (f' & raw' & Hf' & He' & Hr').
    exists f', raw'. split; [done|]. split; [done|]. rewrite lookup_insert_ne; [done|].
    intros Heq. apply Hne. pose proof (Hone _ _ Hf). pose proof (Hone _ _ Hf'). destruct id, id'. naive_solver.
Qed.

(** The result of a BLE operation: done, or the link was lost. *)
Definition ble_done {A : Type} (g : Z) (vals : gmap (Z * Z) CharValue) (k : nat) (a : A) (a' : A) (bg : BleAccessory * G) : Prop :=
  a' = a /\ ble_holds vals k bg /\ (g <= d_gen (dev bg.2))%Z.
Definition ble_lost (g : Z) (e : BleError) (bg : BleAccessory * G) : Prop := (g < d_gen (dev bg.2))%Z.

Lemma ble_knows_secure s b : ble_knows b -> ble_knows (ble_set_secure s b).
Proof. done. Qed.

Lemma ble_read_triple secrets id vals v g k :
  map_Forall portable_in vals -> vals !! id = Some v -> (Z.of_nat (k + 3) < 2 ^ 46)%Z ->
  triple (fun bg => ble_holds vals (k + 3) bg /\ (g <= d_gen (dev bg.2))%Z)
    (ble_read secrets id.1 id.2) (ble_done g vals k v) (ble_lost g).
Proof.
  intros Hp Hv Hk [b w] (((Hrev & Hfr & Hch) & Hl & Hst & Hss) & Hg). cbn [fst snd] in *.
  destruct (Hss _ _ Hv) as (f & raw & Hf & He & Hr). destruct (Hch _ _ Hf) as (Hone & Hi & uuid & Hc & Hu).
  destruct (Hp _ _ Hv) as (f' & Hf' & _ & _ & raw' & He' & Hd & _). simplify_eq.
  assert (raw' = raw) as -> by congruence.
  unfold ble_read, on_secure. run. cbn [fst snd]. rewrite <- surjective_pairing, Hc. cbn [ok_or].
  pose proof (run_op_triple (ba_reviver b) secrets (ba_frag_size b) (OpRead uuid id.2) (d_values (dev w)) g k
                Hrev Hfr Hst) as Ht.
  assert (op_ok (d_values (dev w)) (OpRead uuid id.2)) as Hop by (split; [done|]; split; [done|]; by apply elem_of_dom_2 in Hr).
  specialize (Ht Hop Hk (ba_secure b, w) (conj Hl (conj eq_refl Hg))). cbn [run_op] in Ht.
  destruct (read_char_raw _ _ _ _ _ _) as [[v'|e|x] [s w']]; [| |done]; cbn [fst snd] in Ht.
  - destruct Ht as (Hl' & Hs & Hg').
    assert (d_values (dev w') = d_values (dev w) /\ v' = raw) as [Hvs ->] by (inversion Hs; split; congruence).
    rewrite Hd. split; [done|]. split; [|done]. split; [by split_and!|]. cbn [fst snd]. by rewrite Hvs.
  - destruct Ht as (Hl' & Hs & Hg'). done.
Qed.

Lemma ble_write_triple secrets id vals v g k :
  map_Forall portable_in vals -> is_Some (vals !! id) -> portable_in id v -> (Z.of_nat (k + 3) < 2 ^ 46)%Z ->
  triple (fun bg => ble_holds vals (k + 3) bg /\ (g <= d_gen (dev bg.2))%Z)
    (ble_write secrets id.1 id.2 v) (ble_done g (<[id := v]> vals) k ()) (ble_lost g).
Proof.
  intros Hp [v0 Hv0] (f & Hf & _ & _ & raw & He & Hd & Hb1 & Hb2) Hk [b w] (((Hrev & Hfr & Hch) & Hl & Hst & Hss) & Hg).
  cbn [fst snd] in *.
  destruct (Hss _ _ Hv0) as (f0 & raw0 & Hf0 & He0 & Hr0). destruct (Hch _ _ Hf) as (Hone & Hi & uuid & Hc & Hu).
  unfold ble_write, on_secure. run. cbn [fst snd]. rewrite <- surjective_pairing, Hc. cbn [ok_or]. rewrite He.
  assert (op_ok (d_values (dev w)) (OpWrite uuid id.2 raw)) as Hop
    by (split; [done|]; split; [done|]; split; [by apply elem_of_dom_2 in Hr0|done]).
  pose proof (run_op_triple (ba_reviver b) secrets (ba_frag_size b) (OpWrite uuid id.2 raw) (d_values (dev w)) g k
                Hrev Hfr Hst Hop Hk (ba_secure b, w) (conj Hl (conj eq_refl Hg))) as Ht.
  cbn [run_op] in Ht. run_in Ht.
  destruct (write_char_raw _ _ _ _ _ _ _) as [[[]|e|x] [s w']]; [| |done]; cbn [fst snd] in Ht.
  - destruct Ht as (Hl' & Hs & Hg').
    destruct (spec_op_store _ _ _ _ Hs Hop Hst) as [Hst' _].
    assert (d_values (dev w') = <[id.2 := raw]> (d_values (dev w))) as Hvs by (inversion Hs; congruence).
    split; [done|]. split; [|done]. split; [by split_and!|]. cbn [fst snd]. split; [done|]. split; [done|].
    rewrite Hvs. apply (ble_stores_insert _ _ _ _ f); try done. intros id' f' Hf'. by destruct (Hch _ _ Hf').
  - destruct Ht as (Hl' & Hs & Hg'). done.
Qed.

Lemma ble_read_loop_triple secrets ids vals g j k :
  map_Forall portable_in vals -> Forall (fun id => is_Some (vals !! id)) ids ->
  (Z.of_nat (k + 3 * length ids) < 2 ^ 46)%Z ->
  triple (fun bg => ble_holds vals (k + 3 * length ids) bg /\ (g <= d_gen (dev bg.2))%Z)
    (ble_read_loop secrets j ids) (ble_done g vals k (values_of ids vals)) (ble_lost g).
Proof.
  intros Hp Hids Hk. revert j. induction Hids as [|[aid iid] ids [v Hv] _ IH]; intros j bg [Hh Hg];
    cbn [ble_read_loop length] in *.
  { rewrite Nat.mul_0_r, Nat.add_0_r in Hh. done. }
  pose proof (ble_read_triple (secrets j) (aid, iid) vals v g (k + 3 * length ids) Hp Hv ltac:(lia) bg) as Ht.
  replace (k + 3 * length ids + 3) with (k + 3 * S (length ids)) in Ht by lia. specialize (Ht (conj Hh Hg)).
  cbn [fst snd] in Ht. run. destruct (ble_read _ _ _ bg) as [[v'|e|x] bg1]; [|done|done].
  destruct Ht as (-> & Hh1 & Hg1). specialize (IH ltac:(lia) (S j) bg1 (conj Hh1 Hg1)).
  destruct (ble_read_loop _ _ _ bg1) as [[rest|e|x] bg2]; [|done|done].
  destruct IH as (-> & Hh2 & Hg2). split; [|done]. unfold values_of. cbn. by rewrite Hv.
Qed.

Lemma ble_write_loop_triple secrets ws vals g j k :
  map_Forall portable_in vals -> Forall (fun w => is_Some (vals !! w.1) /\ portable_in w.1 w.2) ws ->
  (Z.of_nat (k + 3 * length ws) < 2 ^ 46)%Z ->
  triple (fun bg => ble_holds vals (k + 3 * length ws) bg /\ (g <= d_gen (dev bg.2))%Z)
    (ble_write_loop secrets j ws) (ble_done g (put_all ws vals) k ()) (ble_lost g).
Proof.
  revert vals j. induction ws as [|[[aid iid] v] ws IH]; intros vals j Hp Hws Hk bg [Hh Hg];
    cbn [ble_write_loop length] in *.
  { rewrite Nat.mul_0_r, Nat.add_0_r in Hh. done. }
  apply Forall_cons in Hws as [[Hi Hv] Hws]. cbn [fst snd] in *.
  pose proof (ble_write_triple (secrets j) (aid, iid) vals v g (k + 3 * length ws) Hp Hi Hv ltac:(lia) bg) as Ht.
  replace (k + 3 * length ws + 3) with (k + 3 * S (length ws)) in Ht by lia. specialize (Ht (conj Hh Hg)).
  cbn [fst snd] in Ht. run. destruct (ble_write _ _ _ _ bg) as [[u|e|x] bg1]; [|done|done].
  destruct Ht as (_ & Hh1 & Hg1). rewrite put_all_cons. apply IH; [by apply map_Forall_insert_2| |lia|done].
  eapply Forall_impl; [exact Hws|]. intros w [Hw ?]. split; [|done]. rewrite lookup_insert_is_Some'. by right.
Qed.

(** ** Over IP *)

Lemma portable_typed (vals : gmap (Z * Z) CharValue) : map_Forall portable_in vals -> map_Forall (typed_in formats) vals.
Proof. intros Hp id v Hv. destruct (Hp id v Hv) as (f & ? & ? & _). by exists f. Qed.

Lemma run_ip_holds op vals h u :
  map_Forall portable_in vals -> ip_holds vals (h, u) -> ip_op_ok (peer u) op -> ip_op_carried (peer u) op ->
  exists h' u', run_ip op (h, u) = (Ok (spec_ip op (peer u)).1, (h', u')) /\
    ip_holds (pr_values (spec_ip op (peer u)).2) (h', u') /\ peer u' = (spec_ip op (peer u)).2.
Proof.
  intros Hp (Hl & Hf & Hv) Hop Hca. destruct (run_ip_ok op h u Hl Hop Hca) as (h' & u' & Hr & Hp' & Hl').
  exists h', u'. split; [done|]. split; [|done]. split; [done|]. cbn [fst snd] in *. rewrite Hp'. split; [|done]. by destruct op.
Qed.

Lemma ip_read_holds ids vals h u :
  map_Forall portable_in vals -> ip_holds vals (h, u) -> ids <> [] ->
  Forall (fun id => id_ok id /\ is_Some (vals !! id)) ids -> ip_op_carried (peer u) (IpRead ids) ->
  exists h' u', read_many ids (h, u) = (Ok (values_of ids vals), (h', u')) /\ ip_holds vals (h', u') /\
    peer u' = (spec_ip (IpRead ids) (peer u)).2.
Proof.
  intros Hp Hh Hne Hids Hca. pose proof Hh as (_ & Hf & Hv). cbn [snd] in *.
  destruct (run_ip_holds (IpRead ids) vals h u Hp Hh) as (h' & u' & Hr & Hh' & Hpe); [|done|].
  { split; [done|]. by rewrite Hv. }
  exists h', u'. cbn [spec_ip fst snd run_ip] in *. rewrite Hv in *. by rewrite Hr, read_as_all.
Qed.

Lemma ip_write_holds ws vals h u :
  map_Forall portable_in vals -> ip_holds vals (h, u) ->
  Forall (fun w => id_ok w.1 /\ is_Some (vals !! w.1) /\ portable_in w.1 w.2) ws -> ip_op_carried (peer u) (IpWrite ws) ->
  exists h' u', write_many ws (h, u) = (Ok (), (h', u')) /\ ip_holds (put_all ws vals) (h', u') /\
    peer u' = (spec_ip (IpWrite ws) (peer u)).2.
Proof.
  intros Hp Hh Hws Hca. pose proof Hh as (_ & Hf & Hv). cbn [snd] in *.
  destruct (run_ip_holds (IpWrite ws) vals h u Hp Hh) as (h' & u' & Hr & Hh' & Hpe); [|done|].
  { eapply Forall_impl; [exact Hws|]. intros w (Hid & _ & f & Hfm & Hty & _). split; [done|]. exists f. by rewrite Hf. }
  exists h', u'. cbn [spec_ip fst snd run_ip] in *. rewrite Hv in *. run_in Hr.
  destruct (write_many ws (h, u)) as [[[]|e|x] hu]; simplify_eq. done.
Qed.

(** ** Over either *)

Lemma dispatch_ip {A} (m1 : stateful (IpHandle * U) HapError A) (m2 : stateful (BleAccessory * G) HapError A) h u r h' u' :
  m1 (h, u) = (r, (h', u')) -> dispatch m1 m2 (InnerIp h u) = (r, InnerIp h' u').
Proof. intros Hm. cbn. by rewrite Hm. Qed.

Lemma dispatch_ble_triple {A} (m1 : stateful (IpHandle * U) HapError A) (m2 : stateful (BleAccessory * G) BleError A)
    vals vals' k k' g (a : A) b w :
  triple (fun bg => ble_holds vals k' bg /\ (g <= d_gen (dev bg.2))%Z) m2 (ble_done g vals' k a) (ble_lost g) ->
  ble_holds vals k' (b, w) -> (g <= d_gen (dev w))%Z ->
  match dispatch m1 (with_err HapBle m2) (InnerBle b w) with
  | (Ok a', self) => a' = a /\ (match self with InnerIp _ _ => False | InnerBle b' w' => ble_holds vals' k (b', w') end) /\
                     over_ip self = false /\ (g <= losses self)%Z
  | (Err _, self) => over_ip self = false /\ (g < losses self)%Z
  | (Fault _, _) => False
  end.
Proof.
  intros Ht Hh Hg. specialize (Ht (b, w) (conj Hh Hg)). unfold dispatch, with_err.
  destruct (m2 (b, w)) as [[a'|e|x] [b' w']]; cbn; [|done..]. destruct Ht as (-> & ? & ?). done.
Qed.

Lemma values_of_one (id : Z * Z) (v : CharValue) (vals : gmap (Z * Z) CharValue) : vals !! id = Some v -> values_of [id] vals = [(id, v)].
Proof. intros Hv. unfold values_of. cbn. by rewrite Hv. Qed.

Lemma run_uop_triple secrets op ops vals k g t :
  uop_ok vals op -> (Z.of_nat (k + uop_cost op) < 2 ^ 46)%Z ->
  triple (fun self => (holds vals (k + uop_cost op) self /\ carried (op :: ops) self) /\ over_ip self = t /\ (g <= losses self)%Z)
    (run_uop secrets op)
    (fun r self => r = (spec_uop op vals).1 /\ (holds (spec_uop op vals).2 k self /\ carried ops self) /\
       over_ip self = t /\ (g <= losses self)%Z)
    (fun _ self => over_ip self = t /\ (g < losses self)%Z).
Proof.
  intros Hop Hk [h u|b w] [[[Hp Hh] Hca] [<- Hg]]; cbn [losses over_ip] in *.
  - destruct Hca as [Hca Hcas]. destruct op as [id|id v|ids|ws]; cbn [run_uop spec_uop uop_ok ip_op_of fst snd] in *.
    + destruct Hop as [Hid [v Hv]]. destruct (ip_read_holds [id] vals h u Hp Hh) as (h' & u' & Hr & Hh' & Hpe);
        [done|by constructor; [split|]|done|]. cbn [carried].
      rewrite (values_of_one _ v) in * by done. unfold ah_read. run. erewrite dispatch_ip.
      2:{ unfold ih_read. run. by rewrite <- surjective_pairing, Hr. }
      rewrite <- Hpe in Hcas. by split_and!.
    + destruct (ip_write_holds [(id, v)] vals h u Hp Hh) as (h' & u' & Hr & Hh' & Hpe); [by apply Forall_singleton|done|].
      unfold ah_write. run. erewrite dispatch_ip; [|unfold ih_write; by rewrite <- surjective_pairing, Hr].
      rewrite <- Hpe in Hcas. split; [done|]. split; [|split; done]. split; [|exact Hcas]. split; [|exact Hh'].
      apply map_Forall_insert_2; naive_solver.
    + destruct Hop as [Hne Hids]. destruct (ip_read_holds ids vals h u Hp Hh Hne Hids Hca) as (h' & u' & Hr & Hh' & Hpe).
      rewrite <- Hpe in Hcas. unfold ah_read_many. erewrite dispatch_ip by exact Hr. by split_and!.
    + destruct (ip_write_holds ws vals h u Hp Hh Hop Hca) as (h' & u' & Hr & Hh' & Hpe). rewrite <- Hpe in Hcas.
      unfold ah_write_many. run. erewrite dispatch_ip by exact Hr. split; [done|]. split; [|split; done].
      split; [|exact Hcas]. split; [|exact Hh'].
      apply put_all_portable; [done|]. eapply Forall_impl; [exact Hop|]. naive_solver.
  - assert (forall A (a : A) vals' m1 m2 (f : A -> list ((Z * Z) * CharValue)),
      triple (fun bg => ble_holds vals (k + uop_cost op) bg /\ (g <= d_gen (dev bg.2))%Z) m2 (ble_done g vals' k a) (ble_lost g) ->
      map_Forall portable_in vals' -> f a = (spec_uop op vals).1 -> vals' = (spec_uop op vals).2 ->
      match (x ← dispatch m1 (with_err HapBle m2); mret (f x)) (InnerBle b w) with
      | (Ok r, self) => r = (spec_uop op vals).1 /\ (holds (spec_uop op vals).2 k self /\ carried ops self) /\ over_ip self = false /\ (g <= losses self)%Z
      | (Err _, self) => over_ip self = false /\ (g < losses self)%Z
      | (Fault _, _) => False
      end) as Hgen.
    { intros A a vals' m1 m2 f Ht Hp' Hf ->. pose proof (dispatch_ble_triple m1 m2 _ _ _ _ g a b w Ht Hh Hg) as Hd.
      run. destruct (dispatch _ _ _) as [[a'|e|x] self]; [|done|done]. destruct Hd as (-> & Hs & Hl).
      split; [done|]. split; [|done]. split; [split; [done|]|]; by destruct self. }
    destruct op as [id|id v|ids|ws]; cbn [run_uop spec_uop uop_ok uop_cost fst snd] in *.
    + destruct Hop as [Hid [v Hv]]. rewrite (values_of_one _ v) in * by done. unfold ah_read.
      apply (Hgen _ v vals _ _ (fun v => [(id, v)])); try done. by apply ble_read_triple.
    + destruct Hop as (Hid & Hi & Hv). unfold ah_write.
      apply (Hgen _ () (<[id := v]> vals) _ _ (fun _ => [])); try done; [by apply ble_write_triple|by apply map_Forall_insert_2].
    + destruct Hop as [Hne Hids]. unfold ah_read_many.
      pose proof (Hgen _ (values_of ids vals) vals (read_many ids) (ble_read_loop secrets 0 ids) id) as H'.
      run_in H'. unfold id in H'. destruct (dispatch _ _ _) as [[r|e|x] self]; apply H'; try done;
        (apply ble_read_loop_triple; [done| |done]; eapply Forall_impl; [exact Hids|]; naive_solver).
    + unfold ah_write_many.
      apply (Hgen _ () (put_all ws vals) _ _ (fun _ => [])); try done.
      * apply ble_write_loop_triple; [done| |done]. eapply Forall_impl; [exact Hop|]. naive_solver.
      * apply put_all_portable; [done|]. eapply Forall_impl; [exact Hop|]. naive_solver.
Qed.

Lemma run_uops_triple secrets ops vals k j g t :
  Forall (uop_ok vals) ops -> (Z.of_nat (k + uops_cost ops) < 2 ^ 46)%Z ->
  triple (fun self => (holds vals (k + uops_cost ops) self /\ carried ops self) /\ over_ip self = t /\ (g <= losses self)%Z)
    (run_uops secrets j ops)
    (fun rs self => rs = (spec_uops ops vals).1 /\ holds (spec_uops ops vals).2 k self /\ over_ip self = t /\ (g <= losses self)%Z)
    (fun _ self => over_ip self = t /\ (g < losses self)%Z).
Proof.
  revert vals j. induction ops as [|op ops IH]; intros vals j Hops Hk self [Hh [Ht0 Hg]].
  { cbn in *. rewrite Nat.add_0_r in Hh. by destruct Hh. }
  apply Forall_cons in Hops as [Hop Hops]. cbn [run_uops uops_cost sum_list_with spec_uops] in *. fold (uops_cost ops) in *.
  pose proof (run_uop_triple (secrets j) op ops vals (k + uops_cost ops) g t Hop ltac:(lia) self) as Ht.
  replace (k + uops_cost ops + uop_cost op) with (k + (uop_cost op + uops_cost ops)) in Ht by lia.
  specialize (Ht (conj Hh (conj Ht0 Hg))). run. destruct (run_uop _ op self) as [[r|e|x] self1]; [|done|done].
  destruct Ht as (-> & Hh1 & Ht1 & Hg1).
  specialize (IH (spec_uop op vals).2 (S j)). destruct (spec_uop op vals) as [r vals1] eqn:Es. cbn [fst snd] in *.
  assert (Forall (uop_ok vals1) ops) as Hops1.
  { eapply Forall_impl; [exact Hops|]. intros op' Ho. pose proof (uop_ok_after op op' vals Ho) as Ho'. by rewrite Es in Ho'. }
  specialize (IH Hops1 ltac:(lia) self1 (conj Hh1 (conj Ht1 Hg1))).
  destruct (run_uops _ _ ops self1) as [[rs|e|x] self2]; [|done|done]. destruct IH as (-> & Hh2 & Ht2 & Hg2).
  by destruct (spec_uops ops vals1).
Qed.
End refinement.

(** * Theorems *)

(** C10: The same store on either transport.  A handle, over IP (a connection that carries
    the operations' requests and answers) or over BLE, to an accessory that holds values
    both transports can carry: any sequence of single and batched reads and writes returns
    what the store of typed values returns and leaves the accessory with the store's values; a client that stops at the first error stops only because
    the BLE link was lost in the meantime, never over IP. *)
Theorem unified_refines `{BleLink (W := G)} {CL : CryptoLaws _} {PL : PeripheralLaws} {BD : Build}
    `{IpLink (W := U)} `{Generated} {HL : HapPeerLaws} {GW : GattWatch G}
    formats vals secrets ops (self : AccessoryHandle U G) :
  holds formats vals (uops_cost ops) self -> carried ops self -> Forall (uop_ok formats vals) ops ->
  (Z.of_nat (uops_cost ops) < 2 ^ 46)%Z ->
  match run_uops secrets 0 ops self with
  | (Ok rs, self') => rs = (spec_uops ops vals).1 /\ holds formats (spec_uops ops vals).2 0 self'
  | (Err _, InnerBle _ g') => exists b g, self = InnerBle b g /\ (d_gen (dev g) < d_gen (dev g'))%Z
  | (Err _, InnerIp _ _) | (Fault _, _) => False
  end.
Proof.
  intros Hh Hca Hops Hk.
  pose proof (run_uops_triple formats secrets ops vals 0 0 (losses self) (over_ip self) Hops Hk self
                (conj (conj Hh Hca) (conj eq_refl (Z.le_refl _)))) as Ht.
  destruct (run_uops secrets 0 ops self) as [[rs|e|x] self']; [by destruct Ht as (? & ? & _)| |done].
  destruct Ht as [Hs Ht]. destruct self as [h u|b g], self' as [h' u'|b' g']; cbn in *; try done. by exists b, g.
Qed.

(** A lamp over IP, and the same lamp over BLE behind a link that drops once. *)
Definition demo_vals : gmap (Z * Z) CharValue := {[(1, 9)%Z := VBool true]}.
Definition demo_uops : list UOp :=
  [URead (1, 9); UWrite (1, 9) (VBool false); UWriteMany [((1, 9), VBool true)]; UReadMany [(1, 9)]]%Z.

#[local] Existing Instances toy_crypto demo_peripheral demo_build Handle.demo_serde Handle.demo_base64 Handle.demo_peer
  Handle.demo_conn Handle.demo_link.
#[local] Instance demo_watch : GattWatch Scheduled :=
  {| gatt_subscribe := fun _ w => (Ok (), w); gatt_disconnect := fun w => w; watch_adverts := fun w => (Ok (), w) |}.

Definition demo_formats : gmap (Z * Z) CharFormat := {[(1, 9)%Z := FBool]}.
Definition demo_ip : AccessoryHandle Peer Scheduled :=
  InnerIp {| ih_accessories := None; ih_formats := demo_formats; ih_subscribed := ∅; ih_pid := 1; ih_needs_refresh := false |}
    {| pr_database := []; pr_formats := demo_formats; pr_values := demo_vals; pr_subs := ∅ |}.
Definition demo_accessory : BleAccessory :=
  {| ba_secure := demo_secure; ba_reviver := demo_reviver; ba_pairings := (PAIRINGS_CHAR, 5%Z); ba_frag_size := 40;
     ba_accessories := []; ba_chars := {[(1, 9)%Z := (chars "00000025-0000-1000-8000-0026bb765291", FBool)]};
     ba_last_gsn := 0; ba_emitted := ∅; ba_broadcast_key := {| bk := [] |}; ba_advert_source := true; ba_tasks := [] |}.
Definition demo_ble : AccessoryHandle Peer Scheduled := InnerBle demo_accessory (demo_device, [(0, false); (2, false)]).

Lemma demo_portable (b : bool) : portable FBool (VBool b).
Proof.
  split; [done|]. split; [done|]. exists [if b then x01 else x00]. destruct b; repeat split; by vm_compute.
Qed.

Lemma demo_vals_portable : map_Forall (portable_in demo_formats) demo_vals.
Proof. apply map_Forall_singleton. exists FBool. split; [done|]. apply demo_portable. Qed.

Lemma demo_ip_holds k : holds demo_formats demo_vals k demo_ip.
Proof.
  split; [apply demo_vals_portable|]. split; [|done]. split; [done|]. split; [|done].
  apply map_Forall_singleton. by exists FBool.
Qed.

Lemma demo_ble_holds k : holds demo_formats demo_vals k demo_ble.
Proof.
  split; [apply demo_vals_portable|]. split; [|split; [|split]].
  - split; [|split; [cbn; lia|]].
    + repeat (split; [done|]). simpl. lia.
    + intros id f Hf. unfold demo_formats in Hf. apply lookup_singleton_Some in Hf as [<- <-]. split; [done|]. split; [done|].
      exists (chars "00000025-0000-1000-8000-0026bb765291"). split; [done|]. by apply (bool_decide_unpack _); vm_compute.
  - split; cbn; lia.
  - change (store_ok {[9%Z := [x01]]}). intros iid v [<- <-]%lookup_singleton_Some. by vm_compute.
  - intros id v Hv. unfold demo_vals in Hv. apply lookup_singleton_Some in Hv as [<- <-]. by exists FBool, [x01].
Qed.

Lemma demo_uops_ok : Forall (uop_ok demo_formats demo_vals) demo_uops.
Proof.
  assert (forall b, portable_in demo_formats (1, 9)%Z (VBool b)) as Hp by (intros b; exists FBool; split; [done|apply demo_portable]).
  assert (id_ok (1, 9)%Z) as Hid by (split; split; cbn; lia).
  assert (is_Some (demo_vals !! (1, 9)%Z)) as Hv by (by eexists).
  repeat apply List.Forall_cons; try apply List.Forall_nil; cbn [uop_ok fst snd]; split_and?; try done;
    apply Forall_singleton; by split_and?.
Qed.

Lemma unified_refines_witness :
  match run_uops (fun _ => demo_secrets) 0 demo_uops demo_ip with
  | (Ok rs, self') => rs = [[((1, 9)%Z, VBool true)]; []; []; [((1, 9)%Z, VBool true)]] /\
      holds demo_formats (<[(1, 9)%Z := VBool true]> (<[(1, 9)%Z := VBool false]> demo_vals)) 0 self'
  | (Err _, InnerBle _ g') => exists b g, demo_ip = InnerBle b g /\ (d_gen (dev g) < d_gen (dev g'))%Z
  | (Err _, InnerIp _ _) | (Fault _, _) => False
  end /\
  match run_uops (fun _ => demo_secrets) 0 demo_uops demo_ble with
  | (Ok rs, self') => rs = [[((1, 9)%Z, VBool true)]; []; []; [((1, 9)%Z, VBool true)]] /\
      holds demo_formats (<[(1, 9)%Z := VBool true]> (<[(1, 9)%Z := VBool false]> demo_vals)) 0 self'
  | (Err _, InnerBle _ g') => exists b g, demo_ble = InnerBle b g /\ (d_gen (dev g) < d_gen (dev g'))%Z
  | (Err _, InnerIp _ _) | (Fault _, _) => False
  end.
Proof.
  split.
  - apply (unified_refines (CL := toy_crypto_laws) (PL := demo_peripheral_laws) (HL := Handle.demo_laws)
             demo_formats demo_vals (fun _ => demo_secrets) demo_uops demo_ip); [apply demo_ip_holds|done|apply demo_uops_ok|by vm_compute].
  - apply (unified_refines (CL := toy_crypto_laws) (PL := demo_peripheral_laws) (HL := Handle.demo_laws)
             demo_formats demo_vals (fun _ => demo_secrets) demo_uops demo_ble); [apply demo_ble_holds|done|apply demo_uops_ok|by vm_compute].
Defined.
