(* ===== verification/StoreApi.v ===== *)
(** * The trait [PairingStore] ([hap-pairing/src/store.rs]) and [JsonFileStore] behind it

    [PairingStore] is the interface the controller is written against, with the laws
    [PairingStoreLaws]: an operation that answers [Ok] took effect on the abstract store, an
    operation that answers an error changed nothing.  [JsonFileStore], awaited call by call
    on a disk whose calls may fail, satisfies them. *)

From S2P Require Import Prelude Text Tlv8 Crypto RecordLayer PairSetup Store StoreFs.

Class PairingStore (St : Type) := {
  ps_load_controller : stateful St PairingError (option ControllerKeypair);
  ps_save_controller : ControllerKeypair -> stateful St PairingError ();
  ps_load_pairings : stateful St PairingError (list StoredAccessory);
  ps_save_pairing : StoredAccessory -> stateful St PairingError ();
  ps_delete_pairing : bytes -> stateful St PairingError ();
  ps_save_broadcast_state : bytes -> StoredBroadcast -> stateful St PairingError ()
}.

(** One method, with its answer as a value of the abstract store. *)
Definition run_store `{PairingStore St} (o : StoreOp) : stateful St PairingError StoreVal :=
  match o with
  | OpLoadController => k ← ps_load_controller; mret (ValController k)
  | OpSaveController k => _ ← ps_save_controller k; mret ValUnit
  | OpLoadPairings => ps ← ps_load_pairings; mret (ValPairings ps)
  | OpSavePairing a => _ ← ps_save_pairing a; mret ValUnit
  | OpDeletePairing id => _ ← ps_delete_pairing id; mret ValUnit
  | OpSaveBroadcast id b => _ ← ps_save_broadcast_state id b; mret ValUnit
  end.

(** What a store holds: each pairing under its id, every field in range. *)
Definition astore_ok (s : AStore) : Prop :=
  map_Forall (fun id a => sa_id a = id /\ stored_ok a) (as_pairings s) /\
  from_option (fun k => length (seed k) = 32) True (as_controller s).

Class PairingStoreLaws (St : Type) `{PairingStore St} := {
  store_holds : St -> AStore -> Prop;
  store_law o st s : store_holds st s -> op_wf o ->
    match run_store o st with
    | (Ok v, st') => exists s', store_spec o s v s' /\ store_holds st' s'
    | (Err _, st') => store_holds st' s
    | (Fault _, _) => False
    end;
  store_holds_ok st s : store_holds st s -> astore_ok s
}.

(** ** [JsonFileStore]

    [io_run] answers each call from the disk and a source of failures [R]. *)

Section json.
Context `{DocumentCodec} {R : Type} (io_run : Call -> Disk * R -> (bytes + IoError) * (Disk * R)).

(** A program awaited by itself: nobody else holds the lock. *)
Fixpoint run_prog {A} (p : prog A) : stateful (Disk * R) PairingError A := fun dr =>
  match p with
  | Finish r => (r, dr)
  | Do LockCall k | Do UnlockCall k => run_prog (k (inl [])) dr
  | Do c k => let '(ans, dr) := io_run c dr in run_prog (k ans) dr
  end.

Definition json_store : PairingStore (Disk * R) :=
  {| ps_load_controller := run_prog load_controller;
     ps_save_controller := fun k => run_prog (save_controller k);
     ps_load_pairings := run_prog load_pairings;
     ps_save_pairing := fun a => run_prog (save_pairing a);
     ps_delete_pairing := fun id => run_prog (delete_pairing id);
     ps_save_broadcast_state := fun id b => run_prog (save_broadcast_state id b) |}.

Definition io_faithful : Prop := forall c d r, c ∉ [LockCall; UnlockCall] ->
  io_step c d (io_run c (d, r)).1 (io_run c (d, r)).2.1.
End json.

(** * Lemmas *)

(** ** A program run by itself is a run of the file system *)

Inductive lock_free {A} : prog A -> Prop :=
| lock_free_finish r : lock_free (Finish r)
| lock_free_do c k : c ∉ [LockCall; UnlockCall] -> (forall ans, lock_free (k ans)) -> lock_free (Do c k).

Lemma lock_free_bind {A B} (p : prog A) (f : A -> prog B) :
  lock_free p -> (forall a, lock_free (f a)) -> lock_free (p ≫= f).
Proof.
  intros Hp Hf. induction Hp as [[a|e|x]|c k Hc _ IH]; [apply Hf|constructor..|]. by constructor.
Qed.

Lemma lock_free_io c : c ∉ [LockCall; UnlockCall] -> lock_free (io c).
Proof. intros Hc. constructor; [done|]. intros [data|e]; constructor. Qed.

Lemma lock_free_read `{DocumentCodec} : lock_free read_doc.
Proof.
  constructor; [set_solver|]. intros [data|[|msg]]; try constructor. apply lock_free_bind; [constructor|].
  intros doc. repeat case_match; constructor.
Qed.

Lemma lock_free_write `{DocumentCodec} doc : lock_free (write_doc doc).
Proof.
  apply lock_free_bind; [constructor|]. intros data.
  repeat (apply lock_free_bind; [apply lock_free_io; set_solver|intros _]). constructor.
Qed.

Lemma lock_free_body `{DocumentCodec} o body doc : op_body o = Some body -> lock_free (body doc).
Proof.
  destruct o; intros [= <-]; try apply lock_free_write. case_match; [apply lock_free_write|constructor].
Qed.

Lemma lock_free_load `{DocumentCodec} o : op_body o = None -> lock_free (op_prog o).
Proof.
  destruct o; intros [=]; (apply lock_free_bind; [|intros; constructor]); (apply lock_free_bind; [apply lock_free_read|intros doc]).
  - case_match; [apply lock_free_bind; constructor|]; constructor.
  - constructor.
Qed.

Section alone.
Context `{DocumentCodec} {R : Type} (io_run : Call -> Disk * R -> (bytes + IoError) * (Disk * R)).
Context (Hio : io_faithful io_run).

(** The file system with one task. *)
Definition alone (d : Disk) (lk : option nat) (p : prog StoreVal) : FsState :=
  {| fs_disk := d; fs_lock := lk; fs_tasks := {[0 := p]}; fs_orphans := [] |}.

(** Making a call. *)
Lemma alone_io c k d lk r :
  c ∉ [LockCall; UnlockCall] ->
  trace orderly (alone d lk (Do c k)) [] (alone (io_run c (d, r)).2.1 lk (k (io_run c (d, r)).1)).
Proof.
  intros Hc. eapply trace_silent; [|constructor]. unfold alone.
  rewrite <- (insert_singleton_eq 0 (k (io_run c (d, r)).1) (Do c k)).
  split; [|done]. apply (fs_io [] d _ lk {[0 := Do c k]} 0 c k); [by apply lookup_singleton_eq|by apply Hio].
Qed.

Lemma run_do {A} c (k : bytes + IoError -> prog A) d r : c ∉ [LockCall; UnlockCall] ->
  run_prog io_run (Do c k) (d, r) =
    run_prog io_run (k (io_run c (d, r)).1) ((io_run c (d, r)).2.1, (io_run c (d, r)).2.2).
Proof.
  intros Hc. cbn [run_prog]. destruct c; try (by destruct Hc; set_solver);
    by destruct (io_run _ (d, r)) as [ans [d' r']].
Qed.

(** A program that takes no lock. *)
Lemma run_lock_free (p : prog StoreVal) d lk r : lock_free p ->
  exists res d' r', run_prog io_run p (d, r) = (res, (d', r')) /\
    trace orderly (alone d lk p) [] (alone d' lk (Finish res)).
Proof.
  intros Hp. revert d r. induction Hp as [res|c k Hc _ IH]; intros d r.
  - exists res, d, r. split; [done|constructor].
  - rewrite run_do by done. destruct (IH (io_run c (d, r)).1 (io_run c (d, r)).2.1 (io_run c (d, r)).2.2) as (res & d' & r' & Hr & Ht).
    exists res, d', r'. split; [done|]. exact (trace_app _ _ _ _ [] [] (alone_io c k d lk r Hc) Ht).
Qed.

(** A program under the lock, up to the release and its continuation. *)
Lemma run_unlocking {A} (m : prog A) (v : StoreVal) d r : lock_free m ->
  exists res d' r', run_prog io_run (_ ← unlocking m; mret v) (d, r) = (res, (d', r')) /\
    trace orderly (alone d (Some 0) (_ ← unlocking m; mret v)) [] (alone d' None (Finish res)).
Proof.
  intros Hm. revert d r. induction Hm as [res|c k Hc _ IH]; intros d r.
  - assert (forall res', trace orderly (alone d (Some 0) (Do UnlockCall (fun _ => Finish res'))) [] (alone d None (Finish res'))) as Htr.
    { intros res'. eapply trace_silent; [|constructor]. unfold alone.
      rewrite <- (insert_singleton_eq 0 (Finish res') (Do UnlockCall (fun _ => Finish res'))).
      split; [|done].
      apply (fs_release [] d (Some 0) {[0 := Do UnlockCall (fun _ => Finish res')]} 0 (fun _ => Finish res')), lookup_singleton_eq. }
    destruct res as [a|e|x]; do 3 eexists; (split; [reflexivity|]); apply Htr.
  - assert ((_ ← unlocking (Do c k); mret v) = Do c (fun ans => _ ← unlocking (k ans); mret v)) as -> by done.
    rewrite run_do by done. destruct (IH (io_run c (d, r)).1 (io_run c (d, r)).2.1 (io_run c (d, r)).2.2) as (res & d' & r' & Hr & Ht).
    exists res, d', r'. split; [done|].
    exact (trace_app _ _ _ _ [] [] (alone_io c (fun ans => _ ← unlocking (k ans); mret v) d (Some 0) r Hc) Ht).
Qed.

Lemma run_op_alone o d r :
  exists res d' r', run_prog io_run (op_prog o) (d, r) = (res, (d', r')) /\
    trace orderly (alone d None (op_prog o)) [] (alone d' None (Finish res)).
Proof.
  destruct (op_body o) as [body|] eqn:Hb; [|by apply run_lock_free, lock_free_load].
  rewrite (op_prog_body o body Hb).
  destruct (run_unlocking (read_doc ≫= body) ValUnit d r) as (res & d' & r' & Hr & Ht).
  { apply lock_free_bind; [apply lock_free_read|]. intros doc. by eapply lock_free_body. }
  exists res, d', r'. split; [exact Hr|]. eapply trace_silent; [|exact Ht].
  unfold with_lock. cbn [mbind prog_bind]. unfold alone.
  set (q := fun _ : bytes + IoError => _ ← unlocking (read_doc ≫= body); mret ValUnit).
  change (orderly {| fs_disk := d; fs_lock := None; fs_tasks := {[0 := Do LockCall q]}; fs_orphans := [] |} None
            {| fs_disk := d; fs_lock := Some 0; fs_tasks := {[0 := q (inl [])]}; fs_orphans := [] |}).
  rewrite <- (insert_singleton_eq 0 (q (inl [])) (Do LockCall q)).
  split; [|done]. apply (fs_acquire [] d {[0 := Do LockCall q]} 0 q), lookup_singleton_eq.
Qed.
End alone.

Lemma run_prog_bind `{DocumentCodec} {R A B} (io_run : Call -> Disk * R -> (bytes + IoError) * (Disk * R))
    (p : prog A) (f : A -> prog B) dr :
  run_prog io_run (p ≫= f) dr = (a ← run_prog io_run p; run_prog io_run (f a)) dr.
Proof.
  revert dr. induction p as [[a|e|x]|c k IH]; intros dr; [done..|].
  cbn [mbind prog_bind]. fold (@mbind prog prog_bind).
  destruct c; cbn [run_prog]; run; try apply IH; destruct (io_run _ dr) as [ans dr']; apply IH.
Qed.

Lemma run_store_json `{DocumentCodec} {R} (io_run : Call -> Disk * R -> (bytes + IoError) * (Disk * R)) o dr :
  run_store (H := json_store io_run) o dr = run_prog io_run (op_prog o) dr.
Proof. destruct o; cbn [op_prog]; rewrite run_prog_bind; done. Qed.

(** ** One operation of the atomic store *)

Lemma atomic_empty s past a : trace at_step (at_init s past) [] a -> at_store a = s.
Proof.
  intros Ht. inversion Ht as [|x y z l Hs _|]; [done|]. exfalso. subst. unfold at_init in Hs.
  inversion Hs as [|? ? ? ? ? ? ? ? Hp| | | |? ? ? ? det1 ? det2|]; subst; [by rewrite lookup_empty in Hp|by destruct det1].
Qed.

Lemma atomic_respond s s0 past o c r a :
  trace at_step {| at_store := s; at_past := past; at_pending := {[0 := (o, c)]}; at_detached := [] |} [Respond 0 r] a ->
  match c with None => s = s0 | Some v => store_spec o s0 v s end ->
  (exists v, r = Ok v /\ store_spec o s0 v (at_store a)) \/ (exists e, r = Err e /\ at_store a = s0).
Proof.
  remember {| at_store := s; at_past := past; at_pending := {[0 := (o, c)]}; at_detached := [] |} as st eqn:Hst.
  remember [Respond 0 r] as ls eqn:Hls.
  intros Ht. revert s past c Hst. induction Ht as [st|st st1 st2 ls Hs Ht IH|st st1 st2 l ls Hs Ht IH]; intros s past c -> Hc; [done| |].
  - inversion Hs as [|s1 s' past1 pend det i o1 v Hp Hsp| | | |? ? ? ? det1 ? det2|]; subst; [|by destruct det1].
    apply lookup_singleton_Some in Hp as [<- [= <- ->]].
    eapply (IH eq_refl s' (s :: past) (Some v)); [by rewrite insert_singleton_eq|by rewrite <- Hc].
  - injection Hls as -> ->.
    assert (forall o1 (c1 : option StoreVal), ({[0 := (o, c)]} : gmap nat (StoreOp * option StoreVal)) !! 0 = Some (o1, c1) ->
              o1 = o /\ c1 = c) as Hone by (intros o1 c1 [_ [= <- <-]]%lookup_singleton_Some; done).
    inversion Hs as [| |s1 past1 pend det i o1 v Hp|s1 past1 pend det i o1 e Hp| | |]; subst;
      try apply lookup_singleton_Some in Hp as Hi; try destruct Hi as [<- _]; destruct (Hone _ _ Hp) as [-> <-];
      rewrite delete_singleton_eq in Ht; apply atomic_empty in Ht as ->; try done; [left; by exists v|right; by exists e].
Qed.

Lemma atomic_op s past o r a : trace at_step (at_init s past) [Invoke 0 o; Respond 0 r] a ->
  (exists v, r = Ok v /\ store_spec o s v (at_store a)) \/ (exists e, r = Err e /\ at_store a = s).
Proof.
  unfold at_init. intros Ht. inversion Ht as [|st st1 st2 ls Hs Ht1|st st1 st2 l ls Hs Ht1]; subst.
  - exfalso. inversion Hs as [|? ? ? ? ? ? ? ? Hp| | | |? ? ? ? det1 ? det2|]; subst; [by rewrite lookup_empty in Hp|by destruct det1].
  - inversion Hs; subst. by apply (atomic_respond s s past o None r a).
Qed.

(** ** The laws *)

Lemma decode_key_length s k : decode_key_32 s = Ok k -> length k = 32.
Proof.
  unfold decode_key_32. case_match eqn:Hl; [done|]. intros Hd.
  assert (forall bs k, decode_pairs bs = Ok k -> length k = Nat.div2 (length bs)) as Hp.
  { fix IH 1. intros [|a [|b bs]] k'; cbn; [by intros [= <-]..|].
    intros (h & _ & (l & _ & (t & Ht & [= <-])%bind_Ok_inv)%bind_Ok_inv)%bind_Ok_inv. cbn. by rewrite (IH _ _ Ht). }
  rewrite (Hp _ _ Hd). apply negb_false_iff, Nat.eqb_eq in Hl. by rewrite Hl.
Qed.

Lemma parse_device_id_length s d : parse_device_id s = Some d -> length d = 6.
Proof.
  unfold parse_device_id. intros (out & _ & Hd)%bind_Some. destruct (Nat.eqb_spec (length out) 6); [|done].
  case_match; [|done]. by simplify_eq.
Qed.

(** A record that parses holds fields in range. *)
Lemma record_stored_ok r a : record_ok r -> accessory_from_record r = Ok a -> stored_ok a.
Proof.
  intros (Hid & _ & Ht & Ha). unfold accessory_from_record. intros (ltpk & Hk & (tr & Htr & [= <-])%bind_Ok_inv)%bind_Ok_inv.
  apply decode_key_length in Hk.
  destruct (ar_transport r) as [[addr|dev b]|]; cbn in Ht.
  - simplify_eq. by repeat split.
  - apply bind_Ok_inv in Htr as (d & Hd & Htr). apply bind_Ok_inv in Htr as (b' & Hb & [= <-]).
    destruct (parse_device_id dev) as [d'|] eqn:Hdev; [|done]. injection Hd as ->. apply parse_device_id_length in Hdev.
    destruct b as [b|]; cbn in Hb.
    + unfold broadcast_from_record in Hb. destruct (decode_key_32 (key_hex b)) as [key|e|x] eqn:Hkey; try done.
      injection Hb as <-. apply decode_key_length in Hkey. destruct Ht as [_ [_ [? ?]]]. by repeat split.
    + injection Hb as <-. by repeat split.
  - destruct (ar_addr r) as [addr|]; [|done]. simplify_eq. by repeat split.
Qed.

Lemma doc_holds_ok doc s : doc_holds doc s -> astore_ok s.
Proof.
  intros ((_ & _ & Hrs) & _ & Hc & ps & Hps & Hn & Hby). split.
  - rewrite <- Hby. intros id a [Hin <-]%by_id_lookup; [|done]. split; [done|].
    apply list_elem_of_lookup in Hin as [i Hi]. destruct (Forall2_lookup_r _ _ _ _ _ Hps Hi) as (r & Hr & Hf).
    eapply record_stored_ok; [|exact Hf]. by eapply Forall_lookup_1.
  - destruct Hc as [r k Hk|]; [|done]. cbn. unfold controller_from_record in Hk.
    apply bind_Ok_inv in Hk as (sd & Hd & [= <-]). by apply decode_key_length in Hd.
Qed.

(** A disk whose file is a store, and whose older contents were. *)
Definition disk_holds `{DocumentCodec} (d : Disk) (s : AStore) : Prop :=
  file_holds (dk_file d) s /\ dk_durable d = true /\ Forall (fun f => exists s', file_holds f s') (dk_older d).

Lemma older_states `{DocumentCodec} olds :
  Forall (fun f => exists s', file_holds f s') olds -> exists past, Forall (fun f => Exists (file_holds f) past) olds.
Proof.
  induction 1 as [|f olds [s Hs] _ [past IH]]; [by exists []|]. exists (s :: past). constructor; [by left|].
  eapply Forall_impl; [exact IH|]. intros g Hg. by right.
Qed.

Lemma store_law_alone `{DocumentCodecLaws} {R} (io_run : Call -> Disk * R -> (bytes + IoError) * (Disk * R)) o d r s :
  io_faithful io_run -> disk_holds d s -> op_wf o ->
  match run_prog io_run (op_prog o) (d, r) with
  | (Ok v, (d', _)) => exists s', store_spec o s v s' /\ disk_holds d' s'
  | (Err _, (d', _)) => disk_holds d' s
  | (Fault _, _) => False
  end.
Proof.
  intros Hio (Hf & Hd & [past Hold]%older_states) Hw. destruct (run_op_alone io_run Hio o d r) as (res & d' & r' & -> & Ht).
  assert (trace orderly (fs_init d) [Invoke 0 o; Respond 0 res]
    {| fs_disk := d'; fs_lock := None; fs_tasks := ∅; fs_orphans := [] |}) as Htr.
  { eapply trace_visible; [split; [by apply (fs_invoke [] d None ∅ 0 o)|done]|]. eapply (trace_app _ _ _ _ [] _ Ht).
    eapply trace_visible; [split; [|done]|constructor]. rewrite <- (delete_singleton_eq 0 (Finish res)).
    apply fs_respond, lookup_singleton_eq. }
  destruct (fs_trace_matched _ _ _ Htr) with (a := at_init s past) as (a & Ha & Hr).
  - by repeat constructor.
  - by apply related_quiet.
  - assert (disk_holds d' (at_store a)) as Hd'.
    { split; [exact (rel_file _ _ Hr)|]. split; [exact (rel_durable _ _ Hr)|]. eapply Forall_impl; [exact (rel_older _ _ Hr)|].
      intros f (s' & _ & Hs')%Exists_exists. by exists s'. }
    destruct (atomic_op _ _ _ _ _ Ha) as [(v & -> & Hv)|(e & -> & <-)]; [|done]. by exists (at_store a).
Qed.

#[export] Instance json_store_laws `{DocumentCodecLaws} {R} (io_run : Call -> Disk * R -> (bytes + IoError) * (Disk * R))
    (Hio : io_faithful io_run) : PairingStoreLaws (H := json_store io_run) (Disk * R).
Proof.
  refine {| store_holds := fun (dr : Disk * R) s => disk_holds dr.1 s |}.
  - intros o [d r] s Hd Hw. rewrite run_store_json. pose proof (store_law_alone io_run o d r s Hio Hd Hw) as Hl.
    by destruct (run_prog io_run (op_prog o) (d, r)) as [[v|e|x] [d' r']].
  - intros dr s ((doc & _ & Hdoc) & _). by eapply doc_holds_ok.
Defined.
