(* ===== verification/Controller.v ===== *)
(** * [hap-controller/src/controller.rs]: the controller

    [HapController] owns the pairing store [St], the controller's identity and a snapshot of
    the stored ids; it discovers, pairs, connects, and administers pairings over the network
    and the radio [W].  A TCP connection [T] and a GATT link [G] are local objects of [W]; a
    secure session is a connection with its keys.  Random values are arguments. *)

From S2P Require Import ThreadPdu.
From S2P Require Import Prelude Text Tlv8 Crypto RecordLayer Http Srp PairSetup PairVerify Store StoreFs StoreApi.
From S2P Require Import Pairing Model Types ModelJson BlePdu BleAccessory BleEvents BleWatch Handle Unified.
From S2P Require Import Discovery SetupPayload.

(** What the controller calls outside this repository: the mDNS browse and BLE scan of one
    window, opening connections, and the requests made on them. *)
Class World (W T G : Type) := {
  mdns_browse : stateful W TransportError (list ServiceEvent);
  ble_heard : stateful W BleError (list Advertisement);
  http_connect : SocketAddr -> stateful W TransportError T;
  connect_gatt : DiscoveredBleAccessory -> stateful W BleError G;
  world_plain :: HttpConn (T * W);
  world_secure :: HttpConn ((SessionKeys * T) * W);
  world_gatt :: Gatt (G * W)
}.

Definition DEFAULT_CONTROLLER_ID : bytes := str "hap-rust-controller".
Definition DEFAULT_REQUEST_TIMEOUT : Z := 10.

Record PairingReconnector := { pr_stored : StoredAccessory; pr_own_keypair : ControllerKeypair }.

(** What [IpHandle::connect] is given: the session, how to renew it and the time limit. *)
Record IpBackend (T : Type) := {
  ib_session : SessionKeys * T; ib_reconnector : PairingReconnector; ib_timeout : Z
}.
Arguments ib_session {T} _.
Arguments ib_reconnector {T} _.
Arguments ib_timeout {T} _.

Record HapController := { hc_keypair : ControllerKeypair; hc_cached_ids : list bytes; hc_request_timeout : Z }.

Definition hc_set_ids (ids : list bytes) (self : HapController) : HapController :=
  {| hc_keypair := hc_keypair self; hc_cached_ids := ids; hc_request_timeout := hc_request_timeout self |}.

Definition set_request_timeout (timeout : Z) (self : HapController) : HapController :=
  {| hc_keypair := hc_keypair self; hc_cached_ids := hc_cached_ids self; hc_request_timeout := timeout |}.

Definition paired (self : HapController) : list bytes := hc_cached_ids self.

Section controller.
Context `{C : Crypto} `{B : BigUintOps} `{Base64Engine} `{Build} `{Generated}.
Context {St W T G : Type} `{!PairingStore St} `{!World W T G}.

(** The state of an operation: the controller, its store and the world. *)
Local Abbreviation M := (stateful (HapController * (St * W)) HapError).
Local Abbreviation Handle := (AccessoryHandle (IpBackend T) G).

Definition on_store {A} (m : stateful St PairingError A) : M A := fun '(self, (st, w)) =>
  let '(r, st) := m st in (map_err HapPairing r, (self, (st, w))).
Definition on_world {A} (m : stateful W HapError A) : M A := fun '(self, (st, w)) =>
  let '(r, w) := m w in (r, (self, (st, w))).
Definition self : M HapController := fun s => (Ok s.1, s).
Definition set_ids (f : list bytes -> list bytes) : M () := fun s =>
  (Ok (), (hc_set_ids (f (hc_cached_ids s.1)) s.1, s.2)).

(** ** Discovery *)

Definition net_discover : stateful W TransportError (list DiscoveredAccessory) := fun w =>
  let '(events, w) := mdns_browse w in (ip_discover events, w).
Definition ble_scan : stateful W BleError (list DiscoveredBleAccessory) := fun w =>
  let '(advs, w) := ble_heard w in (scan advs, w).

(** [hap_transport::discover] as [hap_pairing::connect] uses it. *)
#[export] Instance world_dialer : Dialer W T := {
  dial := http_connect;
  discover := found ← net_discover; mret ((fun d => (da_id d, da_addr d)) <$> found)
}.
#[local] Instance plain_pairing : PairingConn (T * W) := http_pairing_conn.
#[local] Instance secure_pairing : PairingConn ((SessionKeys * T) * W) := http_pairing_conn.

Definition world_discover : stateful W HapError (list Discovered) := fun w =>
  let '(events, w) := mdns_browse w in
  let '(advs, w) := ble_heard w in
  (map_err HapTransport (hc_discover (ip_discover events) (scan advs)), w).

Definition discover_ip : M (list DiscoveredAccessory) := on_world (with_err HapTransport net_discover).
Definition discover_ble : M (list DiscoveredBleAccessory) := on_world (with_err HapBle ble_scan).

(** [PairingReconnector::reconnect]: a new session, and the accessory's configuration number
    if a discovery hears it. *)
Definition reconnect (secret : bytes) (rc : PairingReconnector)
    : stateful W HapError ((SessionKeys * T) * option Z) :=
  found ← attempt net_discover;
  let config_number :=
    match found with
    | inl found => da_config_number <$> List.find (fun d => bool_decide (da_id d = sa_id (pr_stored rc))) found
    | inr _ => None
    end in
  session ← with_err HapPairing (ip_connect secret (pr_stored rc) (pr_own_keypair rc));
  mret (session, config_number).

(** [IpHandle::connect] behind [AccessoryHandle::from_ip]. *)
Definition ip_handle (session : SessionKeys * T) (stored : StoredAccessory) (keypair : ControllerKeypair) (timeout : Z) : Handle :=
  from_ip ip_handle_new
    {| ib_session := session; ib_reconnector := {| pr_stored := stored; pr_own_keypair := keypair |}; ib_timeout := timeout |}.

(** ** [new] *)

(** The controller of an identity, with the snapshot of the stored ids. *)
Definition hc_open (keypair : ControllerKeypair) (request_timeout : Z) : stateful St HapError HapController :=
  ps ← with_err HapPairing ps_load_pairings;
  mret {| hc_keypair := keypair; hc_cached_ids := sa_id <$> ps; hc_request_timeout := request_timeout |}.

(** [seed] is the identity [ControllerKeypair::generate] draws. *)
Definition hc_new (seed : bytes) (request_timeout : Z) : stateful St HapError HapController :=
  loaded ← with_err HapPairing ps_load_controller;
  keypair ← (match loaded with
             | Some kp => mret kp
             | None =>
                 let kp := from_seed DEFAULT_CONTROLLER_ID seed in
                 _ ← with_err HapPairing (ps_save_controller kp);
                 mret kp
             end);
  hc_open keypair request_timeout.

(** ** Stored pairings *)

Definition has_device_id (device_id : bytes) (a : StoredAccessory) : bool :=
  match sa_transport a with StoredBle d _ => bool_decide (d = device_id) | StoredIp _ => false end.

Definition find_stored (all : list StoredAccessory) (accessory_id : bytes) : option StoredAccessory :=
  match List.find (fun s => same_id (sa_id s) accessory_id) all with
  | Some found => Some found
  | None => device_id ← parse_device_id accessory_id; List.find (has_device_id device_id) all
  end.

Definition load_stored (accessory_id : bytes) : stateful St HapError StoredAccessory :=
  all ← with_err HapPairing ps_load_pairings;
  lift (ok_or (find_stored all accessory_id) (HapUnknownAccessory accessory_id)).

Definition on_stored {A} (m : stateful St HapError A) : M A := fun '(self, (st, w)) =>
  let '(r, st) := m st in (r, (self, (st, w))).

(** ** Pairing *)

Definition remember (id : bytes) (ids : list bytes) : list bytes :=
  if bool_decide (id ∈ ids) then ids else ids ++ [id].

(** [a] and [secret] are the values Pair Setup and Pair Verify draw. *)
Definition pair_ip (a secret : bytes) (accessory : DiscoveredAccessory) (setup_code : bytes) : M Handle :=
  normalized ← lift (controller_normalize_setup_code setup_code);
  hc ← self;
  conn ← on_world (with_err HapTransport (http_connect (da_addr accessory)));
  ps ← on_world (with_err HapPairing (ip_pair a secret conn normalized (hc_keypair hc)));
  let '(pairing, session) := ps in
  let stored := {| sa_pairing := pairing; sa_transport := StoredIp (da_addr accessory) |} in
  _ ← on_store (ps_save_pairing stored);
  _ ← set_ids (remember (sa_id stored));
  mret (ip_handle session stored (hc_keypair hc) (hc_request_timeout hc)).

Definition stored_broadcast (state : BleBroadcastState) : StoredBroadcast :=
  {| sb_key := bb_key state; sb_gsn := bb_gsn state |}.

Definition pair_ble (a secret : bytes) (accessory : DiscoveredBleAccessory) (setup_code : bytes) : M Handle :=
  device_id ← lift (ok_or (parse_device_id (db_device_id accessory)) (HapUnknownAccessory (db_device_id accessory)));
  hc ← self;
  gatt ← on_world (with_err HapBle (connect_gatt accessory));
  pg ← on_world (with_err HapBle (on_local gatt (ble_pair a secret (hc_keypair hc) setup_code)));
  let '((ble, pairing, state), gatt) := pg in
  let stored := {| sa_pairing := pairing; sa_transport := StoredBle device_id (Some (stored_broadcast state)) |} in
  _ ← on_store (ps_save_pairing stored);
  _ ← set_ids (remember (sa_id stored));
  mret (from_ble (ble_set_watch true (ba_tasks ble) ble) gatt).

Definition pair (a secret : bytes) (accessory : Discovered) (setup_code : bytes) : M Handle :=
  match accessory with
  | DiscIp ip => pair_ip a secret ip setup_code
  | DiscBle ble => pair_ble a secret ble setup_code
  end.

(** The loop of [pair_with_payload]; the deadline passes after [rounds] more scans. *)
Fixpoint payload_rounds (a secret : bytes) (payload : SetupPayload) (rounds : nat) (last_ambiguous : option (list bytes))
    : M Handle :=
  found ← on_world world_discover;
  match select_match found payload with
  | SelOne target => pair a secret target (sp_setup_code payload)
  | unmatched =>
      let last_ambiguous := match unmatched with SelAmbiguous ids => Some ids | _ => last_ambiguous end in
      match rounds with
      | S rounds' => payload_rounds a secret payload rounds' last_ambiguous
      | 0 => lift (Err (match last_ambiguous with
                        | Some candidates => AmbiguousMatch candidates
                        | None => NoMatchingAccessory
                        end))
      end
  end.

Definition pair_with_payload (a secret : bytes) (payload : SetupPayload) (rounds : nat) : M Handle :=
  payload_rounds a secret payload rounds None.

(** ** Connecting *)

Definition connect_ip (secret : bytes) (stored : StoredAccessory) (keypair : ControllerKeypair) (request_timeout : Z)
    : stateful W HapError Handle :=
  session ← with_err HapPairing (ip_connect secret stored keypair);
  mret (ip_handle session stored keypair request_timeout).

Definition ble_state (b : StoredBroadcast) : BleBroadcastState := {| bb_key := sb_key b; bb_gsn := sb_gsn b |}.

Definition connect_ble (secret : bytes) (keypair : ControllerKeypair) (stored : StoredAccessory) (device_id : bytes)
    (broadcast : option StoredBroadcast) : stateful W HapError Handle :=
  let wanted := format_device_id device_id in
  found ← with_err HapBle ble_scan;
  dev ← lift (ok_or (List.find (fun d => same_id (db_device_id d) wanted) found) (HapBle AccessoryNotFound));
  gatt ← with_err HapBle (connect_gatt dev);
  ag ← with_err HapBle (on_local gatt (ble_connect secret keypair (sa_pairing stored) (ble_state <$> broadcast)));
  let '(ble, gatt) := ag in
  mret (from_ble (ble_set_watch true (ba_tasks ble) ble) gatt).

Definition connect (secret accessory_id : bytes) : M Handle :=
  stored ← on_stored (load_stored accessory_id);
  hc ← self;
  match sa_transport stored with
  | StoredIp _ => on_world (connect_ip secret stored (hc_keypair hc) (hc_request_timeout hc))
  | StoredBle device_id broadcast => on_world (connect_ble secret (hc_keypair hc) stored device_id broadcast)
  end.

(** ** Administration *)

(** A session to a stored accessory, for one request of [PairingsAdmin]. *)
Definition admin_request {A} (secret : bytes) (stored : StoredAccessory) (keypair : ControllerKeypair)
    (m : stateful ((SessionKeys * T) * W) PairingError A) : stateful W HapError A :=
  session ← with_err HapPairing (ip_connect secret stored keypair);
  r ← with_err HapPairing (on_local session m);
  mret r.1.

(** [secret'] is drawn by a re-verification of the BLE session, should it run. *)
Definition remove_pairing (secret secret' accessory_id : bytes) : M () :=
  stored ← on_stored (load_stored accessory_id);
  hc ← self;
  let canonical_id := sa_id stored in
  _ ← (match sa_transport stored with
       | StoredIp _ => on_world (admin_request secret stored (hc_keypair hc) (pairings_remove (kp_id (hc_keypair hc))))
       | StoredBle _ _ =>
           handle ← connect secret canonical_id;
           match as_ble handle with
           | None => lift (Err (UnsupportedByTransport "remove_pairing"))
           | Some (b, gatt) =>
               _ ← on_world (with_err HapBle (on_local b (fun '(b, w) =>
                     let '(r, (b, (_, w))) :=
                       on_secure (ble_remove_pairing secret' (ba_reviver b) (ba_pairings b) (ba_frag_size b)
                                    (kp_id (hc_keypair hc))) (b, (gatt, w)) in
                     (r, (b, w)))));
               mret ()
           end
       end);
  _ ← on_store (ps_delete_pairing canonical_id);
  set_ids (filter (fun id => id <> canonical_id)).

Definition forget_pairing (accessory_id : bytes) : M () :=
  loaded ← attempt (on_stored (load_stored accessory_id));
  match loaded with
  | inl stored =>
      _ ← on_store (ps_delete_pairing (sa_id stored));
      set_ids (filter (fun id => id <> sa_id stored))
  | inr (HapUnknownAccessory _) => set_ids (filter (fun id => same_id id accessory_id = false))
  | inr e => lift (Err e)
  end.

Definition is_ble (stored : StoredAccessory) : bool :=
  match sa_transport stored with StoredBle _ _ => true | StoredIp _ => false end.

Definition list_pairings (secret accessory_id : bytes) : M (list PairingInfo) :=
  stored ← on_stored (load_stored accessory_id);
  hc ← self;
  if is_ble stored then lift (Err (UnsupportedByTransport "list_pairings"))
  else on_world (admin_request secret stored (hc_keypair hc) pairings_list).

Definition add_pairing (secret accessory_id controller_id ltpk : bytes) (admin : bool) : M () :=
  stored ← on_stored (load_stored accessory_id);
  hc ← self;
  if is_ble stored then lift (Err (UnsupportedByTransport "add_pairing"))
  else on_world (admin_request secret stored (hc_keypair hc) (pairings_add controller_id ltpk admin)).

Definition identify_ip (accessory : DiscoveredAccessory) : stateful W HapError () :=
  conn ← with_err HapTransport (http_connect (da_addr accessory));
  rc ← with_err HapTransport (on_local conn (http_request (str "POST") (str "/identify") (str "application/hap+json") []));
  if is_success (status rc.1) then mret () else lift (Err (HapHttp (status rc.1))).

Definition controller_identify (accessory : Discovered) : M () :=
  match accessory with
  | DiscIp ip => on_world (identify_ip ip)
  | DiscBle _ => lift (Err (UnsupportedByTransport "identify"))
  end.

Definition save_state (handle : Handle) : M () :=
  match ah_pairing_id handle, ah_broadcast_state handle with
  | Some id, Some state =>
      stored ← on_stored (load_stored id);
      let stored :=
        match sa_transport stored with
        | StoredBle device_id _ =>
            {| sa_pairing := sa_pairing stored; sa_transport := StoredBle device_id (Some (stored_broadcast state)) |}
        | StoredIp _ => stored
        end in
      on_store (ps_save_pairing stored)
  | _, _ => mret ()
  end.
End controller.
