(* ===== verification/ControllerRefine.v ===== *)
(** * The controller keeps its store and its snapshot in step

    The abstract specification of [HapController]: what each operation does to the stored
    pairings, and the refinement theorem that the operations of [Controller] do that, over
    any pairing store, network and radio, and leave everything as it was when they fail. *)

From S2P Require Import ThreadPdu.
From S2P Require Import Prelude Text Tlv8 Crypto RecordLayer Http Srp PairSetup PairVerify Store StoreFs StoreApi.
From S2P Require Import Pairing Model Types ModelJson BlePdu BleAccessory BleEvents BleWatch Handle Unified.
From S2P Require Import Discovery SetupPayload Controller.

(** ** Operations *)

Section operations.
Context `{C : Crypto} `{B : BigUintOps} `{Base64Engine} `{Build} `{Generated}.
Context {St W T G : Type} `{!PairingStore St} `{!World W T G}.

Local Abbreviation Handle := (AccessoryHandle (IpBackend T) G).

Inductive CtlOp :=
| CDiscover
| CPair (a secret : bytes) (accessory : Discovered) (setup_code : bytes)
| CPairPayload (a secret : bytes) (payload : SetupPayload) (rounds : nat)
| CConnect (secret id : bytes)
| CRemove (secret secret' id : bytes)
| CForget (id : bytes)
| CList (secret id : bytes)
| CAdd (secret id controller_id ltpk : bytes) (admin : bool)
| CIdentify (accessory : Discovered)
| CSaveState (handle : Handle).

Inductive CtlVal := VDone | VFound (found : list Discovered) | VHandle (handle : Handle) | VInfos (infos : list PairingInfo).

Definition run_ctl (op : CtlOp) : stateful (HapController * (St * W)) HapError CtlVal :=
  match op with
  | CDiscover => found ← on_world world_discover; mret (VFound found)
  | CPair a secret accessory code => h ← pair a secret accessory code; mret (VHandle h)
  | CPairPayload a secret payload rounds => h ← pair_with_payload a secret payload rounds; mret (VHandle h)
  | CConnect secret id => h ← connect secret id; mret (VHandle h)
  | CRemove secret secret' id => _ ← remove_pairing secret secret' id; mret VDone
  | CForget id => _ ← forget_pairing id; mret VDone
  | CList secret id => infos ← list_pairings secret id; mret (VInfos infos)
  | CAdd secret id controller_id ltpk admin => _ ← add_pairing secret id controller_id ltpk admin; mret VDone
  | CIdentify accessory => _ ← controller_identify accessory; mret VDone
  | CSaveState handle => _ ← save_state handle; mret VDone
  end.

(** A sequence of calls, each with its answer; [None] is an error or a panic. *)
Fixpoint run_ctls (ops : list CtlOp) (s : HapController * (St * W)) : list (option CtlVal) * (HapController * (St * W)) :=
  match ops with
  | [] => ([], s)
  | op :: ops' =>
      let '(r, s) := run_ctl op s in
      let '(rs, s) := run_ctls ops' s in
      ((match r with Ok v => Some v | _ => None end) :: rs, s)
  end.
End operations.

(** ** The specification *)

(** The pairing an id refers to: by its id up to case, else by its BLE device id. *)
Definition resolves (m : gmap bytes StoredAccessory) (id : bytes) (a : StoredAccessory) : Prop :=
  m !! sa_id a = Some a /\
  (same_id (sa_id a) id = true \/
   (forall i b, m !! i = Some b -> same_id (sa_id b) id = false) /\
   exists d, parse_device_id id = Some d /\ has_device_id d a = true).

Definition unresolved (m : gmap bytes StoredAccessory) (id : bytes) : Prop := forall a, ~ resolves m id a.

Section spec.
Context `{C : Crypto} `{Generated} {T G : Type}.
Local Abbreviation Handle := (AccessoryHandle (IpBackend T) G).

(** A handle to the accessory of a stored pairing, for the identity [kp]. *)
Definition handle_for (kp : ControllerKeypair) (a : StoredAccessory) (h : Handle) : Prop :=
  match sa_transport a, h with
  | StoredIp _, InnerIp h be => h = ip_handle_new /\ ib_reconnector be = {| pr_stored := a; pr_own_keypair := kp |}
  | StoredBle _ _, InnerBle b _ =>
      rv_pairing (ba_reviver b) = sa_pairing a /\ rv_keypair (ba_reviver b) = kp /\ ba_advert_source b = true
  | _, _ => False
  end.

(** The record of a fresh pairing with a discovered accessory. *)
Definition records (d : Discovered) (a : StoredAccessory) (h : Handle) : Prop :=
  match d, h with
  | DiscIp ip, _ => sa_transport a = StoredIp (da_addr ip)
  | DiscBle ble, InnerBle b _ =>
      exists device_id, parse_device_id (db_device_id ble) = Some device_id /\
        sa_transport a = StoredBle device_id (Some {| sb_key := ba_broadcast_key b; sb_gsn := 0 |})
  | DiscBle _, InnerIp _ _ => False
  end.

Definition paired_with (kp : ControllerKeypair) (d : Discovered) (h : Handle) (s s' : AStore) : Prop :=
  exists a, stored_ok a /\ records d a h /\ handle_for kp a h /\ s' = with_pairings <[sa_id a := a]> s.

Inductive ctl_spec (kp : ControllerKeypair) : CtlOp (T := T) (G := G) -> AStore -> option (CtlVal (T := T) (G := G)) -> AStore -> Prop :=
| spec_fails op s : ctl_spec kp op s None s
| spec_discover s found : ctl_spec kp CDiscover s (Some (VFound found)) s
| spec_pair a secret d code s h s' :
    paired_with kp d h s s' -> ctl_spec kp (CPair a secret d code) s (Some (VHandle h)) s'
| spec_pair_payload a secret payload rounds found d s h s' :
    select_match found payload = SelOne d -> paired_with kp d h s s' ->
    ctl_spec kp (CPairPayload a secret payload rounds) s (Some (VHandle h)) s'
| spec_connect secret id a s h :
    resolves (as_pairings s) id a -> handle_for kp a h -> ctl_spec kp (CConnect secret id) s (Some (VHandle h)) s
| spec_remove secret secret' id a s :
    resolves (as_pairings s) id a ->
    ctl_spec kp (CRemove secret secret' id) s (Some VDone) (with_pairings (delete (sa_id a)) s)
| spec_forget id a s :
    resolves (as_pairings s) id a -> ctl_spec kp (CForget id) s (Some VDone) (with_pairings (delete (sa_id a)) s)
| spec_forget_unknown id s : unresolved (as_pairings s) id -> ctl_spec kp (CForget id) s (Some VDone) s
| spec_list secret id a s infos :
    resolves (as_pairings s) id a -> is_ble a = false -> ctl_spec kp (CList secret id) s (Some (VInfos infos)) s
| spec_add secret id controller_id ltpk admin a s :
    resolves (as_pairings s) id a -> is_ble a = false ->
    ctl_spec kp (CAdd secret id controller_id ltpk admin) s (Some VDone) s
| spec_identify ip s : ctl_spec kp (CIdentify (DiscIp ip)) s (Some VDone) s
| spec_save_ip h u s : ctl_spec kp (CSaveState (InnerIp h u)) s (Some VDone) s
| spec_save_ble b g a s :
    resolves (as_pairings s) (ble_pairing_id b) a ->
    ctl_spec kp (CSaveState (InnerBle b g)) s (Some VDone)
      (with_pairings (alter (set_broadcast (stored_broadcast (broadcast_state b))) (sa_id a)) s).

Inductive ctl_specs (kp : ControllerKeypair) : list (CtlOp (T := T) (G := G)) -> AStore -> list (option (CtlVal (T := T) (G := G))) -> AStore -> Prop :=
| ctl_specs_nil s : ctl_specs kp [] s [] s
| ctl_specs_cons op ops s v s1 vs s2 :
    ctl_spec kp op s v s1 -> ctl_specs kp ops s1 vs s2 -> ctl_specs kp (op :: ops) s (v :: vs) s2.
End spec.

(** The store holds the controller's identity, and the snapshot lists the stored ids. *)
Definition ctl_inv `{PairingStoreLaws St} (hc : HapController) (st : St) (s : AStore) : Prop :=
  store_holds st s /\ as_controller s = Some (hc_keypair hc) /\ NoDup (hc_cached_ids hc) /\
  forall id, id ∈ hc_cached_ids hc <-> is_Some (as_pairings s !! id).

(** What is relied on of mDNS: addresses and ports have their sizes. *)
Definition ip_addr_ok (ip : IpAddr) : Prop :=
  match ip with IpV4 o => length o = 4 | IpV6 o => length o = 16 end.
Definition event_ok (ev : ServiceEvent) : Prop :=
  match ev with
  | ServiceResolved info => Forall ip_addr_ok (rs_addresses info) /\ in_u 16 (rs_port info)
  | OtherEvent => True
  end.
Class WorldLaws (W T G : Type) `{World W T G} := {
  browse_addresses w events w' : mdns_browse w = (Ok events, w') -> Forall event_ok events
}.

Definition disc_ok (d : Discovered) : Prop := match d with DiscIp ip => addr_ok (da_addr ip) | DiscBle _ => True end.

Definition ctl_op_ok `{Generated} {T G} (op : CtlOp (T := T) (G := G)) : Prop :=
  match op with
  | CPair _ _ d _ => disc_ok d
  | CSaveState (InnerBle b _) => stored_broadcast_ok (stored_broadcast (broadcast_state b))
  | _ => True
  end.

(** * Lemmas *)

(** ** The pairings Pair Setup yields *)

Definition pairing_ok (p : AccessoryPairing) : Prop := length (ap_ltpk p) = 32 /\ str_ok (pairing_id p).

Section yielded.
Context `{C : Crypto} `{B : BigUintOps}.

Lemma finish_m6_ok key map p : ps_finish_m6 key map = Ok (Done p) -> pairing_ok p.
Proof.
  unfold ps_finish_m6, try_array. intros Hr.
  repeat (apply bind_Ok_inv in Hr as (? & ? & Hr)). injection Hr as <-. split; cbn.
  - match goal with H : (if length ?l =? 32 then _ else _) = Ok ?x |- length ?x = 32 =>
      destruct (Nat.eqb_spec (length l) 32); by simplify_eq end.
  - unfold str_ok. match goal with H : ok_or (from_utf8 ?b) _ = _ |- from_utf8 ?b <> None => by destruct (from_utf8 b) end.
Qed.

Lemma keep_not_done self (r : result CryptoError (PairSetupStep * SetupState)) p client :
  (forall step s, r = Ok (step, s) -> exists out, step = Send out) -> keep self r <> (Ok (Done p), client).
Proof. intros Hr. destruct r as [[step s]|e|x]; [|done..]. destruct (Hr step s eq_refl) as [out ->]. done. Qed.

Lemma handle_done client r p client' : handle client r = (Ok (Done p), client') -> pairing_ok p.
Proof.
  unfold handle. destruct (map ← _; _ ← _; Ok map) as [map|e|x]; [|done..].
  destruct (ps_state client) as [| |? ?|key|] eqn:Es; try done.
  - intros Hr. exfalso. revert Hr. apply keep_not_done. intros step s Hm. unfold ps_handle_m2 in Hm.
    repeat (apply bind_Ok_inv in Hm as (? & _ & Hm)). injection Hm as <- _. by eexists.
  - intros Hr. exfalso. revert Hr. apply keep_not_done. intros step s Hm. unfold ps_handle_m4 in Hm.
    apply bind_Ok_inv in Hm as (? & _ & Hm). rewrite Es in Hm.
    repeat (apply bind_Ok_inv in Hm as (? & _ & Hm)). injection Hm as <- _. by eexists.
  - unfold ps_handle_m6. rewrite Es. destruct (ps_expect_state map STATE_M6); intros [= Hr _]. by eapply finish_m6_ok.
Qed.

Lemma yields_ip_setup {S : Type} `{PairingConn S} fuel client request : yields (ip_setup_loop (T := S) fuel client request) pairing_ok.
Proof.
  revert client request. induction fuel as [|fuel IH]; intros client request; cbn [ip_setup_loop]; [by apply yields_lift|].
  do 2 (apply yields_bind_any; intros ?). destruct (handle client _) as [step client'] eqn:Hh.
  eapply (yields_bind _ _ (fun st => step = Ok st)).
  { apply yields_lift. intros st Hst. destruct step; simplify_eq/=; done. }
  intros st ->. destruct st as [next|p]; [apply IH|]. apply yields_ret. by eapply handle_done.
Qed.

Lemma yields_ble_setup {S : Type} `{Gatt S} char_uuid iid frag fuel tid client out :
  yields (ble_setup_loop (W := S) char_uuid iid frag fuel tid client out) pairing_ok.
Proof.
  revert tid client out. induction fuel as [|fuel IH]; intros tid client out; cbn [ble_setup_loop]; [by apply yields_lift|].
  apply yields_bind_any; intros ?. destruct (handle client _) as [step client'] eqn:Hh.
  eapply (yields_bind _ _ (fun st => step = Ok st)).
  { apply yields_lift. intros st Hst. destruct step; simplify_eq/=; done. }
  intros st ->. destruct st as [next|p]; [apply IH|]. apply yields_ret. by eapply handle_done.
Qed.

Lemma yields_ip_pair {S L : Type} `{!PairingConn (L * S)} `{!Dialer S L} a secret (conn : L) code controller :
  yields (ip_pair (W := S) a secret conn code controller) (fun ps => pairing_ok ps.1).
Proof.
  unfold ip_pair. eapply (yields_bind _ _ (fun pc => pairing_ok pc.1)).
  { apply yields_on_local. unfold run_pair_setup. apply yields_bind_any. intros client. destruct (start client). apply yields_ip_setup. }
  intros [p c] Hp. apply yields_bind_any. intros session. by apply yields_ret.
Qed.

(** ** The accessories a BLE connection yields *)

Context {CL : CryptoLaws C} {S : Type} `{Gatt S} `{Build} `{Generated}.

Definition fresh_accessory (keypair : ControllerKeypair) (pairing : AccessoryPairing) (gsn : Z) (b : BleAccessory) : Prop :=
  rv_keypair (ba_reviver b) = keypair /\ rv_pairing (ba_reviver b) = pairing /\ ba_last_gsn b = gsn /\
  length (bk (ba_broadcast_key b)) = 32.

Lemma yields_mint secret keypair pairing services iid frag :
  yields (mint_session (W := S) secret keypair pairing services iid frag) (fun r => length (bk r.1.2) = 32).
Proof.
  unfold mint_session. eapply (yields_bind _ _ (fun sb => length (bk sb.2) = 32)).
  - unfold ble_pair_verify. destruct (pv_start _) as [out client]. apply yields_bind_any. intros [keys client'].
    eapply (yields_bind _ _ (fun bkey => length (bk bkey) = 32)).
    + apply yields_lift. intros key Hk. unfold broadcast_key, broadcast_derive, hkdf_sha512 in Hk.
      destruct (shared_secret client') as [shared|]; [|done]. cbn in Hk.
      match type of Hk with context [hkdf_expand ?k ?s ?i 32] => destruct (hkdf_total k s i 32) as (o & Ho & Hl); [lia|] end.
      rewrite Ho in Hk. by simplify_eq/=.
    + intros bkey Hb. by apply yields_ret.
  - intros [session bkey] Hb. apply yields_bind_any. intros session'. apply yields_bind_any. intros g. by apply yields_ret.
Qed.

Lemma yields_build secret keypair pairing gsn :
  yields (verify_and_build (W := S) secret keypair pairing gsn) (fresh_accessory keypair pairing gsn).
Proof.
  unfold verify_and_build. do 4 (apply yields_bind_any; intros ?).
  eapply yields_bind; [apply yields_mint|]. intros [[session bkey] g] Hb. apply yields_bind_any. intros iid.
  by apply yields_ret.
Qed.

Lemma yields_ble_pair a secret keypair code :
  yields (ble_pair (W := S) a secret keypair code)
    (fun r => let '(b, p, st) := r in pairing_ok p /\ fresh_accessory keypair p 0 b /\ st = broadcast_state b).
Proof.
  unfold ble_pair. do 2 (apply yields_bind_any; intros ?).
  eapply (yields_bind _ _ pairing_ok).
  { unfold ble_pair_setup. apply yields_bind_any. intros client. destruct (start client). apply yields_ble_setup. }
  intros p Hp. eapply yields_bind; [apply yields_build|]. intros b Hb. by apply yields_ret.
Qed.

Lemma yields_ble_connect secret keypair pairing broadcast :
  yields (ble_connect (W := S) secret keypair pairing broadcast)
    (fun b => rv_keypair (ba_reviver b) = keypair /\ rv_pairing (ba_reviver b) = pairing).
Proof. intros s b s' Hr. by destruct (yields_build secret keypair pairing _ s b s' Hr) as (? & ? & _). Qed.
End yielded.

(** ** Stored pairings by id *)

Lemma find_stored_resolves ps id : NoDup (sa_id <$> ps) ->
  match find_stored ps id with
  | Some a => resolves (by_id ps) id a
  | None => unresolved (by_id ps) id
  end.
Proof.
  intros Hn.
  assert (forall a, a ∈ ps -> by_id ps !! sa_id a = Some a) as Hby by (intros a Ha; by apply by_id_lookup).
  unfold find_stored. destruct (List.find _ ps) as [a|] eqn:Hf.
  { apply List.find_some in Hf as [Hin Hs]. split; [by apply Hby, list_elem_of_In|by left]. }
  assert (forall i b, by_id ps !! i = Some b -> same_id (sa_id b) id = false) as Hno.
  { intros i b [Hb _]%by_id_lookup; [|done]. by apply (List.find_none _ _ Hf), list_elem_of_In. }
  destruct (parse_device_id id) as [d|] eqn:Hp; cbn [mbind option_bind].
  - destruct (List.find (has_device_id d) ps) as [a|] eqn:Hd.
    + apply List.find_some in Hd as [Hin Hs]. split; [by apply Hby, list_elem_of_In|]. right. split; [done|]. by exists d.
    + intros a [Ha [Hs|[_ (d' & Hd' & Hh)]]]; [by rewrite (Hno _ _ Ha) in Hs|]. simplify_eq.
      apply by_id_lookup in Ha as [Ha _]; [|done]. apply list_elem_of_In, (List.find_none _ _ Hd) in Ha. congruence.
  - intros a [Ha [Hs|[_ (d' & Hd' & Hh)]]]; [by rewrite (Hno _ _ Ha) in Hs|congruence].
Qed.

Section store.
Context `{PSL : PairingStoreLaws St}.

Lemma store_loads st s : store_holds st s ->
  match ps_load_pairings st with
  | (Ok ps, st') => store_holds st' s /\ NoDup (sa_id <$> ps) /\ by_id ps = as_pairings s
  | (Err _, st') => store_holds st' s
  | (Fault _, _) => False
  end.
Proof.
  intros Hs. pose proof (store_law OpLoadPairings st s Hs I) as Hl. cbn [run_store] in Hl. run_in Hl.
  destruct (ps_load_pairings st) as [[ps|e|x] st']; [|done..]. destruct Hl as (s' & Hsp & Hh).
  inversion Hsp as [|s0 ps0 Hn Hby|o f s0 Hf]; subst; done.
Qed.

Lemma store_loads_controller st s : store_holds st s ->
  match ps_load_controller st with
  | (Ok k, st') => store_holds st' s /\ as_controller s = k
  | (Err _, st') => store_holds st' s
  | (Fault _, _) => False
  end.
Proof.
  intros Hs. pose proof (store_law OpLoadController st s Hs I) as Hl. cbn [run_store] in Hl. run_in Hl.
  destruct (ps_load_controller st) as [[k|e|x] st']; [|done..]. destruct Hl as (s' & Hsp & Hh).
  inversion Hsp as [s0| |o f s0 Hf]; subst; done.
Qed.

(** A mutation takes effect exactly when it answers [Ok]. *)
Lemma store_mutates {A} o f (m : stateful St PairingError A) st s :
  spec_mutation o = Some f -> run_store o = (_ ← m; mret ValUnit) -> op_wf o -> store_holds st s ->
  match m st with
  | (Ok _, st') => store_holds st' (f s)
  | (Err _, st') => store_holds st' s
  | (Fault _, _) => False
  end.
Proof.
  intros Hf Hr Hw Hs. pose proof (store_law o st s Hs Hw) as Hl. rewrite Hr in Hl. run_in Hl.
  destruct (m st) as [[u|e|x] st']; [|done..]. destruct Hl as (s' & Hsp & Hh).
  inversion Hsp; subst; cbn in Hf; simplify_eq; done.
Qed.

Lemma load_stored_spec id st s : store_holds st s ->
  match load_stored id st with
  | (Ok a, st') => store_holds st' s /\ resolves (as_pairings s) id a
  | (Err e, st') => store_holds st' s /\
      match e with HapUnknownAccessory _ => unresolved (as_pairings s) id | _ => True end
  | (Fault _, _) => False
  end.
Proof.
  intros Hs. pose proof (store_loads st s Hs) as Hl. unfold load_stored, with_err. run.
  destruct (ps_load_pairings st) as [[ps|e|x] st']; cbn; [|done..]. destruct Hl as (Hh & Hn & Hby).
  pose proof (find_stored_resolves ps id Hn) as Hf. rewrite Hby in Hf. by destruct (find_stored ps id).
Qed.
End store.

(** ** Calls of the controller *)

Section calls.
Context `{C : Crypto} `{B : BigUintOps} `{Base64Engine} `{Build} `{Generated}.
Context {St W T G : Type} `{PSL : PairingStoreLaws St} `{WL : WorldLaws W T G}.
Local Abbreviation M := (stateful (HapController * (St * W)) HapError).

(** A call in a controller whose store holds [s]: it keeps the identity and the snapshot;
    unless it returns a value, the store still holds [s]. *)
Definition call {A} (kp : ControllerKeypair) (s : AStore) (m : M A) (Q : A -> AStore -> Prop) : Prop :=
  forall hc st w, ctl_inv hc st s -> hc_keypair hc = kp ->
    let '(r, (hc', (st', _))) := m (hc, (st, w)) in
    hc_keypair hc' = kp /\
    match r with Ok a => exists s', ctl_inv hc' st' s' /\ Q a s' | _ => ctl_inv hc' st' s end.

Lemma call_bind {A A'} kp s (m : M A) (f : A -> M A') P Q :
  call kp s m (fun a s' => s' = s /\ P a) -> (forall a, P a -> call kp s (f a) Q) -> call kp s (m ≫= f) Q.
Proof.
  intros Hm Hf hc st w Hi Hk. specialize (Hm hc st w Hi Hk). run.
  destruct (m (hc, (st, w))) as [[a|e|x] [hc1 [st1 w1]]]; [|done..]. destruct Hm as [Hk1 (s' & Hi1 & -> & HP)]. by apply Hf.
Qed.

Lemma call_ret {A} kp s (a : A) (Q : A -> AStore -> Prop) : Q a s -> call kp s (mret a) Q.
Proof. intros HQ hc st w Hi Hk. split; [done|]. by exists s. Qed.

Lemma call_lift {A} kp s (r : result HapError A) (P : A -> Prop) :
  (forall a, r = Ok a -> P a) -> call kp s (lift r) (fun a s' => s' = s /\ P a).
Proof. intros HP hc st w Hi Hk. split; [done|]. destruct r as [a|e|x]; [|done..]. exists s. split; [done|]. split; [done|]. by apply HP. Qed.

Lemma call_fails {A} kp s e (Q : A -> AStore -> Prop) : call kp s (lift (Err e)) Q.
Proof. by intros hc st w Hi Hk. Qed.

Lemma call_self kp s : call kp s self (fun hc s' => s' = s /\ hc_keypair hc = kp).
Proof. intros hc st w Hi Hk. split; [done|]. by exists s. Qed.

Lemma call_world {A} kp s (m : stateful W HapError A) (P : A -> Prop) :
  yields m P -> call kp s (on_world m) (fun a s' => s' = s /\ P a).
Proof.
  intros Hm hc st w Hi Hk. unfold on_world. destruct (m w) as [[a|e|x] w'] eqn:Em; (split; [done|]); [|done..].
  exists s. split; [done|]. split; [done|]. by eapply Hm.
Qed.

Lemma inv_holds hc st st' s : ctl_inv hc st s -> store_holds st' s -> ctl_inv hc st' s.
Proof. intros (_ & ? & ? & ?) Hs. done. Qed.

Lemma call_load kp s id : call kp s (on_stored (load_stored id)) (fun a s' => s' = s /\ resolves (as_pairings s) id a).
Proof.
  intros hc st w Hi Hk. pose proof (load_stored_spec id st s (proj1 Hi)) as Hl. unfold on_stored.
  destruct (load_stored id st) as [[a|e|x] st']; (split; [done|]); [|apply (inv_holds hc st); [done|apply Hl]|done].
  destruct Hl as [Hs Hr]. exists s. split; [by eapply inv_holds|done].
Qed.

Lemma resolves_ok s st id a : store_holds st s -> resolves (as_pairings s) id a -> stored_ok a.
Proof. intros Hs [Ha _]. apply store_holds_ok in Hs as [Hm _]. by destruct (Hm _ _ Ha). Qed.

Lemma call_load_ok kp s id :
  call kp s (on_stored (load_stored id)) (fun a s' => s' = s /\ (resolves (as_pairings s) id a /\ stored_ok a)).
Proof.
  intros hc st w Hi Hk. pose proof (call_load kp s id hc st w Hi Hk) as Hl.
  destruct (on_stored _ _) as [[a|e|x] [hc1 [st1 w1]]]; [|done..]. destruct Hl as [Hk1 (s' & Hi1 & -> & Hr)].
  split; [done|]. exists s. split; [done|]. split; [done|]. split; [done|]. by eapply resolves_ok; [apply Hi|].
Qed.

(** Recording a pairing and its id. *)
Lemma inv_record hc st st' s a : ctl_inv hc st s -> store_holds st' (with_pairings <[sa_id a := a]> s) ->
  ctl_inv (hc_set_ids (remember (sa_id a) (hc_cached_ids hc)) hc) st' (with_pairings <[sa_id a := a]> s).
Proof.
  intros (_ & Hc & Hn & Hids) Hs. split; [done|]. split; [done|].
  cbn [hc_set_ids hc_cached_ids with_pairings as_pairings]. unfold remember. case_bool_decide as Hin.
  - split; [done|]. intros id. rewrite Hids, lookup_insert_is_Some'. split; [by right|].
    intros [<-|?]; [|done]. by apply Hids.
  - split.
    + apply NoDup_app. split; [done|]. split; [|apply NoDup_singleton]. intros id Hid ->%list_elem_of_singleton. done.
    + intros id. rewrite elem_of_app, list_elem_of_singleton, Hids, lookup_insert_is_Some'. naive_solver.
Qed.

Lemma call_record {A} kp s a (x : A) (Q : A -> AStore -> Prop) :
  stored_ok a -> Q x (with_pairings <[sa_id a := a]> s) ->
  call kp s (_ ← on_store (ps_save_pairing a); _ ← set_ids (remember (sa_id a)); mret x) Q.
Proof.
  intros Ha HQ hc st w Hi Hk.
  pose proof (store_mutates (OpSavePairing a) _ (ps_save_pairing a) st s eq_refl eq_refl Ha (proj1 Hi)) as Hl.
  unfold on_store, set_ids. run. destruct (ps_save_pairing a st) as [[u|e|f] st']; cbn [map_err]; [|by split; [|apply (inv_holds hc st)]|done].
  cbn [fst snd]. split; [done|]. eexists. split; [|exact HQ]. by apply (inv_record hc st).
Qed.

(** Deleting a pairing and its id. *)
Lemma call_delete kp s id (Q : () -> AStore -> Prop) :
  Q () (with_pairings (delete id) s) ->
  call kp s (_ ← on_store (ps_delete_pairing id); set_ids (filter (fun i => i <> id))) Q.
Proof.
  intros HQ hc st w Hi Hk.
  pose proof (store_mutates (OpDeletePairing id) _ (ps_delete_pairing id) st s eq_refl eq_refl I (proj1 Hi)) as Hl.
  unfold on_store, set_ids. run. destruct (ps_delete_pairing id st) as [[u|e|f] st']; cbn [map_err]; [|by split; [|apply (inv_holds hc st)]|done].
  cbn [fst snd]. split; [done|]. eexists. split; [|exact HQ]. destruct Hi as (_ & Hc & Hn & Hids).
  split; [done|]. split; [done|]. cbn [hc_set_ids hc_cached_ids with_pairings as_pairings]. split; [by apply NoDup_filter|].
  intros i. rewrite list_elem_of_filter, Hids, lookup_delete_is_Some. naive_solver.
Qed.
Lemma call_map {A A'} kp s (m : M A) (f : A -> A') Q :
  call kp s m (fun a s' => Q (f a) s') -> call kp s (a ← m; mret (f a)) Q.
Proof.
  intros Hm hc st w Hi Hk. specialize (Hm hc st w Hi Hk). run.
  by destruct (m (hc, (st, w))) as [[a|e|x] [hc1 [st1 w1]]].
Qed.

Lemma call_world_any {A} kp s (m : stateful W HapError A) : call kp s (on_world m) (fun _ s' => s' = s /\ True).
Proof. by apply call_world. Qed.

(** Rewriting a stored record. *)
Lemma call_update kp s a (Q : () -> AStore -> Prop) :
  stored_ok a -> is_Some (as_pairings s !! sa_id a) -> Q () (with_pairings <[sa_id a := a]> s) ->
  call kp s (on_store (ps_save_pairing a)) Q.
Proof.
  intros Ha Hin HQ hc st w Hi Hk.
  pose proof (store_mutates (OpSavePairing a) _ (ps_save_pairing a) st s eq_refl eq_refl Ha (proj1 Hi)) as Hl.
  unfold on_store. destruct (ps_save_pairing a st) as [[[]|e|f] st']; cbn [map_err]; [|by split; [|apply (inv_holds hc st)]|done].
  split; [done|]. eexists. split; [|exact HQ]. destruct Hi as (_ & Hc & Hn & Hids).
  split; [done|]. split; [done|]. split; [done|]. intros id. cbn [with_pairings as_pairings].
  rewrite Hids, lookup_insert_is_Some'. split; [by right|]. by intros [<-|?].
Qed.

(** [forget_pairing]'s look at the store. *)
Lemma call_lookup kp s id :
  call kp s (attempt (on_stored (load_stored id))) (fun r s' => s' = s /\
    match r with
    | inl a => resolves (as_pairings s) id a
    | inr (HapUnknownAccessory _) => unresolved (as_pairings s) id
    | inr _ => True
    end).
Proof.
  intros hc st w Hi Hk. pose proof (load_stored_spec id st s (proj1 Hi)) as Hl. unfold attempt, on_stored.
  destruct (load_stored id st) as [[a|e|x] st']; [| |done]; destruct Hl as [Hs Hr]; (split; [done|]); exists s;
    (split; [by apply (inv_holds hc st)|done]).
Qed.

Lemma call_drop_unknown kp s id (Q : () -> AStore -> Prop) :
  unresolved (as_pairings s) id -> Q () s -> call kp s (set_ids (filter (fun i => same_id i id = false))) Q.
Proof.
  intros Hu HQ hc st w Hi Hk. split; [done|]. exists s. split; [|done]. destruct Hi as (Hs & Hc & Hn & Hids).
  split; [done|]. split; [done|]. cbn [hc_set_ids hc_cached_ids fst snd]. split; [by apply NoDup_filter|].
  intros i. rewrite list_elem_of_filter, Hids. split; [by intros [_ ?]|]. intros [b Hb]. split; [|by eexists].
  destruct (proj1 (store_holds_ok _ _ Hs) _ _ Hb) as [<- _]. destruct (same_id (sa_id b) id) eqn:Hsame; [|done].
  destruct (Hu b). split; [done|by left].
Qed.

(** ** The operations *)

Context {CL : CryptoLaws C}.
Local Abbreviation Handle := (AccessoryHandle (IpBackend T) G).

Lemma resolved_addr_ok ev acc : event_ok ev -> resolved ev = Some acc -> addr_ok (da_addr acc).
Proof.
  destruct ev as [info|]; [|done]. intros [Ha Hp]. cbn. unfold pick_addr. intros (addr & Hpick & Hr)%bind_Some.
  assert (da_addr acc = addr) as ->.
  { destruct (parse_txt _ addr _) as [acc'|e|x] eqn:Hx; simplify_eq. unfold parse_txt in Hx.
    repeat (apply bind_Ok_inv in Hx as (? & _ & Hx)). by injection Hx as <-. }
  apply bind_Some in Hpick as (ip & Hip & [= <-]).
  assert (ip ∈ rs_addresses info) as Hin.
  { destruct (List.find _ _) as [ip'|] eqn:Hf; [|by apply head_Some_elem_of in Hip]. simplify_eq.
    apply List.find_some in Hf as [Hf _]. by apply list_elem_of_In. }
  rewrite Forall_forall in Ha. specialize (Ha ip Hin). destruct ip; cbn in *; [done|]. by repeat split; try apply Hp.
Qed.
Lemma discover_found_ok events found :
  Forall event_ok events -> map_Forall (fun _ acc => addr_ok (da_addr acc)) found ->
  map_Forall (fun _ acc => addr_ok (da_addr acc)) (discover_found events found).
Proof.
  intros Hev. revert found. induction Hev as [|ev events He _ IH]; intros found Hf; [done|]. cbn [discover_found]. apply IH.
  destruct (resolved ev) as [acc|] eqn:Hr; [|done]. apply map_Forall_insert_2; [|done]. by eapply resolved_addr_ok.
Qed.

Lemma ip_discover_ok events found : Forall event_ok events -> ip_discover (Ok events) = Ok found ->
  Forall (fun acc => addr_ok (da_addr acc)) found.
Proof.
  intros He [= <-]. pose proof (discover_found_ok events ∅ He (map_Forall_empty _)) as Hm.
  apply map_Forall_to_list in Hm. apply Forall_fmap. eapply Forall_impl; [exact Hm|]. by intros [id acc].
Qed.

Lemma yields_discover : yields (world_discover (W := W)) (Forall disc_ok).
Proof.
  intros w found w' Hr. unfold world_discover in Hr. destruct (mdns_browse w) as [events w1] eqn:Hb.
  destruct (ble_heard w1) as [advs w2]. injection Hr as Hr _.
  destruct (hc_discover _ _) as [l|e|x] eqn:Hd; simplify_eq/=. unfold hc_discover in Hd.
  assert (forall ds, Forall disc_ok (DiscBle <$> ds)) as Hble by (intros ds; by apply Forall_fmap, Forall_true).
  destruct (ip_discover events) as [ips|e|x] eqn:Hi.
  - assert (Forall disc_ok (DiscIp <$> ips)) as Hips.
    { destruct events as [evs|e|x]; [|done..]. apply Forall_fmap. eapply ip_discover_ok; [|exact Hi].
      by eapply browse_addresses. }
    destruct (scan advs) as [bs|e|x]; simplify_eq; [|done]. apply Forall_app. by split.
  - by destruct (scan advs) as [bs|e'|x]; simplify_eq.
  - done.
Qed.

Lemma call_pair_ip kp s a secret d code : addr_ok (da_addr d) ->
  call kp s (pair_ip a secret d code) (fun h s' => paired_with kp (DiscIp d) h s s').
Proof.
  intros Hd. unfold pair_ip. eapply call_bind; [by apply (call_lift _ _ _ (fun _ => True))|]. intros normalized _.
  eapply call_bind; [apply call_self|]. intros hc Hk. eapply call_bind; [apply call_world_any|]. intros conn _.
  eapply call_bind; [apply call_world, yields_with_err, yields_ip_pair|]. intros [p session] [Hl Hs]. cbn [fst] in *.
  assert (stored_ok {| sa_pairing := p; sa_transport := StoredIp (da_addr d) |}) as Hst by (repeat split; done).
  apply call_record; [done|]. eexists. split; [exact Hst|]. split; [done|]. split; [|done]. by rewrite Hk.
Qed.

Lemma call_pair_ble kp s a secret d code :
  call kp s (pair_ble a secret d code) (fun h s' => paired_with kp (DiscBle d) h s s').
Proof.
  unfold pair_ble. eapply call_bind.
  { apply (call_lift _ _ _ (fun id => parse_device_id (db_device_id d) = Some id)). intros id.
    by destruct (parse_device_id (db_device_id d)); intros [= <-]. }
  intros dev Hdev. eapply call_bind; [apply call_self|]. intros hc Hk.
  eapply call_bind; [apply call_world_any|]. intros gatt _.
  eapply call_bind; [apply call_world, yields_with_err, yields_on_local, yields_ble_pair|].
  intros [[[b p] st] gatt'] ([Hl Hs] & (Hkp & Hpr & Hg & Hkey) & ->).
  assert (stored_ok {| sa_pairing := p; sa_transport := StoredBle dev (Some (stored_broadcast (broadcast_state b))) |}) as Hst.
  { split; [split; [done|split; [exact (parse_device_id_length _ _ Hdev)|done]]|]. split; [done|]. split; [done|].
    cbn. rewrite Hg. unfold in_u. lia. }
  apply call_record; [done|]. eexists. split; [exact Hst|]. split; [|split; [|done]].
  - exists dev. split; [done|]. unfold stored_broadcast, broadcast_state. cbn. by rewrite Hg.
  - split; [done|]. split; [|done]. by rewrite <- Hk.
Qed.

Lemma call_pair kp s a secret d code : disc_ok d ->
  call kp s (pair a secret d code) (fun h s' => paired_with kp d h s s').
Proof. intros Hd. destruct d; [by apply call_pair_ip|apply call_pair_ble]. Qed.

Lemma candidate_found found payload kind d : d ∈ candidates_of found payload kind -> d ∈ found.
Proof. unfold candidates_of. rewrite !list_elem_of_filter. tauto. Qed.

Lemma select_match_found found payload d : select_match found payload = SelOne d -> d ∈ found.
Proof.
  unfold select_match. intros Hs.
  destruct (candidates_of found payload Exact) as [|d1 [|d2 l]] eqn:He; [|simplify_eq|done].
  - destruct (candidates_of found payload Category) as [|d1 [|d2 l]] eqn:Hc; simplify_eq.
    apply (candidate_found _ payload Category). rewrite Hc. by left.
  - apply (candidate_found _ payload Exact). rewrite He. by left.
Qed.

Lemma call_rounds kp s a secret payload rounds last :
  call kp s (payload_rounds a secret payload rounds last)
    (fun h s' => exists found d, select_match found payload = SelOne d /\ paired_with kp d h s s').
Proof.
  revert last. induction rounds as [|rounds IH]; intros last; cbn [payload_rounds];
    (eapply call_bind; [apply call_world, yields_discover|]); intros found Hf;
    destruct (select_match found payload) as [d| |ids] eqn:Hs; try apply IH; try apply call_fails.
  all: intros hc st w Hi Hk; pose proof (select_match_found _ _ _ Hs) as Hin; rewrite Forall_forall in Hf;
    pose proof (call_pair kp s a secret d (sp_setup_code payload) (Hf _ Hin) hc st w Hi Hk) as Hc;
    destruct (pair _ _ _ _ _) as [[h|e|x] [hc1 [st1 w1]]]; [|done..]; destruct Hc as [Hk1 (s' & Hi1 & Hp)];
    split; [done|]; exists s'; split; [done|]; by exists found, d.
Qed.

Lemma call_connect kp s secret id :
  call kp s (connect secret id) (fun h s' => s' = s /\ exists a, resolves (as_pairings s) id a /\ handle_for kp a h).
Proof.
  unfold connect. eapply call_bind; [apply call_load|]. intros a Ha. eapply call_bind; [apply call_self|]. intros hc Hk.
  destruct (sa_transport a) as [addr|dev b] eqn:Ht.
  - apply call_world. unfold connect_ip. apply yields_bind_any. intros session. apply yields_ret. exists a. split; [done|].
    unfold handle_for. by rewrite Ht, Hk.
  - apply call_world. unfold connect_ble. do 3 (apply yields_bind_any; intros ?).
    eapply yields_bind; [apply yields_with_err, yields_on_local, yields_ble_connect|]. intros [acc g] [Hkp Hpr].
    apply yields_ret. exists a. split; [done|]. unfold handle_for. rewrite Ht. cbn in *. by rewrite Hkp, Hpr.
Qed.

Lemma call_remove kp s secret secret' id :
  call kp s (remove_pairing secret secret' id)
    (fun _ s' => exists a, resolves (as_pairings s) id a /\ s' = with_pairings (delete (sa_id a)) s).
Proof.
  unfold remove_pairing. eapply call_bind; [apply call_load|]. intros a Ha. eapply call_bind; [apply call_self|]. intros hc Hk.
  eapply (call_bind _ _ _ _ (fun _ => True)).
  - destruct (sa_transport a); [apply call_world_any|]. eapply call_bind; [apply call_connect|]. intros h _.
    destruct (as_ble h) as [[b g]|]; [|apply call_fails]. eapply call_bind; [apply call_world_any|]. intros _ _. by apply call_ret.
  - intros _ _. apply call_delete. by exists a.
Qed.

Lemma call_forget kp s id :
  call kp s (forget_pairing id) (fun _ s' =>
    (exists a, resolves (as_pairings s) id a /\ s' = with_pairings (delete (sa_id a)) s) \/
    unresolved (as_pairings s) id /\ s' = s).
Proof.
  unfold forget_pairing. eapply call_bind; [apply call_lookup|]. intros [a|e] Hr.
  - apply call_delete. left. by exists a.
  - destruct e; try apply call_fails. apply call_drop_unknown; [done|]. by right.
Qed.

Lemma call_admin {A} kp s secret id (what : string) (m : stateful ((SessionKeys * T) * W) PairingError A) :
  call kp s (stored ← on_stored (load_stored id); hc ← self;
             if is_ble stored then lift (Err (UnsupportedByTransport what))
             else on_world (admin_request secret stored (hc_keypair hc) m))
    (fun _ s' => s' = s /\ exists a, resolves (as_pairings s) id a /\ is_ble a = false).
Proof.
  eapply call_bind; [apply call_load|]. intros a Ha. eapply call_bind; [apply call_self|]. intros hc Hk.
  destruct (is_ble a) eqn:Hb; [apply call_fails|]. apply call_world. intros w x w' _. by exists a.
Qed.

Lemma alter_insert_found {A} (m : gmap bytes A) f i x : m !! i = Some x -> alter f i m = <[i := f x]> m.
Proof.
  intros Hx. apply map_eq. intros j. destruct (decide (i = j)) as [->|Hne].
  - by rewrite lookup_alter_eq, Hx, lookup_insert_eq.
  - by rewrite lookup_alter_ne, lookup_insert_ne.
Qed.

Lemma call_save_state kp s (h : Handle) :
  match h with InnerBle b _ => stored_broadcast_ok (stored_broadcast (broadcast_state b)) | _ => True end ->
  call kp s (save_state h) (fun _ s' =>
    match h with
    | InnerIp _ _ => s' = s
    | InnerBle b _ => exists a, resolves (as_pairings s) (ble_pairing_id b) a /\
        s' = with_pairings (alter (set_broadcast (stored_broadcast (broadcast_state b))) (sa_id a)) s
    end).
Proof.
  intros Hh. unfold save_state. destruct h as [h u|b g]; cbn [ah_pairing_id ah_broadcast_state]; [by apply call_ret|].
  eapply call_bind; [apply (call_load_ok kp s)|]. intros a [Ha Hok].
  set (a' := match sa_transport a with StoredIp _ => _ | StoredBle _ _ => _ end).
  assert (a' = set_broadcast (stored_broadcast (broadcast_state b)) a /\ sa_id a' = sa_id a) as [Hset Hid]
    by (unfold a', set_broadcast; by destruct (sa_transport a)).
  assert (stored_ok a') as Hok'.
  { unfold a'. destruct a as [p [addr|dev old]]; cbn in *; [done|]. destruct Hok as ([Hl [Hd _]] & Hs & _).
    split; [split; [done|split; [done|apply Hh]]|]. done. }
  apply call_update; [done|rewrite Hid; by eexists; apply Ha|]. exists a. split; [done|].
  unfold with_pairings. f_equal. rewrite (alter_insert_found _ _ _ a) by apply Ha. by rewrite Hid, Hset.
Qed.
Lemma call_conseq {A} kp s (m : M A) (Q Q' : A -> AStore -> Prop) :
  call kp s m Q -> (forall a s', Q a s' -> Q' a s') -> call kp s m Q'.
Proof.
  intros Hm HQ hc st w Hi Hk. specialize (Hm hc st w Hi Hk).
  destruct (m (hc, (st, w))) as [[a|e|x] [hc1 [st1 w1]]]; [|done..]. destruct Hm as [Hk1 (s' & Hi1 & Hq)]. naive_solver.
Qed.

Lemma call_run kp s op : ctl_op_ok op -> call kp s (run_ctl (T := T) (G := G) op) (fun v s' => ctl_spec kp op s (Some v) s').
Proof.
  intros Hok.
  destruct op as [|a secret d code|a secret payload rounds|secret id|secret secret' id|id|secret id|secret id cid key admin|d|h];
    cbn [run_ctl ctl_op_ok] in *; apply call_map.
  - eapply call_conseq; [apply call_world_any|]. intros found s' [-> _]. constructor.
  - eapply call_conseq; [by apply call_pair|]. intros h s' Hp. by constructor.
  - eapply call_conseq; [apply call_rounds|]. intros h s' (found & d & Hs & Hp). by econstructor.
  - eapply call_conseq; [apply call_connect|]. intros h s' (-> & a & ? & ?). by econstructor.
  - eapply call_conseq; [apply call_remove|]. intros [] s' (a & ? & ->). by econstructor.
  - eapply call_conseq; [apply call_forget|]. intros [] s' [(a & ? & ->)|[? ->]]; by econstructor.
  - eapply call_conseq; [apply call_admin|]. intros infos s' (-> & a & ? & ?). by econstructor.
  - eapply call_conseq; [apply call_admin|]. intros [] s' (-> & a & ? & ?). by econstructor.
  - destruct d as [ip|ble]; [|apply call_fails]. eapply call_conseq; [apply call_world_any|]. intros [] s' [-> _]. constructor.
  - eapply call_conseq; [by apply call_save_state; destruct h|]. destruct h as [h u|b g].
    + intros [] s' ->. constructor.
    + intros [] s' (a & ? & ->). by econstructor.
Qed.

Lemma run_ctls_refine ops hc st w s :
  ctl_inv hc st s -> Forall ctl_op_ok ops ->
  let '(rs, (hc', (st', _))) := run_ctls (T := T) (G := G) ops (hc, (st, w)) in
  exists s', ctl_specs (hc_keypair hc) ops s rs s' /\ ctl_inv hc' st' s' /\ hc_keypair hc' = hc_keypair hc.
Proof.
  intros Hi Hops. revert hc st w s Hi. induction Hops as [|op ops Hop _ IH]; intros hc st w s Hi; cbn [run_ctls].
  { exists s. split; [constructor|done]. }
  pose proof (call_run (hc_keypair hc) s op Hop hc st w Hi eq_refl) as Hc.
  destruct (run_ctl op (hc, (st, w))) as [r [hc1 [st1 w1]]]. destruct Hc as [Hk Hc].
  assert (exists s1, ctl_inv hc1 st1 s1 /\ ctl_spec (hc_keypair hc) op s (match r with Ok v => Some v | _ => None end) s1)
    as (s1 & Hi1 & Hsp) by (destruct r as [v|e|x]; [done|exists s; split; [done|constructor]..]).
  specialize (IH hc1 st1 w1 s1 Hi1). rewrite Hk in IH. destruct (run_ctls ops _) as [rs [hc2 [st2 w2]]].
  destruct IH as (s2 & Hsps & Hi2 & Hk2). exists s2. split; [by econstructor|done].
Qed.

(** ** Opening a controller *)

Definition opened (kp : ControllerKeypair) (timeout : Z) (s1 : AStore) (o : result HapError HapController * St) : Prop :=
  match o with
  | (Ok hc, st') => ctl_inv hc st' s1 /\ hc_keypair hc = kp /\ hc_request_timeout hc = timeout
  | (Err _, st') => store_holds st' s1
  | (Fault _, _) => False
  end.

Lemma hc_open_spec kp timeout st s : store_holds st s -> as_controller s = Some kp ->
  opened kp timeout s (hc_open kp timeout st).
Proof.
  intros Hs Hc. pose proof (store_loads st s Hs) as Hlp. unfold hc_open, with_err. run.
  destruct (ps_load_pairings st) as [[ps|e|x] st']; [|done..]. destruct Hlp as (Hs' & Hn & Hby).
  split; [|done]. split; [done|]. split; [done|]. split; [done|].
  intros id. cbn [hc_cached_ids map_err]. rewrite <- Hby. split.
  - intros (a & -> & Ha)%list_elem_of_fmap. exists a. by apply by_id_lookup.
  - intros [a [Ha <-]%by_id_lookup]; [|done]. by apply list_elem_of_fmap_2.
Qed.

Lemma hc_new_spec seed timeout st s : store_holds st s -> length seed = 32 ->
  exists s1, as_pairings s1 = as_pairings s /\ (is_Some (as_controller s) -> s1 = s) /\
    opened (default (from_seed DEFAULT_CONTROLLER_ID seed) (as_controller s)) timeout s1 (hc_new seed timeout st).
Proof.
  intros Hs Hl. pose proof (store_loads_controller st s Hs) as Hlc. unfold hc_new, with_err. run.
  destruct (ps_load_controller st) as [[k|e|x] st1]; cbn [map_err]; [|by exists s|done].
  destruct Hlc as [Hs1 <-]. destruct (as_controller s) as [kp|] eqn:Hc.
  - exists s. split; [done|]. split; [done|]. by apply hc_open_spec.
  - set (kp := from_seed DEFAULT_CONTROLLER_ID seed).
    assert (op_wf (OpSaveController kp)) as Hw by (split; [by apply (bool_decide_unpack _)|done]).
    pose proof (store_mutates (OpSaveController kp) _ (ps_save_controller kp) st1 s eq_refl eq_refl Hw Hs1) as Hsv.
    destruct (ps_save_controller kp st1) as [[u|e|x] st2]; cbn [map_err]; [| |done].
    + eexists. split; [|split; [|by apply hc_open_spec; [exact Hsv|]]]; [done|by intros [? ?]].
    + exists s. done.
Qed.
End calls.

(** * Theorems *)

(** C9: The controller over any store, network and radio.  From a controller whose snapshot
    lists the stored ids, any sequence of calls - discovering, pairing by code or payload,
    connecting, removing, forgetting, listing, adding, identifying, saving - answers and
    changes the stored pairings as the specification says: a call that returns a value had
    exactly its effect on the record the id refers to, a call that fails or panics had none;
    the snapshot still lists the stored ids, and the identity is unchanged. *)
Theorem controller_refines `{C : Crypto} {CL : CryptoLaws C} `{B : BigUintOps} `{Base64Engine} `{Build} `{Generated}
    `{PSL : PairingStoreLaws St} `{WL : WorldLaws W T G} (ops : list (CtlOp (T := T) (G := G))) hc st w s :
  ctl_inv hc st s -> Forall ctl_op_ok ops ->
  let '(rs, (hc', (st', _))) := run_ctls ops (hc, (st, w)) in
  exists s', ctl_specs (hc_keypair hc) ops s rs s' /\ ctl_inv hc' st' s' /\ hc_keypair hc' = hc_keypair hc.
Proof. apply run_ctls_refine. Qed.

(** C20: The identity and the pairings outlive the controller.  A controller opened over a
    store uses the stored identity, or creates and stores one; whatever calls are made then,
    a controller opened later over the same store, if the store can be read, has the same
    identity and lists exactly the pairings the first one listed last. *)
Theorem controller_restart `{C : Crypto} {CL : CryptoLaws C} `{B : BigUintOps} `{Base64Engine} `{Build} `{Generated}
    `{PSL : PairingStoreLaws St} `{WL : WorldLaws W T G} seed seed' timeout timeout' (ops : list (CtlOp (T := T) (G := G)))
    st s hc st1 w rs hc' st2 w' :
  store_holds st s -> length seed = 32 -> length seed' = 32 -> Forall ctl_op_ok ops ->
  hc_new seed timeout st = (Ok hc, st1) -> run_ctls ops (hc, (st1, w)) = (rs, (hc', (st2, w'))) ->
  hc_keypair hc = default (from_seed DEFAULT_CONTROLLER_ID seed) (as_controller s) /\
  (forall id, id ∈ paired hc <-> is_Some (as_pairings s !! id)) /\
  match hc_new seed' timeout' st2 with
  | (Ok hc'', _) => hc_keypair hc'' = hc_keypair hc /\ forall id, id ∈ paired hc'' <-> id ∈ paired hc'
  | (Err _, _) => True
  | (Fault _, _) => False
  end.
Proof.
  intros Hs Hl Hl' Hops Hnew Hrun. pose proof (hc_new_spec seed timeout st s Hs Hl) as Hn. rewrite Hnew in Hn.
  destruct Hn as (s1 & Hp & _ & Hi & Hk & _). split; [done|].
  split; [rewrite <- Hp; apply Hi|].
  pose proof (run_ctls_refine ops hc st1 w s1 Hi Hops) as Hr. rewrite Hrun in Hr. destruct Hr as (s2 & _ & Hi2 & Hk2).
  destruct (hc_new_spec seed' timeout' st2 s2 (proj1 Hi2) Hl') as (s3 & Hp3 & _ & Hn2).
  destruct (hc_new seed' timeout' st2) as [[hc''|e|x] st3]; [|done..].
  destruct Hn2 as (Hi3 & Hk3 & _). destruct Hi2 as (_ & Hc2 & _ & Hids2). destruct Hi3 as (_ & _ & _ & Hids3).
  rewrite Hc2 in Hk3. split; [by rewrite Hk3|]. intros id. unfold paired. by rewrite Hids3, Hids2, Hp3.
Qed.

(** * Witnesses: [JsonFileStore] on a disk whose calls fail as listed, and a network with one
    accessory that answers every request with 204 *)

Definition demo_io (c : Call) (dr : Disk * list bool) : (bytes + IoError) * (Disk * list bool) :=
  let '(d, r) := dr in
  let failed := (inr (OtherIo "fails"), (match c with ReadCall => d | _ => set_tmp (dk_tmp d) false d end, tail r)) in
  if default false (head r) then failed
  else match c with
  | ReadCall => (match dk_file d with Some data => inl data | None => inr NotFound end, (d, tail r))
  | CreateCall => (inl [], (set_tmp (Some []) false d, tail r))
  | WriteCall data =>
      match dk_tmp d with Some t => (inl [], (set_tmp (Some (t ++ data)) false d, tail r)) | None => failed end
  | SyncCall => (inl [], (set_tmp (dk_tmp d) true d, tail r))
  | RenameCall =>
      match dk_tmp d with
      | Some t => (inl [], (renamed t d, tail r))
      | None => failed
      end
  | LockCall | UnlockCall => failed
  end.

Lemma demo_io_faithful : io_faithful demo_io.
Proof.
  intros c d r Hc. unfold demo_io.
  destruct (default false (head r)), c; cbn; repeat case_match; cbn;
    try (by constructor); try (by apply write_side_fails; set_solver); by destruct Hc; set_solver.
Qed.

#[local] Instance demo_store : PairingStore (Disk * list bool) := json_store (H := demo_codec) demo_io.
#[local] Instance demo_store_laws : PairingStoreLaws (Disk * list bool) :=
  json_store_laws (H := demo_codec) (H0 := demo_codec_laws) demo_io demo_io_faithful.
#[local] Instance demo_base64 : Base64Engine := { b64_encode bs := byteZ <$> bs; b64_decode s := Ok s }.
#[local] Instance demo_build : Build := {| overflow_checks := true; debug_assertions := true |}.

Definition demo_service : ServiceEvent :=
  ServiceResolved {| rs_fullname := str "Lamp._hap._tcp.local.";
    rs_properties := [(str "id", str "AA:BB:CC:DD:EE:FF"); (str "md", str "Lamp"); (str "c#", str "2");
                      (str "sf", str "1"); (str "ci", str "5")];
    rs_addresses := [IpV4 [x0a; x00; x00; x07]]; rs_port := 8080 |}.
#[local] Instance demo_http {T} : HttpConn T :=
  {| http_request _ _ _ _ := mret {| status := 204; content_type := []; body := [] |} |}.
#[local] Instance demo_gatt : Gatt (() * ()) := {
  gatt_write _ _ := lift (Err Disconnected);
  gatt_read _ := lift (Err Disconnected);
  gatt_instance_id _ := lift (Err Disconnected);
  gatt_enumerate := lift (Err Disconnected);
  gatt_max_write w := (20, w);
  gatt_generation w := (0%Z, w)
}.
#[local] Instance demo_world : World () () () := {
  mdns_browse := mret [demo_service];
  ble_heard := mret [];
  http_connect _ := mret ();
  connect_gatt _ := lift (Err Disconnected)
}.
#[local] Instance demo_world_laws : WorldLaws () () ().
Proof.
  constructor. intros w events w' [= <- _]. constructor; [|done]. cbn. split; [by constructor|]. by apply (bool_decide_unpack _).
Defined.

Definition demo_accessory : StoredAccessory :=
  {| sa_pairing := {| pairing_id := str "AA:BB:CC:DD:EE:FF"; ap_ltpk := replicate 32 x01 |};
     sa_transport := StoredIp (SocketV4 [x0a; x00; x00; x07] 8080) |}.
Definition demo_saved : Disk * list bool := (ps_save_controller demo_keypair (demo_disk, [])).2.
Definition demo_disk_state : Disk * list bool := (ps_save_pairing demo_accessory demo_saved).2.
Definition demo_abstract : AStore :=
  {| as_controller := Some demo_keypair; as_pairings := {[sa_id demo_accessory := demo_accessory]} |}.

Lemma saves_holds {A} o f (m : stateful (Disk * list bool) PairingError A) st s :
  spec_mutation o = Some f -> run_store o = (_ ← m; mret ValUnit) -> op_wf o -> store_holds st s ->
  (if (m st).1 is Ok _ then True else False) -> store_holds (m st).2 (f s).
Proof.
  intros Hf Hr Hw Hs Ha. pose proof (store_mutates o f m st s Hf Hr Hw Hs) as Hm.
  by destruct (m st) as [[a|e|x] st'].
Qed.

Lemma demo_empty_holds : store_holds (demo_disk, [] : list bool) {| as_controller := None; as_pairings := ∅ |}.
Proof. split; [|done]. exists document_default. split; [done|apply document_default_holds]. Qed.

Definition no_pairings : AStore := {| as_controller := Some demo_keypair; as_pairings := ∅ |}.
Lemma demo_saved_holds : store_holds demo_saved no_pairings.
Proof.
  apply (saves_holds (OpSaveController demo_keypair) _ (ps_save_controller demo_keypair) _
           {| as_controller := None; as_pairings := ∅ |} eq_refl eq_refl);
    [by split; [apply (bool_decide_unpack _)|]|apply demo_empty_holds|by vm_compute].
Qed.
Lemma demo_disk_state_holds : store_holds demo_disk_state demo_abstract.
Proof.
  apply (saves_holds (OpSavePairing demo_accessory) _ (ps_save_pairing demo_accessory) demo_saved no_pairings eq_refl eq_refl);
    [|apply demo_saved_holds|by vm_compute].
  repeat split; by apply (bool_decide_unpack _).
Qed.

Definition demo_controller : HapController :=
  {| hc_keypair := demo_keypair; hc_cached_ids := [sa_id demo_accessory]; hc_request_timeout := DEFAULT_REQUEST_TIMEOUT |}.
Definition demo_found : DiscoveredAccessory :=
  {| da_id := sa_id demo_accessory; da_name := str "Lamp"; da_addr := SocketV4 [x0a; x00; x00; x07] 8080;
     da_paired := false; da_category := 5; da_config_number := 2; da_setup_hash := None |}.
Definition demo_ctl_ops : list (CtlOp (T := ()) (G := ())) :=
  [CDiscover; CIdentify (DiscIp demo_found); CForget (str "11:22:33:44:55:66"); CConnect [x09] (str "Lamp");
   CForget (str "aa:bb:cc:dd:ee:ff")].

Lemma demo_ctl_ops_ok : Forall ctl_op_ok demo_ctl_ops.
Proof. by repeat constructor. Qed.

Lemma controller_refines_witness :
  let '(rs, (hc', (st', _))) := run_ctls (C := toy_crypto) demo_ctl_ops (demo_controller, (demo_disk_state, ())) in
  exists s', ctl_specs (hc_keypair demo_controller) demo_ctl_ops demo_abstract rs s' /\
    ctl_inv hc' st' s' /\ hc_keypair hc' = hc_keypair demo_controller.
Proof.
  apply (controller_refines (CL := toy_crypto_laws)); [|apply demo_ctl_ops_ok].
  split; [apply demo_disk_state_holds|]. split; [done|]. split; [apply NoDup_singleton|].
  intros id. cbn [hc_cached_ids demo_controller as_pairings demo_abstract]. rewrite list_elem_of_singleton. split; [intros ->; by eexists; apply lookup_singleton_eq|].
  by intros [a [-> _]%lookup_singleton_Some].
Defined.

(** The discovery, the identify and the two forgets answer; the snapshot ends empty. *)
Definition found_ids (v : CtlVal (T := ()) (G := ())) : list bytes :=
  match v with VFound found => (fun d => match d with DiscIp ip => da_id ip | DiscBle b => db_device_id b end) <$> found | _ => [] end.
Example demo_controller_run :
  let '(rs, (hc', _)) := run_ctls (C := toy_crypto) demo_ctl_ops (demo_controller, (demo_disk_state, ())) in
  List.map (option_map found_ids) rs = [Some [sa_id demo_accessory]; Some []; Some []; None; Some []] /\ paired hc' = [].
Proof. by vm_compute. Qed.

Definition demo_seed : bytes := replicate 32 x05.
Definition demo_opened := hc_new demo_seed DEFAULT_REQUEST_TIMEOUT demo_disk_state.

Lemma controller_restart_witness :
  exists hc st1 rs hc' st2, demo_opened = (Ok hc, st1) /\
    run_ctls (C := toy_crypto) demo_ctl_ops (hc, (st1, ())) = (rs, (hc', (st2, ()))) /\
    hc_keypair hc = demo_keypair /\
    (forall id, id ∈ paired hc <-> is_Some (as_pairings demo_abstract !! id)) /\
    match hc_new demo_seed 20 st2 with
    | (Ok hc'', _) => hc_keypair hc'' = hc_keypair hc /\ forall id, id ∈ paired hc'' <-> id ∈ paired hc'
    | (Err _, _) => True
    | (Fault _, _) => False
    end.
Proof.
  assert (if demo_opened.1 is Ok _ then True else False) as Hok by by vm_compute.
  destruct demo_opened as [[hc|e|x] st1] eqn:Ho; [|destruct Hok..]. exists hc, st1. destruct (run_ctls (C := toy_crypto) demo_ctl_ops (hc, (st1, ()))) as [rs [hc' [st2 []]]] eqn:Hr.
  exists rs, hc', st2. do 2 (split; [reflexivity|]).
  apply (controller_restart (CL := toy_crypto_laws) demo_seed demo_seed DEFAULT_REQUEST_TIMEOUT 20 demo_ctl_ops
           demo_disk_state demo_abstract hc st1 () rs hc' st2 ());
    [apply demo_disk_state_holds|reflexivity..|apply demo_ctl_ops_ok|exact Ho|exact Hr].
Defined.
