(* ===== verification/IpStack.v ===== *)
(** * The IP stack end to end

    The pairing drivers, the controller and the handle of an accessory against an accessory
    at the other end of the network: the pairing handlers of the reference accessory
    behind the paths of the HAP specification, and the characteristics of [Handle].  The
    theorems are proved for any network on which requests are answered ([HttpLink]), which
    the sockets of [Tcp] are. *)

From S2P Require Import ThreadPdu Coap.
From S2P Require Import Prelude Text Tlv8 Crypto Stream RecordLayer Http Session Srp PairSetup PairVerify Store StoreFs StoreApi.
From S2P Require Import Pairing Tcp DutPairing DutServer DutExchange Model Types ModelJson BlePdu BleAccessory BleEvents BleWatch Handle Unified.
From S2P Require Import Discovery SetupPayload Controller ControllerRefine.

(** ** The accessory *)

Record IpAccessory := { ia_core : Core; ia_peer : Peer }.

(** The HTTP status of a response code of the handlers. *)
Definition http_status (code : ResponseType) : Z :=
  match code with
  | Changed => 200 | BadRequest => 400 | Unauthorized => 470 | DutServer.NotFound => 404 | InternalServerError => 500
  end.

Definition tlv_reply (code : ResponseType) (payload : bytes) : Reply :=
  {| rp_status := http_status code; rp_ctype := PAIRING_TLV8; rp_body := payload |}.
Definition json_reply (r : SessionResponse) : Reply :=
  {| rp_status := sr_status r; rp_ctype := HAP_JSON; rp_body := sr_body r |}.

Section accessory.
Context `{C : Crypto} `{B : BigUintOps} `{HapPeer} `{Base64Engine}.

Definition dut_reply (r : result Empty_set (ResponseType * bytes)) : Reply :=
  match r with Ok (code, payload) => tlv_reply code payload | _ => tlv_reply InternalServerError [] end.

Definition session_keys (s : AccessorySession) : SessionKeys :=
  {| sk_read_key := as_read_key s; sk_write_key := as_write_key s |}.

(** A request in the clear: Pair Setup, or Pair Verify, which may agree the session's keys. *)
Definition serve_pairing (path body : bytes) (c : Core) : Reply * option SessionKeys * Core :=
  if bool_decide (path = PAIR_SETUP) then
    let '(r, c) := dut_pair_setup body c in (dut_reply r, None, c)
  else if bool_decide (path = PAIR_VERIFY) then
    let '(r, c) := dut_pair_verify body (set_session None c) in (dut_reply r, session_keys <$> ra_session c, c)
  else (tlv_reply DutServer.NotFound [], None, c).

#[export] Instance ip_server : HttpServer IpAccessory := {
  srv_plain method path body a :=
    let '(reply, keys, c) := serve_pairing path body (ia_core a) in (reply, keys, {| ia_core := c; ia_peer := ia_peer a |});
  srv_secure method path body a :=
    let '(r, p) := serve_http method (from_utf8_lossy path) body (ia_peer a) in
    ([], json_reply r, {| ia_core := ia_core a; ia_peer := p |})
}.
End accessory.

(** ** [Session] for [SecureSession] (hap-controller handle) *)

#[export] Instance secure_session_conn {W T : Type} `{HttpConn ((SessionKeys * T) * W)} : IpConn ((SessionKeys * T) * W) := {
  conn_request method path ctype body :=
    resp ← with_err HapTransport (http_request method (utf8_encode path) ctype body);
    mret {| sr_status := status resp; sr_body := Http.body resp |}
}.

(** ** The pairing drivers over a link *)

Section pairing.
Context `{C : Crypto} {CL : CryptoLaws C} `{B : BigUintOps} {BL : BigUintLaws B} `{HapPeer} `{Base64Engine}.
Context {W T : Type} {P : HttpConn (T * W)} {S : HttpConn ((SessionKeys * T) * W)} {HL : HttpLink W T IpAccessory}.
#[local] Existing Instance http_pairing_conn.

(** The connections carry the pairing messages. *)
Definition carries_pairing : Prop := forall path body payload,
  path ∈ [PAIR_SETUP; PAIR_VERIFY] -> small_message body -> small_message payload ->
  hl_carries (str "POST") path PAIRING_TLV8 body [] (tlv_reply Changed payload).

Definition core_of (w : W) : Core := ia_core (hl_server w).
Definition peer_of (w : W) : Peer := ia_peer (hl_server w).

Lemma post_answered t w path tlv payload keys c' :
  carries_pairing -> path ∈ [PAIR_SETUP; PAIR_VERIFY] -> hl_plain t w -> small_message tlv -> small_message payload ->
  serve_pairing path tlv (core_of w) = (tlv_reply Changed payload, keys, c') -> check_tlv_error payload = Ok () ->
  exists t' w', core_of w' = c' /\ peer_of w' = peer_of w /\
    match keys with None => hl_plain t' w' | Some k => hl_secured k t' w' end /\
    forall A (k : bytes -> stateful (T * W) PairingError A),
      (r ← post_tlv8 path tlv; _ ← lift (check_tlv_error r); k r) (t, w) = k payload (t', w').
Proof.
  intros Hca Hp Ht Hs1 Hs2 Hserve Hno.
  destruct (plain_served (str "POST") path PAIRING_TLV8 tlv t w (tlv_reply Changed payload) keys
    {| ia_core := c'; ia_peer := ia_peer (hl_server w) |} Ht) as (t' & w' & Hr & Hw & Hk).
  { cbn [srv_plain ip_server]. unfold core_of in Hserve. by rewrite Hserve. }
  { by apply Hca. }
  exists t', w'. unfold core_of, peer_of. rewrite Hw. split; [done|]. split; [done|]. split; [done|].
  intros A k. run. cbn [post_tlv8 http_pairing_conn]. unfold post_over_http, with_err. run.
  rewrite Hr. cbn [map_err reply_response Http.body tlv_reply rp_body]. by rewrite Hno.
Qed.

Lemma ip_setup_works t w code_c code_a ctl a c0 g :
  let c := core_of w in let salt := rnd_salt (draw c).1 in
  let s := with_salt_and_private g PAIR_SETUP_USERNAME (PairSetup.normalize_setup_code code_a) salt
             (from_bytes_be (rnd_b (draw c).1)) in
  carries_pairing -> hl_plain t w ->
  ra_setup_code c = Some code_a -> new_with_private code_c ctl a = Ok c0 -> hap_group = Ok g ->
  PairSetup.normalize_setup_code code_c = PairSetup.normalize_setup_code code_a ->
  short_id (kp_id ctl) -> short_id (ra_pairing_id c) -> length salt <= 64 ->
  is_Some (from_utf8 (kp_id ctl)) -> is_Some (from_utf8 (ra_pairing_id c)) ->
  (sv_b_pub s mod modulus g <> 0)%Z -> (compute_u g (cl_a_pub (srp c0)) (sv_b_pub s) <> 0)%Z ->
  exists t' w', run_pair_setup a code_c ctl (t, w) =
      (Ok {| pairing_id := ra_pairing_id c; ap_ltpk := ltpk (ra_keypair c) |}, (t', w')) /\
    core_of w' = DutExchange.paired ctl c /\ peer_of w' = peer_of w /\ hl_plain t' w'.
Proof using CL BL.
  intros c salt s Hca Ht Hcode Hnew Hg Hnorm Hid1 Hid2 Hsalt Hu1 Hu2 HB0 Hu.
  destruct (setup_exchange c code_c code_a ctl a c0 g Hcode Hnew Hg Hnorm Hid1 Hid2 Hsalt Hu1 Hu2 HB0 Hu)
    as (m2 & c1 & m3 & cl1 & m4 & c2 & m5 & cl2 & m6 & cl3 & [E1 Hm2] & [E3 Hm4] & [E5 Hm6] & Hs & N2 & N4 & N6).
  rewrite !Forall_cons in Hs. destruct Hs as (L1 & L2 & L3 & L4 & L5 & L6 & _). set (m0 := (start c0).1) in *.
  assert (forall body c payload c', dut_pair_setup body c = (Ok (Changed, payload), c') ->
    serve_pairing PAIR_SETUP body c = (tlv_reply Changed payload, None, c')) as Hserve.
  { intros body k payload k' He. unfold serve_pairing. by rewrite bool_decide_true, He. }
  destruct (post_answered t w PAIR_SETUP m0 m2 None c1) as (t1 & w1 & K1 & P1 & Ht1 & Hp1); [done|set_solver|done..|by apply Hserve|done|].
  destruct (post_answered t1 w1 PAIR_SETUP m3 m4 None c2) as (t2 & w2 & K2 & P2 & Ht2 & Hp2);
    [done|set_solver|done..|apply Hserve; by rewrite K1|done|].
  destruct (post_answered t2 w2 PAIR_SETUP m5 m6 None (DutExchange.paired ctl c)) as (t3 & w3 & K3 & P3 & Ht3 & Hp3);
    [done|set_solver|done..|apply Hserve; by rewrite K2|done|].
  exists t3, w3. split; [|split; [done|split; [congruence|done]]]. unfold run_pair_setup. rewrite Hnew. run. cbn [map_err].
  destruct (start c0) as [o cl]. cbn [fst snd] in *.
  etransitivity; [apply Hp1|]. cbv beta. rewrite Hm2.
  etransitivity; [apply Hp2|]. cbv beta. rewrite Hm4.
  etransitivity; [apply Hp3|]. cbv beta. by rewrite Hm6.
Qed.

Lemma ip_verify_works t w ctl secret :
  let c := core_of w in
  carries_pairing -> hl_plain t w -> ra_controller c = Some (kp_id ctl, ltpk ctl) ->
  short_id (kp_id ctl) -> short_id (ra_pairing_id c) ->
  exists keys t' w' s, run_pair_verify secret {| pairing_id := ra_pairing_id c; ap_ltpk := ltpk (ra_keypair c) |} ctl (t, w) =
      (Ok keys, (t', w')) /\
    core_of w' = verified s (set_session None c) /\ peer_of w' = peer_of w /\ hl_secured keys t' w'.
Proof using CL BL.
  intros c Hca Ht Hctl Hid1 Hid2.
  destruct (verify_exchange (set_session None c) ctl secret Hctl Hid1 Hid2)
    as (m2 & c1 & m3 & cl1 & m4 & keys & ek & cl2 & [E1 Hse] & Hm2 & E3 & [Hm4 Hek] & Hs & N2 & N4).
  rewrite !Forall_cons in Hs. destruct Hs as (L1 & L2 & L3 & L4 & _).
  change (ra_pairing_id (set_session None c)) with (ra_pairing_id c) in *.
  change (ra_keypair (set_session None c)) with (ra_keypair c) in *. set (cl := new_with_ephemeral ctl _ secret) in *.
  set (s := accessory_session_new _ _ _) in *.
  assert (set_session None c1 = c1) as Hc1 by (destruct c1; cbn in Hse; by subst).
  assert (forall body c payload c', dut_pair_verify body (set_session None c) = (Ok (Changed, payload), c') ->
    serve_pairing PAIR_VERIFY body c = (tlv_reply Changed payload, session_keys <$> ra_session c', c')) as Hserve.
  { intros body k payload k' He. unfold serve_pairing. by rewrite bool_decide_false, bool_decide_true, He. }
  destruct (post_answered t w PAIR_VERIFY (pv_start cl).1 m2 None c1) as (t1 & w1 & K1 & P1 & Ht1 & Hp1);
    [done|set_solver|done..|fold c; by rewrite (Hserve _ _ _ _ E1), Hse|done|].
  destruct (post_answered t1 w1 PAIR_VERIFY m3 m4 (Some keys) (verified s (set_session None c))) as (t2 & w2 & K2 & P2 & Ht2 & Hp2);
    [done|set_solver|done..|rewrite K1; rewrite <- Hc1 in E3; rewrite (Hserve _ _ _ _ E3); by destruct keys|done|].
  exists keys, t2, w2, s. split; [|split; [done|split; [congruence|done]]].
  unfold run_pair_verify, drive_pair_verify. fold cl. destruct (pv_start cl) as [m1 cl0]. cbn [fst snd] in *.
  etransitivity; [apply Hp1|]. cbv beta. rewrite Hm2. etransitivity; [apply Hp2|]. cbv beta. by rewrite Hm4.
Qed.
End pairing.

(** ** The handle over a secured connection *)

Section handle.
Context `{C : Crypto} `{B : BigUintOps} `{HapPeer} `{Base64Engine}.
Context {W T : Type} {P : HttpConn (T * W)} {S : HttpConn ((SessionKeys * T) * W)} {HL : HttpLink W T IpAccessory}.

#[export] Instance stack_link : IpLink ((SessionKeys * T) * W).
Proof.
  refine {| peer cw := peer_of cw.2; link_ok cw := hl_secured cw.1.1 cw.1.2 cw.2;
            carries method path body r :=
              Forall is_scalar path /\ hl_carries method (utf8_encode path) HAP_JSON body [] (json_reply r) |}.
  intros method path body [[k t] w] Hs [Hp Hc]. cbn [fst snd] in *. unfold peer_of.
  destruct (secure_served method (utf8_encode path) HAP_JSON body k t w [] (json_reply (serve_http method path body (peer_of w)).1)
    {| ia_core := ia_core (hl_server w); ia_peer := (serve_http method path body (peer_of w)).2 |} Hs) as (t' & w' & Hr & Hw & Hs').
  - cbn [srv_secure ip_server]. rewrite from_utf8_lossy_encode by done. unfold peer_of. by destruct (serve_http _ _ _ _).
  - exact Hc.
  - exists ((k, t'), w'). cbn [fst snd]. split; [|split; [by rewrite Hw|done]].
    cbn [conn_request secure_session_conn]. unfold with_err. run. rewrite Hr. cbn. by destruct (serve_http _ _ _ _) as [[] ?].
Defined.

Context `{Generated} {PL : HapPeerLaws}.

(** A handle on a fresh session: it fetches the accessory's tree, and then any operations
    return what the store of typed values returns. *)
Definition operates (tree : list Accessory) (keys : SessionKeys) (t : T) (w : W) : Prop :=
  forall ops, ip_ops_ok (W := (SessionKeys * T) * W) (peer_of w) ops ->
    exists h' t' w', (tree ← ih_fetch; rs ← run_ips ops; mret (tree, rs)) (ip_handle_new, ((keys, t), w)) =
        (Ok (tree, (spec_ips ops (peer_of w)).1), (h', (t', w'))) /\
      peer_of w' = (spec_ips ops (peer_of w)).2.

(** The accessory describes itself, and is not yet subscribed to. *)
Definition presents (tree : list Accessory) (p : Peer) : Prop :=
  peer_ok p /\ describes p tree /\ message_carried (W := (SessionKeys * T) * W) p fetch_message /\ pr_subs p = ∅.

Lemma secured_operates tree keys t w : presents tree (peer_of w) -> hl_secured keys t w -> operates tree keys t w.
Proof using PL.
  intros (Hp & Hd & Hca & Hsub) Hs ops Hops.
  destruct (ih_fetch_ok (W := (SessionKeys * T) * W) ip_handle_new ((keys, t), w) tree)
    as (h1 & w1 & Hf & Hp1 & Hl1); [exact Hs|exact Hp|exact Hd|done|by symmetry|exact Hca|].
  change (peer_of w) with (peer (W := (SessionKeys * T) * W) ((keys, t), w)) in *. rewrite <- Hp1 in Hops |- *.
  destruct (run_ips_ok ops h1 w1 Hl1 Hops) as (h' & [kt' w'] & Hr & Hp' & _).
  exists h', kt', w'. split; [|exact Hp']. run. by rewrite Hf, Hr.
Qed.
End handle.

(** ** The controller over such a network *)

Section controller.
Context `{C : Crypto} {CL : CryptoLaws C} `{B : BigUintOps} {BL : BigUintLaws B} `{HapPeer} `{Base64Engine} `{Generated}.
Context {PL : HapPeerLaws} `{Build} {St W T G : Type} `{PSL : PairingStoreLaws St} `{NW : !World W T G}.
Context {HL : HttpLink W T IpAccessory (P := world_plain) (S := world_secure)}.

Local Abbreviation core_at := (core_of (T := T)).
Local Abbreviation peer_at := (peer_of (T := T)).
Local Abbreviation carried := (carries_pairing (W := W) (T := T)).
#[local] Existing Instance plain_pairing.

(** A connection to the address reaches the accessory. *)
Definition listens (addr : SocketAddr) : Prop := forall w,
  exists t w', http_connect addr w = (Ok t, w') /\ hl_plain (T := T) t w' /\ hl_server (T := T) w' = hl_server (T := T) w.

(** The accessory has stored the controller's identity. *)
Definition knows (ctl : ControllerKeypair) (w : W) : Prop :=
  ra_controller (core_at w) = Some (kp_id ctl, ltpk ctl) /\
  short_id (kp_id ctl) /\ short_id (ra_pairing_id (core_at w)).

Definition identity_of (w : W) : AccessoryPairing :=
  {| pairing_id := ra_pairing_id (core_at w); ap_ltpk := ltpk (ra_keypair (core_at w)) |}.

Lemma connect_over_works ctl secret t w :
  carried -> hl_plain t w -> knows ctl w ->
  exists keys t' w', connect_over secret t (identity_of w) ctl w = (Ok (keys, t'), w') /\
    hl_secured keys t' w' /\ peer_at w' = peer_at w /\ identity_of w' = identity_of w /\ knows ctl w'.
Proof using CL BL.
  intros Hca Ht (Hk & Hi1 & Hi2). destruct (ip_verify_works t w ctl secret Hca Ht Hk Hi1 Hi2) as (keys & t' & w' & s & Hr & Hc & Hp & Hs).
  exists keys, t', w'. split; [|split; [done|split; [done|]]].
  - unfold connect_over, on_local, identity_of, plain_pairing. by rewrite Hr.
  - unfold identity_of, knows. rewrite Hc. done.
Qed.

Lemma ip_connect_works ctl secret addr w :
  carried -> listens addr -> knows ctl w ->
  exists keys t' w', ip_connect secret {| sa_pairing := identity_of w; sa_transport := StoredIp addr |} ctl w = (Ok (keys, t'), w') /\
    hl_secured keys t' w' /\ peer_at w' = peer_at w.
Proof using CL BL.
  intros Hca Hl Hk. destruct (Hl w) as (t & w1 & Hc & Ht & Hw).
  assert (core_at w1 = core_at w) as Hcore by (unfold core_of; by rewrite Hw).
  destruct (connect_over_works ctl secret t w1 Hca Ht) as (keys & t' & w' & Hr & Hs & Hp & _); [unfold knows; by rewrite Hcore|].
  exists keys, t', w'. split; [|split; [done|]].
  - unfold ip_connect. cbn [sa_transport sa_pairing dial world_dialer]. unfold attempt. run. rewrite Hc.
    assert (identity_of w1 = identity_of w) as <- by (unfold identity_of; by rewrite Hcore). exact Hr.
  - rewrite Hp. unfold peer_of. by rewrite Hw.
Qed.

(** What Pair Setup needs: the codes, the identifiers and the SRP parameter checks. *)
Definition pairable (ctl : ControllerKeypair) (code_c a : bytes) (c : Core) : Prop :=
  exists code_a c0 g,
    let salt := rnd_salt (draw c).1 in
    let s := with_salt_and_private g PAIR_SETUP_USERNAME (PairSetup.normalize_setup_code code_a) salt
               (from_bytes_be (rnd_b (draw c).1)) in
    ra_setup_code c = Some code_a /\ new_with_private code_c ctl a = Ok c0 /\ hap_group = Ok g /\
    PairSetup.normalize_setup_code code_c = PairSetup.normalize_setup_code code_a /\
    short_id (kp_id ctl) /\ short_id (ra_pairing_id c) /\ length salt <= 64 /\
    is_Some (from_utf8 (kp_id ctl)) /\ is_Some (from_utf8 (ra_pairing_id c)) /\
    (sv_b_pub s mod modulus g <> 0)%Z /\ (compute_u g (cl_a_pub (srp c0)) (sv_b_pub s) <> 0)%Z.

Lemma ip_pair_works ctl code a secret t w :
  carried -> hl_plain t w -> pairable ctl code a (core_at w) ->
  exists keys t' w', ip_pair a secret t code ctl w = (Ok (identity_of w, (keys, t')), w') /\
    hl_secured keys t' w' /\ peer_at w' = peer_at w /\ identity_of w' = identity_of w /\ knows ctl w'.
Proof using CL BL.
  intros Hca Ht (code_a & c0 & g & Hcode & Hnew & Hg & Hnorm & Hi1 & Hi2 & Hsalt & Hu1 & Hu2 & HB0 & Hu).
  destruct (ip_setup_works t w code code_a ctl a c0 g) as (t1 & w1 & Hr & Hc & Hp & Ht1); [done..|].
  destruct (connect_over_works ctl secret t1 w1 Hca Ht1) as (keys & t' & w' & Hv & Hs & Hp' & Hid & Hk); [by unfold knows; rewrite Hc|].
  assert (identity_of w1 = identity_of w) as Hid1 by (unfold identity_of; by rewrite Hc).
  exists keys, t', w'. split; [|split_and!; [done|congruence..|done]].
  unfold ip_pair. run. unfold on_local at 1. unfold plain_pairing at 1. rewrite Hr. cbn [mbind result_bind].
  change {| pairing_id := _; ap_ltpk := _ |} with (identity_of w). rewrite <- Hid1. by rewrite Hv.
Qed.

Local Abbreviation Handle := (AccessoryHandle (IpBackend T) G).

(** A handle to a stored accessory whose operations work. *)
Definition working (kp : ControllerKeypair) (stored : StoredAccessory) (tree : list Accessory) (h : Handle) (w : W) : Prop :=
  handle_for kp stored h /\
  match h with InnerIp ih be => operates tree (ib_session be).1 (ib_session be).2 w | InnerBle _ _ => False end.

(** The record of the pairing with the accessory in the network. *)
Definition record_of (w : W) (addr : SocketAddr) : StoredAccessory :=
  {| sa_pairing := identity_of w; sa_transport := StoredIp addr |}.

Lemma ip_handle_working kp stored addr tree keys t timeout w : sa_transport stored = StoredIp addr ->
  presents tree (peer_at w) -> hl_secured keys t w -> working kp stored tree (ip_handle (keys, t) stored kp timeout) w.
Proof using PL.
  intros Ht Hp Hs. split; [unfold handle_for; by rewrite Ht|]. by apply secured_operates.
Qed.

Lemma pair_ip_works hc st st1 w a secret accessory code norm tree :
  carried -> listens (da_addr accessory) -> controller_normalize_setup_code code = Ok norm ->
  pairable (hc_keypair hc) norm a (core_at w) -> presents tree (peer_at w) ->
  let stored := record_of w (da_addr accessory) in
  ps_save_pairing stored st = (Ok (), st1) ->
  exists h w1, pair_ip a secret accessory code (hc, (st, w)) =
      (Ok h, (hc_set_ids (remember (sa_id stored) (hc_cached_ids hc)) hc, (st1, w1))) /\
    working (hc_keypair hc) stored tree h w1 /\
    peer_at w1 = peer_at w /\ record_of w1 (da_addr accessory) = stored /\ knows (hc_keypair hc) w1.
Proof using CL BL PL.
  intros Hca Hl Hnorm Hpa Hpr stored Hsave. destruct (Hl w) as (t & w0 & Hconn & Ht & Hw).
  assert (core_at w0 = core_at w) as Hcore by (unfold core_of; by rewrite Hw).
  assert (peer_at w0 = peer_at w) as Hpeer by (unfold peer_of; by rewrite Hw).
  destruct (ip_pair_works (hc_keypair hc) norm a secret t w0 Hca Ht) as (keys & t' & w1 & Hp & Hs & Hpe & Hid & Hk);
    [by rewrite Hcore|].
  assert (identity_of w0 = identity_of w) as Hid0 by (unfold identity_of; by rewrite Hcore). rewrite Hid0 in *.
  exists (ip_handle (keys, t') stored (hc_keypair hc) (hc_request_timeout hc)), w1. split; [|split; [|split_and!]].
  - unfold pair_ip. rewrite Hnorm. unfold on_world, with_err, on_store, set_ids, self. run. cbn [fst snd].
    rewrite Hconn. cbn [map_err]. rewrite Hp. cbn [map_err]. change {| sa_pairing := _; sa_transport := _ |} with stored.
    rewrite Hsave. reflexivity.
  - apply (ip_handle_working _ _ (da_addr accessory)); [done|by rewrite Hpe, Hpeer|done].
  - congruence.
  - unfold record_of. by rewrite Hid.
  - done.
Qed.

Lemma same_id_refl id : same_id id id = true.
Proof using. unfold same_id, eq_ignore_ascii_case. by apply bool_decide_eq_true. Qed.

(** The id refers to no other record. *)
Definition unambiguous (id : bytes) (s : AStore) : Prop :=
  forall i b, as_pairings s !! i = Some b -> same_id i id = true -> i = id.

Lemma load_stored_finds st st1 s ps a :
  store_holds st s -> as_pairings s !! sa_id a = Some a -> unambiguous (sa_id a) s ->
  ps_load_pairings st = (Ok ps, st1) -> load_stored (sa_id a) st = (Ok a, st1).
Proof using.
  intros Hs Ha Hu Hl. pose proof (store_loads st s Hs) as Hld. rewrite Hl in Hld. destruct Hld as (_ & Hn & Hby).
  pose proof (find_stored_resolves ps (sa_id a) Hn) as Hf. unfold load_stored, with_err. run. rewrite Hl. cbn [map_err].
  rewrite Hby in Hf. destruct (find_stored ps (sa_id a)) as [b|]; cbn.
  - destruct Hf as [Hb [Hsame|[Hno _]]].
    + rewrite (Hu _ _ Hb Hsame) in Hb. by simplify_eq.
    + specialize (Hno _ _ Ha). by rewrite same_id_refl in Hno.
  - exfalso. apply (Hf a). split; [done|left; apply same_id_refl].
Qed.

Lemma connect_works hc st st1 s ps w secret addr tree :
  let stored := record_of w addr in
  carried -> listens addr -> knows (hc_keypair hc) w -> presents tree (peer_at w) ->
  store_holds st s -> as_pairings s !! sa_id stored = Some stored -> unambiguous (sa_id stored) s ->
  ps_load_pairings st = (Ok ps, st1) ->
  exists h w1, connect secret (sa_id stored) (hc, (st, w)) = (Ok h, (hc, (st1, w1))) /\
    working (hc_keypair hc) stored tree h w1.
Proof using CL BL PL.
  intros stored Hca Hl Hk Hpr Hs Hin Hu Hload. pose proof (load_stored_finds st st1 s ps stored Hs Hin Hu Hload) as Hf.
  destruct (ip_connect_works (hc_keypair hc) secret addr w Hca Hl Hk) as (keys & t & w1 & Hc & Hsec & Hp).
  exists (ip_handle (keys, t) stored (hc_keypair hc) (hc_request_timeout hc)), w1. split.
  - unfold connect, on_stored, self, on_world. run. rewrite Hf. cbn [fst snd sa_transport stored record_of].
    unfold connect_ip, with_err. run. change {| sa_pairing := identity_of w; sa_transport := StoredIp addr |} with stored in Hc.
    unfold plain_pairing in *. rewrite Hc. reflexivity.
  - apply (ip_handle_working _ _ addr); [done|by rewrite Hp|done].
Qed.

(** A pairing the store can hold. *)
Lemma record_ok ctl code a w addr : pairable ctl code a (core_at w) -> addr_ok addr -> stored_ok (record_of w addr).
Proof using CL.
  intros (_ & _ & _ & _ & _ & _ & _ & _ & _ & _ & _ & [u Hu] & _) Ha. split; [split; [apply ed_public_length|exact I]|split; [|exact Ha]].
  unfold str_ok, sa_id. cbn -[core_of from_utf8]. intros Hn. by rewrite Hn in Hu.
Qed.

(** The pairing is stored, the snapshot has its id, and the handle works. *)
Lemma pair_ip_stores hc st st1 s w a secret accessory code norm tree :
  ctl_inv hc st s -> addr_ok (da_addr accessory) ->
  carried -> listens (da_addr accessory) -> controller_normalize_setup_code code = Ok norm ->
  pairable (hc_keypair hc) norm a (core_at w) -> presents tree (peer_at w) ->
  let stored := record_of w (da_addr accessory) in
  ps_save_pairing stored st = (Ok (), st1) ->
  exists h hc1 w1, pair_ip a secret accessory code (hc, (st, w)) = (Ok h, (hc1, (st1, w1))) /\
    working (hc_keypair hc) stored tree h w1 /\
    ctl_inv hc1 st1 (with_pairings <[sa_id stored := stored]> s) /\ hc_keypair hc1 = hc_keypair hc /\
    peer_at w1 = peer_at w /\ record_of w1 (da_addr accessory) = stored /\ knows (hc_keypair hc) w1.
Proof using CL BL PL.
  intros Hi Ha Hca Hl Hn Hpa Hpr stored Hs.
  destruct (pair_ip_works hc st st1 w a secret accessory code norm tree Hca Hl Hn Hpa Hpr Hs)
    as (h & w1 & Hp & Hw & Hpe & Hrec & Hk).
  eexists h, _, w1. split; [exact Hp|]. split; [done|]. split; [|done]. apply (inv_record hc st); [done|].
  pose proof (store_mutates (OpSavePairing stored) _ (ps_save_pairing stored) st s eq_refl eq_refl
    (record_ok _ _ _ _ _ Hpa Ha) (proj1 Hi)) as Hm. by rewrite Hs in Hm.
Qed.
End controller.

(** * Theorems *)

(** C2: The IP stack end to end.  On a network in which an accessory answers at an address,
    pairing with it there - Pair Setup over HTTP, Pair Verify, the record in the store -
    gives a handle on which the tree is fetched and then any reads, writes and subscriptions
    are answered as the store of typed values answers them; the store has the accessory's
    record and the snapshot its id.  From then on any controller of the same identity over
    a store with these contents, a restarted one too, connects by that id to a handle that
    works in the same way. *)
Theorem ip_controller_pairs `{CL : CryptoLaws} `{BL : BigUintLaws} `{PL : HapPeerLaws} `{Generated} `{Build}
    `{PSL : PairingStoreLaws St} `{NW : !World W T G}
    {HL : HttpLink W T IpAccessory (P := world_plain) (S := world_secure)}
    hc st st1 s w a secret accessory code norm tree :
  let stored := record_of w (da_addr accessory) in
  let s1 := with_pairings <[sa_id stored := stored]> s in
  ctl_inv hc st s -> addr_ok (da_addr accessory) -> carries_pairing (W := W) (T := T) -> listens (da_addr accessory) ->
  controller_normalize_setup_code code = Ok norm -> pairable (hc_keypair hc) norm a (core_of (T := T) w) ->
  presents tree (peer_of (T := T) w) -> unambiguous (sa_id stored) s1 ->
  ps_save_pairing stored st = (Ok (), st1) ->
  exists h hc1 w1, pair_ip a secret accessory code (hc, (st, w)) = (Ok h, (hc1, (st1, w1))) /\
    working (hc_keypair hc) stored tree h w1 /\ ctl_inv hc1 st1 s1 /\ sa_id stored ∈ paired hc1 /\
    forall hc2 st2 ps st3 secret2,
      hc_keypair hc2 = hc_keypair hc -> store_holds st2 s1 -> ps_load_pairings st2 = (Ok ps, st3) ->
      exists h2 w2, connect secret2 (sa_id stored) (hc2, (st2, w1)) = (Ok h2, (hc2, (st3, w2))) /\
        working (hc_keypair hc) stored tree h2 w2.
Proof.
  intros stored s1 Hi Ha Hca Hl Hn Hpa Hpr Hun Hs.
  destruct (pair_ip_stores hc st st1 s w a secret accessory code norm tree Hi Ha Hca Hl Hn Hpa Hpr Hs)
    as (h & hc1 & w1 & Hp & Hw & Hi1 & Hkp & Hpe & Hrec & Hk).
  exists h, hc1, w1. split; [done|]. split; [done|]. split; [done|]. split.
  { apply Hi1. exists stored. apply lookup_insert_eq. }
  intros hc2 st2 ps st3 secret2 Hk2 Hs2 Hload. fold stored in Hrec. rewrite <- Hk2 in Hk |- *. rewrite <- Hpe in Hpr.
  pose proof (connect_works hc2 st2 st3 s1 ps w1 secret2 (da_addr accessory) tree) as Hc. cbv zeta in Hc.
  rewrite Hrec in Hc. apply Hc; try done. apply lookup_insert_eq.
Qed.

(** * Witness: a lamp at the other end of TCP sockets, the store in a file *)

#[local] Existing Instances toy_crypto toy_crypto_laws std_biguint std_biguint_laws Handle.demo_serde Handle.demo_base64
  Handle.demo_peer Handle.demo_laws demo_store demo_store_laws ControllerRefine.demo_build.

#[local] Instance tcp_demo_socket : Socket (ServerConn * Net IpAccessory) := server_socket 1000.
#[local] Instance tcp_demo_gatt : Gatt (() * Net IpAccessory) := {
  gatt_write _ _ := lift (Err Disconnected);
  gatt_read _ := lift (Err Disconnected);
  gatt_instance_id _ := lift (Err Disconnected);
  gatt_enumerate := lift (Err Disconnected);
  gatt_max_write w := (20, w);
  gatt_generation w := (0%Z, w)
}.
#[local] Instance tcp_world : World (Net IpAccessory) (TcpConn ServerConn) () := {
  mdns_browse := mret [demo_service];
  ble_heard := mret [];
  http_connect _ w := (Ok {| tc_sock := Tcp.accepted; tc_session := None |}, w);
  connect_gatt _ := lift (Err Disconnected);
  world_plain := tcp_plain demo_reads;
  world_secure := tcp_secure demo_reads (fun _ => 1)
}.
Lemma demo_frames : 0 < 1000 <= MAX_BLOCK.
Proof. unfold MAX_BLOCK. lia. Qed.
Lemma demo_receives : forall _ : nat, 0 < 1.
Proof. lia. Qed.
#[local] Instance tcp_demo_link : HttpLink (Net IpAccessory) (TcpConn ServerConn) IpAccessory
  (P := world_plain) (S := world_secure) :=
  tcp_link 1000 demo_reads (fun _ => 1) demo_frames demo_receives.

Lemma small_decimal n : n <= 512 -> length (utf8_encode (to_decimal (Z.of_nat n))) <= 3.
Proof.
  intros Hn. assert (forallb (fun k => length (utf8_encode (to_decimal (Z.of_nat k))) <=? 3) (seq 0 513) = true) as Hall by by vm_compute.
  rewrite List.forallb_forall in Hall. apply Nat.leb_le, Hall, List.in_seq. lia.
Qed.

(** The sizes of the messages with their heads. *)
Lemma request_length method path ctype body :
  length (encode_request method path ctype body) =
    length method + length path + length ctype + length (utf8_encode (to_decimal (Z.of_nat (length body)))) + length body + 48.
Proof.
  unfold encode_request. rewrite !length_app. change (length (str " ")) with 1. change (length (str " HTTP/1.1")) with 9.
  change (length (str "Content-Type: ")) with 14. change (length (str "Content-Length: ")) with 16.
  change (length CRLF) with 2. lia.
Qed.
Lemma reply_length r : length (wire_form (reply_message r)) =
  length (rp_ctype r) + length (utf8_encode (to_decimal (rp_status r))) +
  length (utf8_encode (to_decimal (Z.of_nat (length (rp_body r))))) + length (rp_body r) + 50.
Proof.
  unfold wire_form, rendered, render_message, join_lines. cbn [fmap list_fmap mjoin list_join reply_message m_prefix m_reason m_ctype m_body m_code].
  repeat first [rewrite length_app|rewrite length_cons]. change (length HTTP_PREFIX) with 8. change (length (str "OK")) with 2.
  change (length (str "Content-Type: ")) with 14. change (length (str "Content-Length: ")) with 16.
  change (length CRLF) with 2. lia.
Qed.

Lemma tcp_carries_pairing : carries_pairing (W := Net IpAccessory) (T := TcpConn ServerConn).
Proof.
  intros path body payload Hp Hb Hpl. unfold small_message in *. pose proof (small_decimal _ Hb) as Db.
  pose proof (small_decimal _ Hpl) as Dp. cbn [hl_carries tcp_demo_link tcp_link].
  assert (word_ok path /\ length path <= 20) as [Hw Hlp].
  { apply elem_of_cons in Hp as [-> | ->%list_elem_of_singleton]; by apply (bool_decide_unpack (_ /\ _)). }
  assert (20 * 702 < demo_reads) as Hreads by by apply Nat.ltb_lt.
  split; [split; [|split; [exact Hw|split_and!]]|split; [|split; [done|]]].
  - by apply (bool_decide_unpack (word_ok _)).
  - by apply (bool_decide_unpack (_ ∉ _)).
  - by apply (bool_decide_unpack (_ ∉ _)).
  - rewrite request_length. change (length (str "POST")) with 4. change (length PAIRING_TLV8) with 24. lia.
  - apply message_ok_check; [by vm_compute..|]. apply Z.ltb_lt. cbn [rp_body tlv_reply reply_message m_body]. lia.
  - rewrite answer_bytes_nil, reply_length. cbn [rp_body tlv_reply rp_ctype rp_status http_status].
    change (length (utf8_encode (to_decimal 200))) with 3. change (length PAIRING_TLV8) with 24.
    generalize dependent demo_reads. lia.
Qed.

Definition lamp_core : Core :=
  ra_core (with_setup_code (str "12345678") (with_actuator (fun _ => {| rnd_secret := [x07]; rnd_salt := [x01]; rnd_b := [x03] |})
    (from_seed [] [x09]) (str "AA:BB"))).
Definition lamp_net : Net IpAccessory :=
  {| nt_server := {| ia_core := lamp_core; ia_peer := demo_lamp |}; nt_cuts := [0; 7; 100] |}.
Definition lamp_controller : HapController :=
  {| hc_keypair := StoreFs.demo_keypair; hc_cached_ids := []; hc_request_timeout := DEFAULT_REQUEST_TIMEOUT |}.
Definition lamp_found : DiscoveredAccessory :=
  {| da_id := str "AA:BB"; da_name := str "Lamp"; da_addr := SocketV4 [x0a; x00; x00; x07] 8080;
     da_paired := false; da_category := 5; da_config_number := 2; da_setup_hash := None |}.
Definition lamp_record : StoredAccessory :=
  record_of (W := Net IpAccessory) (T := TcpConn ServerConn) lamp_net (da_addr lamp_found).

Lemma lamp_presents : presents (W := Net IpAccessory) (T := TcpConn ServerConn) demo_tree demo_lamp.
Proof.
  split; [exact demo_lamp_ok|]. split; [exact demo_describes|]. split; [|done].
  split; [by apply (bool_decide_unpack _)|]. split.
  - apply request_ok_check; by vm_compute.
  - split; [apply message_ok_check; by vm_compute|]. split; [done|]. by vm_compute.
Qed.

Lemma lamp_pairable : pairable StoreFs.demo_keypair (str "12345678") [x07] lamp_core.
Proof.
  destruct (demo_setup_params StoreFs.demo_keypair) as (_ & Hg & HB & Hu).
  exists (str "12345678"), (demo_client0 StoreFs.demo_keypair), (cl_group hap_client).
  change (rnd_salt (draw lamp_core).1) with [x01]. change (rnd_b (draw lamp_core).1) with [x03]. cbv zeta.
  split; [reflexivity|]. split; [by vm_compute|]. split; [exact Hg|]. split; [reflexivity|].
  split; [unfold short_id; simpl; lia|]. split; [unfold short_id; simpl; lia|]. split; [simpl; lia|].
  split; [by eexists|]. split; [by eexists|]. split; [exact HB|exact Hu].
Qed.

Lemma lamp_unambiguous : unambiguous (sa_id lamp_record) (with_pairings <[sa_id lamp_record := lamp_record]> no_pairings).
Proof.
  intros i b Hb. cbn [with_pairings as_pairings no_pairings] in Hb. by apply lookup_insert_Some in Hb as [[<- _]|[_ Hb]].
Qed.

Lemma lamp_inv : ctl_inv lamp_controller demo_saved no_pairings.
Proof.
  split; [apply demo_saved_holds|]. split; [done|]. split; [apply NoDup_nil_2|]. intros id. split; [by intros ?%elem_of_nil|].
  intros [b Hb]. cbn [as_pairings no_pairings] in Hb. by rewrite lookup_empty in Hb.
Qed.

(** The store after the pairing. *)
Definition lamp_stored : Disk * list bool := (ps_save_pairing lamp_record demo_saved).2.
Lemma lamp_saves : ps_save_pairing lamp_record demo_saved = (Ok (), lamp_stored).
Proof.
  assert (is_ok (ps_save_pairing lamp_record demo_saved).1 = true) as Hok by by vm_compute.
  unfold lamp_stored. by destruct (ps_save_pairing lamp_record demo_saved) as [[[]|e|f] st].
Qed.

Lemma ip_controller_pairs_witness :
  exists h hc1 w1,
    pair_ip (W := Net IpAccessory) (T := TcpConn ServerConn) (G := ()) [x07] [x03] lamp_found (str "123-45-678")
      (lamp_controller, (demo_saved, lamp_net)) = (Ok h, (hc1, (lamp_stored, w1))) /\
    working StoreFs.demo_keypair lamp_record demo_tree h w1 /\
    ctl_inv hc1 lamp_stored (with_pairings <[sa_id lamp_record := lamp_record]> no_pairings) /\
    sa_id lamp_record ∈ paired hc1 /\
    forall hc2 st2 ps st3 secret2,
      hc_keypair hc2 = StoreFs.demo_keypair -> store_holds st2 (with_pairings <[sa_id lamp_record := lamp_record]> no_pairings) ->
      ps_load_pairings st2 = (Ok ps, st3) ->
      exists h2 w2, connect secret2 (sa_id lamp_record) (hc2, (st2, w1)) = (Ok h2, (hc2, (st3, w2))) /\
        working StoreFs.demo_keypair lamp_record demo_tree h2 w2.
Proof.
  apply (ip_controller_pairs (CL := toy_crypto_laws) (BL := std_biguint_laws) (PL := demo_laws) (PSL := demo_store_laws)
           (NW := tcp_world) (HL := tcp_demo_link) lamp_controller demo_saved lamp_stored no_pairings lamp_net [x07] [x03]
           lamp_found (str "123-45-678") (str "12345678") demo_tree).
  - exact lamp_inv.
  - by apply (bool_decide_unpack _).
  - exact tcp_carries_pairing.
  - intros w. exists {| tc_sock := Tcp.accepted; tc_session := None |}, w. by split.
  - by vm_compute.
  - exact lamp_pairable.
  - exact lamp_presents.
  - exact lamp_unambiguous.
  - exact lamp_saves.
Defined.
