(* ===== verification/Sleepy.v ===== *)
(** * [hap-ble/src/sleepy.rs], [hap-controller/src/sleepy.rs]: accessories that sleep

    Waiting for an accessory to advertise and connecting to it ([BluestSleepyConnector]),
    the wait of [connect_when_advertised], and the watch that arms an accessory, forwards
    its events and persists its broadcast state.  A wait that has not ended is [Ok None]:
    [fuel] is how many scan windows or attempts have passed. *)

From S2P Require Import ThreadPdu.
From S2P Require Import Prelude Text Tlv8 Crypto RecordLayer Http Srp PairSetup PairVerify Store StoreFs StoreApi.
From S2P Require Import Pairing Model Types ModelJson BlePdu BleAccessory BleEvents BleWatch Handle Unified.
From S2P Require Import Discovery SetupPayload Controller ControllerRefine.

(** [hap_ble]'s own [format_device_id]. *)
Definition sleepy_format_device_id (id : bytes) : bytes :=
  foldl (fun s b => (if bool_decide (s = []) then s else s ++ [x3a]) ++ (Zbyte <$> hex2 false b)) [] id.

(** [connect_ble_when_advertised] goes on listening after these without counting them. *)
Definition transient (e : BleError) : bool :=
  match e with AccessoryNotFound | Disconnected | Backend _ => true | _ => false end.

Definition MAX_SESSION_FAILURES : nat := 3.

Section sleepy.
Context `{C : Crypto} `{B : BigUintOps} `{Base64Engine} `{Build} `{Generated}.
Context {St W T G : Type} `{!PairingStore St} `{!World W T G} `{!GattWatch (G * W)}.
Local Abbreviation Handle := (AccessoryHandle (IpBackend T) G).
Local Abbreviation M := (stateful (HapController * (St * W)) HapError).

(** ** [BluestSleepyConnector::connect] *)

Fixpoint bluest_sleepy_connect (fuel : nat) (secret : bytes) (keypair : ControllerKeypair) (device_id : bytes)
    (pairing : AccessoryPairing) (broadcast : option BleBroadcastState) : stateful W BleError (option (BleAccessory * G)) :=
  match fuel with
  | 0 => mret None
  | S fuel' =>
      scanned ← attempt ble_scan;
      match scanned with
      | inr _ => bluest_sleepy_connect fuel' secret keypair device_id pairing broadcast
      | inl scanned =>
          match List.find (fun d => same_id (db_device_id d) (sleepy_format_device_id device_id)) scanned with
          | None => bluest_sleepy_connect fuel' secret keypair device_id pairing broadcast
          | Some found =>
              conn ← connect_gatt found;
              ag ← on_local conn (ble_connect secret keypair pairing broadcast);
              mret (Some (ble_set_watch true (ba_tasks ag.1) ag.1, ag.2))
          end
      end
  end.

(** ** [connect_when_advertised] *)

(** The trait [SleepyConnector]; the first argument is the value Pair Verify draws. *)
Context (connector : bytes -> bytes -> AccessoryPairing -> option BleBroadcastState -> stateful W BleError (option (BleAccessory * G))).

(** [secrets] gives each attempt [k] its value. *)
Fixpoint connect_ble_when_advertised (fuel : nat) (secrets : nat -> bytes) (device_id : bytes) (pairing : AccessoryPairing)
    (broadcast : option StoredBroadcast) (k session_failures : nat) : stateful W HapError (option Handle) :=
  match fuel with
  | 0 => mret None
  | S fuel' =>
      answer ← attempt (connector (secrets k) device_id pairing (ble_state <$> broadcast));
      match answer with
      | inl None => mret None
      | inl (Some (accessory, gatt)) => mret (Some (from_ble accessory gatt))
      | inr e =>
          if transient e then connect_ble_when_advertised fuel' secrets device_id pairing broadcast (S k) session_failures
          else
            let session_failures := S session_failures in
            if MAX_SESSION_FAILURES <=? session_failures then lift (Err (HapBle e))
            else connect_ble_when_advertised fuel' secrets device_id pairing broadcast (S k) session_failures
      end
  end.

Definition connect_when_advertised (fuel : nat) (secrets : nat -> bytes) (accessory_id : bytes) : M (option Handle) :=
  stored ← on_stored (load_stored accessory_id);
  hc ← self;
  match sa_transport stored with
  | StoredIp _ => h ← on_world (connect_ip (secrets 0) stored (hc_keypair hc) (hc_request_timeout hc)); mret (Some h)
  | StoredBle device_id broadcast =>
      on_world (connect_ble_when_advertised fuel secrets device_id (sa_pairing stored) broadcast 0 0)
  end.

(** ** [watch_sleepy] *)

(** What [spawn_watch] is given. *)
Record WatchArgs := {
  wa_accessory_id : bytes; wa_pairing : AccessoryPairing; wa_device_id : bytes; wa_broadcast : option StoredBroadcast;
  wa_poll_iids : list (Z * Z)
}.

Definition watch_sleepy (accessory_id : bytes) (poll_iids : list (Z * Z)) : M WatchArgs :=
  stored ← on_stored (load_stored accessory_id);
  match sa_transport stored with
  | StoredBle device_id broadcast =>
      mret {| wa_accessory_id := sa_id stored; wa_pairing := sa_pairing stored; wa_device_id := device_id;
              wa_broadcast := broadcast; wa_poll_iids := poll_iids |}
  | StoredIp _ => lift (Err (UnsupportedByTransport "watch_sleepy"))
  end.

(** An operation of an accessory on its link. *)
Definition on_accessory {A} (acc : BleAccessory) (gatt : G) (m : stateful (BleAccessory * (G * W)) BleError A)
    : stateful W BleError (A * (BleAccessory * G)) := fun w =>
  let '(r, (acc, (gatt, w))) := m (acc, (gatt, w)) in
  (a ← r; Ok (a, (acc, gatt)), w).

(** The task of [spawn_watch] up to the armed accessory, under the radio lock. *)
Definition arm_watch (secret : bytes) (secrets : nat -> bytes) (args : WatchArgs) : stateful W BleError (option (BleAccessory * G)) :=
  connected ← connector secret (wa_device_id args) (wa_pairing args) (ble_state <$> wa_broadcast args);
  match connected with
  | None => mret None
  | Some (acc, gatt) =>
      ag ← on_accessory acc gatt (fun bg =>
             attempt (F := BleError) (on_secure (enable_broadcasts secrets (ba_reviver bg.1) (ba_chars bg.1) (ba_frag_size bg.1)
                                  (snd <$> wa_poll_iids args))) bg);
      ag ← on_accessory ag.2.1 ag.2.2 ble_disconnect;
      ag ← on_accessory ag.2.1 ag.2.2 (watch_sleepy_events (wa_poll_iids args));
      mret (Some ag.2)
  end.

(** The event pump: each event, with the broadcast state read after it. *)
Fixpoint watch_pump (accessory_id : bytes) (events : list (CharacteristicEvent * BleBroadcastState))
    : stateful St PairingError (list CharacteristicEvent) :=
  match events with
  | [] => mret []
  | (ev, state) :: events' =>
      _ ← attempt (F := PairingError) (ps_save_broadcast_state accessory_id (stored_broadcast state));
      sent ← watch_pump accessory_id events';
      mret (ev :: sent)
  end.

(** [SleepyWatch::save_state]: [accessory] is [None] until the accessory is armed. *)
Definition watch_save_state (accessory_id : bytes) (accessory : option BleAccessory) : stateful St HapError () :=
  match accessory with
  | None => mret ()
  | Some acc => with_err HapPairing (ps_save_broadcast_state accessory_id (stored_broadcast (broadcast_state acc)))
  end.
End sleepy.

(** * Lemmas *)

(** Both crates print a device id the same way. *)
Lemma sleepy_format_device_id_eq id : sleepy_format_device_id id = format_device_id id.
Proof.
  unfold sleepy_format_device_id, format_device_id.
  assert (forall l s, s <> [] ->
    foldl (fun s b => (if bool_decide (s = []) then s else s ++ [x3a]) ++ (Zbyte <$> hex2 false b)) s l =
      join x3a (s :: ((fun b => Zbyte <$> hex2 false b) <$> l))) as Hf.
  { induction l as [|b l IH]; intros s Hs; [done|]. cbn [foldl fmap list_fmap]. rewrite bool_decide_false by done.
    rewrite IH by (by intros [[? _]%app_eq_nil _]%app_eq_nil). cbn [join]. destruct l; cbn; by rewrite <- !app_assoc. }
  destruct id as [|b id]; [done|]. cbn [foldl fmap list_fmap]. rewrite bool_decide_true by done.
  apply Hf. by destruct b.
Qed.

(** The errors that only mean the accessory went back to sleep before the link came up. *)
Definition back_to_sleep (e : BleError) : Prop :=
  e = AccessoryNotFound \/ e = Disconnected \/ exists msg, e = Backend msg.

Lemma transient_spec e : transient e = true <-> back_to_sleep e.
Proof. unfold back_to_sleep. split; [destruct e; try done; eauto|by intros [->|[->|[msg ->]]]]. Qed.

#[export] Instance back_to_sleep_dec e : Decision (back_to_sleep e).
Proof. refine (cast_if (decide (transient e = true))); by rewrite <- transient_spec. Defined.

Section waits.
Context `{C : Crypto} `{B : BigUintOps} `{Base64Engine} `{Build} `{Generated}.
Context {St W T G : Type} `{!PairingStore St} `{!World W T G} `{!GattWatch (G * W)}.

(** The windows of a scan that do not end the wait: a failed scan, or others only. *)
Inductive not_heard (wanted : bytes) : W -> nat -> W -> Prop :=
| not_heard_0 w : not_heard wanted w 0 w
| not_heard_S w r w1 n w2 :
    ble_scan w = (r, w1) ->
    match r with Ok found => List.find (fun d => same_id (db_device_id d) wanted) found = None | Err _ => True | Fault _ => False end ->
    not_heard wanted w1 n w2 -> not_heard wanted w (S n) w2.

Lemma sleepy_connector_waits fuel secret keypair device_id pairing broadcast w n w1 :
  not_heard (sleepy_format_device_id device_id) w n w1 -> n <= fuel ->
  bluest_sleepy_connect fuel secret keypair device_id pairing broadcast w =
    bluest_sleepy_connect (fuel - n) secret keypair device_id pairing broadcast w1.
Proof.
  intros Hn. revert fuel. induction Hn as [w|w r w1 n w2 Hs Hr _ IH]; intros fuel Hf; [by rewrite Nat.sub_0_r|].
  destruct fuel as [|fuel]; [lia|]. cbn [bluest_sleepy_connect Nat.sub]. rewrite <- IH by lia. unfold attempt. run. rewrite Hs.
  destruct r as [found|e|x]; [|done..]. by rewrite Hr.
Qed.

Context (connector : bytes -> bytes -> AccessoryPairing -> option BleBroadcastState -> stateful W BleError (option (BleAccessory * G))).
Context (secrets : nat -> bytes) (device_id : bytes) (pairing : AccessoryPairing) (broadcast : option StoredBroadcast).
Local Abbreviation answer k := (connector (secrets k) device_id pairing (ble_state <$> broadcast)).

(** Consecutive attempts, from [k] on, that fail with [es]. *)
Inductive tried : W -> nat -> list BleError -> W -> Prop :=
| tried_nil w k : tried w k [] w
| tried_cons w k e w1 es w2 : answer k w = (Err e, w1) -> tried w1 (S k) es w2 -> tried w k (e :: es) w2.

Definition session_failures (es : list BleError) : nat := length (filter (fun e => ~ back_to_sleep e) es).

(** How a wait of [n] attempts ends after the failures [es]. *)
Definition wait_ends (n k failures : nat) (es : list BleError) (w1 : W)
    (out : result HapError (option (AccessoryHandle (IpBackend T) G)) * W) : Prop :=
  if length es =? n then out = (Ok None, w1)
  else
    length es < n /\
    match answer (k + length es) w1 with
    | (Ok None, w2) => out = (Ok None, w2)
    | (Ok (Some (acc, gatt)), w2) => out = (Ok (Some (from_ble acc gatt)), w2)
    | (Err e, w2) => ~ back_to_sleep e /\ failures + session_failures es = 2 /\ out = (Err (HapBle e), w2)
    | (Fault x, w2) => out = (Fault x, w2)
    end.

Lemma wait_ends_cons n k failures e es w w1 out w2 :
  answer k w = (Err e, w2) ->
  wait_ends n (S k) (if transient e then failures else S failures) es w1 out ->
  wait_ends (S n) k failures (e :: es) w1 out.
Proof.
  intros He. unfold wait_ends. cbn [length Nat.eqb]. replace (k + S (length es)) with (S k + length es) by lia.
  destruct (length es =? n); [done|]. intros [Hl Ha]. split; [lia|].
  destruct (answer (S k + length es) w1) as [[[[acc gatt]|]|e'|x] w3]; try done.
  destruct Ha as (Ht & Hs & Ho). split; [done|]. split; [|done]. rewrite <- Hs. unfold session_failures.
  rewrite filter_cons. pose proof (transient_spec e). destruct (transient e); cbn; case_decide; cbn; try lia; intuition congruence.
Qed.

Lemma advertised_ends n k failures w : failures < 3 ->
  exists es w1, tried w k es w1 /\ failures + session_failures es < 3 /\
    wait_ends n k failures es w1
      (connect_ble_when_advertised (T := T) connector n secrets device_id pairing broadcast k failures w).
Proof.
  revert k failures w. induction n as [|n IH]; intros k failures w Hf.
  { exists [], w. split; [constructor|]. split; [cbn; lia|done]. }
  cbn [connect_ble_when_advertised]. unfold attempt. run. destruct (answer k w) as [[[[acc gatt]|]|e|x] w1] eqn:Ea.
  1,2,4: exists [], w; split; [constructor|]; split; [cbn; lia|]; split; [cbn; lia|];
    cbn [length]; rewrite Nat.add_0_r, Ea; done.
  destruct (transient e) eqn:Ht; [apply transient_spec in Ht as Hb|assert (~ back_to_sleep e) as Hb by (rewrite <- transient_spec, Ht; done)].
  - destruct (IH (S k) failures w1 Hf) as (es & w2 & Htr & Hs & Hw). exists (e :: es), w2. split; [by econstructor|].
    split; [unfold session_failures; rewrite filter_cons; rewrite decide_False by tauto; exact Hs|].
    eapply wait_ends_cons; [done|]. by rewrite Ht.
  - destruct (Nat.leb_spec MAX_SESSION_FAILURES (S failures)) as [Hm|Hm]; unfold MAX_SESSION_FAILURES in Hm.
    + exists [], w. split; [constructor|]. split; [cbn; lia|]. split; [cbn; lia|].
      cbn [length]. rewrite Nat.add_0_r, Ea. unfold session_failures. cbn. split; [done|]. split; [lia|done].
    + destruct (IH (S k) (S failures) w1 Hm) as (es & w2 & Htr & Hs & Hw). exists (e :: es), w2. split; [by econstructor|].
      split; [unfold session_failures in *; rewrite filter_cons; rewrite decide_True by done; cbn; lia|].
      eapply wait_ends_cons; [done|]. by rewrite Ht.
Qed.
End waits.

(** ** The pump *)

(** The broadcast state of the last save, in the record of [id]. *)
Definition persisted (id : bytes) (saved : list BleBroadcastState) (s : AStore) : AStore :=
  match last saved with
  | None => s
  | Some state => with_pairings (alter (set_broadcast (stored_broadcast state)) id) s
  end.

Lemma set_broadcast_twice b b' a : set_broadcast b' (set_broadcast b a) = set_broadcast b' a.
Proof. unfold set_broadcast. by destruct a as [p [addr|dev br]]. Qed.

Lemma persisted_cons id state saved s :
  persisted id saved (persisted id [state] s) = persisted id (state :: saved) s.
Proof.
  unfold persisted at 1 3. rewrite last_cons. destruct (last saved) as [state'|]; [|done].
  unfold persisted, with_pairings; cbn. f_equal. rewrite alter_alter_eq. apply alter_ext.
  intros a _. apply set_broadcast_twice.
Qed.

(** Saving the states one after the other, each once; [saved] are those answered [Ok]. *)
Inductive save_run `{PairingStore St} (id : bytes) : list BleBroadcastState -> St -> list BleBroadcastState -> St -> Prop :=
| save_run_nil st : save_run id [] st [] st
| save_run_ok state states st st1 saved st2 :
    ps_save_broadcast_state id (stored_broadcast state) st = (Ok (), st1) -> save_run id states st1 saved st2 ->
    save_run id (state :: states) st (state :: saved) st2
| save_run_err state states st e st1 saved st2 :
    ps_save_broadcast_state id (stored_broadcast state) st = (Err e, st1) -> save_run id states st1 saved st2 ->
    save_run id (state :: states) st saved st2.

Section pump.
Context `{PSL : PairingStoreLaws St} `{Generated}.

Lemma save_broadcast_spec id state st s : store_holds st s -> stored_broadcast_ok (stored_broadcast state) ->
  match ps_save_broadcast_state id (stored_broadcast state) st with
  | (Ok _, st') => store_holds st' (persisted id [state] s)
  | (Err _, st') => store_holds st' s
  | (Fault _, _) => False
  end.
Proof.
  intros Hs Hok.
  exact (store_mutates (OpSaveBroadcast id (stored_broadcast state)) _ (ps_save_broadcast_state id (stored_broadcast state))
           st s eq_refl eq_refl Hok Hs).
Qed.

Lemma pump_persists id events st s :
  store_holds st s -> Forall (fun e => stored_broadcast_ok (stored_broadcast e.2)) events ->
  let '(r, st') := watch_pump id events st in
  r = Ok events.*1 /\ exists saved, save_run id events.*2 st saved st' /\ store_holds st' (persisted id saved s).
Proof.
  intros Hs Hev. revert st s Hs. induction Hev as [|[ev state] events Hok _ IH]; intros st s Hs; cbn [watch_pump].
  { split; [done|]. exists []. split; [constructor|done]. }
  pose proof (save_broadcast_spec id state st s Hs Hok) as Hsave. unfold attempt. run.
  destruct (ps_save_broadcast_state id (stored_broadcast state) st) as [[[]|e|x] st1] eqn:Hst; [| |done].
  - specialize (IH st1 _ Hsave). destruct (watch_pump id events st1) as [r st2]. destruct IH as [-> (saved & Hsub & Hh)].
    split; [done|]. exists (state :: saved). split; [by eapply save_run_ok|]. by rewrite <- persisted_cons.
  - specialize (IH st1 _ Hsave). destruct (watch_pump id events st1) as [r st2]. destruct IH as [-> (saved & Hsub & Hh)].
    split; [done|]. exists saved. split; [by eapply save_run_err|done].
Qed.
End pump.

(** * Theorems *)

(** C24: Waiting for a sleepy accessory ends in exactly one of these ways.  Attempts that fail
    because the accessory was not found, was disconnected or the radio's backend failed - it
    went back to sleep - are never counted, however many; any other failure is a session
    failure.  After any failures of the connector of which fewer than three are session
    failures: the attempts run out and the caller is still waiting; or the connector
    answers, and its accessory is the handle returned; or it fails with the third session
    failure, which is the error returned. *)
Theorem advertised_connect_ends {W T G : Type}
    (connector : bytes -> bytes -> AccessoryPairing -> option BleBroadcastState -> stateful W BleError (option (BleAccessory * G)))
    n secrets device_id pairing broadcast w :
  exists es w1, tried connector secrets device_id pairing broadcast w 0 es w1 /\ session_failures es < 3 /\
    wait_ends (T := T) connector secrets device_id pairing broadcast n 0 0 es w1
      (connect_ble_when_advertised connector n secrets device_id pairing broadcast 0 0 w).
Proof. apply (advertised_ends connector secrets device_id pairing broadcast n 0 0 w). lia. Qed.

(** C21: The event pump of a sleepy watch forwards every event in order whatever the store
    does, and saves the broadcast state after each once: the store ends holding what it held,
    with the state of the last save it answered; no other record changes, and a failed save
    loses nothing. *)
Theorem sleepy_watch_persists `{PSL : PairingStoreLaws St} `{Generated} id events st s :
  store_holds st s -> Forall (fun e => stored_broadcast_ok (stored_broadcast e.2)) events ->
  let '(r, st') := watch_pump id events st in
  r = Ok events.*1 /\ exists saved, save_run id events.*2 st saved st' /\ store_holds st' (persisted id saved s).
Proof. apply pump_persists. Qed.

(** * Witness: [JsonFileStore] with one BLE pairing, on a disk whose second call of the first
    save fails *)

#[local] Existing Instances demo_store demo_store_laws.

Definition demo_key : BroadcastKey := {| bk := replicate 32 x05 |}.
Definition demo_sleeper : StoredAccessory :=
  {| sa_pairing := {| pairing_id := str "59:FA:BC:61:09:D2"; ap_ltpk := replicate 32 x01 |};
     sa_transport := StoredBle [x59; xfa; xbc; x61; x09; xd2] (Some {| sb_key := demo_key; sb_gsn := 3 |}) |}.
Definition demo_sleeper_disk : Disk * list bool :=
  ((ps_save_pairing demo_sleeper (demo_disk, [] : list bool)).2.1, [false; true]).
Definition demo_sleeper_store : AStore := {| as_controller := None; as_pairings := {[sa_id demo_sleeper := demo_sleeper]} |}.
Definition demo_sleepy_events : list (CharacteristicEvent * BleBroadcastState) :=
  [({| ev_aid := 1; ev_iid := 9; ev_value := VBool true |}, {| bb_key := demo_key; bb_gsn := 4 |});
   ({| ev_aid := 1; ev_iid := 9; ev_value := VBool false |}, {| bb_key := demo_key; bb_gsn := 5 |})].

Lemma demo_sleeper_holds : store_holds demo_sleeper_disk demo_sleeper_store.
Proof.
  assert (store_holds (ps_save_pairing demo_sleeper (demo_disk, [] : list bool)).2 demo_sleeper_store) as [? ?].
  { apply (saves_holds (OpSavePairing demo_sleeper) _ (ps_save_pairing demo_sleeper) _
             {| as_controller := None; as_pairings := ∅ |} eq_refl eq_refl);
      [|apply demo_empty_holds|by vm_compute].
    repeat split; by apply (bool_decide_unpack _). }
  split; done.
Qed.

(** A connector that fails as the list says: the third failure that is not sleep ends the wait. *)
Definition demo_connector (secret device_id : bytes) (pairing : AccessoryPairing) (broadcast : option BleBroadcastState)
    : stateful (list BleError) BleError (option (BleAccessory * ())) := fun answers =>
  match answers with
  | e :: answers => (Err e, answers)
  | [] => (Ok None, [])
  end.
Definition demo_failures : list BleError :=
  [Disconnected; RequestRejected 3; AccessoryNotFound; PairingRejected 6; Backend []; Disconnected; RequestRejected 4; Disconnected].

Lemma advertised_connect_ends_witness :
  let pairing := sa_pairing demo_sleeper in
  let wait := connect_ble_when_advertised (T := ()) demo_connector 20 (fun _ => []) [] pairing None 0 0 demo_failures in
  wait = (Err (HapBle (RequestRejected 4)), [Disconnected]) /\
  exists es w1, tried demo_connector (fun _ => []) [] pairing None demo_failures 0 es w1 /\ session_failures es < 3 /\
    wait_ends demo_connector (fun _ => []) [] pairing None 20 0 0 es w1 wait.
Proof. split; [reflexivity|]. exact (advertised_connect_ends demo_connector 20 (fun _ => []) [] (sa_pairing demo_sleeper) None demo_failures). Defined.

Lemma sleepy_watch_persists_witness :
  let '(r, st') := watch_pump (sa_id demo_sleeper) demo_sleepy_events demo_sleeper_disk in
  r = Ok demo_sleepy_events.*1 /\
  exists saved, save_run (sa_id demo_sleeper) demo_sleepy_events.*2 demo_sleeper_disk saved st' /\
    store_holds st' (persisted (sa_id demo_sleeper) saved demo_sleeper_store).
Proof.
  apply sleepy_watch_persists; [apply demo_sleeper_holds|].
  do 2 (apply List.Forall_cons; [split; [reflexivity|by apply (bool_decide_unpack _)]|]). apply List.Forall_nil.
Defined.

(** The first save fails, the second succeeds. *)
Example demo_sleepy_gsn :
  match (ps_load_pairings (watch_pump (sa_id demo_sleeper) demo_sleepy_events demo_sleeper_disk).2).1 with
  | Ok [a] => match sa_transport a with StoredBle _ (Some b) => sb_gsn b = 5%Z | _ => False end
  | _ => False
  end.
Proof. by vm_compute. Qed.
