(* ===== verification/Bluest.v ===== *)
(** * [hap-ble/src/bluest_gatt.rs]: the GATT connection over the radio stack

    [BluestConnection] implements [GattConnection] over the [bluest] crate: it maps UUIDs to
    the handles of the current link, and an operation that finds the link lost reconnects
    and tries again, a bounded number of times.  The crate is the class [Bluest]. *)

From S2P Require Import Prelude Text Tlv8 Crypto RecordLayer Srp PairSetup PairVerify Store Model BlePdu BleAccessory BleEvents BleWatch.

Definition HAP_INSTANCE_ID_DESC : list Z := chars "dc46f0fe-81d2-4616-b5d9-6abdd796939a".
Definition HAP_SERVICE_ID_CHAR : list Z := chars "e604e95d-a759-4817-87d3-aa005083a0d1".

(** [bluest::error::ErrorKind]: the kinds named by the source, and the rest. *)
Inductive ErrorKind :=
| NotConnected | AdapterUnavailable | ConnectionFailed | ServiceChanged | NotReady | BlNotFound | Timeout | OtherKind.

Record BluestError := { be_kind : ErrorKind; be_message : list Z }.

(** The crate: [D] is the adapter, the device and the air between them.  Handles come with
    their UUIDs as printed.  [timer_fires] tells whether the time limit of the next bounded
    step passes before the step is done. *)
Class Bluest (D : Type) := {
  bl_service : Type;
  bl_char : Type;
  bl_desc : Type;
  discover_services : stateful D BluestError (list (list Z * bl_service));
  discover_characteristics : bl_service -> stateful D BluestError (list (list Z * bl_char));
  discover_descriptors : bl_char -> stateful D BluestError (list (list Z * bl_desc));
  desc_read : bl_desc -> stateful D BluestError bytes;
  char_read : bl_char -> stateful D BluestError bytes;
  char_write : bl_char -> bytes -> stateful D BluestError ();
  max_write_len : bl_char -> D -> option nat;
  connect_device : stateful D BluestError ();
  disconnect_device : stateful D BluestError ();
  wait_available : stateful D BluestError ();
  timer_fires : D -> bool * D
}.

(** ** Errors *)

Fixpoint contains (needle s : list Z) : bool :=
  bool_decide (take (length needle) s = needle) || match s with [] => false | _ :: s' => contains needle s' end.

Definition classify (kind : ErrorKind) (msg : list Z) : BleError :=
  match kind with
  | NotConnected | AdapterUnavailable | ConnectionFailed | ServiceChanged | NotReady | BlNotFound | Timeout => Disconnected
  | OtherKind => if contains (chars "not connected") (to_ascii_lowercase msg) then Disconnected else Backend msg
  end.

Definition be (e : BluestError) : BleError := classify (be_kind e) (be_message e).

Definition is_disconnect (e : BleError) : bool := match e with Disconnected => true | _ => false end.

Definition MAX_OP_RECONNECTS : nat := 8.

Record ServiceShape := { ss_uuid : list Z; ss_char_uuids : list (list Z); ss_iid : Z }.

Section bluest.
Context `{Bluest D}.

(** ** Discovery *)

Local Abbreviation Found := (gmap (list Z) bl_char * list (list Z) * Z)%type.

(** The characteristics of one service; the last component is its instance id. *)
Fixpoint discover_chars (is_protocol_info : bool) (found : Found) (chs : list (list Z * bl_char)) : stateful D BleError Found :=
  match chs with
  | [] => mret found
  | (printed, ch) :: chs' =>
      let '(chars, char_uuids, service_iid) := found in
      let uuid := to_ascii_lowercase printed in
      service_iid ← (if is_protocol_info && bool_decide (uuid = HAP_SERVICE_ID_CHAR)
                     then v ← with_err be (char_read ch); mret (default 0%Z (u16_le v))
                     else mret service_iid);
      let chars := if bool_decide (uuid = SERVICE_SIGNATURE_CHAR) && negb is_protocol_info then chars else <[uuid := ch]> chars in
      discover_chars is_protocol_info (chars, char_uuids ++ [uuid], service_iid) chs'
  end.

Fixpoint discover_from (chars : gmap (list Z) bl_char) (shape : list ServiceShape) (svcs : list (list Z * bl_service))
    : stateful D BleError (gmap (list Z) bl_char * list ServiceShape) :=
  match svcs with
  | [] => mret (chars, shape)
  | (printed, svc) :: svcs' =>
      let is_protocol_info := bool_decide (to_ascii_lowercase printed = PROTOCOL_INFO_SERVICE) in
      chs ← with_err be (discover_characteristics svc);
      found ← discover_chars is_protocol_info (chars, [], 0%Z) chs;
      let '(chars, char_uuids, service_iid) := found in
      discover_from chars (shape ++ [{| ss_uuid := printed; ss_char_uuids := char_uuids; ss_iid := service_iid |}]) svcs'
  end.

Definition bluest_discover : stateful D BleError (gmap (list Z) bl_char * list ServiceShape) :=
  svcs ← with_err be discover_services;
  discover_from ∅ [] svcs.

(** ** The connection *)

(** Without the adapter and the device, which are in [D], and the scan gate. *)
Record BluestConnection := { bc_chars : gmap (list Z) bl_char; bc_shape : list ServiceShape; bc_generation : Z }.

Definition bc_set_chars (chars : gmap (list Z) bl_char) (c : BluestConnection) : BluestConnection :=
  {| bc_chars := chars; bc_shape := bc_shape c; bc_generation := bc_generation c |}.
Definition bc_next_generation (c : BluestConnection) : BluestConnection :=
  {| bc_chars := bc_chars c; bc_shape := bc_shape c; bc_generation := wrapping_add 64 (bc_generation c) 1 |}.

Definition bluest_new : stateful D BleError BluestConnection :=
  found ← bluest_discover;
  mret {| bc_chars := found.1; bc_shape := found.2; bc_generation := 0 |}.

Local Abbreviation M := (stateful (BluestConnection * D) BleError).

Definition on_device {A} (m : stateful D BleError A) : M A := fun '(c, d) => let '(r, d) := m d in (r, (c, d)).

(** [tokio::time::timeout]: [None] when the timer fires, wherever the step has got to. *)
Definition timeout {A} (m : stateful D BleError A) : stateful D BleError (option A) := fun d =>
  let '(fires, d) := timer_fires d in
  if fires then (Ok None, d) else (a ← m; mret (Some a)) d.

Definition bluest_reconnect : M () :=
  _ ← modify (fun w => (bc_next_generation w.1, w.2));
  _ ← on_device (timeout (_ ← attempt (F := BleError) disconnect_device; _ ← attempt (F := BleError) wait_available; mret ()));
  established ← on_device (timeout (_ ← with_err be connect_device; bluest_discover));
  match established with
  | None => lift (Err Disconnected)
  | Some fresh => modify (fun w => (bc_set_chars fresh.1 w.1, w.2))
  end.

(** The new count of reconnects of the operation. *)
Definition reconnect_bounded (attempts : nat) : M nat :=
  let attempts := S attempts in
  _ ← (if MAX_OP_RECONNECTS <? attempts then lift (Err Disconnected) else bluest_reconnect);
  mret attempts.

(** The current handle of a UUID. *)
Definition bc_handle (char_uuid : list Z) : M bl_char := fun '(c, d) =>
  (ok_or (bc_chars c !! to_ascii_lowercase char_uuid) (BleMalformedPdu "gatt characteristic not found"), (c, d)).

(** The loop of [read_iid], [read] and [write] around one attempt. *)
Fixpoint resume {A} (fuel : nat) (attempts : nat) (attempt1 : M A) : M A :=
  match fuel with
  | 0 => lift (Fault OutOfFuel)
  | S fuel' =>
      r ← attempt attempt1;
      match r with
      | inl v => mret v
      | inr e =>
          if is_disconnect e then attempts ← reconnect_bounded attempts; resume fuel' attempts attempt1
          else lift (Err e)
      end
  end.

(** Enough: one more than the reconnects allowed. *)
Definition RESUME_FUEL : nat := S MAX_OP_RECONNECTS.

Definition iid_attempt (char_uuid : list Z) : M (option Z) :=
  ch ← bc_handle char_uuid;
  descriptors ← on_device (with_err be (discover_descriptors ch));
  match List.find (fun d => eq_ignore_ascii_case d.1 HAP_INSTANCE_ID_DESC) descriptors with
  | None => mret None
  | Some desc => v ← on_device (with_err be (desc_read desc.2)); mret (u16_le v)
  end.

Definition read_iid (char_uuid : list Z) : M (option Z) := resume RESUME_FUEL 0 (iid_attempt char_uuid).

Definition bluest_instance_id (char_uuid : list Z) : M Z :=
  iid ← read_iid char_uuid;
  lift (ok_or iid (BleMalformedPdu "no instance id descriptor")).

(** Any handle will do: the first of the map, where the source takes the first of a
    [HashMap]. *)
Definition bluest_max_write (w : BluestConnection * D) : nat * (BluestConnection * D) :=
  let n := ch ← head (map_to_list (bc_chars w.1)); max_write_len ch.2 w.2 in
  (match n with Some n => Nat.min 512 (Nat.max 20 n) | None => DEFAULT_FRAGMENT_SIZE end, w).

Definition bluest_write (char_uuid : list Z) (value : bytes) : M () :=
  resume RESUME_FUEL 0 (ch ← bc_handle char_uuid; on_device (with_err be (char_write ch value))).

Definition bluest_read (char_uuid : list Z) : M bytes :=
  resume RESUME_FUEL 0 (ch ← bc_handle char_uuid; on_device (with_err be (char_read ch))).

(** [GattCharacteristic]s of one service. *)
Fixpoint enumerate_chars (is_protocol_info : bool) (characteristics : list GattCharacteristic) (char_uuids : list (list Z))
    : M (list GattCharacteristic) :=
  match char_uuids with
  | [] => mret characteristics
  | char_uuid :: char_uuids' =>
      if eq_ignore_ascii_case char_uuid HAP_SERVICE_ID_CHAR then
        enumerate_chars is_protocol_info characteristics char_uuids'
      else if eq_ignore_ascii_case char_uuid SERVICE_SIGNATURE_CHAR && negb is_protocol_info then
        enumerate_chars is_protocol_info characteristics char_uuids'
      else
        iid ← read_iid char_uuid;
        enumerate_chars is_protocol_info
          (characteristics ++ match iid with Some iid => [{| gc_uuid := char_uuid; gc_iid := iid |}] | None => [] end)
          char_uuids'
  end.

Fixpoint enumerate_from (services : list GattService) (shape : list ServiceShape) : M (list GattService) :=
  match shape with
  | [] => mret services
  | svc :: shape' =>
      let is_protocol_info := eq_ignore_ascii_case (ss_uuid svc) PROTOCOL_INFO_SERVICE in
      characteristics ← enumerate_chars is_protocol_info [] (ss_char_uuids svc);
      enumerate_from (services ++ [{| gs_uuid := ss_uuid svc; gs_iid := ss_iid svc; gs_characteristics := characteristics |}]) shape'
  end.

Definition bluest_enumerate : M (list GattService) := fun w => enumerate_from [] (bc_shape w.1) w.

#[export] Instance bluest_gatt : Gatt (BluestConnection * D) := {
  gatt_write := bluest_write;
  gatt_read := bluest_read;
  gatt_instance_id := bluest_instance_id;
  gatt_enumerate := bluest_enumerate;
  gatt_max_write := bluest_max_write;
  gatt_generation w := (bc_generation w.1, w)
}.

(** [subscribe] and [watch_adverts] only start their tasks; [disconnect] ignores its outcome. *)
#[export] Instance bluest_watch : GattWatch (BluestConnection * D) := {
  gatt_subscribe char_uuid := _ ← bc_handle char_uuid; mret ();
  gatt_disconnect w := ((on_device (timeout (attempt (F := BleError) disconnect_device))) w).2;
  watch_adverts := mret ()
}.
End bluest.

(** * Specification *)

(** The GATT database of an accessory: each service with its UUID, its instance id and its
    characteristics, each with its UUID and the value of its instance-id descriptor. *)
Record TreeService := { ts_uuid : list Z; ts_iid : Z; ts_chars : list (list Z * option Z) }.

Definition is_protocol_info (uuid : list Z) : bool := eq_ignore_ascii_case uuid PROTOCOL_INFO_SERVICE.

(** The characteristics of a service that are the model's: not the Service-Instance-ID, and
    the Service-Signature only in the Protocol-Information service. *)
Definition enumerated (in_protocol_info : bool) (char_uuid : list Z) : bool :=
  negb (eq_ignore_ascii_case char_uuid HAP_SERVICE_ID_CHAR) &&
  negb (eq_ignore_ascii_case char_uuid SERVICE_SIGNATURE_CHAR && negb in_protocol_info).

Definition listed (s : TreeService) : list (list Z * option Z) :=
  filter (fun c => enumerated (is_protocol_info (ts_uuid s)) c.1 = true) (ts_chars s).

(** Those with an instance-id descriptor. *)
Definition tree_characteristics (s : TreeService) : list GattCharacteristic :=
  omap (fun c => iid ← c.2; Some {| gc_uuid := to_ascii_lowercase c.1; gc_iid := iid |}) (listed s).

(** What is reported of a service: its instance id only if it is the Protocol-Information
    service and states one, else 0. *)
Definition tree_service (s : TreeService) : GattService :=
  {| gs_uuid := ts_uuid s;
     gs_iid := if is_protocol_info (ts_uuid s) && bool_decide (HAP_SERVICE_ID_CHAR ∈ to_ascii_lowercase <$> (ts_chars s).*1)
               then ts_iid s else 0;
     gs_characteristics := tree_characteristics s |}.

(** What is relied on of the crate: the handles it gives are those of the database, and an
    answer that comes is right. *)
Class BluestLaws (D : Type) `{Bluest D} := {
  bl_tree : list TreeService;
  service_is : bl_service -> TreeService -> Prop;
  char_is : bl_char -> TreeService -> list Z * option Z -> Prop;
  desc_is : bl_desc -> option Z -> Prop;
  services_law d svcs d' : discover_services d = (Ok svcs, d') ->
    Forall2 (fun sv t => sv.1 = ts_uuid t /\ service_is sv.2 t) svcs bl_tree;
  chars_law svc t d chs d' : service_is svc t -> discover_characteristics svc d = (Ok chs, d') ->
    Forall2 (fun ch c => ch.1 = c.1 /\ char_is ch.2 t c) chs (ts_chars t);
  descs_law ch t c d descs d' : char_is ch t c -> discover_descriptors ch d = (Ok descs, d') ->
    match List.find (fun d => eq_ignore_ascii_case d.1 HAP_INSTANCE_ID_DESC) descs with
    | Some desc => desc_is desc.2 c.2
    | None => c.2 = None
    end;
  desc_law desc iid d v d' : desc_is desc iid -> desc_read desc d = (Ok v, d') -> u16_le v = iid;
  service_id_law ch t c d v d' : char_is ch t c -> to_ascii_lowercase c.1 = HAP_SERVICE_ID_CHAR ->
    char_read ch d = (Ok v, d') -> u16_le v = Some (ts_iid t)
}.

Section resumption.
Context `{Bluest D}.
Local Abbreviation M := (stateful (BluestConnection * D) BleError).

(** [k] attempts that found the link lost, each followed by a reconnect. *)
Inductive resumed {A} (attempt1 : M A) : BluestConnection * D -> nat -> BluestConnection * D -> Prop :=
| resumed_0 w : resumed attempt1 w 0 w
| resumed_S w w1 w2 k w3 :
    attempt1 w = (Err Disconnected, w1) -> bluest_reconnect w1 = (Ok (), w2) -> resumed attempt1 w2 k w3 ->
    resumed attempt1 w (S k) w3.

(** How an operation around [attempt1] ends in [w1], and the reconnects begun there; when it
    is [exhausted] it may not reconnect. *)
Definition ends {A} (attempt1 : M A) (exhausted : bool) (w1 : BluestConnection * D) (out : result BleError A * (BluestConnection * D))
    (begun : nat) : Prop :=
  match attempt1 w1 with
  | (Err Disconnected, w2) =>
      if exhausted then out = (Err Disconnected, w2) /\ begun = 0
      else match bluest_reconnect w2 with
           | (Ok _, _) => False
           | (Err e, w3) => out = (Err e, w3) /\ begun = 1
           | (Fault x, w3) => out = (Fault x, w3) /\ begun = 1
           end
  | answer => out = answer /\ begun = 0
  end.

Definition operation_ends {A} (attempt1 : M A) (w : BluestConnection * D) (out : result BleError A * (BluestConnection * D)) : Prop :=
  exists k w1 begun, resumed attempt1 w k w1 /\ k <= MAX_OP_RECONNECTS /\ ends attempt1 (k =? MAX_OP_RECONNECTS) w1 out begun /\
    bc_generation out.2.1 = Nat.iter (k + begun) (fun g => wrapping_add 64 g 1) (bc_generation w.1) /\
    bc_shape out.2.1 = bc_shape w.1.

Definition read_attempt (char_uuid : list Z) : M bytes := ch ← bc_handle char_uuid; on_device (with_err be (char_read ch)).
Definition write_attempt (char_uuid : list Z) (value : bytes) : M () :=
  ch ← bc_handle char_uuid; on_device (with_err be (char_write ch value)).
End resumption.

(** * Lemmas *)

Section ending.
Context `{Bluest D}.
Local Abbreviation M := (stateful (BluestConnection * D) BleError).

(** An attempt leaves the connection as it is. *)
Definition keeps_connection {A} (m : M A) : Prop := forall w, (m w).2.1 = w.1.

Lemma on_device_keeps {A} (m : stateful D BleError A) : keeps_connection (on_device m).
Proof. intros [c d]. unfold on_device. by destruct (m d). Qed.

Lemma handle_keeps char_uuid : keeps_connection (bc_handle char_uuid).
Proof. by intros [c d]. Qed.

Lemma bind_keeps {A B} (m : M A) (f : A -> M B) :
  keeps_connection m -> (forall a, keeps_connection (f a)) -> keeps_connection (m ≫= f).
Proof.
  intros Hm Hf w. specialize (Hm w). run. destruct (m w) as [[a|e|x] w1]; [|done..]. by rewrite Hf.
Qed.

Lemma read_attempt_keeps char_uuid : keeps_connection (read_attempt char_uuid).
Proof. apply bind_keeps; [apply handle_keeps|]. intros ch. apply on_device_keeps. Qed.
Lemma write_attempt_keeps char_uuid value : keeps_connection (write_attempt char_uuid value).
Proof. apply bind_keeps; [apply handle_keeps|]. intros ch. apply on_device_keeps. Qed.
Lemma iid_attempt_keeps char_uuid : keeps_connection (iid_attempt char_uuid).
Proof.
  apply bind_keeps; [apply handle_keeps|]. intros ch. apply bind_keeps; [apply on_device_keeps|]. intros descs.
  case_match; [|done]. apply bind_keeps; [apply on_device_keeps|]. done.
Qed.

(** A reconnect moves the generation once, whatever becomes of it. *)
Lemma reconnect_generation w :
  bc_generation (bluest_reconnect w).2.1 = wrapping_add 64 (bc_generation w.1) 1 /\
  bc_shape (bluest_reconnect w).2.1 = bc_shape w.1.
Proof.
  destruct w as [c d]. unfold bluest_reconnect, on_device. run. cbn [fst snd].
  destruct (timeout _ d) as [[a|e|x] d1]; [|done..].
  destruct (timeout _ d1) as [[[fresh|]|e|x] d2]; done.
Qed.

Lemma resume_ends {A} (attempt1 : M A) fuel attempts w :
  keeps_connection attempt1 -> attempts + fuel = S MAX_OP_RECONNECTS -> 0 < fuel ->
  exists k w1 begun, resumed attempt1 w k w1 /\ attempts + k <= MAX_OP_RECONNECTS /\
    ends attempt1 (attempts + k =? MAX_OP_RECONNECTS) w1 (resume fuel attempts attempt1 w) begun /\
    bc_generation (resume fuel attempts attempt1 w).2.1 = Nat.iter (k + begun) (fun g => wrapping_add 64 g 1) (bc_generation w.1) /\
    bc_shape (resume fuel attempts attempt1 w).2.1 = bc_shape w.1.
Proof.
  intros Hkeep. revert attempts w. induction fuel as [|fuel IH]; intros attempts w Ha Hf; [lia|].
  pose proof (Hkeep w) as Hk. cbn [resume]. unfold attempt, reconnect_bounded. run.
  destruct (attempt1 w) as [[a|e|x] w1] eqn:E1; cbn [snd] in Hk.
  1,3: exists 0, w, 0; split; [constructor|]; split; [lia|]; unfold ends; rewrite E1; cbn; by rewrite Hk.
  destruct (is_disconnect e) eqn:Hd.
  2:{ exists 0, w, 0. split; [constructor|]. split; [lia|]. unfold ends. rewrite E1. cbn. rewrite Hk. by destruct e. }
  destruct e; try done. clear Hd. destruct (Nat.ltb_spec MAX_OP_RECONNECTS (S attempts)) as [Hm|Hm].
  { exists 0, w, 0. split; [constructor|]. split; [lia|]. unfold ends. rewrite E1.
    rewrite (proj2 (Nat.eqb_eq (attempts + 0) _)) by lia. cbn. by rewrite Hk. }
  pose proof (reconnect_generation w1) as [Hg Hs]. destruct (bluest_reconnect w1) as [[[]|e|x] w2] eqn:E2; cbn [snd] in Hg, Hs.
  2,3: exists 0, w, 1; split; [constructor|]; split; [lia|]; unfold ends; rewrite E1, E2;
    rewrite (proj2 (Nat.eqb_neq (attempts + 0) _)) by lia; cbn; by rewrite Hg, Hs, Hk.
  destruct (IH (S attempts) w2) as (k & w3 & begun & Hr & Hle & He & Hge & Hsh); [lia..|].
  exists (S k), w3, begun. split; [by econstructor|]. split; [lia|].
  replace (attempts + S k) with (S attempts + k) by lia. split; [done|].
  rewrite Hge, Hsh, Hg, Hs, Hk. split; [|done].
  exact (Nat.iter_swap (k + begun) _ (fun g => wrapping_add 64 g 1) _).
Qed.

Lemma operation_resumes {A} (attempt1 : M A) w : keeps_connection attempt1 ->
  operation_ends attempt1 w (resume RESUME_FUEL 0 attempt1 w).
Proof.
  intros Hk. destruct (resume_ends attempt1 RESUME_FUEL 0 w Hk) as (k & w1 & begun & Hr); [done|unfold RESUME_FUEL; lia|].
  by exists k, w1, begun.
Qed.
End ending.

(** ** What discovery and the sweep find *)

Lemma lower_idem s : to_ascii_lowercase (to_ascii_lowercase s) = to_ascii_lowercase s.
Proof.
  unfold to_ascii_lowercase. rewrite <- list_fmap_compose. apply list_fmap_ext. intros i c _. cbn. unfold ascii_lower.
  destruct ((65 <=? c)%Z && (c <=? 90)%Z) eqn:Hc; [|by rewrite Hc].
  apply andb_true_iff in Hc as [H1%Z.leb_le H2%Z.leb_le]. rewrite (proj2 (Z.leb_le 65 _)) by lia.
  by rewrite (proj2 (Z.leb_gt _ 90)) by lia.
Qed.

Lemma eq_lower a b : eq_ignore_ascii_case (to_ascii_lowercase a) b = eq_ignore_ascii_case a b.
Proof. unfold eq_ignore_ascii_case. by rewrite lower_idem. Qed.

Lemma enumerated_lower p u : enumerated p (to_ascii_lowercase u) = enumerated p u.
Proof. unfold enumerated. by rewrite !eq_lower. Qed.

Section enumeration.
Context `{BLW : BluestLaws D}.
Local Abbreviation M := (stateful (BluestConnection * D) BleError).
Local Abbreviation lower c := (to_ascii_lowercase (fst c)).

(** The map has the handle of every listed characteristic. *)
Definition map_ok (m : gmap (list Z) bl_char) (l : list (list Z * option Z)) : Prop :=
  forall c, c ∈ l -> exists ch t, m !! lower c = Some ch /\ char_is ch t c.

Lemma map_ok_insert m l u ch : map_ok m l -> u ∉ (fun c => lower c) <$> l -> map_ok (<[u := ch]> m) l.
Proof.
  intros Hm Hu c Hc. destruct (Hm c Hc) as (ch' & t & Hl & Hch). exists ch', t. split; [|done].
  rewrite lookup_insert_ne; [done|]. intros ->. apply Hu, list_elem_of_fmap. by exists c.
Qed.

Lemma map_ok_snoc m l c ch t : map_ok m l -> lower c ∉ (fun c => lower c) <$> l -> char_is ch t c ->
  map_ok (<[lower c := ch]> m) (l ++ [c]).
Proof.
  intros Hm Hu Hch c' [Hc|Hc]%elem_of_app; [by eapply map_ok_insert|].
  apply list_elem_of_singleton in Hc as ->. exists ch, t. by rewrite lookup_insert_eq.
Qed.

(** The listed UUIDs are none of the two that every service has. *)
Definition proper (l : list (list Z * option Z)) : Prop :=
  NoDup ((fun c => lower c) <$> l) /\ Forall (fun c => eq_ignore_ascii_case c.1 HAP_SERVICE_ID_CHAR = false) l.

Lemma yields_discover_chars t m l uuids iid chs cs :
  map_ok m l -> proper (l ++ filter (fun c => enumerated (is_protocol_info (ts_uuid t)) c.1 = true) cs) ->
  Forall2 (fun ch c => ch.1 = c.1 /\ char_is ch.2 t c) chs cs ->
  yields (discover_chars (is_protocol_info (ts_uuid t)) (m, uuids, iid) chs) (fun found =>
    map_ok found.1.1 (l ++ filter (fun c => enumerated (is_protocol_info (ts_uuid t)) c.1 = true) cs) /\
    found.1.2 = uuids ++ ((fun c => lower c) <$> cs) /\
    found.2 = if is_protocol_info (ts_uuid t) && bool_decide (HAP_SERVICE_ID_CHAR ∈ (fun c => lower c) <$> cs)
              then ts_iid t else iid).
Proof.
  set (p := is_protocol_info (ts_uuid t)). intros Hm Hp Hall. revert m l uuids iid Hm Hp.
  induction Hall as [|[printed ch] c chs cs [He Hch] _ IH]; intros m l uuids iid Hm Hp; cbn [discover_chars].
  { apply yields_ret. cbn. rewrite !app_nil_r, andb_false_r. done. }
  cbn in He. subst printed.
  eapply (yields_bind _ _ (fun i => i = if p && bool_decide (lower c = HAP_SERVICE_ID_CHAR) then ts_iid t else iid)).
  { destruct (p && bool_decide (lower c = HAP_SERVICE_ID_CHAR)) eqn:Hid; [|by apply yields_ret].
    apply andb_true_iff in Hid as [_ Hid%bool_decide_eq_true]. eapply yields_bind.
    - apply yields_with_err. intros d v d' Hv. exact (service_id_law ch t c d v d' Hch Hid Hv).
    - intros v Hv. apply yields_ret. by rewrite Hv. }
  intros i ->.
  assert (forall i' rest, (if p && bool_decide (HAP_SERVICE_ID_CHAR ∈ rest) then ts_iid t else if p && bool_decide (lower c = HAP_SERVICE_ID_CHAR) then ts_iid t else i') =
            if p && bool_decide (HAP_SERVICE_ID_CHAR ∈ lower c :: rest) then ts_iid t else i') as Hiid.
  { intros i' rest. destruct p; [|done]. cbn. repeat case_bool_decide; try done; exfalso; set_solver. }
  destruct (enumerated p c.1) eqn:Hen.
  - rewrite filter_cons_True in Hp |- * by done.
    assert (bool_decide (lower c = SERVICE_SIGNATURE_CHAR) && negb p = false) as ->.
    { unfold enumerated, eq_ignore_ascii_case in Hen. apply andb_true_iff in Hen as [_ Hen%negb_true_iff].
      by change (to_ascii_lowercase SERVICE_SIGNATURE_CHAR) with SERVICE_SIGNATURE_CHAR in Hen. }
    assert (lower c ∉ (fun c => lower c) <$> l) as Hnew.
    { destruct Hp as [Hn _]. rewrite fmap_app, fmap_cons in Hn. apply NoDup_app in Hn as (_ & Hn & _).
      intros Hin. apply (Hn _ Hin). by left. }
    eapply yields_conseq; [apply (IH (<[lower c := ch]> m) (l ++ [c])); [by eapply map_ok_snoc|by rewrite <- app_assoc]|].
    intros [[m' us'] i'] (Hm' & -> & ->). cbn [fst snd] in *. rewrite <- app_assoc in Hm'.
    split; [done|]. split; [by rewrite <- app_assoc|]. apply Hiid.
  - rewrite filter_cons_False in Hp |- * by congruence.
    eapply yields_conseq; [apply (IH _ l); [|done]|].
    + destruct (bool_decide (lower c = SERVICE_SIGNATURE_CHAR) && negb p) eqn:Hs; [done|]. apply map_ok_insert; [done|].
      assert (lower c = HAP_SERVICE_ID_CHAR) as ->.
      { unfold enumerated, eq_ignore_ascii_case in Hen. apply andb_false_iff in Hen as [Hen%negb_false_iff|Hen%negb_false_iff];
          [by apply bool_decide_eq_true in Hen|].
        change (to_ascii_lowercase SERVICE_SIGNATURE_CHAR) with SERVICE_SIGNATURE_CHAR in Hen. congruence. }
      intros (c' & Hc' & Hin)%list_elem_of_fmap. destruct Hp as [_ Hp]. rewrite Forall_forall in Hp.
      specialize (Hp c' ltac:(apply elem_of_app; by left)). unfold eq_ignore_ascii_case in Hp.
      apply bool_decide_eq_false in Hp. by rewrite <- Hc' in Hp.
    + intros [[m' us'] i'] (Hm' & -> & ->). cbn [fst snd] in *. split; [done|]. split; [by rewrite <- app_assoc|]. apply Hiid.
Qed.

Lemma proper_prefix l1 l2 : proper (l1 ++ l2) -> proper l1.
Proof.
  intros [Hn Hf]. rewrite fmap_app in Hn. apply NoDup_app in Hn as (Hn & _). apply Forall_app in Hf as [Hf _]. done.
Qed.

Definition shape_of (s : TreeService) : ServiceShape :=
  {| ss_uuid := ts_uuid s; ss_char_uuids := (fun c => lower c) <$> ts_chars s; ss_iid := gs_iid (tree_service s) |}.

Lemma yields_discover_from m l shape svcs ts :
  map_ok m l -> proper (l ++ mjoin (listed <$> ts)) ->
  Forall2 (fun sv t => sv.1 = ts_uuid t /\ service_is sv.2 t) svcs ts ->
  yields (discover_from m shape svcs) (fun r => map_ok r.1 (l ++ mjoin (listed <$> ts)) /\ r.2 = shape ++ (shape_of <$> ts)).
Proof.
  intros Hm Hp Hall. revert m l shape Hm Hp.
  induction Hall as [|[printed svc] t svcs ts [He Hs] _ IH]; intros m l shape Hm Hp; cbn [discover_from fmap list_fmap mjoin list_join] in *.
  { apply yields_ret. by rewrite !app_nil_r. }
  cbn in He. subst printed. rewrite app_assoc in Hp.
  eapply yields_bind; [apply yields_with_err; intros d chs d'; apply (chars_law svc t d chs d' Hs)|]. intros chs Hchs.
  eapply yields_bind; [apply (yields_discover_chars t m l [] 0%Z chs (ts_chars t) Hm); [by eapply proper_prefix|done]|].
  intros [[m' us] iid] (Hm' & Hus & Hiid). cbn [fst snd app] in *. subst us iid.
  eapply yields_conseq; [by apply (IH m' (l ++ listed t))|]. intros [m'' shape'] (Hm'' & Hsh). cbn [fst snd] in *. subst shape'.
  rewrite app_assoc. split; [done|]. rewrite <- app_assoc. cbn [app]. do 2 f_equal.
  unfold shape_of, tree_service; cbn. f_equal. by rewrite <- list_fmap_compose.
Qed.

(** No two listed characteristics of the accessory have the same UUID. *)
Definition distinct_uuids : Prop := NoDup ((fun c => lower c) <$> mjoin (listed <$> bl_tree)).
Context (Hdistinct : distinct_uuids).

Lemma listed_proper : proper (mjoin (listed <$> bl_tree)).
Proof.
  split; [done|]. apply Forall_forall. intros c (l & Hin & (t & -> & _)%list_elem_of_fmap)%list_elem_of_join.
  apply list_elem_of_filter in Hin as [Hen _]. unfold enumerated in Hen. by apply andb_true_iff in Hen as [Hen%negb_true_iff _].
Qed.

Lemma yields_bluest_discover : yields bluest_discover (fun r => map_ok r.1 (mjoin (listed <$> bl_tree)) /\ r.2 = shape_of <$> bl_tree).
Proof.
  unfold bluest_discover. eapply yields_bind; [apply yields_with_err; intros d svcs d'; apply services_law|]. intros svcs Hsvcs.
  apply (yields_discover_from ∅ [] []); [|apply listed_proper|done]. by intros c Hc%elem_of_nil.
Qed.

(** A connection whose handles are those of the accessory. *)
Definition conn_ok (c : BluestConnection) : Prop :=
  map_ok (bc_chars c) (mjoin (listed <$> bl_tree)) /\ bc_shape c = shape_of <$> bl_tree.

Lemma yields_new : yields bluest_new conn_ok.
Proof. unfold bluest_new. eapply yields_bind; [apply yields_bluest_discover|]. intros found Hf. by apply yields_ret. Qed.

(** ** Operations on such a connection *)

Definition keeps {A} (m : M A) (P : A -> Prop) : Prop :=
  forall c d, conn_ok c -> conn_ok (m (c, d)).2.1 /\ forall a, (m (c, d)).1 = Ok a -> P a.

Lemma keeps_ret {A} (a : A) (P : A -> Prop) : P a -> keeps (mret a) P.
Proof. intros HP c d Hc. split; [done|]. by intros a' [= <-]. Qed.

Lemma keeps_conseq {A} (m : M A) (P Q : A -> Prop) : keeps m P -> (forall a, P a -> Q a) -> keeps m Q.
Proof. intros Hm HQ c d Hc. destruct (Hm c d Hc) as [Hc' HP]. split; [done|]. intros a Ha. by apply HQ, HP. Qed.

Lemma keeps_lift_err {A} e (P : A -> Prop) : keeps (lift (Err e)) P.
Proof. intros c d Hc. done. Qed.

Lemma keeps_bind {A B} (m : M A) (f : A -> M B) Q P : keeps m Q -> (forall a, Q a -> keeps (f a) P) -> keeps (m ≫= f) P.
Proof.
  intros Hm Hf c d Hc. specialize (Hm c d Hc). run. destruct (m (c, d)) as [[a|e|x] [c1 d1]]; destruct Hm as [Hc1 HQ]; [|done..].
  apply (Hf a); [by apply HQ|done].
Qed.

Lemma keeps_attempt {A} (m : M A) (P : A -> Prop) : keeps m P -> keeps (attempt m) (fun r => match r with inl a => P a | inr _ => True end).
Proof.
  intros Hm c d Hc. specialize (Hm c d Hc). unfold attempt. destruct (m (c, d)) as [[a|e|x] [c1 d1]]; destruct Hm as [Hc1 HP];
    (split; [done|]); intros r [= <-]; [by apply HP|done].
Qed.

Lemma keeps_on_device {A} (m : stateful D BleError A) P : yields m P -> keeps (on_device m) P.
Proof.
  intros Hm c d Hc. unfold on_device. destruct (m d) as [r d'] eqn:Hr. split; [done|]. intros a Ha. cbn in Ha. subst r. by eapply Hm.
Qed.

Lemma keeps_reconnect : keeps bluest_reconnect (fun _ => True).
Proof.
  unfold bluest_reconnect. eapply (keeps_bind _ _ (fun _ => True)); [by intros c d [? ?]|]. intros _ _.
  eapply keeps_bind; [apply keeps_on_device, yields_any|]. intros _ _.
  eapply (keeps_bind _ _ (fun r => match r with Some fresh => map_ok fresh.1 (mjoin (listed <$> bl_tree)) | None => True end)).
  - apply keeps_on_device. intros d r d'. unfold timeout. destruct (timer_fires d) as [[|] d1]; [by intros [= <- _]|].
    revert d1 r d'. change (yields (a ← (_ ← with_err be connect_device; bluest_discover); mret (Some a))
      (fun r => match r with Some fresh => map_ok fresh.1 (mjoin (listed <$> bl_tree)) | None => True end)).
    eapply yields_bind; [apply yields_bind_any; intros _; apply yields_bluest_discover|]. intros a [Ha _]. by apply yields_ret.
  - intros [fresh|] Hf; [|apply keeps_lift_err]. by intros c d [_ Hs].
Qed.

Lemma keeps_resume {A} fuel attempts (m : M A) P : keeps m P -> keeps (resume fuel attempts m) P.
Proof.
  intros Hm. revert attempts. induction fuel as [|fuel IH]; intros attempts; cbn [resume]; [by intros c d Hc|].
  eapply keeps_bind; [by apply keeps_attempt|]. intros [a|e] Ha; [by apply keeps_ret|].
  destruct (is_disconnect e); [|apply keeps_lift_err]. eapply (keeps_bind _ _ (fun _ => True)); [|intros n _; apply IH].
  unfold reconnect_bounded. eapply (keeps_bind _ _ (fun _ => True)); [|intros _ _; by apply keeps_ret].
  case_match; [apply keeps_lift_err|apply keeps_reconnect].
Qed.

Lemma keeps_read_iid u c : c ∈ mjoin (listed <$> bl_tree) -> to_ascii_lowercase u = lower c -> keeps (read_iid u) (fun iid => iid = c.2).
Proof.
  intros Hin Hu. apply keeps_resume. unfold iid_attempt. eapply (keeps_bind _ _ (fun ch => exists t, char_is ch t c)).
  - intros c0 d Hc. split; [done|]. cbn. rewrite Hu. destruct Hc as [Hm _]. destruct (Hm c Hin) as (ch & t & -> & Hch).
    intros ch' [= <-]. by exists t.
  - intros ch [t Hch]. eapply keeps_bind.
    + apply keeps_on_device, yields_with_err. intros d descs d'. by apply (descs_law ch t c).
    + intros descs Hd. cbn beta in Hd. destruct (List.find _ descs) as [desc|]; [|by apply keeps_ret].
      eapply keeps_bind; [apply keeps_on_device, yields_with_err; intros d v d'; by apply (desc_law desc.2 c.2)|].
      intros v Hv. by apply keeps_ret.
Qed.

Lemma keeps_enumerate_chars s cs out : s ∈ bl_tree -> cs ⊆ ts_chars s ->
  keeps (enumerate_chars (is_protocol_info (ts_uuid s)) out ((fun c => lower c) <$> cs))
    (fun l => l = out ++ omap (fun c => iid ← c.2; Some {| gc_uuid := lower c; gc_iid := iid |})
                           (filter (fun c => enumerated (is_protocol_info (ts_uuid s)) c.1 = true) cs)).
Proof.
  intros Hs. revert out. induction cs as [|c cs IH]; intros out Hsub; cbn [enumerate_chars fmap list_fmap].
  { apply keeps_ret. by rewrite app_nil_r. }
  assert (cs ⊆ ts_chars s) as Hsub' by set_solver. assert (c ∈ ts_chars s) as Hc by set_solver.
  rewrite !eq_lower. destruct (enumerated (is_protocol_info (ts_uuid s)) c.1) eqn:Hen.
  - rewrite filter_cons_True by done. pose proof Hen as Hen'. unfold enumerated in Hen'. apply andb_true_iff in Hen' as [->%negb_true_iff ->%negb_true_iff].
    eapply keeps_bind; [apply (keeps_read_iid _ c); [|apply lower_idem]|].
    { apply list_elem_of_join. exists (listed s). split; [|by apply list_elem_of_fmap_2]. by apply list_elem_of_filter. }
    intros iid ->. eapply keeps_conseq; [apply (IH _ Hsub')|]. intros l ->. rewrite <- app_assoc. cbn. by destruct c.2.
  - rewrite filter_cons_False by congruence. unfold enumerated in Hen. apply andb_false_iff in Hen as [->%negb_false_iff|Hsig%negb_false_iff].
    + by apply IH.
    + rewrite Hsig. case_match; by apply IH.
Qed.

Lemma keeps_enumerate_from ts out : ts ⊆ bl_tree ->
  keeps (enumerate_from out (shape_of <$> ts)) (fun services => services = out ++ (tree_service <$> ts)).
Proof.
  revert out. induction ts as [|s ts IH]; intros out Hsub; cbn [enumerate_from fmap list_fmap].
  { apply keeps_ret. by rewrite app_nil_r. }
  eapply keeps_bind; [apply (keeps_enumerate_chars s (ts_chars s) []); [set_solver|done]|]. intros l ->.
  eapply keeps_conseq; [apply IH; set_solver|]. intros services ->. by rewrite <- app_assoc.
Qed.

Lemma keeps_enumerate : keeps bluest_enumerate (fun services => services = tree_service <$> bl_tree).
Proof.
  intros c d Hc. unfold bluest_enumerate. cbn [fst]. rewrite (proj2 Hc).
  by apply (keeps_enumerate_from bl_tree []).
Qed.

Lemma keeps_read u : keeps (bluest_read u) (fun _ => True).
Proof.
  apply keeps_resume. eapply (keeps_bind _ _ (fun _ => True)); [by intros c d Hc|]. intros ch _.
  apply keeps_on_device, yields_any.
Qed.
Lemma keeps_write u value : keeps (bluest_write u value) (fun _ => True).
Proof.
  apply keeps_resume. eapply (keeps_bind _ _ (fun _ => True)); [by intros c d Hc|]. intros ch _.
  apply keeps_on_device, yields_any.
Qed.

Lemma keeps_instance_id u : keeps (bluest_instance_id u) (fun iid =>
  forall c, c ∈ mjoin (listed <$> bl_tree) -> lower c = to_ascii_lowercase u -> c.2 = Some iid).
Proof.
  intros c0 d Hc.
  assert (keeps (read_iid u) (fun iid => forall c, c ∈ mjoin (listed <$> bl_tree) -> lower c = to_ascii_lowercase u -> c.2 = iid)) as Hk.
  { intros c1 d1 Hc1. split.
    - apply (keeps_resume _ _ _ (fun _ => True)); [|done]. intros c2 d2 Hc2. split; [|done].
      by rewrite (iid_attempt_keeps u (c2, d2)).
    - intros iid Hiid c Hin Hu. symmetry. by apply (keeps_read_iid u c Hin (eq_sym Hu) c1 d1 Hc1). }
  revert c0 d Hc. change (keeps (bluest_instance_id u) (fun iid =>
    forall c, c ∈ mjoin (listed <$> bl_tree) -> lower c = to_ascii_lowercase u -> c.2 = Some iid)).
  eapply keeps_bind; [exact Hk|]. intros [iid|] Hi; [by apply keeps_ret|apply keeps_lift_err].
Qed.

(** A connection that was opened and used, while anything happens on the air. *)
Inductive used : BluestConnection * D -> Prop :=
| used_new d c d' : bluest_new d = (Ok c, d') -> used (c, d')
| used_air c d d' : used (c, d) -> used (c, d')
| used_read w u : used w -> used (bluest_read u w).2
| used_write w u value : used w -> used (bluest_write u value w).2
| used_instance_id w u : used w -> used (bluest_instance_id u w).2
| used_enumerate w : used w -> used (bluest_enumerate w).2.

Lemma used_ok w : used w -> conn_ok w.1.
Proof.
  induction 1 as [d c d' Hn|c d d' _ IH|w u _ IH|w u value _ IH|w u _ IH|w _ IH]; try (destruct w as [c d]); cbn [fst] in *.
  - by eapply yields_new.
  - done.
  - by apply keeps_read.
  - by apply keeps_write.
  - by apply keeps_instance_id.
  - by apply keeps_enumerate.
Qed.
End enumeration.

(** * Theorems *)

(** An operation over the radio ends in exactly one of these ways, after at most eight
    attempts that found the link lost and were each followed by a reconnect that worked: the
    attempt is answered and its answer is returned; it finds the link lost once more, which
    is the error if eight reconnects were made; or that reconnect fails, with its error.  The
    link generation moves by the number of reconnects begun, so it stands still exactly when
    the link was never found lost and moves whenever an accessory may have dropped a session. *)
Theorem bluest_operations_resume `{Bluest D} char_uuid value (w : BluestConnection * D) :
  operation_ends (read_attempt char_uuid) w (bluest_read char_uuid w) /\
  operation_ends (write_attempt char_uuid value) w (bluest_write char_uuid value w) /\
  operation_ends (iid_attempt char_uuid) w (read_iid char_uuid w).
Proof.
  split; [|split]; apply operation_resumes; [apply read_attempt_keeps|apply write_attempt_keeps|apply iid_attempt_keeps].
Qed.

(** C22: However often the link drops during the sweep, before it or since the connection was
    opened, an enumeration that succeeds reports every service of the accessory's GATT
    database, in order: its UUID; its characteristics that have an instance-id descriptor,
    each with the value of its own, but for the Service-Instance-ID characteristic and,
    outside the Protocol-Information service, the Service-Signature characteristic; and as
    the service's instance id the one of the Protocol-Information service where it states
    one, and 0 for every other service.  An instance id read singly is that
    characteristic's.  No result mixes links or misses what came before a drop.  It is
    relied on that no two characteristics listed have the same UUID. *)
Theorem bluest_enumerates `{BLW : BluestLaws D} (w : BluestConnection * D) char_uuid :
  distinct_uuids -> used w ->
  (if (bluest_enumerate w).1 is Ok services then services = tree_service <$> bl_tree else True) /\
  (if (bluest_instance_id char_uuid w).1 is Ok iid
   then forall c, c ∈ mjoin (listed <$> bl_tree) -> to_ascii_lowercase c.1 = to_ascii_lowercase char_uuid -> c.2 = Some iid
   else True).
Proof.
  intros Hd Hu. apply used_ok in Hu; [|done]. destruct w as [c d]. cbn [fst] in Hu.
  destruct (keeps_enumerate Hd c d Hu) as [_ He]. destruct (keeps_instance_id Hd char_uuid c d Hu) as [_ Hi]. split.
  - destruct (bluest_enumerate (c, d)) as [[services|e|x] w']; [exact (He _ eq_refl)|done..].
  - destruct (bluest_instance_id char_uuid (c, d)) as [[iid|e|x] w']; [exact (Hi _ eq_refl)|done..].
Qed.

(** * Witness: a device whose link is lost at the calls marked in a schedule *)

Section air.
Context (tree : list TreeService).

Definition air_call {A} (answer : A) : stateful (list bool) BluestError A := fun schedule =>
  match schedule with
  | true :: schedule => (Err {| be_kind := NotConnected; be_message := [] |}, schedule)
  | _ => (Ok answer, tail schedule)
  end.

Definition air_bluest : Bluest (list bool) := {|
  bl_service := TreeService;
  bl_char := TreeService * (list Z * option Z);
  bl_desc := bytes;
  discover_services := air_call ((fun t => (ts_uuid t, t)) <$> tree);
  discover_characteristics t := air_call ((fun c => (c.1, (t, c))) <$> ts_chars t);
  discover_descriptors ch :=
    air_call match ch.2.2 with Some iid => [(HAP_INSTANCE_ID_DESC, [Zbyte iid; x00])] | None => [] end;
  desc_read desc := air_call desc;
  char_read ch := air_call [Zbyte (ts_iid ch.1); x00];
  char_write _ _ := air_call ();
  max_write_len _ _ := None;
  connect_device := air_call ();
  disconnect_device := air_call ();
  wait_available := air_call ();
  timer_fires schedule := (false, schedule)
|}.

(** Instance ids of one byte. *)
Definition air_tree_ok : Prop :=
  Forall (fun t => in_u 8 (ts_iid t) /\ Forall (fun c => from_option (in_u 8) True c.2) (ts_chars t)) tree.

Lemma u16_le_small n : in_u 8 n -> u16_le [Zbyte n; x00] = Some n.
Proof. intros Hn. cbn. rewrite byteZ_Zbyte_small by exact Hn. f_equal. change (byteZ x00) with 0%Z. lia. Qed.

Lemma air_call_ok {A} (a a' : A) d d' : air_call a d = (Ok a', d') -> a' = a.
Proof. destruct d as [|[|] d]; cbn; by intros [=]. Qed.

Lemma air_bluest_laws (Hok : air_tree_ok) : BluestLaws (list bool) (H := air_bluest).
Proof.
  assert (forall t, t ∈ tree -> in_u 8 (ts_iid t) /\ forall c, c ∈ ts_chars t -> from_option (in_u 8) True c.2) as Hiid.
  { intros t Ht. unfold air_tree_ok in Hok. rewrite Forall_forall in Hok. destruct (Hok t Ht) as [? Hc].
    rewrite Forall_forall in Hc. done. }
  refine {| bl_tree := tree; service_is := fun (s : bl_service (Bluest := air_bluest)) t => s = t /\ t ∈ tree;
            char_is := fun (ch : bl_char (Bluest := air_bluest)) t c => ch = (t, c) /\ t ∈ tree /\ c ∈ ts_chars t;
            desc_is := fun (v : bl_desc (Bluest := air_bluest)) iid => u16_le v = iid |}.
  - intros d svcs d' ->%air_call_ok. apply Forall2_fmap_l, Forall_Forall2_diag, Forall_forall. done.
  - intros svc t d chs d' [-> Ht] ->%air_call_ok. apply Forall2_fmap_l, Forall_Forall2_diag, Forall_forall. done.
  - intros ch t c d descs d' (-> & Ht & Hc) ->%air_call_ok. destruct (Hiid t Ht) as [_ Hi]. specialize (Hi c Hc). cbn [snd].
    destruct c as [u [iid|]]; [|done]. change (u16_le [Zbyte iid; x00] = Some iid). by apply u16_le_small.
  - intros desc iid d v d' Hd ->%air_call_ok. done.
  - intros ch t c d v d' (-> & Ht & Hc) _ ->%air_call_ok. apply u16_le_small, (Hiid t Ht).
Defined.
End air.

Definition char_uuid_of (short : string) : list Z := chars short ++ chars "-0000-1000-8000-0026bb765291".
Definition demo_tree : list TreeService :=
  [{| ts_uuid := PROTOCOL_INFO_SERVICE; ts_iid := 16;
      ts_chars := [(HAP_SERVICE_ID_CHAR, None); (SERVICE_SIGNATURE_CHAR, Some 17); (char_uuid_of "00000037", Some 18)] |};
   {| ts_uuid := char_uuid_of "00000043"; ts_iid := 48;
      ts_chars := [(HAP_SERVICE_ID_CHAR, None); (SERVICE_SIGNATURE_CHAR, Some 49); (char_uuid_of "00000025", Some 51)] |}]%Z.

Lemma demo_gatt_tree_ok : air_tree_ok demo_tree.
Proof. repeat (constructor || split); cbn; lia. Qed.

(** The link is lost while the database is discovered and in the middle of the sweep. *)
Definition demo_opened := bluest_new (H := air_bluest demo_tree) [].
Definition demo_connection : BluestConnection (H := air_bluest demo_tree) :=
  match demo_opened.1 with Ok c => c | _ => {| bc_chars := ∅; bc_shape := []; bc_generation := 0 |} end.
Definition demo_schedule : list bool := [false; false; false; true; true; false; false; false; false; false; false; true].

Lemma bluest_enumerates_witness :
  (if (bluest_enumerate (H := air_bluest demo_tree) (demo_connection, demo_schedule)).1 is Ok services
   then services = tree_service <$> demo_tree else True) /\
  (if (bluest_instance_id (H := air_bluest demo_tree) (char_uuid_of "00000025") (demo_connection, demo_schedule)).1 is Ok iid
   then forall c, c ∈ mjoin (listed <$> demo_tree) ->
          to_ascii_lowercase c.1 = to_ascii_lowercase (char_uuid_of "00000025") -> c.2 = Some iid
   else True).
Proof.
  apply (bluest_enumerates (BLW := air_bluest_laws demo_tree demo_gatt_tree_ok) (demo_connection, demo_schedule) (char_uuid_of "00000025")).
  - by apply (bool_decide_unpack _); vm_compute.
  - assert ((if demo_opened.1 is Ok _ then true else false) = true) as Hok by by vm_compute.
    unfold demo_connection. destruct demo_opened as [[c|e|x] d'] eqn:Ho; [|discriminate Hok..].
    exact (used_air c d' demo_schedule (used_new (H := air_bluest demo_tree) [] c d' Ho)).
Defined.

(** The sweep of the witness meets two losses and still lists everything. *)
Example demo_sweep :
  let '(r, (c, _)) := bluest_enumerate (H := air_bluest demo_tree) (demo_connection, demo_schedule) in
  r = Ok (tree_service <$> demo_tree) /\ bc_generation c = 2%Z.
Proof. by vm_compute. Qed.

(** Two characteristics with the same UUID, here the names of two services, are one entry of
    the handle map: the sweep gives both the instance id of the second. *)
Definition shared_tree : list TreeService :=
  [{| ts_uuid := char_uuid_of "0000003e"; ts_iid := 1; ts_chars := [(char_uuid_of "00000023", Some 5)] |};
   {| ts_uuid := char_uuid_of "00000043"; ts_iid := 6; ts_chars := [(char_uuid_of "00000023", Some 7)] |}]%Z.

Definition swept_iids (tree : list TreeService) : option (list (list Z)) :=
  match bluest_new (H := air_bluest tree) [] with
  | (Ok c, d) =>
      match (bluest_enumerate (H := air_bluest tree) (c, d)).1 with
      | Ok l => Some (List.map (fun s => gc_iid <$> gs_characteristics s) l)
      | _ => None
      end
  | _ => None
  end.

Lemma shared_uuid_collapses : swept_iids shared_tree = Some [[7]; [7]]%Z.
Proof. by vm_compute. Qed.
