(* ===== verification/ScanGate.v ===== *)
(** * [hap-ble/src/scan_gate.rs]: who owns the radio

    [ScanGate] lets a connect pause the advertisement scan of [BluestConnection]: the scan
    task ([watch_adverts]) and any number of callers of [pause] take the steps of their code
    in any interleaving.  A [watch] channel is its value and whether its receiver has seen
    the last send. *)

From S2P Require Import Prelude.

(** Where the scan task is. *)
Inductive ScanTask :=
| HoldOff                    (* before looking at the pause value *)
| Waiting                    (* paused, in [pause.changed()] *)
| Starting                   (* in [adapter.scan] *)
| Started                    (* the stream is open, the flag not yet set *)
| Scanning                   (* in the [select] *)
| Stopping (for_pause : bool)  (* out of the [select], holding the stream *)
| Dropped (for_pause : bool)   (* the stream dropped, the flag still set *)
| Ended.

(** Where a caller of [pause] is; [Guarded] is the guard it returns, by the acknowledgement
    or by the time limit; [Resumed] is a guard half dropped. *)
Inductive Pauser := WantLock | HasLock | Requested | Guarded (timed_out : bool) | Resumed.

Record GateState := {
  pause_value : bool; pause_unseen : bool; scanning_value : bool; gate_lock : option nat;
  scan_task : ScanTask; pausers : gmap nat Pauser
}.

Definition send_pause (v : bool) (s : GateState) : GateState :=
  {| pause_value := v; pause_unseen := true; scanning_value := scanning_value s; gate_lock := gate_lock s;
     scan_task := scan_task s; pausers := pausers s |}.
Definition see_pause (s : GateState) : GateState :=
  {| pause_value := pause_value s; pause_unseen := false; scanning_value := scanning_value s; gate_lock := gate_lock s;
     scan_task := scan_task s; pausers := pausers s |}.
Definition set_scanning (v : bool) (s : GateState) : GateState :=
  {| pause_value := pause_value s; pause_unseen := pause_unseen s; scanning_value := v; gate_lock := gate_lock s;
     scan_task := scan_task s; pausers := pausers s |}.
Definition set_lock (l : option nat) (s : GateState) : GateState :=
  {| pause_value := pause_value s; pause_unseen := pause_unseen s; scanning_value := scanning_value s; gate_lock := l;
     scan_task := scan_task s; pausers := pausers s |}.
Definition set_task (t : ScanTask) (s : GateState) : GateState :=
  {| pause_value := pause_value s; pause_unseen := pause_unseen s; scanning_value := scanning_value s; gate_lock := gate_lock s;
     scan_task := t; pausers := pausers s |}.
Definition set_pausers (ps : gmap nat Pauser) (s : GateState) : GateState :=
  {| pause_value := pause_value s; pause_unseen := pause_unseen s; scanning_value := scanning_value s; gate_lock := gate_lock s;
     scan_task := scan_task s; pausers := ps |}.

Definition gate_new : GateState :=
  {| pause_value := false; pause_unseen := false; scanning_value := false; gate_lock := None;
     scan_task := HoldOff; pausers := ∅ |}.

(** One turn of the scan task. *)
Inductive scan_step : GateState -> GateState -> Prop :=
| scan_look s : scan_task s = HoldOff ->
    scan_step s (set_task (if pause_value s then Waiting else Starting) (see_pause s))
| scan_wake s : scan_task s = Waiting -> pause_unseen s = true -> scan_step s (set_task HoldOff (see_pause s))
| scan_starts s : scan_task s = Starting -> scan_step s (set_task Started s)
| scan_fails s : scan_task s = Starting -> scan_step s (set_task Ended s)
| scan_flags s : scan_task s = Started -> scan_step s (set_task Scanning (set_scanning true s))
| scan_changed s : scan_task s = Scanning -> pause_unseen s = true ->
    scan_step s (set_task (if pause_value s then Stopping true else Scanning) (see_pause s))
| scan_frame s : scan_task s = Scanning -> scan_step s s
| scan_closed s : scan_task s = Scanning -> scan_step s (set_task (Stopping false) s)
| scan_drops s b : scan_task s = Stopping b -> scan_step s (set_task (Dropped b) s)
| scan_unflags s b : scan_task s = Dropped b ->
    scan_step s (set_task (if b then HoldOff else Ended) (set_scanning false s)).

(** A step of caller [i]. *)
Inductive pause_step (i : nat) : GateState -> GateState -> Prop :=
| pause_call s : pausers s !! i = None -> pause_step i s (set_pausers (<[i := WantLock]> (pausers s)) s)
| pause_abandon s : pausers s !! i = Some WantLock -> pause_step i s (set_pausers (delete i (pausers s)) s)
| pause_lock s : pausers s !! i = Some WantLock -> gate_lock s = None ->
    pause_step i s (set_pausers (<[i := HasLock]> (pausers s)) (set_lock (Some i) s))
| pause_request s : pausers s !! i = Some HasLock ->
    pause_step i s (set_pausers (<[i := Requested]> (pausers s)) (send_pause true s))
| pause_ack s : pausers s !! i = Some Requested -> scanning_value s = false ->
    pause_step i s (set_pausers (<[i := Guarded false]> (pausers s)) s)
| pause_timeout s : pausers s !! i = Some Requested ->
    pause_step i s (set_pausers (<[i := Guarded true]> (pausers s)) s)
| pause_cancel s : pausers s !! i = Some Requested ->
    pause_step i s (set_pausers (<[i := Resumed]> (pausers s)) (send_pause false s))
| guard_drop s b : pausers s !! i = Some (Guarded b) ->
    pause_step i s (set_pausers (<[i := Resumed]> (pausers s)) (send_pause false s))
| guard_unlock s : pausers s !! i = Some Resumed ->
    pause_step i s (set_pausers (delete i (pausers s)) (set_lock None s)).

Inductive gate_step : GateState -> GateState -> Prop :=
| step_scan s s' : scan_step s s' -> gate_step s s'
| step_pause i s s' : pause_step i s s' -> gate_step s s'.

(** Whether a caller asks for the radio. *)
Definition asking (p : Pauser) : bool := match p with Requested | Guarded _ => true | _ => false end.
Definition locked (p : Pauser) : bool := match p with WantLock => false | _ => true end.

(** Steps during which caller [i] keeps asking. *)
Definition step_under (i : nat) (s s' : GateState) : Prop :=
  gate_step s s' /\ exists p, pausers s' !! i = Some p /\ asking p = true.

(** The stream of [adapter.scan] is open. *)
Definition streaming (t : ScanTask) : bool := match t with Started | Scanning | Stopping _ => true | _ => false end.
(** The stream is being opened: the task is between its look at the pause value and the flag. *)
Definition in_flight (t : ScanTask) : bool := match t with Starting | Started => true | _ => false end.
(** Where the flag the acknowledgement reads is set. *)
Definition flagged (t : ScanTask) : bool := match t with Scanning | Stopping _ | Dropped _ => true | _ => false end.

(** * Lemmas *)

Record gate_ok (s : GateState) : Prop := {
  ok_lock i : gate_lock s = Some i <-> exists p, pausers s !! i = Some p /\ locked p = true;
  ok_pause : pause_value s = true <-> exists i p, pausers s !! i = Some p /\ asking p = true;
  ok_flag : scanning_value s = flagged (scan_task s);
  ok_unseen : pause_value s = true -> in_flight (scan_task s) = true \/ scan_task s = Scanning -> pause_unseen s = true
}.

Lemma gate_new_ok : gate_ok gate_new.
Proof.
  split; cbn; [intros i|split..|]; try done.
  - split; [done|]. by intros (p & Hp & _).
  - by intros (i & p & Hp & _).
Qed.

Lemma scan_step_ok s s' : gate_ok s -> scan_step s s' -> gate_ok s'.
Proof.
  intros [Hl Hp Hf Hu] Hs.
  destruct Hs as [s Ht|s Ht Hun|s Ht|s Ht|s Ht|s Ht Hun|s Ht|s Ht|s b Ht|s b Ht]; rewrite Ht in *;
    cbn [flagged in_flight] in *; split; cbn; try done;
    try (destruct (pause_value s)); try (destruct b); cbn; try done;
    try (by rewrite ?Ht); try (by intros _ [?|?]); try (by intros; apply Hu; [|left]); by intros; apply Hu; [|right].
Qed.

(** ** Callers *)

Lemma locked_insert s i p q l : gate_ok s -> pausers s !! i = Some p -> locked p = true -> locked q = true ->
  l = gate_lock s ->
  forall j, l = Some j <-> exists p, <[i := q]> (pausers s) !! j = Some p /\ locked p = true.
Proof.
  intros [Hl _ _ _] Hi Hp Hq -> j. rewrite Hl. destruct (decide (i = j)) as [<-|Hne].
  - rewrite lookup_insert_eq. split; intros _; by eexists.
  - by rewrite lookup_insert_ne.
Qed.

(** The caller that holds the lock is the only one asking. *)
Lemma asking_holder s i j p q : gate_ok s -> pausers s !! i = Some p -> locked p = true ->
  pausers s !! j = Some q -> locked q = true -> i = j.
Proof.
  intros [Hl _ _ _] Hi Hp Hj Hq. assert (gate_lock s = Some i) as H1 by (apply Hl; by exists p).
  assert (gate_lock s = Some j) as H2 by (apply Hl; by exists q). congruence.
Qed.

Lemma asking_locked p : asking p = true -> locked p = true.
Proof. by destruct p. Qed.

(** Among callers of which [i] holds the lock, someone asks exactly when [i] does. *)
Lemma asking_insert s i p q : gate_ok s -> pausers s !! i = Some p -> locked p = true ->
  (exists j r, <[i := q]> (pausers s) !! j = Some r /\ asking r = true) <-> asking q = true.
Proof.
  intros Hok Hi Hp. split.
  - intros (j & r & Hj & Hr). destruct (decide (i = j)) as [<-|Hne].
    + rewrite lookup_insert_eq in Hj. by simplify_eq.
    + rewrite lookup_insert_ne in Hj by done. destruct Hne. by eapply asking_holder, asking_locked.
  - intros Hq. exists i, q. by rewrite lookup_insert_eq.
Qed.

Lemma asking_unlocked s i q : locked q = false -> (pausers s !! i = None \/ pausers s !! i = Some WantLock) ->
  (exists j r, <[i := q]> (pausers s) !! j = Some r /\ asking r = true) <->
  (exists j r, pausers s !! j = Some r /\ asking r = true).
Proof.
  intros Hq Hi. split; intros (j & r & Hj & Hr); exists j, r; (split; [|done]).
  - destruct (decide (i = j)) as [<-|Hne]; [|by rewrite lookup_insert_ne in Hj].
    rewrite lookup_insert_eq in Hj. simplify_eq. apply asking_locked in Hr. congruence.
  - rewrite lookup_insert_ne; [done|]. intros ->. destruct Hi as [Hi|Hi]; rewrite Hi in Hj; by simplify_eq.
Qed.

Lemma pause_step_ok i s s' : gate_ok s -> pause_step i s s' -> gate_ok s'.
Proof.
  intros Hok Hs. pose proof Hok as [Hl Hp Hf Hu].
  destruct Hs as [s Hi|s Hi|s Hi Hn|s Hi|s Hi Hsc|s Hi|s Hi|s b Hi|s Hi]; split; cbn; try done.
  - intros j. rewrite Hl. split; intros (p & Hj & Hlk); exists p; (split; [|done]).
    + rewrite lookup_insert_ne; [done|]. intros ->. congruence.
    + destruct (decide (i = j)) as [<-|Hne]; [rewrite lookup_insert_eq in Hj; by simplify_eq|by rewrite lookup_insert_ne in Hj].
  - rewrite Hp. symmetry. apply asking_unlocked; [done|by left].
  - intros j. rewrite Hl. split; intros (p & Hj & Hlk); exists p; (split; [|done]).
    + rewrite lookup_delete_ne; [done|]. intros ->. by rewrite Hi in Hj; simplify_eq.
    + by apply lookup_delete_Some in Hj as [_ Hj].
  - rewrite Hp. split; intros (j & r & Hj & Hr); exists j, r; (split; [|done]).
    + rewrite lookup_delete_ne; [done|]. intros ->. by rewrite Hi in Hj; simplify_eq.
    + by apply lookup_delete_Some in Hj as [_ Hj].
  - assert (forall j p, pausers s !! j = Some p -> locked p = true -> False) as Hno.
    { intros j p Hj Hlk. assert (gate_lock s = Some j) by (apply Hl; by exists p). congruence. }
    intros j. split.
    + intros [= <-]. exists HasLock. by rewrite lookup_insert_eq.
    + intros (p & Hj & Hlk). destruct (decide (i = j)) as [<-|Hne]; [done|]. rewrite lookup_insert_ne in Hj by done. by destruct (Hno j p).
  - rewrite Hp. split; intros (j & r & Hj & Hr).
    + exists j, r. rewrite lookup_insert_ne; [done|]. intros ->. rewrite Hi in Hj. by simplify_eq.
    + destruct (decide (i = j)) as [<-|Hne]; [rewrite lookup_insert_eq in Hj; by simplify_eq|].
      rewrite lookup_insert_ne in Hj by done. by exists j, r.
  - by apply (locked_insert s i HasLock).
  - rewrite (asking_insert s i HasLock) by done. done.
  - by apply (locked_insert s i Requested).
  - rewrite (asking_insert s i Requested) by done. rewrite Hp. split; [done|]. intros _. by exists i, Requested.
  - by apply (locked_insert s i Requested).
  - rewrite (asking_insert s i Requested) by done. rewrite Hp. split; [done|]. intros _. by exists i, Requested.
  - by apply (locked_insert s i Requested).
  - rewrite (asking_insert s i Requested) by done. done.
  - by apply (locked_insert s i (Guarded b)).
  - rewrite (asking_insert s i (Guarded b)) by done. done.
  - intros j. split; [done|]. intros (p & [Hne Hj]%lookup_delete_Some & Hlk). destruct Hne. by eapply (asking_holder s i j Resumed p).
  - rewrite Hp. split; intros (j & r & Hj & Hr); exists j, r; (split; [|done]).
    + rewrite lookup_delete_ne; [done|]. intros ->. by rewrite Hi in Hj; simplify_eq.
    + by apply lookup_delete_Some in Hj as [_ Hj].
Qed.

Lemma gate_reach_ok s : rtc gate_step gate_new s -> gate_ok s.
Proof.
  revert s. apply (rtc_ind_r (R := gate_step) (fun s => gate_ok s) gate_new); [apply gate_new_ok|].
  intros s1 s2 _ Hs Hok. destruct Hs as [s1 s2 Hs|i s1 s2 Hs]; [by eapply scan_step_ok|by eapply pause_step_ok].
Qed.

(** ** Under a pause the scan is not begun *)

Definition off (t : ScanTask) : bool := negb (streaming t || in_flight t).

Lemma scan_step_off s s' : pause_value s = true -> scan_step s s' -> off (scan_task s) = true -> off (scan_task s') = true.
Proof.
  intros Hp Hs. destruct Hs as [s Ht|s Ht|s Ht|s Ht|s Ht|s Ht|s Ht|s Ht|s b Ht|s b Ht]; rewrite ?Ht; cbn; try done;
    [by rewrite Hp|by destruct b].
Qed.

Lemma pause_step_task i s s' : pause_step i s s' -> scan_task s' = scan_task s.
Proof. by intros []. Qed.

Lemma stays_off i s s' : gate_ok s -> (exists p, pausers s !! i = Some p /\ asking p = true) ->
  rtc (step_under i) s s' ->
  gate_ok s' /\ pause_value s' = true /\ (off (scan_task s) = true -> off (scan_task s') = true).
Proof.
  intros Hok Hi Hr. revert Hok Hi. induction Hr as [s|s s1 s2 [Hs Hi1] _ IH]; intros Hok (p & Hi & Hp).
  { split; [done|]. split; [|done]. apply (ok_pause s Hok). by exists i, p. }
  assert (pause_value s = true) as Hpv by (apply (ok_pause s Hok); by exists i, p).
  assert (gate_ok s1) as Hok1 by (destruct Hs as [s s1 Hs|j s s1 Hs]; [by eapply scan_step_ok|by eapply pause_step_ok]).
  destruct (IH Hok1 Hi1) as (Hok2 & Hp2 & Hoff). split; [done|]. split; [done|]. intros Ho. apply Hoff.
  destruct Hs as [s s1 Hs|j s s1 Hs]; [by apply (scan_step_off s)|rewrite (pause_step_task j s s1 Hs); exact Ho].
Qed.

(** An acknowledgement is given only where the flag is down. *)
Lemma acknowledged_flag i s s' : pause_step i s s' -> pausers s !! i = Some Requested ->
  pausers s' !! i = Some (Guarded false) -> scanning_value s = false.
Proof.
  intros Hs Hi. destruct Hs as [s Hj|s Hj|s Hj Hn|s Hj|s Hj Hsc|s Hj|s Hj|s b Hj|s Hj]; cbn; rewrite ?lookup_insert_eq; try done;
    rewrite Hj in Hi; by simplify_eq.
Qed.

(** * Theorems *)

(** C23: The gate gives the radio to one connect at a time: of all callers of pause at most one
    is between taking the lock and releasing it, and the scan is asked to pause exactly while
    one holds the request or its guard.  The flag the acknowledgement reads is up exactly
    from the select until the stream has been dropped.  A guard that was acknowledged, not
    given up on after the time limit, excludes the scan: no stream is open from the
    acknowledgement on and as long as the guard is held, unless one was being opened at
    that moment, between the task's look at the pause value and its flag.  And from any
    request on, as long as it is kept: a stream that is neither open nor being opened is not
    opened, and whenever the task is in its select or on the way there, the request is
    waiting to be seen. *)
Theorem scan_gate_excludes s : rtc gate_step gate_new s ->
  (forall i j p q, pausers s !! i = Some p -> locked p = true -> pausers s !! j = Some q -> locked q = true -> i = j) /\
  (pause_value s = true <-> exists i p, pausers s !! i = Some p /\ asking p = true) /\
  (scanning_value s = flagged (scan_task s)) /\
  (forall i s1 s2, pause_step i s s1 -> pausers s !! i = Some Requested -> pausers s1 !! i = Some (Guarded false) ->
     rtc (step_under i) s1 s2 -> in_flight (scan_task s) = false -> streaming (scan_task s2) = false) /\
  forall i p s', pausers s !! i = Some p -> asking p = true -> rtc (step_under i) s s' ->
    (streaming (scan_task s) = false -> scan_task s <> Starting -> streaming (scan_task s') = false) /\
    (in_flight (scan_task s') = true \/ scan_task s' = Scanning -> pause_unseen s' = true).
Proof.
  intros Hr. apply gate_reach_ok in Hr. split; [intros i j p q Hi Hlp Hj Hlq; by eapply (asking_holder s i j p q)|].
  split; [apply Hr|]. split; [apply Hr|].
  assert (forall t, off t = true -> streaming t = false) as Hoff by (by intros []). split.
  - intros i s1 s2 Hs Hi Hg Hu Hf. apply Hoff.
    destruct (stays_off i s1 s2) as (_ & _ & Ho); [by eapply pause_step_ok|by exists (Guarded false)|done|].
    apply Ho. rewrite (pause_step_task i s s1 Hs). pose proof (acknowledged_flag i s s1 Hs Hi Hg) as Hd.
    rewrite (ok_flag s Hr) in Hd. by destruct (scan_task s).
  - intros i p s' Hi Hp Hs. destruct (stays_off i s s' Hr) as (Hok & Hpv & Ho); [by exists p|done|].
    split; [|by apply Hok]. intros Hst Hne. apply Hoff, Ho. by destruct (scan_task s).
Qed.

(** A pause that falls between the look at the pause value and the flag is acknowledged at
    once, and the scan goes on the air while the guard is held. *)
Definition raced : GateState :=
  {| pause_value := true; pause_unseen := true; scanning_value := true; gate_lock := Some 0;
     scan_task := Scanning; pausers := {[0 := Guarded false]} |}.

Lemma gate_races : rtc gate_step gate_new raced.
Proof.
  eapply rtc_l; [apply step_scan, scan_look; reflexivity|].
  eapply rtc_l; [apply (step_pause 0), pause_call; reflexivity|].
  eapply rtc_l; [apply (step_pause 0), pause_lock; reflexivity|].
  eapply rtc_l; [apply (step_pause 0), pause_request; reflexivity|].
  eapply rtc_l; [apply (step_pause 0), pause_ack; reflexivity|].
  eapply rtc_l; [apply step_scan, scan_starts; reflexivity|].
  eapply rtc_l; [apply step_scan, scan_flags; reflexivity|]. apply rtc_refl.
Qed.

(** * Witness *)

(** A scan that was on the air, asked to pause and wound down. *)
Definition wound_down : GateState :=
  {| pause_value := true; pause_unseen := false; scanning_value := false; gate_lock := Some 0;
     scan_task := HoldOff; pausers := {[0 := Requested]} |}.

Lemma gate_winds_down : rtc gate_step gate_new wound_down.
Proof.
  eapply rtc_l; [apply step_scan, scan_look; reflexivity|].
  eapply rtc_l; [apply step_scan, scan_starts; reflexivity|].
  eapply rtc_l; [apply step_scan, scan_flags; reflexivity|].
  eapply rtc_l; [apply (step_pause 0), pause_call; reflexivity|].
  eapply rtc_l; [apply (step_pause 0), pause_lock; reflexivity|].
  eapply rtc_l; [apply (step_pause 0), pause_request; reflexivity|].
  eapply rtc_l; [apply step_scan, scan_changed; reflexivity|].
  eapply rtc_l; [apply step_scan, (scan_drops _ true); reflexivity|].
  eapply rtc_l; [apply step_scan, (scan_unflags _ true); reflexivity|]. apply rtc_refl.
Qed.

Lemma scan_gate_excludes_witness :
  let guarded := set_pausers {[0 := Guarded false]} wound_down in
  scanning_value wound_down = false /\
  forall s2, rtc (step_under 0) guarded s2 -> streaming (scan_task s2) = false.
Proof.
  destruct (scan_gate_excludes wound_down gate_winds_down) as (_ & _ & Hf & Hack & _).
  split; [exact Hf|]. intros s2 Hu.
  apply (Hack 0 (set_pausers {[0 := Guarded false]} wound_down) s2); [|done..].
  by apply (pause_ack 0 wound_down).
Defined.
