(* ===== verification/Light.v ===== *)
(** * The light of the reference accessory and its program (hap-thread-dut light, main)

    The actuators behind the [On] characteristic, the command line and the serving loop, on
    a board with a serial LED and a UDP socket.  The theorem follows the LED through every
    sequence of datagrams. *)

From S2P Require Import Prelude Text Tlv8 Crypto RecordLayer Srp Store PairVerify DutPairing ThreadPdu Coap DutServer ThreadAccessory.

(** ** [SocketAddr::from_str] of the standard library *)

Definition parser (A : Type) : Type := list Z -> option (A * list Z).

Definition given_char (c : Z) : parser () := fun s =>
  match s with c' :: s' => if (c' =? c)%Z then Some ((), s') else None | [] => None end.

(** [read_number]: the digits read so far, their value and whether the first was a zero. *)
Fixpoint number_digits (radix max : Z) (digits : nat) (acc : Z) (s : list Z) : option (nat * Z * list Z) :=
  match s with
  | c :: s' =>
      match to_digit radix c with
      | Some d => if (max <? acc * radix + d)%Z then None else number_digits radix max (S digits) (acc * radix + d) s'
      | None => Some (digits, acc, s)
      end
  | [] => Some (digits, acc, [])
  end.
Definition read_number (radix max : Z) (max_digits : option nat) (allow_zero_prefix : bool) : parser Z := fun s =>
  '(digits, n, rest) ← number_digits radix max 0 0 s;
  if digits =? 0 then None
  else if from_option (fun m => m <? digits) false max_digits then None
  else if negb allow_zero_prefix && bool_decide (head s = Some 48%Z) && (1 <? digits) then None
  else Some (n, rest).

(** [read_separator]: the separator before every part but the first. *)
Definition separated {A} (sep : Z) (index : nat) (p : parser A) : parser A := fun s =>
  if 0 <? index then '(_, s) ← given_char sep s; p s else p s.

Definition read_ipv4 : parser bytes := fun s =>
  let octet i s := separated 46 i (read_number 10 255 (Some 3) false) s in
  '(a, s) ← octet 0 s; '(b, s) ← octet 1 s; '(c, s) ← octet 2 s; '(d, s) ← octet 3 s;
  Some (Zbyte <$> [a; b; c; d], s).

(** [read_groups]: up to [limit] groups of an IPv6 address, the last two of which may be an
    IPv4 address; the octets read and whether it ended with an IPv4 address. *)
Fixpoint read_groups (limit index : nat) (s : list Z) : bytes * bool * list Z :=
  match limit with
  | O => ([], false, s)
  | S limit' =>
      match (if 1 <? limit then separated 58 index read_ipv4 s else None) with
      | Some (octets, s) => (octets, true, s)
      | None =>
          match separated 58 index (read_number 16 65535 (Some 4) true) s with
          | Some (group, s) =>
              let '(octets, v4, s) := read_groups limit' (S index) s in
              (Zbyte (group / 256) :: Zbyte group :: octets, v4, s)
          | None => ([], false, s)
          end
      end
  end.

Definition read_ipv6 : parser bytes := fun s =>
  let '(front, v4, s) := read_groups 8 0 s in
  if length front =? 16 then Some (front, s)
  else if (v4 : bool) then None
  else
    '(_, s) ← given_char 58 s; '(_, s) ← given_char 58 s;
    let '(back, _, s) := read_groups (7 - length front / 2) 0 s in
    Some (front ++ replicate (16 - length front - length back) x00 ++ back, s).

Definition read_port : parser Z := fun s => '(_, s) ← given_char 58 s; read_number 10 65535 None true s.

Definition socket_addr_from_str (text : bytes) : option SocketAddr :=
  let s := from_utf8_lossy text in
  let v4 := '(ip, s) ← read_ipv4 s; '(port, s) ← read_port s; Some (SocketV4 ip port, s) in
  let v6 :=
    '(_, s) ← given_char 91 s; '(ip, s) ← read_ipv6 s;
    let '(scope, s) := default (0%Z, s) ('(_, s) ← given_char 37 s; read_number 10 (2 ^ 32 - 1) None true s) in
    '(_, s) ← given_char 93 s; '(port, s) ← read_port s; Some (SocketV6 ip port 0 scope, s) in
  match (match v4 with Some r => Some r | None => v6 end) with Some (addr, []) => Some addr | _ => None end.

(** ** The board *)

(** The serial device of the LED and the UDP socket. *)
Class Board (D : Type) := {
  led_open : bytes -> stateful D bytes ();
  led_write_all : bytes -> stateful D bytes ();
  led_flush : stateful D bytes ();
  udp_bind : SocketAddr -> stateful D bytes SocketAddr;
  udp_send : Z -> bytes -> D -> D
}.

(** ** [light.rs] *)

(** The implementations of [LightActuator]; the mutex of the port may be poisoned. *)
Inductive Actuator := LoggingActuator | SerialLedActuator (poisoned : bool).

Section light.
Context `{BD : Board D}.

Definition serial_led_open (path : bytes) : stateful D bytes Actuator := _ ← led_open path; mret (SerialLedActuator false).

(** [LightActuator::set]; a failed write is only logged. *)
Definition actuator_set (self : Actuator) (on : bool) (d : D) : D :=
  match self with
  | LoggingActuator | SerialLedActuator true => d
  | SerialLedActuator false => ((_ ← led_write_all (if on then str "1" else str "0"); led_flush) d).2
  end.

(** ** [ReferenceAccessory::serve] *)

Context `{C : Crypto} `{B : BigUintOps} `{L : CoapLite}.

Definition set_socket (a : ReferenceAccessory) : ReferenceAccessory :=
  {| ra_core := ra_core a; ra_next_mid := ra_next_mid a; ra_slow := ra_slow a; ra_blockwise := ra_blockwise a;
     ra_block_cache := ra_block_cache a; ra_peer := ra_peer a; ra_socket := true |}.

(** The calls of [actuator.set] and the packets of one turn of the loop. *)
Definition serve_turn (actuator : Actuator) (peer : Z) (datagram : bytes)
    : stateful (ReferenceAccessory * D) bytes () := fun '(a, d) =>
  let '(r, a') := serve_datagram peer datagram a in
  let calls := drop (length (ra_actuated (ra_core a))) (ra_actuated (ra_core a')) in
  let d := foldl (fun d on => actuator_set actuator on d) d calls in
  match r with
  | Ok packets => (Ok (), (a', foldl (fun d packet => udp_send peer packet d) d packets))
  | Err e => match e with end
  | Fault f => (Fault f, (a', d))
  end.

(** What [recv_from] returns, in order; the loop ends with the first error. *)
Fixpoint serve_loop (actuator : Actuator) (received : list (result bytes (Z * bytes)))
    : stateful (ReferenceAccessory * D) bytes () :=
  match received with
  | [] => mret ()
  | r :: received' => '(peer, datagram) ← lift r; _ ← serve_turn actuator peer datagram; serve_loop actuator received'
  end.

Definition serve (actuator : Actuator) (addr : SocketAddr) (received : list (result bytes (Z * bytes)))
    : stateful (ReferenceAccessory * D) bytes () := fun '(a, d) =>
  match udp_bind addr d with
  | (Ok _, d) => serve_loop actuator received (set_socket a, d)
  | (Err e, d) => (Err e, (a, d))
  | (Fault f, d) => (Fault f, (a, d))
  end.

(** ** [main.rs] *)

(** [main] up to [serve]: the arguments after the program's name and [HAP_SETUP_CODE];
    [keypair] and [rng] are what the accessory draws. *)
Definition main_start (args : list bytes) (setup_code : option bytes) (keypair : ControllerKeypair) (rng : nat -> Random)
    : stateful D bytes (SocketAddr * Actuator * ReferenceAccessory) :=
  bind ← lift (ok_or (socket_addr_from_str (default (str "[::]:5683") (args !! 0))) (str "invalid socket address syntax"));
  let pairing_id := default (str "AA:BB:CC:DD:EE:FF") (args !! 1) in
  actuator ← match args !! 2 with
             | Some dev =>
                 with_err (fun e => str "opening serial LED device " ++ dev ++ str ": " ++ e) (serial_led_open dev)
             | None => mret LoggingActuator
             end;
  let accessory := with_actuator rng keypair pairing_id in
  let accessory := match setup_code with Some code => with_setup_code code accessory | None => accessory end in
  mret (bind, actuator, accessory).

Definition main (args : list bytes) (setup_code : option bytes) (keypair : ControllerKeypair) (rng : nat -> Random)
    (received : list (result bytes (Z * bytes))) : stateful D bytes ReferenceAccessory := fun d =>
  match main_start args setup_code keypair rng d with
  | (Ok (bind, actuator, a), d) => let '(r, (a, d)) := serve actuator bind received (a, d) in (_ ← r; Ok a, d)
  | (Err e, d) => (Err e, d)
  | (Fault f, d) => (Fault f, d)
  end.

Definition is_on (a : ReferenceAccessory) : bool := ra_on (ra_core a).
End light.

Example parse_default : socket_addr_from_str (str "[::]:5683") = Some (SocketV6 (replicate 16 x00) 5683 0 0).
Proof. reflexivity. Qed.
Example parse_v4 : socket_addr_from_str (str "192.168.0.7:80") = Some (SocketV4 [xc0; xa8; x00; x07] 80).
Proof. reflexivity. Qed.
Example parse_v6 : socket_addr_from_str (str "[fe80::1:10.0.0.1%3]:1") =
  Some (SocketV6 ([xfe; x80] ++ replicate 8 x00 ++ [x00; x01; x0a; x00; x00; x01]) 1 0 3).
Proof. reflexivity. Qed.
Example parse_bad : socket_addr_from_str (str "192.168.0.07:80") = None /\ socket_addr_from_str (str "[::]:65536") = None.
Proof. split; reflexivity. Qed.

(** * Specification *)

(** An LED that reads one byte at a time and shows it. *)
Class LedLaws (D : Type) `{Board D} := {
  led : D -> bool;
  connected : D -> Prop;
  led_set (on : bool) d : connected d -> exists d1 d2,
    led_write_all (if on then str "1" else str "0") d = (Ok (), d1) /\ led_flush d1 = (Ok (), d2) /\ connected d2 /\ led d2 = on;
  bind_keeps addr d : connected d -> connected (udp_bind addr d).2 /\ led (udp_bind addr d).2 = led d;
  send_keeps peer packet d : connected d -> connected (udp_send peer packet d) /\ led (udp_send peer packet d) = led d
}.

(** * Lemmas *)

Section lit.
Context `{C : Crypto} `{B : BigUintOps} `{L : CoapLite}.

(** The calls of [actuator.set] between two states; the last is the value of [On]. *)
Definition burns (c c' : Core) : Prop :=
  exists calls, ra_actuated c' = ra_actuated c ++ calls /\ ra_on c' = default (ra_on c) (last calls).

#[local] Instance burns_preorder : PreOrder burns.
Proof.
  split.
  - intros c. exists (@nil bool). by rewrite app_nil_r.
  - intros c1 c2 c3 (l1 & E1 & O1) (l2 & E2 & O2). exists (l1 ++ l2). rewrite E2, E1, app_assoc. split; [done|].
    rewrite O2, O1, last_app. by destruct (last l2).
Qed.

(** A change that leaves the light alone. *)
Lemma burns_same c c' : ra_actuated c' = ra_actuated c -> ra_on c' = ra_on c -> burns c c'.
Proof. intros Ha Ho. exists (@nil bool). by rewrite app_nil_r. Qed.

Lemma burns_char req c : burns c (handle_char req c).2.
Proof.
  unfold handle_char. repeat case_match; try (by apply burns_same). exists [first_nonzero a]. by split.
Qed.

Lemma burns_chars reqs responses c : burns c (handle_chars responses reqs c).2.
Proof.
  revert responses c. induction reqs as [|req reqs IH]; intros responses c; [done|]. cbn [handle_chars]. run.
  pose proof (burns_char req c) as Hb. destruct (handle_char req c) as [[r|e|f] c1]; cbn [snd] in *; [|done..].
  etransitivity; [exact Hb|apply IH].
Qed.

Lemma burns_secure payload c : burns c (secure_pdu payload c).2.
Proof.
  unfold secure_pdu. destruct (ra_session c) as [session|]; [|done]. destruct (open_request session payload) as [[p|e|f] s1];
    try (by apply burns_same). destruct (decode_requests p) as [reqs|e|f]; try (by apply burns_same).
  pose proof (burns_chars reqs [] (set_session (Some s1) c)) as Hb.
  assert (burns c (set_session (Some s1) c)) as Hs by by apply burns_same.
  destruct (handle_chars _ _ _) as [[rs|e|f] c1]; cbn [snd] in *; [|by etransitivity..].
  destruct (seal_response s1 rs) as [[sealed|e|f] s2]; cbn [snd]; (etransitivity; [exact Hs|]; etransitivity; [exact Hb|by apply burns_same]).
Qed.

Lemma burns_handle path payload c : burns c (dut_handle path payload c).2.
Proof.
  unfold dut_handle. repeat case_bool_decide; try done; [| |apply burns_secure].
  - unfold dut_pair_verify, pair_verify_m1, pair_verify_m3, draw. repeat (case_match; simplify_eq/=); by apply burns_same.
  - unfold dut_pair_setup, pair_setup_m1, pair_setup_m3, pair_setup_m5, draw. repeat (case_match; simplify_eq/=); by apply burns_same.
Qed.

Lemma send_block_core mid token code full num bs a : ra_core (send_block mid token code full num bs a).2 = ra_core a.
Proof. unfold send_block. by destruct (_ <? _). Qed.

Lemma burns_datagram peer datagram a : burns (ra_core a) (ra_core (serve_datagram peer datagram a).2).
Proof.
  unfold serve_datagram. destruct (from_bytes _) as [req|]; [|done]. case_bool_decide; [done|].
  destruct (continuation req _) as [num|].
  - unfold serve_cached_block. destruct (ra_blockwise _) as [bs|]; [|done]. destruct (ra_block_cache _) as [b|]; [|done].
    destruct (_ =? _)%Z; [|done].
    pose proof (send_block_core (pk_mid req) (pk_token req) (bw_code b) (bw_payload b) (Z.to_nat num) bs (set_peer (Some peer) a)) as Hs.
    destruct (send_block _ _ _ _ _ _ _) as [out a']. cbn [snd] in *. by rewrite Hs.
  - set (path := default _ _). pose proof (burns_handle path (pk_payload req) (ra_core (set_peer (Some peer) a))) as Hb.
    destruct (dut_handle _ _ _) as [[[code payload]|[]|f] c]; [|exact Hb]. cbn [snd] in Hb.
    assert (ra_core (send_response peer req code payload (set_core c (set_peer (Some peer) a))).2 = c) as Hc.
    { unfold send_response. destruct (ra_blockwise _) as [bs|]; [destruct (_ <? _); [by rewrite send_block_core|]|]; by destruct (ra_slow _). }
    destruct (send_response _ _ _ _ _) as [out a']. cbn [snd] in *. by rewrite Hc.
Qed.

Context `{LL : LedLaws D}.

(** The LED is connected; it shows [On] if it did, or if it has been set. *)
Definition lit (initial : bool) (a : ReferenceAccessory) (d : D) : Prop :=
  connected d /\ led d = default initial (last (ra_actuated (ra_core a))).

Lemma set_calls calls d : connected d ->
  let d' := foldl (fun d on => actuator_set (SerialLedActuator false) on d) d calls in
  connected d' /\ led d' = default (led d) (last calls).
Proof using LL.
  induction calls as [|on calls IH] using rev_ind; [done|]. intros Hc. rewrite foldl_snoc. destruct (IH Hc) as [Hc' _].
  set (d0 := foldl _ _ _) in *. destruct (led_set on d0 Hc') as (d1 & d2 & Hw & Hf & Hc2 & Hl).
  unfold actuator_set. run. rewrite Hw, Hf. cbn [snd]. by rewrite last_snoc.
Qed.

Lemma send_packets peer packets d : connected d ->
  let d' := foldl (fun d packet => udp_send peer packet d) d packets in connected d' /\ led d' = led d.
Proof using LL.
  revert d. induction packets as [|p packets IH]; intros d Hc; [done|]. cbn [foldl].
  destruct (send_keeps peer p d Hc) as [Hc1 Hl1]. destruct (IH _ Hc1) as [Hc2 Hl2]. split; [done|congruence].
Qed.

(** One turn of the loop: the light, and the LED after it. *)
Lemma turn_lit initial peer datagram a d a' d' r :
  serve_turn (SerialLedActuator false) peer datagram (a, d) = (r, (a', d')) -> lit initial a d -> lit initial a' d'.
Proof using LL.
  unfold serve_turn. pose proof (burns_datagram peer datagram a) as (calls & Hcalls & _).
  destruct (serve_datagram peer datagram a) as [r0 a1]. cbn [snd] in Hcalls. rewrite Hcalls, drop_app_length.
  intros Hr [Hc Hl]. pose proof (set_calls calls d Hc) as [Hc1 Hl1]. set (d1 := foldl _ d calls) in *.
  assert (lit initial a1 d1) as [Hc2 Hl2].
  { split; [done|]. rewrite Hl1, Hcalls, last_app, Hl. by destruct (last calls). }
  destruct r0 as [packets|[]|f]; simplify_eq; [|by split]. pose proof (send_packets peer packets d1 Hc1) as [Hc3 Hl3].
  split; [done|by rewrite Hl3].
Qed.

Lemma turn_burns actuator peer datagram a d : burns (ra_core a) (ra_core (serve_turn actuator peer datagram (a, d)).2.1).
Proof.
  unfold serve_turn. pose proof (burns_datagram peer datagram a) as Hb.
  by destruct (serve_datagram peer datagram a) as [[packets|[]|f] a1].
Qed.

Lemma loop_burns actuator received a d : burns (ra_core a) (ra_core (serve_loop actuator received (a, d)).2.1).
Proof.
  revert a d. induction received as [|[[peer datagram]|e|f] received IH]; intros a d; [done| |done|done].
  cbn [serve_loop]. run. pose proof (turn_burns actuator peer datagram a d) as Hb.
  destruct (serve_turn actuator peer datagram (a, d)) as [[[]|e|f] [a1 d1]]; cbn [fst snd] in *; [|done..].
  etransitivity; [exact Hb|apply IH].
Qed.

Lemma loop_lit initial received a d :
  lit initial a d -> let s := (serve_loop (SerialLedActuator false) received (a, d)).2 in lit initial s.1 s.2.
Proof using LL.
  revert a d. induction received as [|[[peer datagram]|e|f] received IH]; intros a d Hl; [done| |done|done].
  cbn [serve_loop]. run. destruct (serve_turn _ peer datagram (a, d)) as [r [a1 d1]] eqn:Ht.
  apply (turn_lit initial) in Ht as Hl1; [|done]. destruct r as [[]|e|f]; [|done..]. by apply IH.
Qed.

Lemma start_spec args code keypair rng d bind actuator a d1 :
  main_start args code keypair rng d = (Ok (bind, actuator, a), d1) ->
  ra_actuated (ra_core a) = [] /\ ra_on (ra_core a) = false /\
  actuator = match args !! 2 with Some _ => SerialLedActuator false | None => LoggingActuator end.
Proof.
  unfold main_start, serial_led_open, with_err. run. intros Hs.
  destruct (socket_addr_from_str _) as [addr|]; [|done]. cbn [ok_or] in Hs.
  destruct (args !! 2) as [dev|]; [destruct (led_open dev d) as [[[]|e|f] d0]|]; cbn in Hs; simplify_eq; by destruct code.
Qed.
End lit.

(** * Theorem *)

(** C40: The light shows what the accessory says.  However the program is started, after any
    sequence of datagrams - pairing messages, secure requests, retransmissions, noise - the
    [On] characteristic is the last value the actuator was called with, or off; and the LED
    on the serial device shows it from the first call on, so an LED that starts dark always
    shows [On].  This holds also when the loop has ended with an error or a panic. *)
Theorem light_follows `{Crypto} `{BigUintOps} `{CoapLite} `{LL : LedLaws D} args code keypair rng received (d : D) bind actuator a d1 :
  main_start args code keypair rng d = (Ok (bind, actuator, a), d1) ->
  let '(_, (a', d')) := serve actuator bind received (a, d1) in
  let calls := ra_actuated (ra_core a') in
  is_on a' = default false (last calls) /\
  (is_Some (args !! 2) -> connected d1 -> connected d' /\ led d' = default (led d1) (last calls) /\
    (led d1 = false -> led d' = is_on a')).
Proof.
  intros Hs. apply start_spec in Hs as (Ha & Ho & ->). unfold serve, is_on.
  pose proof (bind_keeps bind d1) as Hbk. destruct (udp_bind bind d1) as [[addr|e|f] d2]; cbn [snd] in Hbk.
  - set (act := match args !! 2 with Some _ => _ | None => _ end).
    pose proof (loop_burns act received (set_socket a) d2) as (calls & Hcalls & Hon).
    cbn [set_socket ra_core] in Hcalls, Hon. rewrite Ha in Hcalls. rewrite Ho in Hon. cbn [app] in Hcalls.
    destruct (serve_loop act received (set_socket a, d2)) as [r [a' d']] eqn:Hrun. cbn [fst snd] in *. split; [by rewrite Hcalls|].
    intros [dev Hdev] Hc. destruct (Hbk Hc) as [Hc2 Hl2]. pose proof (loop_lit (led d1) received (set_socket a) d2) as Hlit.
    subst act. rewrite Hdev in Hrun. rewrite Hrun in Hlit. destruct Hlit as [Hc' Hl'].
    { split; [done|]. cbn [set_socket ra_core]. by rewrite Ha. }
    cbn [fst snd] in *. split; [done|]. split; [exact Hl'|]. intros Hd. rewrite Hl', Hd. by rewrite Hcalls, Hon.
  - rewrite Ha, Ho. split; [done|]. intros _ Hc. destruct (Hbk Hc) as [Hc2 Hl2]. split; [done|]. split; [done|congruence].
  - rewrite Ha, Ho. split; [done|]. intros _ Hc. destruct (Hbk Hc) as [Hc2 Hl2]. split; [done|]. split; [done|congruence].
Qed.

(** * Witness: a board whose LED device records what is written to it *)

#[local] Existing Instances toy_crypto std_biguint toy_coap_lite.
#[local] Instance demo_build : Build := {| overflow_checks := true; debug_assertions := true |}.

Record DemoBoard := { db_led : bool; db_device : bytes; db_sent : list (Z * bytes) }.
#[local] Instance demo_board : Board DemoBoard := {
  led_open path d := (if bool_decide (path = db_device d) then Ok () else Err (str "not found"), d);
  led_write_all data d :=
    (Ok (), {| db_led := from_option (fun b => bool_decide (b = x31)) (db_led d) (last data); db_device := db_device d; db_sent := db_sent d |});
  led_flush d := (Ok (), d);
  udp_bind addr d := (Ok addr, d);
  udp_send peer packet d := {| db_led := db_led d; db_device := db_device d; db_sent := db_sent d ++ [(peer, packet)] |}
}.
#[local] Instance demo_led_laws : LedLaws DemoBoard.
Proof.
  refine {| led := db_led; connected _ := True |}; try done.
  intros on d _. eexists _, _. split; [reflexivity|]. split; [reflexivity|]. split; [done|]. by destruct on.
Defined.

Definition dark_board : DemoBoard := {| db_led := false; db_device := str "/dev/ttyACM1"; db_sent := [] |}.
Definition demo_args : list bytes := [str "[::1]:5683"; str "AA:BB"; str "/dev/ttyACM1"].
Definition demo_kp : ControllerKeypair := from_seed (str "AA:BB") [x09].
Definition demo_rng (n : nat) : Random := {| rnd_secret := [x07]; rnd_salt := [x01]; rnd_b := [x03] |}.
Definition demo_datagrams : list (result bytes (Z * bytes)) := [Ok (1%Z, str "noise"); Ok (2%Z, []); Err (str "closed")].

Lemma light_follows_witness :
  let '(_, (a', d')) := serve (SerialLedActuator false) (SocketV6 (replicate 15 x00 ++ [x01]) 5683 0 0) demo_datagrams
                          (with_actuator demo_rng demo_kp (str "AA:BB"), dark_board) in
  let calls := ra_actuated (ra_core a') in
  is_on a' = default false (last calls) /\
  (is_Some (demo_args !! 2) -> connected dark_board -> connected d' /\ led d' = default (led dark_board) (last calls) /\
    (led dark_board = false -> led d' = is_on a')).
Proof.
  apply (light_follows demo_args None demo_kp demo_rng demo_datagrams dark_board (SocketV6 (replicate 15 x00 ++ [x01]) 5683 0 0)
           (SerialLedActuator false) (with_actuator demo_rng demo_kp (str "AA:BB")) dark_board).
  by vm_compute.
Defined.

(** An accessory in a session, sent a sealed write of [On]: the LED is lit, and the next write
    darkens it. *)
Definition in_session : ReferenceAccessory :=
  let a := with_actuator demo_rng demo_kp (str "AA:BB") in
  set_core (set_session (Some (accessory_session_new [x01] [x02] [x03])) (ra_core a)) a.
Definition write_on (counter : Z) (on : byte) : bytes :=
  match encode_all CharWrite [(ON_IID, encode_value_body [on])] with
  | Ok plain =>
      match chacha20poly1305_seal [x02] (counter_nonce counter) [] plain with
      | Ok sealed =>
          default [] (to_bytes {| pk_type := Confirmable; pk_code := 2; pk_mid := counter; pk_token := [x07];
                                  pk_uri_path := Some []; pk_block2 := None; pk_payload := sealed |})
      | _ => []
      end
  | _ => []
  end.
Definition board_after (received : list (result bytes (Z * bytes))) : DemoBoard :=
  (serve_loop (SerialLedActuator false) received (in_session, dark_board)).2.2.
Example led_lit : db_led (board_after [Ok (1%Z, write_on 0 x01)]) = true.
Proof. by vm_compute. Qed.
Example led_darkened : db_led (board_after [Ok (1%Z, write_on 0 x01); Ok (1%Z, write_on 1 x00)]) = false.
Proof. by vm_compute. Qed.
