(* ===== verification/FuzzLock.v ===== *)
(** * The lockfile gate (xtask fuzz_lock)

    [cargo xtask fuzz-lock]: whether the lockfiles of the fuzz workspaces are in step with
    the one of the workspace, and their regeneration.  The machine the tool runs on - files
    and processes - is the class [Host], the TOML parser the class [Toml].  The theorem says
    exactly when the gate passes, and what a regeneration leaves behind. *)

From stdpp Require Import sorting.
From S2P Require Import Prelude Text.

(** ** Files, processes, errors *)

(** A path, by its components below the workspace root. *)
Abbreviation Path := (list bytes).

Inductive IoErr := IoNotFound | IoOther (msg : bytes).

(** [anyhow::Error]: a message, with the contexts added to it. *)
Inductive AnyError := Msg (m : bytes) | Context (m : bytes) (e : AnyError).
(** [{:#}]. *)
Fixpoint display_chain (e : AnyError) : bytes :=
  match e with Msg m => m | Context m e => m ++ str ": " ++ display_chain e end.

Definition io_text (e : IoErr) : bytes :=
  match e with IoNotFound => str "No such file or directory (os error 2)" | IoOther msg => msg end.
Definition of_io (e : IoErr) : AnyError := Msg (io_text e).

(** [.with_context(..)?] on an I/O result, on any result. *)
Definition io_context {S A} (m : bytes) (r : stateful S IoErr A) : stateful S AnyError A :=
  with_err (fun e => Context m (of_io e)) r.
Definition context {S A} (m : bytes) (r : stateful S AnyError A) : stateful S AnyError A := with_err (Context m) r.
Definition bail {S A} (m : bytes) : stateful S AnyError A := lift (Err (Msg m)).

(** [slice.join(sep)]. *)
Fixpoint join_with (sep : bytes) (l : list bytes) : bytes :=
  match l with [] => [] | [x] => x | x :: l' => x ++ sep ++ join_with sep l' end.
Definition join (p : Path) (q : list bytes) : Path := p ++ q.
(** [display().to_string()] of a relative path. *)
#[local] Arguments str : simpl never.
#[local] Arguments join : simpl never.
Definition display (p : Path) : bytes := utf8_encode (from_utf8_lossy (join_with (str "/") p)).
Definition parent (p : Path) : Path := take (length p - 1) p.

(** The file system of [std::fs], [Command::status] ([None] is success, else how the process
    ended), and the standard output. *)
Class Host (S : Type) := {
  root_path : bytes;
  fs_read : S -> Path -> result IoErr bytes;
  fs_is_file : S -> Path -> bool;
  fs_read_dir : S -> Path -> result IoErr (list (result IoErr bytes));
  fs_copy : Path -> Path -> stateful S IoErr ();
  fs_write : Path -> bytes -> stateful S IoErr ();
  fs_remove_file : Path -> stateful S IoErr ();
  spawn : bytes -> list bytes -> list (bytes * bytes) -> stateful S IoErr (option bytes);
  print_line : bytes -> S -> S
}.

Record Package := { name : bytes; version : bytes; source : option bytes; checksum : option bytes }.
Record Lockfile := { package : list Package }.
(** [toml::from_str]. *)
Class Toml := { toml_from_str : bytes -> result bytes Lockfile }.

Definition println {S} `{Host S} (l : bytes) : stateful S AnyError () := modify (print_line l).

Section xtask.
Context {S : Type} `{!Host S}.
Local Abbreviation M := (stateful S AnyError).

Definition absolute (p : Path) : bytes := root_path ++ str "/" ++ display p.
Definition read (p : Path) : stateful S IoErr bytes := fun s => (fs_read s p, s).
(** [read_to_string]. *)
Definition read_to_string (p : Path) : stateful S IoErr bytes :=
  data ← read p;
  match from_utf8 data with Some _ => mret data | None => lift (Err (IoOther (str "stream did not contain valid UTF-8"))) end.

Definition run_with_env (program : bytes) (args : list bytes) (env : list (bytes * bytes)) : M () :=
  let shown := str "`" ++ program ++ str " " ++ join_with (str " ") args ++ str "`" in
  status ← io_context (str "failed to spawn " ++ shown) (spawn program args env);
  match status with
  | None => mret ()
  | Some status => bail (shown ++ str " exited with " ++ status)
  end.
Definition xtask_run (program : bytes) (args : list bytes) : M () := run_with_env program args [].
End xtask.

(** ** The comparison of lockfiles *)

Definition MATRIX_WORKFLOWS : list Path :=
  [[str ".github"; str "workflows"; str "fuzz.yml"]; [str ".github"; str "workflows"; str "ci.yml"]].
Definition ROOT_LOCK : Path := [str "Cargo.lock"].

(** [str::lines]. *)
Definition strip_cr (l : bytes) : bytes :=
  match last l with Some b => if bool_decide (b = x0d) then take (length l - 1) l else l | None => l end.
Definition str_lines (s : bytes) : list bytes :=
  match reverse (split_on x0a s) with
  | [] => []
  | final :: rest => (strip_cr <$> reverse rest) ++ (if bool_decide (final = []) then [] else [final])
  end.

Definition lists_crate (workflow crate_name : bytes) : bool :=
  let entry := str "- crate: " ++ crate_name in
  existsb (fun line => bool_decide (trim (from_utf8_lossy line) = from_utf8_lossy entry)) (str_lines workflow).

(** The index of the first byte that satisfies [p]. *)
Definition find_byte (p : byte -> bool) (s : bytes) : option nat := fst <$> list_find p s.

Definition compat_key (version : bytes) : bytes :=
  let core := take (default (length version) (find_byte (fun b => bool_decide (b = x2b) || bool_decide (b = x2d)) version)) version in
  let dot := find_byte (fun b => bool_decide (b = x2e)) in
  match dot core with
  | None => core
  | Some first =>
      if bool_decide (take first core <> str "0") then take first core
      else match dot (drop (first + 1) core) with
           | Some k =>
               if bool_decide (take k (drop (first + 1) core) <> str "0") then take (first + 1 + k) core else core
           | None => core
           end
  end.

(** [root_pins.entry(..).or_default().push(pkg)]. *)
Definition pin (pins : gmap (bytes * bytes) (list Package)) (pkg : Package) : gmap (bytes * bytes) (list Package) :=
  let key := (name pkg, compat_key (version pkg)) in <[key := default [] (pins !! key) ++ [pkg]]> pins.
Definition root_pins (root : Lockfile) : gmap (bytes * bytes) (list Package) := foldl pin ∅ (package root).

(** The closure of the [filter_map]: why a package has drifted. *)
Definition drifted (pins : gmap (bytes * bytes) (list Package)) (pkg : Package) : option bytes :=
  pinned ← pins !! (name pkg, compat_key (version pkg));
  let same_version := filter (fun root_pkg => version root_pkg = version pkg) pinned in
  if bool_decide (same_version = [])
  then Some (name pkg ++ str " " ++ version pkg ++ str " (root has " ++ join_with (str ", ") (version <$> pinned) ++ str ")")
  else if existsb (fun root_pkg => bool_decide (source root_pkg = source pkg) && bool_decide (checksum root_pkg = checksum pkg)) same_version
  then None
  else Some (name pkg ++ str " " ++ version pkg ++ str " (source or checksum differs from the root's)").

Definition drift (root fuzz : Lockfile) : list bytes := omap (drifted (root_pins root)) (package fuzz).

(** ** The gate *)

Definition path_cmp (a b : Path) : comparison :=
  let fix bytes_cmp (x y : bytes) : comparison :=
    match x, y with
    | [], [] => Eq | [], _ :: _ => Lt | _ :: _, [] => Gt
    | b :: x, c :: y => match (byteZ b ?= byteZ c)%Z with Eq => bytes_cmp x y | r => r end
    end in
  let fix go (x y : Path) : comparison :=
    match x, y with
    | [], [] => Eq | [], _ :: _ => Lt | _ :: _, [] => Gt
    | p :: x, q :: y => match bytes_cmp p q with Eq => go x y | r => r end
    end in go a b.
Definition path_le (a b : Path) : Prop := path_cmp a b <> Gt.
#[export] Instance path_le_dec a b : Decision (path_le a b).
Proof. unfold path_le. destruct (path_cmp a b); [by left|by left|by right; intros []]. Defined.

Section gate.
Context {S : Type} `{!Host S} `{Toml}.
Local Abbreviation M := (stateful S AnyError).

Definition read_lock (p : Path) : M Lockfile :=
  text ← io_context (str "reading " ++ absolute p) (read_to_string p);
  context (str "parsing " ++ absolute p) (with_err Msg (lift (toml_from_str text))).

(** The loop over the entries of [crates]. *)
Fixpoint workspaces_of (crates : Path) (entries : list (result IoErr bytes)) : M (list Path) :=
  match entries with
  | [] => mret []
  | entry :: entries' =>
      dir ← io_context (str "listing " ++ absolute crates) (lift entry);
      let ws := join crates [dir; str "fuzz"] in
      s ← get_state;
      found ← workspaces_of crates entries';
      mret (if fs_is_file s (join ws [str "Cargo.toml"]) then ws :: found else found)
  end.

Definition fuzz_workspaces : M (list Path) :=
  let crates := [str "crates"] in
  entries ← io_context (str "listing " ++ absolute crates) (fun s => (fs_read_dir s crates, s));
  found ← workspaces_of crates entries;
  if bool_decide (found = []) then bail (str "no fuzz workspaces found under " ++ absolute crates)
  else mret (merge_sort path_le found).

Definition MISSING : bytes :=
  str "Cargo.lock is missing; every fuzz workspace commits its lockfile. Run `cargo xtask fuzz-lock --sync` and commit the result".
Definition OUT_OF_STEP (drifted : list bytes) : bytes :=
  str "Cargo.lock is out of step with the root Cargo.lock: " ++ join_with (str "; ") drifted ++
  str ". Run `cargo xtask fuzz-lock --sync` and commit the result. If the sync still reports a package, a fuzz-only dependency needs a newer version of it than the root pins: run `cargo update -p <package>` at the root, then sync again".
Definition SEE_CARGO : bytes :=
  str "see cargo's output above: if it says the lock file needs to be updated, run `cargo xtask fuzz-lock --sync` and commit the result; otherwise the fuzz target no longer compiles and needs fixing".

Definition check_args (ws : Path) : list bytes :=
  [str "check"; str "--locked"; str "--manifest-path"; absolute (join ws [str "Cargo.toml"]); str "--target-dir";
   absolute [str "target"; str "fuzz-lock"]].

Definition fuzz_check (root_lock : Lockfile) (ws : Path) : M () :=
  let fuzz_lock_path := join ws [str "Cargo.lock"] in
  s ← get_state;
  if negb (fs_is_file s fuzz_lock_path) then bail MISSING
  else
    lock ← read_lock fuzz_lock_path;
    let drifted := drift root_lock lock in
    if negb (bool_decide (drifted = [])) then bail (OUT_OF_STEP drifted)
    else context SEE_CARGO (xtask_run (str "cargo") (check_args ws)).

Definition update_args (ws : Path) : list bytes :=
  [str "update"; str "--workspace"; str "--manifest-path"; absolute (join ws [str "Cargo.toml"])].

Definition sync_from_root (ws : Path) : M () :=
  let fuzz_lock_path := join ws [str "Cargo.lock"] in
  previous ← attempt (read fuzz_lock_path);
  previous ← match previous with
             | inl data => mret (Some data)
             | inr IoNotFound => mret None
             | inr e => lift (Err (Context (str "reading " ++ absolute fuzz_lock_path) (of_io e)))
             end;
  _ ← io_context (str "copying " ++ absolute ROOT_LOCK ++ str " to " ++ absolute fuzz_lock_path) (fs_copy ROOT_LOCK fuzz_lock_path);
  updated ← attempt (xtask_run (str "cargo") (update_args ws));
  match updated with
  | inl _ => mret ()
  | inr e =>
      _ ← io_context (str "restoring " ++ absolute fuzz_lock_path)
            (match previous with Some data => fs_write fuzz_lock_path data | None => fs_remove_file fuzz_lock_path end);
      lift (Err e)
  end.

(** One turn of the loop over the workspaces: the failures it adds. *)
Definition gate_workspace (sync : bool) (root_lock : Lockfile) (workflows : list (Path * bytes)) (ws : Path) : M (list bytes) :=
  let shown := display ws in
  crate_name ← lift (ok_or (dir ← last (parent ws); if from_utf8 dir is Some _ then Some dir else None)
                       (Msg (shown ++ str " has no crate directory name")));
  let unlisted := filter (fun w => lists_crate w.2 crate_name = false) workflows in
  let failures := (fun w => shown ++ str ": no `- crate: " ++ crate_name ++ str "` matrix entry in " ++
                            join_with (str "/") w.1 ++ str ", so it would never be fuzzed or audited there; add one") <$> unlisted in
  _ ← (if sync then sync_from_root ws else mret ());
  checked ← attempt (fuzz_check root_lock ws);
  match checked with
  | inl _ => _ ← println (str "fuzz-lock: " ++ shown ++ str " ok"); mret failures
  | inr e => mret (failures ++ [shown ++ str ": " ++ display_chain e])
  end.

Fixpoint gate_workspaces (sync : bool) (root_lock : Lockfile) (workflows : list (Path * bytes)) (wss : list Path) : M (list bytes) :=
  match wss with
  | [] => mret []
  | ws :: wss' =>
      failures ← gate_workspace sync root_lock workflows ws;
      more ← gate_workspaces sync root_lock workflows wss';
      mret (failures ++ more)
  end.

(** Reading [MATRIX_WORKFLOWS]. *)
Fixpoint read_workflows (paths : list Path) : M (list (Path * bytes)) :=
  match paths with
  | [] => mret []
  | p :: paths' =>
      text ← io_context (str "reading " ++ join_with (str "/") p) (read_to_string p);
      rest ← read_workflows paths'; mret ((p, text) :: rest)
  end.

Definition fuzz_lock_run (sync : bool) : M () :=
  root_lock ← read_lock ROOT_LOCK;
  workflows ← read_workflows MATRIX_WORKFLOWS;
  wss ← fuzz_workspaces;
  failures ← gate_workspaces sync root_lock workflows wss;
  if bool_decide (failures = []) then mret ()
  else bail (str "fuzz workspace check failed:" ++ [x0a] ++ str "  " ++ join_with ([x0a] ++ str "  ") failures).
End gate.

Example demo_key : compat_key <$> [str "1.4.2"; str "0.4.3"; str "0.10.1"; str "0.0.3"; str "0.0.0"; str "1.0.3+wasi-0.2.9";
    str "0.4.0+wasi-0.3.0-rc-2026-01-06"; str "3.0.0-rc.1"; str "12"; str "0.1"] =
  [str "1"; str "0.4"; str "0.10"; str "0.0.3"; str "0.0.0"; str "1"; str "0.4"; str "3"; str "12"; str "0.1"].
Proof. reflexivity. Qed.

(** * Specification *)

Definition lock_of (ws : Path) : Path := join ws [str "Cargo.lock"].
Definition target_path (p : Path) : Prop := head p = Some (str "target").

(** What the tool reads is the same, but for the build output and the files of [ps]. *)
Definition same_but {S} `{Host S} (ps : list Path) (s s' : S) : Prop :=
  (forall p, ~ target_path p -> p ∉ ps -> fs_read s' p = fs_read s p /\ fs_is_file s' p = fs_is_file s p) /\
  fs_read_dir s' [str "crates"] = fs_read_dir s [str "crates"].

(** What is relied on: a copy, write or removal changes its file only; [cargo check --locked]
    writes build output only and depends on the rest, [cargo update] writes the lockfile. *)
Class HostLaws (S : Type) `{Host S} := {
  builds : S -> Path -> Prop;
  builds_same s s' ws : same_but [] s s' -> builds s ws -> builds s' ws;
  copy_law src dst s : let '(r, s') := fs_copy src dst s in
    same_but [dst] s s' /\ (r = Ok () -> fs_read s' dst = fs_read s src);
  write_law p data s : let '(r, s') := fs_write p data s in
    same_but [p] s s' /\ (r = Ok () -> fs_read s' p = Ok data);
  remove_law p s : let '(r, s') := fs_remove_file p s in
    same_but [p] s s' /\ (r = Ok () -> fs_read s' p = Err IoNotFound);
  print_law l s : same_but [] s (print_line l s);
  check_law ws s : let '(r, s') := spawn (str "cargo") (check_args ws) [] s in
    same_but [] s s' /\ (r = Ok None <-> builds s ws);
  update_law ws s : let '(r, s') := spawn (str "cargo") (update_args ws) [] s in
    same_but [lock_of ws] s s'
}.

(** The dotted components of a version, before its pre-release or build part. *)
Definition components (version : bytes) (ps : list bytes) : Prop :=
  exists core rest, version = core ++ rest /\ core = join_with (str ".") ps /\ ps <> [] /\
    Forall (fun p => x2e ∉ p) ps /\ (x2b ∉ core) /\ (x2d ∉ core) /\
    match rest with [] => True | c :: _ => c = x2b \/ c = x2d end.

(** The components cargo's caret requirements hold fixed: up to the first that is not zero,
    of the first two; all of them where both are zero. *)
Inductive bucket : list bytes -> list bytes -> Prop :=
| bucket_major major rest : major <> str "0" -> bucket (major :: rest) [major]
| bucket_minor minor rest : minor <> str "0" -> bucket (str "0" :: minor :: rest) [str "0"; minor]
| bucket_patch rest : bucket (str "0" :: str "0" :: rest) (str "0" :: str "0" :: rest)
| bucket_zero : bucket [str "0"] [str "0"].

(** Two versions of one crate that stand for the same dependency. *)
Definition compatible (v w : bytes) : Prop :=
  exists ps qs b, components v ps /\ components w qs /\ bucket ps b /\ bucket qs b.

(** Every package of [fuzz] that the root also has, in the same bucket, is one the root pins. *)
Definition pinned (root fuzz : Lockfile) : Prop :=
  forall pkg, pkg ∈ package fuzz ->
    (exists p, p ∈ package root /\ name p = name pkg /\ compatible (version p) (version pkg)) ->
    pkg ∈ package root.

(** A line of the text is, but for the white space around it, the entry of the crate. *)
Definition matrix_entry (text crate : bytes) : Prop :=
  exists line, line ∈ str_lines text /\ trim (from_utf8_lossy line) = from_utf8_lossy (str "- crate: " ++ crate).

Section spec.
Context {S : Type} `{!Host S} `{Toml}.

Definition holds_text (s : S) (p : Path) (text : bytes) : Prop := fs_read s p = Ok text /\ is_Some (from_utf8 text).
Definition holds_lock (s : S) (p : Path) (lock : Lockfile) : Prop :=
  exists text, holds_text s p text /\ toml_from_str text = Ok lock.

(** [crates/dir/fuzz] is a fuzz workspace. *)
Definition workspace (s : S) (ws : Path) : Prop :=
  exists entries dir, fs_read_dir s [str "crates"] = Ok entries /\ Ok dir ∈ entries /\
    ws = [str "crates"; dir; str "fuzz"] /\ fs_is_file s (join ws [str "Cargo.toml"]) = true.

Definition lock_in_step (s : S) (root_lock : Lockfile) (ws : Path) : Prop :=
  fs_is_file s (lock_of ws) = true /\ exists lock, holds_lock s (lock_of ws) lock /\ pinned root_lock lock.

(** The matrices list the crate of the workspace. *)
Definition listed (s : S) (ws : Path) : Prop :=
  exists dir, ws = [str "crates"; dir; str "fuzz"] /\ is_Some (from_utf8 dir) /\
    forall w, w ∈ MATRIX_WORKFLOWS -> exists text, holds_text s w text /\ matrix_entry text dir.

(** What the gate checks. *)
Definition in_step `{!HostLaws S} (s : S) : Prop :=
  exists root_lock, holds_lock s ROOT_LOCK root_lock /\
    (forall w, w ∈ MATRIX_WORKFLOWS -> exists text, holds_text s w text) /\
    (exists entries, fs_read_dir s [str "crates"] = Ok entries /\ Forall (fun e => exists dir, e = Ok dir) entries) /\
    (exists ws, workspace s ws) /\
    forall ws, workspace s ws -> listed s ws /\ lock_in_step s root_lock ws /\ builds s ws.
End spec.

(** * Lemmas *)

Lemma lists_crate_spec text crate : lists_crate text crate = true <-> matrix_entry text crate.
Proof.
  unfold lists_crate, matrix_entry. rewrite existsb_exists. split; intros (line & Hl & He); exists line.
  - by apply list_elem_of_In in Hl; apply bool_decide_eq_true in He.
  - by split; [apply list_elem_of_In|apply bool_decide_eq_true].
Qed.

(** ** Versions *)

Lemma find_byte_app p a b : Forall (fun c => p c = false) a ->
  find_byte p (a ++ b) = (fun n => length a + n) <$> find_byte p b.
Proof.
  intros Ha. unfold find_byte. rewrite list_find_app_r.
  - destruct (list_find p b) as [[n c]|]; [|done]. cbn. by rewrite Nat.add_comm.
  - apply list_find_None. eapply Forall_impl; [exact Ha|]. intros c Hc Hp. by rewrite Hc in Hp.
Qed.
Lemma find_byte_none p a : Forall (fun c => p c = false) a -> find_byte p a = None.
Proof. intros Ha. rewrite <- (app_nil_r a). by rewrite find_byte_app. Qed.
Lemma find_byte_here p c b : p c = true -> find_byte p (c :: b) = Some 0.
Proof. intros Hp. unfold find_byte. cbn. by rewrite decide_True by (by rewrite Hp). Qed.

Lemma join_with_cons sep x y l : join_with sep (x :: y :: l) = x ++ sep ++ join_with sep (y :: l).
Proof. done. Qed.

Lemma split_join ps : ps <> [] -> Forall (fun p => x2e ∉ p) ps -> split_on x2e (join_with (str ".") ps) = ps.
Proof.
  intros Hne Hps. induction Hps as [|p [|q ps] Hp Hps IH]; [done|by apply split_on_line|].
  rewrite join_with_cons, split_on_skip by done.
  change (str "." ++ join_with (str ".") (q :: ps)) with (x2e :: join_with (str ".") (q :: ps)). cbn [split_on].
  rewrite bool_decide_true by done. rewrite IH by done. by rewrite app_nil_r.
Qed.

Lemma join_split s : join_with (str ".") (split_on x2e s) = s /\ Forall (fun p => x2e ∉ p) (split_on x2e s).
Proof.
  induction s as [|c s [IHj IHf]]; [split; [done|]; repeat constructor; apply not_elem_of_nil|].
  cbn [split_on]. pose proof (split_on_nonempty x2e s) as Hne. case_bool_decide as Hc.
  - subst c. destruct (split_on x2e s) as [|f l]; [done|]. split; [by rewrite join_with_cons, IHj|].
    constructor; [apply not_elem_of_nil|done].
  - destruct (split_on x2e s) as [|f l]; [done|]. apply Forall_cons in IHf as [Hf Hl]. split.
    + rewrite <- IHj. by destruct l.
    + constructor; [|done]. by apply not_elem_of_cons.
Qed.

Lemma components_exist v : exists ps, components v ps.
Proof.
  set (p := fun b => bool_decide (b = x2b) || bool_decide (b = x2d)).
  assert (exists core rest, v = core ++ rest /\ Forall (fun c => p c = false) core /\
    match rest with [] => True | c :: _ => p c = true end) as (core & rest & Hv & Hcore & Hrest).
  { induction v as [|c v (core & rest & -> & Hc & Hr)]; [by exists [], []|].
    destruct (p c) eqn:Hp; [exists [], (c :: core ++ rest)|exists (c :: core), rest]; split_and!; try done; by constructor. }
  exists (split_on x2e core), core, rest. destruct (join_split core) as [Hj Hf].
  assert (forall b, p b = true -> b ∉ core) as Hn.
  { intros b Hb Hin. rewrite Forall_forall in Hcore. specialize (Hcore b Hin). simpl in Hcore. congruence. }
  split_and!; try done; [apply split_on_nonempty|by apply Hn..|].
  destruct rest as [|c rest]; [done|]. unfold p in Hrest.
  apply orb_true_iff in Hrest as [Hr|Hr]; apply bool_decide_eq_true in Hr; auto.
Qed.

Lemma bucket_exists ps : ps <> [] -> Forall (fun p => x2e ∉ p) ps ->
  exists b, bucket ps b /\ b <> [] /\ Forall (fun p => x2e ∉ p) b.
Proof.
  intros Hne Hps. destruct ps as [|major rest]; [done|]. apply Forall_cons in Hps as [Hm Hr].
  destruct (decide (major = str "0")) as [->|Hmaj]; [|exists [major]; split_and!; [by constructor|done|by constructor]].
  destruct rest as [|minor rest]; [exists [str "0"]; split_and!; [apply bucket_zero|done|by constructor]|].
  apply Forall_cons in Hr as [Hn Hr]. destruct (decide (minor = str "0")) as [->|Hmin].
  - exists (str "0" :: str "0" :: rest). split_and!; [apply bucket_patch|done|by do 2 (constructor; [done|])].
  - exists [str "0"; minor]. split_and!; [by constructor|done|by do 2 (constructor; [done|])].
Qed.

(** [compat_key] is the text of the bucket. *)
Lemma compat_key_bucket v ps b : components v ps -> bucket ps b -> compat_key v = join_with (str ".") b.
Proof.
  intros (core & rest & -> & Hcore & Hne & Hps & Hplus & Hdash & Hrest) Hb. unfold compat_key.
  set (p := fun b => bool_decide (b = x2b) || bool_decide (b = x2d)). set (dot := fun b => bool_decide (b = x2e)).
  assert (Forall (fun c => p c = false) core) as Hpc.
  { apply Forall_forall. intros c Hc. unfold p. rewrite !bool_decide_false; [done|by intros ->..]. }
  assert (take (default (length (core ++ rest)) (find_byte p (core ++ rest))) (core ++ rest) = core) as ->.
  { rewrite find_byte_app by done. destruct rest as [|c rest].
    - cbn [find_byte list_find fmap option_fmap option_map default]. by rewrite app_nil_r, take_ge.
    - rewrite (find_byte_here p); [|unfold p; destruct Hrest as [-> | ->]; done].
      cbn [fmap option_fmap option_map default]. rewrite Nat.add_0_r. by rewrite take_app_length'. }
  assert (forall q, x2e ∉ q -> Forall (fun c => dot c = false) q) as Hdot.
  { intros q Hq. apply Forall_forall. intros c Hc. unfold dot. apply bool_decide_false. by intros ->. }
  assert (forall q s, x2e ∉ q -> find_byte dot (q ++ str "." ++ s) = Some (length q)) as Hfind.
  { intros q s Hq. rewrite find_byte_app by by apply Hdot. change (str "." ++ s) with (x2e :: s).
    rewrite find_byte_here by done. cbn. by rewrite Nat.add_0_r. }
  subst core. destruct Hb as [major l Hm|minor l Hm|l|]; apply Forall_cons in Hps as [H0 Hl].
  - destruct l as [|m l]; [by rewrite (find_byte_none dot) by by apply Hdot|].
    rewrite join_with_cons, Hfind by done. rewrite take_app_length. by rewrite bool_decide_true.
  - apply Forall_cons in Hl as [H1 Hl]. rewrite join_with_cons, Hfind, take_app_length by done.
    rewrite bool_decide_false by (by intros []).
    rewrite (app_assoc (str "0") (str ".")), (drop_app_length' (str "0" ++ str ".")) by done.
    destruct l as [|q l]; [by rewrite (find_byte_none dot) by by apply Hdot|].
    rewrite join_with_cons, Hfind, take_app_length by done. rewrite bool_decide_true by done.
    rewrite (app_assoc _ minor), (take_app_length' ((str "0" ++ str ".") ++ minor)) by (rewrite !length_app; simpl; lia). done.
  - rewrite join_with_cons, Hfind, take_app_length by done. rewrite bool_decide_false by (by intros []).
    rewrite (app_assoc (str "0") (str ".")), (drop_app_length' (str "0" ++ str ".")) by done.
    destruct l as [|q l]; [by rewrite (find_byte_none dot) by by apply Hdot|].
    rewrite (join_with_cons _ (str "0") q), Hfind, take_app_length by done. rewrite bool_decide_false by (by intros []). done.
  - by rewrite (find_byte_none dot) by by apply Hdot.
Qed.

Lemma compat_key_spec v w : compat_key v = compat_key w <-> compatible v w.
Proof.
  split.
  - intros He. destruct (components_exist v) as [ps Hps], (components_exist w) as [qs Hqs].
    pose proof Hps as (? & ? & _ & _ & Hn1 & Hf1 & _). pose proof Hqs as (? & ? & _ & _ & Hn2 & Hf2 & _).
    destruct (bucket_exists ps Hn1 Hf1) as (b & Hb & Hbn & Hbf), (bucket_exists qs Hn2 Hf2) as (b' & Hb' & Hbn' & Hbf').
    rewrite (compat_key_bucket v ps b), (compat_key_bucket w qs b') in He by done.
    apply (f_equal (split_on x2e)) in He. rewrite !split_join in He by done. subst b'. by exists ps, qs, b.
  - intros (ps & qs & b & Hps & Hqs & Hb & Hb'). by rewrite (compat_key_bucket v ps b), (compat_key_bucket w qs b).
Qed.

(** ** Drift *)

Lemma foldl_pin pkgs pins key :
  default [] (foldl pin pins pkgs !! key) =
    default [] (pins !! key) ++ filter (fun p => (name p, compat_key (version p)) = key) pkgs /\
  (is_Some (foldl pin pins pkgs !! key) <->
   is_Some (pins !! key) \/ filter (fun p => (name p, compat_key (version p)) = key) pkgs <> []).
Proof.
  revert pins. induction pkgs as [|p pkgs IH]; intros pins; cbn [foldl].
  { rewrite filter_nil, app_nil_r. naive_solver. }
  destruct (IH (pin pins p)) as [E1 E2]. rewrite E1, E2. unfold pin. rewrite filter_cons. case_decide as Hk.
  - subst key. rewrite lookup_insert_eq. cbn. rewrite <- app_assoc. split; [done|]. naive_solver.
  - rewrite lookup_insert_ne by done. done.
Qed.

Lemma root_pins_lookup root key :
  root_pins root !! key =
    match filter (fun p => (name p, compat_key (version p)) = key) (package root) with [] => None | l => Some l end.
Proof.
  destruct (foldl_pin (package root) ∅ key) as [E1 E2]. rewrite lookup_empty in E1, E2. cbn [default app] in E1.
  fold (root_pins root) in *. destruct (filter _ _) as [|p l] eqn:Hf.
  - destruct (root_pins root !! key) as [l|]; [|done]. destruct E2 as [E2 _]. destruct E2 as [[]|]; [by eexists|done|done].
  - destruct (root_pins root !! key) as [l'|]; [cbn in E1; by subst|done].
Qed.

Lemma drifted_None root pkg : drifted (root_pins root) pkg = None <->
  ((exists p, p ∈ package root /\ name p = name pkg /\ compat_key (version p) = compat_key (version pkg)) -> pkg ∈ package root).
Proof.
  unfold drifted. rewrite root_pins_lookup. set (key := (name pkg, _)).
  set (inb := filter (fun p => (name p, compat_key (version p)) = key) (package root)).
  assert (forall p, p ∈ inb <-> p ∈ package root /\ name p = name pkg /\ compat_key (version p) = compat_key (version pkg)) as Hin.
  { intros p. unfold inb, key. rewrite list_elem_of_filter. split.
    - intros [[= Hn Hk] Hp]. done.
    - intros (Hp & -> & ->). done. }
  assert ((exists p, p ∈ package root /\ name p = name pkg /\ compat_key (version p) = compat_key (version pkg)) <-> inb <> []) as ->.
  { split; [intros (p & Hp%Hin) Hn; rewrite Hn in Hp; by apply elem_of_nil in Hp|].
    destruct inb as [|p l]; [done|]. intros _. exists p. apply Hin. by left. }
  assert (forall p, p ∈ filter (fun p => version p = version pkg) inb -> (source p = source pkg /\ checksum p = checksum pkg) -> p = pkg) as Heq.
  { intros p [Hv [_ [Hn _]]%Hin]%list_elem_of_filter [Hs Hc]. destruct p, pkg. cbn in *. congruence. }
  assert (pkg ∈ package root <-> pkg ∈ filter (fun p => version p = version pkg) inb) as ->.
  { rewrite list_elem_of_filter, Hin. naive_solver. }
  destruct inb as [|p0 l] eqn:Hi; cbn [mbind option_bind]; [done|]. assert (inb <> []) as Hne by by rewrite Hi.
  rewrite <- Hi in *. clear Hi p0 l.
  set (same := filter _ inb) in *. case_bool_decide as Hs.
  - rewrite Hs. split; [done|]. intros Hp. specialize (Hp Hne). by apply elem_of_nil in Hp.
  - destruct (existsb _ same) eqn:Hx.
    + apply existsb_exists in Hx as (p & Hp%list_elem_of_In & [Hsrc%bool_decide_eq_true Hck%bool_decide_eq_true]%andb_prop).
      split; [|done]. intros _ _. by rewrite <- (Heq p).
    + split; [done|]. intros Hp. exfalso. destruct (existsb_exists (fun root_pkg => bool_decide (source root_pkg = source pkg) && bool_decide (checksum root_pkg = checksum pkg)) same) as [_ He].
      rewrite He in Hx; [done|]. exists pkg. split; [by apply list_elem_of_In, Hp|]. by rewrite !bool_decide_true.
Qed.

Lemma omap_nil_iff {A B} (f : A -> option B) l : omap f l = [] <-> forall x, x ∈ l -> f x = None.
Proof.
  induction l as [|x l IH]; cbn.
  { split; [intros _ x Hx; by apply elem_of_nil in Hx|done]. }
  destruct (f x) eqn:Hf.
  - split; [done|]. intros Hn. rewrite Hn in Hf; [done|by left].
  - fold (omap f l). rewrite IH. split; [|intros Hn y Hy; apply Hn; by right].
    intros Hn y [->|Hy]%elem_of_cons; [done|by apply Hn].
Qed.

(** ** Reading *)

Section same.
Context {S : Type} `{!Host S}.
Implicit Types s : S.

Lemma same_refl ps s : same_but ps s s.
Proof. done. Qed.
Lemma same_weaken ps qs s s' : ps ⊆ qs -> same_but ps s s' -> same_but qs s s'.
Proof. intros Hq [Hf Hd]. split; [|done]. intros p Ht Hp. apply Hf; [done|]. by intros ?%Hq. Qed.
Lemma same_trans ps s1 s2 s3 : same_but ps s1 s2 -> same_but ps s2 s3 -> same_but ps s1 s3.
Proof.
  intros [F1 D1] [F2 D2]. split; [|congruence]. intros p Ht Hp. destruct (F1 p Ht Hp), (F2 p Ht Hp). split; congruence.
Qed.
Lemma same_sym ps s s' : same_but ps s s' -> same_but ps s' s.
Proof. intros [F D]. split; [|done]. intros p Ht Hp. by destruct (F p Ht Hp). Qed.

Lemma same_text ps s s' p text : same_but ps s s' -> ~ target_path p -> p ∉ ps -> holds_text s p text -> holds_text s' p text.
Proof. intros [F _] Ht Hp [Hr Hu]. split; [|done]. destruct (F p Ht Hp). congruence. Qed.
Lemma same_workspace ps s s' ws : same_but ps s s' -> (forall ws', join ws' [str "Cargo.toml"] ∉ ps) -> workspace s ws -> workspace s' ws.
Proof.
  intros [F D] Hn (entries & dir & Hd & Hin & -> & Hf). exists entries, dir. split; [congruence|]. split; [done|]. split; [done|].
  by rewrite (proj2 (F (join [str "crates"; dir; str "fuzz"] [str "Cargo.toml"]) ltac:(done) (Hn _))).
Qed.

Lemma read_to_string_spec p s :
  (read_to_string p s).2 = s /\ forall text, (read_to_string p s).1 = Ok text <-> holds_text s p text.
Proof.
  unfold read_to_string, read, holds_text. run. destruct (fs_read s p) as [data|e|f]; cbn; [|naive_solver..].
  destruct (from_utf8 data) as [u|] eqn:Hu; cbn; (split; [done|]); intros text; [|split; [done|intros [[= ->] [u Hu']]; congruence]].
  split; [intros [= ->]; split; [done|by rewrite Hu]|naive_solver].
Qed.

Context `{Toml}.
Lemma same_lock ps s s' p lock : same_but ps s s' -> ~ target_path p -> p ∉ ps -> holds_lock s p lock -> holds_lock s' p lock.
Proof. intros Hs Ht Hp (text & Hx & Hl). exists text. split; [by eapply same_text|done]. Qed.

Lemma read_lock_spec p s :
  (read_lock p s).2 = s /\ forall lock, (read_lock p s).1 = Ok lock <-> holds_lock s p lock.
Proof.
  unfold read_lock, io_context, context, with_err, holds_lock. run. destruct (read_to_string_spec p s) as [Hs Hr].
  destruct (read_to_string p s) as [[text|e|f] s1]; cbn in *; subst s1.
  - split; [by destruct (toml_from_str text)|]. intros lock. assert (holds_text s p text) as Ht by by apply Hr.
    destruct (toml_from_str text) as [l|e|f] eqn:He; cbn; split; try done; try (intros (t & Ht' & Hl); apply Hr in Ht' as [= <-]; congruence).
    intros [= <-]. by exists text.
  - split; [done|]. intros lock. split; [done|]. by intros (t & Ht%Hr & _).
  - split; [done|]. intros lock. split; [done|]. by intros (t & Ht%Hr & _).
Qed.

Lemma read_workflows_spec paths s :
  (read_workflows paths s).2 = s /\
  forall ws, (read_workflows paths s).1 = Ok ws <-> Forall2 (fun p w => w.1 = p /\ holds_text s p w.2) paths ws.
Proof.
  induction paths as [|p paths [IHs IHr]]; cbn [read_workflows].
  { split; [done|]. intros ws. split; [by intros [= <-]|by intros ->%Forall2_nil_inv_l]. }
  unfold io_context, with_err. run. destruct (read_to_string_spec p s) as [Hs Hr].
  destruct (read_to_string p s) as [[text|e|f] s1]; cbn in *; subst s1.
  - destruct (read_workflows paths s) as [[rest|e|f] s2]; cbn in *; subst s2; (split; [done|]); intros ws; (split; [try done|]).
    + intros [= <-]. constructor; [split; [done|by apply Hr]|by apply IHr].
    + intros Hw. inversion Hw as [|? [q t] ? ws' [Hq Ht] Hrest]; subst. cbn in *.
      apply Hr in Ht as [= <-]. apply IHr in Hrest as [= <-]. done.
    + intros Hw. inversion Hw as [|? [q t] ? ws' _ Hrest]; subst. by apply IHr in Hrest.
    + intros Hw. inversion Hw as [|? [q t] ? ws' _ Hrest]; subst. by apply IHr in Hrest.
  - split; [done|]. intros ws. split; [done|]. intros Hw. inversion Hw as [|? [q t] ? ws' [Hq Ht] _]; subst. by apply Hr in Ht.
  - split; [done|]. intros ws. split; [done|]. intros Hw. inversion Hw as [|? [q t] ? ws' [Hq Ht] _]; subst. by apply Hr in Ht.
Qed.

Lemma workspaces_of_spec entries s :
  (workspaces_of [str "crates"] entries s).2 = s /\
  match (workspaces_of [str "crates"] entries s).1 with
  | Ok found =>
      Forall (fun e => exists dir, e = Ok dir) entries /\
      forall ws, ws ∈ found <-> exists dir, Ok dir ∈ entries /\ ws = [str "crates"; dir; str "fuzz"] /\
        fs_is_file s (join ws [str "Cargo.toml"]) = true
  | _ => ~ Forall (fun e => exists dir, e = Ok dir) entries
  end.
Proof.
  induction entries as [|entry entries [IHs IHr]]; cbn [workspaces_of].
  { split; [done|]. split; [done|]. intros ws. split; [by intros ?%elem_of_nil|]. by intros (dir & ?%elem_of_nil & _). }
  unfold io_context, with_err, lift, get_state. run.
  destruct entry as [dir|e|f]; cbn [map_err];
    [|by (split; [done|]); intros [[? [=]] _]%Forall_cons..].
  destruct (workspaces_of _ entries s) as [[found|e|f] s1]; cbn in *; subst s1; (split; [done|]);
    [|by intros [_ ?]%Forall_cons..].
  destruct IHr as [Hall Hin]. split; [constructor; [by exists dir|done]|]. intros ws.
  assert (forall d, Ok d ∈ (Ok dir : result IoErr bytes) :: entries <-> d = dir \/ Ok d ∈ entries) as Hd.
  { intros d. rewrite elem_of_cons. split; (intros [Hd|Hd]; [|by right]); left; congruence. }
  split.
  - intros Hws. assert (ws = [str "crates"; dir; str "fuzz"] /\ fs_is_file s (join ws [str "Cargo.toml"]) = true \/ ws ∈ found) as [[-> Hf]|Hf].
    { destruct (fs_is_file s (join (join [str "crates"] [dir; str "fuzz"]) [str "Cargo.toml"])) eqn:Hf; [|by right].
      apply elem_of_cons in Hws as [->|Hws]; [by left|by right]. }
    + exists dir. split; [apply Hd; by left|done].
    + apply Hin in Hf as (d & Hde & -> & Hf). exists d. split; [apply Hd; by right|done].
  - intros (d & [->|Hde]%Hd & -> & Hf).
    + change (join [str "crates"] [dir; str "fuzz"]) with [str "crates"; dir; str "fuzz"]. rewrite Hf. by left.
    + assert ([str "crates"; d; str "fuzz"] ∈ found) by (apply Hin; by exists d).
      destruct (fs_is_file s (join (join _ _) _)); [by right|done].
Qed.

Lemma fuzz_workspaces_spec s :
  (fuzz_workspaces s).2 = s /\
  match (fuzz_workspaces s).1 with
  | Ok wss => (exists entries, fs_read_dir s [str "crates"] = Ok entries /\ Forall (fun e => exists dir, e = Ok dir) entries) /\
              (exists ws, workspace s ws) /\ forall ws, ws ∈ wss <-> workspace s ws
  | _ => ~ ((exists entries, fs_read_dir s [str "crates"] = Ok entries /\ Forall (fun e => exists dir, e = Ok dir) entries) /\
            exists ws, workspace s ws)
  end.
Proof.
  unfold fuzz_workspaces, io_context, with_err, bail, lift. run.
  destruct (fs_read_dir s [str "crates"]) as [entries|e|f] eqn:Hd; cbn [map_err];
    [|by (split; [done|]); intros [(? & ? & _) _]..].
  destruct (workspaces_of_spec entries s) as [Hs Hr]. destruct (workspaces_of _ entries s) as [[found|e|f] s1]; cbn in *; subst s1;
    [|by (split; [done|]); intros [(? & [= <-] & ?) _]..].
  destruct Hr as [Hall Hin]. assert (forall ws, ws ∈ found <-> workspace s ws) as Hw.
  { intros ws. rewrite Hin. unfold workspace. rewrite Hd. split.
    - intros (dir & ? & ? & ?). by exists entries, dir.
    - intros (? & dir & [= <-] & ? & ? & ?). by exists dir. }
  case_bool_decide as Hf; cbn; (split; [done|]).
  - intros [_ [ws Hws]]. apply Hw in Hws. rewrite Hf in Hws. by apply elem_of_nil in Hws.
  - split; [by exists entries|]. split.
    + destruct found as [|ws found]; [done|]. exists ws. apply Hw. by left.
    + intros ws. by rewrite merge_sort_Permutation.
Qed.
End same.

(** ** The gate *)

Section gate.
Context {S : Type} `{!Host S} {HL : HostLaws S} `{Toml}.
Implicit Types s : S.

Lemma xtask_run_spec args s ps :
  (let '(r, s') := spawn (str "cargo") args [] s in same_but ps s s') ->
  let '(r, s') := xtask_run (str "cargo") args s in same_but ps s s' /\
    (r = Ok () <-> exists s1, spawn (str "cargo") args [] s = (Ok None, s1)).
Proof.
  intros Hs. unfold xtask_run, run_with_env, io_context, with_err, bail, lift. run.
  destruct (spawn _ args [] s) as [[[status|]|e|f] s1]; cbn; (split; [exact Hs|]);
    (split; [try done|try (by intros [? [=]])]); try done. by exists s1.
Qed.

Lemma fuzz_check_spec root_lock ws s :
  let '(r, s') := fuzz_check root_lock ws s in same_but [] s s' /\ (r = Ok () <-> lock_in_step s root_lock ws /\ builds s ws).
Proof using HL.
  unfold fuzz_check, get_state, bail, lift, lock_in_step. run. change (join ws [str "Cargo.lock"]) with (lock_of ws).
  destruct (fs_is_file s (lock_of ws)); cbn [negb]; [|split; [done|]; split; [done|]; by intros [[? _] _]].
  destruct (read_lock_spec (lock_of ws) s) as [Hs Hr].
  destruct (read_lock (lock_of ws) s) as [[lock|e|f] s1]; cbn in Hs, Hr; subst s1;
    [|split; [done|]; split; [done|]; by intros [(_ & l & Hl%Hr & _) _]..].
  assert (drift root_lock lock = [] <-> pinned root_lock lock) as Hd.
  { unfold drift, pinned. setoid_rewrite <- compat_key_spec. rewrite (omap_nil_iff (drifted (root_pins root_lock))).
    split; intros Hp pkg Hin; apply drifted_None; auto. }
  case_bool_decide as Hb; cbn [negb].
  - unfold context, with_err. pose proof (check_law ws s) as Hc.
    pose proof (xtask_run_spec (check_args ws) s []) as Hx. destruct (spawn _ (check_args ws) [] s) as [rc sc] eqn:Hsp.
    destruct Hc as [Hsame Hbuild]. specialize (Hx Hsame). destruct (xtask_run _ _ s) as [r s2]. destruct Hx as [Hs2 Hok]. split; [done|].
    assert (map_err (Context SEE_CARGO) r = Ok () <-> r = Ok ()) as -> by (destruct r as [[]| |]; cbn; naive_solver).
    rewrite Hok. split.
    + intros [? [= -> _]]. split; [|by apply Hbuild]. split; [done|]. exists lock. split; [by apply Hr|by apply Hd].
    + intros [_ Hbs%Hbuild]. rewrite Hbs. by exists sc.
  - split; [done|]. split; [done|]. intros [(_ & l & Hl%Hr & Hpin) _]. simplify_eq. by apply Hd in Hpin.
Qed.

(** The workflows, as they were read, list the crate. *)
Definition listed_in (workflows : list (Path * bytes)) (ws : Path) : Prop :=
  exists dir, ws = [str "crates"; dir; str "fuzz"] /\ is_Some (from_utf8 dir) /\
    Forall (fun w => lists_crate w.2 dir = true) workflows.

Lemma listed_in_spec s workflows ws :
  Forall2 (fun p w => w.1 = p /\ holds_text s p w.2) MATRIX_WORKFLOWS workflows -> listed_in workflows ws <-> listed s ws.
Proof.
  intros Hw. split; intros (dir & -> & Hu & Hl); exists dir; (split; [done|]; split; [done|]).
  - intros w Hin. apply list_elem_of_lookup in Hin as [i Hi]. destruct (Forall2_lookup_l _ _ _ _ _ Hw Hi) as ([q text] & Hj & Hq & Ht).
    exists text. split; [done|]. apply lists_crate_spec. rewrite Forall_lookup in Hl. apply (Hl _ _ Hj).
  - apply Forall_lookup. intros i [q text] Hi. destruct (Forall2_lookup_r _ _ _ _ _ Hw Hi) as (p & Hj & Hq & Ht). cbn in *. subst q.
    destruct (Hl p (list_elem_of_lookup_2 _ _ _ Hj)) as (text' & [Ht' _] & Hlist). destruct Ht as [Ht _]. rewrite Ht' in Ht.
    injection Ht as ->. by apply lists_crate_spec.
Qed.

Lemma gate_unnamed sync root_lock workflows dir s : from_utf8 dir = None ->
  exists e, gate_workspace sync root_lock workflows [str "crates"; dir; str "fuzz"] s = (Err e, s).
Proof.
  intros Hu. eexists. unfold gate_workspace, lift. run. change (last (parent _)) with (Some dir). cbn [mbind option_bind].
  rewrite Hu. reflexivity.
Qed.

(** One turn: the regeneration, then the checks. *)
Lemma gate_checked sync root_lock workflows dir s : let ws := [str "crates"; dir; str "fuzz"] in
  is_Some (from_utf8 dir) ->
  let '(r, s') := gate_workspace sync root_lock workflows ws s in
  exists rs s1, (if sync then sync_from_root ws else mret ()) s = (rs, s1) /\ same_but [] s1 s' /\
    (r = Ok [] <-> rs = Ok () /\ listed_in workflows ws /\ lock_in_step s1 root_lock ws /\ builds s1 ws).
Proof using HL.
  cbv zeta. set (ws := [str "crates"; dir; str "fuzz"]). intros [u Hu].
  assert (listed_in workflows ws <-> Forall (fun w => lists_crate w.2 dir = true) workflows) as Hl.
  { unfold listed_in, ws. split; [intros (d & [= <-] & ? & ?); done|intros ?; exists dir; by rewrite Hu]. }
  assert (filter (fun w : Path * bytes => lists_crate w.2 dir = false) workflows = [] <-> listed_in workflows ws) as Hf.
  { rewrite Hl, Forall_forall. split.
    - intros Hn w Hw. destruct (lists_crate w.2 dir) eqn:Hc; [done|]. assert (w ∈ (nil : list (Path * bytes))) as Hin.
      { rewrite <- Hn. by apply list_elem_of_filter. } by apply elem_of_nil in Hin.
    - intros Ha. apply elem_of_nil_inv. intros w [Hc Hw]%list_elem_of_filter. by rewrite Ha in Hc. }
  unfold gate_workspace, lift, attempt, println, modify. run. change (last (parent ws)) with (Some dir). cbn [mbind option_bind].
  rewrite Hu. cbn [ok_or]. destruct ((if sync then sync_from_root ws else λ s0, (Ok (), s0)) s) as [[[]|e|f] s1];
    [|exists (Err e), s1; split; [done|]; split; [done|]; naive_solver|exists (Fault f), s1; split; [done|]; split; [done|]; naive_solver].
  pose proof (fuzz_check_spec root_lock ws s1) as Hc. destruct (fuzz_check root_lock ws s1) as [[[]|e|f] s2]; destruct Hc as [Hs Hc].
  - exists (Ok ()), s1. split; [done|]. split; [eapply same_trans; [exact Hs|apply print_law]|].
    rewrite <- Hf. split; [|by intros (_ & -> & _)]. intros [= Hn%fmap_nil_inv]. split; [done|]. split; [done|]. by apply Hc.
  - exists (Ok ()), s1. split; [done|]. split; [done|]. split; [intros [= Hn]; by apply app_nil in Hn as [_ ?]|]. intros (_ & _ & Hb). by apply Hc in Hb.
  - exists (Ok ()), s1. split; [done|]. split; [done|]. split; [done|]. intros (_ & _ & Hb). by apply Hc in Hb.
Qed.

(** A regeneration touches the lockfile only; if it fails the lockfile is as before, unless
    the copy or the restoring failed. *)
Definition copy_failed (ws : Path) (e : AnyError) : Prop :=
  exists io, e = Context (str "copying " ++ absolute ROOT_LOCK ++ str " to " ++ absolute (lock_of ws)) (of_io io).
Definition restore_failed (ws : Path) (e : AnyError) : Prop :=
  exists io, e = Context (str "restoring " ++ absolute (lock_of ws)) (of_io io).

Lemma sync_spec ws s : ~ target_path (lock_of ws) ->
  let '(r, s') := sync_from_root ws s in
  same_but [lock_of ws] s s' /\
  match r with
  | Err e => fs_read s' (lock_of ws) = fs_read s (lock_of ws) \/ copy_failed ws e \/ restore_failed ws e
  | _ => True
  end.
Proof using HL.
  intros Ht. unfold sync_from_root, attempt, read, io_context, with_err, lift, copy_failed, restore_failed. run.
  change (join ws [str "Cargo.lock"]) with (lock_of ws).
  assert (same_but [lock_of ws] s s) as H0 by done.
  destruct (fs_read s (lock_of ws)) as [data|[|msg]|f] eqn:Hr; [| |by split; [|left]|done].
  all: pose proof (copy_law ROOT_LOCK (lock_of ws) s) as Hc; destruct (fs_copy ROOT_LOCK (lock_of ws) s) as [[[]|io|f] s1];
    destruct Hc as [H1 _]; cbn [map_err]; [|by split; [|right; left; exists io]|done].
  all: pose proof (update_law ws s1) as Hu; pose proof (xtask_run_spec (update_args ws) s1 [lock_of ws]) as Hx;
    destruct (spawn _ (update_args ws) [] s1) as [rc sc]; specialize (Hx Hu);
    destruct (xtask_run _ _ s1) as [[[]|e|f] s2]; destruct Hx as [H2 _]; [by split; [eapply same_trans|]| |by split; [eapply same_trans|]].
  - pose proof (write_law (lock_of ws) data s2) as Hw. destruct (fs_write _ _ s2) as [[[]|io|f] s3]; destruct Hw as [H3 Hw]; cbn [map_err];
      (split; [do 2 (eapply same_trans; [eassumption|]); done|]); [left; by apply Hw|right; right; by exists io|done].
  - pose proof (remove_law (lock_of ws) s2) as Hw. destruct (fs_remove_file _ s2) as [[[]|io|f] s3]; destruct Hw as [H3 Hw]; cbn [map_err];
      (split; [do 2 (eapply same_trans; [eassumption|]); done|]); [left; by apply Hw|right; right; by exists io|done].
Qed.

Lemma lock_same ps root_lock s s' ws : same_but ps s s' -> ~ target_path ws -> ws <> [] -> lock_of ws ∉ ps ->
  lock_in_step s root_lock ws -> lock_in_step s' root_lock ws.
Proof using.
  intros Hs Ht Hne Hn [Hf (lock & Hl & Hp)]. assert (~ target_path (lock_of ws)) as Ht' by by destruct ws.
  split; [by rewrite (proj2 (proj1 Hs _ Ht' Hn))|]. exists lock. split; [by eapply same_lock|done].
Qed.

Definition fuzz_dir (ws : Path) : Prop := exists dir, ws = [str "crates"; dir; str "fuzz"].
Lemma fuzz_dir_lock ws : fuzz_dir ws -> ~ target_path ws /\ ws <> [] /\ ~ target_path (lock_of ws).
Proof using. intros [dir ->]. split; [done|]. done. Qed.

Lemma gate_workspaces_check root_lock workflows wss s : Forall fuzz_dir wss ->
  let '(r, s') := gate_workspaces false root_lock workflows wss s in
  same_but [] s s' /\
  (r = Ok [] <-> forall ws, ws ∈ wss -> listed_in workflows ws /\ lock_in_step s root_lock ws /\ builds s ws).
Proof using HL.
  intros Hd. revert s. induction Hd as [|ws wss [dir ->] Hd IH]; intros s; cbn [gate_workspaces].
  { split; [done|]. split; [|done]. intros _ ws Hws. by apply elem_of_nil in Hws. }
  run. destruct (from_utf8 dir) as [u|] eqn:Hu.
  2:{ destruct (gate_unnamed false root_lock workflows dir s Hu) as [e ->]. split; [done|]. split; [done|]. intros Ha.
      destruct (Ha [str "crates"; dir; str "fuzz"]) as [(d & [= <-] & [? Hs] & _) _]; [by left|]. congruence. }
  pose proof (gate_checked false root_lock workflows dir s ltac:(by eexists)) as Hg. cbv zeta in Hg.
  set (ws := [str "crates"; dir; str "fuzz"]) in *.
  destruct (gate_workspace false root_lock workflows ws s) as [r s1]. destruct Hg as (rs & s1' & [= <- <-] & Hs & Hok).
  assert (forall ws, fuzz_dir ws -> lock_in_step s root_lock ws /\ builds s ws <-> lock_in_step s1 root_lock ws /\ builds s1 ws) as Hmove.
  { intros w (Ht & Hne & _)%fuzz_dir_lock. split; intros [Hl Hb]; split.
    - eapply lock_same; [exact Hs|done|done|apply not_elem_of_nil|done].
    - by eapply builds_same.
    - eapply lock_same; [by apply same_sym|done|done|apply not_elem_of_nil|done].
    - eapply builds_same; [by apply same_sym|done]. }
  destruct r as [fs|e|f].
  - specialize (IH s1). destruct (gate_workspaces false root_lock workflows wss s1) as [r2 s2]. destruct IH as [Hs2 Hr2].
    assert (forall more, r2 = Ok more -> (@Ok AnyError _ (fs ++ more) = Ok [] <-> @Ok AnyError (list bytes) fs = Ok [] /\ r2 = Ok [])) as Happ.
    { intros more ->. split; [intros [= [-> ->]%app_nil]; done|by intros [[= ->] [= ->]]]. }
    assert ((r2 = Ok [] <-> forall w, w ∈ wss -> listed_in workflows w /\ lock_in_step s root_lock w /\ builds s w)) as Hr2'.
    { rewrite Hr2. rewrite Forall_forall in Hd. split; intros Ha w Hw; destruct (Ha w Hw) as [? Hw']; (split; [done|]); by apply (Hmove w (Hd w Hw)). }
    assert ((@Ok AnyError (list bytes) fs = Ok [] /\ r2 = Ok []) <->
      forall w, w ∈ ws :: wss -> listed_in workflows w /\ lock_in_step s root_lock w /\ builds s w) as Hall.
    { rewrite Hok, Hr2'. split.
      - intros [(_ & Hws) Hrest] w [->|Hw]%elem_of_cons; [done|by apply Hrest].
      - intros Ha. split; [split; [done|apply Ha; by left]|]. intros w Hw. apply Ha. by right. }
    destruct r2 as [more|e|f]; (split; [by eapply same_trans|]); etransitivity; [..|exact Hall| |exact Hall| |exact Hall];
      [by apply Happ|by split; [|intros [_ ?]]..].
  - split; [done|]. split; [done|]. intros Ha. destruct Hok as [_ Hok]. rewrite Hok; [done|]. split; [done|apply Ha; by left].
  - split; [done|]. split; [done|]. intros Ha. destruct Hok as [_ Hok]. rewrite Hok; [done|]. split; [done|apply Ha; by left].
Qed.

Lemma lock_of_inj ws ws' : lock_of ws = lock_of ws' -> ws = ws'.
Proof using. unfold lock_of, join. apply app_inj_tail. Qed.

(** The regeneration of every workspace. *)
Lemma gate_workspaces_sync root_lock workflows wss s : Forall fuzz_dir wss ->
  let '(r, s') := gate_workspaces true root_lock workflows wss s in
  same_but (lock_of <$> wss) s s' /\ (r = Ok [] -> forall ws, ws ∈ wss -> listed_in workflows ws /\ lock_in_step s' root_lock ws).
Proof using HL.
  intros Hd. revert s. induction Hd as [|ws wss [dir ->] Hd IH]; intros s; cbn [gate_workspaces].
  { split; [done|]. intros _ ws Hws. by apply elem_of_nil in Hws. }
  run. destruct (from_utf8 dir) as [u|] eqn:Hu.
  2:{ destruct (gate_unnamed true root_lock workflows dir s Hu) as [e ->]. done. }
  pose proof (gate_checked true root_lock workflows dir s ltac:(by eexists)) as Hg. cbv zeta in Hg.
  set (ws := [str "crates"; dir; str "fuzz"]) in *. assert (fuzz_dir ws) as Hws by by exists dir.
  destruct (fuzz_dir_lock ws Hws) as (Ht & Hne & Htl). pose proof (sync_spec ws s Htl) as Hsync.
  destruct (gate_workspace true root_lock workflows ws s) as [r s1]. destruct Hg as (rs & s0 & Hrun & Hs & Hok).
  rewrite Hrun in Hsync. destruct Hsync as [Hs0 _].
  assert (same_but (lock_of <$> ws :: wss) s s1) as Hs1.
  { eapply same_trans; [eapply same_weaken; [|exact Hs0]; set_solver|eapply same_weaken; [|exact Hs]; set_solver]. }
  destruct r as [fs|e|f]; [|done..]. specialize (IH s1).
  destruct (gate_workspaces true root_lock workflows wss s1) as [r2 s2]. destruct IH as [Hs2 Hr2].
  assert (same_but (lock_of <$> ws :: wss) s s2) as Hall.
  { eapply same_trans; [exact Hs1|eapply same_weaken; [|exact Hs2]; set_solver]. }
  destruct r2 as [more|e|f]; (split; [done|]); [|done..]. intros [= [-> ->]%app_nil] w [->|Hw]%elem_of_cons.
  - destruct Hok as [Hok _]. destruct (Hok eq_refl) as (_ & Hl & Hstep & _). split; [done|].
    destruct (decide (ws ∈ wss)) as [Hin|Hin]; [by apply Hr2|].
    eapply lock_same; [exact Hs2|done|done| |by eapply lock_same; [exact Hs|done|done|apply not_elem_of_nil|]].
    intros (w & Hw%lock_of_inj & Hin')%list_elem_of_fmap. by subst w.
  - by apply Hr2.
Qed.

(** What the gate reads before its loop. *)
Lemma gate_inputs sync s :
  (exists root_lock workflows wss,
     holds_lock s ROOT_LOCK root_lock /\ Forall2 (fun p w => w.1 = p /\ holds_text s p w.2) MATRIX_WORKFLOWS workflows /\
     (exists entries, fs_read_dir s [str "crates"] = Ok entries /\ Forall (fun e => exists dir, e = Ok dir) entries) /\
     (exists ws, workspace s ws) /\ (forall ws, ws ∈ wss <-> workspace s ws) /\ Forall fuzz_dir wss /\
     let '(r, s') := gate_workspaces sync root_lock workflows wss s in
     (fuzz_lock_run sync s).2 = s' /\ ((fuzz_lock_run sync s).1 = Ok () <-> r = Ok [])) \/
  ((fuzz_lock_run sync s).2 = s /\ (fuzz_lock_run sync s).1 <> Ok () /\ ~ in_step s).
Proof using HL.
  unfold fuzz_lock_run, bail, lift. run. destruct (read_lock_spec ROOT_LOCK s) as [Hs Hr].
  destruct (read_lock ROOT_LOCK s) as [[root_lock|e|f] s1]; cbn [fst snd] in *; subst s1;
    [|by right; split; [|split; [|intros (l & ?%Hr & _)]]..].
  destruct (read_workflows_spec MATRIX_WORKFLOWS s) as [Hs Hrw].
  assert (in_step s -> exists workflows, Forall2 (fun p w => w.1 = p /\ holds_text s p w.2) MATRIX_WORKFLOWS workflows) as Hin.
  { intros (? & _ & Hw & _). unfold MATRIX_WORKFLOWS in *.
    destruct (Hw [str ".github"; str "workflows"; str "fuzz.yml"]) as [t1 H1]; [set_solver|].
    destruct (Hw [str ".github"; str "workflows"; str "ci.yml"]) as [t2 H2]; [set_solver|].
    exists [([str ".github"; str "workflows"; str "fuzz.yml"], t1); ([str ".github"; str "workflows"; str "ci.yml"], t2)].
    constructor; [done|constructor; [done|constructor]]. }
  destruct (read_workflows MATRIX_WORKFLOWS s) as [[workflows|e|f] s1]; cbn [fst snd] in *; subst s1;
    [|by right; split; [|split; [|intros (w & ?%Hrw)%Hin]]..].
  destruct (fuzz_workspaces_spec s) as [Hs Hws].
  destruct (fuzz_workspaces s) as [[wss|e|f] s1]; cbn [fst snd] in *; subst s1;
    [|by right; split; [|split; [|intros (? & _ & _ & ? & ? & _); apply Hws]]..].
  destruct Hws as (Hd & Hex & Hin2). left. exists root_lock, workflows, wss.
  assert (Forall fuzz_dir wss) as Hfd.
  { apply Forall_forall. intros ws (? & dir & _ & _ & -> & _)%Hin2. by exists dir. }
  split; [by apply Hr|]. split; [by apply Hrw|]. split; [done|]. split; [done|]. split; [done|]. split; [done|].
  destruct (gate_workspaces sync root_lock workflows wss s) as [[fs|e|f] s1]; cbn [fst snd]; [|done..].
  case_bool_decide as Hf; cbn [fst snd]; (split; [done|]); [by subst|]. split; [done|]. by intros [= ?].
Qed.
End gate.

(** * Theorem *)

(** C39: The lockfile gate.  [cargo xtask fuzz-lock] changes no file and passes exactly when
    the inputs can be read and, for every fuzz workspace, both workflows list its crate, its
    lockfile exists, parses and pins every package it shares with the root - the same name in
    the same semver bucket - exactly as the root does, and [cargo check --locked] passes.
    With [--sync] no file but the lockfiles of the fuzz workspaces changes, and if it passes
    each of them is in step afterwards; regenerating one leaves it as it was if cargo fails. *)
Theorem fuzz_lock_exact {S : Type} `{!Host S} {HL : HostLaws S} `{Toml} (s : S) :
  (let '(r, s') := fuzz_lock_run false s in same_but [] s s' /\ (r = Ok () <-> in_step s)) /\
  (let '(r, s') := fuzz_lock_run true s in
   exists wss, (forall ws, ws ∈ wss -> workspace s ws) /\ same_but (lock_of <$> wss) s s' /\
     (r = Ok () -> exists root_lock, holds_lock s' ROOT_LOCK root_lock /\
       forall ws, workspace s' ws -> listed s' ws /\ lock_in_step s' root_lock ws)) /\
  (forall ws, workspace s ws ->
   let '(r, s') := sync_from_root ws s in
   match r with
   | Err e => fs_read s' (lock_of ws) = fs_read s (lock_of ws) \/ copy_failed ws e \/ restore_failed ws e
   | _ => True
   end).
Proof.
  split; [|split].
  - destruct (gate_inputs false s) as [(root_lock & workflows & wss & Hl & Hw & Hd & Hex & Hin & Hfd & Hg)|(Hs & Hr & Hn)].
    + pose proof (gate_workspaces_check root_lock workflows wss s Hfd) as Hc.
      destruct (gate_workspaces false root_lock workflows wss s) as [r s']. destruct Hg as [Hs' Hg], Hc as [Hsame Hc].
      destruct (fuzz_lock_run false s) as [r0 s0]. cbn [fst snd] in *. subst s0. split; [done|]. rewrite Hg, Hc. split.
      * intros Ha. exists root_lock. split; [done|]. split; [|split; [done|split; [done|]]].
        { intros w Hwf. apply list_elem_of_lookup in Hwf as [i Hi]. destruct (Forall2_lookup_l _ _ _ _ _ Hw Hi) as ([q t] & _ & _ & Ht). by exists t. }
        intros ws Hws%Hin. destruct (Ha ws Hws) as (Hli & ? & ?). split; [by eapply listed_in_spec|done].
      * intros (root_lock' & Hl' & _ & _ & _ & Ha) ws Hws%Hin. destruct (Ha ws Hws) as (Hli & Hst & Hb).
        assert (root_lock' = root_lock) as -> by (destruct Hl as (t & [Ht _] & E), Hl' as (t' & [Ht' _] & E'); congruence).
        split; [by eapply listed_in_spec|done].
    + destruct (fuzz_lock_run false s) as [r0 s0]. cbn [fst snd] in *. subst s0. split; [done|]. by split; [intros ?|intros ?%Hn].
  - destruct (gate_inputs true s) as [(root_lock & workflows & wss & Hl & Hw & Hd & Hex & Hin & Hfd & Hg)|(Hs & Hr & Hn)].
    + pose proof (gate_workspaces_sync root_lock workflows wss s Hfd) as Hc.
      destruct (gate_workspaces true root_lock workflows wss s) as [r s']. destruct Hg as [Hs' Hg], Hc as [Hsame Hc].
      destruct (fuzz_lock_run true s) as [r0 s0]. cbn [fst snd] in *. subst s0. exists wss. split; [intros ws; by apply Hin|]. split; [done|].
      intros Hok%Hg. specialize (Hc Hok).
      assert (forall p, p ∈ lock_of <$> wss -> exists dir, p = [str "crates"; dir; str "fuzz"; str "Cargo.lock"]) as Hlocks.
      { intros p (ws & -> & Hws)%list_elem_of_fmap. rewrite Forall_forall in Hfd. destruct (Hfd _ Hws) as [dir ->]. by exists dir. }
      exists root_lock. split.
      { eapply same_lock; [exact Hsame|done| |exact Hl]. by intros [dir [=]]%Hlocks. }
      intros ws Hws. apply (same_workspace (lock_of <$> wss) s' s) in Hws; [|by apply same_sym|].
      2:{ intros ws' (dir & Hj)%Hlocks. unfold join in Hj. apply (f_equal last) in Hj. by rewrite last_snoc in Hj. }
      destruct (Hc ws) as [Hli Hst]; [by apply Hin|]. split; [|done].
      apply (listed_in_spec s) in Hli as (dir & -> & Hu & Hli); [|done]. exists dir. split; [done|]. split; [done|].
      intros w Hwf. destruct (Hli w Hwf) as (t & Ht & Hlist). exists t. split; [|done].
      eapply same_text; [exact Hsame| | |exact Ht].
      * by apply elem_of_cons in Hwf as [-> | ->%list_elem_of_singleton].
      * intros [d ->]%Hlocks. by apply elem_of_cons in Hwf as [[=]|[=]%list_elem_of_singleton].
    + destruct (fuzz_lock_run true s) as [r0 s0]. cbn [fst snd] in *. subst s0. exists []. split; [by intros ws ?%elem_of_nil|]. done.
  - intros ws (? & dir & _ & _ & -> & _). destruct (fuzz_dir_lock [str "crates"; dir; str "fuzz"]) as (_ & _ & Ht); [by exists dir|].
    pose proof (sync_spec _ s Ht) as Hs. destruct (sync_from_root _ s) as [r s']. exact (proj2 Hs).
Qed.

(** * Witness: files in memory, a cargo that always succeeds *)

#[local] Instance package_eq : EqDecision Package := ltac:(solve_decision).
#[local] Instance package_countable : Countable Package :=
  inj_countable' (fun p => (name p, version p, source p, checksum p))
    (fun '(n, v, s, c) => {| name := n; version := v; source := s; checksum := c |}) ltac:(by intros []).
#[local] Instance demo_toml : Toml := {
  toml_from_str text := match decode (bytes_pos text) with Some l => Ok {| package := l |} | None => Err (str "syntax") end
}.
Definition toml_text (l : list Package) : bytes := pos_bytes (encode l).

Local Abbreviation Files := (gmap (list bytes) bytes).
Definition file (m : Files) (p : Path) : result IoErr bytes := ok_or (m !! p) IoNotFound.
#[local] Instance demo_host : Host Files := {
  root_path := str "/repo";
  fs_read := file;
  fs_is_file m p := bool_decide (is_Some (m !! p));
  fs_read_dir m p := Ok [Ok (str "hap-tlv8"); Ok (str "hap-model")];
  fs_copy src dst m := match m !! src with Some d => (Ok (), <[dst := d]> m) | None => (Err IoNotFound, m) end;
  fs_write p data m := (Ok (), <[p := data]> m);
  fs_remove_file p m := (Ok (), delete p m);
  spawn _ _ _ m := (Ok None, m);
  print_line _ m := m
}.

Lemma demo_file (m m' : Files) q : m' !! q = m !! q -> fs_read m' q = fs_read m q /\ fs_is_file m' q = fs_is_file m q.
Proof. intros E. cbn. unfold file. by rewrite E. Qed.
Lemma demo_insert (m : Files) p d : same_but [p] m (<[p := d]> m).
Proof.
  split; [|done]. intros q _ Hq. apply demo_file. apply lookup_insert_ne. intros ->. apply Hq. by left.
Qed.
Lemma demo_delete (m : Files) p : same_but [p] m (delete p m).
Proof.
  split; [|done]. intros q _ Hq. apply demo_file. apply lookup_delete_ne. intros ->. apply Hq. by left.
Qed.
Lemma demo_read (m : Files) p : fs_read m p = ok_or (m !! p) IoNotFound.
Proof. done. Qed.
#[local] Instance demo_host_laws : HostLaws Files.
Proof.
  refine {| builds _ _ := True |}; try done.
  - intros src dst m. unfold fs_copy, demo_host at 1. destruct (m !! src) as [d|] eqn:Hs; [|by split].
    split; [apply demo_insert|]. intros _. rewrite !demo_read, Hs. by rewrite lookup_insert_eq.
  - intros p data m. split; [apply demo_insert|]. intros _. rewrite demo_read. by rewrite lookup_insert_eq.
  - intros p m. split; [apply demo_delete|]. intros _. rewrite demo_read. by rewrite lookup_delete_eq.
Defined.

Definition demo_package (v : bytes) : Package := {| name := str "thiserror"; version := v; source := None; checksum := None |}.
(** A repository whose one fuzz workspace pins [thiserror] at the given version. *)
Definition demo_repo (v : bytes) : Files :=
  list_to_map [(ROOT_LOCK, toml_text [demo_package (str "2.0.21")]);
    ([str ".github"; str "workflows"; str "fuzz.yml"], str "include:" ++ [x0a] ++ str "  - crate: hap-tlv8" ++ [x0a]);
    ([str ".github"; str "workflows"; str "ci.yml"], str "  - crate: hap-tlv8" ++ [x0d; x0a]);
    ([str "crates"; str "hap-tlv8"; str "fuzz"; str "Cargo.toml"], str "[package]");
    ([str "crates"; str "hap-tlv8"; str "fuzz"; str "Cargo.lock"],
     toml_text [demo_package v; {| name := str "cc"; version := str "1.0.1"; source := None; checksum := None |}])].

Example demo_passes : (fuzz_lock_run false (demo_repo (str "2.0.21"))).1 = Ok ().
Proof. by vm_compute. Qed.
Example demo_drifts : is_ok (fuzz_lock_run false (demo_repo (str "2.0.18"))).1 = false.
Proof. by vm_compute. Qed.
Example demo_syncs : (fuzz_lock_run true (demo_repo (str "2.0.18"))).1 = Ok ().
Proof. by vm_compute. Qed.

Lemma fuzz_lock_exact_witness :
  let s := demo_repo (str "2.0.21") in
  (let '(r, s') := fuzz_lock_run false s in same_but [] s s' /\ (r = Ok () <-> in_step s)) /\
  (let '(r, s') := fuzz_lock_run true s in
   exists wss, (forall ws, ws ∈ wss -> workspace s ws) /\ same_but (lock_of <$> wss) s s' /\
     (r = Ok () -> exists root_lock, holds_lock s' ROOT_LOCK root_lock /\
       forall ws, workspace s' ws -> listed s' ws /\ lock_in_step s' root_lock ws)) /\
  (forall ws, workspace s ws ->
   let '(r, s') := sync_from_root ws s in
   match r with
   | Err e => fs_read s' (lock_of ws) = fs_read s (lock_of ws) \/ copy_failed ws e \/ restore_failed ws e
   | _ => True
   end).
Proof. exact (fuzz_lock_exact (demo_repo (str "2.0.21"))). Defined.
