(* ===== verification/Codegen.v ===== *)
(** * The generator of the HAP type tables (xtask codegen_hap_types, main)

    [cargo xtask codegen-hap-types] writes generated.rs from the table hap-types.json; the
    model produces its text line by line.  The lemma [codegen_agrees] reads the arms of the generated
    matches back and finds those of [Types], so what the repository commits is what the
    generator makes of its table.  Below it, the commands of xtask. *)

From S2P Require Import Prelude Text Http Model Types FuzzLock.

(** ** The table *)

Record TypeEntry := {
  te_name : bytes; te_short : bytes; te_format : option bytes; te_unit : option bytes; te_valid_values : list (Z * bytes)
}.
Record Table := { services : list TypeEntry; characteristics : list TypeEntry }.

(** [serde_json::from_slice], and which characters beyond ASCII [{:?}] shows as they are. *)
Class TableCodec := { table_from_slice : bytes -> result bytes Table; is_printable : Z -> bool }.

(** ** Text *)

Definition DQUOTE : bytes := [x22].

(** [{:?}] of a string. *)
Definition escape_debug `{TableCodec} (c : Z) : bytes :=
  if (c =? 0)%Z then str "\0" else if (c =? 9)%Z then str "\t" else if (c =? 13)%Z then str "\r"
  else if (c =? 10)%Z then str "\n" else if (c =? 92)%Z then str "\\" else if (c =? 34)%Z then str "\" ++ DQUOTE
  else if ((32 <=? c) && (c <? 127) || (127 <? c) && is_printable c)%Z then utf8_encode [c]
  else str "\u{" ++ utf8_encode (to_hex c) ++ str "}".
Definition debug_str `{TableCodec} (s : bytes) : bytes :=
  DQUOTE ++ mjoin (escape_debug <$> from_utf8_lossy s) ++ DQUOTE.

Definition full_uuid (short : bytes) : bytes :=
  let lowered := Zbyte <$> to_ascii_lowercase (byteZ <$> short) in
  replicate (8 - length (from_utf8_lossy lowered)) x30 ++ lowered ++ str "-0000-1000-8000-0026bb765291".

(** An unknown name is a panic. *)
Definition unit_variant (unit : bytes) : result AnyError bytes :=
  if bool_decide (unit = str "celsius") then Ok (str "Celsius")
  else if bool_decide (unit = str "percentage") then Ok (str "Percentage")
  else if bool_decide (unit = str "arcdegrees") then Ok (str "ArcDegrees")
  else if bool_decide (unit = str "lux") then Ok (str "Lux")
  else if bool_decide (unit = str "seconds") then Ok (str "Seconds")
  else if bool_decide (unit = str "ppm") then Ok (str "Ppm")
  else if bool_decide (unit = str "micrograms/m^3") then Ok (str "MicrogramsPerM3")
  else Fault Panicked.

Definition format_variant (fmt : bytes) : result AnyError bytes :=
  if bool_decide (fmt = str "bool") then Ok (str "Bool")
  else if bool_decide (fmt = str "uint8") then Ok (str "Uint8")
  else if bool_decide (fmt = str "uint16") then Ok (str "Uint16")
  else if bool_decide (fmt = str "uint32") then Ok (str "Uint32")
  else if bool_decide (fmt = str "uint64") then Ok (str "Uint64")
  else if bool_decide (fmt = str "int") then Ok (str "Int")
  else if bool_decide (fmt = str "float") then Ok (str "Float")
  else if bool_decide (fmt = str "string") then Ok (str "String")
  else if bool_decide (fmt = str "tlv8") then Ok (str "Tlv8")
  else if bool_decide (fmt = str "data") then Ok (str "Data")
  else Fault Panicked.

(** [{v}] of an integer. *)
Definition show_i64 (n : Z) : bytes := utf8_encode (if (n <? 0)%Z then 45%Z :: to_decimal (- n) else to_decimal n).

Section codegen.
Context `{TC : TableCodec}.

(** ** [emit_enum]: the lines written *)

Definition arm (label value : bytes) : bytes := str "            " ++ label ++ str " => " ++ value ++ str ",".
Definition variant (e : TypeEntry) : bytes := str "Self::" ++ te_name e.
Definition closing : list bytes := [str "        }"; str "    }"].

Definition variant_lines (e : TypeEntry) : list bytes :=
  [str "    /// HAP short type " ++ debug_str (te_short e) ++ str "."; str "    " ++ te_name e ++ str ","].
Definition from_uuid_arm (e : TypeEntry) : bytes := arm (debug_str (full_uuid (te_short e))) (variant e).
Definition uuid_arm (e : TypeEntry) : bytes :=
  arm (variant e) (str "Uuid::from_full_unchecked(" ++ debug_str (full_uuid (te_short e)) ++ str ".to_string())").
Definition format_arm (e : TypeEntry) : result AnyError (list bytes) :=
  match te_format e with
  | Some fmt => v ← format_variant fmt; Ok [arm (variant e) (str "Some(CharFormat::" ++ v ++ str ")")]
  | None => Ok []
  end.
Definition unit_arm (e : TypeEntry) : result AnyError (list bytes) :=
  match te_unit e with
  | Some u => v ← unit_variant u; Ok [arm (variant e) (str "Some(Unit::" ++ v ++ str ")")]
  | None => Ok []
  end.
Definition values_arm (e : TypeEntry) : list bytes :=
  if bool_decide (te_valid_values e = []) then []
  else
    let pairs := (fun '(v, n) => str "(" ++ show_i64 v ++ str ", " ++ debug_str n ++ str ")") <$> te_valid_values e in
    [arm (variant e) (str "Some(&[" ++ join_with (str ", ") pairs ++ str "])")].

Definition emit_formats (entries : list TypeEntry) : result AnyError (list bytes) :=
  formats ← mapM format_arm entries;
  units ← mapM unit_arm entries;
  Ok ([[]; str "    /// The HAP default value format for this characteristic, if known.";
       str "    pub fn default_format(&self) -> Option<CharFormat> {"; str "        match self {"] ++ mjoin formats ++
      [str "            _ => None,"] ++ closing ++
      [[]; str "    /// The HAP unit for this characteristic, if it has one.";
       str "    pub fn unit(&self) -> Option<Unit> {"; str "        match self {"] ++ mjoin units ++
      [str "            _ => None,"] ++ closing ++
      [[]; str "    /// Named enum values for an enumerated characteristic, smallest-first.";
       str "    pub fn valid_values(&self) -> Option<&'static [(i64, &'static str)]> {"; str "        match self {"] ++
      (entries ≫= values_arm) ++ [str "            _ => None,"] ++ closing).

Definition emit_enum (name : bytes) (entries : list TypeEntry) (with_format : bool) : result AnyError (list bytes) :=
  formats ← (if with_format then emit_formats entries else Ok []);
  Ok ([str "/// HAP-defined " ++ name ++ str " (generated). `Unknown` carries any non-HAP UUID.";
       str "#[derive(Debug, Clone, PartialEq, Eq, Hash)]"; str "#[non_exhaustive]"; str "pub enum " ++ name ++ str " {"] ++
      (entries ≫= variant_lines) ++
      [str "    /// A type not in the generated table."; str "    Unknown(Uuid),"; str "}"; [];
       str "impl " ++ name ++ str " {"; str "    /// Map a parsed [`Uuid`] to its named variant, or `Unknown`.";
       str "    pub fn from_uuid(u: &Uuid) -> Self {"; str "        match u.as_full() {"] ++
      (from_uuid_arm <$> entries) ++ [str "            _ => Self::Unknown(u.clone()),"] ++ closing ++
      [[]; str "    /// The canonical [`Uuid`] for this type."; str "    pub fn uuid(&self) -> Uuid {"; str "        match self {"] ++
      (uuid_arm <$> entries) ++ [str "            Self::Unknown(u) => u.clone(),"] ++ closing ++
      formats ++ [str "}"; []]).

(** The file: every line ended by a newline. *)
Definition as_text (lines : list bytes) : bytes := mjoin ((fun l => l ++ [x0a]) <$> lines).

Definition header : list bytes :=
  [str "// @generated by `cargo xtask codegen-hap-types` from xtask/model/hap-types.json.";
   str "// Do not edit by hand. Re-run the codegen command to regenerate."; [];
   str "#![allow(clippy::match_same_arms, clippy::match_single_binding, clippy::too_many_lines)]"; [];
   str "use crate::uuid::Uuid;"; str "#[allow(unused_imports)]"; str "use crate::format::CharFormat;"; [];
   str "#[allow(unused_imports)]"; str "use crate::unit::Unit;"; []].

Definition generate (table : Table) : result AnyError bytes :=
  s ← emit_enum (str "ServiceType") (services table) false;
  c ← emit_enum (str "CharacteristicType") (characteristics table) true;
  Ok (as_text (header ++ s ++ c)).

Definition TABLE_PATH : Path := [str "xtask"; str "model"; str "hap-types.json"].
Definition OUT_PATH : Path := [str "crates"; str "hap-model"; str "src"; str "generated.rs"].

Definition codegen_run {S : Type} `{!Host S} : stateful S AnyError bytes :=
  bytes ← io_context (str "reading " ++ absolute TABLE_PATH) (read TABLE_PATH);
  table ← context (str "parsing " ++ absolute TABLE_PATH) (with_err Msg (lift (table_from_slice bytes)));
  s ← lift (generate table);
  _ ← io_context (str "writing " ++ absolute OUT_PATH) (fs_write OUT_PATH s);
  mret (absolute OUT_PATH).
End codegen.

(** ** xtask's commands (main) *)

Inductive Cmd := CheckCmd | CaptureTlv8 | CapturePairSetup | CodegenHapTypes | FuzzLockCmd (sync : bool).

(** [ExitCode]: success or failure. *)
Inductive ExitCode := SUCCESS | FAILURE.

Definition CAPTURE_TEXT : list bytes :=
  [str "capture-pair-setup runs against a real, unpaired accessory on your LAN and is not driven by xtask."; [];
   str "Script:  xtask/scripts/capture-pair-setup/capture_pair_setup.py";
   str "Dev ref: xtask/scripts/capture-pair-setup/README.md";
   str "Runbook: docs/runbooks/m2-capture-pair-setup-lifx.md"; [];
   str "Quick start (the setup code is a secret; pass it via HAP_SETUP_CODE):";
   str "  python3 -m venv xtask/scripts/capture-pair-setup/.venv";
   str "  xtask/scripts/capture-pair-setup/.venv/bin/pip install aiohomekit";
   str "  export HAP_SETUP_CODE=XXX-XX-XXX";
   str "  xtask/scripts/capture-pair-setup/.venv/bin/python \";
   str "    xtask/scripts/capture-pair-setup/capture_pair_setup.py --device <hap-device-id>"; [];
   str "Outputs land in test-vectors/pair-setup/ and test-vectors/srp/; review the printed safe-to-commit table before committing."].

Section commands.
Context `{TC : TableCodec} {S : Type} `{!Host S} `{Toml}.
Local Abbreviation M := (stateful S AnyError).

Definition not_yet (name when : bytes) : M () :=
  bail (str "`" ++ name ++ str "` is not implemented yet; it lands in " ++ when).

Definition capture_pair_setup : M () := println (join_with [x0a] CAPTURE_TEXT).

Definition run_check : M () :=
  _ ← xtask_run (str "cargo") [str "fmt"; str "--all"; str "--"; str "--check"];
  _ ← xtask_run (str "cargo")
        [str "clippy"; str "--workspace"; str "--all-targets"; str "--all-features"; str "--"; str "-D"; str "warnings"];
  _ ← xtask_run (str "cargo") [str "test"; str "--workspace"; str "--all-features"];
  _ ← run_with_env (str "cargo") [str "doc"; str "--workspace"; str "--all-features"; str "--no-deps"]
        [(str "RUSTDOCFLAGS", str "-D warnings")];
  _ ← fuzz_lock_run false;
  println (str "xtask check: all gates passed").

Definition command (cmd : Cmd) : M () :=
  match cmd with
  | CheckCmd => run_check
  | CaptureTlv8 => not_yet (str "capture-tlv8") (str "M1 (see docs/superpowers/plans/)")
  | CapturePairSetup => capture_pair_setup
  | CodegenHapTypes => path ← codegen_run; println (str "wrote " ++ path)
  | FuzzLockCmd sync => fuzz_lock_run sync
  end.

(** [main]: an error is printed on the standard error, and is the exit code. *)
Definition xtask_main (cmd : Cmd) : stateful S Empty_set ExitCode := fun s =>
  match command cmd s with
  | (Ok _, s) => (Ok SUCCESS, s)
  | (Err err, s) => (Ok FAILURE, print_line (str "xtask: " ++ display_chain err) s)
  | (Fault f, s) => (Fault f, s)
  end.
End commands.

(** * Specification: reading the generated matches back *)

(** The lines after the first that is [line]. *)
Fixpoint after (line : bytes) (lines : list bytes) : list bytes :=
  match lines with [] => [] | l :: lines' => if bool_decide (l = line) then lines' else after line lines' end.

(** An arm: its pattern and its value; the arms of a match up to its last. *)
Definition read_arm (line : bytes) : option (bytes * bytes) :=
  if bool_decide (take 12 line = replicate 12 x20) then
    n ← find_subslice line (str " => ");
    Some (take (n - 12) (drop 12 line), take (length line - n - 5) (drop (n + 4) line))
  else None.
Fixpoint read_arms (lines : list bytes) : list (bytes * bytes) :=
  match lines with
  | l :: lines' =>
      match read_arm l with
      | Some (p, v) => if bool_decide (p = str "_") || bool_decide (p = str "Self::Unknown(u)") then [] else (p, v) :: read_arms lines'
      | None => []
      end
  | [] => []
  end.
(** The arms of a method of an [impl] block of a source text. *)
Definition arms_of (text impl method scrutinee : bytes) : list (bytes * bytes) :=
  read_arms (after (str "        match " ++ scrutinee ++ str " {") (after method (after (str "impl " ++ impl ++ str " {") (split_on x0a text)))).

(** The names of the variants, formats and units in the source. *)
Definition service_variant (t : HapServiceType) : string :=
  match t with
  | SvcAccessoryInformation => "AccessoryInformation" | SvcFan => "Fan"
  | SvcGarageDoorOpener => "GarageDoorOpener" | SvcLightBulb => "LightBulb"
  | SvcLockManagement => "LockManagement" | SvcLockMechanism => "LockMechanism" | SvcOutlet => "Outlet"
  | SvcSwitch => "Switch" | SvcThermostat => "Thermostat" | SvcSecuritySystem => "SecuritySystem"
  | SvcCarbonMonoxideSensor => "CarbonMonoxideSensor" | SvcContactSensor => "ContactSensor" | SvcDoor => "Door"
  | SvcHumiditySensor => "HumiditySensor" | SvcLeakSensor => "LeakSensor" | SvcLightSensor => "LightSensor"
  | SvcMotionSensor => "MotionSensor" | SvcOccupancySensor => "OccupancySensor"
  | SvcSmokeSensor => "SmokeSensor" | SvcStatelessProgrammableSwitch => "StatelessProgrammableSwitch"
  | SvcTemperatureSensor => "TemperatureSensor" | SvcWindow => "Window" | SvcWindowCovering => "WindowCovering"
  | SvcAirQualitySensor => "AirQualitySensor" | SvcBattery => "Battery"
  | SvcCarbonDioxideSensor => "CarbonDioxideSensor" | SvcProtocolInformation => "ProtocolInformation"
  | SvcFanV2 => "FanV2" | SvcSlat => "Slat" | SvcFilterMaintenance => "FilterMaintenance"
  | SvcAirPurifier => "AirPurifier" | SvcHeaterCooler => "HeaterCooler"
  | SvcHumidifierDehumidifier => "HumidifierDehumidifier" | SvcServiceLabel => "ServiceLabel"
  | SvcIrrigationSystem => "IrrigationSystem" | SvcValve => "Valve" | SvcFaucet => "Faucet"
  | SvcCameraRtpStreamManagement => "CameraRtpStreamManagement" | SvcMicrophone => "Microphone"
  | SvcSpeaker => "Speaker" | SvcDoorbell => "Doorbell"
  | SvcUnknown _ => "Unknown"
  end.

Definition characteristic_variant (t : HapCharacteristicType) : string :=
  match t with
  | ChrAdministratorOnlyAccess => "AdministratorOnlyAccess" | ChrAudioFeedback => "AudioFeedback"
  | ChrBrightness => "Brightness" | ChrCoolingThresholdTemperature => "CoolingThresholdTemperature"
  | ChrCurrentDoorState => "CurrentDoorState" | ChrCurrentHeatingCoolingState => "CurrentHeatingCoolingState"
  | ChrCurrentRelativeHumidity => "CurrentRelativeHumidity" | ChrCurrentTemperature => "CurrentTemperature"
  | ChrHeatingThresholdTemperature => "HeatingThresholdTemperature" | ChrHue => "Hue"
  | ChrIdentify => "Identify" | ChrLockControlPoint => "LockControlPoint"
  | ChrLockManagementAutoSecurityTimeout => "LockManagementAutoSecurityTimeout"
  | ChrLockLastKnownAction => "LockLastKnownAction" | ChrLockCurrentState => "LockCurrentState"
  | ChrLockTargetState => "LockTargetState" | ChrLogs => "Logs" | ChrManufacturer => "Manufacturer"
  | ChrModel => "Model" | ChrMotionDetected => "MotionDetected" | ChrName => "Name"
  | ChrObstructionDetected => "ObstructionDetected" | ChrOn => "On" | ChrOutletInUse => "OutletInUse"
  | ChrRotationDirection => "RotationDirection" | ChrRotationSpeed => "RotationSpeed"
  | ChrSaturation => "Saturation" | ChrSerialNumber => "SerialNumber" | ChrTargetDoorState => "TargetDoorState"
  | ChrTargetHeatingCoolingState => "TargetHeatingCoolingState"
  | ChrTargetRelativeHumidity => "TargetRelativeHumidity" | ChrTargetTemperature => "TargetTemperature"
  | ChrTemperatureDisplayUnits => "TemperatureDisplayUnits" | ChrVersion => "Version"
  | ChrPairSetup => "PairSetup" | ChrPairVerify => "PairVerify" | ChrPairingFeatures => "PairingFeatures"
  | ChrPairingPairings => "PairingPairings" | ChrFirmwareRevision => "FirmwareRevision"
  | ChrHardwareRevision => "HardwareRevision" | ChrAirParticulateDensity => "AirParticulateDensity"
  | ChrAirParticulateSize => "AirParticulateSize"
  | ChrSecuritySystemCurrentState => "SecuritySystemCurrentState"
  | ChrSecuritySystemTargetState => "SecuritySystemTargetState" | ChrBatteryLevel => "BatteryLevel"
  | ChrCarbonMonoxideDetected => "CarbonMonoxideDetected" | ChrContactSensorState => "ContactSensorState"
  | ChrCurrentAmbientLightLevel => "CurrentAmbientLightLevel"
  | ChrCurrentHorizontalTiltAngle => "CurrentHorizontalTiltAngle" | ChrCurrentPosition => "CurrentPosition"
  | ChrCurrentVerticalTiltAngle => "CurrentVerticalTiltAngle" | ChrHoldPosition => "HoldPosition"
  | ChrLeakDetected => "LeakDetected" | ChrOccupancyDetected => "OccupancyDetected"
  | ChrPositionState => "PositionState" | ChrProgrammableSwitchEvent => "ProgrammableSwitchEvent"
  | ChrStatusActive => "StatusActive" | ChrSmokeDetected => "SmokeDetected" | ChrStatusFault => "StatusFault"
  | ChrStatusJammed => "StatusJammed" | ChrStatusLowBattery => "StatusLowBattery"
  | ChrStatusTampered => "StatusTampered" | ChrTargetHorizontalTiltAngle => "TargetHorizontalTiltAngle"
  | ChrTargetPosition => "TargetPosition" | ChrTargetVerticalTiltAngle => "TargetVerticalTiltAngle"
  | ChrSecuritySystemAlarmType => "SecuritySystemAlarmType" | ChrChargingState => "ChargingState"
  | ChrCarbonMonoxideLevel => "CarbonMonoxideLevel" | ChrCarbonMonoxidePeakLevel => "CarbonMonoxidePeakLevel"
  | ChrCarbonDioxideDetected => "CarbonDioxideDetected" | ChrCarbonDioxideLevel => "CarbonDioxideLevel"
  | ChrCarbonDioxidePeakLevel => "CarbonDioxidePeakLevel" | ChrAirQuality => "AirQuality"
  | ChrAccessoryFlags => "AccessoryFlags" | ChrLockPhysicalControls => "LockPhysicalControls"
  | ChrTargetAirPurifierState => "TargetAirPurifierState"
  | ChrCurrentAirPurifierState => "CurrentAirPurifierState" | ChrCurrentSlatState => "CurrentSlatState"
  | ChrFilterLifeLevel => "FilterLifeLevel" | ChrFilterChangeIndication => "FilterChangeIndication"
  | ChrResetFilterIndication => "ResetFilterIndication" | ChrTargetAirQuality => "TargetAirQuality"
  | ChrCurrentFanState => "CurrentFanState" | ChrActive => "Active"
  | ChrCurrentHeaterCoolerState => "CurrentHeaterCoolerState"
  | ChrTargetHeaterCoolerState => "TargetHeaterCoolerState"
  | ChrCurrentHumidifierDehumidifierState => "CurrentHumidifierDehumidifierState"
  | ChrTargetHumidifierDehumidifierState => "TargetHumidifierDehumidifierState" | ChrWaterLevel => "WaterLevel"
  | ChrSwingMode => "SwingMode" | ChrTargetSlatState => "TargetSlatState"
  | ChrTargetFanState => "TargetFanState" | ChrSlatType => "SlatType"
  | ChrCurrentTiltAngle => "CurrentTiltAngle" | ChrTargetTiltAngle => "TargetTiltAngle"
  | ChrOzoneDensity => "OzoneDensity" | ChrNitrogenDioxideDensity => "NitrogenDioxideDensity"
  | ChrSulphurDioxideDensity => "SulphurDioxideDensity" | ChrPm25Density => "Pm25Density"
  | ChrPm10Density => "Pm10Density" | ChrVocDensity => "VocDensity"
  | ChrRelativeHumidityDehumidifierThreshold => "RelativeHumidityDehumidifierThreshold"
  | ChrRelativeHumidityHumidifierThreshold => "RelativeHumidityHumidifierThreshold"
  | ChrServiceLabelIndex => "ServiceLabelIndex" | ChrServiceLabelNamespace => "ServiceLabelNamespace"
  | ChrColorTemperature => "ColorTemperature" | ChrProgramMode => "ProgramMode" | ChrInUse => "InUse"
  | ChrSetDuration => "SetDuration" | ChrRemainingDuration => "RemainingDuration" | ChrValveType => "ValveType"
  | ChrIsConfigured => "IsConfigured"
  | ChrSupportedVideoStreamConfiguration => "SupportedVideoStreamConfiguration"
  | ChrSupportedAudioStreamConfiguration => "SupportedAudioStreamConfiguration"
  | ChrSupportedRtpConfiguration => "SupportedRtpConfiguration"
  | ChrSelectedRtpStreamConfiguration => "SelectedRtpStreamConfiguration"
  | ChrSetupEndpoints => "SetupEndpoints" | ChrVolume => "Volume" | ChrMute => "Mute"
  | ChrNightVision => "NightVision" | ChrOpticalZoom => "OpticalZoom" | ChrDigitalZoom => "DigitalZoom"
  | ChrImageRotation => "ImageRotation" | ChrImageMirroring => "ImageMirroring"
  | ChrStreamingStatus => "StreamingStatus" | ChrThreadNodeCapabilities => "ThreadNodeCapabilities"
  | ChrThreadStatus => "ThreadStatus"
  | ChrUnknown _ => "Unknown"
  end.

Definition format_name (f : CharFormat) : string :=
  match f with
  | FBool => "Bool" | FUint8 => "Uint8" | FUint16 => "Uint16" | FUint32 => "Uint32" | FUint64 => "Uint64" | FInt => "Int"
  | FFloat => "Float" | FString => "String" | FTlv8 => "Tlv8" | FData => "Data"
  end.
Definition unit_name (u : HapUnit) : string :=
  match u with
  | Celsius => "Celsius" | Percentage => "Percentage" | ArcDegrees => "ArcDegrees" | Lux => "Lux" | Seconds => "Seconds"
  | Ppm => "Ppm" | MicrogramsPerM3 => "MicrogramsPerM3"
  end.

(** ** hap-types.json *)

Definition entry (name short : string) (format unit : option string) (valid_values : list (Z * string)) : TypeEntry :=
  {| te_name := str name; te_short := str short; te_format := str <$> format; te_unit := str <$> unit;
     te_valid_values := (fun '(v, n) => (v, str n)) <$> valid_values |}.

Definition hap_services : list TypeEntry := [
  entry "AccessoryInformation" "3E" None None [];
  entry "Fan" "40" None None [];
  entry "GarageDoorOpener" "41" None None [];
  entry "LightBulb" "43" None None [];
  entry "LockManagement" "44" None None [];
  entry "LockMechanism" "45" None None [];
  entry "Outlet" "47" None None [];
  entry "Switch" "49" None None [];
  entry "Thermostat" "4A" None None [];
  entry "SecuritySystem" "7E" None None [];
  entry "CarbonMonoxideSensor" "7F" None None [];
  entry "ContactSensor" "80" None None [];
  entry "Door" "81" None None [];
  entry "HumiditySensor" "82" None None [];
  entry "LeakSensor" "83" None None [];
  entry "LightSensor" "84" None None [];
  entry "MotionSensor" "85" None None [];
  entry "OccupancySensor" "86" None None [];
  entry "SmokeSensor" "87" None None [];
  entry "StatelessProgrammableSwitch" "89" None None [];
  entry "TemperatureSensor" "8A" None None [];
  entry "Window" "8B" None None [];
  entry "WindowCovering" "8C" None None [];
  entry "AirQualitySensor" "8D" None None [];
  entry "Battery" "96" None None [];
  entry "CarbonDioxideSensor" "97" None None [];
  entry "ProtocolInformation" "A2" None None [];
  entry "FanV2" "B7" None None [];
  entry "Slat" "B9" None None [];
  entry "FilterMaintenance" "BA" None None [];
  entry "AirPurifier" "BB" None None [];
  entry "HeaterCooler" "BC" None None [];
  entry "HumidifierDehumidifier" "BD" None None [];
  entry "ServiceLabel" "CC" None None [];
  entry "IrrigationSystem" "CF" None None [];
  entry "Valve" "D0" None None [];
  entry "Faucet" "D7" None None [];
  entry "CameraRtpStreamManagement" "110" None None [];
  entry "Microphone" "112" None None [];
  entry "Speaker" "113" None None [];
  entry "Doorbell" "121" None None []
].

Definition hap_characteristics : list TypeEntry := [
  entry "AdministratorOnlyAccess" "1" (Some "bool") None [];
  entry "AudioFeedback" "5" (Some "bool") None [];
  entry "Brightness" "8" (Some "int") (Some "percentage") [];
  entry "CoolingThresholdTemperature" "D" (Some "float") (Some "celsius") [];
  entry "CurrentDoorState" "E" (Some "uint8") None [(0%Z, "Open"); (1%Z, "Closed"); (2%Z, "Opening"); (3%Z,
    "Closing"); (4%Z, "Stopped")];
  entry "CurrentHeatingCoolingState" "F" (Some "uint8") None [(0%Z, "Off"); (1%Z, "Heat"); (2%Z, "Cool")];
  entry "CurrentRelativeHumidity" "10" (Some "float") (Some "percentage") [];
  entry "CurrentTemperature" "11" (Some "float") (Some "celsius") [];
  entry "HeatingThresholdTemperature" "12" (Some "float") (Some "celsius") [];
  entry "Hue" "13" (Some "float") (Some "arcdegrees") [];
  entry "Identify" "14" (Some "bool") None [];
  entry "LockControlPoint" "19" (Some "tlv8") None [];
  entry "LockManagementAutoSecurityTimeout" "1A" (Some "uint32") (Some "seconds") [];
  entry "LockLastKnownAction" "1C" (Some "uint8") None [(0%Z, "LastDeadbolted"); (1%Z, "LastUnlocked"); (2%Z,
    "LastLockedRemotely"); (3%Z, "LastUnlockedRemotely"); (4%Z, "LastLockedManual"); (5%Z,
    "LastUnlockedManual"); (6%Z, "AutoLock"); (7%Z, "AutoUnlock"); (8%Z, "Locked"); (9%Z, "Unlocked")];
  entry "LockCurrentState" "1D" (Some "uint8") None [(0%Z, "Unsecured"); (1%Z, "Secured"); (2%Z, "Jammed");
    (3%Z, "Unknown")];
  entry "LockTargetState" "1E" (Some "uint8") None [(0%Z, "Unsecured"); (1%Z, "Secured")];
  entry "Logs" "1F" (Some "tlv8") None [];
  entry "Manufacturer" "20" (Some "string") None [];
  entry "Model" "21" (Some "string") None [];
  entry "MotionDetected" "22" (Some "bool") None [];
  entry "Name" "23" (Some "string") None [];
  entry "ObstructionDetected" "24" (Some "bool") None [];
  entry "On" "25" (Some "bool") None [];
  entry "OutletInUse" "26" (Some "bool") None [];
  entry "RotationDirection" "28" (Some "int") None [(0%Z, "Clockwise"); (1%Z, "CounterClockwise")];
  entry "RotationSpeed" "29" (Some "float") (Some "percentage") [];
  entry "Saturation" "2F" (Some "float") (Some "percentage") [];
  entry "SerialNumber" "30" (Some "string") None [];
  entry "TargetDoorState" "32" (Some "uint8") None [(0%Z, "Open"); (1%Z, "Closed")];
  entry "TargetHeatingCoolingState" "33" (Some "uint8") None [(0%Z, "Off"); (1%Z, "Heat"); (2%Z, "Cool"); (3%Z,
    "Auto")];
  entry "TargetRelativeHumidity" "34" (Some "float") (Some "percentage") [];
  entry "TargetTemperature" "35" (Some "float") (Some "celsius") [];
  entry "TemperatureDisplayUnits" "36" (Some "uint8") None [(0%Z, "Celsius"); (1%Z, "Fahrenheit")];
  entry "Version" "37" (Some "string") None [];
  entry "PairSetup" "4C" (Some "tlv8") None [];
  entry "PairVerify" "4E" (Some "tlv8") None [];
  entry "PairingFeatures" "4F" (Some "uint8") None [];
  entry "PairingPairings" "50" (Some "tlv8") None [];
  entry "FirmwareRevision" "52" (Some "string") None [];
  entry "HardwareRevision" "53" (Some "string") None [];
  entry "AirParticulateDensity" "64" (Some "float") None [];
  entry "AirParticulateSize" "65" (Some "uint8") None [];
  entry "SecuritySystemCurrentState" "66" (Some "uint8") None [(0%Z, "StayArm"); (1%Z, "AwayArm"); (2%Z,
    "NightArm"); (3%Z, "Disarmed"); (4%Z, "AlarmTriggered")];
  entry "SecuritySystemTargetState" "67" (Some "uint8") None [(0%Z, "StayArm"); (1%Z, "AwayArm"); (2%Z,
    "NightArm"); (3%Z, "Disarmed")];
  entry "BatteryLevel" "68" (Some "uint8") (Some "percentage") [];
  entry "CarbonMonoxideDetected" "69" (Some "uint8") None [(0%Z, "NotDetected"); (1%Z, "Detected")];
  entry "ContactSensorState" "6A" (Some "uint8") None [(0%Z, "ContactDetected"); (1%Z, "ContactNotDetected")];
  entry "CurrentAmbientLightLevel" "6B" (Some "float") (Some "lux") [];
  entry "CurrentHorizontalTiltAngle" "6C" (Some "int") (Some "arcdegrees") [];
  entry "CurrentPosition" "6D" (Some "uint8") (Some "percentage") [];
  entry "CurrentVerticalTiltAngle" "6E" (Some "int") (Some "arcdegrees") [];
  entry "HoldPosition" "6F" (Some "bool") None [];
  entry "LeakDetected" "70" (Some "uint8") None [(0%Z, "LeakNotDetected"); (1%Z, "LeakDetected")];
  entry "OccupancyDetected" "71" (Some "uint8") None [(0%Z, "OccupancyNotDetected"); (1%Z, "OccupancyDetected")];
  entry "PositionState" "72" (Some "uint8") None [(0%Z, "Decreasing"); (1%Z, "Increasing"); (2%Z, "Stopped")];
  entry "ProgrammableSwitchEvent" "73" (Some "uint8") None [(0%Z, "SinglePress"); (1%Z, "DoublePress"); (2%Z,
    "LongPress")];
  entry "StatusActive" "75" (Some "bool") None [];
  entry "SmokeDetected" "76" (Some "uint8") None [(0%Z, "SmokeNotDetected"); (1%Z, "SmokeDetected")];
  entry "StatusFault" "77" (Some "uint8") None [(0%Z, "NoFault"); (1%Z, "GeneralFault")];
  entry "StatusJammed" "78" (Some "uint8") None [(0%Z, "NotJammed"); (1%Z, "Jammed")];
  entry "StatusLowBattery" "79" (Some "uint8") None [(0%Z, "Normal"); (1%Z, "Low")];
  entry "StatusTampered" "7A" (Some "uint8") None [(0%Z, "NotTampered"); (1%Z, "Tampered")];
  entry "TargetHorizontalTiltAngle" "7B" (Some "int") (Some "arcdegrees") [];
  entry "TargetPosition" "7C" (Some "uint8") (Some "percentage") [];
  entry "TargetVerticalTiltAngle" "7D" (Some "int") (Some "arcdegrees") [];
  entry "SecuritySystemAlarmType" "8E" (Some "uint8") None [];
  entry "ChargingState" "8F" (Some "uint8") None [(0%Z, "NotCharging"); (1%Z, "Charging"); (2%Z,
    "NotChargeable")];
  entry "CarbonMonoxideLevel" "90" (Some "float") None [];
  entry "CarbonMonoxidePeakLevel" "91" (Some "float") None [];
  entry "CarbonDioxideDetected" "92" (Some "uint8") None [(0%Z, "CarbonDioxideNotDetected"); (1%Z,
    "CarbonDioxideDetected")];
  entry "CarbonDioxideLevel" "93" (Some "float") None [];
  entry "CarbonDioxidePeakLevel" "94" (Some "float") None [];
  entry "AirQuality" "95" (Some "uint8") None [(0%Z, "Unknown"); (1%Z, "Excellent"); (2%Z, "Good"); (3%Z,
    "Fair"); (4%Z, "Inferior"); (5%Z, "Poor")];
  entry "AccessoryFlags" "A6" (Some "uint32") None [];
  entry "LockPhysicalControls" "A7" (Some "uint8") None [(0%Z, "ControlLockDisabled"); (1%Z,
    "ControlLockEnabled")];
  entry "TargetAirPurifierState" "A8" (Some "uint8") None [(0%Z, "Manual"); (1%Z, "Automatic")];
  entry "CurrentAirPurifierState" "A9" (Some "uint8") None [(0%Z, "Inactive"); (1%Z, "Idle"); (2%Z,
    "PurgingAir")];
  entry "CurrentSlatState" "AA" (Some "uint8") None [(0%Z, "Fixed"); (1%Z, "Jammed"); (2%Z, "Swinging")];
  entry "FilterLifeLevel" "AB" (Some "float") None [];
  entry "FilterChangeIndication" "AC" (Some "uint8") None [(0%Z, "FilterOk"); (1%Z, "ChangeFilter")];
  entry "ResetFilterIndication" "AD" (Some "uint8") None [];
  entry "TargetAirQuality" "AE" (Some "uint8") None [(0%Z, "Excellent"); (1%Z, "Good"); (2%Z, "Fair")];
  entry "CurrentFanState" "AF" (Some "uint8") None [(0%Z, "Inactive"); (1%Z, "Idle"); (2%Z, "BlowingAir")];
  entry "Active" "B0" (Some "uint8") None [(0%Z, "Inactive"); (1%Z, "Active")];
  entry "CurrentHeaterCoolerState" "B1" (Some "uint8") None [(0%Z, "Inactive"); (1%Z, "Idle"); (2%Z, "Heating");
    (3%Z, "Cooling")];
  entry "TargetHeaterCoolerState" "B2" (Some "uint8") None [(0%Z, "Automatic"); (1%Z, "Heat"); (2%Z, "Cool")];
  entry "CurrentHumidifierDehumidifierState" "B3" (Some "uint8") None [(0%Z, "Inactive"); (1%Z, "Idle"); (2%Z,
    "Humidifying"); (3%Z, "Dehumidifying")];
  entry "TargetHumidifierDehumidifierState" "B4" (Some "uint8") None [(0%Z, "Humidifier"); (1%Z,
    "Dehumidifier"); (2%Z, "HumidifierOrDehumidifier")];
  entry "WaterLevel" "B5" (Some "float") (Some "percentage") [];
  entry "SwingMode" "B6" (Some "uint8") None [(0%Z, "Disabled"); (1%Z, "Enabled")];
  entry "TargetSlatState" "BE" (Some "uint8") None [(0%Z, "Manual"); (1%Z, "Auto")];
  entry "TargetFanState" "BF" (Some "uint8") None [(0%Z, "Manual"); (1%Z, "Auto")];
  entry "SlatType" "C0" (Some "uint8") None [(0%Z, "Horizontal"); (1%Z, "Vertical")];
  entry "CurrentTiltAngle" "C1" (Some "int") (Some "arcdegrees") [];
  entry "TargetTiltAngle" "C2" (Some "int") (Some "arcdegrees") [];
  entry "OzoneDensity" "C3" (Some "float") None [];
  entry "NitrogenDioxideDensity" "C4" (Some "float") None [];
  entry "SulphurDioxideDensity" "C5" (Some "float") None [];
  entry "Pm25Density" "C6" (Some "float") None [];
  entry "Pm10Density" "C7" (Some "float") None [];
  entry "VocDensity" "C8" (Some "float") None [];
  entry "RelativeHumidityDehumidifierThreshold" "C9" (Some "float") (Some "percentage") [];
  entry "RelativeHumidityHumidifierThreshold" "CA" (Some "float") (Some "percentage") [];
  entry "ServiceLabelIndex" "CB" (Some "uint8") None [];
  entry "ServiceLabelNamespace" "CD" (Some "uint8") None [(0%Z, "Dots"); (1%Z, "ArabicNumerals")];
  entry "ColorTemperature" "CE" (Some "uint32") None [];
  entry "ProgramMode" "D1" (Some "uint8") None [(0%Z, "NoProgramScheduled"); (1%Z, "ProgramScheduled"); (2%Z,
    "ProgramScheduledManualMode")];
  entry "InUse" "D2" (Some "uint8") None [(0%Z, "NotInUse"); (1%Z, "InUse")];
  entry "SetDuration" "D3" (Some "uint32") None [];
  entry "RemainingDuration" "D4" (Some "uint32") None [];
  entry "ValveType" "D5" (Some "uint8") None [(0%Z, "GenericValve"); (1%Z, "Irrigation"); (2%Z, "ShowerHead");
    (3%Z, "WaterFaucet")];
  entry "IsConfigured" "D6" (Some "uint8") None [(0%Z, "NotConfigured"); (1%Z, "Configured")];
  entry "SupportedVideoStreamConfiguration" "114" (Some "tlv8") None [];
  entry "SupportedAudioStreamConfiguration" "115" (Some "tlv8") None [];
  entry "SupportedRtpConfiguration" "116" (Some "tlv8") None [];
  entry "SelectedRtpStreamConfiguration" "117" (Some "tlv8") None [];
  entry "SetupEndpoints" "118" (Some "tlv8") None [];
  entry "Volume" "119" (Some "uint8") (Some "percentage") [];
  entry "Mute" "11A" (Some "bool") None [];
  entry "NightVision" "11B" (Some "bool") None [];
  entry "OpticalZoom" "11C" (Some "float") None [];
  entry "DigitalZoom" "11D" (Some "float") None [];
  entry "ImageRotation" "11E" (Some "float") (Some "arcdegrees") [];
  entry "ImageMirroring" "11F" (Some "bool") None [];
  entry "StreamingStatus" "120" (Some "tlv8") None [];
  entry "ThreadNodeCapabilities" "702" (Some "uint16") None [];
  entry "ThreadStatus" "703" (Some "uint16") None []
].

Definition hap_table : Table := {| services := hap_services; characteristics := hap_characteristics |}.

(** ** The arms of the definitions of [Types] *)

Definition quoted (s : bytes) : bytes := DQUOTE ++ s ++ DQUOTE.
Definition self_variant (v : string) : bytes := str "Self::" ++ str v.
Definition uuid_value (u : Uuid) : bytes :=
  str "Uuid::from_full_unchecked(" ++ quoted (utf8_encode (as_full u)) ++ str ".to_string())".
Definition values_value (l : list (Z * string)) : bytes :=
  str "Some(&[" ++ join_with (str ", ") ((fun '(v, n) => str "(" ++ show_i64 v ++ str ", " ++ quoted (str n) ++ str ")") <$> l) ++ str "])".

Definition FROM_UUID : bytes := str "    pub fn from_uuid(u: &Uuid) -> Self {".
Definition UUID : bytes := str "    pub fn uuid(&self) -> Uuid {".

(** The text has the tables of [Types]. *)
Definition has_tables (text : bytes) : Prop :=
  arms_of text (str "ServiceType") FROM_UUID (str "u.as_full()") =
    (fun '(u, t) => (quoted (str u), self_variant (service_variant t))) <$> service_type_arms /\
  arms_of text (str "ServiceType") UUID (str "self") =
    (fun '(_, t) => (self_variant (service_variant t), uuid_value (service_type_uuid t))) <$> service_type_arms /\
  arms_of text (str "CharacteristicType") FROM_UUID (str "u.as_full()") =
    (fun '(u, t) => (quoted (str u), self_variant (characteristic_variant t))) <$> characteristic_type_arms /\
  arms_of text (str "CharacteristicType") UUID (str "self") =
    (fun '(_, t) => (self_variant (characteristic_variant t), uuid_value (characteristic_type_uuid t))) <$> characteristic_type_arms /\
  arms_of text (str "CharacteristicType") (str "    pub fn default_format(&self) -> Option<CharFormat> {") (str "self") =
    omap (fun '(_, t) => f ← characteristic_default_format t;
            Some (self_variant (characteristic_variant t), str "Some(CharFormat::" ++ str (format_name f) ++ str ")")) characteristic_type_arms /\
  arms_of text (str "CharacteristicType") (str "    pub fn unit(&self) -> Option<Unit> {") (str "self") =
    omap (fun '(_, t) => u ← characteristic_unit t;
            Some (self_variant (characteristic_variant t), str "Some(Unit::" ++ str (unit_name u) ++ str ")")) characteristic_type_arms /\
  arms_of text (str "CharacteristicType")
      (str "    pub fn valid_values(&self) -> Option<&'static [(i64, &'static str)]> {") (str "self") =
    omap (fun '(_, t) => l ← characteristic_valid_values t;
            Some (self_variant (characteristic_variant t), values_value l)) characteristic_type_arms.

#[local] Instance has_tables_dec text : Decision (has_tables text).
Proof. unfold has_tables. apply _. Defined.

(** * Theorem *)

Lemma generate_tables `{TC : TableCodec} :
  (if generate hap_table is Ok text then bool_decide (has_tables text) else false) = true.
Proof. by vm_compute. Qed.

(** The committed tables are the generated ones.  Run on hap-types.json the generator
    succeeds, whatever the machine, writes one file, and the arms of [from_uuid], [uuid],
    [default_format], [unit] and [valid_values] in it - read back from its text - are, in
    order, those of the definitions of generated.rs: the same variant for every UUID, the same
    UUID, format, unit and named values for every variant. *)
Theorem codegen_agrees `{TC : TableCodec} :
  exists text, generate hap_table = Ok text /\ has_tables text /\
    forall (S : Type) (H : Host S) (s s' : S) data,
      fs_read s TABLE_PATH = Ok data -> table_from_slice data = Ok hap_table -> fs_write OUT_PATH text s = (Ok (), s') ->
      codegen_run s = (Ok (absolute OUT_PATH), s').
Proof.
  pose proof generate_tables as Hg. destruct (generate hap_table) as [text|e|f] eqn:Hgen; [|done..].
  exists text. split; [done|]. split; [by apply bool_decide_eq_true in Hg|]. intros S H s s' data Hr Ht Hw.
  unfold codegen_run, io_context, context, with_err, lift, read. run. rewrite Hr. cbn [map_err]. rewrite Ht. cbn [map_err].
  rewrite Hgen. cbn [map_err]. by rewrite Hw.
Qed.

(** A table with a format or a unit the generator does not know makes it panic, and nothing
    is written. *)
Lemma unknown_format_panics `{TC : TableCodec} {S} `{!Host S} (s : S) data table e fmt :
  fs_read s TABLE_PATH = Ok data -> table_from_slice data = Ok table -> e ∈ characteristics table ->
  te_format e = Some fmt -> format_variant fmt = Fault Panicked -> (codegen_run s).2 = s /\ is_ok (codegen_run s).1 = false.
Proof.
  intros Hr Ht He Hf Hp. assert (is_ok (generate table) = false) as Hg.
  { unfold generate, emit_enum, emit_formats. cbn [mbind result_bind].
    assert (is_ok (mapM (M := result AnyError) format_arm (characteristics table)) = false) as Hm.
    { revert He. generalize (characteristics table) as l. induction l as [|x l IH]; intros Hin; [by apply elem_of_nil in Hin|].
      cbn [mapM]. apply elem_of_cons in Hin as [<-|Hin].
      - assert (format_arm e = Fault Panicked) as -> by (unfold format_arm; by rewrite Hf, Hp). done.
      - destruct (format_arm x); [|done..]. cbn [mbind result_bind]. specialize (IH Hin). by destruct (mapM format_arm l). }
    by destruct (mapM format_arm (characteristics table)). }
  unfold codegen_run, io_context, context, with_err, lift, read. run. rewrite Hr. cbn [map_err]. rewrite Ht. cbn [map_err].
  by destruct (generate table).
Qed.
